(* ===== verification/_CoqProject ===== *)
-Q . S2P
Prelude.v
Mem.v
CString.v
Format.v
FrameAlloc.v
Pmm.v
Vmm.v
PageTable.v
AddressSpace.v
CloneSpace.v
DestroySpace.v
Proc.v
Queues.v
Mlfq.v
Wait.v
Ring.v
Pipe.v
Keyboard.v
Mouse.v
Heap.v
Slab.v
SlabHeap.v
Malloc.v
Vfs.v
Initramfs.v
Switch.v
Ustack.v
Elf.v
ProcRing.v
Kernel.v
UserMem.v
Process.v
Schedule.v
Reap.v
Enlist.v
Liveness.v
Tty.v
Console.v
Syscall.v
Entry.v
Files.v
Fork.v
Tables.v
Devices.v
Interrupt.v
Unistd.v
Userland.v
Shell.v
Programs.v
Compositor.v
Proxy.v
Grow.v
