(* ===== verification/Prelude.v ===== *)
(** * Aeryk: a verification library for the kernel

    Aeryk is a small x86_64 kernel: a physical page allocator, four-level page
    tables with copy-on-write, preemptive processes on a multi-level feedback
    queue, pipes, a file tree mounted from a boot archive, an ELF loader, keyboard
    and mouse drivers, a text console on the frame buffer, a slab allocator in Rust,
    some twenty system calls, a C library for the programs that run on it, a shell
    and a compositor in Rust that shares windows with its clients.  This
    library is a shallow embedding of its sources: every function is a Rocq function
    of the same name, and the theorems are about those.  Paths below are under
    [src/kernel/src/arch/x86_64/] unless they say otherwise.

    ** Conventions

    A function that changes state is [M S A = S -> option (A * S)], with [S] the
    state of its component.  [None] is undefined behaviour of C (an index outside
    an array, a pointer that designates nothing) or a kernel panic.  A theorem
    [wp c Q s] says that [c] runs from [s] to an end that satisfies [Q], so that
    each of them includes termination and the absence of undefined behaviour.
    Integers are [Z], wrapped with [u8], [u16], [u32], [u64] where the code can
    leave their width.  A pointer to a heap object is a key of a table of objects
    and 0 is [NULL]; memory that is accessed as bytes (pages, page tables, stacks,
    file contents, the frame buffer) is one byte map ([Mem]).

    ** Files

    - [Prelude]: machine integers, the monad, [wp] with its tactics, counted
      loops, array accesses.  [Mem]: memory and wide accesses.
    - [CString]: string.c (memcpy, memset, memmove, memcmp, strlen) and libc's
      strcmp, with the word loops of the source.
    - [FrameAlloc]: the interface of the page allocator, a class of operations and
      a class of laws on reference counts.  [Pmm]: pmm.c, which implements it.
    - [Vmm]: vmm.c on the byte memory.  [PageTable]: the tree of tables and what
      each operation does to every translation.  [AddressSpace], [CloneSpace],
      [DestroySpace]: the theorems on map, unmap, copy-on-write faults, new
      tables, clone and destroy.  [UserMem]: the bytes a process sees, and
      copy_to_user of usercopy.c with the page-fault handler of idt.c behind it.
    - [Proc]: the process descriptor of process.h and the scheduler's state.
      [Queues]: doubly linked queues.  [Mlfq]: scheduler.c.  [ProcRing]: the ring
      of processes, waking, and the choice of the next process.  [Switch]:
      switch.asm and the stacks it starts on.  [Schedule]: the theorems on
      schedule and on the timer tick.  [Reap]: the theorem on wait_reap_child.
      [Enlist]: a new process in the ring and the queues.  [Liveness]: sequences of
      ticks, blocking, exits, wake-ups, arrivals and reaping.
    - [Wait], [Ring]: blocking and waking, circular buffers.  [Pipe],
      [Keyboard], [Mouse]: pipe.c, drivers/keyboard.c, drivers/mouse.c.
    - [Heap]: what kmalloc and kfree promise, and the abstract heap.  [Slab]: the
      slab allocator of src/crates/kernel/src/slab.rs, its lists of slabs and chains
      of chunks in the bytes of memory.  [SlabHeap]: it implements the abstract heap.
      [Vfs], [Initramfs]: fs/vfs.c and fs/initramfs.c.
    - [Elf], [Ustack]: elf.c, and the arguments on a new program's stack.
    - [Kernel]: the state of the whole kernel as one record, and the embedding of
      the components' operations.  [Process]: process.c (creation, exec, fork,
      clone, exit, reaping) and timer.c.  [Syscall]: every call of
      syscall_handler_c.  [Files]: descriptors and pipe ends across processes.
      [Grow]: mmap and brk.  [Fork]: the theorem on fork_process.
    - [Tty], [Console]: tty.c and font.c, and the grid of characters they show.
    - [Entry]: the assembly stubs (idt.asm, syscall_entry.asm, resume_usermode.asm,
      usercopy_ctx.asm, crt0.asm) as operations of a register machine.  [Tables]:
      gdt.c, the tables of idt.c, gdt_flush.asm, init_syscalls and init_vmm, with what
      the processor decodes from the packed entries.  [Devices]: drivers/serial.c,
      apic.c, timer.c and the set-up of keyboard and mouse over a class of ports;
      the classes [Uart] and [Ps2] state what the chips do.  [Interrupt]:
      isr_handler over the whole kernel.
    - [Format], [Malloc]: src/libc/stdio (format, sprintf, printf, puts, putchar)
      and src/libc/stdlib/malloc.c over sbrk.  [Unistd]: src/libc/unistd.c and exit,
      over a class of operating systems of which the kernel's dispatcher is one.
    - [Userland]: programs as trees of calls, and what all their runs satisfy for the
      answers that an environment, a class, allows.  [Shell]: src/userland/sh.c.
      [Programs]: src/userland/cat.c and tree.c.  [Compositor]: the drawing of
      src/crates/userland/compositor.  [Proxy]: its clients and their proxies.

    ** What is proved

    - Memory.  The bitmap allocator refines reference-counted pages under every
      legal sequence of calls; init_pmm builds such an allocator from the memory
      map.  On an address space, a well-formed tree of tables, map and unmap change
      exactly one translation, a copy-on-write fault leaves a private writable page
      with the same contents, a clone shares every page with exact counts, and misses
      one only when memory runs out, and destroying an address space gives back exactly
      what it held.  From these: after fork no write by either process to a private page
      is seen by the other.  mmap answers every request, accepted or not.  These theorems
      hold over every instance of [FrameAlloc], and witnesses use [Pmm].
    - Processes.  The linked ready queues refine four lists.  schedule runs the
      first process of the highest list, or the idle process, with its registers,
      stack and address space, and a process that gives way continues where it
      stopped.  A tick charges, demotes and boosts as the queues' quanta say.  fork
      makes a ready child with the memory, the descriptors and the registers of its
      parent, or fails for want of memory and leaves the parent as it was; wait gives
      back everything a dead child held.
    - Input and output.  A pipe hands out the bytes written to it in order, under
      every interleaving of readers and writers; its end counts are the number of
      descriptors that name it, across fork, dup and exit; the keyboard handler
      refines a line-editing terminal with a given layout; mouse packets and lines round-trip; the
      console shows the grid of characters that was printed.
    - Files and programs.  Path lookup is resolution in the tree; after the archive is
      read it finds exactly the files and directories of the archive; the loader
      rejects what is no executable and maps every segment of one with the bytes of
      the file and zeroes; argc and argv are where the
      start code looks for them.
    - The machine.  The stubs save and restore every register across interrupts and
      system calls and start a forked child behind its parent's call; the descriptor
      tables and model-specific registers lead where they should; the serial line
      carries what is printed; an exception in a program is a copy-on-write fault that is
      resolved or ends that program and nothing else, and one in the kernel is such a
      fault, resumes the copy in flight or stops the machine; every ready process runs
      within a bounded number of ticks, while others come and go.
    - Allocators.  The slab allocator and malloc each implement the abstract heap:
      fresh, aligned, disjoint blocks whose contents stay; malloc's loops end.
    - The formatter renders a format as its specification says, within its buffers.
    - Programs.  Every wrapper of the C library for a single call executes the operation
      of the kernel it is named after and reports its errors in errno.  The shell splits a line into its
      stages and words, starts every stage with the pipes to its neighbours and no other
      end of a pipe, waits for all of them and keeps its own descriptors; the answers it
      relies on are shown to be those of sys_close, sys_dup2 and sys_pipe.  tree prints
      the tree below a directory, and cat all of its input.  The compositor draws the
      pointer, the windows and the background without leaving its buffers; a client that
      sends a whole request gets its window, and its proxy stores whatever it sends in
      the client's slot only and then ends.
    - Eight theorems state what the code does where that is not what a comment or
      the design says: [Pmm.init_pmm_bitmap_overflow], [Mlfq.mlfq_enqueue_twice],
      [Schedule.schedule_loses_process], [Grow.brk_regrow_loses_data],
      [Keyboard.kbd_full_line_drops_newline], [Malloc.malloc_wraps],
      [Unistd.wait_any_lost] and [Proxy.empty_window_spins].

    ** Bounds and parameters

    The loops of the code that follow links have fuel: walks of the process ring
    and of the ready queues take the number of processes (plus one), which bounds a
    list without repetition; path lookup takes the length of the path; reading a
    path or an argument from user memory takes [PATH_FUEL] = 4096 bytes, more than
    any buffer of the callers, and an unterminated string is then a fault.  The
    theorems show that the fuel suffices.  Polling a status register has fuel
    [polls]: the classes of the chips bound their latency, and one poll more is
    enough.  The loops of malloc have fuel from the size of the heap, and
    [Malloc.malloc_terminates] shows that more does not change the result.  The loops
    of the shell over a line have fuel 129, one more than its bytes; those of cat and of
    a proxy have one more than the bytes they are sent; tree has 17 levels, one more
    than it descends.
    [hhdm_offset], the start of the direct
    map that the boot loader chooses, is a parameter with [hhdm_ok]: it is a page
    boundary of the upper half.  [kmapped], in the accesses to user memory, says
    which kernel addresses are mapped.  [reg], in the wrappers of the C library, is the
    register of a 32-bit operand, of which the assembly defines the low half.

    The state of the kernel has the heap ([k_heap]) apart from the pages ([k_vm]),
    although the slab allocator takes its pages from the same page allocator: the
    theorems on [Kernel] are about any heap that keeps the laws of [Heap], and
    [SlabHeap] shows that the slab allocator over any page allocator keeps them.  That the
    two never meet, because a page of the heap is in use for the page allocator, is
    not part of the model; a heap that runs out is a failed allocation in it.

    ** Not modelled

    - Translation caches: the model walks the tables at every access, as the code
      invalidates an entry whenever it changes one.
    - In user programs: the beginning of the compositor's main, which maps the frame
      buffer and the slots, changes of a slot by its proxy while it is being drawn, and
      the programs under src/userland/ and src/crates/userland/ that only exercise
      single calls.  src/libc/string/string.c repeats the routines of string.c.
    - src/kernel/src/main.c: the order in which the parts are initialised and the
      messages in between.
    - copy_from_user, which has no caller.
*)

From stdpp Require Export base tactics option list_numbers gmap numbers.
From stdpp Require Export list.

#[global] Open Scope Z_scope.

(** ** Arithmetic automation

    [lia] sees division and remainder by constants through the euclidean
    equations; every file that imports the prelude gets the hook. *)

Ltac Zify.zify_post_hook ::= Z.to_euclidean_division_equations.

(** Case analysis on the boolean comparisons the translated guards use: the
    hypothesis left in the context is the arithmetic fact. *)
Ltac case_bool :=
  match goal with
  | |- context [Z.ltb ?a ?b] => destruct (Z.ltb_spec a b)
  | |- context [Z.leb ?a ?b] => destruct (Z.leb_spec a b)
  | |- context [Z.eqb ?a ?b] => destruct (Z.eqb_spec a b)
  | H : context [Z.ltb ?a ?b] |- _ => destruct (Z.ltb_spec a b)
  | H : context [Z.leb ?a ?b] |- _ => destruct (Z.leb_spec a b)
  | H : context [Z.eqb ?a ?b] |- _ => destruct (Z.eqb_spec a b)
  end.

Ltac case_bools := repeat (case_bool; cbn [andb orb negb] in *; try lia).

(** ** Machine integers

    An unsigned C integer of width [w] is a [Z] in [0, 2^w); arithmetic that
    may leave the range is wrapped explicitly where the code computes it. *)

Definition u8 (z : Z) : Z := z mod 256.
Definition u16 (z : Z) : Z := z mod 65536.
Definition u32 (z : Z) : Z := z mod 4294967296.
Definition u64 (z : Z) : Z := z mod 18446744073709551616.

(** Two's complement reading of the low 32 (64) bits: the cast to [int]
    ([int64_t]). *)
Definition s32 (z : Z) : Z :=
  let r := u32 z in if r <? 2147483648 then r else r - 4294967296.
Definition s64 (z : Z) : Z :=
  let r := u64 z in if r <? 9223372036854775808 then r else r - 18446744073709551616.

Lemma u8_range z : 0 <= u8 z < 256.
Proof. unfold u8; lia. Qed.
Lemma u16_range z : 0 <= u16 z < 65536.
Proof. unfold u16; lia. Qed.
Lemma u32_range z : 0 <= u32 z < 4294967296.
Proof. unfold u32; lia. Qed.
Lemma u64_range z : 0 <= u64 z < 18446744073709551616.
Proof. unfold u64; lia. Qed.
Lemma u8_small z : 0 <= z < 256 -> u8 z = z.
Proof. unfold u8; lia. Qed.
Lemma u16_small z : 0 <= z < 65536 -> u16 z = z.
Proof. unfold u16; lia. Qed.
Lemma u32_small z : 0 <= z < 4294967296 -> u32 z = z.
Proof. unfold u32; lia. Qed.
Lemma u64_small z : 0 <= z < 18446744073709551616 -> u64 z = z.
Proof. unfold u64; lia. Qed.
Lemma s32_small z : 0 <= z < 2147483648 -> s32 z = z.
Proof. intros; unfold s32. rewrite u32_small by lia. case_bools. Qed.
Lemma s32_range z : -2147483648 <= s32 z < 2147483648.
Proof. unfold s32. pose proof (u32_range z). case_bools. Qed.

(** ** Bit fields *)

Lemma testbit_high x k i : 0 <= x < 2 ^ k -> 0 <= k <= i -> Z.testbit x i = false.
Proof.
  intros Hx Hi. destruct (decide (x = 0)) as [->|]; [apply Z.bits_0|]. apply Z.bits_above_log2; [lia|].
  assert (Z.log2 x < k); [|lia]. apply Z.log2_lt_pow2; lia.
Qed.

(** Or-ing a low field into a number whose low bits are clear is an addition. *)
Lemma lor_low k v d : 0 <= k -> 0 <= d < 2 ^ k -> Z.lor (v * 2 ^ k) d = v * 2 ^ k + d.
Proof.
  intros Hk Hd. symmetry. apply Z.add_nocarry_lor. apply Z.bits_inj'. intros i Hi.
  rewrite Z.land_spec, Z.bits_0. destruct (Z.ltb_spec i k).
  - by rewrite Z.mul_pow2_bits_low.
  - rewrite (testbit_high d k i) by lia. apply andb_false_r.
Qed.

(** Masking the low [k] bits of an [n]-bit number away. *)
Lemma land_high k n x : 0 <= k <= n -> 0 <= x < 2 ^ n -> Z.land x (2 ^ n - 2 ^ k) = x / 2 ^ k * 2 ^ k.
Proof.
  intros Hk Hx. replace (2 ^ n - 2 ^ k) with (Z.shiftl (Z.ones (n - k)) k).
  - apply Z.bits_inj'. intros i Hi. rewrite Z.land_spec, <- Z.shiftr_div_pow2, <- Z.shiftl_mul_pow2 by lia.
    rewrite !Z.shiftl_spec by lia. destruct (Z.ltb_spec i k).
    + rewrite !(Z.testbit_neg_r _ (i - k)) by lia. apply andb_false_r.
    + rewrite Z.shiftr_spec, Z.testbit_ones_nonneg by lia. replace (i - k + k) with i by lia.
      destruct (Z.ltb_spec (i - k) (n - k)); [apply andb_true_r|].
      by rewrite (testbit_high x n i) by lia.
  - rewrite Z.shiftl_mul_pow2, Z.ones_equiv by lia.
    replace n with ((n - k) + k) at 2 by lia. rewrite Z.pow_add_r by lia. lia.
Qed.

(** ** A state monad with undefined behaviour

    [M S A]: a computation over the state [S]; [None] is undefined behaviour
    (an access outside an object, a dereference of a pointer that designates
    no object), so proving a result for a computation proves that it stays
    defined. *)

Definition M (S A : Type) : Type := S -> option (A * S).

Definition ret {S A} (a : A) : M S A := fun s => Some (a, s).
Definition bind {S A B} (c : M S A) (k : A -> M S B) : M S B :=
  fun s => match c s with None => None | Some (a, s') => k a s' end.
Definition get {S} : M S S := fun s => Some (s, s).
Definition put {S} (s : S) : M S unit := fun _ => Some (tt, s).
Definition modify {S} (f : S -> S) : M S unit := fun s => Some (tt, f s).
Definition gets {S A} (f : S -> A) : M S A := fun s => Some (f s, s).
Definition undef {S A} : M S A := fun _ => None.

(** Lift an optional value: [None] is undefined behaviour. *)
Definition lift {S A} (o : option A) : M S A :=
  fun s => match o with None => None | Some a => Some (a, s) end.

Declare Scope monad_scope.
Delimit Scope monad_scope with monad.
Notation "x <- c ;; k" := (bind c (fun x => k))
  (at level 100, c at level 61, right associativity) : monad_scope.
Notation "c ;; k" := (bind c (fun _ => k))
  (at level 100, k at level 200, right associativity) : monad_scope.
Notation "'when' b 'do' c" := (if b then c else ret tt)
  (at level 60, b at level 59, c at level 59) : monad_scope.
#[global] Open Scope monad_scope.

(** Total-correctness weakest precondition: [c] is defined from [s] and its
    result satisfies [Q]. *)
Definition wp {S A} (c : M S A) (Q : A -> S -> Prop) (s : S) : Prop :=
  match c s with None => False | Some (a, s') => Q a s' end.

Section wp.
Context {S A B : Type}.
Implicit Types (s : S) (Q : A -> S -> Prop).

Lemma wp_ret (a : A) Q s : Q a s -> wp (ret a) Q s.
Proof. done. Qed.
Lemma wp_bind (c : M S A) (k : A -> M S B) (Q : B -> S -> Prop) s :
  wp c (fun a => wp (k a) Q) s -> wp (bind c k) Q s.
Proof. unfold wp, bind. by destruct (c s) as [[? ?]|]. Qed.
Lemma wp_bind_inv (c : M S A) (k : A -> M S B) (Q : B -> S -> Prop) s :
  wp (bind c k) Q s -> wp c (fun a => wp (k a) Q) s.
Proof. unfold wp, bind. by destruct (c s) as [[? ?]|]. Qed.
Lemma wp_get (Q : S -> S -> Prop) s : Q s s -> wp get Q s.
Proof. done. Qed.
Lemma wp_put s' (Q : unit -> S -> Prop) s : Q tt s' -> wp (put s') Q s.
Proof. done. Qed.
Lemma wp_gets (f : S -> A) Q s : Q (f s) s -> wp (gets f) Q s.
Proof. done. Qed.
Lemma wp_modify (f : S -> S) (Q : unit -> S -> Prop) s : Q tt (f s) -> wp (modify f) Q s.
Proof. done. Qed.
Lemma wp_lift (o : option A) Q s a : o = Some a -> Q a s -> wp (lift o) Q s.
Proof. by intros ->. Qed.
Lemma wp_mono (c : M S A) Q Q' s :
  wp c Q s -> (forall a s', Q a s' -> Q' a s') -> wp c Q' s.
Proof. unfold wp. destruct (c s) as [[? ?]|]; auto. Qed.
Lemma wp_run (c : M S A) Q s :
  wp c Q s <-> exists a s', c s = Some (a, s') /\ Q a s'.
Proof.
  unfold wp. destruct (c s) as [[? ?]|].
  - split; [by eauto|]. by intros (? & ? & [= <- <-] & ?).
  - split; [done|]. by intros (? & ? & ? & ?).
Qed.
Lemma wp_and (c : M S A) Q Q' s :
  wp c Q s -> wp c Q' s -> wp c (fun a s' => Q a s' /\ Q' a s') s.
Proof. unfold wp. destruct (c s) as [[? ?]|]; auto. Qed.
(** The post-condition on the outcome of an evaluated run. *)
Lemma wp_outcome (c : M S A) Q s d r :
  wp c Q s -> fst (default d (c s)) = r -> Q r (snd (default d (c s))).
Proof. unfold wp. destruct (c s) as [[? ?]|]; [|done]. by intros ? <-. Qed.
End wp.

(** One step of symbolic execution; [wp_steps] runs the deterministic prefix. *)
Ltac wp_step :=
  lazymatch goal with
  | |- wp (ret _) _ _ => apply wp_ret
  | |- wp (bind _ _) _ _ => apply wp_bind
  | |- wp get _ _ => apply wp_get
  | |- wp (put _) _ _ => apply wp_put
  | |- wp (gets _) _ _ => apply wp_gets
  | |- wp (modify _) _ _ => apply wp_modify
  end; cbv beta.
Ltac wp_steps := repeat wp_step.

(** Take the first command of a program whose specification is [H], for a program
    that starts with the same command. *)
Ltac wp_follow H :=
  wp_step; apply wp_bind_inv in H; eapply wp_mono; [exact H|]; clear H; intros ? ? H; cbv beta in H.

(** ** Counted loops

    [for_range lo n body] runs [body lo; ...; body (lo + n - 1)]: the shape of
    every [for (i = lo; i < hi; i++)] with no early exit, with [n = hi - lo]. *)
Fixpoint for_range {S} (lo : Z) (n : nat) (body : Z -> M S unit) : M S unit :=
  match n with
  | O => ret tt
  | Datatypes.S n' => body lo ;; for_range (lo + 1) n' body
  end.

(** The invariant rule for counted loops. *)
Lemma wp_for_range {S} (I : Z -> S -> Prop) (lo : Z) (n : nat) body (s : S) :
  I lo s ->
  (forall i s', lo <= i < lo + Z.of_nat n -> I i s' ->
    wp (body i) (fun _ => I (i + 1)) s') ->
  wp (for_range lo n body) (fun _ => I (lo + Z.of_nat n)) s.
Proof.
  revert lo s. induction n as [|n IH]; intros lo s HI Hbody; simpl.
  - wp_steps. by rewrite Z.add_0_r.
  - wp_steps. eapply wp_mono; [apply Hbody; [lia | done]|]. intros [] s' HI'.
    replace (lo + Z.of_nat (Datatypes.S n)) with (lo + 1 + Z.of_nat n) by lia.
    apply IH; [done|]. intros i s'' Hi. apply Hbody. lia.
Qed.

(** The pure counterpart, for loops that only transform a value. *)
Fixpoint for_up {A} (lo : Z) (n : nat) (f : Z -> A -> A) (x : A) : A :=
  match n with
  | O => x
  | Datatypes.S n' => for_up (lo + 1) n' f (f lo x)
  end.

(** [for (i = hi; i > hi - n; i--)]. *)
Fixpoint for_down {A} (hi : Z) (n : nat) (f : Z -> A -> A) (x : A) : A :=
  match n with
  | O => x
  | Datatypes.S n' => for_down (hi - 1) n' f (f hi x)
  end.

Lemma for_up_inv {A} (I : Z -> A -> Prop) lo n (f : Z -> A -> A) x :
  I lo x ->
  (forall i y, lo <= i < lo + Z.of_nat n -> I i y -> I (i + 1) (f i y)) ->
  I (lo + Z.of_nat n) (for_up lo n f x).
Proof.
  revert lo x. induction n as [|n IH]; intros lo x HI Hf; simpl.
  - by rewrite Z.add_0_r.
  - replace (lo + Z.of_nat (Datatypes.S n)) with (lo + 1 + Z.of_nat n) by lia.
    apply IH; [apply Hf; [lia|done]|]. intros i y Hi. apply Hf. lia.
Qed.

Lemma for_down_inv {A} (I : Z -> A -> Prop) hi n (f : Z -> A -> A) x :
  I hi x ->
  (forall i y, hi - Z.of_nat n < i <= hi -> I i y -> I (i - 1) (f i y)) ->
  I (hi - Z.of_nat n) (for_down hi n f x).
Proof.
  revert hi x. induction n as [|n IH]; intros hi x HI Hf; simpl.
  - by rewrite Z.sub_0_r.
  - replace (hi - Z.of_nat (Datatypes.S n)) with (hi - 1 - Z.of_nat n) by lia.
    apply IH; [apply Hf; [lia|done]|]. intros i y Hi. apply Hf. lia.
Qed.

(** ** Arrays indexed by machine integers

    A C array is a list; an index outside it is undefined behaviour. *)
Definition arr_get {A} (l : list A) (i : Z) : option A :=
  if (0 <=? i) then l !! Z.to_nat i else None.
Definition arr_set {A} (l : list A) (i : Z) (x : A) : option (list A) :=
  if (0 <=? i) && (i <? Z.of_nat (length l)) then Some (<[Z.to_nat i := x]> l) else None.

Section arrays.
Context {A : Type}.
Implicit Types (l : list A) (i j : Z) (x : A).

Lemma arr_get_Some l i : 0 <= i < Z.of_nat (length l) -> exists x, arr_get l i = Some x.
Proof.
  intros. unfold arr_get. destruct (Z.leb_spec 0 i); [|lia].
  apply lookup_lt_is_Some_2. lia.
Qed.
Lemma arr_get_range l i x : arr_get l i = Some x -> 0 <= i < Z.of_nat (length l).
Proof.
  unfold arr_get. case_bool; [|done]. intros H'%lookup_lt_Some. lia.
Qed.
Lemma arr_set_Some l i x :
  0 <= i < Z.of_nat (length l) -> arr_set l i x = Some (<[Z.to_nat i := x]> l).
Proof. intros. unfold arr_set. case_bools. done. Qed.
Lemma arr_set_inv l i x l' :
  arr_set l i x = Some l' ->
  0 <= i < Z.of_nat (length l) /\ length l' = length l /\
  forall j, arr_get l' j = if j =? i then Some x else arr_get l j.
Proof.
  unfold arr_set. case_bools; intros [= <-]; try done.
  rewrite length_insert. split_and!; [lia|lia|done|]. intros j. unfold arr_get.
  destruct (Z.eqb_spec j i) as [->|]; case_bools.
  - apply list_lookup_insert_eq. lia.
  - apply list_lookup_insert_ne. lia.
  - done.
Qed.
End arrays.

(** The bytes of a string constant. *)
From Stdlib Require Ascii String.
Fixpoint text (s : String.string) : list Z :=
  match s with String.EmptyString => [] | String.String c s' => Z.of_N (Ascii.N_of_ascii c) :: text s' end.
