(* ===== verification/Mem.v ===== *)
(** * Byte-addressed memory

    The memory the kernel reaches through its own pointers: a finite map from
    addresses to bytes, zero where nothing was written.  Wide accesses are
    little-endian, as on x86_64.  The string routines, the page tables and the
    program loader all work on this one memory. *)

From S2P Require Import Prelude.

Abbreviation memory := (gmap Z Z).

Definition load8 (m : memory) (a : Z) : Z := u8 (default 0 (m !! a)).
Definition store8 (m : memory) (a v : Z) : memory := <[a := u8 v]> m.

(** Little-endian access to [n] bytes. *)
Fixpoint load_le (m : memory) (a : Z) (n : nat) : Z :=
  match n with
  | O => 0
  | S n' => load8 m a + 256 * load_le m (a + 1) n'
  end.

Fixpoint store_le (m : memory) (a : Z) (n : nat) (v : Z) : memory :=
  match n with
  | O => m
  | S n' => store_le (store8 m a v) (a + 1) n' (v / 256)
  end.

Definition load16 m a := load_le m a 2.
Definition load32 m a := load_le m a 4.
Definition load64 m a := load_le m a 8.
Definition store32 m a v := store_le m a 4 v.
Definition store64 m a v := store_le m a 8 v.

Create HintDb mem.
Create Rewrite HintDb mem.

Lemma load8_range m a : 0 <= load8 m a < 256.
Proof. apply u8_range. Qed.

Lemma u8_load8 m a : u8 (load8 m a) = load8 m a.
Proof. apply u8_small, load8_range. Qed.

Lemma load8_store8 m a v b :
  load8 (store8 m a v) b = if b =? a then u8 v else load8 m b.
Proof.
  unfold load8, store8. destruct (Z.eqb_spec b a) as [->|].
  - rewrite lookup_insert_eq. simpl. apply u8_small, u8_range.
  - by rewrite lookup_insert_ne by lia.
Qed.

(** Every byte of a memory after a wide store: the bytes of the value inside
    the accessed range, the old bytes outside it. *)
Lemma load8_store_le n : forall m a v b,
  load8 (store_le m a n v) b =
  if (a <=? b) && (b <? a + Z.of_nat n) then u8 (v / 256 ^ (b - a)) else load8 m b.
Proof.
  induction n as [|n IH]; intros m a v b; simpl store_le.
  - case_bools; done.
  - rewrite IH, load8_store8. case_bools; try done.
    + rewrite Zdiv_Zdiv by lia. f_equal.
      replace (b - a) with (b - (a + 1) + 1) by lia.
      rewrite (Z.pow_add_r 256) by lia. f_equal. lia.
    + replace (b - a) with 0 by lia. by rewrite Z.pow_0_r, Z.div_1_r.
Qed.

Lemma load_le_range n : forall m a, 0 <= load_le m a n < 256 ^ Z.of_nat n.
Proof.
  induction n as [|n IH]; intros m a; simpl load_le.
  - simpl. lia.
  - specialize (IH m (a + 1)). pose proof (load8_range m a).
    rewrite Nat2Z.inj_succ, Z.pow_succ_r by lia. lia.
Qed.

(** The [k]-th byte of a little-endian load. *)
Lemma load_le_byte n : forall m a k,
  0 <= k < Z.of_nat n -> u8 (load_le m a n / 256 ^ k) = load8 m (a + k).
Proof.
  induction n as [|n IH]; intros m a k Hk; [lia|]. simpl load_le.
  pose proof (load8_range m a) as Hb.
  destruct (Z.eqb_spec k 0) as [->|].
  - rewrite Z.pow_0_r, Z.div_1_r, Z.add_0_r. unfold u8. lia.
  - replace k with (k - 1 + 1) at 1 by lia.
    rewrite Z.add_comm with (n := k - 1), Z.pow_add_r, Z.pow_1_r, <- Zdiv_Zdiv by lia.
    rewrite (Z.add_comm (load8 m a)), Z.mul_comm, Z.div_add_l by lia.
    rewrite (Z.div_small (load8 m a)), Z.add_0_r by lia.
    rewrite IH by lia. f_equal. lia.
Qed.

(** A load is determined by the bytes it reads. *)
Lemma load_le_ext n : forall m m' a a',
  (forall k, 0 <= k < Z.of_nat n -> load8 m (a + k) = load8 m' (a' + k)) ->
  load_le m a n = load_le m' a' n.
Proof.
  induction n as [|n IH]; intros m m' a a' H; [done|]. simpl.
  rewrite (IH m m' (a + 1) (a' + 1)).
  - specialize (H 0). rewrite !Z.add_0_r in H. rewrite H by lia. done.
  - intros k Hk. specialize (H (k + 1)). rewrite <- !Z.add_assoc, !(Z.add_comm 1).
    apply H. lia.
Qed.

Lemma load_le_store_le_eq n : forall m a v,
  load_le (store_le m a n v) a n = v mod 256 ^ Z.of_nat n.
Proof.
  induction n as [|n IH]; intros m a v.
  - simpl. by rewrite Z.mod_1_r.
  - simpl load_le. simpl store_le. rewrite IH.
    rewrite load8_store_le, load8_store8. case_bools.
    rewrite Nat2Z.inj_succ, Z.pow_succ_r by lia.
    rewrite Z.rem_mul_r by lia. unfold u8. lia.
Qed.

Lemma load_le_store_le_ne n k m a b v :
  b + Z.of_nat k <= a \/ a + Z.of_nat n <= b ->
  load_le (store_le m a n v) b k = load_le m b k.
Proof.
  intros H. apply load_le_ext. intros i Hi. rewrite load8_store_le. case_bools; done.
Qed.

Lemma load64_range m a : 0 <= load64 m a < 18446744073709551616.
Proof. exact (load_le_range 8 m a). Qed.

Lemma load64_store64_eq m a v :
  0 <= v < 18446744073709551616 -> load64 (store64 m a v) a = v.
Proof.
  intros. unfold load64, store64. rewrite load_le_store_le_eq. apply Z.mod_small.
  exact H.
Qed.

Lemma load64_store64_ne m a b v :
  b + 8 <= a \/ a + 8 <= b -> load64 (store64 m a v) b = load64 m b.
Proof. apply (load_le_store_le_ne 8 8). Qed.

Lemma load8_store64_ne m a b v :
  b < a \/ a + 8 <= b -> load8 (store64 m a v) b = load8 m b.
Proof. intros. unfold store64. rewrite load8_store_le. case_bools; done. Qed.

(** Copying a word copies its eight bytes. *)
Lemma load8_copy_word m d s b :
  load8 (store64 m d (load64 m s)) b =
  if (d <=? b) && (b <? d + 8) then load8 m (s + (b - d)) else load8 m b.
Proof.
  unfold store64, load64. rewrite load8_store_le. case_bools; try done.
  rewrite load_le_byte by lia. f_equal.
Qed.

(** Two memories that hold the same bytes. *)
Definition mem_eq (m m' : memory) : Prop := forall a, load8 m a = load8 m' a.

#[export] Instance mem_eq_equiv : Equivalence mem_eq.
Proof.
  split; unfold mem_eq; [done | by intros ?? H a | by intros ??? H1 H2 a; rewrite H1].
Qed.
#[export] Instance load8_proper : Proper (mem_eq ==> eq ==> eq) load8.
Proof. by intros m m' H a ? <-. Qed.
#[export] Instance load_le_proper : Proper (mem_eq ==> eq ==> eq ==> eq) load_le.
Proof. intros m m' H a ? <- n ? <-. apply load_le_ext. auto. Qed.
#[export] Instance store_le_proper : Proper (mem_eq ==> eq ==> eq ==> eq ==> mem_eq) store_le.
Proof.
  intros m m' H a ? <- n ? <- v ? <- b. rewrite !load8_store_le. by rewrite (H b).
Qed.

#[export] Hint Resolve load8_range load64_range : mem.
#[export] Hint Rewrite load8_store8 load8_copy_word : mem.

(** ** Words and byte strings in memory *)

Definition words_at (m : memory) (a : Z) (l : list Z) : Prop :=
  forall i w, l !! i = Some w -> load64 m (a + 8 * Z.of_nat i) = w.

Definition word (v : Z) : Prop := 0 <= v < 18446744073709551616.

Lemma words_at_cons m a w l : words_at m a (w :: l) <-> load64 m a = w /\ words_at m (a + 8) l.
Proof.
  split.
  - intros H. split; [rewrite <- (Z.add_0_r a); by apply (H 0%nat)|].
    intros i x Hi. replace (a + 8 + 8 * Z.of_nat i) with (a + 8 * Z.of_nat (S i)) by lia. by apply H.
  - intros [H1 H2] [|i] x Hx; [injection Hx as <-; rewrite Z.add_0_r; exact H1|].
    replace (a + 8 * Z.of_nat (S i)) with (a + 8 + 8 * Z.of_nat i) by lia. by apply H2.
Qed.

(** The words of [l] only depend on the bytes they occupy. *)
Lemma words_at_ext m m' a l :
  (forall b, a <= b < a + 8 * Z.of_nat (length l) -> load8 m' b = load8 m b) ->
  words_at m a l -> words_at m' a l.
Proof.
  intros He H i w Hi. rewrite <- (H i w Hi). apply lookup_lt_Some in Hi. unfold load64. apply load_le_ext.
  intros k Hk. apply He. lia.
Qed.

Definition bytes_in (m : memory) (a : Z) (l : list Z) : Prop :=
  forall i c, l !! i = Some c -> load8 m (a + Z.of_nat i) = c.
Lemma bytes_in_cons m a c l : bytes_in m a (c :: l) -> load8 m a = c /\ bytes_in m (a + 1) l.
Proof.
  intros Hb. split; [rewrite <- (Z.add_0_r a); by apply (Hb 0%nat)|].
  intros i x Hi. replace (a + 1 + Z.of_nat i) with (a + Z.of_nat (S i)) by lia. by apply Hb.
Qed.
Lemma bytes_in_nil m a : bytes_in m a [].
Proof. intros i c. by rewrite lookup_nil. Qed.
Lemma bytes_in_ext m m' a l :
  (forall b, a <= b < a + Z.of_nat (length l) -> load8 m' b = load8 m b) ->
  bytes_in m a l -> bytes_in m' a l.
Proof. intros He H i c Hi. rewrite <- (H i c Hi). apply He. apply lookup_lt_Some in Hi. lia. Qed.
Lemma words_at_nil m a : words_at m a [].
Proof. intros i w. by rewrite lookup_nil. Qed.

Fixpoint store_bytes (m : memory) (a : Z) (l : list Z) : memory :=
  match l with [] => m | c :: l' => store_bytes (store8 m a c) (a + 1) l' end.
Lemma store_bytes_spec l : forall m a,
  Forall (fun c => 0 <= c < 256) l ->
  bytes_in (store_bytes m a l) a l /\
  (forall b, ~ (a <= b < a + Z.of_nat (length l)) -> load8 (store_bytes m a l) b = load8 m b).
Proof.
  induction l as [|c l IH]; intros m a Hl; [split; [apply bytes_in_nil|done]|].
  apply Forall_cons in Hl as [Hc Hl]. destruct (IH (store8 m a c) (a + 1) Hl) as [H1 H2]. cbn [store_bytes length].
  split.
  - intros i x Hi. destruct i as [|i].
    + injection Hi as <-. rewrite H2 by lia. rewrite load8_store8, Z.add_0_r, Z.eqb_refl. by apply u8_small.
    + replace (a + Z.of_nat (S i)) with (a + 1 + Z.of_nat i) by lia. by apply H1.
  - intros b Hb. rewrite H2, load8_store8 by lia. destruct (Z.eqb_spec b a); [lia|done].
Qed.

Fixpoint store_words (m : memory) (a : Z) (l : list Z) : memory :=
  match l with [] => m | w :: l' => store_words (store64 m a w) (a + 8) l' end.
Lemma store_words_spec l : forall m a,
  Forall word l ->
  words_at (store_words m a l) a l /\
  (forall b, ~ (a <= b < a + 8 * Z.of_nat (length l)) -> load8 (store_words m a l) b = load8 m b).
Proof.
  induction l as [|w l IH]; intros m a Hl; [split; [apply words_at_nil|done]|].
  apply Forall_cons in Hl as [Hw Hl]. destruct (IH (store64 m a w) (a + 8) Hl) as [H1 H2]. cbn [store_words length].
  split.
  - apply words_at_cons. split; [|done]. transitivity (load64 (store64 m a w) a); [|by apply load64_store64_eq].
    apply load_le_ext. intros k Hk. apply H2. lia.
  - intros b Hb. rewrite H2 by lia. apply load8_store64_ne. lia.
Qed.

(** ** What a change of memory leaves alone *)

Definition changes (m m' : memory) (P : Z -> Prop) : Prop := forall b, ~ P b -> load8 m' b = load8 m b.

Lemma changes_refl m P : changes m m P.
Proof. done. Qed.
Lemma changes_trans m1 m2 m3 P : changes m1 m2 P -> changes m2 m3 P -> changes m1 m3 P.
Proof. intros H1 H2 b Hb. rewrite H2, H1; done. Qed.
Lemma changes_mono m m' P P' : changes m m' P -> (forall b, P b -> P' b) -> changes m m' P'.
Proof. intros H HP b Hb. apply H. intros ?. by apply Hb, HP. Qed.
Lemma changes_store m a v (P : Z -> Prop) : (forall b, a <= b < a + 8 -> P b) -> changes m (store64 m a v) P.
Proof. intros HP b Hb. apply load8_store64_ne. destruct (decide (a <= b < a + 8)); [|lia]. by destruct Hb; apply HP. Qed.
Lemma changes_load m m' P a n : changes m m' P -> (forall b, a <= b < a + Z.of_nat n -> ~ P b) -> load_le m' a n = load_le m a n.
Proof. intros H HP. apply load_le_ext. intros k Hk. apply H, HP. lia. Qed.

Lemma changes_load64 m m' P a : changes m m' P -> (forall b, a <= b < a + 8 -> ~ P b) -> load64 m' a = load64 m a.
Proof. apply (changes_load m m' P a 8). Qed.
Lemma changes_load32 m m' P a : changes m m' P -> (forall b, a <= b < a + 4 -> ~ P b) -> load32 m' a = load32 m a.
Proof. apply (changes_load m m' P a 4). Qed.
Lemma changes_store32 m a v (P : Z -> Prop) : (forall b, a <= b < a + 4 -> P b) -> changes m (store32 m a v) P.
Proof.
  intros HP b Hb. unfold store32. rewrite load8_store_le. case_bools; try done. by destruct Hb; apply HP; lia.
Qed.
Lemma load32_store32_eq m a v : 0 <= v < 4294967296 -> load32 (store32 m a v) a = v.
Proof. intros Hv. unfold load32, store32. rewrite load_le_store_le_eq. change (256 ^ Z.of_nat 4) with 4294967296. lia. Qed.
Lemma load32_store64_ne m a b v : b + 4 <= a \/ a + 8 <= b -> load32 (store64 m a v) b = load32 m b.
Proof. intros Hb. apply (load_le_store_le_ne 8 4). lia. Qed.
