(* ===== verification/CString.v ===== *)
(** * The string routines of the kernel (string.c) and of libc

    [memcpy], [memset] and [memmove] move eight bytes per iteration and finish
    byte by byte; the theorems relate every byte of the resulting memory to the
    initial memory.  Each routine returns its [dest] argument in the code; the
    definitions return the memory. *)

From S2P Require Import Prelude Mem.

(** [sizeof(uint64_t)]. *)
Abbreviation WORD := 8 (only parsing).

(** One iteration of the word loop and of the byte loop. *)
Definition copy_word (dest src i : Z) (m : memory) : memory :=
  store64 m (dest + WORD * i) (load64 m (src + WORD * i)).
Definition copy_byte (dest src i : Z) (m : memory) : memory :=
  store8 m (dest + i) (load8 m (src + i)).

Definition memcpy (m : memory) (dest src n : Z) : memory :=
  let words := n / WORD in
  let m := for_up 0 (Z.to_nat words) (copy_word dest src) m in
  for_up (words * WORD) (Z.to_nat (n - words * WORD)) (copy_byte dest src) m.

(** The 64-bit pattern that repeats a byte. *)
Definition memset_pattern (byte : Z) : Z :=
  let pattern := byte in
  let pattern := Z.lor pattern (u64 (Z.shiftl pattern 8)) in
  let pattern := Z.lor pattern (u64 (Z.shiftl pattern 16)) in
  Z.lor pattern (u64 (Z.shiftl pattern 32)).

Definition memset (m : memory) (dest c n : Z) : memory :=
  let byte := u8 c in
  let pattern := memset_pattern byte in
  let words := n / WORD in
  let m := for_up 0 (Z.to_nat words) (fun i m => store64 m (dest + WORD * i) pattern) m in
  for_up (words * WORD) (Z.to_nat (n - words * WORD)) (fun i m => store8 m (dest + i) byte) m.

Definition memmove (m : memory) (dest src n : Z) : memory :=
  if dest <? src then
    let words := n / WORD in
    let m := for_up 0 (Z.to_nat words) (copy_word dest src) m in
    for_up (words * WORD) (Z.to_nat (n - words * WORD)) (copy_byte dest src) m
  else if src <? dest then
    let tail_bytes := n mod WORD in
    let m := for_down n (Z.to_nat tail_bytes) (fun i => copy_byte dest src (i - 1)) m in
    let words := (n - tail_bytes) / WORD in
    for_down words (Z.to_nat words) (fun i => copy_word dest src (i - 1)) m
  else m.

Fixpoint memcmp_from (m : memory) (s1 s2 i : Z) (n : nat) : Z :=
  match n with
  | O => 0
  | S n' =>
      let b1 := load8 m (s1 + i) in
      let b2 := load8 m (s2 + i) in
      if negb (b1 =? b2) then (if b1 <? b2 then -1 else 1)
      else memcmp_from m s1 s2 (i + 1) n'
  end.
Definition memcmp (m : memory) (s1 s2 n : Z) : Z := memcmp_from m s1 s2 0 (Z.to_nat n).

(** [while (str[len]) len++;]: the fuel bounds the scan; [None] when the fuel
    ends before a NUL byte is met. *)
Fixpoint strlen_from (m : memory) (str len : Z) (fuel : nat) : option Z :=
  match fuel with
  | O => None
  | S fuel' => if load8 m (str + len) =? 0 then Some len
               else strlen_from m str (len + 1) fuel'
  end.
Definition strlen (m : memory) (str : Z) (fuel : nat) : option Z := strlen_from m str 0 fuel.

(** libc [strcmp]: the difference of the first differing bytes. *)
Fixpoint strcmp (m : memory) (s1 s2 : Z) (fuel : nat) : option Z :=
  match fuel with
  | O => None
  | S fuel' =>
      if negb (load8 m s1 =? 0) && (load8 m s1 =? load8 m s2)
      then strcmp m (s1 + 1) (s2 + 1) fuel'
      else Some (load8 m s1 - load8 m s2)
  end.

(** The specification of a block copy: [n] bytes at [dest] are the bytes [src]
    had initially, every other byte is unchanged. *)
Definition block_copied (m m' : memory) (dest src n : Z) : Prop :=
  forall a, load8 m' a =
    if (dest <=? a) && (a <? dest + n) then load8 m (src + (a - dest)) else load8 m a.

(** A NUL-terminated string with contents [bs] at [a]. *)
Fixpoint cstring (m : memory) (a : Z) (bs : list Z) : Prop :=
  match bs with
  | [] => load8 m a = 0
  | b :: bs' => load8 m a = b /\ b <> 0 /\ cstring m (a + 1) bs'
  end.

Section copy_loops.
Context (m : memory) (dest src : Z).

(** Ascending word copies, when no word is overwritten before it is read. *)
Lemma copy_words_up k :
  (dest <= src \/ src + 8 * Z.of_nat k <= dest) ->
  block_copied m (for_up 0 k (copy_word dest src) m) dest src (8 * Z.of_nat k).
Proof.
  intros Hov.
  apply (for_up_inv (fun i m' => block_copied m m' dest src (8 * i))).
  - intros a. case_bools; done.
  - intros i y Hi HI a. unfold copy_word. rewrite load8_copy_word, !HI.
    case_bools; try done; f_equal; lia.
Qed.

Lemma copy_bytes_up lo k m0 :
  (dest <= src \/ src + lo + Z.of_nat k <= dest) -> 0 <= lo ->
  block_copied m m0 dest src lo ->
  block_copied m (for_up lo k (copy_byte dest src) m0) dest src (lo + Z.of_nat k).
Proof.
  intros Hov Hlo H0.
  apply (for_up_inv (fun i m' => block_copied m m' dest src i)); [done|].
  intros i y Hi HI a. unfold copy_byte. rewrite load8_store8, u8_load8, !HI.
  case_bools; try done; f_equal; lia.
Qed.

(** Descending copies: the upper part [lo, n) of the block is in place. *)
Definition upper_copied (m' : memory) (lo n : Z) : Prop :=
  forall a, load8 m' a =
    if (dest + lo <=? a) && (a <? dest + n) then load8 m (src + (a - dest)) else load8 m a.

Lemma copy_bytes_down n k :
  src < dest -> Z.of_nat k <= n ->
  upper_copied (for_down n k (fun i => copy_byte dest src (i - 1)) m) (n - Z.of_nat k) n.
Proof.
  intros Hlt Hk.
  apply (for_down_inv (fun i m' => upper_copied m' i n)).
  - intros a. case_bools; done.
  - intros i y Hi HI a. unfold copy_byte. rewrite load8_store8, u8_load8, !HI.
    case_bools; try done; f_equal; lia.
Qed.

Lemma copy_words_down w m0 n :
  src < dest -> 8 * w <= n -> 0 <= w -> upper_copied m0 (8 * w) n ->
  upper_copied (for_down w (Z.to_nat w) (fun i => copy_word dest src (i - 1)) m0) 0 n.
Proof.
  intros Hlt Hw Hw0 H0.
  replace 0 with (8 * (w - Z.of_nat (Z.to_nat w))) by lia.
  apply (for_down_inv (fun i m' => upper_copied m' (8 * i) n)); [done|].
  intros i y Hi HI a. unfold copy_word. rewrite load8_copy_word, !HI.
  case_bools; try done; f_equal; lia.
Qed.
End copy_loops.

Lemma up_copied m dest src n :
  0 <= n -> (dest <= src \/ src + n <= dest) ->
  block_copied m (memcpy m dest src n) dest src n.
Proof.
  intros Hn Hov. unfold memcpy.
  set (m1 := for_up 0 _ _ _). set (k := Z.to_nat (n - n / 8 * 8)).
  assert (H1 : block_copied m m1 dest src (n / 8 * 8)).
  { replace (n / 8 * 8) with (8 * Z.of_nat (Z.to_nat (n / 8))) by lia.
    apply copy_words_up. lia. }
  apply (copy_bytes_up m dest src (n / 8 * 8) k) in H1; [|lia..].
  by replace (n / 8 * 8 + Z.of_nat k) with n in H1 by lia.
Qed.

(** [memcpy] copies a block between disjoint buffers: word loop and byte
    tail together write exactly the [n] bytes of [src] to [dest] and nothing
    else. *)
Theorem memcpy_correct (m : memory) (dest src n : Z) :
  0 <= n -> (dest + n <= src \/ src + n <= dest) ->
  block_copied m (memcpy m dest src n) dest src n.
Proof. intros Hn Hov. apply up_copied; lia. Qed.

Lemma memmove_spec (m : memory) (dest src n : Z) :
  0 <= n -> block_copied m (memmove m dest src n) dest src n.
Proof.
  intros Hn. unfold memmove.
  destruct (Z.ltb_spec dest src); [|destruct (Z.ltb_spec src dest)].
  - apply (up_copied m dest src n); lia.
  - intros a. rewrite (copy_words_down m dest src _ _ n); try lia.
    + by rewrite Z.add_0_r.
    + replace (8 * ((n - n mod 8) / 8)) with (n - Z.of_nat (Z.to_nat (n mod 8))) by lia.
      apply copy_bytes_down; lia.
  - intros a. replace src with dest by lia. case_bools; f_equal; lia.
Qed.

(** [memmove] is correct for every pair of buffers, overlapping or not: the
    [n] bytes at [dest] are the bytes [src] held before the call. *)
Theorem memmove_correct (m : memory) (dest src n : Z) :
  0 <= n -> block_copied m (memmove m dest src n) dest src n.
Proof. apply memmove_spec. Qed.

(** A witness for the two copy theorems: nine bytes moved up by three inside
    one buffer. *)
Definition demo_mem : memory :=
  for_up 0 9 (fun i m => store8 m (4096 + i) (65 + i)) ∅.

Lemma memcpy_correct_witness :
  block_copied demo_mem (memcpy demo_mem 8192 4096 9) 8192 4096 9 /\
  load8 (memcpy demo_mem 8192 4096 9) 8200 = 73.
Proof. split; [apply (memcpy_correct demo_mem 8192 4096 9); lia | by vm_compute]. Defined.

Lemma memmove_correct_witness :
  block_copied demo_mem (memmove demo_mem 4099 4096 9) 4099 4096 9 /\
  load8 (memmove demo_mem 4099 4096 9) 4107 = 73.
Proof. split; [apply (memmove_correct demo_mem 4099 4096 9); lia | by vm_compute]. Defined.

Definition all_bytes : list Z := seqZ 0 256.

Lemma byte_in_all b : 0 <= b < 256 -> b ∈ all_bytes.
Proof. intros. apply elem_of_seqZ. lia. Qed.

(** The pattern repeats the byte in all eight positions (checked on all 256
    bytes). *)
Lemma memset_pattern_byte b k :
  0 <= b < 256 -> 0 <= k < 8 -> u8 (memset_pattern b / 256 ^ k) = b.
Proof.
  intros Hb Hk.
  assert (H : forallb (fun b => forallb (fun k =>
    u8 (memset_pattern b / 256 ^ k) =? b) (seqZ 0 8)) all_bytes = true) by by vm_compute.
  rewrite forallb_forall in H. specialize (H b).
  rewrite <- list_elem_of_In, forallb_forall in H.
  apply Z.eqb_eq, (H (byte_in_all b Hb)). apply list_elem_of_In, elem_of_seqZ. lia.
Qed.

Lemma memset_spec (m : memory) (dest c n a : Z) :
  0 <= n ->
  load8 (memset m dest c n) a =
  if (dest <=? a) && (a <? dest + n) then u8 c else load8 m a.
Proof.
  intros Hn. unfold memset. set (m1 := for_up 0 _ _ _).
  assert (H1 : forall a, load8 m1 a =
    if (dest <=? a) && (a <? dest + 8 * Z.of_nat (Z.to_nat (n / 8)))
    then u8 c else load8 m a).
  { apply (for_up_inv (fun i m' => forall a, load8 m' a =
      if (dest <=? a) && (a <? dest + 8 * i) then u8 c else load8 m a)).
    - intros b. case_bools; done.
    - intros i y Hi HI b. unfold store64. rewrite load8_store_le, HI.
      case_bools; try done. apply memset_pattern_byte; [apply u8_range|lia]. }
  set (k := Z.to_nat (n - n / 8 * 8)).
  replace n with (n / 8 * 8 + Z.of_nat k) at 2 by lia.
  revert a. apply (for_up_inv (fun i m' => forall a, load8 m' a =
    if (dest <=? a) && (a <? dest + i) then u8 c else load8 m a)).
  - intros b. rewrite H1. by replace (8 * Z.of_nat (Z.to_nat (n / 8))) with (n / 8 * 8) by lia.
  - intros i y Hi HI b. rewrite load8_store8, HI, u8_small by apply u8_range.
    case_bools; done.
Qed.

(** Words of a cleared block. *)
Lemma load_le_memset_in m d n a k :
  0 <= n -> d <= a -> a + Z.of_nat k <= d + n -> load_le (memset m d 0 n) a k = 0.
Proof.
  intros Hn. revert a. induction k as [|k IH]; intros a Ha Hk; [done|]. cbn [load_le].
  rewrite memset_spec, IH by lia. case_bools. done.
Qed.
Lemma load_le_memset_out m d c n a k :
  0 <= n -> a + Z.of_nat k <= d \/ d + n <= a -> load_le (memset m d c n) a k = load_le m a k.
Proof.
  intros Hn Hout. apply load_le_ext. intros i Hi. rewrite memset_spec by done. case_bools; done.
Qed.

(** [memset] writes [(uint8_t)c] to exactly the [n] bytes at [dest]. *)
Theorem memset_correct (m : memory) (dest c n a : Z) :
  0 <= n ->
  load8 (memset m dest c n) a =
  if (dest <=? a) && (a <? dest + n) then u8 c else load8 m a.
Proof. apply memset_spec. Qed.

Lemma memset_correct_witness :
  load8 (memset demo_mem 4098 (-1) 5) 4102 = 255 /\
  load8 (memset demo_mem 4098 (-1) 5) 4103 = 72.
Proof. split; (rewrite memset_correct by lia); by vm_compute. Defined.

(** The block comparison of C: equal blocks, or the sign of the first
    difference, with everything before it equal. *)
Lemma memcmp_from_spec n : forall m s1 s2 i,
  let r := memcmp_from m s1 s2 i n in
  (r = 0 /\ forall k, i <= k < i + Z.of_nat n -> load8 m (s1 + k) = load8 m (s2 + k)) \/
  exists k, i <= k < i + Z.of_nat n /\
    (forall j, i <= j < k -> load8 m (s1 + j) = load8 m (s2 + j)) /\
    ((r = -1 /\ load8 m (s1 + k) < load8 m (s2 + k)) \/
     (r = 1 /\ load8 m (s2 + k) < load8 m (s1 + k))).
Proof.
  induction n as [|n IH]; intros m s1 s2 i r.
  { left. split; [done|]. intros; lia. }
  subst r. cbn [memcmp_from].
  destruct (Z.eqb_spec (load8 m (s1 + i)) (load8 m (s2 + i))) as [E|E]; cbn [negb].
  - destruct (IH m s1 s2 (i + 1)) as [[-> H]|(k & Hk & Hj & H)].
    + left. split; [done|]. intros k Hk.
      destruct (Z.eqb_spec k i) as [->|]; [done|apply H; lia].
    + right. exists k. split; [lia|]. split; [|done]. intros j Hj'.
      destruct (Z.eqb_spec j i) as [->|]; [done|apply Hj; lia].
  - right. exists i. split; [lia|]. split; [intros; lia|].
    destruct (Z.ltb_spec (load8 m (s1 + i)) (load8 m (s2 + i))); [left|right]; split; lia.
Qed.

(** [memcmp] returns 0 exactly when the two blocks hold the same bytes;
    otherwise the sign of its result orders the first bytes that differ. *)
Theorem memcmp_correct (m : memory) (s1 s2 n : Z) :
  (memcmp m s1 s2 n = 0 <->
    forall k, 0 <= k < n -> load8 m (s1 + k) = load8 m (s2 + k)) /\
  (memcmp m s1 s2 n <> 0 ->
    exists k, 0 <= k < n /\
      (forall j, 0 <= j < k -> load8 m (s1 + j) = load8 m (s2 + j)) /\
      (memcmp m s1 s2 n < 0 <-> load8 m (s1 + k) < load8 m (s2 + k))).
Proof.
  unfold memcmp.
  destruct (memcmp_from_spec (Z.to_nat n) m s1 s2 0) as [[E H]|(k & Hk & Hj & H)].
  - split; [split; [intros _ k Hk; apply H; lia|done]|]. lia.
  - split; [split; [lia|]|].
    + intros Hall. specialize (Hall k). lia.
    + intros _. exists k. split; [lia|]. split; [done|]. lia.
Qed.

(** A string ends at its NUL byte: enough fuel finds it. *)
Lemma strlen_from_cstring bs : forall m a len fuel,
  cstring m (a + len) bs -> (length bs < fuel)%nat ->
  strlen_from m a len fuel = Some (len + Z.of_nat (length bs)).
Proof.
  induction bs as [|b bs IH]; intros m a len fuel H Hf;
    (destruct fuel as [|fuel]; [simpl in Hf; lia|]); cbn [strlen_from]; simpl in H.
  - rewrite H. simpl. f_equal. lia.
  - destruct H as (Hb & Hnz & H). rewrite Hb. case_bools.
    rewrite IH; [f_equal; simpl; lia| |simpl in Hf; lia].
    by replace (a + (len + 1)) with (a + len + 1) by lia.
Qed.

Lemma strlen_cstring m a bs fuel :
  cstring m a bs -> (length bs < fuel)%nat ->
  strlen m a fuel = Some (Z.of_nat (length bs)).
Proof.
  intros. unfold strlen. rewrite (strlen_from_cstring bs); [done| |done].
  by rewrite Z.add_0_r.
Qed.

(** [strcmp] decides equality of strings. *)
Lemma strcmp_cstring bs1 : forall bs2 m s1 s2 fuel,
  cstring m s1 bs1 -> cstring m s2 bs2 -> (length bs1 < fuel)%nat ->
  exists r, strcmp m s1 s2 fuel = Some r /\ (r = 0 <-> bs1 = bs2).
Proof.
  induction bs1 as [|b1 bs1 IH]; intros bs2 m s1 s2 fuel H1 H2 Hf;
    (destruct fuel as [|fuel]; [simpl in Hf; lia|]); cbn [strcmp]; simpl in H1.
  - rewrite H1. simpl. eexists; split; [done|].
    destruct bs2 as [|b2 bs2]; simpl in H2; [by rewrite H2|].
    destruct H2 as (-> & ? & _). split; [lia|done].
  - destruct H1 as (-> & Hnz & H1). destruct bs2 as [|b2 bs2]; simpl in H2.
    + rewrite H2. case_bools. eexists; split; [done|]. split; [lia|done].
    + destruct H2 as (-> & Hnz2 & H2). destruct (Z.eqb_spec b1 b2) as [->|]; case_bools.
      * destruct (IH bs2 m (s1 + 1) (s2 + 1) fuel H1 H2) as (r & -> & Hr);
          [simpl in Hf; lia|]. eexists; split; [done|]. rewrite Hr. split; congruence.
      * eexists; split; [done|]. split; [lia|congruence].
Qed.
