(* ===== verification/Format.v ===== *)
(** * Formatted output of the C library (libc/stdio)

    [__vcbprintf], the conversions it knows, and the functions built on it:
    [sprintf], [printf], [putchar] and [puts].  A C string is the list of its
    bytes without the final zero, a [va_list] the list of the arguments. *)

From S2P Require Import Prelude Mem.

(** ** The code *)

Definition INT_MAX : Z := 2147483647.
Definition EOF : Z := -1.

(** An argument of a variadic call: an [int] or [unsigned], a pointer that is
    printed, or a pointer to a string. *)
Inductive arg := Int (n : Z) | Ptr (p : Z) | Str (s : list Z).

Definition lower : list Z := [48; 49; 50; 51; 52; 53; 54; 55; 56; 57; 97; 98; 99; 100; 101; 102].
Definition upper : list Z := [48; 49; 50; 51; 52; 53; 54; 55; 56; 57; 65; 66; 67; 68; 69; 70].

(** The [do] loop of [utoa]; [room] is what is left of [tmp]. *)
Fixpoint utoa_loop (room : nat) (digits : list Z) (value base : Z) (tmp : list Z) : option (list Z) :=
  match room with
  | O => None
  | S room' =>
      match digits !! Z.to_nat (value mod base) with
      | None => None
      | Some d =>
          let tmp := tmp ++ [d] in
          let value := value / base in
          if value =? 0 then Some tmp else utoa_loop room' digits value base tmp
      end
  end.

(** [buf[i] = tmp[len - 1 - i]] for every [i]; [cap] is the size of [buf]. *)
Definition utoa (value base : Z) (uppercase : bool) (cap : nat) : option (list Z) :=
  match utoa_loop 32 (if uppercase then upper else lower) value base [] with
  | None => None
  | Some tmp =>
      let len := length tmp in
      if decide (len <= cap)%nat then mapM (fun i => tmp !! (len - 1 - i)%nat) (seq 0 len) else None
  end.

(** The byte behind a position of a format string: 0 at its end. *)
Definition at0 (f : list Z) : Z := match f with [] => 0 | c :: _ => c end.

(** [while (format[amount] && format[amount] != '%') amount++;] *)
Fixpoint run_length (f : list Z) : nat :=
  match f with
  | [] => 0
  | c :: f' => if c =? 37 then 0 else S (run_length f')
  end.

(** The text of one conversion, the [format_sink] data of its branch: what [c]
    makes of the next argument; [None] is a mismatch with the argument or an
    overflow of the local buffer. *)
Definition convert (c : Z) (a : arg) : option (list Z) :=
  match a with
  | Int n =>
      if c =? 99 then Some [u8 n]
      else if c =? 100 then
        let num := s32 n in
        let mag := if num <? 0 then u64 (- num) else num in
        let sign := if num <? 0 then [45] else [] in
        app sign <$> utoa mag 10 false (12 - length sign)
      else if c =? 117 then utoa (u32 n) 10 false 10
      else if c =? 120 then utoa (u32 n) 16 false 8
      else None
  | Ptr p => if c =? 112 then app [48; 120] <$> utoa (u64 p) 16 false 16 else None
  | Str s => if c =? 115 then Some s else None
  end.
Definition is_conversion (c : Z) : bool :=
  (c =? 99) || (c =? 112) || (c =? 100) || (c =? 117) || (c =? 120) || (c =? 115).

Section format.
Context {S : Type} (sink : list Z -> M S bool).

(** [if (maxrem < len) return -1; if (!sink(ctx, data, len)) return -1; written += len;] *)
Definition emit (written : Z) (data : list Z) (k : Z -> M S Z) : M S Z :=
  let len := Z.of_nat (length data) in
  if INT_MAX - written <? len then ret (-1)
  else
    ok <- sink data ;;
    if ok : bool then k (written + len) else ret (-1).

Fixpoint vcbprintf (fuel : nat) (f : list Z) (args : list arg) (written : Z) : M S Z :=
  match fuel with
  | O => undef
  | Datatypes.S fuel' =>
      match f with
      | [] => ret written
      | c0 :: f1 =>
          if negb (c0 =? 37) || (at0 f1 =? 37) then
            let f := if c0 =? 37 then f1 else f in
            let amount := Datatypes.S (run_length (tail f)) in
            emit written (take amount f) (vcbprintf fuel' (drop amount f) args)
          else if is_conversion (at0 f1) then
            a <- lift (head args) ;;
            data <- lift (convert (at0 f1) a) ;;
            emit written data (vcbprintf fuel' (tail f1) (tail args))
          else emit written f (vcbprintf fuel' [] args)
      end
  end.
(** The format gets shorter in every round. *)
Definition __vcbprintf (f : list Z) (args : list arg) : M S Z := vcbprintf (Datatypes.S (length f)) f args 0.
End format.

(** *** [sprintf]: the context is the pointer into the buffer *)

Definition buffer_sink (data : list Z) : M (Z * memory) bool :=
  s <- get ;;
  put (fst s + Z.of_nat (length data), store_bytes (snd s) (fst s) data) ;;
  ret true.

Definition sprintf (str : Z) (f : list Z) (args : list arg) : M memory Z := fun m =>
  match __vcbprintf buffer_sink f args (str, m) with
  | None => None
  | Some (written, (buf, m)) => Some (written, if 0 <=? written then store8 m buf 0 else m)
  end.

(** *** Output to the console, through the system call [write] *)

Section console.
Context {S : Type} (write : Z -> list Z -> M S Z).

Definition putchar (ic : Z) : M S Z :=
  let c := u8 ic in
  n <- write 1 [c] ;;
  ret (if n =? 1 then c else EOF).

Fixpoint console_sink (data : list Z) : M S bool :=
  match data with
  | [] => ret true
  | c :: data' =>
      r <- putchar c ;;
      if r =? EOF then ret false else console_sink data'
  end.

Definition printf (f : list Z) (args : list arg) : M S Z := __vcbprintf console_sink f args.

Definition puts (s : list Z) : M S Z :=
  n <- write 1 s ;;
  if negb (n =? Z.of_nat (length s)) then ret EOF else
  r <- putchar 10 ;;
  ret (if r =? EOF then EOF else 0).
End console.

(** ** Numerals *)

Definition digit_value (c : Z) : Z := if c <? 58 then c - 48 else c - 87.
Definition digit (base c : Z) : Prop := c ∈ lower /\ digit_value c < base.
Definition num_value (base : Z) (ds : list Z) : Z := foldl (fun v c => v * base + digit_value c) 0 ds.

(** [ds] is how [n] is written in the base: its digits, without leading zeros. *)
Definition numeral (base n : Z) (ds : list Z) : Prop :=
  ds <> [] /\ Forall (digit base) ds /\ num_value base ds = n /\ (head ds = Some 48 -> ds = [48]).

Lemma num_value_snoc base ds d : num_value base (ds ++ [d]) = num_value base ds * base + digit_value d.
Proof. unfold num_value. by rewrite foldl_app. Qed.

Lemma lower_digit k d : lower !! k = Some d -> digit_value d = Z.of_nat k /\ d ∈ lower.
Proof.
  intros Hd. split; [|by eapply list_elem_of_lookup_2].
  do 16 (destruct k as [|k]; [by injection Hd as <-|]). discriminate Hd.
Qed.
Lemma digit_inj base c d : digit base c -> digit base d -> digit_value c = digit_value d -> c = d.
Proof.
  intros [[i Hi]%list_elem_of_lookup _] [[j Hj]%list_elem_of_lookup _] E.
  destruct (lower_digit _ _ Hi) as [Ei _]. destruct (lower_digit _ _ Hj) as [Ej _].
  assert (i = j) as -> by lia. congruence.
Qed.
Lemma digit_nonneg base c : digit base c -> 0 <= digit_value c < base.
Proof. intros [[i Hi]%list_elem_of_lookup ?]. destruct (lower_digit _ _ Hi) as [Ei _]. lia. Qed.

Lemma Forall_snoc {A} (P : A -> Prop) l x : Forall P (l ++ [x]) -> Forall P l /\ P x.
Proof. intros [? H]%Forall_app. by inversion H. Qed.

Section numerals.
Context (base : Z) (Hb : 2 <= base <= 16).

Lemma num_value_nonneg ds : Forall (digit base) ds -> 0 <= num_value base ds.
Proof.
  induction ds as [|d ds IH] using rev_ind; intros Hf; [done|]. apply Forall_snoc in Hf as [Hf Hd].
  rewrite num_value_snoc. specialize (IH Hf). pose proof (digit_nonneg _ _ Hd). nia.
Qed.
Lemma num_value_zero ds : Forall (digit base) ds -> ds <> [] -> num_value base ds = 0 -> head ds = Some 48.
Proof.
  induction ds as [|d ds IH] using rev_ind; intros Hf Hne Hz; [done|]. apply Forall_snoc in Hf as [Hf Hd].
  rewrite num_value_snoc in Hz. pose proof (digit_nonneg _ _ Hd). pose proof (num_value_nonneg ds Hf).
  assert (num_value base ds = 0 /\ digit_value d = 0) as [E1 E2] by nia. destruct ds as [|c ds].
  - cbn. f_equal. destruct Hd as [Hin _]. apply list_elem_of_lookup in Hin as [i Hi].
    destruct (lower_digit _ _ Hi) as [Ei _]. assert (i = 0)%nat as -> by lia. by injection Hi.
  - cbn. by apply IH.
Qed.

(** A number has one numeral. *)
Lemma numeral_unique n ds ds' : numeral base n ds -> numeral base n ds' -> ds = ds'.
Proof.
  revert n ds'. induction ds as [|d ds IH] using rev_ind; intros n ds' (Hne & Hf & Hv & H0) (Hne' & Hf' & Hv' & H0'); [done|].
  destruct ds' as [|d' ds' _] using rev_ind; [done|].
  apply Forall_snoc in Hf as [Hf Hd]. apply Forall_snoc in Hf' as [Hf' Hd'].
  rewrite num_value_snoc in Hv, Hv'. pose proof (digit_nonneg _ _ Hd). pose proof (digit_nonneg _ _ Hd').
  destruct (Z.div_mod_unique base (num_value base ds) (num_value base ds') (digit_value d) (digit_value d')) as [Ev Ed]; [lia|lia|lia|].
  rewrite (digit_inj base d d') by done. f_equal.
  destruct ds as [|c ds], ds' as [|c' ds'].
  - done.
  - pose proof (num_value_zero (c' :: ds') Hf' ltac:(done) (eq_sym Ev)) as E0. specialize (H0' E0). by destruct ds'.
  - pose proof (num_value_zero (c :: ds) Hf ltac:(done) Ev) as E0. specialize (H0 E0). by destruct ds.
  - apply (IH (num_value base (c :: ds))); split_and!; try done.
    + intros E0. specialize (H0 E0). by destruct ds.
    + intros E0. specialize (H0' E0). by destruct ds'.
Qed.

Lemma utoa_loop_spec room : forall value tmp, 0 <= value < base ^ Z.of_nat room -> (0 < room)%nat ->
  exists ds, utoa_loop room lower value base tmp = Some (tmp ++ reverse ds) /\ numeral base value ds /\
    forall k, (0 < k)%nat -> value < base ^ Z.of_nat k -> (length ds <= k)%nat.
Proof.
  induction room as [|room IH]; intros value tmp Hv Hr; [lia|]. cbn [utoa_loop].
  pose proof (Z.mod_pos_bound value base ltac:(lia)) as Hm. pose proof (Z.div_mod value base ltac:(lia)) as Hdm.
  destruct (lower !! Z.to_nat (value mod base)) as [d|] eqn:Hd; [|apply lookup_ge_None in Hd; cbn in Hd; lia].
  destruct (lower_digit _ _ Hd) as [Ed Hin]. rewrite Z2Nat.id in Ed by lia.
  assert (Hdig : digit base d) by (split; [done|lia]).
  destruct (Z.eqb_spec (value / base) 0) as [E|E].
  - exists [d]. split; [done|]. split; [|intros; cbn; lia]. split_and!; [done|by apply Forall_singleton|cbn; lia|].
    by intros [= ->].
  - rewrite Nat2Z.inj_succ, Z.pow_succ_r in Hv by lia.
    assert (0 <= value / base < base ^ Z.of_nat room) by (split; [apply Z.div_pos; lia|apply Z.div_lt_upper_bound; lia]).
    destruct room as [|room]; [cbn in *; lia|].
    destruct (IH (value / base) (tmp ++ [d])) as (ds & -> & (Hne & Hf & Hval & H0) & Hl); [done|lia|].
    exists (ds ++ [d]). rewrite reverse_snoc, <- app_assoc. split; [done|]. split; [split_and!|].
    + by destruct ds.
    + apply Forall_app. split; [done|by apply Forall_singleton].
    + rewrite num_value_snoc, Hval. lia.
    + destruct ds as [|c ds]; [done|]. cbn [app head]. intros Hc. specialize (H0 Hc). injection H0 as -> ->.
      exfalso. cbn in Hval. change (digit_value 48) with 0 in Hval. lia.
    + intros k Hk Hlt. rewrite length_app. cbn. destruct k as [|k]; [lia|]. destruct k as [|k].
      { change (Z.of_nat 1) with 1 in Hlt. rewrite Z.pow_1_r in Hlt. rewrite Z.div_small in E by lia. done. }
      assert (length ds <= S k)%nat; [|lia]. apply Hl; [lia|]. rewrite (Nat2Z.inj_succ (S k)), Z.pow_succ_r in Hlt by lia.
      apply Z.div_lt_upper_bound; lia.
Qed.

Lemma mapM_rev (l : list Z) : mapM (fun i => l !! (length l - 1 - i)%nat) (seq 0 (length l)) = Some (reverse l).
Proof.
  apply mapM_Some. apply Forall2_same_length_lookup. rewrite length_seq, length_reverse. split; [done|].
  intros i x y Hx Hy. apply lookup_seq in Hx as [-> Hi].
  rewrite reverse_lookup in Hy by done. rewrite <- Hy. f_equal. lia.
Qed.

Lemma utoa_correct value cap : 0 <= value < base ^ Z.of_nat cap -> (0 < cap <= 32)%nat ->
  exists ds, utoa value base false cap = Some ds /\ numeral base value ds.
Proof.
  intros Hv Hc. destruct (utoa_loop_spec 32 value []) as (ds & E & Hn & Hl); [|lia|].
  { split; [lia|]. eapply Z.lt_le_trans; [apply Hv|]. apply Z.pow_le_mono_r; lia. }
  exists ds. split; [|done]. unfold utoa. rewrite E. cbn [app]. rewrite length_reverse.
  rewrite decide_True by (apply Hl; lia). rewrite <- (length_reverse ds), mapM_rev. by rewrite reverse_involutive.
Qed.
End numerals.

(** ** What a format means *)

Inductive renders : list Z -> list arg -> list Z -> Prop :=
  | r_end args : renders [] args []
  | r_char c f args out : c <> 37 -> renders f args out -> renders (c :: f) args (c :: out)
  | r_percent f args out : renders f args out -> renders (37 :: 37 :: f) args (37 :: out)
  | r_c n f args out : renders f args out -> renders (37 :: 99 :: f) (Int n :: args) (u8 n :: out)
  | r_d n ds f args out :
      numeral 10 (Z.abs (s32 n)) ds -> renders f args out ->
      renders (37 :: 100 :: f) (Int n :: args) ((if s32 n <? 0 then [45] else []) ++ ds ++ out)
  | r_u n ds f args out :
      numeral 10 (u32 n) ds -> renders f args out -> renders (37 :: 117 :: f) (Int n :: args) (ds ++ out)
  | r_x n ds f args out :
      numeral 16 (u32 n) ds -> renders f args out -> renders (37 :: 120 :: f) (Int n :: args) (ds ++ out)
  | r_p p ds f args out :
      numeral 16 (u64 p) ds -> renders f args out -> renders (37 :: 112 :: f) (Ptr p :: args) ([48; 120] ++ ds ++ out)
  | r_s s f args out : renders f args out -> renders (37 :: 115 :: f) (Str s :: args) (s ++ out)
  | r_other f args : at0 f <> 37 -> is_conversion (at0 f) = false -> renders (37 :: f) args (37 :: f).

(** The conversions take the arguments they are given. *)
Definition accepts (c : Z) (a : arg) : bool :=
  match a with
  | Int _ => (c =? 99) || (c =? 100) || (c =? 117) || (c =? 120)
  | Ptr _ => c =? 112
  | Str _ => c =? 115
  end.
Fixpoint typed (f : list Z) (args : list arg) : bool :=
  match f with
  | [] => true
  | c0 :: f1 =>
      if negb (c0 =? 37) then typed f1 args
      else match f1 with
           | [] => true
           | c1 :: f2 =>
               if c1 =? 37 then typed f2 args
               else if is_conversion c1 then
                 match args with
                 | [] => false
                 | a :: args' => accepts c1 a && typed f2 args'
                 end
               else true
           end
  end.

Lemma convert_int n :
  convert 99 (Int n) = Some [u8 n] /\
  (exists ds, convert 100 (Int n) = Some ((if s32 n <? 0 then [45] else []) ++ ds) /\ numeral 10 (Z.abs (s32 n)) ds) /\
  (exists ds, convert 117 (Int n) = Some ds /\ numeral 10 (u32 n) ds) /\
  (exists ds, convert 120 (Int n) = Some ds /\ numeral 16 (u32 n) ds).
Proof.
  pose proof (s32_range n) as Hs. pose proof (u32_range n) as Hu. split; [done|]. split; [|split].
  - set (sign := if s32 n <? 0 then [45] else []).
    destruct (utoa_correct 10 ltac:(lia) (Z.abs (s32 n)) (12 - length sign)) as (ds & E & Hn);
      [unfold sign; case_bool; cbn; lia|unfold sign; case_bool; cbn; lia|].
    exists ds. split; [|done]. cbn [convert Z.eqb Pos.eqb]. fold sign. replace (if s32 n <? 0 then u64 (- s32 n) else s32 n) with (Z.abs (s32 n)).
    + by rewrite E.
    + case_bool; [rewrite u64_small|]; lia.
  - by apply (utoa_correct 10 ltac:(lia) (u32 n) 10); [cbn; lia|lia].
  - by apply (utoa_correct 16 ltac:(lia) (u32 n) 8); [cbn; lia|lia].
Qed.
Lemma convert_ptr p : exists ds, convert 112 (Ptr p) = Some ([48; 120] ++ ds) /\ numeral 16 (u64 p) ds.
Proof.
  pose proof (u64_range p). destruct (utoa_correct 16 ltac:(lia) (u64 p) 16) as (ds & E & Hn); [cbn; lia|lia|].
  exists ds. cbn [convert Z.eqb Pos.eqb]. by rewrite E.
Qed.

Lemma convert_typed c a : is_conversion c = true -> accepts c a = true -> exists data, convert c a = Some data.
Proof.
  intros _ Ha. destruct a as [n|p|s]; cbn [accepts] in Ha.
  - destruct (convert_int n) as (Hc & (d1 & Hd & _) & (d2 & Hu & _) & (d3 & Hx & _)).
    repeat (apply orb_true_iff in Ha as [Ha|Ha]); apply Z.eqb_eq in Ha as ->; eauto.
  - apply Z.eqb_eq in Ha as ->. destruct (convert_ptr p) as (ds & E & _). eauto.
  - apply Z.eqb_eq in Ha as ->. by exists s.
Qed.

Lemma typed_run f args : typed f args = true -> typed (drop (run_length f) f) args = true.
Proof.
  induction f as [|c f IH]; [done|]. cbn [run_length]. destruct (c =? 37) eqn:E; [done|].
  cbn [drop]. intros Ht. apply IH. cbn [typed] in Ht. by rewrite E in Ht.
Qed.
Lemma renders_run f args out : renders f args out ->
  exists out', out = take (run_length f) f ++ out' /\ renders (drop (run_length f) f) args out'.
Proof.
  revert out. induction f as [|c f IH]; intros out Hr; [by exists out|]. cbn [run_length].
  destruct (Z.eqb_spec c 37) as [->|Hc]; [by exists out|]. inversion Hr; subst; try done.
  cbn [take drop]. destruct (IH out0) as (out' & -> & ?); [done|]. by exists out'.
Qed.

Section theorems.
Context {S : Type} (sink : list Z -> M S bool).

Section safe.
Hypothesis Hsink : forall d s, exists b s', sink d s = Some (b, s').

Lemma emit_safe written data k s : 0 <= written <= INT_MAX ->
  (forall w s', 0 <= w <= INT_MAX -> wp (k w) (fun n _ => -1 <= n <= INT_MAX) s') ->
  wp (emit sink written data k) (fun n _ => -1 <= n <= INT_MAX) s.
Proof.
  unfold INT_MAX. intros Hw Hk. unfold emit, INT_MAX. destruct (Z.ltb_spec (2147483647 - written) (Z.of_nat (length data))); [wp_step; lia|].
  wp_step. apply wp_run. destruct (Hsink data s) as (b & s' & E). exists b, s'. split; [done|]. destruct b; [apply Hk; lia|wp_step; lia].
Qed.

Lemma vcbprintf_safe fuel : forall f args written s, (length f < fuel)%nat -> typed f args = true -> 0 <= written <= INT_MAX ->
  wp (vcbprintf sink fuel f args written) (fun n _ => -1 <= n <= INT_MAX) s.
Proof.
  induction fuel as [|fuel IH]; intros f args written s Hf Ht Hw; [lia|]. cbn [vcbprintf].
  destruct f as [|c0 f1]; [wp_step; lia|]. cbn [length] in Hf.
  destruct (negb (c0 =? 37) || (at0 f1 =? 37)) eqn:Hlit.
  - apply emit_safe; [done|]. intros w s' Hw'. destruct (c0 =? 37) eqn:E0.
    + destruct f1 as [|c1 f2]; [done|]. cbn in Hlit. cbn [typed] in Ht. rewrite E0, Hlit in Ht. cbn [negb] in Ht.
      cbn [tail drop]. apply IH; [rewrite length_drop; cbn in Hf; lia|by apply typed_run|done].
    + cbn [typed] in Ht. rewrite E0 in Ht. cbn [tail drop]. apply IH; [rewrite length_drop; lia|by apply typed_run|done].
  - apply orb_false_iff in Hlit as [E0%negb_false_iff E1]. cbn [typed] in Ht. rewrite E0 in Ht. cbn [negb] in Ht.
    destruct (is_conversion (at0 f1)) eqn:Ec; [|apply emit_safe; [done|]; intros; apply IH; [cbn; lia|done|done]].
    destruct f1 as [|c1 f2]; [done|]. cbn [at0] in *. rewrite E1, Ec in Ht. destruct args as [|a args]; [done|].
    apply andb_true_iff in Ht as [Ha Ht]. destruct (convert_typed c1 a Ec Ha) as [data E].
    wp_step. eapply wp_lift; [done|]. wp_step. eapply wp_lift; [exact E|]. apply emit_safe; [done|]. intros. cbn [tail].
    apply IH; [cbn in Hf; lia|done|done].
Qed.
End safe.

Section accepting.
Context (takes : S -> list Z -> S).
Hypothesis Hsink : forall d s, sink d s = Some (true, takes s d).
Hypothesis takes_nil : forall s, takes s [] = s.
Hypothesis takes_app : forall s d d', takes (takes s d) d' = takes s (d ++ d').

Definition outcome (written : Z) (out : list Z) (s : S) (n : Z) (s' : S) : Prop :=
  let total := written + Z.of_nat (length out) in
  if INT_MAX <? total then n = -1 else n = total /\ s' = takes s out.

Lemma emit_outcome written data out k s :
  (forall w s', w = written + Z.of_nat (length data) -> w <= INT_MAX -> wp (k w) (outcome w out s') s') ->
  wp (emit sink written data k) (outcome written (data ++ out) s) s.
Proof.
  intros Hk. unfold emit, outcome. rewrite length_app, Nat2Z.inj_add.
  destruct (Z.ltb_spec (INT_MAX - written) (Z.of_nat (length data))) as [Hlt|Hle].
  - wp_step. destruct (Z.ltb_spec INT_MAX (written + (Z.of_nat (length data) + Z.of_nat (length out)))); [done|lia].
  - wp_step. unfold wp at 1. rewrite Hsink. eapply wp_mono; [apply Hk; [done|lia]|]. intros n s' Ho. unfold outcome in Ho.
    rewrite takes_app in Ho. replace (written + (Z.of_nat (length data) + Z.of_nat (length out)))
      with (written + Z.of_nat (length data) + Z.of_nat (length out)) by lia. exact Ho.
Qed.

Lemma vcbprintf_renders fuel : forall f args out written s, (length f < fuel)%nat -> renders f args out -> written <= INT_MAX ->
  wp (vcbprintf sink fuel f args written) (outcome written out s) s.
Proof.
  induction fuel as [|fuel IH]; intros f args out written s Hf Hr Hw; [lia|].
  assert (Hconv : forall c a data f2 args' out', is_conversion c = true -> c <> 37 -> convert c a = Some data ->
    f = 37 :: c :: f2 -> args = a :: args' -> renders f2 args' out' ->
    wp (vcbprintf sink (Datatypes.S fuel) f args written) (outcome written (data ++ out') s) s).
  { intros c a data f2 args' out' Hc Hc' Ed -> -> Hr'. cbn [vcbprintf at0 tail].
    change (37 =? 37) with true. destruct (Z.eqb_spec c 37); [done|]. cbn [negb orb]. rewrite Hc. wp_step.
    eapply wp_lift; [done|]. wp_step. eapply wp_lift; [exact Ed|]. apply emit_outcome. intros. apply IH; [cbn in Hf; lia|done|done]. }
  inversion Hr; subst; clear Hr.
  - cbn [vcbprintf]. wp_step. unfold outcome. cbn [length]. rewrite Z.add_0_r, takes_nil. destruct (Z.ltb_spec INT_MAX written); [lia|done].
  - destruct (renders_run _ _ _ H0) as (out' & -> & Hr'). cbn [vcbprintf]. destruct (Z.eqb_spec c 37); [done|]. cbn [negb orb tail take drop].
    apply (emit_outcome written (c :: take (run_length f0) f0)). intros. apply IH; [rewrite length_drop; cbn in Hf; lia|done|done].
  - destruct (renders_run _ _ _ H) as (out' & -> & Hr'). cbn [vcbprintf at0]. change (37 =? 37) with true. cbn [negb orb tail take drop].
    apply (emit_outcome written (37 :: take (run_length f0) f0)). intros. apply IH; [rewrite length_drop; cbn in Hf; lia|done|done].
  - by eapply (Hconv 99 (Int n) [u8 n]).
  - destruct (convert_int n) as (_ & (ds' & E & Hn) & _). rewrite (numeral_unique 10 ltac:(lia) _ _ _ H Hn), app_assoc.
    eapply (Hconv 100 (Int n)); [done|done|exact E|done|done|done].
  - destruct (convert_int n) as (_ & _ & (ds' & E & Hn) & _). rewrite (numeral_unique 10 ltac:(lia) _ _ _ H Hn). eapply (Hconv 117 (Int n)); [done|done|exact E|done|done|done].
  - destruct (convert_int n) as (_ & _ & _ & (ds' & E & Hn)). rewrite (numeral_unique 16 ltac:(lia) _ _ _ H Hn). eapply (Hconv 120 (Int n)); [done|done|exact E|done|done|done].
  - destruct (convert_ptr p) as (ds' & E & Hn). rewrite (numeral_unique 16 ltac:(lia) _ _ _ H Hn), app_assoc. eapply (Hconv 112 (Ptr p)); [done|done|exact E|done|done|done].
  - by eapply (Hconv 115 (Str s0)).
  - cbn [vcbprintf]. change (37 =? 37) with true. destruct (Z.eqb_spec (at0 f0) 37); [done|]. cbn [negb orb]. rewrite H0.
    rewrite <- (app_nil_r (37 :: f0)) at 2. apply emit_outcome. intros. apply IH; [cbn in *; lia|constructor|done].
Qed.
End accepting.
End theorems.

(** A format and its arguments have one rendering. *)
Lemma renders_unique f args out out' : renders f args out -> renders f args out' -> out = out'.
Proof.
  intros Hr. revert out'. induction Hr; intros out' Hr'; inversion Hr'; subst; try done.
  all: try (f_equal; by apply IHHr).
  all: try (match goal with H : numeral ?b ?n ?x, H' : numeral ?b ?n ?y |- _ => rewrite (numeral_unique b ltac:(lia) n x y H H') end;
    by rewrite (IHHr _ ltac:(eassumption))).
Qed.

(** A format whose conversions match its arguments never goes wrong: whatever
    the sink does, every local buffer is large enough, every argument is there, and
    the result is -1 or a count that fits in an [int]. *)
Theorem vcbprintf_type_safe {S} (sink : list Z -> M S bool) f args s :
  (forall d s, exists b s', sink d s = Some (b, s')) -> typed f args = true ->
  wp (__vcbprintf sink f args) (fun n _ => -1 <= n <= INT_MAX) s.
Proof. intros Hs Ht. apply vcbprintf_safe; [done|lia|done|unfold INT_MAX; lia]. Qed.

(** ** [sprintf] and [printf] *)

Lemma store_bytes_app l : forall m a l', store_bytes m a (l ++ l') = store_bytes (store_bytes m a l) (a + Z.of_nat (length l)) l'.
Proof.
  induction l as [|c l IH]; intros m a l'; cbn [app store_bytes length].
  - by rewrite Z.add_0_r.
  - rewrite IH. f_equal. lia.
Qed.

Definition arg_bytes (a : arg) : Prop := match a with Str s => Forall (fun c => 0 <= c < 256) s | _ => True end.
Lemma digit_byte base ds : Forall (digit base) ds -> Forall (fun c => 0 <= c < 256) ds.
Proof.
  intros H. eapply Forall_impl; [exact H|]. intros c [Hc _]. revert c Hc. apply Forall_forall.
  repeat (constructor; [lia|]). constructor.
Qed.
Lemma renders_bytes f args out : renders f args out -> Forall (fun c => 0 <= c < 256) f -> Forall arg_bytes args ->
  Forall (fun c => 0 <= c < 256) out.
Proof.
  induction 1; intros Hf Ha; repeat match goal with
    | H : Forall _ (_ :: _) |- _ => inversion H; subst; clear H
    | H : numeral _ _ _ |- _ => destruct H as (_ & H%digit_byte & _)
    end; cbn [arg_bytes] in *; repeat first [apply Forall_app; split | constructor | assumption | apply u8_range | lia | by auto].
  destruct (s32 n <? 0); repeat constructor; lia.
Qed.

(** C33: [sprintf] writes exactly the rendering of the format and a final zero into
    the buffer, touches no other byte, and returns the length; it returns -1 when the
    length does not fit in an [int]. *)
Theorem sprintf_correct str f args out m :
  renders f args out -> Forall (fun c => 0 <= c < 256) f -> Forall arg_bytes args ->
  wp (sprintf str f args) (fun n m' =>
    if INT_MAX <? Z.of_nat (length out) then n = -1
    else n = Z.of_nat (length out) /\ bytes_in m' str (out ++ [0]) /\
      forall b, ~ (str <= b <= str + Z.of_nat (length out)) -> load8 m' b = load8 m b) m.
Proof.
  intros Hr Hf Ha.
  pose proof (vcbprintf_renders buffer_sink (fun s d => (fst s + Z.of_nat (length d), store_bytes (snd s) (fst s) d))
    ltac:(done) ltac:(intros [p m0]; cbn; by rewrite Z.add_0_r)
    ltac:(intros [p m0] d d'; cbn; rewrite store_bytes_app, length_app; f_equal; lia)
    (S (length f)) f args out 0 (str, m) ltac:(lia) Hr ltac:(done)) as H.
  unfold sprintf, wp, __vcbprintf in *. destruct (vcbprintf _ _ _ _ _ _) as [[n [p m1]]|]; [|done]. unfold outcome in H. cbn [fst snd] in H.
  rewrite Z.add_0_l in H. destruct (INT_MAX <? Z.of_nat (length out)); [by rewrite H|]. destruct H as [-> [= -> ->]].
  destruct (Z.leb_spec 0 (Z.of_nat (length out))); [|lia]. split; [done|].
  assert (E : store8 (store_bytes m str out) (str + Z.of_nat (length out)) 0 = store_bytes m str (out ++ [0])) by (by rewrite store_bytes_app).
  rewrite E. destruct (store_bytes_spec (out ++ [0]) m str) as [H1 H2].
  { apply Forall_app. split; [by eapply renders_bytes|]. repeat constructor; lia. }
  rewrite length_app in H2. cbn in H2. split; [done|]. intros b Hb. apply H2. lia.
Qed.

Section printf.
Context {S : Type} (write : Z -> list Z -> M S Z) (shown : S -> list Z -> S).
Hypothesis Hwrite : forall d s, write 1 d s = Some (Z.of_nat (length d), shown s d).
Hypothesis shown_nil : forall s, shown s [] = s.
Hypothesis shown_app : forall s d d', shown (shown s d) d' = shown s (d ++ d').

Lemma console_sink_shows d : Forall (fun c => 0 <= c < 256) d -> forall s, console_sink write d s = Some (true, shown s d).
Proof.
  induction 1 as [|c d Hc _ IH]; intros s; cbn [console_sink]; [by rewrite shown_nil|].
  unfold bind, putchar, ret, bind. rewrite Hwrite, u8_small by done. change (Z.of_nat (length [c]) =? 1) with true. cbv iota.
  destruct (Z.eqb_spec c EOF) as [->|_]; [unfold EOF in Hc; lia|]. by rewrite IH, shown_app.
Qed.
Lemma puts_shows d s : puts write d s = Some (0, shown s (d ++ [10])).
Proof.
  unfold puts, putchar, bind, ret. rewrite Hwrite, Z.eqb_refl. cbn [negb]. rewrite Hwrite, shown_app. done.
Qed.
End printf.

(** ** Instances *)

(** ["%d%%"] of -42, and the number it shows. *)
Lemma sprintf_correct_witness :
  wp (sprintf 64 [37; 100; 37; 37] [Int (-42)]) (fun n m' => n = 4 /\ bytes_in m' 64 [45; 52; 50; 37; 0]) ∅.
Proof.
  eapply wp_mono; [apply (sprintf_correct 64 [37; 100; 37; 37] [Int (-42)] [45; 52; 50; 37] ∅)|].
  - apply (r_d (-42) [52; 50] [37; 37] [] [37]).
    + split_and!; [done| |done|discriminate]. repeat constructor; try (apply (bool_decide_unpack _); vm_compute; exact I).
    + apply r_percent, r_end.
  - repeat constructor; lia.
  - repeat constructor.
  - intros n m' (-> & Hb & _). split; [done|exact Hb].
Defined.
Lemma vcbprintf_type_safe_witness :
  wp (__vcbprintf buffer_sink [37; 115; 32; 37; 120] [Str [104; 105]; Int 255]) (fun n _ => -1 <= n <= INT_MAX) (64, ∅).
Proof.
  apply (vcbprintf_type_safe buffer_sink [37; 115; 32; 37; 120] [Str [104; 105]; Int 255]).
  - intros d s. eexists _, _. reflexivity.
  - reflexivity.
Defined.
