(* ===== verification/FrameAlloc.v ===== *)
(** * The interface of the physical page allocator

    What the page-table code, the loader and the process code rely on: four
    operations on an allocator state, and laws phrased on the abstract content
    of that state, the reference count of every physical page.  [Pmm]
    implements the interface; [Vmm] and [Elf] are verified against it. *)

From S2P Require Import Prelude.

Definition PAGE_SIZE : Z := 4096.

(** A page that may be handed out: page aligned, not the page at address 0 and
    below 2^46, so that the direct map of the higher half can hold it. *)
Definition valid_frame (p : Z) : Prop := p mod PAGE_SIZE = 0 /\ 0 < p < 70368744177664.

Class FrameOps (S : Type) := {
  fa_alloc : M S Z;
  fa_free : Z -> M S unit;
  fa_ref_inc : Z -> M S unit;
  fa_refcount : Z -> M S Z;
}.

Class FrameAlloc (S : Type) `{FrameOps S} := {
  fa_wf : S -> Prop;
  (** [frames s p]: [None] when the page at physical address [p] is free,
      [Some n] when it is in use with reference count [n]. *)
  frames : S -> Z -> option Z;
  fa_alloc_spec s :
    fa_wf s ->
    wp fa_alloc (fun p s' => fa_wf s' /\
      ((p = 0 /\ (forall q, frames s q <> None) /\ forall q, frames s' q = frames s q) \/
       (valid_frame p /\ frames s p = None /\ frames s' p = Some 1 /\
        forall q, q <> p -> frames s' q = frames s q))) s;
  fa_free_spec s p n :
    fa_wf s -> valid_frame p -> frames s p = Some n -> 1 <= n ->
    wp (fa_free p) (fun _ s' => fa_wf s' /\
      frames s' p = (if n =? 1 then None else Some (n - 1)) /\
      forall q, q <> p -> frames s' q = frames s q) s;
  fa_ref_inc_spec s p n :
    fa_wf s -> valid_frame p -> frames s p = Some n -> 1 <= n -> n + 1 < 65536 ->
    wp (fa_ref_inc p) (fun _ s' => fa_wf s' /\
      frames s' p = Some (n + 1) /\
      forall q, q <> p -> frames s' q = frames s q) s;
  fa_refcount_spec s p n :
    fa_wf s -> valid_frame p -> frames s p = Some n -> 1 <= n ->
    wp (fa_refcount p) (fun r s' => r = n /\ s' = s) s;
}.
