(* ===== verification/Pmm.v ===== *)
(** * The physical memory manager (pmm.c)

    One bit per page (1: in use) and one 16-bit reference count per page.  The
    bitmap and the reference counts are arrays of the model, so an access
    outside them is undefined behaviour and the theorems show it never happens
    on a well-formed state. *)

From S2P Require Import Prelude FrameAlloc.

(** ** State *)

(** The globals of pmm.c; [bitmap_size] is the length of the bitmap. *)
Record pmm := mkPmm {
  bitmap : list Z;
  refcounts : list Z;
  bitmap_index : Z;
  highest_address : Z;
}.

Definition npages (s : pmm) : Z := highest_address s / PAGE_SIZE.

Definition set_bitmap (bm : list Z) (s : pmm) : pmm :=
  mkPmm bm (refcounts s) (bitmap_index s) (highest_address s).
Definition set_refcounts (rc : list Z) (s : pmm) : pmm :=
  mkPmm (bitmap s) rc (bitmap_index s) (highest_address s).
Definition set_bitmap_index (i : Z) (s : pmm) : pmm :=
  mkPmm (bitmap s) (refcounts s) i (highest_address s).

(** ** Bitmap accessors *)

Definition bitmap_set (bit : Z) : M pmm unit :=
  s <- get ;;
  b <- lift (arr_get (bitmap s) (bit / 8)) ;;
  bm <- lift (arr_set (bitmap s) (bit / 8) (u8 (Z.lor b (Z.shiftl 1 (bit mod 8))))) ;;
  put (set_bitmap bm s).

Definition bitmap_clear (bit : Z) : M pmm unit :=
  s <- get ;;
  b <- lift (arr_get (bitmap s) (bit / 8)) ;;
  bm <- lift (arr_set (bitmap s) (bit / 8) (u8 (Z.land b (Z.lnot (Z.shiftl 1 (bit mod 8)))))) ;;
  put (set_bitmap bm s).

Definition bitmap_test (bit : Z) : M pmm bool :=
  s <- get ;;
  b <- lift (arr_get (bitmap s) (bit / 8)) ;;
  ret (negb (Z.land b (Z.shiftl 1 (bit mod 8)) =? 0)).

Definition refcount_get (bit : Z) : M pmm Z :=
  s <- get ;; lift (arr_get (refcounts s) bit).

Definition refcount_set (bit v : Z) : M pmm unit :=
  s <- get ;;
  rc <- lift (arr_set (refcounts s) bit v) ;;
  put (set_refcounts rc s).

(** ** Allocation and reference counting *)

(** One scan loop of [pmm_alloc_page]: [n] bits from [i] on; the first clear
    bit is taken. *)
Fixpoint alloc_scan (i : Z) (n : nat) : M pmm (option Z) :=
  match n with
  | O => ret None
  | S n' =>
      used <- bitmap_test i ;;
      if negb used then
        bitmap_set i ;;
        modify (set_bitmap_index i) ;;
        refcount_set i 1 ;;
        ret (Some (i * PAGE_SIZE))
      else alloc_scan (i + 1) n'
  end.

Definition pmm_alloc_page : M pmm Z :=
  s <- get ;;
  r <- alloc_scan (bitmap_index s) (Z.to_nat (npages s - bitmap_index s)) ;;
  match r with
  | Some p => ret p
  | None =>
      s <- get ;;
      r <- alloc_scan 0 (Z.to_nat (bitmap_index s)) ;;
      match r with Some p => ret p | None => ret 0 end
  end.

Definition pmm_free_page (page : Z) : M pmm unit :=
  let bit := page / PAGE_SIZE in
  used <- bitmap_test bit ;;
  if negb used then ret tt
  else
    n <- refcount_get bit ;;
    (if 0 <? n then refcount_set bit (n - 1) else ret tt) ;;
    n <- refcount_get bit ;;
    if n =? 0 then
      bitmap_clear bit ;;
      s <- get ;;
      if bit <? bitmap_index s then put (set_bitmap_index bit s) else ret tt
    else ret tt.

Definition pmm_page_ref_inc (page : Z) : M pmm unit :=
  let bit := page / PAGE_SIZE in
  n <- refcount_get bit ;;
  refcount_set bit (u16 (n + 1)).

Definition pmm_page_refcount (page : Z) : M pmm Z :=
  refcount_get (page / PAGE_SIZE).

(** ** Initialisation from the boot loader's memory map *)

Record memmap_entry := mkEntry { e_base : Z; e_length : Z; e_usable : bool }.

Definition highest_step (hi : Z) (e : memmap_entry) : Z :=
  if e_usable e then
    let top := u64 (e_base e + e_length e) in if hi <? top then top else hi
  else hi.
Definition find_highest (entries : list memmap_entry) : Z :=
  fold_left highest_step entries 0.

Definition bitmap_bytes (highest : Z) : Z :=
  let size := highest / PAGE_SIZE / 8 in
  if negb (size mod 8 =? 0) then size + 1 else size.

(** The loops stepping by a page: [for (j = 0; j < length; j += PAGE_SIZE)]. *)
Definition page_steps (length : Z) : nat := Z.to_nat ((length + PAGE_SIZE - 1) / PAGE_SIZE).

Definition clear_entry (e : memmap_entry) : M pmm unit :=
  if e_usable e then
    for_range 0 (page_steps (e_length e)) (fun k =>
      bitmap_clear ((e_base e + k * PAGE_SIZE) / PAGE_SIZE))
  else ret tt.

Fixpoint clear_usable (entries : list memmap_entry) : M pmm unit :=
  match entries with
  | [] => ret tt
  | e :: rest => clear_entry e ;; clear_usable rest
  end.

(** The body of [init_pmm] after the requests were checked.  [None] is the
    code writing outside its arrays, or through the NULL bitmap pointer when no
    usable entry can hold the two arrays. *)
Definition init_pmm (entries : list memmap_entry) : option pmm :=
  let highest := find_highest entries in
  let bitmap_size := bitmap_bytes highest in
  let refcounts_size := highest / PAGE_SIZE * 2 in
  match List.find (fun e => e_usable e && (bitmap_size + refcounts_size <=? e_length e)) entries with
  | None => None
  | Some home =>
      let s0 := mkPmm (replicate (Z.to_nat bitmap_size) 255)
                      (replicate (Z.to_nat (highest / PAGE_SIZE)) 0) 0 highest in
      match (clear_usable entries ;;
             for_range 0 (page_steps (bitmap_size + refcounts_size)) (fun k =>
               bitmap_set ((e_base home + k * PAGE_SIZE) / PAGE_SIZE)) ;;
             bitmap_set 0 ;;
             refcount_set 0 1) s0 with
      | Some (_, s) => Some s
      | None => None
      end
  end.

(** ** Well-formed states *)

(** Bit [j] of the bitmap. *)
Definition page_bit (bm : list Z) (j : Z) : bool :=
  match arr_get bm (j / 8) with Some b => Z.testbit b (j mod 8) | None => false end.
Definition page_refs (s : pmm) (j : Z) : Z := default 0 (arr_get (refcounts s) j).

Definition is_byte (b : Z) : Prop := 0 <= b < 256.

Record pmm_wf (s : pmm) : Prop := {
  wf_bitmap : npages s <= 8 * Z.of_nat (length (bitmap s));
  wf_bytes : Forall is_byte (bitmap s);
  wf_refcounts : Z.of_nat (length (refcounts s)) = npages s;
  wf_refs : forall j, 0 <= page_refs s j < 65536;
  wf_index : 0 <= bitmap_index s <= npages s;
  wf_free : forall j, 0 <= j < npages s -> page_bit (bitmap s) j = false -> page_refs s j = 0;
  wf_page0 : page_bit (bitmap s) 0 = true;
  wf_highest : highest_address s <= 70368744177664;
}.

(** The abstract content: what [FrameAlloc] calls [frames].  Addresses that
    are not the base of a managed page count as permanently in use. *)
Definition pmm_frames (s : pmm) (p : Z) : option Z :=
  if (p mod PAGE_SIZE =? 0) && (0 <=? p) && (p <? npages s * PAGE_SIZE)
  then if page_bit (bitmap s) (p / PAGE_SIZE) then Some (page_refs s (p / PAGE_SIZE)) else None
  else Some 0.

Lemma land_bit_test b k : 0 <= k -> negb (Z.land b (Z.shiftl 1 k) =? 0) = Z.testbit b k.
Proof.
  intros Hk. rewrite Z.shiftl_1_l. destruct (Z.testbit b k) eqn:E.
  - apply negb_true_iff, Z.eqb_neq. intros H.
    assert (Hb : Z.testbit (Z.land b (2 ^ k)) k = true)
      by (rewrite Z.land_spec, E, Z.pow2_bits_true by lia; done).
    rewrite H, Z.bits_0 in Hb. done.
  - apply negb_false_iff, Z.eqb_eq, Z.bits_inj'. intros j Hj.
    rewrite Z.bits_0, Z.land_spec, Z.pow2_bits_eqb by lia.
    destruct (Z.eqb_spec k j) as [<-|]; [by rewrite E | apply andb_false_r].
Qed.

Lemma testbit_u8 b k : 0 <= k < 8 -> Z.testbit (u8 b) k = Z.testbit b k.
Proof. intros. unfold u8. apply (Z.mod_pow2_bits_low b 8 k). lia. Qed.

Lemma testbit_or_bit b k j :
  0 <= k < 8 -> 0 <= j < 8 ->
  Z.testbit (u8 (Z.lor b (Z.shiftl 1 k))) j = if j =? k then true else Z.testbit b j.
Proof.
  intros. rewrite testbit_u8, Z.lor_spec, Z.shiftl_1_l, Z.pow2_bits_eqb by lia.
  rewrite (Z.eqb_sym k). destruct (j =? k); [apply orb_true_r|apply orb_false_r].
Qed.

Lemma testbit_andnot_bit b k j :
  0 <= k < 8 -> 0 <= j < 8 ->
  Z.testbit (u8 (Z.land b (Z.lnot (Z.shiftl 1 k)))) j = if j =? k then false else Z.testbit b j.
Proof.
  intros. rewrite testbit_u8, Z.land_spec, Z.lnot_spec, Z.shiftl_1_l, Z.pow2_bits_eqb by lia.
  rewrite (Z.eqb_sym k). destruct (j =? k); [apply andb_false_r|apply andb_true_r].
Qed.

(** Writing one byte of the bitmap changes one bit. *)
Lemma page_bit_update bm bm' i b v (c : bool) :
  arr_get bm (i / 8) = Some b -> 0 <= i ->
  (forall k, 0 <= k < 8 -> Z.testbit v k = if k =? i mod 8 then c else Z.testbit b k) ->
  arr_set bm (i / 8) v = Some bm' ->
  forall j, 0 <= j -> page_bit bm' j = if j =? i then c else page_bit bm j.
Proof.
  intros Hb Hi Hv (_ & _ & Hget)%arr_set_inv j Hj. unfold page_bit. rewrite Hget.
  destruct (Z.eqb_spec (j / 8) (i / 8)) as [E|].
  - rewrite E, Hb, Hv by lia. case_bools; done.
  - case_bools. done.
Qed.

Lemma Forall_arr_set {A} (P : A -> Prop) l i x l' :
  Forall P l -> P x -> arr_set l i x = Some l' -> Forall P l'.
Proof.
  unfold arr_set. case_bools; intros Hl Hx [= <-]; try done. by apply Forall_insert.
Qed.

(** ** Triples of the accessors *)

Lemma wp_bitmap_test i (Q : bool -> pmm -> Prop) s :
  0 <= i < 8 * Z.of_nat (length (bitmap s)) ->
  Q (page_bit (bitmap s) i) s -> wp (bitmap_test i) Q s.
Proof.
  intros Hi HQ. unfold bitmap_test. wp_steps.
  destruct (arr_get_Some (bitmap s) (i / 8)) as [b Hb]; [lia|].
  eapply wp_lift; [done|]. wp_steps. rewrite land_bit_test by lia.
  unfold page_bit in HQ. by rewrite Hb in HQ.
Qed.

Lemma wp_bitmap_set i (Q : unit -> pmm -> Prop) s :
  0 <= i < 8 * Z.of_nat (length (bitmap s)) ->
  (forall bm, length bm = length (bitmap s) ->
    (Forall is_byte (bitmap s) -> Forall is_byte bm) ->
    (forall j, 0 <= j -> page_bit bm j = if j =? i then true else page_bit (bitmap s) j) ->
    Q tt (set_bitmap bm s)) ->
  wp (bitmap_set i) Q s.
Proof.
  intros Hi HQ. unfold bitmap_set. wp_steps.
  destruct (arr_get_Some (bitmap s) (i / 8)) as [b Hb]; [lia|].
  eapply wp_lift; [done|]. wp_steps. eapply wp_lift; [apply arr_set_Some; lia|]. wp_steps.
  apply HQ.
  - apply length_insert.
  - intros Hf. apply Forall_insert; [done|apply u8_range].
  - eapply page_bit_update; [done|lia| |apply arr_set_Some; lia].
    intros k Hk. apply testbit_or_bit; lia.
Qed.

Lemma wp_bitmap_clear i (Q : unit -> pmm -> Prop) s :
  0 <= i < 8 * Z.of_nat (length (bitmap s)) ->
  (forall bm, length bm = length (bitmap s) ->
    (Forall is_byte (bitmap s) -> Forall is_byte bm) ->
    (forall j, 0 <= j -> page_bit bm j = if j =? i then false else page_bit (bitmap s) j) ->
    Q tt (set_bitmap bm s)) ->
  wp (bitmap_clear i) Q s.
Proof.
  intros Hi HQ. unfold bitmap_clear. wp_steps.
  destruct (arr_get_Some (bitmap s) (i / 8)) as [b Hb]; [lia|].
  eapply wp_lift; [done|]. wp_steps. eapply wp_lift; [apply arr_set_Some; lia|]. wp_steps.
  apply HQ.
  - apply length_insert.
  - intros Hf. apply Forall_insert; [done|apply u8_range].
  - eapply page_bit_update; [done|lia| |apply arr_set_Some; lia].
    intros k Hk. apply testbit_andnot_bit; lia.
Qed.

Lemma wp_refcount_get i (Q : Z -> pmm -> Prop) s :
  0 <= i < Z.of_nat (length (refcounts s)) -> Q (page_refs s i) s -> wp (refcount_get i) Q s.
Proof.
  intros Hi HQ. unfold refcount_get. wp_steps.
  destruct (arr_get_Some (refcounts s) i Hi) as [n Hn].
  eapply wp_lift; [done|]. unfold page_refs in HQ. by rewrite Hn in HQ.
Qed.

Lemma wp_refcount_set i v (Q : unit -> pmm -> Prop) s :
  0 <= i < Z.of_nat (length (refcounts s)) ->
  (forall rc, length rc = length (refcounts s) ->
    (forall j, page_refs (set_refcounts rc s) j = if j =? i then v else page_refs s j) ->
    Q tt (set_refcounts rc s)) ->
  wp (refcount_set i v) Q s.
Proof.
  intros Hi HQ. unfold refcount_set. wp_steps.
  pose proof (arr_set_Some (refcounts s) i v Hi) as E. eapply wp_lift; [done|].
  wp_steps. apply arr_set_inv in E as (_ & Hlen & Hget). apply HQ; [done|].
  intros j. unfold page_refs. simpl. rewrite Hget. by case_bool.
Qed.

(** ** Allocation *)

(** What an allocation changes: the bit, the count, the scan position. *)
Record allocated (s s' : pmm) (i : Z) : Prop := {
  al_range : 0 <= i < npages s;
  al_free : page_bit (bitmap s) i = false;
  al_wf : pmm_wf s';
  al_npages : npages s' = npages s;
  al_bit : forall j, 0 <= j -> page_bit (bitmap s') j = if j =? i then true else page_bit (bitmap s) j;
  al_refs : forall j, page_refs s' j = if j =? i then 1 else page_refs s j;
}.

Lemma wp_alloc_scan n : forall i s,
  pmm_wf s -> 0 <= i -> i + Z.of_nat n <= npages s ->
  wp (alloc_scan i n) (fun r s' =>
    (r = None /\ s' = s /\ forall j, i <= j < i + Z.of_nat n -> page_bit (bitmap s) j = true) \/
    (exists k, r = Some (k * PAGE_SIZE) /\ i <= k < i + Z.of_nat n /\ allocated s s' k)) s.
Proof.
  induction n as [|n IH]; intros i s Hwf Hi Hn; cbn [alloc_scan].
  { wp_steps. left. split_and!; [done..|]. intros; lia. }
  destruct Hwf as [Hbm Hby Hrc Hrf Hix Hfr H0 Hhi] eqn:Hw. clear Hw.
  wp_steps. apply wp_bitmap_test; [lia|].
  destruct (page_bit (bitmap s) i) eqn:Eb; simpl.
  - eapply wp_mono; [apply (IH (i + 1) s); [done|lia|lia]|].
    intros r s' [(-> & -> & Hall)|(k & -> & Hk & Hal)]; [left|right].
    + split_and!; [done..|]. intros j Hj.
      destruct (Z.eqb_spec j i) as [->|]; [done|apply Hall; lia].
    + exists k. split_and!; [done|lia|lia|done].
  - wp_steps. apply wp_bitmap_set; [lia|]. intros bm Hlen Hbytes Hbits. wp_steps.
    apply wp_refcount_set; [simpl; lia|]. intros rc Hrl Hrefs. wp_steps.
    right. exists i. split_and!; [done|lia|lia|].
    split; [lia|done| |done|done|done]. split; simpl in *; try done.
    + unfold npages in *. simpl. lia.
    + by apply Hbytes.
    + unfold npages in *. simpl. lia.
    + intros j. rewrite Hrefs. specialize (Hrf j). unfold page_refs in Hrf |- *. simpl.
      case_bools.
    + unfold npages in *. simpl. lia.
    + intros j Hj. rewrite Hbits by lia. rewrite Hrefs. case_bool; [done|].
      intros Hj'. by apply Hfr.
    + rewrite Hbits by lia. by case_bool.
Qed.

Lemma wp_pmm_alloc_page s :
  pmm_wf s ->
  wp pmm_alloc_page (fun p s' =>
    (p = 0 /\ s' = s /\ forall j, 0 <= j < npages s -> page_bit (bitmap s) j = true) \/
    (exists k, p = k * PAGE_SIZE /\ 0 < k /\ allocated s s' k)) s.
Proof.
  intros Hwf. pose proof (wf_index s Hwf) as Hix. unfold pmm_alloc_page. wp_steps.
  assert (Hpos : forall s' k, allocated s s' k -> 0 < k).
  { intros s' k Hal. pose proof (al_range _ _ _ Hal). pose proof (al_free _ _ _ Hal) as Hf.
    destruct (Z.eqb_spec k 0) as [->|]; [|lia]. rewrite (wf_page0 s Hwf) in Hf. done. }
  eapply wp_mono; [apply wp_alloc_scan; [done|lia|lia]|].
  intros r s' [(-> & -> & Hall1)|(k & -> & Hk & Hal)].
  - wp_steps. eapply wp_mono; [apply wp_alloc_scan; [done|lia|lia]|].
    intros r s' [(-> & -> & Hall2)|(k & -> & Hk & Hal)]; wp_steps.
    + left. split_and!; [done..|]. intros j Hj.
      destruct (Z.ltb_spec j (bitmap_index s)); [apply Hall2|apply Hall1]; lia.
    + right. eauto.
  - wp_steps. right. eauto.
Qed.

(** ** Release and sharing *)

Definition released (s s' : pmm) (i : Z) : Prop :=
  pmm_wf s' /\ npages s' = npages s /\
  (forall j, 0 <= j -> page_bit (bitmap s') j =
    if j =? i then negb (page_refs s i =? 1) else page_bit (bitmap s) j) /\
  (forall j, page_refs s' j = if j =? i then page_refs s i - 1 else page_refs s j).

Lemma wp_pmm_free_page s i :
  pmm_wf s -> 0 < i < npages s -> page_bit (bitmap s) i = true -> 1 <= page_refs s i ->
  wp (pmm_free_page (i * PAGE_SIZE)) (fun _ s' => released s s' i) s.
Proof.
  intros Hwf Hi Hbit Hn. destruct Hwf as [Hbm Hby Hrc Hrf Hix Hfr H0 Hhi].
  unfold pmm_free_page. rewrite Z.div_mul by done. wp_steps.
  apply wp_bitmap_test; [lia|]. rewrite Hbit. simpl. wp_steps.
  apply wp_refcount_get; [lia|]. case_bool; [|lia].
  wp_steps. apply wp_refcount_set; [lia|]. intros rc Hrl Hrefs. wp_steps.
  apply wp_refcount_get; [simpl; lia|]. rewrite Hrefs, Z.eqb_refl.
  assert (Hrange : forall j, 0 <= page_refs (set_refcounts rc s) j < 65536).
  { intros j. rewrite Hrefs. pose proof (Hrf j). pose proof (Hrf i). case_bools. }
  destruct (Z.eqb_spec (page_refs s i - 1) 0) as [E|E].
  - wp_steps. apply wp_bitmap_clear; [simpl; lia|]. intros bm Hlen Hbytes Hbits. wp_steps.
    destruct (Z.ltb_spec i (bitmap_index (set_bitmap bm (set_refcounts rc s)))) as [Hlt|Hge];
      wp_steps; (split; [split|]); simpl in *; try done; unfold npages in *; simpl;
      try lia; try (by apply Hbytes);
      try (intros j Hj; rewrite Hbits by lia; specialize (Hrefs j);
           unfold page_refs in *; simpl in *; rewrite Hrefs; case_bools;
           intros Hb; by apply Hfr);
      try (rewrite Hbits by lia; by case_bools);
      (split; [done|]; split; [|exact Hrefs]; intros j Hj; rewrite Hbits by lia; case_bools; done).
  - wp_steps. split; [split|]; simpl in *; try done; unfold npages in *; simpl; try lia.
    + intros j Hj Hb. rewrite Hrefs. case_bool; [subst; congruence|by apply Hfr].
    + split; [done|]. split; [|done]. intros j Hj. case_bools; subst; done.
Qed.

Lemma wp_pmm_page_ref_inc s i :
  pmm_wf s -> 0 <= i < npages s -> page_bit (bitmap s) i = true -> page_refs s i + 1 < 65536 ->
  wp (pmm_page_ref_inc (i * PAGE_SIZE)) (fun _ s' =>
    pmm_wf s' /\ npages s' = npages s /\ bitmap s' = bitmap s /\
    forall j, page_refs s' j = if j =? i then page_refs s i + 1 else page_refs s j) s.
Proof.
  intros Hwf Hi Hbit Hn. destruct Hwf as [Hbm Hby Hrc Hrf Hix Hfr H0 Hhi].
  unfold pmm_page_ref_inc. rewrite Z.div_mul by done. wp_steps.
  apply wp_refcount_get; [lia|]. wp_steps. pose proof (Hrf i).
  rewrite u16_small by lia. apply wp_refcount_set; [lia|]. intros rc Hrl Hrefs.
  split; [split|]; simpl in *; try done; unfold npages in *; simpl; try lia.
  - intros j. rewrite Hrefs. pose proof (Hrf j). case_bools.
  - intros j Hj Hb. rewrite Hrefs. case_bool; [subst; congruence|by apply Hfr].
Qed.

(** ** The interface *)

Lemma frames_managed s j :
  0 <= j < npages s ->
  pmm_frames s (j * PAGE_SIZE) =
  if page_bit (bitmap s) j then Some (page_refs s j) else None.
Proof.
  intros Hj. unfold pmm_frames. rewrite Z.div_mul by done.
  unfold PAGE_SIZE in *. case_bools; done.
Qed.

(** Two states with the same number of pages that agree outside page [i] have
    the same frames outside [i]. *)
Lemma frames_other s s' i q :
  npages s' = npages s -> q <> i * PAGE_SIZE ->
  (forall j, 0 <= j -> j <> i -> page_bit (bitmap s') j = page_bit (bitmap s) j) ->
  (forall j, j <> i -> page_refs s' j = page_refs s j) ->
  pmm_frames s' q = pmm_frames s q.
Proof.
  intros Hn Hq Hb Hr. unfold pmm_frames. rewrite Hn.
  destruct (Z.eqb_spec (q mod PAGE_SIZE) 0); [|done].
  destruct (Z.leb_spec 0 q); [|done]. unfold PAGE_SIZE in *.
  rewrite Hb, Hr by lia. done.
Qed.

Lemma frames_in_use s p n :
  pmm_frames s p = Some n -> 1 <= n ->
  exists j, p = j * PAGE_SIZE /\ 0 <= j < npages s /\
    page_bit (bitmap s) j = true /\ page_refs s j = n.
Proof.
  unfold pmm_frames. intros H Hn. unfold PAGE_SIZE in *.
  destruct (Z.eqb_spec (p mod 4096) 0), (Z.leb_spec 0 p), (Z.ltb_spec p (npages s * 4096));
    simpl in H; try (injection H; lia).
  exists (p / 4096). destruct (page_bit (bitmap s) (p / 4096)) eqn:E; [|done].
  injection H. intros. split_and!; try lia; done.
Qed.

Lemma frames_full s p :
  (forall j, 0 <= j < npages s -> page_bit (bitmap s) j = true) -> pmm_frames s p <> None.
Proof.
  intros H. unfold pmm_frames, PAGE_SIZE in *.
  destruct (Z.eqb_spec (p mod 4096) 0), (Z.leb_spec 0 p), (Z.ltb_spec p (npages s * 4096));
    simpl; try done. rewrite H by lia. done.
Qed.

#[export] Instance pmm_ops : FrameOps pmm := {|
  fa_alloc := pmm_alloc_page;
  fa_free := pmm_free_page;
  fa_ref_inc := pmm_page_ref_inc;
  fa_refcount := pmm_page_refcount;
|}.

Lemma pmm_alloc_law s :
  pmm_wf s ->
  wp pmm_alloc_page (fun p s' => pmm_wf s' /\
    ((p = 0 /\ (forall q, pmm_frames s q <> None) /\
      forall q, pmm_frames s' q = pmm_frames s q) \/
     (valid_frame p /\ pmm_frames s p = None /\ pmm_frames s' p = Some 1 /\
      forall q, q <> p -> pmm_frames s' q = pmm_frames s q))) s.
Proof.
  intros Hwf. eapply wp_mono; [by apply wp_pmm_alloc_page|].
  intros p s' [(-> & -> & Hfull)|(k & -> & Hk & [Hr Hf Hwf' Hn Hb Hrefs])].
  - split; [done|]. left. split_and!; [done| |done]. intros q. by apply frames_full.
  - split; [done|]. right. rewrite !frames_managed by lia.
    rewrite Hf, Hb, Hrefs, Z.eqb_refl by lia. split_and!; [|done..|].
    + pose proof (wf_highest s Hwf). unfold npages, valid_frame, PAGE_SIZE in *. lia.
    + intros q Hq. apply (frames_other s s' k); [done|done| |].
      * intros j Hj Hne. rewrite Hb by lia. by case_bool.
      * intros j Hne. rewrite Hrefs. by case_bool.
Qed.

Lemma pmm_free_law s p n :
  pmm_wf s -> valid_frame p -> pmm_frames s p = Some n -> 1 <= n ->
  wp (pmm_free_page p) (fun _ s' => pmm_wf s' /\
    pmm_frames s' p = (if n =? 1 then None else Some (n - 1)) /\
    forall q, q <> p -> pmm_frames s' q = pmm_frames s q) s.
Proof.
  intros Hwf [_ Hp] Hf Hn. apply frames_in_use in Hf as (j & -> & Hj & Hb & <-); [|done].
  eapply wp_mono; [apply wp_pmm_free_page; unfold PAGE_SIZE in *; try done; lia|].
  intros _ s' (Hwf' & Hnp & Hbits & Hrefs). split; [done|]. split.
  - rewrite frames_managed, Hbits, Hrefs, Z.eqb_refl by lia. by destruct (_ =? 1).
  - intros q Hq. apply (frames_other s s' j); [done|done| |].
    + intros k Hk Hne. rewrite Hbits by lia. by case_bool.
    + intros k Hne. rewrite Hrefs. by case_bool.
Qed.

Lemma pmm_ref_inc_law s p n :
  pmm_wf s -> valid_frame p -> pmm_frames s p = Some n -> 1 <= n -> n + 1 < 65536 ->
  wp (pmm_page_ref_inc p) (fun _ s' => pmm_wf s' /\
    pmm_frames s' p = Some (n + 1) /\
    forall q, q <> p -> pmm_frames s' q = pmm_frames s q) s.
Proof.
  intros Hwf _ Hf Hn Hmax. apply frames_in_use in Hf as (j & -> & Hj & Hb & <-); [|done].
  eapply wp_mono; [apply wp_pmm_page_ref_inc; done|].
  intros _ s' (Hwf' & Hnp & Hbits & Hrefs). split; [done|]. split.
  - by rewrite frames_managed, Hbits, Hb, Hrefs, Z.eqb_refl by lia.
  - intros q Hq. apply (frames_other s s' j); [done|done|by rewrite Hbits|].
    intros k Hne. rewrite Hrefs. by case_bool.
Qed.

Lemma pmm_refcount_law s p n :
  pmm_wf s -> valid_frame p -> pmm_frames s p = Some n -> 1 <= n ->
  wp (pmm_page_refcount p) (fun r s' => r = n /\ s' = s) s.
Proof.
  intros Hwf _ Hf Hn. apply frames_in_use in Hf as (j & -> & Hj & Hb & <-); [|done].
  unfold pmm_page_refcount. rewrite Z.div_mul by done.
  pose proof (wf_refcounts s Hwf). by apply wp_refcount_get; [lia|].
Qed.

#[export] Instance pmm_alloc : FrameAlloc pmm := {|
  fa_wf := pmm_wf;
  frames := pmm_frames;
  fa_alloc_spec := pmm_alloc_law;
  fa_free_spec := pmm_free_law;
  fa_ref_inc_spec := pmm_ref_inc_law;
  fa_refcount_spec := pmm_refcount_law;
|}.

(** ** Refinement of an abstract reference-counting allocator *)

Inductive pmm_op :=
  | OpAlloc
  | OpFree (p : Z)
  | OpRefInc (p : Z).

Definition run_op (op : pmm_op) : M pmm Z :=
  match op with
  | OpAlloc => pmm_alloc_page
  | OpFree p => pmm_free_page p ;; ret 0
  | OpRefInc p => pmm_page_ref_inc p ;; ret 0
  end.

(** The abstract allocator: a partial map from pages to counts.  [f' =_p f]
    outside the page the operation names. *)
Definition agree_but (p : Z) (f f' : Z -> option Z) : Prop := forall q, q <> p -> f' q = f q.

Inductive frames_step : (Z -> option Z) -> pmm_op -> Z -> (Z -> option Z) -> Prop :=
  | fs_alloc f f' p :
      valid_frame p -> f p = None -> f' p = Some 1 -> agree_but p f f' ->
      frames_step f OpAlloc p f'
  | fs_full f f' :
      (forall p, f p <> None) -> (forall p, f' p = f p) -> frames_step f OpAlloc 0 f'
  | fs_last f f' p :
      f p = Some 1 -> f' p = None -> agree_but p f f' -> frames_step f (OpFree p) 0 f'
  | fs_drop f f' p n :
      1 < n -> f p = Some n -> f' p = Some (n - 1) -> agree_but p f f' ->
      frames_step f (OpFree p) 0 f'
  | fs_share f f' p n :
      f p = Some n -> f' p = Some (n + 1) -> agree_but p f f' ->
      frames_step f (OpRefInc p) 0 f'.

(** The caller's side of the contract: a page is released or shared only by an
    owner, and its count has room. *)
Definition legal (f : Z -> option Z) (op : pmm_op) : Prop :=
  match op with
  | OpAlloc => True
  | OpFree p => valid_frame p /\ exists n, f p = Some n /\ 1 <= n
  | OpRefInc p => valid_frame p /\ exists n, f p = Some n /\ 1 <= n /\ n + 1 < 65536
  end.

(** [run_ops ops] runs a sequence of calls; [frames_run] is a sequence of
    abstract steps. *)
Fixpoint run_ops (ops : list pmm_op) : M pmm (list Z) :=
  match ops with
  | [] => ret []
  | op :: rest => r <- run_op op ;; rs <- run_ops rest ;; ret (r :: rs)
  end.

Inductive frames_run : (Z -> option Z) -> list pmm_op -> list Z -> (Z -> option Z) -> Prop :=
  | fr_nil f f' : (forall p, f' p = f p) -> frames_run f [] [] f'
  | fr_cons f f1 f' op ops r rs :
      frames_step f op r f1 -> frames_run f1 ops rs f' ->
      frames_run f (op :: ops) (r :: rs) f'.

(** Every abstract run that starts like this is legal. *)
Fixpoint legal_run (f : Z -> option Z) (ops : list pmm_op) : Prop :=
  match ops with
  | [] => True
  | op :: rest => legal f op /\ forall r f', frames_step f op r f' -> legal_run f' rest
  end.

Lemma run_op_refines s op :
  pmm_wf s -> legal (pmm_frames s) op ->
  wp (run_op op) (fun r s' => pmm_wf s' /\ frames_step (pmm_frames s) op r (pmm_frames s')) s.
Proof.
  intros Hwf Hlegal. destruct op as [|p|p]; simpl in Hlegal |- *.
  - eapply wp_mono; [by apply pmm_alloc_law|].
    intros p s' [Hwf' [(-> & Hfull & Hsame)|(Hv & Hf & Hf' & Hother)]]; (split; [done|]).
    + by apply fs_full.
    + by apply fs_alloc.
  - destruct Hlegal as (Hv & n & Hf & Hn). wp_steps.
    eapply wp_mono; [by apply (pmm_free_law s p n)|]. intros [] s' (Hwf' & Hp & Hother).
    wp_steps. split; [done|]. destruct (Z.eqb_spec n 1) as [->|].
    + by apply fs_last.
    + apply fs_drop with n; [lia|done..].
  - destruct Hlegal as (Hv & n & Hf & Hn & Hmax). wp_steps.
    eapply wp_mono; [by apply (pmm_ref_inc_law s p n)|]. intros [] s' (Hwf' & Hp & Hother).
    wp_steps. split; [done|]. by apply fs_share with n.
Qed.

(** C1: The page allocator refines the abstract reference-counting allocator:
    on a well-formed state every legal sequence of [pmm_alloc_page],
    [pmm_free_page] and [pmm_page_ref_inc] calls is defined (no access outside
    the bitmap or the counts), keeps the state well formed, and its results are
    those of an abstract run.  In particular an allocation returns a page that
    is free and never page 0, returns NULL only when no page is free, and a page
    becomes free only when its last reference is dropped. *)
Theorem pmm_refines_frames (ops : list pmm_op) : forall s,
  pmm_wf s -> legal_run (pmm_frames s) ops ->
  wp (run_ops ops) (fun rs s' => pmm_wf s' /\
    frames_run (pmm_frames s) ops rs (pmm_frames s')) s.
Proof.
  induction ops as [|op ops IH]; intros s Hwf Hlegal; simpl.
  - wp_steps. split; [done|]. by constructor.
  - destruct Hlegal as [Hop Hrest]. wp_steps.
    eapply wp_mono; [by apply run_op_refines|]. intros r s1 [Hwf1 Hstep]. wp_steps.
    eapply wp_mono; [apply IH; [done|by eapply Hrest]|]. intros rs s' [Hwf' Hrun].
    wp_steps. split; [done|]. by econstructor.
Qed.

(** ** Initialisation *)

(** The boot protocol reports usable regions as whole pages. *)
Definition entry_ok (e : memmap_entry) : Prop :=
  0 <= e_base e /\ 0 <= e_length e /\ e_base e mod PAGE_SIZE = 0 /\
  e_length e mod PAGE_SIZE = 0 /\ e_base e + e_length e <= 70368744177664.

Definition in_entry (e : memmap_entry) (j : Z) : bool :=
  e_usable e && (e_base e / PAGE_SIZE <=? j) && (j <? (e_base e + e_length e) / PAGE_SIZE).
Definition usable (entries : list memmap_entry) (j : Z) : bool :=
  existsb (fun e => in_entry e j) entries.

Lemma highest_step_spec hi e :
  entry_ok e -> 0 <= hi <= 70368744177664 ->
  hi <= highest_step hi e <= 70368744177664 /\
  (e_usable e = true -> e_base e + e_length e <= highest_step hi e).
Proof.
  intros (? & ? & ? & ? & Htop) Hhi. unfold highest_step. rewrite u64_small by lia.
  destruct (e_usable e); [case_bools|]; (split; [lia|]); done || lia.
Qed.

Lemma find_highest_from entries : forall hi,
  Forall entry_ok entries -> 0 <= hi <= 70368744177664 ->
  hi <= fold_left highest_step entries hi <= 70368744177664 /\
  (forall e, e ∈ entries -> e_usable e = true ->
    e_base e + e_length e <= fold_left highest_step entries hi).
Proof.
  induction entries as [|e entries IH]; intros hi Hok Hhi; simpl.
  - split; [lia|]. intros e He. by apply not_elem_of_nil in He.
  - apply Forall_cons_iff in Hok as [He Hok].
    destruct (highest_step_spec hi e He Hhi) as [Hs Hsu].
    destruct (IH (highest_step hi e) Hok) as [Hr Hall]; [lia|]. split; [lia|].
    intros e' [->|He']%elem_of_cons Hu; [specialize (Hsu Hu); lia|by apply Hall].
Qed.

(** Clearing the pages of the usable entries. *)
Definition same_shape (s s' : pmm) : Prop :=
  length (bitmap s') = length (bitmap s) /\ refcounts s' = refcounts s /\
  bitmap_index s' = bitmap_index s /\ highest_address s' = highest_address s /\
  (Forall is_byte (bitmap s) -> Forall is_byte (bitmap s')).

Lemma same_shape_refl s : same_shape s s.
Proof. by split_and!. Qed.

Lemma same_shape_bitmap s s' bm :
  same_shape s s' -> length bm = length (bitmap s') ->
  (Forall is_byte (bitmap s') -> Forall is_byte bm) -> same_shape s (set_bitmap bm s').
Proof. intros (H1 & H2 & H3 & H4 & H5) Hl Hb. split_and!; simpl; auto; congruence. Qed.

Lemma page_steps_pages l :
  0 <= l -> l mod PAGE_SIZE = 0 -> Z.of_nat (page_steps l) = l / PAGE_SIZE.
Proof. intros. unfold page_steps, PAGE_SIZE in *. lia. Qed.

(** A loop that writes the bits of the pages [lo, lo + n). *)
Lemma wp_write_pages (write : Z -> M pmm unit) (c : bool) base n s :
  (forall i (Q : unit -> pmm -> Prop) s,
    0 <= i < 8 * Z.of_nat (length (bitmap s)) ->
    (forall bm, length bm = length (bitmap s) ->
      (Forall is_byte (bitmap s) -> Forall is_byte bm) ->
      (forall j, 0 <= j -> page_bit bm j = if j =? i then c else page_bit (bitmap s) j) ->
      Q tt (set_bitmap bm s)) -> wp (write i) Q s) ->
  0 <= base -> base mod PAGE_SIZE = 0 ->
  base / PAGE_SIZE + Z.of_nat n <= 8 * Z.of_nat (length (bitmap s)) ->
  wp (for_range 0 n (fun k => write ((base + k * PAGE_SIZE) / PAGE_SIZE)))
    (fun _ s' => same_shape s s' /\
      forall j, 0 <= j -> page_bit (bitmap s') j =
        if (base / PAGE_SIZE <=? j) && (j <? base / PAGE_SIZE + Z.of_nat n)
        then c else page_bit (bitmap s) j) s.
Proof.
  intros Hwrite Hb Hal Hn.
  eapply wp_mono; [apply (wp_for_range (fun i s' => same_shape s s' /\
      forall j, 0 <= j -> page_bit (bitmap s') j =
        if (base / PAGE_SIZE <=? j) && (j <? base / PAGE_SIZE + i)
        then c else page_bit (bitmap s) j))|by rewrite Z.add_0_l].
  - split; [apply same_shape_refl|]. intros j Hj. case_bools; done.
  - intros i s' Hi [Hsh HI]. pose proof (proj1 Hsh) as Hlen.
    rewrite Z.div_add by done. apply Hwrite; [unfold PAGE_SIZE in *; lia|].
    intros bm Hbl Hbytes Hbits. split; [by apply same_shape_bitmap|].
    intros j Hj. simpl. rewrite Hbits, HI by lia. case_bools; done.
Qed.

Lemma wp_clear_usable entries : forall s,
  Forall entry_ok entries ->
  (forall e, e ∈ entries -> e_usable e = true ->
    (e_base e + e_length e) / PAGE_SIZE <= 8 * Z.of_nat (length (bitmap s))) ->
  wp (clear_usable entries) (fun _ s' => same_shape s s' /\
    forall j, 0 <= j -> page_bit (bitmap s') j = page_bit (bitmap s) j && negb (usable entries j)) s.
Proof.
  induction entries as [|e entries IH]; intros s Hok Hfit; simpl.
  { wp_steps. split; [apply same_shape_refl|]. intros. by rewrite andb_true_r. }
  apply Forall_cons_iff in Hok as [(Hb & Hl & Hab & Hal & _) Hok'].
  assert (Hrest : forall s', same_shape s s' ->
    (forall j, 0 <= j -> page_bit (bitmap s') j =
       page_bit (bitmap s) j && negb (in_entry e j)) ->
    wp (clear_usable entries) (fun _ s'' => same_shape s s'' /\ forall j, 0 <= j ->
      page_bit (bitmap s'') j = page_bit (bitmap s) j &&
        negb (in_entry e j || usable entries j)) s').
  { intros s' (Hlen & H2 & H3 & H4 & H5) Hbits. eapply wp_mono; [apply IH; [done|]|].
    - intros e' He' Hu. rewrite Hlen. apply Hfit; [|done]. apply elem_of_cons. by right.
    - intros _ s'' [(Hlen' & H2' & H3' & H4' & H5') Hbits']. split.
      + split_and!; auto; congruence.
      + intros j Hj. rewrite Hbits', Hbits, negb_orb by lia. by rewrite andb_assoc. }
  wp_steps. unfold clear_entry. destruct (e_usable e) eqn:Eu.
  - specialize (Hfit e (list_elem_of_here _ _) Eu).
    eapply wp_mono; [apply (wp_write_pages bitmap_clear false); try done|].
    + intros. by apply wp_bitmap_clear.
    + rewrite page_steps_pages by done. unfold PAGE_SIZE in *. lia.
    + intros [] s' [Hsh Hbits]. apply Hrest; [done|]. intros j Hj.
      rewrite Hbits, page_steps_pages by done. unfold in_entry. rewrite Eu. simpl.
      unfold PAGE_SIZE in *. case_bools; destruct (page_bit (bitmap s) j); done.
  - wp_steps. apply Hrest; [apply same_shape_refl|]. intros j Hj. unfold in_entry.
    rewrite Eu. simpl. by rewrite andb_true_r.
Qed.


(** The state [init_pmm] starts from: every page marked used, no references. *)
Definition blank (highest : Z) : pmm :=
  mkPmm (replicate (Z.to_nat (bitmap_bytes highest)) 255)
        (replicate (Z.to_nat (highest / PAGE_SIZE)) 0) 0 highest.

Lemma blank_bit highest j : 0 <= j < 8 * bitmap_bytes highest -> page_bit (bitmap (blank highest)) j = true.
Proof.
  intros Hj. unfold page_bit, arr_get, blank; simpl. case_bools.
  rewrite lookup_replicate_2 by lia.
  change 255 with (Z.ones 8). apply Z.ones_spec_low. lia.
Qed.

Lemma blank_refs highest j : page_refs (blank highest) j = 0.
Proof.
  unfold page_refs, arr_get, blank; simpl. case_bools; [|done].
  destruct (_ !! _) as [n|] eqn:E; [|done]. by apply lookup_replicate in E as [-> _].
Qed.

Lemma bitmap_bytes_nonneg highest : 0 <= highest -> 0 <= bitmap_bytes highest.
Proof. intros. unfold bitmap_bytes, PAGE_SIZE. case_bools. Qed.

Lemma page_steps_fit size e :
  entry_ok e -> 0 <= size <= e_length e ->
  e_base e / PAGE_SIZE + Z.of_nat (page_steps size) <= (e_base e + e_length e) / PAGE_SIZE.
Proof. intros (? & ? & ? & ? & ?) ?. unfold page_steps, PAGE_SIZE in *. lia. Qed.

Lemma init_pmm_spec (entries : list memmap_entry) (home : memmap_entry) :
  Forall entry_ok entries ->
  let hi := find_highest entries in
  let size := bitmap_bytes hi + hi / PAGE_SIZE * 2 in
  List.find (fun e => e_usable e && (size <=? e_length e)) entries = Some home ->
  0 < hi / PAGE_SIZE <= 8 * bitmap_bytes hi ->
  exists s, init_pmm entries = Some s /\ pmm_wf s /\ npages s = hi / PAGE_SIZE /\
    forall j, 0 <= j < npages s ->
      page_bit (bitmap s) j =
      negb (usable entries j) || (j =? 0) ||
      ((e_base home / PAGE_SIZE <=? j) &&
       (j <? e_base home / PAGE_SIZE + Z.of_nat (page_steps size))).
Proof.
  intros Hok hi size Hfind Hn.
  destruct (find_highest_from entries 0 Hok) as [Hhi Hall]; [lia|].
  change (fold_left highest_step entries 0) with hi in Hhi, Hall.
  pose proof (List.find_some _ _ Hfind) as [Hin [Hu Hsize]%andb_true_iff].
  apply list_elem_of_In in Hin. apply Z.leb_le in Hsize.
  pose proof (proj1 (Forall_forall _ _) Hok home Hin) as Hhome.
  pose proof (Hall home Hin Hu) as Htop. pose proof (bitmap_bytes_nonneg hi ltac:(lia)) as Hbb.
  assert (Hsz : 0 <= size <= e_length home).
  { unfold PAGE_SIZE in *. split; [|done]. unfold size. lia. }
  pose proof (page_steps_fit size home Hhome Hsz) as Hfit.
  assert (Hlen0 : Z.of_nat (length (bitmap (blank hi))) = bitmap_bytes hi)
    by (simpl; rewrite length_replicate; lia).
  unfold init_pmm. cbv zeta. fold hi. fold size. rewrite Hfind. fold (blank hi).
  enough (Hwp : wp (clear_usable entries ;;
    for_range 0 (page_steps size) (fun k => bitmap_set ((e_base home + k * PAGE_SIZE) / PAGE_SIZE)) ;;
    bitmap_set 0 ;; refcount_set 0 1) (fun _ s => pmm_wf s /\ npages s = hi / PAGE_SIZE /\
      forall j, 0 <= j < npages s -> page_bit (bitmap s) j =
        negb (usable entries j) || (j =? 0) ||
        ((e_base home / PAGE_SIZE <=? j) &&
         (j <? e_base home / PAGE_SIZE + Z.of_nat (page_steps size)))) (blank hi)).
  { apply wp_run in Hwp as (? & s & -> & Hs). by exists s. }
  wp_steps. eapply wp_mono; [apply wp_clear_usable; [done|]|].
  { intros e He Hue. specialize (Hall e He Hue). rewrite Hlen0. unfold PAGE_SIZE in *. lia. }
  intros [] s1 [(Hl1 & Hr1 & Hi1 & Hh1 & Hby1) Hb1]. wp_steps.
  destruct Hhome as (Hb0 & _ & Hab & _ & _).
  eapply wp_mono; [apply (wp_write_pages bitmap_set true); [|done|done|]|].
  { intros. by apply wp_bitmap_set. }
  { rewrite Hl1, Hlen0. unfold PAGE_SIZE in *. lia. }
  intros [] s2 [(Hl2 & Hr2 & Hi2 & Hh2 & Hby2) Hb2]. wp_steps.
  apply wp_bitmap_set; [lia|]. intros bm Hl3 Hby3 Hb3. wp_steps.
  assert (Hrc : refcounts s2 = refcounts (blank hi)) by congruence.
  apply wp_refcount_set; [simpl; rewrite Hrc; simpl; rewrite length_replicate; lia|].
  intros rc Hl4 Hr4.
  assert (Hnp : npages (set_refcounts rc (set_bitmap bm s2)) = hi / PAGE_SIZE).
  { unfold npages. simpl. rewrite Hh2, Hh1. done. }
  assert (Hbits : forall j, 0 <= j < hi / PAGE_SIZE -> page_bit bm j =
        negb (usable entries j) || (j =? 0) ||
        ((e_base home / PAGE_SIZE <=? j) &&
         (j <? e_base home / PAGE_SIZE + Z.of_nat (page_steps size)))).
  { intros j Hj. rewrite Hb3, Hb2, Hb1, blank_bit by lia. simpl.
    destruct (j =? 0), (_ && _), (usable entries j); done. }
  assert (Hrefs : forall j, page_refs (set_refcounts rc (set_bitmap bm s2)) j =
    if j =? 0 then 1 else 0).
  { intros j. rewrite Hr4. case_bool; [done|]. unfold page_refs. simpl. rewrite Hrc.
    exact (blank_refs hi j). }
  split; [split|split; [done|intros j Hj; apply Hbits; lia]].
  - rewrite Hnp. simpl. lia.
  - simpl. apply Hby3, Hby2, Hby1. simpl. apply Forall_replicate. unfold is_byte. lia.
  - rewrite Hnp. simpl. rewrite Hl4. simpl. rewrite Hrc. simpl. rewrite length_replicate. lia.
  - intros j. rewrite Hrefs. case_bools.
  - rewrite Hnp. simpl. rewrite Hi2, Hi1. simpl. lia.
  - intros j Hj Hb. rewrite Hrefs. simpl in Hb. case_bool; [|done]. subst j.
    rewrite Hbits in Hb by lia. destruct (usable entries 0); done.
  - simpl. rewrite Hbits by lia. by destruct (usable entries 0).
  - simpl. rewrite Hh2, Hh1. simpl. lia.
Qed.


(** When the rounding is right: it adds a byte when [bitmap_size], not the
    number of pages, is no multiple of 8. *)
Lemma bitmap_bytes_short highest :
  0 <= highest ->
  8 * bitmap_bytes highest < highest / PAGE_SIZE <->
  highest / PAGE_SIZE / 8 mod 8 = 0 /\ highest / PAGE_SIZE mod 8 <> 0.
Proof. intros. unfold bitmap_bytes, PAGE_SIZE. case_bools. Qed.

(** The rounding of [bitmap_size] in [init_pmm] is wrong: the bitmap is
    too short exactly when the byte count is a multiple of 8 and the page count
    is not, and on such a map (here 65 usable pages) [init_pmm] clears a bit
    outside the bitmap. *)
Theorem init_pmm_bitmap_overflow :
  (forall highest, 0 <= highest ->
    (8 * bitmap_bytes highest < highest / PAGE_SIZE <->
     highest / PAGE_SIZE / 8 mod 8 = 0 /\ highest / PAGE_SIZE mod 8 <> 0)) /\
  init_pmm [mkEntry 0 (65 * PAGE_SIZE) true] = None.
Proof. split; [exact bitmap_bytes_short | by vm_compute]. Qed.

(** A concrete machine: 64 pages of RAM at 0 of which the first 40 are
    usable, and a reserved hole. *)
Definition demo_map : list memmap_entry :=
  [mkEntry 0 (40 * PAGE_SIZE) true; mkEntry (40 * PAGE_SIZE) (8 * PAGE_SIZE) false;
   mkEntry (48 * PAGE_SIZE) (24 * PAGE_SIZE) true].
Definition demo_pmm : pmm := default (mkPmm [] [] 0 0) (init_pmm demo_map).


Lemma demo_pmm_wf : pmm_wf demo_pmm.
Proof.
  destruct (init_pmm_spec demo_map (mkEntry 0 (40 * PAGE_SIZE) true)) as (s & Hs & Hwf & _).
  - repeat constructor; by vm_compute.
  - by vm_compute.
  - by vm_compute.
  - unfold demo_pmm. by rewrite Hs.
Qed.

(** The same machine after one allocation, which returned page 1. *)
Definition demo_pmm1 : pmm := match pmm_alloc_page demo_pmm with Some (_, s) => s | None => demo_pmm end.

Lemma demo_pmm1_wf : pmm_wf demo_pmm1.
Proof.
  destruct (proj1 (wp_run _ _ _) (pmm_alloc_law demo_pmm demo_pmm_wf)) as (p & s & E & H & _).
  unfold demo_pmm1. rewrite E. exact H.
Qed.

Definition demo_ops : list pmm_op := [OpRefInc 4096; OpFree 4096; OpFree 4096; OpAlloc].

Lemma demo_ops_legal f : f 4096 = Some 1 -> legal_run f demo_ops.
Proof.
  intros H0. assert (Hv : valid_frame 4096) by done.
  simpl. split; [split; [done|]; exists 1; split; [done|lia]|].
  intros r1 f1 H1. inversion H1 as [| | | |? ? ? n1 E1 E1' _]; subst.
  rewrite H0 in E1. injection E1 as <-.
  split; [split; [done|]; exists 2; split; [done|lia]|].
  intros r2 f2 H2. inversion H2 as [| |? ? ? E2|? ? ? n2 _ E2 E2' _|]; subst;
    [rewrite E1' in E2; injection E2; lia|].
  rewrite E1' in E2. injection E2 as <-.
  split; [split; [done|]; exists 1; split; [done|lia]|]. done.
Qed.

Lemma pmm_refines_frames_witness :
  wp (run_ops demo_ops) (fun rs s' => pmm_wf s' /\
    frames_run (pmm_frames demo_pmm1) demo_ops rs (pmm_frames s')) demo_pmm1.
Proof.
  apply (pmm_refines_frames demo_ops demo_pmm1).
  - exact demo_pmm1_wf.
  - apply demo_ops_legal. vm_compute. reflexivity.
Defined.
