(* ===== verification/Vmm.v ===== *)
(** * The virtual memory manager (vmm.c)

    Four-level page tables in the byte memory, reached through the higher-half
    direct map: the table at physical address [p] is read and written at
    [p + hhdm_offset].  Pages come from any allocator that implements
    [FrameAlloc].  The hardware's translation caches are not part of the model,
    so the [invlpg]/CR3 reloads have no counterpart. *)

From S2P Require Import Prelude Mem CString FrameAlloc.

(** ** Page-table entries (vmm.h) *)

Definition PTE_PRESENT : Z := Z.shiftl 1 0.
Definition PTE_WRITABLE : Z := Z.shiftl 1 1.
Definition PTE_USER : Z := Z.shiftl 1 2.
Definition PTE_PWT : Z := Z.shiftl 1 3.
Definition PTE_COW : Z := Z.shiftl 1 9.
Definition PTE_SHARED : Z := Z.shiftl 1 10.
Definition PTE_NOPMM : Z := Z.shiftl 1 11.
Definition PTE_NX : Z := Z.shiftl 1 63.

(** The masks the code writes as literals. *)
Definition ADDR_MASK : Z := 0x000FFFFFFFFFF000.
Definition FLAG_MASK : Z := 0xFFF0000000000FFF.

Definition pte_addr (e : Z) : Z := Z.land e ADDR_MASK.
Definition has (flag e : Z) : bool := negb (Z.land e flag =? 0).
Abbreviation present := (has PTE_PRESENT).

(** The index of each level in a virtual address. *)
Definition pml4_index (va : Z) : Z := Z.land (Z.shiftr va 39) 0x1FF.
Definition pdpt_index (va : Z) : Z := Z.land (Z.shiftr va 30) 0x1FF.
Definition pd_index (va : Z) : Z := Z.land (Z.shiftr va 21) 0x1FF.
Definition pt_index (va : Z) : Z := Z.land (Z.shiftr va 12) 0x1FF.

(** The virtual address with given indices. *)
Definition va_of (i4 i3 i2 i1 : Z) : Z :=
  Z.lor (Z.lor (Z.lor (Z.shiftl i4 39) (Z.shiftl i3 30)) (Z.shiftl i2 21)) (Z.shiftl i1 12).

(** ** State *)

Record vm (S : Type) := mkVm {
  vm_mem : memory;
  vm_pa : S;
  kernel_pml4 : Z;
}.
Arguments mkVm {S}. Arguments vm_mem {S}. Arguments vm_pa {S}. Arguments kernel_pml4 {S}.

Section ops.
Context {S : Type} `{FrameOps S} (hhdm_offset : Z).
Abbreviation V := (M (vm S)).

Definition set_mem (m : memory) (s : vm S) : vm S := mkVm m (vm_pa s) (kernel_pml4 s).

(** Run an allocator operation. *)
Definition pa {A} (c : M S A) : V A := fun s =>
  match c (vm_pa s) with
  | None => None
  | Some (a, p) => Some (a, mkVm (vm_mem s) p (kernel_pml4 s))
  end.

(** The direct-map address of a physical address, and back. *)
Definition p2v (p : Z) : Z := u64 (p + hhdm_offset).
Definition v2p (v : Z) : Z := u64 (v - hhdm_offset).

(** [table[i]], for a table given by its direct-map address. *)
Definition pt_load (table i : Z) : V Z := gets (fun s => load64 (vm_mem s) (table + 8 * i)).
Definition pt_store (table i e : Z) : V unit :=
  modify (fun s => set_mem (store64 (vm_mem s) (table + 8 * i) e) s).
Definition mem_memset (dest c n : Z) : V unit :=
  modify (fun s => set_mem (memset (vm_mem s) dest c n) s).
Definition mem_memcpy (dest src n : Z) : V unit :=
  modify (fun s => set_mem (memcpy (vm_mem s) dest src n) s).

Definition get_next_level (current_level entry_index : Z) : V Z :=
  e <- pt_load current_level entry_index ;;
  if present e then ret (p2v (pte_addr e))
  else
    next_level_phys <- pa fa_alloc ;;
    if next_level_phys =? 0 then ret 0
    else
      let next_level_virt := p2v next_level_phys in
      mem_memset next_level_virt 0 PAGE_SIZE ;;
      pt_store current_level entry_index
        (Z.lor (Z.lor (Z.lor next_level_phys PTE_PRESENT) PTE_WRITABLE) PTE_USER) ;;
      ret next_level_virt.

Definition vmm_map_page (pml4 virtual_addr physical_addr flags : Z) : V unit :=
  pdpt <- get_next_level pml4 (pml4_index virtual_addr) ;;
  if pdpt =? 0 then ret tt else
  pd <- get_next_level pdpt (pdpt_index virtual_addr) ;;
  if pd =? 0 then ret tt else
  pt <- get_next_level pd (pd_index virtual_addr) ;;
  if pt =? 0 then ret tt else
  pt_store pt (pt_index virtual_addr) (Z.lor physical_addr flags).

Definition vmm_set_page_user (pml4 virtual_addr : Z) : V unit :=
  let i4 := pml4_index virtual_addr in
  let i3 := pdpt_index virtual_addr in
  let i2 := pd_index virtual_addr in
  let i1 := pt_index virtual_addr in
  e4 <- pt_load pml4 i4 ;;
  if negb (present e4) then ret tt else
  pt_store pml4 i4 (Z.lor e4 PTE_USER) ;;
  let pdpt := p2v (pte_addr (Z.lor e4 PTE_USER)) in
  e3 <- pt_load pdpt i3 ;;
  if negb (present e3) then ret tt else
  pt_store pdpt i3 (Z.lor e3 PTE_USER) ;;
  let pd := p2v (pte_addr (Z.lor e3 PTE_USER)) in
  e2 <- pt_load pd i2 ;;
  if negb (present e2) then ret tt else
  pt_store pd i2 (Z.lor e2 PTE_USER) ;;
  let pt := p2v (pte_addr (Z.lor e2 PTE_USER)) in
  e1 <- pt_load pt i1 ;;
  if negb (present e1) then ret tt else
  pt_store pt i1 (Z.lor e1 PTE_USER).

Definition vmm_new_user_pagetable : V Z :=
  phys <- pa fa_alloc ;;
  if phys =? 0 then ret 0
  else
    let pml4 := p2v phys in
    mem_memset pml4 0 PAGE_SIZE ;;
    for_range 256 256 (fun i =>
      k <- gets kernel_pml4 ;;
      e <- pt_load k i ;;
      pt_store pml4 i e) ;;
    ret pml4.

(** One level of the teardown: run [child] on every present entry of [table]. *)
Definition destroy_leaf (pt pt_i : Z) : V unit :=
  e <- pt_load pt pt_i ;;
  if present e && negb (has PTE_NOPMM e) then pa (fa_free (pte_addr e)) else ret tt.
Definition destroy_pt (pd pd_i : Z) : V unit :=
  e <- pt_load pd pd_i ;;
  if negb (present e) then ret tt
  else for_range 0 512 (destroy_leaf (p2v (pte_addr e))) ;;
       e <- pt_load pd pd_i ;;
       pa (fa_free (pte_addr e)).
Definition destroy_pd (pdpt pdpt_i : Z) : V unit :=
  e <- pt_load pdpt pdpt_i ;;
  if negb (present e) then ret tt
  else for_range 0 512 (destroy_pt (p2v (pte_addr e))) ;;
       e <- pt_load pdpt pdpt_i ;;
       pa (fa_free (pte_addr e)).
Definition destroy_pdpt (pml4 pml4_i : Z) : V unit :=
  e <- pt_load pml4 pml4_i ;;
  if negb (present e) then ret tt
  else for_range 0 512 (destroy_pd (p2v (pte_addr e))) ;;
       e <- pt_load pml4 pml4_i ;;
       pa (fa_free (pte_addr e)).
Definition vmm_destroy_user_pagetable (pml4 : Z) : V unit :=
  if pml4 =? 0 then ret tt
  else
    for_range 0 256 (destroy_pdpt pml4) ;;
    pa (fa_free (v2p pml4)).

(** The end of [vmm_unmap_page], once the leaf table is found. *)
Definition unmap_leaf (virtual_addr pt : Z) : V unit :=
  e1 <- pt_load pt (pt_index virtual_addr) ;;
  if negb (present e1) then ret tt else
  let phys := pte_addr e1 in
  let nopmm := has PTE_NOPMM e1 in
  pt_store pt (pt_index virtual_addr) 0 ;;
  if negb nopmm then pa (fa_free phys) else ret tt.

Definition vmm_unmap_page (pml4 virtual_addr : Z) : V unit :=
  e4 <- pt_load pml4 (pml4_index virtual_addr) ;;
  if negb (present e4) then ret tt else
  let pdpt := p2v (pte_addr e4) in
  e3 <- pt_load pdpt (pdpt_index virtual_addr) ;;
  if negb (present e3) then ret tt else
  let pd := p2v (pte_addr e3) in
  e2 <- pt_load pd (pd_index virtual_addr) ;;
  if negb (present e2) then ret tt else
  let pt := p2v (pte_addr e2) in
  unmap_leaf virtual_addr pt.

(** The leaf step of [vmm_clone_user_pagetable]: the child's entry, and the
    parent's downgraded one. *)
Definition clone_leaf (dst_pml4 i4 i3 i2 src_pt i1 : Z) : V unit :=
  e <- pt_load src_pt i1 ;;
  if negb (present e) then ret tt
  else
    let flags := Z.land e FLAG_MASK in
    let phys := pte_addr e in
    flags <- (if has PTE_WRITABLE flags && negb (has (Z.lor PTE_SHARED PTE_NOPMM) flags)
              then let flags := Z.lor (Z.land flags (Z.lnot PTE_WRITABLE)) PTE_COW in
                   pt_store src_pt i1 (Z.lor phys flags) ;; ret flags
              else ret flags) ;;
    (if negb (has PTE_NOPMM flags) then pa (fa_ref_inc phys) else ret tt) ;;
    vmm_map_page dst_pml4 (va_of i4 i3 i2 i1) phys flags.
Definition clone_pt (dst_pml4 i4 i3 src_pd i2 : Z) : V unit :=
  e <- pt_load src_pd i2 ;;
  if negb (present e) then ret tt
  else for_range 0 512 (clone_leaf dst_pml4 i4 i3 i2 (p2v (pte_addr e))).
Definition clone_pd (dst_pml4 i4 src_pdpt i3 : Z) : V unit :=
  e <- pt_load src_pdpt i3 ;;
  if negb (present e) then ret tt
  else for_range 0 512 (clone_pt dst_pml4 i4 i3 (p2v (pte_addr e))).
Definition clone_pdpt (dst_pml4 src_pml4 i4 : Z) : V unit :=
  e <- pt_load src_pml4 i4 ;;
  if negb (present e) then ret tt
  else for_range 0 512 (clone_pd dst_pml4 i4 (p2v (pte_addr e))).
Definition vmm_clone_user_pagetable (src_pml4 : Z) : V Z :=
  dst_pml4 <- vmm_new_user_pagetable ;;
  if dst_pml4 =? 0 then ret 0
  else for_range 0 256 (clone_pdpt dst_pml4 src_pml4) ;; ret dst_pml4.

(** The end of [vmm_handle_cow_fault], once the leaf table is found. *)
Definition cow_leaf (fault_vaddr pt : Z) : V bool :=
  e1 <- pt_load pt (pt_index fault_vaddr) ;;
  if negb (present e1) || negb (has PTE_COW e1) then ret false else
  let phys := pte_addr e1 in
  let flags := Z.lor (Z.land (Z.land e1 FLAG_MASK) (Z.lnot PTE_COW)) PTE_WRITABLE in
  n <- pa (fa_refcount phys) ;;
  if n =? 1 then
    pt_store pt (pt_index fault_vaddr) (Z.lor phys flags) ;; ret true
  else
    new_phys <- pa fa_alloc ;;
    if new_phys =? 0 then ret false
    else
      mem_memcpy (p2v new_phys) (p2v phys) PAGE_SIZE ;;
      pt_store pt (pt_index fault_vaddr) (Z.lor new_phys flags) ;;
      pa (fa_free phys) ;;
      ret true.

Definition vmm_handle_cow_fault (pml4 fault_vaddr : Z) : V bool :=
  e4 <- pt_load pml4 (pml4_index fault_vaddr) ;;
  if negb (present e4) then ret false else
  let pdpt := p2v (pte_addr e4) in
  e3 <- pt_load pdpt (pdpt_index fault_vaddr) ;;
  if negb (present e3) then ret false else
  let pd := p2v (pte_addr e3) in
  e2 <- pt_load pd (pd_index fault_vaddr) ;;
  if negb (present e2) then ret false else
  let pt := p2v (pte_addr e2) in
  cow_leaf fault_vaddr pt.
End ops.
