(* ===== verification/PageTable.v ===== *)
(** * Address spaces: the theory of the page tables of [Vmm]

    [mapping] is what the hardware sees of an address space: the leaf entry of
    a virtual page.  [as_wf] is the shape invariant of the user half of an
    address space: a tree of page-table pages, all distinct, all owned.  The
    theorems say what each operation of vmm.c does to every mapping. *)

From S2P Require Import Prelude Mem CString FrameAlloc Vmm.

(** ** Bits of an entry *)

Lemma addr_mask_bits i : 0 <= i -> Z.testbit ADDR_MASK i = (12 <=? i) && (i <? 52).
Proof.
  intros Hi. change ADDR_MASK with (Z.shiftl (Z.ones 40) 12).
  destruct (Z.leb_spec 12 i).
  - rewrite Z.shiftl_spec by lia. rewrite Z.testbit_ones_nonneg by lia.
    by case_bools.
  - apply Z.shiftl_spec_low. lia.
Qed.

Lemma frame_bits p i :
  p mod 4096 = 0 -> 0 <= p < 70368744177664 -> 0 <= i ->
  Z.testbit p i = (12 <=? i) && (i <? 52) && Z.testbit p i.
Proof.
  intros Hp Hr Hi. case_bools; try done.
  - assert (E : p / 4096 * 2 ^ 12 = p) by (change (2 ^ 12) with 4096; lia).
    rewrite <- E. apply Z.mul_pow2_bits_low. lia.
  - assert (E : p mod 2 ^ 52 = p) by (change (2 ^ 52) with 4503599627370496; lia).
    rewrite <- E. apply Z.mod_pow2_bits_high. lia.
Qed.

(** Addresses and flags share no bits. *)
Definition flag_bits (f : Z) : Prop := 0 <= f < 18446744073709551616 /\ Z.land f ADDR_MASK = 0.

Lemma pte_addr_lor p f :
  p mod 4096 = 0 -> 0 <= p < 70368744177664 -> flag_bits f -> pte_addr (Z.lor p f) = p.
Proof.
  intros Hp Hr [_ Hf]. unfold pte_addr. rewrite Z.land_lor_distr_l, Hf, Z.lor_0_r.
  apply Z.bits_inj'. intros i Hi. rewrite Z.land_spec, addr_mask_bits by done.
  pose proof (frame_bits p i Hp Hr Hi) as E.
  destruct (12 <=? i), (i <? 52), (Z.testbit p i); done.
Qed.

Lemma land_frame_flag p g :
  p mod 4096 = 0 -> 0 <= p < 70368744177664 -> Z.land g ADDR_MASK = 0 -> Z.land p g = 0.
Proof.
  intros Hp Hr Hg. apply Z.bits_inj'. intros i Hi.
  rewrite Z.land_spec, Z.bits_0. pose proof (frame_bits p i Hp Hr Hi) as E.
  assert (Hgi : Z.testbit (Z.land g ADDR_MASK) i = false) by (rewrite Hg; apply Z.bits_0).
  rewrite Z.land_spec, addr_mask_bits in Hgi by done.
  destruct (12 <=? i), (i <? 52), (Z.testbit p i), (Z.testbit g i); done.
Qed.

Lemma has_lor p f g :
  p mod 4096 = 0 -> 0 <= p < 70368744177664 -> Z.land g ADDR_MASK = 0 ->
  has g (Z.lor p f) = has g f.
Proof.
  intros Hp Hr Hg. unfold has. by rewrite Z.land_lor_distr_l, land_frame_flag, Z.lor_0_l by done.
Qed.

Lemma lor_range a b :
  0 <= a < 18446744073709551616 -> 0 <= b < 18446744073709551616 ->
  0 <= Z.lor a b < 18446744073709551616.
Proof.
  intros Ha Hb. split; [apply Z.lor_nonneg; lia|].
  destruct (Z.eqb_spec (Z.lor a b) 0) as [->|Hz]; [lia|].
  assert (Hp : 0 < Z.lor a b) by (pose proof (proj2 (Z.lor_nonneg a b)); lia).
  change 18446744073709551616 with (2 ^ 64). apply Z.log2_lt_pow2; [done|].
  rewrite Z.log2_lor by lia.
  destruct (Z.eqb_spec a 0) as [->|], (Z.eqb_spec b 0) as [->|]; simpl Z.log2 in *;
    try (apply Z.max_lub_lt); try lia; apply Z.log2_lt_pow2;
    change (2 ^ 64) with 18446744073709551616; lia.
Qed.

Lemma pte_addr_aligned e : pte_addr e mod 4096 = 0.
Proof.
  unfold pte_addr. change 4096 with (2 ^ 12). rewrite <- Z.land_ones by lia.
  rewrite <- Z.land_assoc. change (Z.land ADDR_MASK (Z.ones 12)) with 0. apply Z.land_0_r.
Qed.

(** ** Indices *)

Lemma land_511 x : Z.land x 511 = x mod 512.
Proof. change 511 with (Z.ones 9). by rewrite Z.land_ones. Qed.

Definition user_va (va : Z) : Prop := 0 <= va < 140737488355328.

Lemma pml4_index_eq va : pml4_index va = va / 549755813888 mod 512.
Proof. unfold pml4_index. by rewrite land_511, Z.shiftr_div_pow2. Qed.
Lemma pdpt_index_eq va : pdpt_index va = va / 1073741824 mod 512.
Proof. unfold pdpt_index. by rewrite land_511, Z.shiftr_div_pow2. Qed.
Lemma pd_index_eq va : pd_index va = va / 2097152 mod 512.
Proof. unfold pd_index. by rewrite land_511, Z.shiftr_div_pow2. Qed.
Lemma pt_index_eq va : pt_index va = va / 4096 mod 512.
Proof. unfold pt_index. by rewrite land_511, Z.shiftr_div_pow2. Qed.

Lemma user_indices va :
  user_va va ->
  0 <= pml4_index va < 256 /\ 0 <= pdpt_index va < 512 /\
  0 <= pd_index va < 512 /\ 0 <= pt_index va < 512.
Proof.
  unfold user_va. rewrite pml4_index_eq, pdpt_index_eq, pd_index_eq, pt_index_eq. lia.
Qed.

(** The indices determine the page. *)
Lemma indices_inj va va' :
  user_va va -> user_va va' ->
  pml4_index va = pml4_index va' -> pdpt_index va = pdpt_index va' ->
  pd_index va = pd_index va' -> pt_index va = pt_index va' ->
  va / 4096 = va' / 4096.
Proof.
  unfold user_va. rewrite !pml4_index_eq, !pdpt_index_eq, !pd_index_eq, !pt_index_eq. lia.
Qed.

(** ** Address spaces *)

(** The direct map as the boot protocol provides it: page aligned, in the
    higher half, with room for every physical address in use. *)
Definition hhdm_ok (hh : Z) : Prop :=
  0 <= hh /\ hh mod 4096 = 0 /\ hh + 70368744177664 <= 18446744073709551616.

(** A page-table page of the user half, named by the indices that lead to it;
    the root is the empty path. *)
Abbreviation tables := (gmap (list Z) Z).

(** The paths a walk of user addresses reaches. *)
Definition proper (p : list Z) : Prop :=
  match p with
  | [] => True
  | [a] => 0 <= a < 256
  | [a; b] => 0 <= a < 256 /\ 0 <= b < 512
  | [a; b; c] => 0 <= a < 256 /\ 0 <= b < 512 /\ 0 <= c < 512
  | _ => False
  end.

Definition idx (p : list Z) (i : Z) : Prop :=
  0 <= i < match p with [] => 256 | _ => 512 end.

Lemma proper_child p i : proper p -> (length p < 3)%nat -> idx p i -> proper (p ++ [i]).
Proof. unfold idx. destruct p as [|a [|b [|c [|]]]]; cbn; intros; split_and?; try done; lia. Qed.

Section aspace.
Context {S : Type} `{FA : FrameAlloc S} (hh : Z) (Hhh : hhdm_ok hh).
Implicit Types (s : vm S) (tabs : tables) (p : list Z) (t u i : Z).

(** Entry [i] of the table at physical address [t]. *)
Definition entry s t i : Z := load64 (vm_mem s) (t + hh + 8 * i).

(** The present leaf entry the hardware finds for [va], if any. *)
Definition mapping s (root va : Z) : option Z :=
  let m := vm_mem s in
  let e4 := load64 m (root + 8 * pml4_index va) in
  if negb (present e4) then None else
  let e3 := load64 m (p2v hh (pte_addr e4) + 8 * pdpt_index va) in
  if negb (present e3) then None else
  let e2 := load64 m (p2v hh (pte_addr e3) + 8 * pd_index va) in
  if negb (present e2) then None else
  let e1 := load64 m (p2v hh (pte_addr e2) + 8 * pt_index va) in
  if present e1 then Some e1 else None.

Record as_wf s (root : Z) tabs : Prop := {
  as_pa : fa_wf (vm_pa s);
  as_root : exists r, tabs !! [] = Some r /\ root = r + hh;
  as_frame : forall p t, tabs !! p = Some t -> valid_frame t /\ frames (vm_pa s) t = Some 1;
  as_inj : forall p q t, tabs !! p = Some t -> tabs !! q = Some t -> p = q;
  as_prefix : forall p i t, tabs !! (p ++ [i]) = Some t -> exists t', tabs !! p = Some t';
  as_entry : forall p t i, tabs !! p = Some t -> (length p < 3)%nat -> idx p i ->
    tabs !! (p ++ [i]) =
    if present (entry s t i) then Some (pte_addr (entry s t i)) else None;
  as_proper : forall p t, tabs !! p = Some t -> proper p;
}.

(** How building tables changes an address space: tables are only added, on
    pages that were free; existing leaf entries stay; new leaf tables are
    empty; the kernel half of the root stays; memory outside the tables stays. *)
Record extends s tabs s' tabs' : Prop := {
  ex_sub : forall p t, tabs !! p = Some t -> tabs' !! p = Some t;
  ex_new : forall p t, tabs' !! p = Some t -> tabs !! p = None ->
    frames (vm_pa s) t = None /\
    (length p = 3%nat -> forall i, 0 <= i < 512 -> entry s' t i = 0);
  ex_leaf : forall p t i, length p = 3%nat -> tabs !! p = Some t -> 0 <= i < 512 ->
    entry s' t i = entry s t i;
  ex_khalf : forall t i, tabs !! [] = Some t -> 256 <= i < 512 -> entry s' t i = entry s t i;
  ex_used : forall q n, frames (vm_pa s) q = Some n -> frames (vm_pa s') q = Some n;
  ex_mem : forall a,
    (forall p t, tabs' !! p = Some t -> ~ (t + hh <= a < t + hh + 4096)) ->
    load8 (vm_mem s') a = load8 (vm_mem s) a;
  ex_kernel : kernel_pml4 s' = kernel_pml4 s;
  ex_free : forall q, frames (vm_pa s) q = None -> (forall p, tabs' !! p <> Some q) -> frames (vm_pa s') q = None;
}.

Lemma extends_refl s tabs : extends s tabs s tabs.
Proof. split; try done. intros p t H1 H2. congruence. Qed.

Lemma extends_trans s1 T1 s2 T2 s3 T3 :
  extends s1 T1 s2 T2 -> extends s2 T2 s3 T3 -> extends s1 T1 s3 T3.
Proof.
  intros [A1 A2 A3 A4 A5 A6 A7 A8] [B1 B2 B3 B4 B5 B6 B7 B8]. split.
  - auto.
  - intros p t Hp Hn. destruct (T2 !! p) as [u|] eqn:E.
    + pose proof (B1 _ _ E) as E'. rewrite Hp in E'. injection E' as <-.
      destruct (A2 p t E Hn) as [Hf Hz]. split; [done|]. intros Hl i Hi.
      rewrite (B3 p t i Hl E Hi). by apply Hz.
    + destruct (B2 p t Hp E) as [Hf Hz]. split; [|done].
      destruct (frames (vm_pa s1) t) eqn:Ef; [|done].
      apply A5 in Ef. congruence.
  - intros p t i Hl Hp Hi. rewrite (B3 p t i), (A3 p t i) by auto. done.
  - intros t i Ht Hi. rewrite (B4 t i), (A4 t i) by auto. done.
  - auto.
  - intros a Ha. rewrite B6 by done. apply A6. eauto.
  - congruence.
  - intros q Hq Hno. apply B8; [|done]. apply A8; [done|]. intros p Hp. by apply (Hno p), B1.
Qed.

Lemma p2v_eq t : 0 <= t < 70368744177664 -> p2v hh t = t + hh.
Proof. intros. destruct Hhh as (? & ? & ?). unfold p2v. apply u64_small. lia. Qed.

Lemma valid_frame_p2v t : valid_frame t -> p2v hh t = t + hh.
Proof. intros [? ?]. apply p2v_eq. lia. Qed.

Lemma wp_pa {A} (c : M S A) (Q : A -> vm S -> Prop) s :
  wp c (fun a x => Q a (mkVm (vm_mem s) x (kernel_pml4 s))) (vm_pa s) -> wp (pa c) Q s.
Proof. unfold wp, pa. by destruct (c (vm_pa s)) as [[? ?]|]. Qed.

(** The tree view of a translation. *)
Lemma mapping_tabs s root tabs va :
  as_wf s root tabs -> user_va va ->
  mapping s root va =
  match tabs !! [pml4_index va; pdpt_index va; pd_index va] with
  | Some t => let e := entry s t (pt_index va) in if present e then Some e else None
  | None => None
  end.
Proof.
  intros [_ (r & Hr & ->) Hfr _ Hpre Hent] Hva.
  destruct (user_indices va Hva) as (H4 & H3 & H2 & H1).
  pose proof (Hent [] r (pml4_index va) Hr ltac:(simpl; lia) H4) as E4. simpl in E4.
  pose proof (Hpre [pml4_index va] (pdpt_index va)) as P3. simpl in P3.
  pose proof (Hpre [pml4_index va; pdpt_index va] (pd_index va)) as P2. simpl in P2.
  unfold mapping. fold (entry s r (pml4_index va)).
  destruct (present (entry s r (pml4_index va))) eqn:B4; simpl.
  2:{ destruct (tabs !! [_; _; _]) eqn:E; [|done].
      destruct (P2 _ eq_refl) as [? E']. destruct (P3 _ E') as [? E'']. congruence. }
  destruct (Hfr _ _ E4) as [V4 _]. rewrite (valid_frame_p2v _ V4).
  fold (entry s (pte_addr (entry s r (pml4_index va))) (pdpt_index va)).
  pose proof (Hent _ _ (pdpt_index va) E4 ltac:(simpl; lia) H3) as E3. simpl in E3.
  destruct (present (entry s (pte_addr (entry s r (pml4_index va))) (pdpt_index va))) eqn:B3; simpl.
  2:{ destruct (tabs !! [_; _; _]) eqn:E; [|done]. destruct (P2 _ eq_refl) as [? E']. congruence. }
  destruct (Hfr _ _ E3) as [V3 _]. rewrite (valid_frame_p2v _ V3).
  match goal with |- context [load64 (vm_mem s) (?t + hh + 8 * pd_index va)] =>
    fold (entry s t (pd_index va)); pose proof (Hent _ t (pd_index va) E3 ltac:(simpl; lia) H2) as E2
  end. simpl in E2.
  destruct (present (entry s _ (pd_index va))) eqn:B2; simpl.
  2:{ by rewrite E2. }
  rewrite E2. destruct (Hfr _ _ E2) as [V2 _]. by rewrite (valid_frame_p2v _ V2).
Qed.
(** *** Reading entries over writes *)

Lemma page_apart t u : valid_frame t -> valid_frame u -> t <> u -> t + 4096 <= u \/ u + 4096 <= t.
Proof. unfold valid_frame, PAGE_SIZE. lia. Qed.

Lemma load64_pt_store m t i e u j :
  valid_frame t -> valid_frame u -> 0 <= i < 512 -> 0 <= j < 512 ->
  0 <= e < 18446744073709551616 ->
  load64 (store64 m (t + hh + 8 * i) e) (u + hh + 8 * j) =
  if (u =? t) && (j =? i) then e else load64 m (u + hh + 8 * j).
Proof.
  intros Ht Hu Hi Hj He. destruct (Z.eqb_spec u t) as [->|Hne]; cbn [andb].
  - destruct (Z.eqb_spec j i) as [->|]; [by apply load64_store64_eq|].
    apply load64_store64_ne. lia.
  - pose proof (page_apart u t Hu Ht Hne). apply load64_store64_ne. lia.
Qed.

Lemma load64_page_clear m t u j :
  valid_frame t -> valid_frame u -> 0 <= j < 512 ->
  load64 (memset m (t + hh) 0 PAGE_SIZE) (u + hh + 8 * j) =
  if u =? t then 0 else load64 m (u + hh + 8 * j).
Proof.
  intros Ht Hu Hj. unfold load64, PAGE_SIZE. destruct (Z.eqb_spec u t) as [->|Hne].
  - apply load_le_memset_in; lia.
  - pose proof (page_apart u t Hu Ht Hne). apply load_le_memset_out; lia.
Qed.

Lemma load8_pt_store m t i e a :
  0 <= i < 512 -> ~ (t + hh <= a < t + hh + 4096) ->
  load8 (store64 m (t + hh + 8 * i) e) a = load8 m a.
Proof. intros. apply load8_store64_ne. lia. Qed.

Lemma load8_page_clear m t a :
  ~ (t + hh <= a < t + hh + 4096) -> load8 (memset m (t + hh) 0 PAGE_SIZE) a = load8 m a.
Proof. intros. rewrite memset_spec by done. unfold PAGE_SIZE. case_bools; done. Qed.

(** A state that agrees on the tables keeps the invariant. *)
Lemma as_wf_agree s s' root tabs :
  as_wf s root tabs -> fa_wf (vm_pa s') ->
  (forall p t, tabs !! p = Some t -> frames (vm_pa s') t = Some 1) ->
  (forall p t i, tabs !! p = Some t -> (length p < 3)%nat -> idx p i -> entry s' t i = entry s t i) ->
  as_wf s' root tabs.
Proof.
  intros [Hpa Hroot Hfr Hinj Hpre Hent] Hpa' Hfr' Hent'. split; try done.
  - intros p t Hp. split; [by apply (Hfr p t)|eauto].
  - intros p t i Hp Hl Hi. rewrite (Hent' p t i) by done. by apply Hent.
Qed.

Lemma idx_512 p i : idx p i -> 0 <= i < 512.
Proof. unfold idx. destruct p; lia. Qed.

(** The entry [get_next_level] installs. *)
Lemma table_entry t :
  valid_frame t ->
  let e := Z.lor (Z.lor (Z.lor t PTE_PRESENT) PTE_WRITABLE) PTE_USER in
  0 <= e < 18446744073709551616 /\ present e = true /\ pte_addr e = t.
Proof.
  intros [Ha Hr] e. unfold e. rewrite <- !Z.lor_assoc.
  change (Z.lor PTE_PRESENT (Z.lor PTE_WRITABLE PTE_USER)) with 7.
  split; [apply lor_range; lia|]. split; [rewrite has_lor by (done || lia); done|].
  apply pte_addr_lor; [done|lia|done].
Qed.

Lemma app_single_ne p (q : list Z) i j : p <> q -> p ++ [i] <> q ++ [j].
Proof. intros Hne [? _]%app_inj_2; done. Qed.

Lemma child_ne p i : p <> p ++ [i].
Proof. intros E%(f_equal length). rewrite length_app in E. simpl in E. lia. Qed.

(** *** Building tables *)

(** What installing the fresh page [t'] as child [i] of table [t] does. *)
Definition add_table s x t i t' : vm S :=
  mkVm (store64 (memset (vm_mem s) (t' + hh) 0 PAGE_SIZE) (t + hh + 8 * i)
         (Z.lor (Z.lor (Z.lor t' PTE_PRESENT) PTE_WRITABLE) PTE_USER)) x (kernel_pml4 s).

Lemma entry_add_table s x t i t' u j :
  valid_frame t -> valid_frame t' -> valid_frame u -> t <> t' -> 0 <= i < 512 -> 0 <= j < 512 ->
  entry (add_table s x t i t') u j =
  if (u =? t) && (j =? i) then Z.lor (Z.lor (Z.lor t' PTE_PRESENT) PTE_WRITABLE) PTE_USER
  else if u =? t' then 0 else entry s u j.
Proof.
  intros Ht Ht' Hu Hne Hi Hj. unfold entry, add_table; simpl vm_mem.
  destruct (table_entry t' Ht') as [He _].
  rewrite load64_pt_store, load64_page_clear by done. done.
Qed.

Section add_table.
Context (s : vm S) (root : Z) (tabs : tables) (p : list Z) (t i t' : Z) (x : S).
Hypothesis Hwf : as_wf s root tabs.
Hypothesis Hp : tabs !! p = Some t.
Hypothesis Hlen : (length p < 3)%nat.
Hypothesis Hi : idx p i.
Hypothesis Hnone : tabs !! (p ++ [i]) = None.
Hypothesis Hx : fa_wf x.
Hypothesis Hvalid : valid_frame t'.
Hypothesis Hfree : frames (vm_pa s) t' = None.
Hypothesis Hused : frames x t' = Some 1.
Hypothesis Hother : forall q, q <> t' -> frames x q = frames (vm_pa s) q.

Lemma fresh_ne q u : tabs !! q = Some u -> u <> t'.
Proof. intros Hq ->. destruct (as_frame _ _ _ Hwf q t' Hq). congruence. Qed.

Lemma add_table_entry q u j :
  tabs !! q = Some u -> 0 <= j < 512 -> (q <> p \/ j <> i) ->
  entry (add_table s x t i t') u j = entry s u j.
Proof.
  intros Hq Hj Hne. pose proof (idx_512 _ _ Hi).
  rewrite entry_add_table; try done; try apply (as_frame _ _ _ Hwf _ _ Hq);
    try apply (as_frame _ _ _ Hwf _ _ Hp); [|by apply (fresh_ne p)].
  pose proof (fresh_ne q u Hq). destruct (Z.eqb_spec u t') as [->|]; [done|].
  destruct (Z.eqb_spec u t) as [->|]; [|done]. destruct (Z.eqb_spec j i) as [->|]; [|done].
  destruct Hne as [Hne|]; [|done]. destruct Hne. by apply (as_inj _ _ _ Hwf q p t).
Qed.

Lemma add_table_wf : as_wf (add_table s x t i t') root (<[p ++ [i] := t']> tabs).
Proof.
  pose proof (idx_512 _ _ Hi) as Hi'. pose proof Hwf as [_ (r & Hr & Eroot) Hfr Hinj Hpre Hent].
  assert (Hnil : p ++ [i] <> []) by (by destruct p).
  pose proof (fresh_ne p t Hp) as Htt.
  split.
  - done.
  - exists r. by rewrite lookup_insert_ne.
  - intros q u. rewrite lookup_insert_Some. intros [[_ <-]|[_ Hq]]; [done|].
    destruct (Hfr q u Hq). split; [done|]. simpl. rewrite Hother by eauto using fresh_ne. done.
  - intros q1 q2 u. rewrite !lookup_insert_Some.
    intros [[<- <-]|[_ H1]] [[<- E]|[_ H2]]; try done; [| |by eapply Hinj].
    + by destruct (fresh_ne _ _ H2).
    + by destruct (fresh_ne _ _ H1).
  - intros q j u. rewrite lookup_insert_Some. intros [[E _]|[_ Hq]].
    + apply app_inj_2 in E as [<- _]; [|done]. exists t.
      rewrite lookup_insert_ne; [done|]. intros E. by destruct (child_ne p i).
    + destruct (Hpre _ _ _ Hq) as [u' Hu']. destruct (decide (p ++ [i] = q)) as [<-|].
      * exists t'. by rewrite lookup_insert_eq.
      * exists u'. by rewrite lookup_insert_ne.
  - intros q u j. rewrite lookup_insert_Some. intros [[<- <-]|[Hne Hq]] Hl Hj.
    + rewrite entry_add_table by (try done; eauto using idx_512; by apply (Hfr p)).
      destruct (Z.eqb_spec t' t) as [->|]; [done|]. rewrite Z.eqb_refl. cbn [andb].
      change (present 0) with false. cbv iota.
      rewrite lookup_insert_ne by apply child_ne.
      destruct (tabs !! ((p ++ [i]) ++ [j])) eqn:E; [|done]. destruct (Hpre _ _ _ E). congruence.
    + destruct (decide (q = p /\ j = i)) as [[-> ->]|Hd].
      * rewrite lookup_insert_eq. rewrite Hp in Hq. injection Hq as <-.
        rewrite entry_add_table by (try done; by apply (Hfr p)). rewrite !Z.eqb_refl. cbn [andb].
        by destruct (table_entry t' Hvalid) as (_ & -> & ->).
      * assert (q <> p \/ j <> i) by (destruct (decide (q = p)); [right; by intros ->; apply Hd|by left]).
        rewrite (add_table_entry q) by eauto using idx_512.
        rewrite lookup_insert_ne; [by apply Hent|]. intros [<- [= <-]]%app_inj_2; [by apply Hd|done].
  - intros q u. rewrite lookup_insert_Some. intros [[<- _]|[_ Hq]]; [|by apply (as_proper _ _ _ Hwf q u)].
    apply proper_child; [by apply (as_proper _ _ _ Hwf p t)|done|done].
Qed.

Lemma add_table_extends : extends s tabs (add_table s x t i t') (<[p ++ [i] := t']> tabs).
Proof.
  pose proof (idx_512 _ _ Hi) as Hi'. pose proof (fresh_ne p t Hp) as Htt.
  pose proof Hwf as [_ (r & Hr & Eroot) Hfr Hinj Hpre Hent].
  split.
  - intros q u Hq. rewrite lookup_insert_ne; [done|]. intros <-. congruence.
  - intros q u. rewrite lookup_insert_Some. intros [[<- <-]|[_ Hq]] Hn; [|congruence].
    split; [done|]. intros _ j Hj.
    rewrite entry_add_table by (try done; by apply (Hfr p)).
    destruct (Z.eqb_spec t' t) as [->|]; [done|]. by rewrite Z.eqb_refl.
  - intros q u j Hl Hq Hj. apply (add_table_entry q); try done. left. intros ->. lia.
  - intros u j Hu Hj. apply (add_table_entry []); [done|lia|].
    destruct (decide (p = [])) as [E|]; [right|by left].
    pose proof Hi as Hi2. rewrite E in Hi2. unfold idx in Hi2. lia.
  - intros q n Hq. simpl. rewrite Hother; [done|]. intros ->. congruence.
  - intros a Ha. simpl. rewrite load8_pt_store, load8_page_clear; try done.
    + apply (Ha (p ++ [i])). by rewrite lookup_insert_eq.
    + apply (Ha p). rewrite lookup_insert_ne; [done|]. intros E. by destruct (child_ne p i).
  - done.
  - intros q Hq Hno. simpl. rewrite Hother; [done|]. intros ->. apply (Hno (p ++ [i])), lookup_insert_eq.
Qed.
End add_table.

Lemma wp_get_next_level s root tabs p t i :
  as_wf s root tabs -> tabs !! p = Some t -> (length p < 3)%nat -> idx p i ->
  wp (get_next_level hh (t + hh) i) (fun r s' => exists tabs',
    as_wf s' root tabs' /\ extends s tabs s' tabs' /\
    ((r = 0 /\ forall q, frames (vm_pa s') q <> None) \/
     exists t', tabs' !! (p ++ [i]) = Some t' /\ valid_frame t' /\ r = t' + hh)) s.
Proof.
  intros Hwf Hp Hl Hi. pose proof (as_entry _ _ _ Hwf p t i Hp Hl Hi) as Hent.
  unfold get_next_level, pt_load. wp_steps. fold (entry s t i).
  destruct (present (entry s t i)) eqn:E.
  - wp_steps. destruct (as_frame _ _ _ Hwf _ _ Hent) as [Hv _].
    exists tabs. split_and!; [done|apply extends_refl|]. right. eauto using valid_frame_p2v.
  - wp_steps. apply wp_pa. eapply wp_mono; [apply fa_alloc_spec, (as_pa _ _ _ Hwf)|].
    intros r x [Hx [(-> & Hfull & Hsame)|(Hv & Hf & Hf' & Hother)]]; cbv beta.
    + simpl. wp_steps. exists tabs. split_and!; [| |left; split; [done|]].
      * apply (as_wf_agree s); simpl; try done. intros q u Hq. rewrite Hsame.
        by apply (as_frame _ _ _ Hwf q u).
      * split; try done; simpl; [intros; congruence| |]; intros; by rewrite Hsame.
      * intros q. simpl. rewrite Hsame. apply Hfull.
    + destruct (Z.eqb_spec r 0) as [->|]; [destruct Hv; lia|].
      unfold mem_memset, pt_store. wp_steps. rewrite valid_frame_p2v by done.
      exists (<[p ++ [i] := r]> tabs). split_and!.
      * by apply (add_table_wf s root tabs p t i r x).
      * by apply (add_table_extends s root tabs p t i r x).
      * right. exists r. by rewrite lookup_insert_eq.
Qed.

(** *** The operations *)

Lemma mapping_extends s s' root tabs tabs' va :
  as_wf s root tabs -> as_wf s' root tabs' -> extends s tabs s' tabs' -> user_va va ->
  mapping s' root va = mapping s root va.
Proof.
  intros Hwf Hwf' Hex Hva. rewrite (mapping_tabs s root tabs), (mapping_tabs s' root tabs') by done.
  destruct (user_indices va Hva) as (_ & _ & _ & H1).
  destruct (tabs !! [_; _; _]) as [t|] eqn:E.
  - rewrite (ex_sub _ _ _ _ Hex _ _ E).
    by rewrite (ex_leaf _ _ _ _ Hex [pml4_index va; pdpt_index va; pd_index va] t).
  - destruct (tabs' !! [_; _; _]) as [t|] eqn:E'; [|done].
    destruct (ex_new _ _ _ _ Hex _ _ E' E) as [_ Hz]. by rewrite Hz.
Qed.

(** Writing a leaf entry: one translation changes. *)
Lemma leaf_store_wf s root tabs p t i e :
  as_wf s root tabs -> tabs !! p = Some t -> length p = 3%nat -> 0 <= i < 512 ->
  0 <= e < 18446744073709551616 ->
  as_wf (set_mem (store64 (vm_mem s) (t + hh + 8 * i) e) s) root tabs.
Proof.
  intros Hwf Hp Hl Hi He. apply (as_wf_agree s); try done.
  - apply (as_pa _ _ _ Hwf).
  - intros q u Hq. by apply (as_frame _ _ _ Hwf q u).
  - intros q u j Hq Hlq Hj. unfold entry. simpl vm_mem.
    destruct (as_frame _ _ _ Hwf _ _ Hq) as [Hu _]. destruct (as_frame _ _ _ Hwf _ _ Hp) as [Ht _].
    rewrite load64_pt_store by eauto using idx_512.
    destruct (Z.eqb_spec u t) as [->|]; [|done].
    pose proof (as_inj _ _ _ Hwf _ _ _ Hq Hp). subst q. lia.
Qed.

Lemma leaf_store_mapping s root tabs va t e va' :
  as_wf s root tabs -> user_va va -> user_va va' ->
  tabs !! [pml4_index va; pdpt_index va; pd_index va] = Some t ->
  0 <= e < 18446744073709551616 ->
  mapping (set_mem (store64 (vm_mem s) (t + hh + 8 * pt_index va) e) s) root va' =
  if va' / 4096 =? va / 4096 then (if present e then Some e else None) else mapping s root va'.
Proof.
  intros Hwf Hva Hva' Hp He.
  destruct (user_indices va Hva) as (_ & _ & _ & H1).
  destruct (user_indices va' Hva') as (_ & _ & _ & H1').
  rewrite (mapping_tabs _ root tabs) by (try done; by eapply leaf_store_wf).
  rewrite (mapping_tabs s root tabs va') by done.
  destruct (as_frame _ _ _ Hwf _ _ Hp) as [Ht _].
  destruct (Z.eqb_spec (va' / 4096) (va / 4096)) as [E|Hne].
  - assert (Eidx : pml4_index va' = pml4_index va /\ pdpt_index va' = pdpt_index va /\
      pd_index va' = pd_index va /\ pt_index va' = pt_index va).
    { rewrite !pml4_index_eq, !pdpt_index_eq, !pd_index_eq, !pt_index_eq. unfold user_va in *. lia. }
    destruct Eidx as (-> & -> & -> & ->). rewrite Hp. cbv zeta. unfold entry. simpl vm_mem.
    rewrite load64_pt_store by done. by rewrite !Z.eqb_refl.
  - destruct (tabs !! [pml4_index va'; _; _]) as [u|] eqn:E; [|done]. cbv zeta.
    destruct (as_frame _ _ _ Hwf _ _ E) as [Hu _]. unfold entry. simpl vm_mem.
    rewrite load64_pt_store by done.
    destruct (Z.eqb_spec u t) as [->|]; [|done].
    destruct (Z.eqb_spec (pt_index va') (pt_index va)) as [E1|]; [|done].
    pose proof (as_inj _ _ _ Hwf _ _ _ Hp E) as [= E4 E3 E2].
    destruct Hne. apply indices_inj; congruence.
Qed.

(** What mapping a page may change besides its translation: nothing outside
    the page tables, no page already in use, no kernel entry. *)
Record map_frame s root tabs s' tabs' : Prop := {
  mf_sub : forall p t, tabs !! p = Some t -> tabs' !! p = Some t;
  mf_tabs : forall p t, tabs' !! p = Some t -> tabs !! p = Some t \/ frames (vm_pa s) t = None;
  mf_used : forall q n, frames (vm_pa s) q = Some n -> frames (vm_pa s') q = Some n;
  mf_mem : forall a,
    (forall p t, tabs' !! p = Some t -> ~ (t + hh <= a < t + hh + 4096)) ->
    load8 (vm_mem s') a = load8 (vm_mem s) a;
  mf_kernel : kernel_pml4 s' = kernel_pml4 s /\
    forall i, 256 <= i < 512 -> load64 (vm_mem s') (root + 8 * i) = load64 (vm_mem s) (root + 8 * i);
  mf_free : forall q, frames (vm_pa s) q = None -> (forall p, tabs' !! p <> Some q) -> frames (vm_pa s') q = None;
}.

Lemma extends_map_frame s root tabs s' tabs' :
  as_wf s root tabs -> extends s tabs s' tabs' -> map_frame s root tabs s' tabs'.
Proof.
  intros Hwf [Hs Hnew _ Hk Hu Hm Hkp Hfree]. destruct (as_root _ _ _ Hwf) as (r & Hr & ->).
  split; [done| |done|done| |done].
  { intros p t Hp. destruct (tabs !! p) as [t0|] eqn:E; [left|right; by eapply Hnew].
    apply Hs in E. congruence. } split; [done|]. intros i Hi. by apply (Hk r i).
Qed.

Lemma map_frame_leaf s root tabs s' tabs' p t i e :
  as_wf s root tabs -> as_wf s' root tabs' -> extends s tabs s' tabs' ->
  tabs' !! p = Some t -> length p = 3%nat -> 0 <= i < 512 -> 0 <= e < 18446744073709551616 ->
  map_frame s root tabs (set_mem (store64 (vm_mem s') (t + hh + 8 * i) e) s') tabs'.
Proof.
  intros Hwf Hwf' Hex Hp Hl Hi He. destruct (extends_map_frame _ _ _ _ _ Hwf Hex) as [Hsub Hs Hu Hm [Hk Hkh] Hfree].
  destruct (as_root _ _ _ Hwf') as (r & Hr & ->). split; [done|done|done| |split; [done|]|done].
  - intros a Ha. simpl. rewrite load8_pt_store by eauto. by apply Hm.
  - intros j Hj. rewrite <- Hkh by done. simpl.
    destruct (as_frame _ _ _ Hwf' _ _ Hr) as [Hvr _]. destruct (as_frame _ _ _ Hwf' _ _ Hp) as [Hvt _].
    rewrite load64_pt_store by (done || lia).
    destruct (Z.eqb_spec r t) as [->|]; [|done].
    pose proof (as_inj _ _ _ Hwf' _ _ _ Hr Hp). by subst p.
Qed.

(** The three table steps [vmm_map_page] makes before it writes the leaf. *)
Lemma wp_map_walk s root tabs va (k : Z -> M (vm S) unit) (Q : unit -> vm S -> Prop) :
  as_wf s root tabs -> user_va va ->
  (forall s' tabs', as_wf s' root tabs' -> extends s tabs s' tabs' ->
    (forall q, frames (vm_pa s') q <> None) -> Q tt s') ->
  (forall s' tabs' t, as_wf s' root tabs' -> extends s tabs s' tabs' ->
    tabs' !! [pml4_index va; pdpt_index va; pd_index va] = Some t -> wp (k (t + hh)) Q s') ->
  wp (pdpt <- get_next_level hh root (pml4_index va) ;;
      if pdpt =? 0 then ret tt else
      pd <- get_next_level hh pdpt (pdpt_index va) ;;
      if pd =? 0 then ret tt else
      pt <- get_next_level hh pd (pd_index va) ;;
      if pt =? 0 then ret tt else k pt) Q s.
Proof.
  intros Hwf Hva Hfail Hk. destruct (user_indices va Hva) as (H4 & H3 & H2 & _).
  destruct Hhh as (Hh0 & _ & _). destruct (as_root _ _ _ Hwf) as (r & Hr & ->).
  wp_step. eapply wp_mono; [by apply (wp_get_next_level s (r + hh) tabs [] r); [done|done|simpl; lia|]|].
  intros x1 s1 (tabs1 & Hwf1 & Hex1 & [[-> Hfull]|(t1 & Ht1 & [_ Hv1] & ->)]); [by eapply Hfail|].
  destruct (Z.eqb_spec (t1 + hh) 0); [lia|]. wp_step.
  eapply wp_mono; [by apply (wp_get_next_level s1 (r + hh) tabs1 [pml4_index va] t1); [done|done|simpl; lia|]|].
  intros x2 s2 (tabs2 & Hwf2 & Hex2 & [[-> Hfull]|(t2 & Ht2 & [_ Hv2] & ->)]);
    [by eapply Hfail; [|eapply extends_trans|]|].
  destruct (Z.eqb_spec (t2 + hh) 0); [lia|]. wp_step. simpl in Ht2.
  eapply wp_mono;
    [by apply (wp_get_next_level s2 (r + hh) tabs2 [pml4_index va; pdpt_index va] t2); [done|done|simpl; lia|]|].
  intros x3 s3 (tabs3 & Hwf3 & Hex3 & [[-> Hfull]|(t3 & Ht3 & [_ Hv3] & ->)]);
    [by eapply Hfail; [|eapply extends_trans; [eapply extends_trans|]|]|].
  destruct (Z.eqb_spec (t3 + hh) 0); [lia|].
  by eapply Hk; [|eapply extends_trans; [eapply extends_trans|]|].
Qed.

Lemma wp_vmm_map_page s root tabs va phys flags :
  as_wf s root tabs -> user_va va ->
  phys mod 4096 = 0 -> 0 <= phys < 70368744177664 -> flag_bits flags -> present flags = true ->
  wp (vmm_map_page hh root va phys flags) (fun _ s' => exists tabs',
    as_wf s' root tabs' /\ map_frame s root tabs s' tabs' /\
    (forall va', user_va va' -> va' / 4096 <> va / 4096 -> mapping s' root va' = mapping s root va') /\
    (mapping s' root va = Some (Z.lor phys flags) \/
     (mapping s' root va = mapping s root va /\ forall q, frames (vm_pa s') q <> None))) s.
Proof.
  intros Hwf Hva Hpa Hpr Hfl Hpres. unfold vmm_map_page.
  destruct (user_indices va Hva) as (_ & _ & _ & H1).
  assert (He : 0 <= Z.lor phys flags < 18446744073709551616) by (destruct Hfl; apply lor_range; lia).
  apply (wp_map_walk s root tabs); [done|done| |].
  - intros s' tabs' Hwf' Hex Hfull. exists tabs'.
    split_and!; eauto using mapping_extends, extends_map_frame.
  - intros s' tabs' t Hwf' Hex Ht. unfold pt_store. wp_steps. exists tabs'. split_and!.
    + by eapply leaf_store_wf.
    + by eapply map_frame_leaf.
    + intros va' Hva' Hne. rewrite (leaf_store_mapping s' root tabs') by done.
      destruct (Z.eqb_spec (va' / 4096) (va / 4096)); [done|]. by eapply mapping_extends.
    + left. rewrite (leaf_store_mapping s' root tabs') by done. rewrite Z.eqb_refl.
      by rewrite has_lor, Hpres.
Qed.

(** The read-only walk to a leaf table, as every lookup makes it. *)
Lemma wp_walk {A} s root tabs va (none : M (vm S) A) (k : Z -> M (vm S) A) (Q : A -> vm S -> Prop) :
  as_wf s root tabs -> user_va va ->
  (mapping s root va = None -> wp none Q s) ->
  (forall t, tabs !! [pml4_index va; pdpt_index va; pd_index va] = Some t ->
    valid_frame t -> wp (k (t + hh)) Q s) ->
  wp (e4 <- pt_load root (pml4_index va) ;;
      if negb (present e4) then none else
      e3 <- pt_load (p2v hh (pte_addr e4)) (pdpt_index va) ;;
      if negb (present e3) then none else
      e2 <- pt_load (p2v hh (pte_addr e3)) (pd_index va) ;;
      if negb (present e2) then none else k (p2v hh (pte_addr e2))) Q s.
Proof.
  intros Hwf Hva Hnone Hk. destruct (user_indices va Hva) as (H4 & H3 & H2 & _).
  pose proof Hwf as [_ (r & Hr & ->) Hfr _ _ Hent]. unfold mapping in Hnone. unfold pt_load.
  wp_steps. pose proof (Hent [] r (pml4_index va) Hr ltac:(simpl; lia) H4) as E4.
  unfold entry in E4. simpl in E4.
  destruct (present (load64 (vm_mem s) (r + hh + 8 * pml4_index va))); [|by apply Hnone]. simpl.
  destruct (Hfr _ _ E4) as [V4 _]. rewrite (valid_frame_p2v _ V4) in *. wp_steps.
  pose proof (Hent _ _ (pdpt_index va) E4 ltac:(simpl; lia) H3) as E3. unfold entry in E3. simpl in E3.
  match type of E3 with context [present ?e] => destruct (present e) end; [|by apply Hnone]. simpl.
  destruct (Hfr _ _ E3) as [V3 _]. rewrite (valid_frame_p2v _ V3) in *. wp_steps.
  pose proof (Hent _ _ (pd_index va) E3 ltac:(simpl; lia) H2) as E2. unfold entry in E2. simpl in E2.
  match type of E2 with context [present ?e] => destruct (present e) end; [|by apply Hnone]. simpl.
  destruct (Hfr _ _ E2) as [V2 _]. rewrite (valid_frame_p2v _ V2) in *. by apply Hk.
Qed.

Lemma mapping_leaf s root tabs va t :
  as_wf s root tabs -> user_va va ->
  tabs !! [pml4_index va; pdpt_index va; pd_index va] = Some t ->
  mapping s root va =
    let e := load64 (vm_mem s) (t + hh + 8 * pt_index va) in if present e then Some e else None.
Proof. intros Hwf Hva Ht. rewrite (mapping_tabs s root tabs) by done. by rewrite Ht. Qed.

(** A leaf entry whose page the address space holds a counted reference to. *)
Definition owned s tabs e (n : Z) : Prop :=
  valid_frame (pte_addr e) /\ (forall p, tabs !! p <> Some (pte_addr e)) /\
  frames (vm_pa s) (pte_addr e) = Some n /\ 1 <= n.

Lemma as_wf_pa_change s x root tabs :
  as_wf s root tabs -> fa_wf x ->
  (forall p t, tabs !! p = Some t -> frames x t = frames (vm_pa s) t) ->
  as_wf (mkVm (vm_mem s) x (kernel_pml4 s)) root tabs.
Proof.
  intros Hwf Hx Hsame. apply (as_wf_agree s); try done.
  intros p t Hp. simpl. rewrite (Hsame p t Hp). by apply (as_frame _ _ _ Hwf p t).
Qed.

Lemma mapping_pa s x root va : mapping (mkVm (vm_mem s) x (kernel_pml4 s)) root va = mapping s root va.
Proof. done. Qed.

Lemma wp_vmm_unmap_page s root tabs va :
  as_wf s root tabs -> user_va va ->
  (forall e, mapping s root va = Some e -> has PTE_NOPMM e = false -> exists n, owned s tabs e n) ->
  wp (vmm_unmap_page hh root va) (fun _ s' => as_wf s' root tabs /\
    (forall va', user_va va' ->
      mapping s' root va' = if va' / 4096 =? va / 4096 then None else mapping s root va') /\
    (forall q, frames (vm_pa s') q =
      match mapping s root va with
      | Some e => if negb (has PTE_NOPMM e) && (q =? pte_addr e)
                  then match frames (vm_pa s) q with
                       | Some n => if n =? 1 then None else Some (n - 1)
                       | None => None
                       end
                  else frames (vm_pa s) q
      | None => frames (vm_pa s) q
      end)) s.
Proof.
  intros Hwf Hva Hown. destruct (user_indices va Hva) as (_ & _ & _ & H1).
  assert (Hsame : mapping s root va = None -> as_wf s root tabs /\ (forall va', user_va va' ->
    mapping s root va' = if va' / 4096 =? va / 4096 then None else mapping s root va')).
  { intros Hm. split; [done|]. intros va' Hva'. destruct (Z.eqb_spec (va' / 4096) (va / 4096)) as [E|]; [|done].
    assert (Hidx : pml4_index va' = pml4_index va /\ pdpt_index va' = pdpt_index va /\
      pd_index va' = pd_index va /\ pt_index va' = pt_index va)
      by (rewrite !pml4_index_eq, !pdpt_index_eq, !pd_index_eq, !pt_index_eq; unfold user_va in *; lia).
    rewrite <- Hm. unfold mapping. by destruct Hidx as (-> & -> & -> & ->). }
  unfold vmm_unmap_page. cbv zeta.
  apply (wp_walk s root tabs va (ret tt) (unmap_leaf va)); [done|done| |].
  { intros Hm. wp_steps. rewrite Hm. split; [done|]. split; [by apply Hsame|done]. }
  intros t Ht Hv. pose proof (mapping_leaf s root tabs va t Hwf Hva Ht) as Hm. cbv zeta in Hm.
  unfold unmap_leaf, pt_load, pt_store. wp_steps.
  destruct (present (load64 (vm_mem s) (t + hh + 8 * pt_index va))) eqn:Ep; simpl.
  2:{ wp_steps. rewrite Hm. split; [done|]. split; [by apply Hsame|done]. }
  wp_steps. set (e := load64 (vm_mem s) (t + hh + 8 * pt_index va)) in *.
  set (s1 := set_mem (store64 (vm_mem s) (t + hh + 8 * pt_index va) 0) s).
  assert (Hwf1 : as_wf s1 root tabs) by (by eapply leaf_store_wf).
  assert (Hm1 : forall va', user_va va' ->
    mapping s1 root va' = if va' / 4096 =? va / 4096 then None else mapping s root va').
  { intros va' Hva'. unfold s1. by rewrite (leaf_store_mapping s root tabs va t 0 va'). }
  rewrite Hm. destruct (has PTE_NOPMM e) eqn:En; simpl; [by wp_steps|].
  destruct (Hown e Hm En) as (n & Hve & Hnt & Hf & Hn).
  apply wp_pa. eapply wp_mono; [by apply fa_free_spec; [apply (as_pa _ _ _ Hwf1)| | |]|].
  intros [] x (Hx & Hfx & Hox). split_and!; [| |].
  - apply as_wf_pa_change; [done|done|]. intros p u Hp. apply Hox. intros ->. by apply (Hnt p).
  - intros va' Hva'. rewrite mapping_pa. by apply Hm1.
  - intros q. simpl. destruct (Z.eqb_spec q (pte_addr e)) as [->|]; [|by apply Hox]. by rewrite Hf.
Qed.

(** *** Copy on write *)

Definition cow_flags (e : Z) : Z :=
  Z.lor (Z.land (Z.land e FLAG_MASK) (Z.lnot PTE_COW)) PTE_WRITABLE.

Lemma has_bit k e : 0 <= k -> has (Z.shiftl 1 k) e = Z.testbit e k.
Proof.
  intros Hk. unfold has. rewrite Z.shiftl_1_l. destruct (Z.testbit e k) eqn:E.
  - destruct (Z.eqb_spec (Z.land e (2 ^ k)) 0) as [E0|]; [|done].
    apply (f_equal (fun z => Z.testbit z k)) in E0.
    by rewrite Z.land_spec, E, Z.pow2_bits_true, Z.bits_0 in E0 by done.
  - destruct (Z.eqb_spec (Z.land e (2 ^ k)) 0) as [|E0]; [done|]. destruct E0.
    apply Z.bits_inj'. intros i Hi. rewrite Z.land_spec, Z.bits_0.
    destruct (Z.eqb_spec i k) as [->|]; [by rewrite E|].
    by rewrite Z.pow2_bits_false, andb_false_r by lia.
Qed.

Lemma testbit_above x i : 0 <= x < 18446744073709551616 -> 64 <= i -> Z.testbit x i = false.
Proof.
  intros Hx Hi. apply (proj1 (Z.bounded_iff_bits_nonneg 64 x ltac:(lia) ltac:(lia))); [|done].
  change (2 ^ 64) with 18446744073709551616. lia.
Qed.

Lemma cow_flags_spec e :
  0 <= e < 18446744073709551616 -> present e = true ->
  flag_bits (cow_flags e) /\ present (cow_flags e) = true /\
  has PTE_WRITABLE (cow_flags e) = true /\ has PTE_COW (cow_flags e) = false.
Proof.
  intros He Hp. unfold PTE_PRESENT in Hp. rewrite has_bit in Hp by lia.
  assert (Hbit : forall i, 0 <= i -> Z.testbit (cow_flags e) i =
    (Z.testbit e i && Z.testbit FLAG_MASK i && negb (Z.testbit PTE_COW i)) || Z.testbit PTE_WRITABLE i).
  { intros i Hi. unfold cow_flags. by rewrite Z.lor_spec, !Z.land_spec, Z.lnot_spec. }
  assert (H0 : 0 <= cow_flags e).
  { unfold cow_flags. apply Z.lor_nonneg. split; [|done]. apply Z.land_nonneg. left.
    apply Z.land_nonneg. lia. }
  split; [split|].
  - split; [done|]. change 18446744073709551616 with (2 ^ 64).
    apply Z.bounded_iff_bits_nonneg; [lia|done|]. intros i Hi. rewrite Hbit by lia.
    rewrite (testbit_above e), (testbit_above PTE_WRITABLE) by done. done.
  - apply Z.bits_inj'. intros i Hi. rewrite Z.bits_0, Z.land_spec, Hbit by done.
    assert (Hd : Z.testbit (Z.land FLAG_MASK ADDR_MASK) i = false /\
      Z.testbit (Z.land PTE_WRITABLE ADDR_MASK) i = false) by (split; apply Z.bits_0).
    rewrite !Z.land_spec in Hd. destruct Hd as [Hd1 Hd2].
    destruct (Z.testbit ADDR_MASK i); [|apply andb_false_r].
    rewrite andb_true_r in Hd1, Hd2. by rewrite Hd1, Hd2, andb_false_r.
  - unfold PTE_PRESENT, PTE_WRITABLE, PTE_COW in *. rewrite !has_bit, !Hbit by lia. rewrite Hp.
    split_and!; [done|apply orb_true_r|]. simpl. by rewrite andb_false_r.
Qed.

(** What resolving a copy-on-write fault on the present entry [e] leaves: a
    writable private page with the old contents. *)
Record cow_resolved s root tabs va (e n : Z) s' (fp : Z) : Prop := {
  cr_mapping : mapping s' root va = Some (Z.lor fp (cow_flags e));
  cr_addr : pte_addr (Z.lor fp (cow_flags e)) = fp;
  cr_private : frames (vm_pa s') fp = Some 1;
  cr_bytes : forall k, 0 <= k < 4096 ->
    load8 (vm_mem s') (fp + hh + k) = load8 (vm_mem s) (pte_addr e + hh + k);
  cr_old : n <> 1 -> frames (vm_pa s) fp = None /\ frames (vm_pa s') (pte_addr e) = Some (n - 1);
  cr_inplace : n = 1 -> fp = pte_addr e;
  cr_frames : forall q, q <> fp -> q <> pte_addr e -> frames (vm_pa s') q = frames (vm_pa s) q;
  cr_mem : forall a, ~ (fp + hh <= a < fp + hh + 4096) ->
    (forall p t, tabs !! p = Some t -> ~ (t + hh <= a < t + hh + 4096)) ->
    load8 (vm_mem s') a = load8 (vm_mem s) a;
  cr_valid : valid_frame fp;
}.

#[local] Opaque memcpy memset.
Section cow.
Context (s : vm S) (root : Z) (tabs : tables) (va t : Z).
Hypothesis Hwf : as_wf s root tabs.
Hypothesis Hva : user_va va.
Hypothesis Ht : tabs !! [pml4_index va; pdpt_index va; pd_index va] = Some t.
Let e := load64 (vm_mem s) (t + hh + 8 * pt_index va).
Hypothesis Hpres : present e = true.

Lemma cow_entry fp :
  valid_frame fp -> 0 <= Z.lor fp (cow_flags e) < 18446744073709551616 /\
  present (Z.lor fp (cow_flags e)) = true /\ pte_addr (Z.lor fp (cow_flags e)) = fp.
Proof.
  intros [Ha Hr]. destruct (cow_flags_spec e (load64_range _ _) Hpres) as (Hf & Hp & _).
  split; [|split].
  - destruct Hf. apply lor_range; lia.
  - rewrite has_lor by (done || lia). done.
  - apply pte_addr_lor; [done|lia|done].
Qed.

(** The last reference: the page is made writable in place. *)
Lemma cow_in_place :
  owned s tabs e 1 ->
  let s' := set_mem (store64 (vm_mem s) (t + hh + 8 * pt_index va) (Z.lor (pte_addr e) (cow_flags e))) s in
  as_wf s' root tabs /\
  (forall va', user_va va' -> va' / 4096 <> va / 4096 -> mapping s' root va' = mapping s root va') /\
  cow_resolved s root tabs va e 1 s' (pte_addr e).
Proof.
  intros (Hv & Hnt & Hf & _). destruct (user_indices va Hva) as (_ & _ & _ & H1).
  destruct (cow_entry _ Hv) as (Hr & Hp & Ha).
  destruct (as_frame _ _ _ Hwf _ _ Ht) as [Hvt _].
  split_and!; [by eapply leaf_store_wf| |split; try done].
  - intros va' Hva' Hne. rewrite (leaf_store_mapping s root tabs) by done.
    by destruct (Z.eqb_spec (va' / 4096) (va / 4096)).
  - rewrite (leaf_store_mapping s root tabs) by done. by rewrite Z.eqb_refl, Hp.
  - intros k Hk. simpl. apply load8_pt_store; [done|].
    assert (Hne : pte_addr e <> t) by (intros E; apply (Hnt _ (eq_trans Ht (f_equal Some (eq_sym E))))).
    pose proof (page_apart _ _ Hv Hvt Hne). lia.
  - intros a _ Ha'. simpl. apply load8_pt_store; [done|]. by apply (Ha' _ _ Ht).
Qed.

(** The shared case: a fresh page [fp] receives the contents. *)
Lemma cow_copy n fp x y :
  owned s tabs e n -> n <> 1 -> valid_frame fp -> frames (vm_pa s) fp = None -> frames x fp = Some 1 ->
  (forall q, q <> fp -> frames x q = frames (vm_pa s) q) ->
  fa_wf y -> frames y (pte_addr e) = Some (n - 1) ->
  (forall q, q <> pte_addr e -> frames y q = frames x q) ->
  let s' := mkVm (store64 (memcpy (vm_mem s) (fp + hh) (pte_addr e + hh) PAGE_SIZE)
                   (t + hh + 8 * pt_index va) (Z.lor fp (cow_flags e))) y (kernel_pml4 s) in
  as_wf s' root tabs /\
  (forall va', user_va va' -> va' / 4096 <> va / 4096 -> mapping s' root va' = mapping s root va') /\
  cow_resolved s root tabs va e n s' fp.
Proof.
  intros (Hv & Hnt & Hf & _) Hn Hv' Hfree Hx Hox Hy Hye Hoy. destruct (user_indices va Hva) as (_ & _ & _ & H1).
  destruct (cow_entry _ Hv') as (Hr & Hp & Ha).
  assert (Hpe : fp <> pte_addr e) by congruence.
  assert (Hpt : forall q u, tabs !! q = Some u -> valid_frame u /\ u <> fp /\ u <> pte_addr e).
  { intros q u Hq. destruct (as_frame _ _ _ Hwf _ _ Hq) as [Hu Hfu].
    split_and!; [done|congruence|]. intros ->. by apply (Hnt q). }
  assert (Hcopy : block_copied (vm_mem s) (memcpy (vm_mem s) (fp + hh) (pte_addr e + hh) PAGE_SIZE)
    (fp + hh) (pte_addr e + hh) PAGE_SIZE).
  { pose proof (page_apart _ _ Hv' Hv Hpe). apply up_copied; unfold PAGE_SIZE; lia. }
  set (s1 := mkVm (memcpy (vm_mem s) (fp + hh) (pte_addr e + hh) PAGE_SIZE) y (kernel_pml4 s)).
  assert (He1 : forall q u j, tabs !! q = Some u -> 0 <= j < 512 -> entry s1 u j = entry s u j).
  { intros q u j Hq Hj. destruct (Hpt _ _ Hq) as (Hu & Hne & _). pose proof (page_apart _ _ Hu Hv' Hne).
    apply load_le_ext. intros k Hk. rewrite Hcopy. unfold PAGE_SIZE. case_bools; done. }
  assert (Hwf1 : as_wf s1 root tabs).
  { apply (as_wf_agree s); [done|done| |].
    - intros q u Hq. destruct (Hpt _ _ Hq) as (_ & ? & ?). simpl. rewrite Hoy, Hox by done.
      by apply (as_frame _ _ _ Hwf q u).
    - intros q u j Hq _ Hj. eauto using idx_512. }
  assert (Hm1 : forall va', user_va va' -> mapping s1 root va' = mapping s root va').
  { intros va' Hva'. rewrite (mapping_tabs s1 root tabs), (mapping_tabs s root tabs) by done.
    destruct (tabs !! [pml4_index va'; _; _]) as [u|] eqn:Eu; [|done].
    rewrite (He1 _ _ _ Eu); [done|]. by destruct (user_indices va' Hva') as (_ & _ & _ & ?). }
  destruct (Hpt _ _ Ht) as (Hvt & Htp & Hte).
  split; [exact (leaf_store_wf s1 root tabs _ t _ _ Hwf1 Ht eq_refl H1 Hr)|]. split; [|split].
  - intros va' Hva' Hne.
    etransitivity; [exact (leaf_store_mapping s1 root tabs va t _ va' Hwf1 Hva Hva' Ht Hr)|].
    destruct (Z.eqb_spec (va' / 4096) (va / 4096)); [done|]. by apply Hm1.
  - etransitivity; [exact (leaf_store_mapping s1 root tabs va t _ va Hwf1 Hva Hva Ht Hr)|].
    by rewrite Z.eqb_refl, Hp.
  - exact Ha.
  - simpl. by rewrite Hoy.
  - intros k Hk. simpl. pose proof (page_apart _ _ Hvt Hv' Htp).
    rewrite load8_pt_store, Hcopy by (done || lia). unfold PAGE_SIZE. case_bools. f_equal. lia.
  - intros _. split; [exact Hfree|exact Hye].
  - intros E. by destruct Hn.
  - intros q Hq1 Hq2. simpl. by rewrite Hoy, Hox.
  - intros a Ha1 Ha2. simpl. rewrite load8_pt_store, Hcopy by eauto. unfold PAGE_SIZE. case_bools; done.
  - done.
Qed.
End cow.

Lemma wp_vmm_handle_cow_fault s root tabs va :
  as_wf s root tabs -> user_va va ->
  (forall e, mapping s root va = Some e -> has PTE_COW e = true -> exists n, owned s tabs e n) ->
  wp (vmm_handle_cow_fault hh root va) (fun b s' => as_wf s' root tabs /\
    (forall va', user_va va' -> va' / 4096 <> va / 4096 -> mapping s' root va' = mapping s root va') /\
    if (b : bool) then exists e n fp, mapping s root va = Some e /\ has PTE_COW e = true /\
      frames (vm_pa s) (pte_addr e) = Some n /\ cow_resolved s root tabs va e n s' fp
    else vm_mem s' = vm_mem s /\ (forall q, frames (vm_pa s') q = frames (vm_pa s) q) /\
      (forall e, mapping s root va = Some e -> has PTE_COW e = true ->
        forall q, frames (vm_pa s) q <> None)) s.
Proof.
  intros Hwf Hva Hown. unfold vmm_handle_cow_fault. cbv zeta.
  apply (wp_walk s root tabs va (ret false) (cow_leaf hh va)); [done|done| |].
  { intros Hm. wp_steps. split_and!; try done. by rewrite Hm. }
  intros t Ht Hv. pose proof (mapping_leaf s root tabs va t Hwf Hva Ht) as Hm. cbv zeta in Hm.
  unfold cow_leaf, pt_load, pt_store. wp_steps.
  set (e := load64 (vm_mem s) (t + hh + 8 * pt_index va)) in *.
  destruct (present e) eqn:Ep; cbn [negb orb].
  2:{ wp_steps. split_and!; try done. by rewrite Hm. }
  destruct (has PTE_COW e) eqn:Ec; cbn [negb].
  2:{ wp_steps. split_and!; try done. rewrite Hm. intros ? [= <-]. congruence. }
  destruct (Hown e Hm Ec) as (n & Hve & Hnt & Hf & Hn). fold (cow_flags e).
  wp_steps. apply wp_pa. eapply wp_mono; [by apply fa_refcount_spec; [apply (as_pa _ _ _ Hwf)| | |]|].
  intros ? ? [-> ->]. cbv beta. destruct (Z.eqb_spec n 1) as [->|Hn1].
  { wp_steps. destruct (cow_in_place s root tabs va t Hwf Hva Ht Ep) as (H1 & H2 & H3); [done|].
    split; [exact H1|]. split; [exact H2|]. by exists e, 1, (pte_addr e). }
  wp_steps. apply wp_pa. eapply wp_mono; [apply fa_alloc_spec, (as_pa _ _ _ Hwf)|].
  intros fp x [Hx [(-> & Hfull & Hsame)|(Hvp & Hfp & Hfp' & Hox)]]; cbv beta.
  { cbn [Z.eqb]. wp_steps. split; [|split_and!]; try done.
    apply (as_wf_pa_change s); [done|done|]. intros. apply Hsame. }
  destruct (Z.eqb_spec fp 0) as [->|]; [destruct Hvp; lia|]. simpl vm_pa in Hfp, Hox.
  assert (Hpe : pte_addr e <> fp) by (intros Epe; rewrite Epe, Hfp in Hf; done).
  unfold mem_memcpy. wp_steps. apply wp_pa.
  eapply wp_mono; [apply (fa_free_spec x _ n); [done|done|by rewrite Hox|done]|].
  intros [] y (Hy & Hye & Hoy). cbv beta. wp_steps. destruct (Z.eqb_spec n 1); [done|].
  rewrite !valid_frame_p2v by done.
  destruct (cow_copy s root tabs va t Hwf Hva Ht Ep n fp x y) as (H1 & H2 & H3); try done.
  split; [exact H1|]. split; [exact H2|]. by exists e, n, fp.
Qed.

(** *** Creating an address space *)

Lemma wp_vmm_new_user_pagetable s kp :
  fa_wf (vm_pa s) -> valid_frame kp -> frames (vm_pa s) kp <> None -> kernel_pml4 s = kp + hh ->
  wp (vmm_new_user_pagetable hh) (fun r s' =>
    (r = 0 /\ (forall q, frames (vm_pa s) q <> None) /\ vm_mem s' = vm_mem s) \/
    exists t, r = t + hh /\ frames (vm_pa s) t = None /\
      as_wf s' r {[ [] := t ]} /\
      (forall q, q <> t -> frames (vm_pa s') q = frames (vm_pa s) q) /\
      (forall a, ~ (t + hh <= a < t + hh + 4096) -> load8 (vm_mem s') a = load8 (vm_mem s) a) /\
      (forall va, user_va va -> mapping s' r va = None) /\
      forall i, 256 <= i < 512 ->
        load64 (vm_mem s') (r + 8 * i) = load64 (vm_mem s) (kernel_pml4 s + 8 * i)) s.
Proof.
  intros Hpa Hkv Hk Hkp. unfold vmm_new_user_pagetable, mem_memset, pt_load, pt_store. wp_steps.
  apply wp_pa. eapply wp_mono; [by apply fa_alloc_spec|].
  intros t x [Hx [(-> & Hfull & Hsame)|(Hv & Hf & Hf' & Hox)]]; cbv beta.
  { cbn [Z.eqb]. wp_steps. by left. }
  destruct (Z.eqb_spec t 0) as [->|]; [destruct Hv; lia|]. wp_steps. rewrite valid_frame_p2v by done.
  assert (Hne : kp <> t) by congruence.
  set (m0 := memset (vm_mem s) (t + hh) 0 PAGE_SIZE).
  pose (I := fun (i : Z) (s' : vm S) => vm_pa s' = x /\ kernel_pml4 s' = kp + hh /\
    (forall a, ~ (t + hh <= a < t + hh + 4096) -> load8 (vm_mem s') a = load8 (vm_mem s) a) /\
    (forall j, 0 <= j < 512 -> entry s' t j =
      if (256 <=? j) && (j <? i) then load64 (vm_mem s) (kp + hh + 8 * j) else 0)).
  eapply wp_mono; [apply (wp_for_range I)|].
  - unfold I. cbn [vm_mem vm_pa kernel_pml4 set_mem]. split; [done|]. split; [done|]. split.
    + intros a Ha. by apply load8_page_clear.
    + intros j Hj. unfold entry, m0. cbn [vm_mem set_mem]. rewrite load64_page_clear by done. rewrite Z.eqb_refl.
      case_bools; done.
  - intros i s' Hi (Hx' & Hk' & Hmem & Hent). wp_steps.
    assert (Hload : load64 (vm_mem s') (kp + hh + 8 * i) = load64 (vm_mem s) (kp + hh + 8 * i)).
    { pose proof (page_apart _ _ Hkv Hv Hne). apply load_le_ext. intros k Hk2. apply Hmem. lia. }
    unfold I. cbn [vm_mem vm_pa kernel_pml4 set_mem]. split; [done|]. split; [done|]. split.
    + intros a Ha. rewrite load8_pt_store by (done || lia). by apply Hmem.
    + intros j Hj. unfold entry. cbn [vm_mem set_mem]. rewrite Hk', Hload.
      rewrite load64_pt_store by (done || lia || apply load64_range). rewrite Z.eqb_refl. cbn [andb].
      fold (entry s' t j). rewrite Hent by done. case_bools; subst; done.
  - intros [] s' (Hx' & Hk' & Hmem & Hent). wp_steps. right. exists t. rewrite Hx'.
    assert (Hwf : as_wf s' (t + hh) {[ [] := t ]}).
    { split.
      - by rewrite Hx'.
      - exists t. by rewrite lookup_singleton_eq.
      - intros p u [<- <-]%lookup_singleton_Some. by rewrite Hx'.
      - intros p q u [<- <-]%lookup_singleton_Some [<- _]%lookup_singleton_Some. done.
      - intros p i u [? _]%lookup_singleton_Some. by destruct p.
      - intros p u i [<- <-]%lookup_singleton_Some _ Hi. unfold idx in Hi. rewrite Hent by lia.
        case_bools; by rewrite lookup_singleton_ne.
      - intros p u [<- _]%lookup_singleton_Some. done. }
    split; [done|]. split; [done|]. split; [done|]. split; [done|]. split; [done|]. split.
    + intros va Hva. rewrite (mapping_tabs s' _ {[ [] := t ]}) by done.
      by rewrite lookup_singleton_ne.
    + intros i Hi. rewrite Hkp. fold (entry s' t i). rewrite Hent by lia. case_bools; done.
Qed.
End aspace.
