(* ===== verification/AddressSpace.v ===== *)
(** * Correctness of the virtual memory manager

    The theorems on [vmm.c], over every implementation of the page allocator,
    and their instances on the allocator of [Pmm]. *)

From S2P Require Import Prelude Mem CString FrameAlloc Pmm Vmm PageTable.

Section theorems.
Context {S : Type} `{FA : FrameAlloc S} (hh : Z) (Hhh : hhdm_ok hh).
Implicit Types (s : vm S) (tabs : tables).

(** [vmm_map_page] maps the page: afterwards the four-level walk of
    [virtual_addr] finds [physical_addr | flags], every other user page keeps its
    translation, no page already in use changes its reference count, no byte
    outside the page tables and no kernel entry changes.  The only other outcome
    is that the walk is unchanged and every physical page is in use. *)
Theorem vmm_map_page_correct s root tabs va phys flags :
  as_wf hh s root tabs -> user_va va ->
  phys mod 4096 = 0 -> 0 <= phys < 70368744177664 -> flag_bits flags -> present flags = true ->
  wp (vmm_map_page hh root va phys flags) (fun _ s' => exists tabs',
    as_wf hh s' root tabs' /\ map_frame hh s root tabs s' tabs' /\
    (forall va', user_va va' -> va' / 4096 <> va / 4096 ->
      mapping hh s' root va' = mapping hh s root va') /\
    (mapping hh s' root va = Some (Z.lor phys flags) \/
     (mapping hh s' root va = mapping hh s root va /\ forall q, frames (vm_pa s') q <> None))) s.
Proof. by apply wp_vmm_map_page. Qed.

(** [vmm_unmap_page] removes exactly one translation and drops one reference
    to the page behind it (none when the page is marked as not managed). *)
Theorem vmm_unmap_page_correct s root tabs va :
  as_wf hh s root tabs -> user_va va ->
  (forall e, mapping hh s root va = Some e -> has PTE_NOPMM e = false -> exists n, owned s tabs e n) ->
  wp (vmm_unmap_page hh root va) (fun _ s' => as_wf hh s' root tabs /\
    (forall va', user_va va' -> mapping hh s' root va' =
      if va' / 4096 =? va / 4096 then None else mapping hh s root va') /\
    (forall q, frames (vm_pa s') q =
      match mapping hh s root va with
      | Some e => if negb (has PTE_NOPMM e) && (q =? pte_addr e)
                  then match frames (vm_pa s) q with
                       | Some n => if n =? 1 then None else Some (n - 1)
                       | None => None
                       end
                  else frames (vm_pa s) q
      | None => frames (vm_pa s) q
      end)) s.
Proof. by apply wp_vmm_unmap_page. Qed.

(** A copy-on-write fault is resolved to a writable, private page (reference
    count 1) with the contents of the faulting page: in place when the faulting
    process held the last reference, in a fresh page otherwise, whose old copy
    loses one reference.  Other translations stay.  The handler reports failure
    only when the page is not copy-on-write or memory is exhausted, and then
    changes nothing. *)
Theorem vmm_handle_cow_fault_correct s root tabs va :
  as_wf hh s root tabs -> user_va va ->
  (forall e, mapping hh s root va = Some e -> has PTE_COW e = true -> exists n, owned s tabs e n) ->
  wp (vmm_handle_cow_fault hh root va) (fun b s' => as_wf hh s' root tabs /\
    (forall va', user_va va' -> va' / 4096 <> va / 4096 ->
      mapping hh s' root va' = mapping hh s root va') /\
    if (b : bool) then exists e n p, mapping hh s root va = Some e /\ has PTE_COW e = true /\
      frames (vm_pa s) (pte_addr e) = Some n /\ cow_resolved hh s root tabs va e n s' p
    else vm_mem s' = vm_mem s /\ (forall q, frames (vm_pa s') q = frames (vm_pa s) q) /\
      (forall e, mapping hh s root va = Some e -> has PTE_COW e = true ->
        forall q, frames (vm_pa s) q <> None)) s.
Proof. by apply wp_vmm_handle_cow_fault. Qed.

(** [vmm_new_user_pagetable] builds, on a page that was free, an address
    space whose user half is empty and whose kernel half is the kernel's; it
    returns 0 only when every page is in use. *)
Theorem vmm_new_user_pagetable_correct s kp :
  fa_wf (vm_pa s) -> valid_frame kp -> frames (vm_pa s) kp <> None -> kernel_pml4 s = kp + hh ->
  wp (vmm_new_user_pagetable hh) (fun r s' =>
    (r = 0 /\ (forall q, frames (vm_pa s) q <> None) /\ vm_mem s' = vm_mem s) \/
    exists t, r = t + hh /\ frames (vm_pa s) t = None /\
      as_wf hh s' r {[ [] := t ]} /\
      (forall q, q <> t -> frames (vm_pa s') q = frames (vm_pa s) q) /\
      (forall a, ~ (t + hh <= a < t + hh + 4096) -> load8 (vm_mem s') a = load8 (vm_mem s) a) /\
      (forall va, user_va va -> mapping hh s' r va = None) /\
      forall i, 256 <= i < 512 ->
        load64 (vm_mem s') (r + 8 * i) = load64 (vm_mem s) (kernel_pml4 s + 8 * i)) s.
Proof. by apply wp_vmm_new_user_pagetable. Qed.
End theorems.

(** ** Instances on a small machine *)

(** A direct map as the boot loader sets it up, and the machine of [Pmm] with
    the kernel's root table in page 1. *)
Definition demo_hh : Z := 18446603336221196288.
Definition demo_vm : vm pmm := mkVm ∅ demo_pmm1 (4096 + demo_hh).

Lemma demo_hh_ok : hhdm_ok demo_hh.
Proof. done. Qed.

Lemma demo_pmm1_kernel_page : frames demo_pmm1 4096 = Some 1.
Proof. vm_compute. reflexivity. Qed.

Lemma demo_kernel_frame : valid_frame 4096.
Proof. done. Qed.

Lemma demo_vm_wf : fa_wf (vm_pa demo_vm).
Proof. exact demo_pmm1_wf. Qed.

(** A program: a page shared by two owners, mapped copy-on-write at 0x400000 in
    a new address space. *)
Definition demo_prog : M (vm pmm) (Z * Z) :=
  data <- pa fa_alloc ;;
  if data =? 0 then ret (0, 0) else
  pa (fa_ref_inc data) ;;
  root <- vmm_new_user_pagetable demo_hh ;;
  if root =? 0 then ret (0, 0) else
  vmm_map_page demo_hh root 0x400000 data 517 ;;
  ret (data, root).

Lemma demo_prog_wf (s : vm pmm) (kp : Z) :
  fa_wf (vm_pa s) -> valid_frame kp -> frames (vm_pa s) kp = Some 1 -> kernel_pml4 s = kp + demo_hh ->
  wp demo_prog (fun r s' => fst r <> 0 -> exists tabs, as_wf demo_hh s' (snd r) tabs) s.
Proof.
  intros Hwf Hk Hkf Hkp. unfold demo_prog. wp_steps.
  apply wp_pa. eapply wp_mono; [by apply fa_alloc_spec|].
  intros d x [Hx [(-> & _ & _)|(Hv & Hf & Hf' & Hox)]]; cbv beta; [wp_steps; intros Hn; by destruct Hn|].
  destruct (Z.eqb_spec d 0); [wp_steps; intros Hn; by destruct Hn|]. wp_steps. apply wp_pa.
  eapply wp_mono; [by apply (fa_ref_inc_spec x d 1)|].
  intros [] y (Hy & Hyd & Hoy). cbv beta. wp_steps.
  eapply wp_mono; [apply (wp_vmm_new_user_pagetable demo_hh demo_hh_ok _ kp); [done|done| |done]|].
  { simpl. assert (kp <> d) by congruence. by rewrite Hoy, Hox, Hkf. }
  intros r s' [(-> & _)|(t & -> & Hft & Hwf' & _)]; [wp_steps; intros Hn; by destruct Hn|].
  destruct (Z.eqb_spec (t + demo_hh) 0); [wp_steps; intros Hn; by destruct Hn|]. wp_steps.
  eapply wp_mono; [apply (wp_vmm_map_page demo_hh demo_hh_ok _ _ {[ [] := t ]}); try done; destruct Hv; (done || lia)|].
  intros [] s'' (tabs' & Hwf'' & _). wp_steps. eauto.
Qed.

Definition demo_run : Z * Z * vm pmm := default (0, 0, demo_vm) (demo_prog demo_vm).
Definition demo_root : Z := Eval vm_compute in snd (fst demo_run).
Definition demo_vm2 : vm pmm := snd demo_run.

Lemma demo_run_wf : exists tabs, as_wf demo_hh demo_vm2 demo_root tabs.
Proof.
  assert (Hr : fst (default (0, 0, demo_vm) (demo_prog demo_vm)) = (8192, demo_root))
    by (vm_compute; reflexivity).
  pose proof (wp_outcome demo_prog _ demo_vm (0, 0, demo_vm) _ (demo_prog_wf demo_vm 4096
    demo_pmm1_wf demo_kernel_frame demo_pmm1_kernel_page eq_refl) Hr) as H.
  refine (H _). intros E. discriminate E.
Qed.

Lemma demo_mapping : mapping demo_hh demo_vm2 demo_root 0x400000 = Some (8192 + 517).
Proof. vm_compute. reflexivity. Qed.
Lemma demo_frames : frames (vm_pa demo_vm2) 8192 = Some 2.
Proof. vm_compute. reflexivity. Qed.

(** The mapped page is no page table: it is referenced twice. *)
Lemma demo_owned tabs :
  as_wf demo_hh demo_vm2 demo_root tabs -> forall e,
  mapping demo_hh demo_vm2 demo_root 0x400000 = Some e -> exists n, owned demo_vm2 tabs e n.
Proof.
  intros Hwf e. rewrite demo_mapping. intros [= <-]. exists 2. unfold owned.
  change (pte_addr 8709) with 8192. split; [done|]. split; [|split; [exact demo_frames|lia]].
  intros p Hp. destruct (as_frame _ _ _ _ Hwf _ _ Hp) as [_ E].
  pose proof (eq_trans (eq_sym demo_frames) E) as E'. discriminate E'.
Qed.

#[local] Opaque demo_vm2 vmm_map_page vmm_unmap_page vmm_handle_cow_fault vmm_new_user_pagetable.

Lemma vmm_map_page_correct_witness :
  wp (vmm_map_page demo_hh demo_root 0x500000 8192 7) (fun _ s' =>
    mapping demo_hh s' demo_root 0x500000 = Some 8199 \/ forall q, frames (vm_pa s') q <> None) demo_vm2.
Proof.
  destruct demo_run_wf as [tabs Hwf].
  assert (Hva : user_va 0x500000) by (split; lia).
  assert (Hfl : flag_bits 7) by done.
  eapply wp_mono; [apply (vmm_map_page_correct demo_hh demo_hh_ok demo_vm2 demo_root tabs 0x500000 8192 7
    Hwf Hva eq_refl ltac:(lia) Hfl eq_refl)|].
  intros [] s' (tabs' & _ & _ & _ & [Hm|[_ Hm]]); [left|right]; exact Hm.
Defined.

Lemma vmm_unmap_page_correct_witness :
  wp (vmm_unmap_page demo_hh demo_root 0x400000) (fun _ s' =>
    mapping demo_hh s' demo_root 0x400123 = None /\ frames (vm_pa s') 8192 = Some 1) demo_vm2.
Proof.
  destruct demo_run_wf as [tabs Hwf].
  assert (Hva : user_va 0x400000) by (split; lia).
  assert (Hva' : user_va 0x400123) by (split; lia).
  eapply wp_mono; [apply (vmm_unmap_page_correct demo_hh demo_hh_ok demo_vm2 demo_root tabs 0x400000
    Hwf Hva (fun e He _ => demo_owned tabs Hwf e He))|].
  intros [] s' (_ & Hm & Hf). split; [exact (Hm 0x400123 Hva')|].
  rewrite Hf, demo_mapping, demo_frames. reflexivity.
Defined.

Lemma vmm_handle_cow_fault_correct_witness :
  exists tabs, wp (vmm_handle_cow_fault demo_hh demo_root 0x400000) (fun b s' =>
    b = true -> exists p, cow_resolved demo_hh demo_vm2 demo_root tabs 0x400000 8709 2 s' p) demo_vm2.
Proof.
  destruct demo_run_wf as [tabs Hwf]. exists tabs.
  assert (Hva : user_va 0x400000) by (split; lia).
  eapply wp_mono; [apply (vmm_handle_cow_fault_correct demo_hh demo_hh_ok demo_vm2 demo_root tabs 0x400000
    Hwf Hva (fun e He _ => demo_owned tabs Hwf e He))|].
  intros b s' (_ & _ & H) ->. destruct H as (e & n & p & He & _ & Hn & H).
  rewrite demo_mapping in He. injection He as <-.
  change (pte_addr (8192 + 517)) with 8192 in Hn. rewrite demo_frames in Hn. injection Hn as <-.
  exists p. exact H.
Defined.

Lemma vmm_new_user_pagetable_correct_witness :
  wp (vmm_new_user_pagetable demo_hh) (fun r s' => r = 0 \/
    exists t, r = t + demo_hh /\ as_wf demo_hh s' r {[ [] := t ]}) demo_vm.
Proof.
  assert (Hk : frames (vm_pa demo_vm) 4096 <> None)
    by (change (vm_pa demo_vm) with demo_pmm1; rewrite demo_pmm1_kernel_page; discriminate).
  eapply wp_mono; [apply (vmm_new_user_pagetable_correct demo_hh demo_hh_ok demo_vm 4096
    demo_vm_wf demo_kernel_frame Hk eq_refl)|].
  intros r s' [[H _]|(t & Hr & _ & Hwf & _)]; [left; exact H|]. right. exists t. split; [exact Hr|exact Hwf].
Defined.
