(* ===== verification/CloneSpace.v ===== *)
(** * Copying an address space on fork

    [vmm_clone_user_pagetable] (vmm.c) walks every page of the parent: a writable
    private page becomes read-only and copy-on-write in both address spaces, other
    pages are shared as they are, and every managed page gets one more reference. *)

From S2P Require Import Prelude Mem CString FrameAlloc Pmm Vmm PageTable AddressSpace.

(** ** The entry both address spaces are left with *)

Definition shared_flags (e : Z) : Z :=
  let flags := Z.land e FLAG_MASK in
  if has PTE_WRITABLE flags && negb (has (Z.lor PTE_SHARED PTE_NOPMM) flags)
  then Z.lor (Z.land flags (Z.lnot PTE_WRITABLE)) PTE_COW else flags.
Definition share (e : Z) : Z := Z.lor (pte_addr e) (shared_flags e).

(** ** The virtual address of a page from its indices *)

Definition va_at (i4 i3 i2 i1 : Z) : Z := i4 * 549755813888 + i3 * 1073741824 + i2 * 2097152 + i1 * 4096.

Lemma va_of_at i4 i3 i2 i1 :
  0 <= i4 < 256 -> 0 <= i3 < 512 -> 0 <= i2 < 512 -> 0 <= i1 < 512 -> va_of i4 i3 i2 i1 = va_at i4 i3 i2 i1.
Proof.
  intros H4 H3 H2 H1. unfold va_of, va_at. rewrite !Z.shiftl_mul_pow2 by lia.
  rewrite (lor_low 39 i4 (i3 * 2 ^ 30)) by (change (2 ^ 30) with 1073741824; change (2 ^ 39) with 549755813888; lia).
  replace (i4 * 2 ^ 39 + i3 * 2 ^ 30) with ((i4 * 512 + i3) * 2 ^ 30)
    by (change (2 ^ 30) with 1073741824; change (2 ^ 39) with 549755813888; lia).
  rewrite (lor_low 30) by (change (2 ^ 30) with 1073741824; change (2 ^ 21) with 2097152; lia).
  replace ((i4 * 512 + i3) * 2 ^ 30 + i2 * 2 ^ 21) with (((i4 * 512 + i3) * 512 + i2) * 2 ^ 21)
    by (change (2 ^ 30) with 1073741824; change (2 ^ 21) with 2097152; lia).
  rewrite (lor_low 21) by (change (2 ^ 12) with 4096; change (2 ^ 21) with 2097152; lia).
  change (2 ^ 21) with 2097152. change (2 ^ 12) with 4096. lia.
Qed.

Lemma va_at_user i4 i3 i2 i1 :
  0 <= i4 < 256 -> 0 <= i3 < 512 -> 0 <= i2 < 512 -> 0 <= i1 < 512 -> user_va (va_at i4 i3 i2 i1).
Proof. unfold user_va, va_at. lia. Qed.

(** The indices of every address on the page. *)
Lemma va_at_indices i4 i3 i2 i1 k :
  0 <= i4 < 256 -> 0 <= i3 < 512 -> 0 <= i2 < 512 -> 0 <= i1 < 512 -> 0 <= k < 4096 ->
  let va := va_at i4 i3 i2 i1 + k in
  pml4_index va = i4 /\ pdpt_index va = i3 /\ pd_index va = i2 /\ pt_index va = i1.
Proof.
  intros H4 H3 H2 H1 Hk va. unfold va, va_at. rewrite pml4_index_eq, pdpt_index_eq, pd_index_eq, pt_index_eq. lia.
Qed.
Lemma va_at_decompose va : user_va va ->
  va = va_at (pml4_index va) (pdpt_index va) (pd_index va) (pt_index va) + va mod 4096.
Proof. unfold user_va, va_at. rewrite pml4_index_eq, pdpt_index_eq, pd_index_eq, pt_index_eq. lia. Qed.

Lemma flag_mask_low e f : 0 <= f -> Z.land f FLAG_MASK = f -> has f (Z.land e FLAG_MASK) = has f e.
Proof.
  intros Hf E. unfold has. rewrite <- Z.land_assoc, (Z.land_comm FLAG_MASK f), E. done.
Qed.

Lemma flag_bits_mask x : 0 <= x < 18446744073709551616 -> flag_bits (Z.land x FLAG_MASK).
Proof.
  intros Hx. split.
  - split; [apply Z.land_nonneg; lia|]. change 18446744073709551616 with (2 ^ 64).
    apply Z.bounded_iff_bits_nonneg; [lia|apply Z.land_nonneg; lia|]. intros i Hi.
    rewrite Z.land_spec, (testbit_above x) by (done || lia). done.
  - rewrite <- Z.land_assoc. change (Z.land FLAG_MASK ADDR_MASK) with 0. apply Z.land_0_r.
Qed.

Lemma cow_mask f : 
  Z.lor (Z.land (Z.land f FLAG_MASK) (Z.lnot PTE_WRITABLE)) PTE_COW =
  Z.land (Z.lor (Z.land f (Z.lnot PTE_WRITABLE)) PTE_COW) FLAG_MASK.
Proof.
  apply Z.bits_inj'. intros i Hi. rewrite !Z.land_spec, !Z.lor_spec, !Z.land_spec.
  assert (E : Z.testbit (Z.land PTE_COW FLAG_MASK) i = Z.testbit PTE_COW i) by done.
  rewrite Z.land_spec in E. destruct (Z.testbit f i), (Z.testbit FLAG_MASK i), (Z.testbit (Z.lnot PTE_WRITABLE) i), (Z.testbit PTE_COW i); done.
Qed.
Lemma clear_set_range e : 0 <= e < 18446744073709551616 ->
  0 <= Z.lor (Z.land e (Z.lnot PTE_WRITABLE)) PTE_COW < 18446744073709551616.
Proof.
  intros He. apply lor_range; [|done]. split; [apply Z.land_nonneg; lia|].
  change 18446744073709551616 with (2 ^ 64).
  apply Z.bounded_iff_bits_nonneg; [lia|apply Z.land_nonneg; lia|]. intros i Hi.
  rewrite Z.land_spec, (testbit_above e) by (done || lia). done.
Qed.

Lemma has_cleared k e : 0 <= k -> k <> 1 -> k <> 9 ->
  has (Z.shiftl 1 k) (Z.lor (Z.land e (Z.lnot PTE_WRITABLE)) PTE_COW) = has (Z.shiftl 1 k) e.
Proof.
  intros Hk H1 H9. rewrite !has_bit by done. rewrite Z.lor_spec, Z.land_spec, Z.lnot_spec by done.
  assert (E1 : Z.testbit PTE_WRITABLE k = false) by (apply (Z.pow2_bits_false 1 k); lia).
  assert (E2 : Z.testbit PTE_COW k = false) by (apply (Z.pow2_bits_false 9 k); lia).
  rewrite E1, E2. by destruct (Z.testbit e k).
Qed.

(** Sharing keeps the page, the flags other than write and copy-on-write, and
    makes a well-formed entry. *)
Lemma shared_flags_spec e :
  0 <= e < 18446744073709551616 -> present e = true ->
  flag_bits (shared_flags e) /\ present (shared_flags e) = true /\
  has PTE_NOPMM (shared_flags e) = has PTE_NOPMM e.
Proof.
  intros He Hp. unfold shared_flags. cbv zeta. destruct (_ && _).
  - rewrite cow_mask. split; [by apply flag_bits_mask, clear_set_range|].
    rewrite !flag_mask_low by done. unfold PTE_PRESENT, PTE_NOPMM in *. by rewrite !has_cleared.
  - split; [by apply flag_bits_mask|]. by rewrite !flag_mask_low.
Qed.

Lemma entry_parts e : 0 <= e < 18446744073709551616 -> Z.lor (pte_addr e) (Z.land e FLAG_MASK) = e.
Proof.
  intros He. unfold pte_addr. rewrite <- Z.land_lor_distr_r. change (Z.lor ADDR_MASK FLAG_MASK) with (Z.ones 64).
  rewrite Z.land_ones by lia. change (2 ^ 64) with 18446744073709551616. lia.
Qed.

Lemma share_spec e :
  0 <= e < 18446744073709551616 -> present e = true -> 0 <= pte_addr e < 70368744177664 ->
  0 <= share e < 18446744073709551616 /\ present (share e) = true /\ pte_addr (share e) = pte_addr e.
Proof.
  intros He Hp Ha. destruct (shared_flags_spec e He Hp) as (Hf & Hpf & _). pose proof (pte_addr_aligned e).
  unfold share. split; [destruct Hf; apply lor_range; lia|]. split; [by rewrite has_lor|by apply pte_addr_lor].
Qed.

Section clone.
Context {S : Type} `{FA : FrameAlloc S} (hh : Z) (Hhh : hhdm_ok hh).
Implicit Types (s : vm S) (T : tables).

Definition in_page (t a : Z) : Prop := t + hh <= a < t + hh + 4096.

Lemma in_page_aligned t u a : t mod 4096 = 0 -> u mod 4096 = 0 -> t <> u -> in_page t a -> ~ in_page u a.
Proof. unfold in_page. lia. Qed.
Lemma in_page_apart t u a : valid_frame t -> valid_frame u -> t <> u -> in_page t a -> ~ in_page u a.
Proof. intros [Ht _] [Hu _]. by apply in_page_aligned. Qed.

(** An address space whose tables nobody touches stays as it is. *)
Lemma other_space s s' root T :
  as_wf hh s root T -> fa_wf (vm_pa s') ->
  (forall p t, T !! p = Some t -> frames (vm_pa s') t = frames (vm_pa s) t) ->
  (forall p t a, T !! p = Some t -> in_page t a -> load8 (vm_mem s') a = load8 (vm_mem s) a) ->
  as_wf hh s' root T /\ (forall va, user_va va -> mapping hh s' root va = mapping hh s root va) /\
  (forall p t i, T !! p = Some t -> 0 <= i < 512 -> entry hh s' t i = entry hh s t i).
Proof.
  intros Hwf Hpa Hfr Hm.
  assert (He : forall p t i, T !! p = Some t -> 0 <= i < 512 -> entry hh s' t i = entry hh s t i).
  { intros p t i Hp Hi. apply load_le_ext. intros k Hk. apply (Hm p t); [done|]. unfold in_page. lia. }
  assert (Hwf' : as_wf hh s' root T).
  { apply (as_wf_agree hh s); [done|done| |].
    - intros p t Hp. rewrite (Hfr p t Hp). by apply (as_frame _ _ _ _ Hwf p t).
    - intros p t i Hp _ Hi. eauto using idx_512. }
  split; [done|]. split; [|done]. intros va Hva.
  rewrite (mapping_tabs hh Hhh s' root T), (mapping_tabs hh Hhh s root T) by done.
  destruct (T !! _) as [t|] eqn:E; [|done]. by rewrite (He _ _ _ E) by apply (user_indices va Hva).
Qed.

(** Pages of one page of virtual addresses share their translation. *)
Lemma mapping_page s root va va' : user_va va -> user_va va' -> va / 4096 = va' / 4096 ->
  mapping hh s root va = mapping hh s root va'.
Proof.
  intros Hva Hva' E.
  assert (Eidx : pml4_index va = pml4_index va' /\ pdpt_index va = pdpt_index va' /\
    pd_index va = pd_index va' /\ pt_index va = pt_index va').
  { rewrite !pml4_index_eq, !pdpt_index_eq, !pd_index_eq, !pt_index_eq. unfold user_va in *. lia. }
  unfold mapping. by destruct Eidx as (-> & -> & -> & ->).
Qed.

Lemma mapping_range s root va e : mapping hh s root va = Some e -> 0 <= e < 18446744073709551616 /\ present e = true.
Proof.
  unfold mapping. destruct (negb _); [done|]. destruct (negb _); [done|]. destruct (negb _); [done|].
  destruct (present _) eqn:E; [|done]. intros [= <-]. split; [apply load64_range|done].
Qed.

(** What fork relies on: every mapped page has an address in range; a managed one
    is no page table, is counted, and is mapped once. *)
Record space_ok s root T : Prop := {
  sp_wf : as_wf hh s root T;
  sp_addr : forall va e, user_va va -> mapping hh s root va = Some e -> 0 <= pte_addr e < 70368744177664;
  sp_owned : forall va e, user_va va -> mapping hh s root va = Some e -> has PTE_NOPMM e = false ->
    exists n, owned s T e n;
  sp_once : forall va va' e e', user_va va -> user_va va' ->
    mapping hh s root va = Some e -> mapping hh s root va' = Some e' ->
    has PTE_NOPMM e = false -> has PTE_NOPMM e' = false -> pte_addr e = pte_addr e' -> va / 4096 = va' / 4096;
}.

(** Room for one more reference to every managed page; the counts have 16 bits. *)
Definition room s root : Prop := forall va e n, user_va va -> mapping hh s root va = Some e ->
  has PTE_NOPMM e = false -> frames (vm_pa s) (pte_addr e) = Some n -> n + 1 < 65536.

Definition exhausted s : Prop := forall q, frames (vm_pa s) q <> None.

Section parent.
Context (s0 : vm S) (root : Z) (tabs : tables) (child : Z).
Hypothesis Hok : space_ok s0 root tabs.
Hypothesis Hroom : room s0 root.
Let m0 va := mapping hh s0 root va.

(** Every page below [B] has been copied. *)
Record cloned (B : Z) s T : Prop := {
  cl_parent_wf : as_wf hh s root tabs;
  cl_child_wf : as_wf hh s child T;
  cl_new : forall p t, T !! p = Some t -> frames (vm_pa s0) t = None;
  cl_parent : forall va, user_va va -> mapping hh s root va = if va <? B then share <$> m0 va else m0 va;
  cl_child : forall va, user_va va ->
    mapping hh s child va = (if va <? B then share <$> m0 va else None) \/
    (mapping hh s child va = None /\ exhausted s);
  cl_counted : forall va e n, user_va va -> va < B -> m0 va = Some e -> has PTE_NOPMM e = false ->
    frames (vm_pa s0) (pte_addr e) = Some n -> frames (vm_pa s) (pte_addr e) = Some (n + 1);
  cl_others : forall q n, frames (vm_pa s0) q = Some n ->
    (forall va e, user_va va -> va < B -> m0 va = Some e -> has PTE_NOPMM e = false -> pte_addr e <> q) ->
    frames (vm_pa s) q = Some n;
  cl_mem : forall a, (forall p t, tabs !! p = Some t -> ~ in_page t a) ->
    (forall p t, T !! p = Some t -> ~ in_page t a) -> load8 (vm_mem s) a = load8 (vm_mem s0) a;
  cl_kernel : kernel_pml4 s = kernel_pml4 s0 /\
    forall i, 256 <= i < 512 ->
      load64 (vm_mem s) (child + 8 * i) = load64 (vm_mem s0) (kernel_pml4 s0 + 8 * i);
  cl_free : forall q, frames (vm_pa s0) q = None -> (forall p, T !! p <> Some q) -> frames (vm_pa s) q = None;
}.

(** The tables of the two spaces are different pages. *)
Lemma cloned_apart B s T p q t u : cloned B s T -> tabs !! p = Some t -> T !! q = Some u -> t <> u.
Proof.
  intros Hc Hp Hq ->. pose proof (cl_new _ _ _ Hc _ _ Hq).
  destruct (as_frame _ _ _ _ (sp_wf _ _ _ Hok) _ _ Hp). congruence.
Qed.

Lemma cloned_skip B B' s T :
  cloned B s T -> B <= B' -> (forall va, user_va va -> B <= va < B' -> m0 va = None) -> cloned B' s T.
Proof.
  intros [H1 H2 H3 H4 H5 H6 H7 H8 H9 H10] HB Hn. split; try done.
  - intros va Hva. rewrite H4 by done. case_bools; try done. by rewrite Hn by (done || lia).
  - intros va Hva. destruct (H5 va Hva) as [->|?]; [left|by right].
    case_bools; try done. by rewrite Hn by (done || lia).
  - intros va e n Hva Hlt Hm. apply (H6 va); [done| |done].
    destruct (Z.lt_ge_cases va B); [done|]. rewrite Hn in Hm by (done || lia). done.
  - intros q n Hq Hno. apply H7; [done|]. intros va e Hva Hlt. apply (Hno va e); [done|lia].
Qed.

(** *** One page *)

(** The parent's entry after the downgrade; the store is in its leaf table [t]. *)
Record downgraded s s1 va t e : Prop := {
  dg_wf : as_wf hh s1 root tabs;
  dg_map : forall va', user_va va' -> mapping hh s1 root va' =
    if va' / 4096 =? va / 4096 then Some (share e) else mapping hh s root va';
  dg_mem : forall a, ~ in_page t a -> load8 (vm_mem s1) a = load8 (vm_mem s) a;
  dg_pa : vm_pa s1 = vm_pa s;
  dg_kernel : kernel_pml4 s1 = kernel_pml4 s;
}.

Lemma wp_downgrade s va t e (Q : Z -> vm S -> Prop) :
  as_wf hh s root tabs -> user_va va -> tabs !! [pml4_index va; pdpt_index va; pd_index va] = Some t ->
  mapping hh s root va = Some e -> 0 <= pte_addr e < 70368744177664 ->
  (forall s1, downgraded s s1 va t e -> Q (shared_flags e) s1) ->
  wp (let flags := Z.land e FLAG_MASK in
      if has PTE_WRITABLE flags && negb (has (Z.lor PTE_SHARED PTE_NOPMM) flags)
      then let flags := Z.lor (Z.land flags (Z.lnot PTE_WRITABLE)) PTE_COW in
           pt_store (t + hh) (pt_index va) (Z.lor (pte_addr e) flags) ;; ret flags
      else ret flags) Q s.
Proof.
  intros Hwf Hva Ht Hm Ha HQ. destruct (mapping_range _ _ _ _ Hm) as [He Hp].
  destruct (share_spec e He Hp Ha) as (Hs & Hps & _). destruct (user_indices va Hva) as (_ & _ & _ & H1).
  assert (Ef : shared_flags e = let flags := Z.land e FLAG_MASK in
    if has PTE_WRITABLE flags && negb (has (Z.lor PTE_SHARED PTE_NOPMM) flags)
    then Z.lor (Z.land flags (Z.lnot PTE_WRITABLE)) PTE_COW else flags) by done.
  unfold share in *. cbv zeta in *. destruct (_ && _).
  - unfold pt_store. wp_steps. rewrite <- Ef. apply HQ. split; try done.
    + by eapply leaf_store_wf.
    + intros va' Hva'. rewrite (leaf_store_mapping hh Hhh s root tabs) by done. unfold share. by rewrite Hps.
    + intros a Hna. by apply load8_pt_store.
  - wp_steps. rewrite <- Ef. apply HQ. split; try done. intros va' Hva'.
    destruct (Z.eqb_spec (va' / 4096) (va / 4096)) as [E|]; [|done].
    rewrite (mapping_page s root va' va), Hm by done. unfold share. by rewrite Ef, entry_parts.
Qed.

(** One more reference to a managed page. *)
Lemma wp_share_ref s e f n (Q : unit -> vm S -> Prop) :
  fa_wf (vm_pa s) -> has PTE_NOPMM f = has PTE_NOPMM e ->
  (has PTE_NOPMM e = false -> valid_frame (pte_addr e) /\ frames (vm_pa s) (pte_addr e) = Some n /\ 1 <= n /\ n + 1 < 65536) ->
  (forall x, fa_wf x ->
    (forall q, frames x q = if negb (has PTE_NOPMM e) && (q =? pte_addr e) then Some (n + 1) else frames (vm_pa s) q) ->
    Q tt (mkVm (vm_mem s) x (kernel_pml4 s))) ->
  wp (if negb (has PTE_NOPMM f) then pa (fa_ref_inc (pte_addr e)) else ret tt) Q s.
Proof.
  intros Hwf -> Hn HQ. destruct (has PTE_NOPMM e); cbn [negb andb] in *.
  - wp_steps. destruct s. by apply HQ.
  - destruct (Hn eq_refl) as (Hv & Hf & H1 & H2). apply wp_pa.
    eapply wp_mono; [by apply (fa_ref_inc_spec _ _ n)|]. intros [] x (Hx & Hxe & Hox). apply HQ; [done|].
    intros q. destruct (Z.eqb_spec q (pte_addr e)) as [->|]; [done|by apply Hox].
Qed.

(** A page used before is used now. *)
Lemma cloned_used B s T q : cloned B s T -> frames (vm_pa s0) q <> None -> frames (vm_pa s) q <> None.
Proof.
  intros Hc Hq E. destruct (frames (vm_pa s0) q) as [n|] eqn:E0; [|done].
  rewrite (cl_others _ _ _ Hc q n E0) in E; [done|]. intros va e Hva Hlt Hm Hnp <-.
  rewrite (cl_counted _ _ _ Hc va e n Hva Hlt Hm Hnp E0) in E. done.
Qed.

(** The count of the page at [B] is still the old one. *)
Lemma cloned_count B s T e :
  cloned B s T -> user_va B -> B mod 4096 = 0 -> m0 B = Some e -> exists n, has PTE_NOPMM e = false ->
    valid_frame (pte_addr e) /\ (forall p, tabs !! p <> Some (pte_addr e)) /\
    frames (vm_pa s0) (pte_addr e) = Some n /\ frames (vm_pa s) (pte_addr e) = Some n /\ 1 <= n /\ n + 1 < 65536.
Proof.
  intros Hc HB Hal Hm. destruct (has PTE_NOPMM e) eqn:Hnp; [by exists 0|].
  destruct (sp_owned _ _ _ Hok B e HB Hm Hnp) as (n & Hv & Hnt & Hf & H1).
  exists n. intros _. pose proof (Hroom B e n HB Hm Hnp Hf). split_and!; try done. apply (cl_others _ _ _ Hc); [done|].
  intros va e' Hva Hlt Hm' Hnp' E. pose proof (sp_once _ _ _ Hok va B e' e Hva HB Hm' Hm Hnp' Hnp E). lia.
Qed.

(** The state before the child's entry is written. *)
Lemma cloned_ready B s T t e n s1 x :
  cloned B s T -> user_va B -> B mod 4096 = 0 -> m0 B = Some e ->
  tabs !! [pml4_index B; pdpt_index B; pd_index B] = Some t ->
  (has PTE_NOPMM e = false -> valid_frame (pte_addr e) /\ (forall p, tabs !! p <> Some (pte_addr e)) /\
    frames (vm_pa s0) (pte_addr e) = Some n /\ frames (vm_pa s) (pte_addr e) = Some n /\ 1 <= n /\ n + 1 < 65536) ->
  downgraded s s1 B t e -> fa_wf x ->
  (forall q, frames x q = if negb (has PTE_NOPMM e) && (q =? pte_addr e) then Some (n + 1) else frames (vm_pa s1) q) ->
  let s2 := mkVm (vm_mem s1) x (kernel_pml4 s1) in
  as_wf hh s2 root tabs /\ as_wf hh s2 child T /\
  (forall va, user_va va -> mapping hh s2 child va = mapping hh s child va).
Proof.
  intros Hc HB Hal Hm Ht Hn [Hd1 Hd2 Hd3 Hd4 Hd5] Hx Hfx s2. rewrite Hd4 in Hfx.
  assert (Htab : forall p u, tabs !! p = Some u -> frames x u = frames (vm_pa s1) u).
  { intros p u Hp. rewrite Hfx, Hd4. destruct (has PTE_NOPMM e); [done|]. destruct (Hn eq_refl) as (_ & Hnt & _).
    destruct (Z.eqb_spec u (pte_addr e)) as [->|]; [|done]. by destruct (Hnt p). }
  destruct (as_frame _ _ _ _ (sp_wf _ _ _ Hok) _ _ Ht) as [Hvt _].
  split; [by apply (as_wf_pa_change hh s1)|].
  destruct (other_space s s2 child T) as (H1 & H2 & _); [apply (cl_child_wf _ _ _ Hc)|done| | |done].
  - intros p u Hp. cbn. rewrite Hfx. destruct (has PTE_NOPMM e); [done|]. destruct (Hn eq_refl) as (_ & _ & Hf & _).
    destruct (Z.eqb_spec u (pte_addr e)) as [->|]; [|done]. pose proof (cl_new _ _ _ Hc _ _ Hp). congruence.
  - intros p u a Hp Ha. cbn. apply Hd3. intros Hat.
    destruct (as_frame _ _ _ _ (cl_child_wf _ _ _ Hc) _ _ Hp) as [Hu _].
    eapply (in_page_apart t u a); try done. by eapply cloned_apart.
Qed.

(** The child's entry is written (or memory is exhausted): one more page is done. *)
Section step.
Context (B : Z) (s : vm S) (T : tables) (t e n : Z) (s1 : vm S) (x : S) (s3 : vm S) (T' : tables).
Let s2 := mkVm (vm_mem s1) x (kernel_pml4 s1).
Hypothesis Hc : cloned B s T.
Hypothesis HB : user_va B.
Hypothesis Hal : B mod 4096 = 0.
Hypothesis Hm : m0 B = Some e.
Hypothesis Ht : tabs !! [pml4_index B; pdpt_index B; pd_index B] = Some t.
Hypothesis Hn : has PTE_NOPMM e = false -> valid_frame (pte_addr e) /\ (forall p, tabs !! p <> Some (pte_addr e)) /\
  frames (vm_pa s0) (pte_addr e) = Some n /\ frames (vm_pa s) (pte_addr e) = Some n /\ 1 <= n /\ n + 1 < 65536.
Hypothesis Hd : downgraded s s1 B t e.
Hypothesis Hfx : forall q, frames x q =
  if negb (has PTE_NOPMM e) && (q =? pte_addr e) then Some (n + 1) else frames (vm_pa s1) q.
Hypothesis Hwf2 : as_wf hh s2 root tabs.
Hypothesis Hmap2 : forall va, user_va va -> mapping hh s2 child va = mapping hh s child va.
Hypothesis Hwf3 : as_wf hh s3 child T'.
Hypothesis Hmf : map_frame hh s2 child T s3 T'.
Hypothesis Hoth : forall va, user_va va -> va / 4096 <> B / 4096 -> mapping hh s3 child va = mapping hh s2 child va.
Hypothesis Hnew : mapping hh s3 child B = Some (share e) \/
  (mapping hh s3 child B = mapping hh s2 child B /\ exhausted s3).

Lemma step_kept q k : frames (vm_pa s) q = Some k -> (has PTE_NOPMM e = false -> q <> pte_addr e) ->
  frames (vm_pa s3) q = Some k.
Proof.
  intros Hq Hne. apply (mf_used _ _ _ _ _ _ Hmf). cbn. rewrite Hfx, (dg_pa _ _ _ _ _ Hd).
  destruct (has PTE_NOPMM e); [done|]. destruct (Z.eqb_spec q (pte_addr e)); [by destruct Hne|done].
Qed.
Lemma step_used q : frames (vm_pa s) q <> None -> frames (vm_pa s3) q <> None.
Proof.
  intros Hq. destruct (frames (vm_pa s) q) as [k|] eqn:E; [|done].
  destruct (decide (q = pte_addr e /\ has PTE_NOPMM e = false)) as [[-> Hnp]|Hne].
  - rewrite (mf_used _ _ _ _ _ _ Hmf _ (n + 1)); [done|]. cbn. by rewrite Hfx, Hnp, Z.eqb_refl.
  - rewrite (step_kept q k E); [done|]. intros Hnp ->. by destruct Hne.
Qed.

Lemma step_tables p u : T' !! p = Some u -> frames (vm_pa s0) u = None.
Proof.
  intros Hp. destruct (mf_tabs _ _ _ _ _ _ Hmf p u Hp) as [Ho|Ho]; [by apply (cl_new _ _ _ Hc _ _ Ho)|].
  destruct (frames (vm_pa s0) u) as [k|] eqn:E; [|done]. cbn in Ho. rewrite Hfx, (dg_pa _ _ _ _ _ Hd) in Ho.
  destruct (_ && _); [done|]. destruct (cloned_used B s T u Hc); congruence.
Qed.

(** The parent's tables are apart from the child's. *)
Lemma step_parent : as_wf hh s3 root tabs /\
  forall va, user_va va -> mapping hh s3 root va = mapping hh s1 root va.
Proof.
  destruct (other_space s2 s3 root tabs) as (H1 & H2 & _); [done|apply (as_pa _ _ _ _ Hwf3)| | |].
  - intros p u Hp. destruct (as_frame _ _ _ _ Hwf2 _ _ Hp) as [_ E]. rewrite E. by apply (mf_used _ _ _ _ _ _ Hmf).
  - intros p u a Hp Ha. apply (mf_mem _ _ _ _ _ _ Hmf). intros q w Hq.
    destruct (as_frame _ _ _ _ Hwf3 _ _ Hq) as [Hw _]. destruct (as_frame _ _ _ _ Hwf2 _ _ Hp) as [Hu _].
    apply (in_page_apart u w a); try done. intros ->.
    pose proof (step_tables _ _ Hq). destruct (as_frame _ _ _ _ (sp_wf _ _ _ Hok) _ _ Hp). congruence.
  - split; [done|]. intros va Hva. by rewrite H2.
Qed.

Lemma cloned_step : cloned (B + 4096) s3 T'.
Proof.
  destruct step_parent as [Hwfp Hmp].
  assert (HmB : forall va, user_va va -> B <= va < B + 4096 -> m0 va = Some e).
  { intros va Hva Hr. unfold m0. rewrite (mapping_page s0 root va B) by (done || lia). exact Hm. }
  split; try done.
  - exact step_tables.
  - intros va Hva. rewrite Hmp, (dg_map _ _ _ _ _ Hd), (cl_parent _ _ _ Hc) by done.
    destruct (Z.eqb_spec (va / 4096) (B / 4096)) as [E|E].
    + rewrite HmB by (done || lia). case_bools. done.
    + case_bools; try done. 
  - intros va Hva. destruct (Z.eq_dec (va / 4096) (B / 4096)) as [E|E].
    + rewrite (mapping_page s3 child va B) by done. rewrite HmB by (done || lia).
      destruct Hnew as [->|[-> Hfull]]; [left; case_bools; done|right]. split; [|done]. rewrite Hmap2 by done.
      destruct (cl_child _ _ _ Hc B HB) as [->|[-> _]]; [by rewrite Z.ltb_irrefl|done].
    + rewrite Hoth, Hmap2 by done. destruct (cl_child _ _ _ Hc va Hva) as [->|[-> Hfull]].
      * left. case_bools; done.
      * right. split; [done|]. intros q. apply step_used, Hfull.
  - intros va e' k Hva Hlt Hm' Hnp Hf. destruct (Z.eq_dec (va / 4096) (B / 4096)) as [E|E].
    + rewrite HmB in Hm' by (done || lia). injection Hm' as <-. destruct (Hn Hnp) as (_ & _ & Hf0 & _).
      rewrite Hf in Hf0. injection Hf0 as ->. apply (mf_used _ _ _ _ _ _ Hmf). cbn. by rewrite Hfx, Hnp, Z.eqb_refl.
    + apply step_kept; [apply (cl_counted _ _ _ Hc va); try done; lia|]. intros Hnpe Ee.
      by apply E, (sp_once _ _ _ Hok va B e' e).
  - intros q k Hq Hno. apply step_kept.
    + apply (cl_others _ _ _ Hc); [done|]. intros va e' Hva Hlt. apply (Hno va e'); [done|lia].
    + intros Hnp ->. by apply (Hno B e HB ltac:(lia) Hm Hnp).
  - intros a Ha1 Ha2. rewrite (mf_mem _ _ _ _ _ _ Hmf) by done. cbn. rewrite (dg_mem _ _ _ _ _ Hd) by eauto.
    apply (cl_mem _ _ _ Hc); [done|]. intros p u Hp. apply (Ha2 p u), (mf_sub _ _ _ _ _ _ Hmf), Hp.
  - destruct (mf_kernel _ _ _ _ _ _ Hmf) as [Ek Hk]. destruct (cl_kernel _ _ _ Hc) as [Ek0 Hk0]. cbn in Ek.
    rewrite Ek, (dg_kernel _ _ _ _ _ Hd). split; [done|]. intros i Hi. rewrite Hk, <- Hk0 by done.
    destruct (as_root _ _ _ _ (cl_child_wf _ _ _ Hc)) as (r & Hr & ->).
    apply load_le_ext. intros j Hj. cbn [vm_mem s2]. apply (dg_mem _ _ _ _ _ Hd). intros Hat.
    destruct (as_frame _ _ _ _ (cl_child_wf _ _ _ Hc) _ _ Hr) as [Hvr _].
    destruct (as_frame _ _ _ _ (sp_wf _ _ _ Hok) _ _ Ht) as [Hvt _].
    eapply (in_page_apart t r _ Hvt Hvr); [by eapply cloned_apart|exact Hat|unfold in_page; lia].
  - intros q Hq Hno. apply (mf_free _ _ _ _ _ _ Hmf); [|done]. cbn. rewrite Hfx, (dg_pa _ _ _ _ _ Hd).
    destruct (has PTE_NOPMM e) eqn:Hnp; cbn [negb andb].
    + apply (cl_free _ _ _ Hc); [done|]. intros p Hp. by apply (Hno p), (mf_sub _ _ _ _ _ _ Hmf).
    + destruct (Hn eq_refl) as (_ & _ & Hf0 & _). destruct (Z.eqb_spec q (pte_addr e)) as [->|]; [congruence|].
      apply (cl_free _ _ _ Hc); [done|]. intros p Hp. by apply (Hno p), (mf_sub _ _ _ _ _ _ Hmf).
Qed.
End step.

Lemma wp_clone_leaf i4 i3 i2 i1 s T t :
  0 <= i4 < 256 -> 0 <= i3 < 512 -> 0 <= i2 < 512 -> 0 <= i1 < 512 ->
  cloned (va_at i4 i3 i2 i1) s T -> tabs !! [i4; i3; i2] = Some t ->
  wp (clone_leaf hh child i4 i3 i2 (t + hh) i1) (fun _ s' => exists T', cloned (va_at i4 i3 i2 (i1 + 1)) s' T') s.
Proof.
  intros H4 H3 H2 H1 Hc Ht. set (B := va_at i4 i3 i2 i1) in *.
  assert (HB : user_va B) by (by apply va_at_user).
  assert (Hal : B mod 4096 = 0) by (unfold B, va_at; lia).
  replace (va_at i4 i3 i2 (i1 + 1)) with (B + 4096) by (unfold B, va_at; lia).
  destruct (va_at_indices i4 i3 i2 i1 0 H4 H3 H2 H1 ltac:(lia)) as (E4 & E3 & E2 & E1).
  rewrite Z.add_0_r in E4, E3, E2, E1. fold B in E4, E3, E2, E1.
  assert (Ht' : tabs !! [pml4_index B; pdpt_index B; pd_index B] = Some t) by (by rewrite E4, E3, E2).
  assert (HmB : mapping hh s root B = m0 B) by (rewrite (cl_parent _ _ _ Hc B HB); by rewrite Z.ltb_irrefl).
  pose proof (mapping_leaf hh Hhh s root tabs B t (cl_parent_wf _ _ _ Hc) HB Ht') as Hleaf. cbv zeta in Hleaf.
  rewrite E1 in Hleaf. unfold clone_leaf, pt_load. wp_steps. set (e := load64 (vm_mem s) (t + hh + 8 * i1)) in *.
  destruct (present e) eqn:Ep; cbn [negb].
  2:{ wp_steps. exists T. eapply cloned_skip; [exact Hc|lia|]. intros va Hva Hr. unfold m0.
      rewrite (mapping_page s0 root va B) by (done || lia). unfold m0 in HmB. by rewrite <- HmB. }
  assert (Hm : m0 B = Some e) by congruence. pose proof (sp_addr _ _ _ Hok B e HB Hm) as Ha.
  destruct (cloned_count B s T e Hc HB Hal Hm) as [n Hn]. wp_step. rewrite <- E1.
  apply (wp_downgrade s B t e); [apply (cl_parent_wf _ _ _ Hc)|done|done|congruence|done|]. intros s1 Hd.
  destruct (mapping_range _ _ _ _ Hm) as [He _]. destruct (shared_flags_spec e He Ep) as (Hfb & Hpf & Hnp).
  wp_step. apply (wp_share_ref s1 e _ n); [apply (as_pa _ _ _ _ (dg_wf _ _ _ _ _ Hd))|done| |].
  { intros Hf. destruct (Hn Hf) as (? & ? & ? & ? & ?). by rewrite (dg_pa _ _ _ _ _ Hd). }
  intros x Hx Hfx. destruct (cloned_ready B s T t e n s1 x Hc HB Hal Hm Ht' Hn Hd Hx Hfx) as (Hwfp & Hwfc & Hmc).
  rewrite E1, va_of_at by done. fold B. pose proof (pte_addr_aligned e).
  eapply wp_mono; [by apply (wp_vmm_map_page hh Hhh _ child T B (pte_addr e) (shared_flags e))|].
  intros [] s3 (T' & Hwf3 & Hmf & Hoth & Hnew). exists T'. by eapply (cloned_step B s T t e n s1 x).
Qed.

(** *** The loops over the tables *)

(** A page with a translation has all the tables on its path. *)
Lemma mapped_tables va : user_va va -> m0 va <> None ->
  tabs !! [pml4_index va] <> None /\ tabs !! [pml4_index va; pdpt_index va] <> None /\
  tabs !! [pml4_index va; pdpt_index va; pd_index va] <> None.
Proof.
  intros Hva Hm. pose proof (sp_wf _ _ _ Hok) as Hwf. unfold m0 in Hm. rewrite (mapping_tabs hh Hhh s0 root tabs) in Hm by done.
  destruct (tabs !! [pml4_index va; pdpt_index va; pd_index va]) as [t|] eqn:E; [|done].
  destruct (as_prefix _ _ _ _ Hwf [pml4_index va; pdpt_index va] (pd_index va) t E) as [t3 E3].
  destruct (as_prefix _ _ _ _ Hwf [pml4_index va] (pdpt_index va) t3 E3) as [t4 E4]. by rewrite E3, E4.
Qed.

(** The child of an inner table: present, or no page below it. *)
Lemma cloned_entry B s T p t i : cloned B s T -> tabs !! p = Some t -> (length p < 3)%nat -> idx p i ->
  (present (load64 (vm_mem s) (t + hh + 8 * i)) = false /\ tabs !! (p ++ [i]) = None) \/
  (present (load64 (vm_mem s) (t + hh + 8 * i)) = true /\ exists u, tabs !! (p ++ [i]) = Some u /\
    p2v hh (pte_addr (load64 (vm_mem s) (t + hh + 8 * i))) = u + hh).
Proof.
  intros Hc Hp Hl Hi. pose proof (cl_parent_wf _ _ _ Hc) as Hwf.
  pose proof (as_entry _ _ _ _ Hwf p t i Hp Hl Hi) as E. unfold entry in E.
  destruct (present _); [right|by left]. split; [done|]. eexists. split; [exact E|].
  apply valid_frame_p2v; [done|]. by apply (as_frame _ _ _ _ Hwf _ _ E).
Qed.

Lemma wp_clone_pt i4 i3 i2 s T pd :
  0 <= i4 < 256 -> 0 <= i3 < 512 -> 0 <= i2 < 512 ->
  cloned (va_at i4 i3 i2 0) s T -> tabs !! [i4; i3] = Some pd ->
  wp (clone_pt hh child i4 i3 (pd + hh) i2) (fun _ s' => exists T', cloned (va_at i4 i3 (i2 + 1) 0) s' T') s.
Proof.
  intros H4 H3 H2 Hc Hpd. unfold clone_pt, pt_load. wp_steps.
  destruct (cloned_entry _ s T _ pd i2 Hc Hpd ltac:(simpl; lia) H2) as [[-> Hn]|(-> & t & Ht & ->)]; cbn [negb app] in *.
  - wp_steps. exists T. eapply cloned_skip; [exact Hc|unfold va_at; lia|]. intros va Hva Hr.
    destruct (m0 va) eqn:Em; [|done]. destruct (mapped_tables va Hva ltac:(by rewrite Em)) as (_ & _ & Hx).
    assert (E : pml4_index va = i4 /\ pdpt_index va = i3 /\ pd_index va = i2)
      by (rewrite pml4_index_eq, pdpt_index_eq, pd_index_eq; unfold va_at, user_va in *; lia).
    destruct E as (E4 & E3 & E2). by rewrite E4, E3, E2 in Hx.
  - replace (va_at i4 i3 (i2 + 1) 0) with (va_at i4 i3 i2 (0 + Z.of_nat 512)) by (unfold va_at; lia).
    apply (wp_for_range (fun i s => exists T, cloned (va_at i4 i3 i2 i) s T)); [eauto|].
    intros i s' Hi [T' Hc']. apply (wp_clone_leaf i4 i3 i2 i s' T' t); done.
Qed.

Lemma wp_clone_pd i4 i3 s T pdpt :
  0 <= i4 < 256 -> 0 <= i3 < 512 -> cloned (va_at i4 i3 0 0) s T -> tabs !! [i4] = Some pdpt ->
  wp (clone_pd hh child i4 (pdpt + hh) i3) (fun _ s' => exists T', cloned (va_at i4 (i3 + 1) 0 0) s' T') s.
Proof.
  intros H4 H3 Hc Hpd. unfold clone_pd, pt_load. wp_steps.
  destruct (cloned_entry _ s T _ pdpt i3 Hc Hpd ltac:(simpl; lia) H3) as [[-> Hn]|(-> & t & Ht & ->)]; cbn [negb app] in *.
  - wp_steps. exists T. eapply cloned_skip; [exact Hc|unfold va_at; lia|]. intros va Hva Hr.
    destruct (m0 va) eqn:Em; [|done]. destruct (mapped_tables va Hva ltac:(by rewrite Em)) as (_ & Hx & _).
    assert (E : pml4_index va = i4 /\ pdpt_index va = i3)
      by (rewrite pml4_index_eq, pdpt_index_eq; unfold va_at, user_va in *; lia).
    destruct E as (E4 & E3). by rewrite E4, E3 in Hx.
  - replace (va_at i4 (i3 + 1) 0 0) with (va_at i4 i3 (0 + Z.of_nat 512) 0) by (unfold va_at; lia).
    apply (wp_for_range (fun i s => exists T, cloned (va_at i4 i3 i 0) s T)); [eauto|].
    intros i s' Hi [T' Hc']. apply (wp_clone_pt i4 i3 i s' T' t); done.
Qed.

Lemma wp_clone_pdpt i4 s T :
  0 <= i4 < 256 -> cloned (va_at i4 0 0 0) s T ->
  wp (clone_pdpt hh child root i4) (fun _ s' => exists T', cloned (va_at (i4 + 1) 0 0 0) s' T') s.
Proof.
  intros H4 Hc. destruct (as_root _ _ _ _ (sp_wf _ _ _ Hok)) as (r & Hr & Er). unfold clone_pdpt, pt_load.
  rewrite Er. wp_steps.
  destruct (cloned_entry _ s T _ r i4 Hc Hr ltac:(simpl; lia) H4) as [[-> Hn]|(-> & t & Ht & ->)]; cbn [negb app] in *.
  - wp_steps. exists T. eapply cloned_skip; [exact Hc|unfold va_at; lia|]. intros va Hva Hrg.
    destruct (m0 va) eqn:Em; [|done]. destruct (mapped_tables va Hva ltac:(by rewrite Em)) as (Hx & _).
    assert (E : pml4_index va = i4) by (rewrite pml4_index_eq; unfold va_at, user_va in *; lia).
    by rewrite E in Hx.
  - replace (va_at (i4 + 1) 0 0 0) with (va_at i4 (0 + Z.of_nat 512) 0 0) by (unfold va_at; lia).
    apply (wp_for_range (fun i s => exists T, cloned (va_at i4 i 0 0) s T)); [eauto|].
    intros i s' Hi [T' Hc']. apply (wp_clone_pd i4 i s' T' t); done.
Qed.
End parent.

Lemma wp_new_kernel s :
  fa_wf (vm_pa s) -> wp (vmm_new_user_pagetable hh) (fun _ s' => kernel_pml4 s' = kernel_pml4 s) s.
Proof.
  intros Hpa. unfold vmm_new_user_pagetable, mem_memset, pt_load, pt_store. wp_steps. apply wp_pa.
  eapply wp_mono; [by apply fa_alloc_spec|]. intros t x _. cbv beta. destruct (t =? 0); [by wp_steps|]. wp_steps.
  eapply wp_mono; [apply (wp_for_range (fun _ s' => kernel_pml4 s' = kernel_pml4 s)); [done|]|].
  - intros i s' _ Hk. by wp_steps.
  - intros [] s' Hk. by wp_steps.
Qed.

(** A new address space with nothing copied yet. *)
Lemma cloned_start s root T t s1 :
  space_ok s root T -> frames (vm_pa s) t = None -> as_wf hh s1 (t + hh) {[ [] := t ]} ->
  (forall q, q <> t -> frames (vm_pa s1) q = frames (vm_pa s) q) ->
  (forall a, ~ in_page t a -> load8 (vm_mem s1) a = load8 (vm_mem s) a) ->
  (forall va, user_va va -> mapping hh s1 (t + hh) va = None) ->
  kernel_pml4 s1 = kernel_pml4 s ->
  (forall i, 256 <= i < 512 -> load64 (vm_mem s1) (t + hh + 8 * i) = load64 (vm_mem s) (kernel_pml4 s + 8 * i)) ->
  cloned s root T (t + hh) (va_at 0 0 0 0) s1 {[ [] := t ]}.
Proof.
  intros Hok Hf Hwf Hfr Hmem Hnone Hk Hkern. change (va_at 0 0 0 0) with 0.
  destruct (as_frame _ _ _ _ Hwf [] t (lookup_singleton_eq _ _)) as [Hvt _].
  destruct (other_space s s1 root T) as (H1 & H2 & _); [apply (sp_wf _ _ _ Hok)|apply (as_pa _ _ _ _ Hwf)| | |].
  - intros p u Hp. apply Hfr. intros ->. destruct (as_frame _ _ _ _ (sp_wf _ _ _ Hok) _ _ Hp). congruence.
  - intros p u a Hp Ha. apply Hmem. destruct (as_frame _ _ _ _ (sp_wf _ _ _ Hok) _ _ Hp) as [Hu Hfu].
    apply (in_page_apart u t a); try done. congruence.
  - split; try done.
    + intros p u [<- <-]%lookup_singleton_Some. done.
    + intros va Hva. rewrite H2 by done. unfold user_va in Hva. case_bools; done.
    + intros va Hva. left. rewrite Hnone by done. unfold user_va in Hva. case_bools; done.
    + intros va e n Hva Hlt. unfold user_va in Hva. lia.
    + intros q n Hq _. rewrite Hfr; [done|]. congruence.
    + intros a _ Ha. apply Hmem. by apply (Ha [] t), lookup_singleton_eq.
    + intros q Hq Hno. rewrite Hfr; [done|]. intros ->. by apply (Hno []), lookup_singleton_eq.
Qed.

(** The whole copy. *)
Lemma wp_vmm_clone s root T kp :
  space_ok s root T -> room s root -> valid_frame kp -> frames (vm_pa s) kp <> None -> kernel_pml4 s = kp + hh ->
  wp (vmm_clone_user_pagetable hh root) (fun child s' =>
    (child = 0 /\ exhausted s /\ vm_mem s' = vm_mem s) \/
    exists T', cloned s root T child 140737488355328 s' T') s.
Proof.
  intros Hok Hroom Hkv Hk Hkp. unfold vmm_clone_user_pagetable. wp_steps.
  pose proof (as_pa _ _ _ _ (sp_wf _ _ _ Hok)) as Hpa.
  eapply wp_mono; [apply wp_and; [by apply (wp_vmm_new_user_pagetable hh Hhh s kp)|by apply wp_new_kernel]|].
  intros c s1 [[(-> & Hfull & Hmem)|(t & -> & Hf & Hwf & Hfr & Hmem & Hnone & Hkern)] Hk1].
  { cbn [Z.eqb]. wp_steps. by left. }
  pose proof Hhh as (Hh0 & _ & _). destruct (as_frame _ _ _ _ Hwf [] t (lookup_singleton_eq _ _)) as [Hvt _].
  destruct (Z.eqb_spec (t + hh) 0) as [|_]; [destruct Hvt; lia|]. wp_steps.
  assert (Hc0 : cloned s root T (t + hh) (va_at 0 0 0 0) s1 {[ [] := t ]}) by (by eapply cloned_start).
  eapply wp_mono; [apply (wp_for_range (fun i s' => exists T', cloned s root T (t + hh) (va_at i 0 0 0) s' T'))|].
  - eauto.
  - intros i s' Hi [T' Hc]. apply (wp_clone_pdpt s root T (t + hh) Hok Hroom i s' T'); [lia|done].
  - intros [] s' [T' Hc]. wp_steps. right. exists T'. exact Hc.
Qed.

(** The pages the parent maps keep their contents. *)
Lemma cloned_bytes s root T child B s' T' va e k :
  space_ok s root T -> cloned s root T child B s' T' ->
  user_va va -> mapping hh s root va = Some e -> has PTE_NOPMM e = false -> 0 <= k < 4096 ->
  load8 (vm_mem s') (pte_addr e + hh + k) = load8 (vm_mem s) (pte_addr e + hh + k).
Proof.
  intros Hok Hc Hva Hm Hnp Hk. destruct (sp_owned _ _ _ Hok va e Hva Hm Hnp) as (n & Hv & Hnt & Hf & _).
  apply (cl_mem _ _ _ _ _ _ _ Hc).
  - intros p t Hp. destruct (as_frame _ _ _ _ (sp_wf _ _ _ Hok) _ _ Hp) as [Ht _].
    apply (in_page_apart (pte_addr e)); try done; [|unfold in_page; lia]. intros <-. by apply (Hnt p).
  - intros p t Hp. destruct (as_frame _ _ _ _ (cl_child_wf _ _ _ _ _ _ _ Hc) _ _ Hp) as [Ht _].
    apply (in_page_apart (pte_addr e)); try done; [|unfold in_page; lia].
    pose proof (cl_new _ _ _ _ _ _ _ Hc _ _ Hp). congruence.
Qed.

(** ** The theorems *)

(** C3: Fork's copy of an address space.  Either no page was free, and nothing was
    made; or the parent maps every user address to the page it had there, and
    the child maps it to the same page with the same rights, or does not map it at
    all, which happens only when the clone used up the last free page.  A page
    that was writable and private is read-only and copy-on-write in both spaces, any
    other page keeps its rights.  Every page of the page allocator that the parent
    maps has exactly one more reference, also one the child misses, and keeps
    its contents; the pages mapped with PTE_NOPMM and all others that were in use keep
    their count.  The kernel half of the child is the kernel's. *)
Theorem vmm_clone_user_pagetable_correct s root T kp :
  space_ok s root T -> room s root -> valid_frame kp -> frames (vm_pa s) kp <> None -> kernel_pml4 s = kp + hh ->
  wp (vmm_clone_user_pagetable hh root) (fun child s' =>
    (child = 0 /\ exhausted s /\ vm_mem s' = vm_mem s) \/
    exists T', as_wf hh s' root T /\ as_wf hh s' child T' /\
      (forall va, user_va va -> mapping hh s' root va = share <$> mapping hh s root va) /\
      (forall va, user_va va -> mapping hh s' child va = share <$> mapping hh s root va \/
        (mapping hh s' child va = None /\ exhausted s')) /\
      (forall va e n, user_va va -> mapping hh s root va = Some e -> has PTE_NOPMM e = false ->
        frames (vm_pa s) (pte_addr e) = Some n ->
        frames (vm_pa s') (pte_addr e) = Some (n + 1) /\
        forall k, 0 <= k < 4096 -> load8 (vm_mem s') (pte_addr e + hh + k) = load8 (vm_mem s) (pte_addr e + hh + k)) /\
      (forall q n, frames (vm_pa s) q = Some n ->
        (forall va e, user_va va -> mapping hh s root va = Some e -> has PTE_NOPMM e = false -> pte_addr e <> q) ->
        frames (vm_pa s') q = Some n) /\
      forall i, 256 <= i < 512 -> load64 (vm_mem s') (child + 8 * i) = load64 (vm_mem s) (kernel_pml4 s + 8 * i)) s.
Proof.
  intros Hok Hroom Hkv Hk Hkp. eapply wp_mono; [by apply (wp_vmm_clone s root T kp)|]. intros c s' [H0|[T' Hc]]; [by left|].
  right. exists T'. split_and!; try apply Hc.
  - intros va Hva. rewrite (cl_parent _ _ _ _ _ _ _ Hc) by done. unfold user_va in Hva. case_bools; done.
  - intros va Hva. destruct (cl_child _ _ _ _ _ _ _ Hc va Hva) as [->|?]; [left|by right].
    unfold user_va in Hva. case_bools; done.
  - intros va e n Hva Hm Hnp Hf. split; [by eapply (cl_counted _ _ _ _ _ _ _ Hc va); try done; destruct Hva|].
    intros k Hk'. by eapply cloned_bytes.
  - intros q n Hq Hno. apply (cl_others _ _ _ _ _ _ _ Hc q n Hq). intros va e Hva _. by apply Hno.
Qed.

(** The page a managed mapping of the child leads to. *)
Lemma cloned_owned s root T child s' T' va e n :
  space_ok s root T -> cloned s root T child 140737488355328 s' T' -> user_va va ->
  mapping hh s root va = Some e -> has PTE_NOPMM e = false -> frames (vm_pa s) (pte_addr e) = Some n -> 1 <= n ->
  owned s' T' (share e) (n + 1).
Proof.
  intros Hok Hc Hva Hm Hnp Hf Hn. destruct (mapping_range _ _ _ _ Hm) as [He Hp].
  destruct (share_spec e He Hp (sp_addr _ _ _ Hok va e Hva Hm)) as (_ & _ & Ea). unfold owned. rewrite Ea.
  destruct (sp_owned _ _ _ Hok va e Hva Hm Hnp) as (n' & Hv & _).
  split_and!; [done| |by eapply (cl_counted _ _ _ _ _ _ _ Hc va); try done; destruct Hva|lia].
  intros p Hp'. pose proof (cl_new _ _ _ _ _ _ _ Hc _ _ Hp'). congruence.
Qed.

Lemma cloned_root_ne s root T child B s' T' : cloned s root T child B s' T' -> child <> 0.
Proof.
  intros Hc. destruct (as_root _ _ _ _ (cl_child_wf _ _ _ _ _ _ _ Hc)) as (r & Hr & ->).
  destruct (as_frame _ _ _ _ (cl_child_wf _ _ _ _ _ _ _ Hc) _ _ Hr) as [[_ Hv] _]. destruct Hhh. lia.
Qed.

End clone.

(** ** An instance: a process with one writable page at 0x400000 *)

Definition fork_prog : M (vm pmm) (Z * Z) :=
  data <- pa fa_alloc ;;
  if data =? 0 then ret (0, 0) else
  root <- vmm_new_user_pagetable demo_hh ;;
  if root =? 0 then ret (0, 0) else
  vmm_map_page demo_hh root 0x400000 data 7 ;;
  ret (data, root).

Lemma single_page_ok (s : vm pmm) root T data :
  as_wf demo_hh s root T -> valid_frame data -> frames (vm_pa s) data = Some 1 -> (forall p, T !! p <> Some data) ->
  (forall va, user_va va -> va / 4096 <> 0x400000 / 4096 -> mapping demo_hh s root va = None) ->
  (mapping demo_hh s root 0x400000 = Some (Z.lor data 7) \/ mapping demo_hh s root 0x400000 = None) ->
  space_ok demo_hh s root T /\ room demo_hh s root /\
  forall va e, user_va va -> mapping demo_hh s root va = Some e -> has PTE_NOPMM e = false /\ has PTE_SHARED e = false.
Proof.
  intros Hwf [Hal Hv] Hf Hnt Hno Hyes.
  assert (Hva : user_va 0x400000) by (split; lia).
  assert (Hcase : forall va e, user_va va -> mapping demo_hh s root va = Some e ->
    va / 4096 = 0x400000 / 4096 /\ pte_addr e = data /\ e = Z.lor data 7).
  { intros va e Hua Hm. destruct (Z.eq_dec (va / 4096) (0x400000 / 4096)) as [E|E]; [|by rewrite Hno in Hm].
    split; [done|]. rewrite (mapping_page demo_hh s root va 0x400000) in Hm by done.
    destruct Hyes as [Hy|Hy]; rewrite Hy in Hm; [|done]. injection Hm as <-. split; [|done]. by apply pte_addr_lor; [|lia|]. }
  split; [split; [done| | |]|split].
  - intros va e Hua Hm. destruct (Hcase va e Hua Hm) as (_ & -> & _). lia.
  - intros va e Hua Hm _. destruct (Hcase va e Hua Hm) as (_ & E & _). exists 1. unfold owned. rewrite E. done.
  - intros va va' e e' Hua Hua' Hm Hm' _ _ _. destruct (Hcase va e Hua Hm), (Hcase va' e' Hua' Hm'). congruence.
  - intros va e n Hua Hm _. destruct (Hcase va e Hua Hm) as (_ & -> & _). rewrite Hf. intros [= <-]. lia.
  - intros va e Hua Hm. destruct (Hcase va e Hua Hm) as (_ & _ & ->). rewrite !has_lor by (done || lia). done.
Qed.

Lemma fork_prog_ok (s : vm pmm) (kp : Z) :
  fa_wf (vm_pa s) -> valid_frame kp -> frames (vm_pa s) kp = Some 1 -> kernel_pml4 s = kp + demo_hh ->
  wp fork_prog (fun r s' => fst r <> 0 -> exists T, space_ok demo_hh s' (snd r) T /\ room demo_hh s' (snd r) /\
    forall va e, user_va va -> mapping demo_hh s' (snd r) va = Some e -> has PTE_NOPMM e = false /\ has PTE_SHARED e = false) s.
Proof.
  intros Hwf Hk Hkf Hkp. unfold fork_prog. wp_steps. apply wp_pa. eapply wp_mono; [by apply fa_alloc_spec|].
  intros d x [Hx [(-> & _ & _)|(Hv & Hf & Hf' & Hox)]]; cbv beta; [wp_steps; intros Hn; by destruct Hn|].
  destruct (Z.eqb_spec d 0); [wp_steps; intros Hn; by destruct Hn|]. wp_steps.
  eapply wp_mono; [apply (wp_vmm_new_user_pagetable demo_hh demo_hh_ok _ kp); [done|done| |done]|].
  { cbn [vm_pa]. assert (kp <> d) by congruence. by rewrite Hox, Hkf. }
  intros r s1 [(-> & _)|(t & -> & Hft & Hwf1 & Hfr & _ & Hnone & _)]; [wp_steps; intros Hn; by destruct Hn|].
  destruct (Z.eqb_spec (t + demo_hh) 0); [wp_steps; intros Hn; by destruct Hn|]. wp_steps. cbn [vm_pa] in Hft, Hfr.
  assert (Hd1 : frames (vm_pa s1) d = Some 1) by (rewrite Hfr; [done|congruence]).
  eapply wp_mono; [apply (wp_vmm_map_page demo_hh demo_hh_ok _ _ {[ [] := t ]}); try done; destruct Hv; (done || lia)|].
  intros [] s2 (T & Hwf2 & [_ Htabs Hused _ _ _] & Hoth & Hnew). wp_steps. intros _. cbn [fst snd]. exists T.
  apply (single_page_ok s2 _ T d); try done.
  - by apply Hused.
  - intros p Hp. destruct (Htabs p d Hp) as [[_ E]%lookup_singleton_Some|E]; [rewrite E in Hft|]; congruence.
  - intros va Hva Hne. rewrite Hoth by done. by apply Hnone.
  - destruct Hnew as [->|[-> _]]; [by left|right]. apply Hnone. split; lia.
Qed.

Definition fork_run : Z * Z * vm pmm := default (0, 0, demo_vm) (fork_prog demo_vm).
Definition fork_root : Z := Eval vm_compute in snd (fst fork_run).
Definition fork_vm : vm pmm := snd fork_run.

Lemma fork_space : exists T, space_ok demo_hh fork_vm fork_root T /\ room demo_hh fork_vm fork_root /\
  forall va e, user_va va -> mapping demo_hh fork_vm fork_root va = Some e -> has PTE_NOPMM e = false /\ has PTE_SHARED e = false.
Proof.
  assert (Hr : fst (default (0, 0, demo_vm) (fork_prog demo_vm)) = (8192, fork_root)) by (vm_compute; reflexivity).
  pose proof (wp_outcome fork_prog _ demo_vm (0, 0, demo_vm) _ (fork_prog_ok demo_vm 4096
    demo_pmm1_wf demo_kernel_frame demo_pmm1_kernel_page eq_refl) Hr) as H.
  refine (H _). intros E. discriminate E.
Qed.
Lemma fork_mapping : mapping demo_hh fork_vm fork_root 0x400000 = Some 8199.
Proof. vm_compute. reflexivity. Qed.
Lemma fork_kernel : kernel_pml4 fork_vm = 4096 + demo_hh.
Proof. vm_compute. reflexivity. Qed.
Lemma fork_kernel_used : frames (vm_pa fork_vm) 4096 <> None.
Proof. vm_compute. intros E. discriminate E. Qed.

#[local] Opaque fork_vm vmm_clone_user_pagetable.

Lemma vmm_clone_user_pagetable_correct_witness :
  wp (vmm_clone_user_pagetable demo_hh fork_root) (fun child s' =>
    child <> 0 -> mapping demo_hh s' fork_root 0x400000 = Some (share 8199)) fork_vm.
Proof.
  destruct fork_space as (T & Hok & Hroom & _).
  eapply wp_mono; [exact (vmm_clone_user_pagetable_correct demo_hh demo_hh_ok fork_vm fork_root T 4096
    Hok Hroom demo_kernel_frame fork_kernel_used fork_kernel)|].
  intros c s' [(E & _)|(T' & _ & _ & Hp & _)] Hc; [by destruct Hc|].
  rewrite (Hp 0x400000) by (split; lia). by rewrite fork_mapping.
Defined.
