(* ===== verification/DestroySpace.v ===== *)
(** * Tearing an address space down

    [vmm_destroy_user_pagetable] (vmm.c) drops one reference to every managed page
    and gives every page-table page of the user half back. *)

From S2P Require Import Prelude Mem CString FrameAlloc Pmm Vmm PageTable AddressSpace CloneSpace.

(** The end of the addresses a table translates. *)
Definition end_of (p : list Z) : Z :=
  match p with
  | [] => 140737488355328
  | [a] => va_at (a + 1) 0 0 0
  | [a; b] => va_at a (b + 1) 0 0
  | [a; b; c] => va_at a b (c + 1) 0
  | _ => 0
  end.

(** A table that ends inside the addresses of another one is above or below it. *)
Lemma end_between_pt q a b c : proper q -> proper [a; b; c] ->
  va_at a b c 0 < end_of q <= va_at a b (c + 1) 0 -> q `prefix_of` [a; b; c].
Proof.
  intros Hq (Ha & Hb & Hc). destruct q as [|x [|y [|z [|]]]]; cbn [proper end_of] in *; try done.
  - intros _. apply prefix_nil.
  - unfold va_at. intros H. assert (x = a) as -> by lia. by exists [b; c].
  - unfold va_at. intros H. assert (x = a) as -> by lia. assert (y = b) as -> by lia. by exists [c].
  - unfold va_at. intros H. assert (x = a) as -> by lia. assert (y = b) as -> by lia. by assert (z = c) as -> by lia.
Qed.
Lemma end_between_pd q a b : proper q -> proper [a; b] ->
  va_at a b 0 0 < end_of q <= va_at a (b + 1) 0 0 -> q `prefix_of` [a; b] \/ [a; b] `prefix_of` q.
Proof.
  intros Hq (Ha & Hb). destruct q as [|x [|y [|z [|]]]]; cbn [proper end_of] in *; try done.
  - intros _. left. apply prefix_nil.
  - unfold va_at. intros H. assert (x = a) as -> by lia. left. by exists [b].
  - unfold va_at. intros H. assert (x = a) as -> by lia. assert (y = b) as -> by lia. by left.
  - unfold va_at. intros H. assert (x = a) as -> by lia. assert (y = b) as -> by lia. right. by exists [z].
Qed.
Lemma end_between_pdpt q a : proper q -> proper [a] ->
  va_at a 0 0 0 < end_of q <= va_at (a + 1) 0 0 0 -> q `prefix_of` [a] \/ [a] `prefix_of` q.
Proof.
  intros Hq Ha. destruct q as [|x [|y [|z [|]]]]; cbn [proper end_of] in *; try done.
  - intros _. left. apply prefix_nil.
  - unfold va_at. intros H. assert (x = a) as -> by lia. by left.
  - unfold va_at. intros H. assert (x = a) as -> by lia. right. by exists [y].
  - unfold va_at. intros H. assert (x = a) as -> by lia. right. by exists [y; z].
Qed.

Definition less (n : Z) : option Z := if n =? 1 then None else Some (n - 1).

Section destroy.
Context {S : Type} `{FA : FrameAlloc S} (hh : Z) (Hhh : hhdm_ok hh).
Context (s0 : vm S) (root : Z) (T : tables).
Hypothesis Hok : space_ok hh s0 root T.
Let m0 va := mapping hh s0 root va.
Let Hwf : as_wf hh s0 root T := sp_wf _ _ _ _ Hok.

(** The pages below [B] have lost a reference and the tables [F] are free. *)
Record gone (F : list Z -> Prop) (B : Z) (s : vm S) : Prop := {
  go_mem : vm_mem s = vm_mem s0;
  go_kernel : kernel_pml4 s = kernel_pml4 s0;
  go_wf : fa_wf (vm_pa s);
  go_page : forall va e n, user_va va -> va < B -> m0 va = Some e -> has PTE_NOPMM e = false ->
    frames (vm_pa s0) (pte_addr e) = Some n -> frames (vm_pa s) (pte_addr e) = less n;
  go_table : forall p t, F p -> T !! p = Some t -> frames (vm_pa s) t = None;
  go_other : forall q,
    (forall va e, user_va va -> va < B -> m0 va = Some e -> has PTE_NOPMM e = false -> pte_addr e <> q) ->
    (forall p, F p -> T !! p <> Some q) -> frames (vm_pa s) q = frames (vm_pa s0) q;
}.

(** The tables that are free when the walk, inside the table [p], is at [B]. *)
Definition passed (p : list Z) (B : Z) (q : list Z) : Prop :=
  proper q /\ end_of q <= B /\ ~ q `prefix_of` p.

Lemma gone_ext F F' B B' s :
  gone F B s -> B <= B' -> (forall va, user_va va -> B <= va < B' -> m0 va = None) ->
  (forall p t, T !! p = Some t -> F p <-> F' p) -> gone F' B' s.
Proof.
  intros [H1 H2 H3 H4 H5 H6] HB Hn HF. split; try done.
  - intros va e n Hva Hlt Hm. apply (H4 va); [done| |done].
    destruct (Z.lt_ge_cases va B); [done|]. rewrite Hn in Hm by (done || lia). done.
  - intros p t Hp Ht. apply (H5 p); [|done]. by apply (HF p t).
  - intros q Hq1 Hq2. apply H6.
    + intros va e Hva Hlt. apply (Hq1 va e); [done|lia].
    + intros p Hp Ht. apply (Hq2 p); [|done]. by apply (HF p q).
Qed.

(** A page that the walk has not reached yet has its old count. *)
Lemma gone_pending F B s va e : gone F B s -> user_va va -> B <= va -> B mod 4096 = 0 -> m0 va = Some e ->
  has PTE_NOPMM e = false ->
  exists n, valid_frame (pte_addr e) /\ frames (vm_pa s0) (pte_addr e) = Some n /\
    frames (vm_pa s) (pte_addr e) = Some n /\ 1 <= n.
Proof.
  intros Hg Hva HB Hal Hm Hnp. destruct (sp_owned _ _ _ _ Hok va e Hva Hm Hnp) as (n & Hv & Hnt & Hf & H1).
  exists n. split_and!; try done. rewrite <- Hf. apply (go_other _ _ _ Hg).
  - intros va' e' Hva' Hlt Hm' Hnp' E. pose proof (sp_once _ _ _ _ Hok va' va e' e Hva' Hva Hm' Hm Hnp' Hnp E). lia.
  - intros p _. apply Hnt.
Qed.

(** Giving a table back. *)
Lemma wp_free_table F B s p t (Q : unit -> vm S -> Prop) :
  gone F B s -> T !! p = Some t -> ~ F p ->
  (forall s', gone (fun q => F q \/ q = p) B s' -> Q tt s') ->
  wp (pa (fa_free t)) Q s.
Proof.
  intros Hg Ht Hp HQ. destruct (as_frame _ _ _ _ Hwf _ _ Ht) as [Hv Hf].
  assert (Hs : frames (vm_pa s) t = Some 1).
  { rewrite <- Hf. apply (go_other _ _ _ Hg).
    - intros va e Hva _ Hm Hnp <-. destruct (sp_owned _ _ _ _ Hok va e Hva Hm Hnp) as (n & _ & Hnt & _). by apply (Hnt p).
    - intros q Hq Hqt. by rewrite (as_inj _ _ _ _ Hwf p q t Ht Hqt) in Hp. }
  apply wp_pa. eapply wp_mono; [by apply (fa_free_spec _ _ 1); [apply (go_wf _ _ _ Hg)| | |]|].
  intros [] x (Hx & Hxt & Hxo). apply HQ. destruct Hg as [H1 H2 H3 H4 H5 H6]. split; try done.
  - intros va e n Hva Hlt Hm Hnp Hn. cbn [vm_pa]. rewrite Hxo; [by eapply H4|]. intros <-.
    destruct (sp_owned _ _ _ _ Hok va e Hva Hm Hnp) as (k & _ & Hnt & _). by apply (Hnt p).
  - intros q u Hq Hu. cbn [vm_pa]. destruct (Z.eq_dec u t) as [->|]; [done|]. rewrite Hxo by done.
    destruct Hq as [Hq| ->]; [by eapply H5|]. congruence.
  - intros q Hq1 Hq2. cbn [vm_pa]. rewrite Hxo.
    + apply H6; [done|]. intros p' Hp'. apply Hq2. by left.
    + intros ->. apply (Hq2 p); [by right|done].
Qed.

Lemma prefix_snoc (q p : list Z) i : q `prefix_of` p ++ [i] -> q = p ++ [i] \/ q `prefix_of` p.
Proof.
  intros [k E]. destruct k as [|x k _] using rev_ind; [left; by rewrite app_nil_r in E|right].
  rewrite app_assoc in E. apply app_inj_tail in E as [-> _]. by exists k.
Qed.

(** Entering a table, and leaving it for good. *)
Lemma passed_enter p i B q : B < end_of (p ++ [i]) -> passed p B q <-> passed (p ++ [i]) B q.
Proof.
  intros HB. unfold passed. split; intros (H1 & H2 & H3); split_and!; try done; intros Hq; apply H3.
  - apply prefix_snoc in Hq as [->|?]; [lia|done].
  - by apply prefix_app_r.
Qed.
Lemma passed_leave p i q : proper (p ++ [i]) ->
  (passed (p ++ [i]) (end_of (p ++ [i])) q \/ q = p ++ [i]) <-> passed p (end_of (p ++ [i])) q.
Proof.
  intros Hp. unfold passed. split.
  - intros [(H1 & H2 & H3)| ->]; split_and!; try done.
    + intros Hq. by apply H3, prefix_app_r.
    + intros Hq%prefix_length. rewrite length_app in Hq. cbn in Hq. lia.
  - intros (H1 & H2 & H3). destruct (decide (q = p ++ [i])) as [->|Hne]; [by right|left].
    split_and!; try done. intros [->|?]%prefix_snoc; done.
Qed.

Lemma wp_destroy_leaf F i4 i3 i2 i1 s t :
  0 <= i4 < 256 -> 0 <= i3 < 512 -> 0 <= i2 < 512 -> 0 <= i1 < 512 ->
  gone F (va_at i4 i3 i2 i1) s -> T !! [i4; i3; i2] = Some t ->
  wp (destroy_leaf (t + hh) i1) (fun _ s' => gone F (va_at i4 i3 i2 (i1 + 1)) s') s.
Proof.
  intros H4 H3 H2 H1 Hg Ht. set (B := va_at i4 i3 i2 i1) in *.
  assert (HB : user_va B) by (by apply va_at_user).
  assert (Hal : B mod 4096 = 0) by (unfold B, va_at; lia).
  replace (va_at i4 i3 i2 (i1 + 1)) with (B + 4096) by (unfold B, va_at; lia).
  destruct (va_at_indices i4 i3 i2 i1 0 H4 H3 H2 H1 ltac:(lia)) as (E4 & E3 & E2 & E1).
  rewrite Z.add_0_r in E4, E3, E2, E1. fold B in E4, E3, E2, E1.
  assert (Ht' : T !! [pml4_index B; pdpt_index B; pd_index B] = Some t) by (by rewrite E4, E3, E2).
  pose proof (mapping_leaf hh Hhh s0 root T B t Hwf HB Ht') as Hleaf. cbv zeta in Hleaf. rewrite E1 in Hleaf.
  assert (Hpage : forall va, user_va va -> B <= va < B + 4096 -> m0 va = m0 B).
  { intros va Hva Hr. apply mapping_page; [done|done|lia]. }
  unfold destroy_leaf, pt_load. wp_steps. rewrite (go_mem _ _ _ Hg).
  set (e := load64 (vm_mem s0) (t + hh + 8 * i1)) in *. fold (m0 B) in Hleaf.
  destruct (present e) eqn:Ep; cbn [andb].
  2:{ wp_steps. eapply gone_ext; [exact Hg|lia| |done]. intros va Hva Hr. by rewrite Hpage. }
  destruct (has PTE_NOPMM e) eqn:Hnp; cbn [negb].
  - wp_steps. destruct Hg as [G1 G2 G3 G4 G5 G6]. split; try done.
    + intros va e' n Hva Hlt Hm Hnp'. destruct (Z.lt_ge_cases va B); [by apply (G4 va)|].
      rewrite Hpage, Hleaf in Hm by (done || lia). congruence.
    + intros q Hq. apply G6. intros va e' Hva Hlt. apply (Hq va); [done|lia].
  - destruct (gone_pending F B s B e Hg HB ltac:(lia) Hal Hleaf Hnp) as (n & Hv & Hf0 & Hf & Hn).
    apply wp_pa. eapply wp_mono; [by apply (fa_free_spec _ _ n); [apply (go_wf _ _ _ Hg)| | |]|].
    intros [] x (Hx & Hxe & Hxo). destruct Hg as [G1 G2 G3 G4 G5 G6].
    assert (Hne : forall va e', user_va va -> va < B -> m0 va = Some e' -> has PTE_NOPMM e' = false -> pte_addr e' <> pte_addr e).
    { intros va e' Hva Hlt Hm Hnp' E. pose proof (sp_once _ _ _ _ Hok va B e' e Hva HB Hm Hleaf Hnp' Hnp E). lia. }
    split; try done; cbn [vm_pa].
    + intros va e' k Hva Hlt Hm Hnp' Hk. destruct (Z.lt_ge_cases va B); [rewrite Hxo by eauto; by apply (G4 va)|].
      rewrite Hpage, Hleaf in Hm by (done || lia). injection Hm as <-. rewrite Hf0 in Hk. by injection Hk as <-.
    + intros p u Hp Hu. rewrite Hxo; [by apply (G5 p)|]. intros ->.
      destruct (sp_owned _ _ _ _ Hok B e HB Hleaf Hnp) as (k & _ & Hnt & _). by apply (Hnt p).
    + intros q Hq1 Hq2. rewrite Hxo.
      * apply G6; [|done]. intros va e' Hva Hlt. apply (Hq1 va); [done|lia].
      * intros ->. by apply (Hq1 B e HB ltac:(lia) Hleaf Hnp).
Qed.

(** The child of an inner table: absent, or a table. *)
Lemma gone_entry F B s p t i : gone F B s -> T !! p = Some t -> (length p < 3)%nat -> idx p i ->
  (present (load64 (vm_mem s) (t + hh + 8 * i)) = false /\ T !! (p ++ [i]) = None) \/
  (present (load64 (vm_mem s) (t + hh + 8 * i)) = true /\
   T !! (p ++ [i]) = Some (pte_addr (load64 (vm_mem s) (t + hh + 8 * i))) /\
   valid_frame (pte_addr (load64 (vm_mem s) (t + hh + 8 * i)))).
Proof.
  intros Hg Hp Hl Hi. rewrite (go_mem _ _ _ Hg). pose proof (as_entry _ _ _ _ Hwf p t i Hp Hl Hi) as E. unfold entry in E.
  destruct (present _); [right|by left]. split_and!; [done|done|]. by apply (as_frame _ _ _ _ Hwf _ _ E).
Qed.

(** A subtree that is not there is passed without a change. *)
Lemma gone_absent p c B B' s :
  gone (passed p B) B s -> B <= B' -> T !! c = None ->
  (forall va, user_va va -> B <= va < B' -> m0 va = None) ->
  (forall q, proper q -> B < end_of q <= B' -> q `prefix_of` p \/ c `prefix_of` q) ->
  gone (passed p B') B' s.
Proof.
  intros Hg HB Hc Hn Hq. eapply gone_ext; [exact Hg|done|done|]. intros q t Ht. unfold passed.
  split; intros (H1 & H2 & H3); split_and!; try done; [lia|].
  destruct (Z.le_gt_cases (end_of q) B) as [|Hgt]; [done|].
  destruct (Hq q H1 ltac:(lia)) as [?|[k ->]]; [done|]. exfalso.
  assert (Hpre : forall k t', T !! (c ++ k) = Some t' -> exists u, T !! c = Some u).
  { clear -Hwf. induction k as [|x k IH] using rev_ind; intros t' E; [rewrite app_nil_r in E; eauto|].
    rewrite app_assoc in E. destruct (as_prefix _ _ _ _ Hwf _ _ _ E) as [u Hu]. by eapply IH. }
  destruct (Hpre k t Ht) as [u Hu]. congruence.
Qed.

(** The table behind an entry: its loop, then the table itself. *)
Lemma wp_destroy_table p i B t s (loop : M (vm S) unit) (tab : Z) :
  proper (p ++ [i]) -> T !! (p ++ [i]) = Some t -> B < end_of (p ++ [i]) ->
  gone (passed p B) B s ->
  (forall s, gone (passed (p ++ [i]) B) B s -> 
    wp loop (fun _ s' => gone (passed (p ++ [i]) (end_of (p ++ [i]))) (end_of (p ++ [i])) s') s) ->
  (forall s : vm S, vm_mem s = vm_mem s0 -> pte_addr (load64 (vm_mem s) (tab + 8 * i)) = t) ->
  wp (loop ;; e <- pt_load tab i ;; pa (fa_free (pte_addr e)))
    (fun _ s' => gone (passed p (end_of (p ++ [i]))) (end_of (p ++ [i])) s') s.
Proof.
  intros Hp Ht HB Hg Hloop He. wp_step. eapply wp_mono; [apply Hloop|].
  { eapply gone_ext; [exact Hg|lia|lia|]. intros q u _. by apply passed_enter. }
  intros [] s' Hg'. unfold pt_load. wp_steps. rewrite He by apply (go_mem _ _ _ Hg').
  apply (wp_free_table (passed (p ++ [i]) (end_of (p ++ [i]))) (end_of (p ++ [i])) s' (p ++ [i]) t); [done|done| |].
  - intros (_ & _ & Hno). by apply Hno.
  - intros s2 Hg2. eapply gone_ext; [exact Hg2|lia|lia|]. intros q u _. by apply passed_leave.
Qed.

Lemma wp_destroy_pt i4 i3 i2 s pd :
  0 <= i4 < 256 -> 0 <= i3 < 512 -> 0 <= i2 < 512 -> T !! [i4; i3] = Some pd ->
  gone (passed [i4; i3] (va_at i4 i3 i2 0)) (va_at i4 i3 i2 0) s ->
  wp (destroy_pt hh (pd + hh) i2) (fun _ s' =>
    gone (passed [i4; i3] (va_at i4 i3 (i2 + 1) 0)) (va_at i4 i3 (i2 + 1) 0) s') s.
Proof.
  intros H4 H3 H2 Hpd Hg. set (B := va_at i4 i3 i2 0) in *. set (B' := va_at i4 i3 (i2 + 1) 0).
  assert (HB : B < B') by (unfold B, B', va_at; lia).
  unfold destroy_pt. wp_step. unfold pt_load at 1. wp_step.
  destruct (gone_entry _ _ s _ pd i2 Hg Hpd ltac:(simpl; lia) H2) as [[-> Hn]|(-> & Ht & Hv)]; cbn [negb app] in *.
  - wp_steps. eapply (gone_absent _ [i4; i3; i2] B); [done|lia|done| |].
    + intros va Hva Hr. destruct (m0 va) eqn:Em; [|done].
      destruct (mapped_tables hh Hhh s0 root T Hok va Hva) as (_ & _ & Hx); [unfold m0 in Em; by rewrite Em|].
      assert (E : pml4_index va = i4 /\ pdpt_index va = i3 /\ pd_index va = i2)
        by (rewrite pml4_index_eq, pdpt_index_eq, pd_index_eq; unfold B, B', va_at, user_va in *; lia).
      destruct E as (E4 & E3 & E2). by rewrite E4, E3, E2 in Hx.
    + intros q Hq Hr. pose proof (end_between_pt q i4 i3 i2 Hq ltac:(done) Hr) as Hpre.
      apply (prefix_snoc q [i4; i3] i2) in Hpre as [->|?]; [by right|by left].
  - rewrite (valid_frame_p2v hh Hhh _ Hv). set (t := pte_addr _) in *.
    apply (wp_destroy_table [i4; i3] i2 B t s); try done.
    + intros s1 Hg1. cbn [app] in Hg1. cbn [app end_of]. fold B'.
      eapply wp_mono; [apply (wp_for_range (fun i s => gone (passed [i4; i3; i2] B) (va_at i4 i3 i2 i) s))|].
      * done.
      * intros i s' Hi Hg'. by apply (wp_destroy_leaf _ i4 i3 i2 i s' t).
      * intros [] s' Hg'. replace (va_at i4 i3 i2 (0 + Z.of_nat 512)) with B' in Hg' by (unfold B', va_at; lia).
        eapply gone_ext; [exact Hg'|lia|lia|]. intros q u _. unfold passed.
        split; intros (G1 & G2 & G3); split_and!; try done; [lia|].
        destruct (Z.le_gt_cases (end_of q) B); [done|]. destruct G3. apply end_between_pt; [done|done|]. fold B B'. lia.
    + intros s1 E1. unfold t. by rewrite E1, (go_mem _ _ _ Hg).
Qed.

Lemma wp_destroy_pd i4 i3 s pdpt :
  0 <= i4 < 256 -> 0 <= i3 < 512 -> T !! [i4] = Some pdpt ->
  gone (passed [i4] (va_at i4 i3 0 0)) (va_at i4 i3 0 0) s ->
  wp (destroy_pd hh (pdpt + hh) i3) (fun _ s' =>
    gone (passed [i4] (va_at i4 (i3 + 1) 0 0)) (va_at i4 (i3 + 1) 0 0) s') s.
Proof.
  intros H4 H3 Hpd Hg. set (B := va_at i4 i3 0 0) in *. set (B' := va_at i4 (i3 + 1) 0 0).
  assert (HB : B < B') by (unfold B, B', va_at; lia).
  unfold destroy_pd. wp_step. unfold pt_load at 1. wp_step.
  destruct (gone_entry _ _ s _ pdpt i3 Hg Hpd ltac:(simpl; lia) H3) as [[-> Hn]|(-> & Ht & Hv)]; cbn [negb app] in *.
  - wp_steps. eapply (gone_absent _ [i4; i3] B); [done|lia|done| |].
    + intros va Hva Hr. destruct (m0 va) eqn:Em; [|done].
      destruct (mapped_tables hh Hhh s0 root T Hok va Hva) as (_ & Hx & _); [unfold m0 in Em; by rewrite Em|].
      assert (E : pml4_index va = i4 /\ pdpt_index va = i3)
        by (rewrite pml4_index_eq, pdpt_index_eq; unfold B, B', va_at, user_va in *; lia).
      destruct E as (E4 & E3). by rewrite E4, E3 in Hx.
    + intros q Hq Hr. destruct (end_between_pd q i4 i3 Hq ltac:(done) Hr) as [Hpre|?]; [|by right].
      apply (prefix_snoc q [i4] i3) in Hpre as [->|?]; [by right|by left].
  - rewrite (valid_frame_p2v hh Hhh _ Hv). set (t := pte_addr _) in *.
    apply (wp_destroy_table [i4] i3 B t s); try done.
    + intros s1 Hg1. cbn [app] in Hg1. cbn [app end_of]. fold B'.
      replace B' with (va_at i4 i3 (0 + Z.of_nat 512) 0) by (unfold B', va_at; lia).
      apply (wp_for_range (fun i s => gone (passed [i4; i3] (va_at i4 i3 i 0)) (va_at i4 i3 i 0) s)); [done|].
      intros i s' Hi Hg'. by apply (wp_destroy_pt i4 i3 i s' t).
    + intros s1 E1. unfold t. by rewrite E1, (go_mem _ _ _ Hg).
Qed.

Lemma wp_destroy_pdpt i4 s r :
  0 <= i4 < 256 -> T !! [] = Some r ->
  gone (passed [] (va_at i4 0 0 0)) (va_at i4 0 0 0) s ->
  wp (destroy_pdpt hh (r + hh) i4) (fun _ s' =>
    gone (passed [] (va_at (i4 + 1) 0 0 0)) (va_at (i4 + 1) 0 0 0) s') s.
Proof.
  intros H4 Hpd Hg. set (B := va_at i4 0 0 0) in *. set (B' := va_at (i4 + 1) 0 0 0).
  assert (HB : B < B') by (unfold B, B', va_at; lia).
  unfold destroy_pdpt. wp_step. unfold pt_load at 1. wp_step.
  destruct (gone_entry _ _ s _ r i4 Hg Hpd ltac:(simpl; lia) H4) as [[-> Hn]|(-> & Ht & Hv)]; cbn [negb app] in *.
  - wp_steps. eapply (gone_absent _ [i4] B); [done|lia|done| |].
    + intros va Hva Hr. destruct (m0 va) eqn:Em; [|done].
      destruct (mapped_tables hh Hhh s0 root T Hok va Hva) as (Hx & _); [unfold m0 in Em; by rewrite Em|].
      assert (E4 : pml4_index va = i4) by (rewrite pml4_index_eq; unfold B, B', va_at, user_va in *; lia).
      by rewrite E4 in Hx.
    + intros q Hq Hr. destruct (end_between_pdpt q i4 Hq ltac:(done) Hr) as [Hpre|?]; [|by right].
      apply (prefix_snoc q [] i4) in Hpre as [->|?]; [by right|by left].
  - rewrite (valid_frame_p2v hh Hhh _ Hv). set (t := pte_addr _) in *.
    apply (wp_destroy_table [] i4 B t s); try done.
    + intros s1 Hg1. cbn [app] in Hg1. cbn [app end_of]. fold B'.
      replace B' with (va_at i4 (0 + Z.of_nat 512) 0 0) by (unfold B', va_at; lia).
      apply (wp_for_range (fun i s => gone (passed [i4] (va_at i4 i 0 0)) (va_at i4 i 0 0) s)); [done|].
      intros i s' Hi Hg'. by apply (wp_destroy_pd i4 i s' t).
    + intros s1 E1. unfold t. by rewrite E1, (go_mem _ _ _ Hg).
Qed.

Lemma gone_start : gone (passed [] 0) 0 s0.
Proof.
  split; try done.
  - apply (as_pa _ _ _ _ Hwf).
  - intros va e n Hva. unfold user_va in Hva. lia.
  - intros p t (Hp & He & _). exfalso.
    destruct p as [|x [|y [|z [|]]]]; cbn [proper end_of] in *; unfold va_at in *; try done; lia.
Qed.

Lemma wp_vmm_destroy :
  wp (vmm_destroy_user_pagetable hh root) (fun _ s' => gone proper 140737488355328 s') s0.
Proof.
  destruct (as_root _ _ _ _ Hwf) as (r & Hr & Er). destruct (as_frame _ _ _ _ Hwf _ _ Hr) as [[Hal Hv] _].
  pose proof Hhh as (Hh0 & _ & Hh1). unfold vmm_destroy_user_pagetable. rewrite Er.
  destruct (Z.eqb_spec (r + hh) 0) as [|_]; [lia|]. wp_step.
  eapply wp_mono; [apply (wp_for_range (fun i s => gone (passed [] (va_at i 0 0 0)) (va_at i 0 0 0) s))|].
  - exact gone_start.
  - intros i s Hi Hg. by apply wp_destroy_pdpt.
  - intros [] s Hg. replace (v2p hh (r + hh)) with r by (unfold v2p; replace (r + hh - hh) with r by lia; rewrite u64_small; lia).
    change (va_at (0 + Z.of_nat 256) 0 0 0) with 140737488355328 in Hg.
    apply (wp_free_table (passed [] 140737488355328) 140737488355328 s [] r); [done|done| |].
    + intros (_ & _ & Hno). by apply Hno.
    + intros s2 Hg2. eapply gone_ext; [exact Hg2|lia|lia|]. intros q t _. unfold passed. split.
      * by intros [(? & _)| ->].
      * intros Hq. destruct q as [|x q]; [by right|left]. split_and!; [done| |intros [k Hk]; done].
        destruct q as [|y [|z [|]]]; cbn [proper end_of] in *; unfold va_at in *; try done; lia.
Qed.
End destroy.

Section theorems.
Context {S : Type} `{FA : FrameAlloc S} (hh : Z) (Hhh : hhdm_ok hh).
Implicit Types (s : vm S) (T : tables).

(** C23: Tearing an address space down frees every page-table page of it, drops
    exactly one reference to every managed page it maps (the last one frees the
    page), and leaves every other page and all of memory alone. *)
Theorem vmm_destroy_user_pagetable_correct s root T :
  space_ok hh s root T ->
  wp (vmm_destroy_user_pagetable hh root) (fun _ s' => vm_mem s' = vm_mem s /\
    (forall p t, T !! p = Some t -> frames (vm_pa s') t = None) /\
    (forall va e n, user_va va -> mapping hh s root va = Some e -> has PTE_NOPMM e = false ->
      frames (vm_pa s) (pte_addr e) = Some n ->
      frames (vm_pa s') (pte_addr e) = if n =? 1 then None else Some (n - 1)) /\
    (forall q, (forall p, T !! p <> Some q) ->
      (forall va e, user_va va -> mapping hh s root va = Some e -> has PTE_NOPMM e = false -> pte_addr e <> q) ->
      frames (vm_pa s') q = frames (vm_pa s) q)) s.
Proof.
  intros Hok. eapply wp_mono; [by apply (wp_vmm_destroy hh Hhh s root T)|]. intros [] s' [H1 _ _ H4 H5 H6].
  split_and!; [done| | |].
  - intros p t Hp. apply (H5 p); [|done]. by apply (as_proper _ _ _ _ (sp_wf _ _ _ _ Hok) p t).
  - intros va e n Hva. apply (H4 va); [done|]. by destruct Hva.
  - intros q Hq1 Hq2. apply H6; [|done]. intros va e Hva _. by apply Hq2.
Qed.

Lemma mapped_share s root T va e :
  space_ok hh s root T -> user_va va -> mapping hh s root va = Some e ->
  pte_addr (share e) = pte_addr e /\ has PTE_NOPMM (share e) = has PTE_NOPMM e /\ 0 <= pte_addr e < 70368744177664.
Proof.
  intros Hok Hva He. destruct (mapping_range _ _ _ _ _ He) as [Hr Hp]. pose proof (sp_addr _ _ _ _ Hok va e Hva He) as Ha.
  destruct (share_spec e Hr Hp Ha) as (_ & _ & E). split; [done|]. split; [|done].
  destruct (shared_flags_spec e Hr Hp) as (_ & _ & En). unfold share. by rewrite has_lor by (done || apply pte_addr_aligned).
Qed.

(** A complete copy is an address space of its own. *)
Lemma cloned_space_ok s root T child s1 T1 :
  space_ok hh s root T -> cloned hh s root T child 140737488355328 s1 T1 -> ~ exhausted s1 ->
  space_ok hh s1 child T1 /\
  forall va e', user_va va -> mapping hh s1 child va = Some e' <->
    exists e, mapping hh s root va = Some e /\ e' = share e.
Proof.
  intros Hok Hc Hex.
  assert (Hm : forall va e', user_va va -> mapping hh s1 child va = Some e' <->
    exists e, mapping hh s root va = Some e /\ e' = share e).
  { intros va e' Hva. destruct (cl_child _ _ _ _ _ _ _ _ Hc va Hva) as [->|[_ ?]]; [|done].
    unfold user_va in Hva. destruct (Z.ltb_spec va 140737488355328); [|lia].
    destruct (mapping hh s root va) as [e|]; cbn; split; intros E; try by destruct E as (? & ? & _).
    - injection E as <-. eauto.
    - destruct E as (? & [= <-] & ->). done.
    - done. }
  assert (Hsh := fun va e => mapped_share s root T va e Hok).
  split; [split|done].
  - apply (cl_child_wf _ _ _ _ _ _ _ _ Hc).
  - intros va e' Hva (e & He & ->)%Hm; [|done]. destruct (Hsh va e Hva He) as (-> & _ & ?). done.
  - intros va e' Hva (e & He & ->)%Hm; [|done]. destruct (Hsh va e Hva He) as (_ & -> & _). intros Hnp.
    destruct (sp_owned _ _ _ _ Hok va e Hva He Hnp) as (n & _ & _ & Hf & Hn). exists (n + 1).
    by apply (cloned_owned hh s root T child s1 T1 va e n).
  - intros va va' e1 e2 Hva Hva' (e & He & ->)%Hm (e' & He' & ->)%Hm; try done.
    destruct (Hsh va e Hva He) as (-> & -> & _). destruct (Hsh va' e' Hva' He') as (-> & -> & _).
    by apply (sp_once _ _ _ _ Hok).
Qed.

(** A page of the copy: its count is back to what it was before the fork. *)
Lemma restored_page s root T c s1 T1 s2 va e' :
  space_ok hh s root T -> cloned hh s root T c 140737488355328 s1 T1 ->
  (forall va e', user_va va -> mapping hh s1 c va = Some e' <->
    exists e, mapping hh s root va = Some e /\ e' = share e) ->
  gone hh s1 c T1 proper 140737488355328 s2 ->
  user_va va -> mapping hh s1 c va = Some e' -> has PTE_NOPMM e' = false ->
  frames (vm_pa s2) (pte_addr e') = frames (vm_pa s) (pte_addr e').
Proof.
  intros Hok Hc Hm Hg Hva He' Hnp. pose proof He' as (e & He & ->)%Hm; [|done].
  destruct (mapped_share s root T va e Hok Hva He) as (Ea & En & _). rewrite En in Hnp.
  destruct (sp_owned _ _ _ _ Hok va e Hva He Hnp) as (n & _ & _ & Hf & Hn).
  rewrite (go_page _ _ _ _ _ _ _ Hg va (share e) (n + 1)), Ea, Hf; try done.
  - unfold less. destruct (Z.eqb_spec (n + 1) 1); [lia|]. f_equal. lia.
  - by destruct Hva.
  - congruence.
  - rewrite Ea. by eapply (cl_counted _ _ _ _ _ _ _ _ Hc va); try done; destruct Hva.
Qed.

(** C24: Fork and exit do not leak: after copying an address space (with memory
    left) and tearing the copy down, every physical page has the reference count
    it had before the fork. *)
Theorem fork_exit_restores s root T kp :
  space_ok hh s root T -> room hh s root -> valid_frame kp -> frames (vm_pa s) kp <> None ->
  kernel_pml4 s = kp + hh ->
  wp (vmm_clone_user_pagetable hh root) (fun child s1 => child <> 0 -> ~ exhausted s1 ->
    wp (vmm_destroy_user_pagetable hh child) (fun _ s2 =>
      forall q, frames (vm_pa s2) q = frames (vm_pa s) q) s1) s.
Proof.
  intros Hok Hroom Hkv Hk Hkp. eapply wp_mono; [by apply (wp_vmm_clone hh Hhh s root T kp)|].
  intros c s1 [(-> & _)|[T1 Hc]] Hne Hex; [done|].
  destruct (cloned_space_ok s root T c s1 T1 Hok Hc Hex) as [Hok1 Hm].
  eapply wp_mono; [by apply (wp_vmm_destroy hh Hhh s1 c T1)|]. intros [] s2 Hg q.
  destruct (decide (frames (vm_pa s2) q = frames (vm_pa s) q)) as [|Hbad]; [done|]. exfalso.
  assert (Hnp : forall va e', user_va va -> va < 140737488355328 -> mapping hh s1 c va = Some e' ->
    has PTE_NOPMM e' = false -> pte_addr e' <> q).
  { intros va e' Hva _ He' Hn' <-. apply Hbad. by eapply restored_page. }
  assert (Hnt : forall p, T1 !! p <> Some q).
  { intros p Hp. apply Hbad.
    rewrite (go_table _ _ _ _ _ _ _ Hg p q); [|by apply (as_proper _ _ _ _ (sp_wf _ _ _ _ Hok1) p q)|done].
    by rewrite (cl_new _ _ _ _ _ _ _ _ Hc p q). }
  apply Hbad. rewrite (go_other _ _ _ _ _ _ _ Hg q) by (try done; intros; apply Hnt).
  destruct (frames (vm_pa s) q) as [n|] eqn:Hq; [|by apply (cl_free _ _ _ _ _ _ _ _ Hc)].
  apply (cl_others _ _ _ _ _ _ _ _ Hc); [done|]. intros va e Hva Hlt He Hn' E.
  destruct (mapped_share s root T va e Hok Hva He) as (Ea & En & _).
  apply (Hnp va (share e) Hva Hlt); [apply Hm; eauto|congruence|congruence].
Qed.
End theorems.

(** ** Instances on the machine of [CloneSpace] *)

#[local] Opaque fork_vm vmm_clone_user_pagetable vmm_destroy_user_pagetable.

Lemma fork_frames : frames (vm_pa fork_vm) 8192 = Some 1.
Proof. Transparent fork_vm. vm_compute. reflexivity. Qed.
#[local] Opaque fork_vm.

Lemma vmm_destroy_user_pagetable_correct_witness :
  wp (vmm_destroy_user_pagetable demo_hh fork_root) (fun _ s' => frames (vm_pa s') 8192 = None) fork_vm.
Proof.
  destruct fork_space as (T & Hok & _). assert (Hva : user_va 0x400000) by (split; lia).
  eapply wp_mono; [exact (vmm_destroy_user_pagetable_correct demo_hh demo_hh_ok fork_vm fork_root T Hok)|].
  intros [] s' (_ & _ & H & _). exact (H 0x400000 8199 1 Hva fork_mapping eq_refl fork_frames).
Defined.

Lemma fork_exit_restores_witness :
  wp (vmm_clone_user_pagetable demo_hh fork_root) (fun child s1 => child <> 0 -> ~ exhausted s1 ->
    wp (vmm_destroy_user_pagetable demo_hh child) (fun _ s2 => frames (vm_pa s2) 8192 = Some 1) s1) fork_vm.
Proof.
  destruct fork_space as (T & Hok & Hroom & _).
  eapply wp_mono; [exact (fork_exit_restores demo_hh demo_hh_ok fork_vm fork_root T 4096
    Hok Hroom demo_kernel_frame fork_kernel_used fork_kernel)|].
  intros c s1 H Hc Hex. eapply wp_mono; [exact (H Hc Hex)|]. intros [] s2 Hq. rewrite Hq. exact fork_frames.
Defined.
