(* ===== verification/Proc.v ===== *)
(** * Processes (process.h) and the state of the scheduler

    A process descriptor is a record, a [process_t *] is a key of the process
    table and 0 is [NULL]: reading through a key that designates no descriptor
    is undefined behaviour.  Setters have one definition per field. *)

From S2P Require Import Prelude.

Definition MAX_FDS : Z := 32.
Definition MMAP_BASE : Z := 0x0000600000000000.
Definition MAX_USER_ARGS : Z := 8.

Inductive fd_type := FD_NONE | FD_VFS | FD_PIPE_READ | FD_PIPE_WRITE.
#[export] Instance fd_type_eq_dec : EqDecision fd_type.
Proof. solve_decision. Defined.

Record file_descriptor := mkFd {
  fd_kind : fd_type;
  fd_node : Z;
  fd_pipe : Z;
  fd_offset : Z;
  fd_flags : Z;
}.
Definition fd_empty : file_descriptor := mkFd FD_NONE 0 0 0 0.

Record trapframe := mkTrap {
  tf_rdi : Z; tf_rsi : Z; tf_rdx : Z; tf_r10 : Z; tf_r8 : Z; tf_r9 : Z;
  tf_rbx : Z; tf_rbp : Z; tf_r12 : Z; tf_r13 : Z; tf_r14 : Z; tf_r15 : Z;
  tf_rax : Z;
  tf_rip : Z; tf_rflags : Z; tf_rsp : Z;
}.
Definition trap_zero : trapframe := mkTrap 0 0 0 0 0 0 0 0 0 0 0 0 0 0 0 0.
Definition set_tf_rax (v : Z) (t : trapframe) : trapframe :=
  mkTrap (tf_rdi t) (tf_rsi t) (tf_rdx t) (tf_r10 t) (tf_r8 t) (tf_r9 t) (tf_rbx t) (tf_rbp t)
    (tf_r12 t) (tf_r13 t) (tf_r14 t) (tf_r15 t) v (tf_rip t) (tf_rflags t) (tf_rsp t).
Definition set_tf_rsp (v : Z) (t : trapframe) : trapframe :=
  mkTrap (tf_rdi t) (tf_rsi t) (tf_rdx t) (tf_r10 t) (tf_r8 t) (tf_r9 t) (tf_rbx t) (tf_rbp t)
    (tf_r12 t) (tf_r13 t) (tf_r14 t) (tf_r15 t) (tf_rax t) (tf_rip t) (tf_rflags t) v.

Inductive process_state :=
  | PROCESS_READY
  | PROCESS_RUNNING
  | PROCESS_BLOCKED
  | PROCESS_BLOCKED_KBD
  | PROCESS_BLOCKED_PIPE
  | PROCESS_BLOCKED_MOUSE
  | PROCESS_DEAD.
#[export] Instance process_state_eq_dec : EqDecision process_state.
Proof. solve_decision. Defined.

(** [entry] is named [elf_entry] here; [state], [next], [prev], [pid], [rsp] and
    [cr3] carry the prefix [p_]. *)
Record process := mkProc {
  p_pid : Z;
  p_rsp : Z;
  p_cr3 : Z;
  vm_refcount : Z;
  p_state : process_state;
  kernel_stack : Z;
  priority : Z;
  ticks_executed : Z;
  queue_next : Z;
  queue_prev : Z;
  wait_next : Z;
  wait_prev : Z;
  p_next : Z;
  p_prev : Z;
  entrypoint : Z;
  elf_entry : Z;
  user_stack_top : Z;
  brk_start : Z;
  brk : Z;
  mmap_next : Z;
  fd_table : list file_descriptor;
  fork_frame : trapframe;
  parent : Z;
  exit_code : Z;
}.

(** [memset(proc, 0, sizeof(process_t))]. *)
Definition proc_zero : process :=
  mkProc 0 0 0 0 PROCESS_READY 0 0 0 0 0 0 0 0 0 0 0 0 0 0 0 (replicate 32 fd_empty) trap_zero 0 0.

Definition set_p_pid (v : Z) (p : process) : process :=
  mkProc v (p_rsp p) (p_cr3 p) (vm_refcount p) (p_state p) (kernel_stack p) (priority p)
    (ticks_executed p) (queue_next p) (queue_prev p) (wait_next p) (wait_prev p) (p_next p)
    (p_prev p) (entrypoint p) (elf_entry p) (user_stack_top p) (brk_start p) (brk p) (mmap_next p)
    (fd_table p) (fork_frame p) (parent p) (exit_code p).
Definition set_p_rsp (v : Z) (p : process) : process :=
  mkProc (p_pid p) v (p_cr3 p) (vm_refcount p) (p_state p) (kernel_stack p) (priority p)
    (ticks_executed p) (queue_next p) (queue_prev p) (wait_next p) (wait_prev p) (p_next p)
    (p_prev p) (entrypoint p) (elf_entry p) (user_stack_top p) (brk_start p) (brk p) (mmap_next p)
    (fd_table p) (fork_frame p) (parent p) (exit_code p).
Definition set_p_cr3 (v : Z) (p : process) : process :=
  mkProc (p_pid p) (p_rsp p) v (vm_refcount p) (p_state p) (kernel_stack p) (priority p)
    (ticks_executed p) (queue_next p) (queue_prev p) (wait_next p) (wait_prev p) (p_next p)
    (p_prev p) (entrypoint p) (elf_entry p) (user_stack_top p) (brk_start p) (brk p) (mmap_next p)
    (fd_table p) (fork_frame p) (parent p) (exit_code p).
Definition set_vm_refcount (v : Z) (p : process) : process :=
  mkProc (p_pid p) (p_rsp p) (p_cr3 p) v (p_state p) (kernel_stack p) (priority p)
    (ticks_executed p) (queue_next p) (queue_prev p) (wait_next p) (wait_prev p) (p_next p)
    (p_prev p) (entrypoint p) (elf_entry p) (user_stack_top p) (brk_start p) (brk p) (mmap_next p)
    (fd_table p) (fork_frame p) (parent p) (exit_code p).
Definition set_p_state (v : process_state) (p : process) : process :=
  mkProc (p_pid p) (p_rsp p) (p_cr3 p) (vm_refcount p) v (kernel_stack p) (priority p)
    (ticks_executed p) (queue_next p) (queue_prev p) (wait_next p) (wait_prev p) (p_next p)
    (p_prev p) (entrypoint p) (elf_entry p) (user_stack_top p) (brk_start p) (brk p) (mmap_next p)
    (fd_table p) (fork_frame p) (parent p) (exit_code p).
Definition set_kernel_stack (v : Z) (p : process) : process :=
  mkProc (p_pid p) (p_rsp p) (p_cr3 p) (vm_refcount p) (p_state p) v (priority p)
    (ticks_executed p) (queue_next p) (queue_prev p) (wait_next p) (wait_prev p) (p_next p)
    (p_prev p) (entrypoint p) (elf_entry p) (user_stack_top p) (brk_start p) (brk p) (mmap_next p)
    (fd_table p) (fork_frame p) (parent p) (exit_code p).
Definition set_priority (v : Z) (p : process) : process :=
  mkProc (p_pid p) (p_rsp p) (p_cr3 p) (vm_refcount p) (p_state p) (kernel_stack p) v
    (ticks_executed p) (queue_next p) (queue_prev p) (wait_next p) (wait_prev p) (p_next p)
    (p_prev p) (entrypoint p) (elf_entry p) (user_stack_top p) (brk_start p) (brk p) (mmap_next p)
    (fd_table p) (fork_frame p) (parent p) (exit_code p).
Definition set_ticks_executed (v : Z) (p : process) : process :=
  mkProc (p_pid p) (p_rsp p) (p_cr3 p) (vm_refcount p) (p_state p) (kernel_stack p) (priority p) v
    (queue_next p) (queue_prev p) (wait_next p) (wait_prev p) (p_next p) (p_prev p) (entrypoint p)
    (elf_entry p) (user_stack_top p) (brk_start p) (brk p) (mmap_next p) (fd_table p)
    (fork_frame p) (parent p) (exit_code p).
Definition set_queue_next (v : Z) (p : process) : process :=
  mkProc (p_pid p) (p_rsp p) (p_cr3 p) (vm_refcount p) (p_state p) (kernel_stack p) (priority p)
    (ticks_executed p) v (queue_prev p) (wait_next p) (wait_prev p) (p_next p) (p_prev p)
    (entrypoint p) (elf_entry p) (user_stack_top p) (brk_start p) (brk p) (mmap_next p)
    (fd_table p) (fork_frame p) (parent p) (exit_code p).
Definition set_queue_prev (v : Z) (p : process) : process :=
  mkProc (p_pid p) (p_rsp p) (p_cr3 p) (vm_refcount p) (p_state p) (kernel_stack p) (priority p)
    (ticks_executed p) (queue_next p) v (wait_next p) (wait_prev p) (p_next p) (p_prev p)
    (entrypoint p) (elf_entry p) (user_stack_top p) (brk_start p) (brk p) (mmap_next p)
    (fd_table p) (fork_frame p) (parent p) (exit_code p).
Definition set_wait_next (v : Z) (p : process) : process :=
  mkProc (p_pid p) (p_rsp p) (p_cr3 p) (vm_refcount p) (p_state p) (kernel_stack p) (priority p)
    (ticks_executed p) (queue_next p) (queue_prev p) v (wait_prev p) (p_next p) (p_prev p)
    (entrypoint p) (elf_entry p) (user_stack_top p) (brk_start p) (brk p) (mmap_next p)
    (fd_table p) (fork_frame p) (parent p) (exit_code p).
Definition set_wait_prev (v : Z) (p : process) : process :=
  mkProc (p_pid p) (p_rsp p) (p_cr3 p) (vm_refcount p) (p_state p) (kernel_stack p) (priority p)
    (ticks_executed p) (queue_next p) (queue_prev p) (wait_next p) v (p_next p) (p_prev p)
    (entrypoint p) (elf_entry p) (user_stack_top p) (brk_start p) (brk p) (mmap_next p)
    (fd_table p) (fork_frame p) (parent p) (exit_code p).
Definition set_p_next (v : Z) (p : process) : process :=
  mkProc (p_pid p) (p_rsp p) (p_cr3 p) (vm_refcount p) (p_state p) (kernel_stack p) (priority p)
    (ticks_executed p) (queue_next p) (queue_prev p) (wait_next p) (wait_prev p) v (p_prev p)
    (entrypoint p) (elf_entry p) (user_stack_top p) (brk_start p) (brk p) (mmap_next p)
    (fd_table p) (fork_frame p) (parent p) (exit_code p).
Definition set_p_prev (v : Z) (p : process) : process :=
  mkProc (p_pid p) (p_rsp p) (p_cr3 p) (vm_refcount p) (p_state p) (kernel_stack p) (priority p)
    (ticks_executed p) (queue_next p) (queue_prev p) (wait_next p) (wait_prev p) (p_next p) v
    (entrypoint p) (elf_entry p) (user_stack_top p) (brk_start p) (brk p) (mmap_next p)
    (fd_table p) (fork_frame p) (parent p) (exit_code p).
Definition set_entrypoint (v : Z) (p : process) : process :=
  mkProc (p_pid p) (p_rsp p) (p_cr3 p) (vm_refcount p) (p_state p) (kernel_stack p) (priority p)
    (ticks_executed p) (queue_next p) (queue_prev p) (wait_next p) (wait_prev p) (p_next p)
    (p_prev p) v (elf_entry p) (user_stack_top p) (brk_start p) (brk p) (mmap_next p) (fd_table p)
    (fork_frame p) (parent p) (exit_code p).
Definition set_elf_entry (v : Z) (p : process) : process :=
  mkProc (p_pid p) (p_rsp p) (p_cr3 p) (vm_refcount p) (p_state p) (kernel_stack p) (priority p)
    (ticks_executed p) (queue_next p) (queue_prev p) (wait_next p) (wait_prev p) (p_next p)
    (p_prev p) (entrypoint p) v (user_stack_top p) (brk_start p) (brk p) (mmap_next p)
    (fd_table p) (fork_frame p) (parent p) (exit_code p).
Definition set_user_stack_top (v : Z) (p : process) : process :=
  mkProc (p_pid p) (p_rsp p) (p_cr3 p) (vm_refcount p) (p_state p) (kernel_stack p) (priority p)
    (ticks_executed p) (queue_next p) (queue_prev p) (wait_next p) (wait_prev p) (p_next p)
    (p_prev p) (entrypoint p) (elf_entry p) v (brk_start p) (brk p) (mmap_next p) (fd_table p)
    (fork_frame p) (parent p) (exit_code p).
Definition set_brk_start (v : Z) (p : process) : process :=
  mkProc (p_pid p) (p_rsp p) (p_cr3 p) (vm_refcount p) (p_state p) (kernel_stack p) (priority p)
    (ticks_executed p) (queue_next p) (queue_prev p) (wait_next p) (wait_prev p) (p_next p)
    (p_prev p) (entrypoint p) (elf_entry p) (user_stack_top p) v (brk p) (mmap_next p)
    (fd_table p) (fork_frame p) (parent p) (exit_code p).
Definition set_brk (v : Z) (p : process) : process :=
  mkProc (p_pid p) (p_rsp p) (p_cr3 p) (vm_refcount p) (p_state p) (kernel_stack p) (priority p)
    (ticks_executed p) (queue_next p) (queue_prev p) (wait_next p) (wait_prev p) (p_next p)
    (p_prev p) (entrypoint p) (elf_entry p) (user_stack_top p) (brk_start p) v (mmap_next p)
    (fd_table p) (fork_frame p) (parent p) (exit_code p).
Definition set_mmap_next (v : Z) (p : process) : process :=
  mkProc (p_pid p) (p_rsp p) (p_cr3 p) (vm_refcount p) (p_state p) (kernel_stack p) (priority p)
    (ticks_executed p) (queue_next p) (queue_prev p) (wait_next p) (wait_prev p) (p_next p)
    (p_prev p) (entrypoint p) (elf_entry p) (user_stack_top p) (brk_start p) (brk p) v
    (fd_table p) (fork_frame p) (parent p) (exit_code p).
Definition set_fd_table (v : list file_descriptor) (p : process) : process :=
  mkProc (p_pid p) (p_rsp p) (p_cr3 p) (vm_refcount p) (p_state p) (kernel_stack p) (priority p)
    (ticks_executed p) (queue_next p) (queue_prev p) (wait_next p) (wait_prev p) (p_next p)
    (p_prev p) (entrypoint p) (elf_entry p) (user_stack_top p) (brk_start p) (brk p) (mmap_next p)
    v (fork_frame p) (parent p) (exit_code p).
Definition set_fork_frame (v : trapframe) (p : process) : process :=
  mkProc (p_pid p) (p_rsp p) (p_cr3 p) (vm_refcount p) (p_state p) (kernel_stack p) (priority p)
    (ticks_executed p) (queue_next p) (queue_prev p) (wait_next p) (wait_prev p) (p_next p)
    (p_prev p) (entrypoint p) (elf_entry p) (user_stack_top p) (brk_start p) (brk p) (mmap_next p)
    (fd_table p) v (parent p) (exit_code p).
Definition set_parent (v : Z) (p : process) : process :=
  mkProc (p_pid p) (p_rsp p) (p_cr3 p) (vm_refcount p) (p_state p) (kernel_stack p) (priority p)
    (ticks_executed p) (queue_next p) (queue_prev p) (wait_next p) (wait_prev p) (p_next p)
    (p_prev p) (entrypoint p) (elf_entry p) (user_stack_top p) (brk_start p) (brk p) (mmap_next p)
    (fd_table p) (fork_frame p) v (exit_code p).
Definition set_exit_code (v : Z) (p : process) : process :=
  mkProc (p_pid p) (p_rsp p) (p_cr3 p) (vm_refcount p) (p_state p) (kernel_stack p) (priority p)
    (ticks_executed p) (queue_next p) (queue_prev p) (wait_next p) (wait_prev p) (p_next p)
    (p_prev p) (entrypoint p) (elf_entry p) (user_stack_top p) (brk_start p) (brk p) (mmap_next p)
    (fd_table p) (fork_frame p) (parent p) v.

(** ** Queues *)

Record wait_queue := mkWq { wq_head : Z; wq_tail : Z }.
Definition wq_empty : wait_queue := mkWq 0 0.

Record queue_t := mkQueue { q_head : Z; q_tail : Z; q_quantum : Z }.
Definition set_q_head (v : Z) (q : queue_t) : queue_t := mkQueue v (q_tail q) (q_quantum q).
Definition set_q_tail (v : Z) (q : queue_t) : queue_t := mkQueue (q_head q) v (q_quantum q).

(** ** The scheduler's state: the globals of scheduler.c and process.c *)

Record sched := mkSched {
  procs : gmap Z process;
  process_queue : Z;
  current_process : Z;
  idle_process : Z;
  next_pid : Z;
  mlfq : list queue_t;
  global_ticks : Z;
}.
Definition set_procs (v : gmap Z process) (s : sched) : sched :=
  mkSched v (process_queue s) (current_process s) (idle_process s) (next_pid s) (mlfq s) (global_ticks s).
Definition set_process_queue (v : Z) (s : sched) : sched :=
  mkSched (procs s) v (current_process s) (idle_process s) (next_pid s) (mlfq s) (global_ticks s).
Definition set_current_process (v : Z) (s : sched) : sched :=
  mkSched (procs s) (process_queue s) v (idle_process s) (next_pid s) (mlfq s) (global_ticks s).
Definition set_idle_process (v : Z) (s : sched) : sched :=
  mkSched (procs s) (process_queue s) (current_process s) v (next_pid s) (mlfq s) (global_ticks s).
Definition set_next_pid (v : Z) (s : sched) : sched :=
  mkSched (procs s) (process_queue s) (current_process s) (idle_process s) v (mlfq s) (global_ticks s).
Definition set_mlfq (v : list queue_t) (s : sched) : sched :=
  mkSched (procs s) (process_queue s) (current_process s) (idle_process s) (next_pid s) v (global_ticks s).
Definition set_global_ticks (v : Z) (s : sched) : sched :=
  mkSched (procs s) (process_queue s) (current_process s) (idle_process s) (next_pid s) (mlfq s) v.

(** ** Accesses through process pointers *)

Definition pget {A} (f : process -> A) (p : Z) : M sched A := fun s =>
  match procs s !! p with Some r => Some (f r, s) | None => None end.
Definition pset (g : process -> process) (p : Z) : M sched unit := fun s =>
  match procs s !! p with
  | Some _ => Some (tt, set_procs (alter g p (procs s)) s)
  | None => None
  end.
Definition qget (i : Z) : M sched queue_t := fun s =>
  match arr_get (mlfq s) i with Some q => Some (q, s) | None => None end.
Definition qset (i : Z) (q : queue_t) : M sched unit := fun s =>
  match arr_set (mlfq s) i q with Some l => Some (tt, set_mlfq l s) | None => None end.

Lemma wp_pget {A} (f : process -> A) p (Q : A -> sched -> Prop) s r :
  procs s !! p = Some r -> Q (f r) s -> wp (pget f p) Q s.
Proof. unfold wp, pget. by intros ->. Qed.
Lemma wp_pset g p (Q : unit -> sched -> Prop) s r :
  procs s !! p = Some r -> Q tt (set_procs (alter g p (procs s)) s) -> wp (pset g p) Q s.
Proof. unfold wp, pset. by intros ->. Qed.
Lemma wp_qget i (Q : queue_t -> sched -> Prop) s q :
  0 <= i -> mlfq s !! Z.to_nat i = Some q -> Q q s -> wp (qget i) Q s.
Proof. intros Hi Hq. unfold wp, qget, arr_get. case_bool; [|lia]. by rewrite Hq. Qed.
Lemma wp_qset i q (Q : unit -> sched -> Prop) s :
  0 <= i < Z.of_nat (length (mlfq s)) ->
  Q tt (set_mlfq (<[Z.to_nat i := q]> (mlfq s)) s) -> wp (qset i q) Q s.
Proof. intros Hi. unfold wp, qset. by rewrite arr_set_Some. Qed.
