(* ===== verification/Queues.v ===== *)
(** * Intrusive process queues (process.c)

    Doubly linked lists threaded through the process table, for any pair of
    link fields, and their relation to the list of the processes they hold;
    the wait queues the blocking primitives use; the ring of all processes. *)

From S2P Require Import Prelude Proc.

Create HintDb queues.

(** ** Linked lists in the process table *)

(** A pair of link fields with their setters. *)
Class Links (gn gp : process -> Z) (sn sp : Z -> process -> process) := {
  gn_sn v r : gn (sn v r) = v;
  gn_sp v r : gn (sp v r) = gn r;
  gp_sn v r : gp (sn v r) = gp r;
  gp_sp v r : gp (sp v r) = v;
  sn_sn v w r : sn v (sn w r) = sn v r;
  sp_sp v w r : sp v (sp w r) = sp v r;
  sn_sp v w r : sn v (sp w r) = sp w (sn v r);
}.

#[export] Instance queue_links : Links queue_next queue_prev set_queue_next set_queue_prev.
Proof. by split. Qed.
#[export] Instance wait_links : Links wait_next wait_prev set_wait_next set_wait_prev.
Proof. by split. Qed.

Definition hd0 (l : list Z) : Z := default 0 (head l).
Definition last0 (l : list Z) : Z := default 0 (last l).

Lemma hd0_cons a l : hd0 (a :: l) = a.
Proof. done. Qed.
Lemma last0_snoc l a : last0 (l ++ [a]) = a.
Proof. unfold last0. by rewrite last_snoc. Qed.
Lemma last0_cons a l : l <> [] -> last0 (a :: l) = last0 l.
Proof. by destruct l. Qed.
Lemma hd0_app l a : l <> [] -> hd0 (l ++ [a]) = hd0 l.
Proof. by destruct l. Qed.
Lemma last_split (l : list Z) : l <> [] -> exists l' t, l = l' ++ [t] /\ last0 l = t.
Proof.
  intros Hl. destruct (exists_last Hl) as (l' & t & ->). exists l', t. by rewrite last0_snoc.
Qed.

Section links.
Context (gn gp : process -> Z) (sn sp : Z -> process -> process) `{!Links gn gp sn sp}.
Implicit Types (m : gmap Z process) (l : list Z).

(** The [next] fields chain the processes of [l] and end in [NULL]. *)
Definition nexts m l : Prop :=
  forall i a, l !! i = Some a ->
    a <> 0 /\ exists r, m !! a = Some r /\ gn r = default 0 (l !! Datatypes.S i).

(** The [prev] fields chain them backwards. *)
Definition prevs m l : Prop :=
  forall i a, l !! i = Some a ->
    exists r, m !! a = Some r /\ gp r = match i with O => 0 | Datatypes.S j => default 0 (l !! j) end.

Definition linked m l : Prop := NoDup l /\ nexts m l /\ prevs m l.

Lemma linked_nil m : linked m [].
Proof. split; [constructor|]. split; intros i a; by rewrite lookup_nil. Qed.

Lemma linked_singleton m a r :
  m !! a = Some r -> a <> 0 -> gn r = 0 -> gp r = 0 -> linked m [a].
Proof.
  intros Hr Ha Hn Hp. split; [apply NoDup_singleton|].
  split; intros [|[|i]] b; intros [= <-]; [split; [done|]|]; by exists r.
Qed.

Lemma nexts_lookup m l a : nexts m l -> a ∈ l -> a <> 0 /\ exists r, m !! a = Some r.
Proof. intros H [i Hi]%list_elem_of_lookup. destruct (H i a Hi) as (? & r & ? & _). eauto. Qed.

(** Updates that leave the links of the members alone. *)
Lemma nexts_alter m l g a :
  (a ∉ l \/ forall r, gn (g r) = gn r) -> nexts m l -> nexts (alter g a m) l.
Proof.
  intros Hg H i b Hb. destruct (H i b Hb) as (Hb0 & r & Hr & Hn). split; [done|].
  destruct (decide (a = b)) as [->|].
  - exists (g r). rewrite lookup_alter_eq, Hr. split; [done|]. destruct Hg as [Hg| ->]; [|done].
    destruct Hg. by eapply list_elem_of_lookup_2.
  - exists r. by rewrite lookup_alter_ne.
Qed.
Lemma prevs_alter m l g a :
  (a ∉ l \/ forall r, gp (g r) = gp r) -> prevs m l -> prevs (alter g a m) l.
Proof.
  intros Hg H i b Hb. destruct (H i b Hb) as (r & Hr & Hn).
  destruct (decide (a = b)) as [->|].
  - exists (g r). rewrite lookup_alter_eq, Hr. split; [done|]. destruct Hg as [Hg| ->]; [|done].
    destruct Hg. by eapply list_elem_of_lookup_2.
  - exists r. by rewrite lookup_alter_ne.
Qed.
Lemma linked_alter m l g a :
  (a ∉ l \/ forall r, gn (g r) = gn r /\ gp (g r) = gp r) -> linked m l -> linked (alter g a m) l.
Proof.
  intros Hg (? & ? & ?). split_and!; [done|apply nexts_alter|apply prevs_alter]; try done;
    (destruct Hg as [|Hg]; [by left|right; intros r; apply Hg]).
Qed.
Lemma linked_insert m l a r : a ∉ l -> linked m l -> linked (<[a := r]> m) l.
Proof.
  intros Ha (Hnd & Hn & Hp). split_and!; [done| |].
  - intros i b Hb. destruct (Hn i b Hb) as (? & r' & ? & ?). split; [done|]. exists r'.
    rewrite lookup_insert_ne; [done|]. intros ->. destruct Ha. by eapply list_elem_of_lookup_2.
  - intros i b Hb. destruct (Hp i b Hb) as (r' & ? & ?). exists r'.
    rewrite lookup_insert_ne; [done|]. intros ->. destruct Ha. by eapply list_elem_of_lookup_2.
Qed.

(** Appending at the tail: the new process points nowhere, the old tail at it. *)
Definition link_tail m l (p : Z) : gmap Z process :=
  match last l with Some t => alter (sn p) t m | None => m end.

Lemma snoc_lookup l (p : Z) i a :
  (l ++ [p]) !! i = Some a -> l !! i = Some a \/ (i = length l /\ a = p).
Proof.
  intros [?|[? H]]%lookup_app_Some; [by left|]. right.
  destruct (i - length l)%nat as [|[|]] eqn:E; simpl in H; [|done|done]. split; [lia|congruence].
Qed.

Lemma last_index l t i a :
  NoDup l -> last l = Some t -> l !! i = Some a -> a = t -> Datatypes.S i = length l.
Proof.
  rewrite last_lookup. intros Hnd Ht Hi ->. assert (i = pred (length l)) by (by eapply NoDup_lookup).
  apply lookup_lt_Some in Hi. lia.
Qed.

Lemma nexts_push m l p r :
  NoDup l -> p ∉ l -> p <> 0 -> m !! p = Some r -> gn r = 0 ->
  nexts m l -> nexts (link_tail m l p) (l ++ [p]).
Proof.
  intros Hnd Hp Hp0 Hr Hr0 H i a [Hi|[-> ->]]%snoc_lookup.
  - destruct (H i a Hi) as (Ha0 & ra & Hra & Hna). split; [done|]. unfold link_tail.
    destruct (last l) as [t|] eqn:Et.
    2:{ apply last_None in Et. by rewrite Et in Hi. }
    destruct (decide (a = t)) as [->|Hne].
    + exists (sn p ra). rewrite lookup_alter_eq, Hra, gn_sn. split; [done|].
      rewrite (last_index l t i t) by done. by rewrite list_lookup_middle.
    + exists ra. rewrite lookup_alter_ne by done. split; [done|]. rewrite Hna. f_equal. symmetry.
      apply lookup_app_l. apply lookup_lt_Some in Hi as Hlt.
      assert (Datatypes.S i <> length l); [|lia]. intros E. destruct Hne.
      rewrite last_lookup in Et. rewrite <- E in Et. simpl in Et. congruence.
  - split; [done|]. exists r. rewrite lookup_ge_None_2 by (rewrite length_app; simpl; lia).
    split; [|done]. unfold link_tail. destruct (last l) as [t|] eqn:Et; [|done].
    rewrite lookup_alter_ne; [done|]. intros ->. apply Hp. by apply last_Some_elem_of.
Qed.

Lemma prevs_push m l p r :
  p ∉ l -> m !! p = Some r -> gp r = last0 l ->
  prevs m l -> prevs (link_tail m l p) (l ++ [p]).
Proof.
  intros Hp Hr Hrp H.
  assert (Hlt : prevs (link_tail m l p) l /\ exists r', link_tail m l p !! p = Some r' /\ gp r' = last0 l).
  { unfold link_tail. destruct (last l) as [t|] eqn:Et; [|eauto]. split.
    - apply prevs_alter; [|done]. right. apply gp_sn.
    - exists r. rewrite lookup_alter_ne; [done|]. intros ->. apply Hp. by apply last_Some_elem_of. }
  destruct Hlt as [Hl (r' & Hr' & Hp')]. intros i a [Hi|[-> ->]]%snoc_lookup.
  - destruct (Hl i a Hi) as (ra & ? & Hpa). exists ra. split; [done|]. rewrite Hpa.
    destruct i as [|j]; [done|]. apply lookup_lt_Some in Hi. by rewrite lookup_app_l by lia.
  - exists r'. split; [done|]. rewrite Hp'. unfold last0. rewrite last_lookup.
    destruct (length l) as [|n] eqn:E; [by destruct l|]. simpl. by rewrite lookup_app_l by lia.
Qed.

Lemma linked_push m l p r :
  p ∉ l -> p <> 0 -> m !! p = Some r -> gn r = 0 -> gp r = last0 l ->
  linked m l -> linked (link_tail m l p) (l ++ [p]).
Proof.
  intros Hp Hp0 Hr Hn Hpv (Hnd & Hns & Hps). split_and!.
  - apply NoDup_app. split_and!; [done| |apply NoDup_singleton].
    intros x Hx ->%list_elem_of_singleton. done.
  - by eapply nexts_push.
  - by eapply prevs_push.
Qed.

(** Removing the head. *)
Lemma nexts_pop m a l : nexts m (a :: l) ->
  a <> 0 /\ (exists r, m !! a = Some r /\ gn r = hd0 l) /\ nexts m l.
Proof.
  intros H. destruct (H O a eq_refl) as (Ha & r & Hr & Hn). split; [done|]. split.
  - exists r. split; [done|]. rewrite Hn. by destruct l.
  - intros i b Hb. exact (H (Datatypes.S i) b Hb).
Qed.

Lemma linked_pop m a b l : linked m (a :: b :: l) -> linked (alter (sp 0) b m) (b :: l).
Proof.
  intros (Hnd & Hn & Hp). apply NoDup_cons in Hnd as [Hab Hnd]. split_and!; [done| |].
  - apply nexts_alter; [right; apply gn_sp|]. by apply nexts_pop in Hn as (_ & _ & ?).
  - intros i c Hc. destruct (Hp (Datatypes.S i) c Hc) as (r & Hr & Hpr).
    destruct (decide (b = c)) as [->|Hne].
    + exists (sp 0 r). rewrite lookup_alter_eq, Hr. split; [done|]. rewrite gp_sp.
      destruct i as [|i]; [done|]. apply NoDup_cons in Hnd as [Hn' _]. destruct Hn'.
      by eapply list_elem_of_lookup_2.
    + exists r. rewrite lookup_alter_ne by done. split; [done|]. rewrite Hpr. destruct i; [|done].
      simpl in Hc. congruence.
Qed.

Lemma linked_ext m m' l :
  (forall a r, a ∈ l -> m !! a = Some r -> exists r', m' !! a = Some r' /\ gn r' = gn r /\ gp r' = gp r) ->
  linked m l -> linked m' l.
Proof.
  intros Hext (Hnd & Hn & Hp). split_and!; [done| |].
  - intros i a Ha. destruct (Hn i a Ha) as (? & r & Hr & E). split; [done|].
    destruct (Hext a r) as (r' & ? & ? & ?); [by eapply list_elem_of_lookup_2|done|].
    exists r'. split; congruence.
  - intros i a Ha. destruct (Hp i a Ha) as (r & Hr & E).
    destruct (Hext a r) as (r' & ? & ? & ?); [by eapply list_elem_of_lookup_2|done|].
    exists r'. split; congruence.
Qed.

(** What a queue operation may change: the link fields of the processes in [X]. *)
Definition strip (r : process) : process := sn 0 (sp 0 r).
Definition relinked (X : list Z) m m' : Prop :=
  strip <$> m' = strip <$> m /\ forall a, a ∉ X -> m' !! a = m !! a.

Lemma relinked_refl X m : relinked X m m.
Proof. done. Qed.
Lemma relinked_trans X m1 m2 m3 : relinked X m1 m2 -> relinked X m2 m3 -> relinked X m1 m3.
Proof. intros [A1 A2] [B1 B2]. split; [congruence|]. intros a Ha. by rewrite B2, A2. Qed.
Lemma relinked_mono X Y m m' : X ⊆ Y -> relinked X m m' -> relinked Y m m'.
Proof. intros HXY [H1 H2]. split; [done|]. intros a Ha. apply H2. intros Hx. by apply Ha, HXY. Qed.
Lemma relinked_alter X m g a :
  a ∈ X -> (forall r, strip (g r) = strip r) -> relinked X m (alter g a m).
Proof.
  intros Ha Hg. split.
  - apply map_eq. intros b. rewrite !lookup_fmap. destruct (decide (a = b)) as [->|].
    + rewrite lookup_alter_eq. destruct (m !! b); simpl; [by rewrite Hg|done].
    + by rewrite lookup_alter_ne.
  - intros b Hb. apply lookup_alter_ne. by intros ->.
Qed.
Lemma relinked_alter_r X m m' g a :
  relinked X m m' -> a ∈ X -> (forall r, strip (g r) = strip r) -> relinked X m (alter g a m').
Proof. intros H Ha Hg. eapply relinked_trans; [exact H|by apply relinked_alter]. Qed.
Lemma strip_sn v r : strip (sn v r) = strip r.
Proof. unfold strip. by rewrite (sn_sp (sn := sn)), (sn_sn (sn := sn)), (sn_sp (sn := sn)). Qed.
Lemma strip_sp v r : strip (sp v r) = strip r.
Proof. unfold strip. by rewrite sp_sp. Qed.
Lemma relinked_lookup X m m' a r :
  relinked X m m' -> m !! a = Some r -> exists r', m' !! a = Some r' /\ strip r' = strip r.
Proof.
  intros [H _] Hr. apply (f_equal (fun x => x !! a)) in H. rewrite !lookup_fmap, Hr in H.
  destruct (m' !! a) as [r'|]; simpl in H; [|done]. exists r'. split; congruence.
Qed.
End links.
#[export] Hint Resolve relinked_refl linked_nil : queues.

(** Discharge [relinked X m m'] when [m'] is [m] after link updates in [X]. *)
Ltac relink :=
  repeat (eapply relinked_alter_r; [|rewrite ?elem_of_cons; solve [auto 6]|done]);
  try apply relinked_refl.

(** ** Wait queues *)

Definition wait_queue_push (wq : wait_queue) (proc : Z) : M sched wait_queue :=
  pset (set_wait_next 0) proc ;;
  pset (set_wait_prev (wq_tail wq)) proc ;;
  if negb (wq_tail wq =? 0)
  then pset (set_wait_next proc) (wq_tail wq) ;; ret (mkWq (wq_head wq) proc)
  else ret (mkWq proc proc).

Definition wait_queue_pop (wq : wait_queue) : M sched (Z * wait_queue) :=
  let proc := wq_head wq in
  if negb (proc =? 0) then
    head <- pget wait_next proc ;;
    tail <- (if negb (head =? 0) then pset (set_wait_prev 0) head ;; ret (wq_tail wq) else ret 0) ;;
    pset (set_wait_next 0) proc ;;
    pset (set_wait_prev 0) proc ;;
    ret (proc, mkWq head tail)
  else ret (proc, wq).

Abbreviation wlinked := (linked wait_next wait_prev).
Abbreviation wrelinked := (relinked set_wait_next set_wait_prev).

(** The wait queue [wq] holds the processes [l], first to wake first. *)
Definition wq_rep (m : gmap Z process) (wq : wait_queue) (l : list Z) : Prop :=
  wlinked m l /\ wq_head wq = hd0 l /\ wq_tail wq = last0 l.

Lemma last0_zero m l : wlinked m l -> last0 l = 0 -> l = [].
Proof.
  intros (_ & Hn & _) H0. destruct (decide (l = [])) as [|Hl]; [done|].
  destruct (last_split l Hl) as (l' & t & E & Ht).
  destruct (nexts_lookup wait_next m l t Hn) as [Ht0 _]; [rewrite E; apply elem_of_app; right; apply list_elem_of_here|]. congruence.
Qed.

Lemma wp_wait_queue_push s wq l p r :
  wq_rep (procs s) wq l -> p ∉ l -> p <> 0 -> procs s !! p = Some r ->
  wp (wait_queue_push wq p) (fun wq' s' =>
    s' = set_procs (procs s') s /\ wq_rep (procs s') wq' (l ++ [p]) /\
    wrelinked (p :: l) (procs s) (procs s')) s.
Proof.
  intros (Hl & Hh & Ht) Hp Hp0 Hr. unfold wait_queue_push. wp_steps.
  eapply wp_pset; [done|]. cbv beta. wp_steps.
  eapply wp_pset; [simpl; by rewrite lookup_alter_eq, Hr|]. cbv beta. simpl procs.
  set (m1 := alter (set_wait_prev _) p (alter (set_wait_next 0) p (procs s))).
  assert (Hl1 : wlinked m1 l) by (do 2 (apply linked_alter; [by left|]); done).
  assert (Hr1 : m1 !! p = Some (set_wait_prev (wq_tail wq) (set_wait_next 0 r)))
    by (unfold m1; by rewrite !lookup_alter_eq, Hr).
  assert (Hrel : wrelinked (p :: l) (procs s) m1).
  { unfold m1. relink. }
  assert (Hpush : wlinked (link_tail set_wait_next m1 l p) (l ++ [p]))
    by (eapply (linked_push wait_next wait_prev set_wait_next set_wait_prev); done).
  unfold link_tail in Hpush. destruct (Z.eqb_spec (wq_tail wq) 0) as [E|E]; cbn [negb].
  - rewrite Ht in E. pose proof (last0_zero _ _ Hl E) as ->. wp_steps. done.
  - assert (Hne : l <> []) by (intros ->; by destruct E).
    destruct (last_split l Hne) as (l' & t & El & Elt).
    assert (Elast : last l = Some t) by (rewrite El; apply last_snoc). rewrite Elast in Hpush.
    rewrite Ht, Elt in *. wp_steps.
    assert (Htl : t ∈ l) by (by apply last_Some_elem_of).
    destruct Hl1 as (Hnd & Hn & Hpv). destruct (nexts_lookup wait_next _ _ _ Hn Htl) as (_ & rt & Hrt).
    eapply wp_pset; [exact Hrt|]. cbv beta. wp_steps. simpl procs. split; [done|]. split.
    + split; [exact Hpush|]. simpl. by rewrite last0_snoc, hd0_app.
    + unfold m1. relink.
Qed.

Lemma wp_wait_queue_pop s wq l :
  wq_rep (procs s) wq l ->
  wp (wait_queue_pop wq) (fun x s' =>
    s' = set_procs (procs s') s /\ fst x = hd0 l /\ wq_rep (procs s') (snd x) (tail l) /\
    wrelinked l (procs s) (procs s')) s.
Proof.
  intros (Hl & Hh & Ht). unfold wait_queue_pop. cbv zeta. rewrite Hh. destruct l as [|a l].
  { wp_steps. split; [by destruct s|]. split; [done|]. split; [|apply relinked_refl].
    by split; [apply linked_nil|]. }
  rewrite hd0_cons. pose proof Hl as (Hnd & Hn & _).
  destruct (nexts_pop _ _ _ _ Hn) as (Ha & (r & Hr & Hnext) & Hn').
  destruct (Z.eqb_spec a 0); [done|]. cbn [negb]. wp_steps.
  eapply wp_pget; [done|]. cbv beta. rewrite Hnext. wp_steps.
  apply NoDup_cons in Hnd as [Hal Hnd]. destruct l as [|b l].
  - cbn. wp_steps. eapply wp_pset; [done|]. cbv beta. wp_steps.
    eapply wp_pset; [simpl; by rewrite lookup_alter_eq, Hr|]. cbv beta. wp_steps. simpl procs.
    split; [done|]. split; [done|]. split; [by split; [apply linked_nil|]|].
    relink.
  - rewrite hd0_cons. destruct (nexts_pop _ _ _ _ Hn') as (Hb & (rb & Hrb & _) & _).
    destruct (Z.eqb_spec b 0); [done|]. cbn [negb]. wp_steps.
    eapply wp_pset; [done|]. cbv beta. wp_steps. simpl procs.
    assert (Hab : a <> b) by (intros ->; apply Hal, list_elem_of_here).
    eapply wp_pset; [simpl; by rewrite lookup_alter_ne|]. cbv beta. wp_steps. simpl procs.
    eapply wp_pset; [simpl; by rewrite lookup_alter_eq, lookup_alter_ne, Hr|]. cbv beta. wp_steps.
    simpl procs. split; [done|]. split; [done|]. split; [split|].
    + do 2 (apply linked_alter; [by left|]). by eapply (linked_pop wait_next wait_prev set_wait_next set_wait_prev).
    + split; [done|]. cbn [wq_tail snd]. by rewrite Ht.
    + relink.
Qed.
