(* ===== verification/Mlfq.v ===== *)
(** * The multi-level feedback queue (scheduler.c)

    The ready queues as the code keeps them, linked through the process table,
    and the abstract scheduler state they implement: one list of processes per
    priority level. *)

From S2P Require Import Prelude Proc Queues.

Definition NUM_QUEUES : nat := 4.
Definition PRIORITY_BOOST_INTERVAL : Z := 100.

(** ** Operations *)

Fixpoint mlfq_init_from (i : Z) (n : nat) (current_quantum : Z) : M sched unit :=
  match n with
  | O => ret tt
  | S n' => qset i (mkQueue 0 0 current_quantum) ;;
            mlfq_init_from (i + 1) n' (u32 (current_quantum + 2))
  end.
Definition mlfq_init : M sched unit := mlfq_init_from 0 NUM_QUEUES 2.

Definition mlfq_enqueue (proc : Z) : M sched unit :=
  if proc =? 0 then ret tt else
  st <- pget p_state proc ;;
  if decide (st = PROCESS_DEAD) then ret tt else
  pset (set_queue_next 0) proc ;;
  pset (set_p_state PROCESS_READY) proc ;;
  pr <- pget priority proc ;;
  q <- qget pr ;;
  if q_head q =? 0 then
    pset (set_queue_prev 0) proc ;;
    qset pr (set_q_tail proc (set_q_head proc q))
  else
    pset (set_queue_prev (q_tail q)) proc ;;
    pset (set_queue_next proc) (q_tail q) ;;
    qset pr (set_q_tail proc q).

Fixpoint pick_from (i : Z) (n : nat) : M sched Z :=
  match n with
  | O => ret 0
  | S n' =>
      q <- qget i ;;
      if negb (q_head q =? 0) then
        let next_proc := q_head q in
        nx <- pget queue_next next_proc ;;
        qset i (set_q_head nx q) ;;
        (if negb (nx =? 0) then pset (set_queue_prev 0) nx
         else q <- qget i ;; qset i (set_q_tail 0 q)) ;;
        pset (set_queue_next 0) next_proc ;;
        pset (set_queue_prev 0) next_proc ;;
        ret next_proc
      else pick_from (i + 1) n'
  end.
Definition mlfq_pick_next : M sched Z := pick_from 0 NUM_QUEUES.

(** The inner loop of [mlfq_boost_all]; running out of fuel is divergence. *)
Fixpoint boost_queue (i : Z) (fuel : nat) : M sched unit :=
  match fuel with
  | O => undef
  | S fuel' =>
      q <- qget i ;;
      if q_head q =? 0 then ret tt
      else
        let proc := q_head q in
        nx <- pget queue_next proc ;;
        qset i (set_q_head nx q) ;;
        pset (set_priority 0) proc ;;
        pset (set_ticks_executed 0) proc ;;
        mlfq_enqueue proc ;;
        boost_queue i fuel'
  end.
Definition mlfq_boost_all : M sched unit :=
  s <- get ;;
  for_range 1 3 (fun i =>
    boost_queue i (S (size (procs s))) ;;
    q <- qget i ;;
    qset i (set_q_tail 0 q)).

(** ** The abstract scheduler *)

Abbreviation qlinked := (linked queue_next queue_prev).
Abbreviation qnexts := (nexts queue_next).

(** Queue [j] of the machine holds the processes [l], next to run first. *)
Definition queue_ok (s : sched) (j : nat) (l : list Z) : Prop :=
  exists q, mlfq s !! j = Some q /\ q_head q = hd0 l /\ q_tail q = last0 l /\
    q_quantum q = 2 * (Z.of_nat j + 1) /\ qlinked (procs s) l.

(** Every queued process is ready and has the priority of its queue. *)
Definition members (s : sched) (j : nat) (l : list Z) : Prop :=
  forall a, a ∈ l -> exists r, procs s !! a = Some r /\
    priority r = Z.of_nat j /\ p_state r = PROCESS_READY.

Definition mlfq_wf (s : sched) (ls : list (list Z)) : Prop :=
  length (mlfq s) = NUM_QUEUES /\ length ls = NUM_QUEUES /\
  forall j l, ls !! j = Some l -> queue_ok s j l /\ members s j l.

(** The abstract operations on the lists. *)
Definition enq (ls : list (list Z)) (j : nat) (p : Z) : list (list Z) :=
  alter (fun l => l ++ [p]) j ls.

Fixpoint pick (ls : list (list Z)) : Z * list (list Z) :=
  match ls with
  | [] => (0, [])
  | (p :: l) :: ls' => (p, l :: ls')
  | [] :: ls' => let '(p, ls'') := pick ls' in (p, [] :: ls'')
  end.

Definition boost (ls : list (list Z)) : list (list Z) := [concat ls; []; []; []].

(** ** Enqueueing *)

Definition enq_procs (m : gmap Z process) (l : list Z) (p : Z) : gmap Z process :=
  link_tail set_queue_next
    (alter (set_queue_prev (last0 l)) p (alter (set_p_state PROCESS_READY) p (alter (set_queue_next 0) p m)))
    l p.

Lemma enq_procs_linked m l p r :
  qlinked m l -> p ∉ l -> p <> 0 -> m !! p = Some r -> qlinked (enq_procs m l p) (l ++ [p]).
Proof.
  intros Hl Hp Hp0 Hr. unfold enq_procs.
  eapply (linked_push queue_next queue_prev set_queue_next set_queue_prev); try done.
  - by rewrite !lookup_alter_eq, Hr.
  - done.
  - done.
  - do 3 (apply linked_alter; [by left|]). done.
Qed.

Lemma enq_procs_other m l p a : a <> p -> a ∉ l -> enq_procs m l p !! a = m !! a.
Proof.
  intros Hap Hal. unfold enq_procs, link_tail. destruct (last l) as [t|] eqn:Et.
  - rewrite lookup_alter_ne by (intros ->; by apply Hal, last_Some_elem_of).
    by rewrite !lookup_alter_ne.
  - by rewrite !lookup_alter_ne.
Qed.

Lemma enq_procs_lookup m l p a r :
  p ∉ l -> m !! a = Some r -> exists r', enq_procs m l p !! a = Some r' /\
    priority r' = priority r /\ ticks_executed r' = ticks_executed r /\
    p_state r' = (if decide (a = p) then PROCESS_READY else p_state r) /\
    (a <> p -> queue_prev r' = queue_prev r).
Proof.
  intros Hp Hr. unfold enq_procs, link_tail.
  assert (H3 : exists r', alter (set_queue_prev (last0 l)) p (alter (set_p_state PROCESS_READY) p
      (alter (set_queue_next 0) p m)) !! a = Some r' /\ priority r' = priority r /\
      ticks_executed r' = ticks_executed r /\
      p_state r' = (if decide (a = p) then PROCESS_READY else p_state r) /\
      (a <> p -> queue_prev r' = queue_prev r)).
  { destruct (decide (a = p)) as [->|].
    - rewrite !lookup_alter_eq, Hr. eexists. split; [done|]. by split_and!.
    - rewrite !lookup_alter_ne by done. by exists r. }
  destruct H3 as (r3 & Hr3 & ? & ? & ? & ?). destruct (last l) as [t|] eqn:Et; [|eauto 6].
  destruct (decide (a = t)) as [->|].
  - rewrite lookup_alter_eq, Hr3. eexists. split; [done|]. by split_and!.
  - rewrite lookup_alter_ne by done. eauto 6.
Qed.

Lemma members_enq s s' j l l0 p :
  procs s' = enq_procs (procs s) l0 p -> p ∉ l0 -> members s j l -> members s' j l.
Proof.
  intros Hs' Hp Hm a Ha. destruct (Hm a Ha) as (r & Hr & Hpr & Hst).
  destruct (enq_procs_lookup _ l0 p a r Hp Hr) as (r' & Hr' & E1 & _ & E2 & _).
  exists r'. rewrite Hs', E1, E2. split_and!; [done|done|]. by case_decide.
Qed.

(** The machine's enqueue, on a process that is in no ready queue. *)
Lemma wp_mlfq_enqueue_raw s p r j q l :
  p <> 0 -> procs s !! p = Some r -> p_state r <> PROCESS_DEAD ->
  priority r = Z.of_nat j -> (j < length (mlfq s))%nat -> mlfq s !! j = Some q ->
  q_head q = hd0 l -> q_tail q = last0 l -> qlinked (procs s) l -> p ∉ l ->
  wp (mlfq_enqueue p) (fun _ s' =>
    s' = set_mlfq (<[j := mkQueue (hd0 (l ++ [p])) p (q_quantum q)]> (mlfq s))
           (set_procs (enq_procs (procs s) l p) s)) s.
Proof.
  intros Hp0 Hr Hst Hpr Hj Hq Hh Ht Hl Hp. unfold mlfq_enqueue.
  destruct (Z.eqb_spec p 0); [done|]. wp_steps.
  eapply wp_pget; [done|]. cbv beta. destruct (decide _); [done|]. wp_steps.
  eapply wp_pset; [done|]. cbv beta. wp_steps.
  eapply wp_pset; [simpl; by rewrite lookup_alter_eq, Hr|]. cbv beta. wp_steps.
  eapply wp_pget; [simpl; by rewrite !lookup_alter_eq, Hr|]. cbv beta. simpl priority.
  rewrite Hpr. wp_steps. eapply wp_qget; [lia|by rewrite Nat2Z.id|]. cbv beta. rewrite Hh.
  unfold enq_procs, link_tail. destruct l as [|a l'].
  - cbn [hd0 head default Z.eqb]. wp_steps.
    eapply wp_pset; [simpl; by rewrite !lookup_alter_eq, Hr|]. cbv beta. wp_steps.
    apply wp_qset; [simpl; lia|]. cbv beta. by rewrite Nat2Z.id.
  - rewrite hd0_cons. pose proof Hl as (_ & Hn & _).
    destruct (nexts_pop _ _ _ _ Hn) as (Ha & _ & _). destruct (Z.eqb_spec a 0); [done|]. wp_steps.
    eapply wp_pset; [simpl; by rewrite !lookup_alter_eq, Hr|]. cbv beta. wp_steps.
    rewrite Ht. destruct (last_split (a :: l') ltac:(done)) as (l0 & t & El & Elt).
    assert (Elast : last (a :: l') = Some t) by (rewrite El; apply last_snoc).
    rewrite Elast, Elt. assert (Htl : t ∈ a :: l') by (by apply last_Some_elem_of).
    destruct (nexts_lookup queue_next _ _ _ Hn Htl) as (_ & rt & Hrt).
    assert (Hpt : p <> t) by (intros ->; by apply Hp).
    eapply wp_pset; [simpl; by rewrite !lookup_alter_ne|]. cbv beta. wp_steps.
    apply wp_qset; [simpl; lia|]. cbv beta. rewrite Nat2Z.id. unfold set_q_tail. simpl. by rewrite Hh.
Qed.

(** The process table without the ready-queue links: what the queues do not own. *)
Definition qstrip : process -> process := strip set_queue_next set_queue_prev.

Lemma fmap_alter_same (f g : process -> process) (m : gmap Z process) a :
  (forall r, f (g r) = f r) -> f <$> alter g a m = f <$> m.
Proof.
  intros Hg. apply map_eq. intros b. rewrite !lookup_fmap. destruct (decide (a = b)) as [->|].
  - rewrite lookup_alter_eq. destruct (m !! b); simpl; [by rewrite Hg|done].
  - by rewrite lookup_alter_ne.
Qed.
Lemma fmap_alter_comm (f g h : process -> process) (m : gmap Z process) a :
  (forall r, f (g r) = h (f r)) -> f <$> alter g a m = alter h a (f <$> m).
Proof.
  intros Hg. apply map_eq. intros b. rewrite lookup_fmap. destruct (decide (a = b)) as [->|].
  - rewrite !lookup_alter_eq, lookup_fmap. destruct (m !! b); simpl; [by rewrite Hg|done].
  - by rewrite !lookup_alter_ne, lookup_fmap.
Qed.

Lemma enq_procs_strip m l p :
  qstrip <$> enq_procs m l p = alter (set_p_state PROCESS_READY) p (qstrip <$> m).
Proof.
  unfold enq_procs, link_tail.
  assert (H : qstrip <$> alter (set_queue_prev (last0 l)) p (alter (set_p_state PROCESS_READY) p
    (alter (set_queue_next 0) p m)) = alter (set_p_state PROCESS_READY) p (qstrip <$> m)).
  { rewrite fmap_alter_same by done.
    rewrite (fmap_alter_comm _ _ (set_p_state PROCESS_READY)) by done.
    by rewrite (fmap_alter_same qstrip (set_queue_next 0)). }
  destruct (last l) as [t|]; [|done]. by rewrite fmap_alter_same.
Qed.

(** What a scheduler operation leaves alone: everything but the ready queues. *)
Definition only_queues (s s' : sched) : Prop := s' = set_mlfq (mlfq s') (set_procs (procs s') s).

Lemma only_queues_refl s : only_queues s s.
Proof. by destruct s. Qed.
Lemma only_queues_trans s1 s2 s3 : only_queues s1 s2 -> only_queues s2 s3 -> only_queues s1 s3.
Proof. unfold only_queues. intros E1 E2. rewrite E2, E1. by destruct s1, s2, s3. Qed.

Lemma members_disjoint s i j l l' a :
  members s i l -> members s j l' -> a ∈ l -> a ∈ l' -> i = j.
Proof.
  intros H1 H2 Ha Ha'. destruct (H1 a Ha) as (r & Hr & Hp & _).
  destruct (H2 a Ha') as (r' & Hr' & Hp' & _). rewrite Hr in Hr'. injection Hr' as <-. lia.
Qed.

(** Another queue survives an enqueue. *)
Lemma linked_enq m l l' p :
  qlinked m l' -> p ∉ l' -> (forall a, a ∈ l -> a ∉ l') -> qlinked (enq_procs m l p) l'.
Proof.
  intros Hl Hp Hd. eapply linked_ext; [|exact Hl]. intros a r Ha Hr. exists r.
  rewrite enq_procs_other; [done|by intros ->|]. intros Hal. by apply (Hd a).
Qed.

Lemma wp_mlfq_enqueue s ls p r j l :
  mlfq_wf s ls -> p <> 0 -> procs s !! p = Some r -> p_state r <> PROCESS_DEAD ->
  priority r = Z.of_nat j -> ls !! j = Some l -> (forall l', l' ∈ ls -> p ∉ l') ->
  wp (mlfq_enqueue p) (fun _ s' => mlfq_wf s' (enq ls j p) /\ only_queues s s' /\
    qstrip <$> procs s' = alter (set_p_state PROCESS_READY) p (qstrip <$> procs s)) s.
Proof.
  intros (Hlen & Hls & Hq) Hp0 Hr Hst Hpr Hl Hnot.
  destruct (Hq j l Hl) as [(q & Hqj & Hh & Ht & Hqu & Hlk) Hm].
  assert (Hj : (j < length (mlfq s))%nat) by (by eapply lookup_lt_Some).
  assert (Hpl : p ∉ l) by (by apply Hnot; eapply list_elem_of_lookup_2).
  eapply wp_mono; [by eapply (wp_mlfq_enqueue_raw s p r j q l)|]. intros [] s' ->.
  split; [|split; [done|apply enq_procs_strip]].
  split; [simpl; by rewrite length_insert|]. split; [unfold enq; by rewrite length_alter|].
  intros k lk. unfold enq. destruct (decide (k = j)) as [->|Hk].
  - rewrite list_lookup_alter_eq, Hl. intros [= <-]. split.
    + eexists. simpl. rewrite list_lookup_insert_eq by done. split; [done|]. simpl.
      rewrite last0_snoc. split_and!; try done. by eapply enq_procs_linked.
    + intros a [Ha| ->%list_elem_of_singleton]%elem_of_app.
      * by eapply (members_enq s); [done|done|exact Hm|].
      * destruct (enq_procs_lookup _ l p p r Hpl Hr) as (r' & Hr' & E1 & _ & E2 & _).
        exists r'. simpl. rewrite decide_True in E2 by done. split_and!; [done|congruence|done].
  - rewrite list_lookup_alter_ne by done. intros Hlk'. destruct (Hq k lk Hlk') as [(qk & Hqk & ? & ? & ? & Hlkk) Hmk].
    split; [|by eapply (members_enq s)].
    exists qk. simpl. rewrite list_lookup_insert_ne by done. split_and!; try done.
    apply linked_enq; [done|by apply Hnot; eapply list_elem_of_lookup_2|].
    intros a Ha Ha'. destruct Hk. by eapply (members_disjoint s k j lk l a).
Qed.

(** ** Picking *)

Definition pick_procs (m : gmap Z process) (p : Z) (l : list Z) : gmap Z process :=
  alter (set_queue_prev 0) p (alter (set_queue_next 0) p
    (match l with [] => m | b :: _ => alter (set_queue_prev 0) b m end)).

Lemma pick_procs_linked m p l : qlinked m (p :: l) -> qlinked (pick_procs m p l) l.
Proof.
  intros Hl. pose proof Hl as (Hnd & _ & _). apply NoDup_cons in Hnd as [Hp _].
  unfold pick_procs. do 2 (apply linked_alter; [by left|]).
  destruct l as [|b l]; [apply linked_nil|].
  by eapply (linked_pop queue_next queue_prev set_queue_next set_queue_prev).
Qed.
Lemma pick_procs_other m p l a : a ∉ p :: l -> pick_procs m p l !! a = m !! a.
Proof.
  intros [Hap Hal]%not_elem_of_cons. unfold pick_procs. rewrite !lookup_alter_ne by done.
  destruct l as [|b l]; [done|]. apply not_elem_of_cons in Hal as [? _]. by rewrite lookup_alter_ne.
Qed.
Lemma pick_procs_strip m p l : qstrip <$> pick_procs m p l = qstrip <$> m.
Proof.
  unfold pick_procs. rewrite !fmap_alter_same by done. destruct l; [done|]. by rewrite fmap_alter_same.
Qed.

Lemma strip_members s s' j l :
  qstrip <$> procs s' = qstrip <$> procs s -> members s j l -> members s' j l.
Proof.
  intros E Hm a Ha. destruct (Hm a Ha) as (r & Hr & Hp & Hs).
  apply (f_equal (fun m => m !! a)) in E. rewrite !lookup_fmap, Hr in E.
  destruct (procs s' !! a) as [r'|]; simpl in E; [|done]. exists r'. apply (inj Some) in E.
  split; [done|]. split.
  - apply (f_equal priority) in E. simpl in E. congruence.
  - apply (f_equal p_state) in E. simpl in E. congruence.
Qed.

Lemma wp_pick_head s j q p l Q k :
  (j < length (mlfq s))%nat -> mlfq s !! j = Some q -> q_head q = p -> q_tail q = last0 (p :: l) ->
  qlinked (procs s) (p :: l) ->
  Q p (set_mlfq (<[j := mkQueue (hd0 l) (last0 l) (q_quantum q)]> (mlfq s))
        (set_procs (pick_procs (procs s) p l) s)) ->
  wp (pick_from (Z.of_nat j) (S k)) Q s.
Proof.
  intros Hj Hq Hh Ht Hl HQ. pose proof Hl as (Hnd & Hn & _). cbn [pick_from]. wp_steps.
  eapply wp_qget; [lia|by rewrite Nat2Z.id|]. cbv beta. rewrite Hh.
  destruct (nexts_pop _ _ _ _ Hn) as (Hp & (r & Hr & Hnx) & Hn').
  destruct (Z.eqb_spec p 0); [done|]. cbn [negb]. wp_steps.
  eapply wp_pget; [done|]. cbv beta. rewrite Hnx. wp_steps.
  apply wp_qset; [lia|]. cbv beta. wp_steps. rewrite Nat2Z.id.
  apply NoDup_cons in Hnd as [Hpl Hnd]. destruct l as [|b l].
  - cbn [hd0 head default Z.eqb negb]. wp_steps.
    eapply wp_qget; [lia|rewrite Nat2Z.id; simpl; by rewrite list_lookup_insert_eq|]. cbv beta.
    apply wp_qset; [simpl; rewrite length_insert; lia|]. cbv beta. wp_steps. rewrite Nat2Z.id.
    eapply wp_pset; [done|]. cbv beta. wp_steps.
    eapply wp_pset; [simpl; by rewrite lookup_alter_eq, Hr|]. cbv beta. wp_steps.
    simpl. rewrite list_insert_insert_eq. exact HQ.
  - rewrite hd0_cons. destruct (nexts_pop _ _ _ _ Hn') as (Hb & (rb & Hrb & _) & _).
    destruct (Z.eqb_spec b 0); [done|]. cbn [negb]. wp_steps.
    eapply wp_pset; [done|]. cbv beta. wp_steps.
    assert (Hpb : p <> b) by (intros ->; apply Hpl, list_elem_of_here).
    eapply wp_pset; [simpl; by rewrite lookup_alter_ne|]. cbv beta. wp_steps.
    eapply wp_pset; [simpl; by rewrite lookup_alter_eq, lookup_alter_ne, Hr|]. cbv beta. wp_steps.
    rewrite last0_cons in Ht by done. simpl. unfold set_q_head. rewrite Ht. exact HQ.
Qed.

Lemma pick_first ls i p l :
  (forall i', (i' < i)%nat -> ls !! i' = Some []) -> ls !! i = Some (p :: l) ->
  pick ls = (p, <[i := l]> ls).
Proof.
  revert i. induction ls as [|l0 ls IH]; intros i Hpre Hi; [done|]. destruct i as [|i].
  - simpl in Hi. by injection Hi as ->.
  - pose proof (Hpre O ltac:(lia)) as E. simpl in E. injection E as ->. simpl.
    rewrite (IH i); [done| |done]. intros i' Hi'. exact (Hpre (S i') ltac:(lia)).
Qed.
Lemma pick_none ls : (forall l, l ∈ ls -> l = []) -> pick ls = (0, ls).
Proof.
  induction ls as [|l0 ls IH]; intros H; [done|]. simpl.
  rewrite (H l0) by apply list_elem_of_here. rewrite IH; [done|].
  intros l Hl. apply H. by apply list_elem_of_further.
Qed.

Lemma pick_wf s ls i q p l :
  mlfq_wf s ls -> ls !! i = Some (p :: l) -> mlfq s !! i = Some q ->
  mlfq_wf (set_mlfq (<[i := mkQueue (hd0 l) (last0 l) (q_quantum q)]> (mlfq s))
        (set_procs (pick_procs (procs s) p l) s)) (<[i := l]> ls).
Proof.
  intros (Hlen & Hls & Hq) Hi Hqi. destruct (Hq i _ Hi) as [(q' & Hq' & Hh & Ht & Hqu & Hlk) Hm].
  rewrite Hqi in Hq'. injection Hq' as <-.
  split; [simpl; by rewrite length_insert|]. split; [by rewrite length_insert|].
  intros k lk. destruct (decide (k = i)) as [->|Hk].
  - rewrite list_lookup_insert_eq by (by eapply lookup_lt_Some). intros [= <-]. split.
    + eexists. simpl. rewrite list_lookup_insert_eq by (by eapply lookup_lt_Some). split; [done|].
      split_and!; try done. by apply pick_procs_linked.
    + apply (strip_members s); [apply pick_procs_strip|]. intros a Ha. apply Hm. by apply list_elem_of_further.
  - rewrite list_lookup_insert_ne by done. intros Hlk'.
    destruct (Hq k lk Hlk') as [(qk & Hqk & ? & ? & ? & Hlkk) Hmk]. split.
    + exists qk. simpl. rewrite list_lookup_insert_ne by done. split_and!; try done.
      eapply linked_ext; [|exact Hlkk]. intros a r Ha Hr. exists r. rewrite pick_procs_other; [done|].
      intros Ha'. destruct Hk. by eapply (members_disjoint s k i lk _ a).
    + apply (strip_members s); [apply pick_procs_strip|done].
Qed.

Lemma wp_mlfq_pick_next s ls :
  mlfq_wf s ls ->
  wp mlfq_pick_next (fun p s' => p = fst (pick ls) /\ mlfq_wf s' (snd (pick ls)) /\
    only_queues s s' /\ qstrip <$> procs s' = qstrip <$> procs s) s.
Proof.
  intros Hwf. pose proof Hwf as (Hlen & Hls & Hq). unfold mlfq_pick_next.
  assert (Hgen : forall k j, (j + k = NUM_QUEUES)%nat ->
    (forall i, (i < j)%nat -> ls !! i = Some []) ->
    wp (pick_from (Z.of_nat j) k) (fun p s' => p = fst (pick ls) /\ mlfq_wf s' (snd (pick ls)) /\
      only_queues s s' /\ qstrip <$> procs s' = qstrip <$> procs s) s).
  { induction k as [|k IH]; intros j Hjk Hpre.
    - simpl. wp_steps. rewrite pick_none.
      + split_and!; [done|done|apply only_queues_refl|done].
      + intros l [i Hi]%list_elem_of_lookup. pose proof (lookup_lt_Some _ _ _ Hi).
        rewrite Hpre in Hi by lia. congruence.
    - assert (Hj : (j < length ls)%nat) by lia. apply lookup_lt_is_Some_2 in Hj as [l Hl].
      destruct (Hq j l Hl) as [(q & Hqj & Hh & Ht & Hqu & Hlk) Hm]. destruct l as [|p l].
      + cbn [pick_from]. wp_steps. eapply wp_qget; [lia|by rewrite Nat2Z.id|]. cbv beta.
        rewrite Hh. cbn [hd0 head default Z.eqb negb]. replace (Z.of_nat j + 1) with (Z.of_nat (S j)) by lia.
        apply IH; [lia|]. intros i Hi. destruct (decide (i = j)) as [->|]; [done|]. apply Hpre. lia.
      + eapply wp_pick_head; try done; [lia|]. rewrite (pick_first ls j p l) by done.
        split; [done|]. split; [by apply pick_wf|]. split; [done|]. apply pick_procs_strip. }
  by apply (Hgen NUM_QUEUES O); [|lia].
Qed.

(** ** The priority boost *)

Definition boosted (r : process) : process :=
  set_p_state PROCESS_READY (set_ticks_executed 0 (set_priority 0 r)).
Definition boosted_all (l : list Z) (m : gmap Z process) : gmap Z process :=
  foldl (fun m p => alter boosted p m) m l.

Lemma boosted_all_app l l' m : boosted_all (l ++ l') m = boosted_all l' (boosted_all l m).
Proof. apply foldl_app. Qed.

(** The state inside the loop on queue [i]: queue 0 holds [l0], [l] is left; the
    rest of queue [i] is only linked forwards, as its [prev] links go stale. *)
Record boosting (s : sched) (ls : list (list Z)) (i : nat) (l0 l : list Z) : Prop := {
  bo_len : length (mlfq s) = NUM_QUEUES;
  bo_first : queue_ok s 0 l0 /\ members s 0 l0;
  bo_other : forall j lj, ls !! j = Some lj -> j <> O -> j <> i -> queue_ok s j lj /\ members s j lj;
  bo_queue : exists q, mlfq s !! i = Some q /\ q_head q = hd0 l /\ q_quantum q = 2 * (Z.of_nat i + 1);
  bo_rest : NoDup l /\ qnexts (procs s) l /\ members s i l;
}.

(** One process moved. *)
Definition boost_procs (m : gmap Z process) (p : Z) : gmap Z process :=
  alter (set_ticks_executed 0) p (alter (set_priority 0) p m).

Lemma boost_procs_linked m p l : qlinked m l -> qlinked (boost_procs m p) l.
Proof. intros H. do 2 (apply linked_alter; [by right|]). done. Qed.

Lemma boost_procs_members s s' j l p :
  procs s' = boost_procs (procs s) p -> p ∉ l -> members s j l -> members s' j l.
Proof.
  intros E Hp Hm a Ha. destruct (Hm a Ha) as (r & Hr & ?). exists r. rewrite E. unfold boost_procs.
  by rewrite !lookup_alter_ne by (intros ->; by apply Hp).
Qed.

Lemma boost_step s ls i l0 p l r q0 q :
  i <> O -> boosting s ls i l0 (p :: l) -> procs s !! p = Some r ->
  mlfq s !! O = Some q0 -> mlfq s !! i = Some q ->
  boosting (set_mlfq (<[O := mkQueue (hd0 (l0 ++ [p])) p (q_quantum q0)]> (<[i := set_q_head (hd0 l) q]> (mlfq s)))
    (set_procs (enq_procs (boost_procs (procs s) p) l0 p) s)) ls i (l0 ++ [p]) l.
Proof.
  intros Hi [Hlen [(q0' & Hq0' & Hh & Ht & Hqu & Hlk) Hm0] Hoth (q' & Hq' & Hqh & Hqq) (Hnd & Hn & Hm)] Hr Hq0 Hq.
  rewrite Hq0 in Hq0'. injection Hq0' as <-. rewrite Hq in Hq'. injection Hq' as <-.
  apply NoDup_cons in Hnd as [Hpl Hnd].
  destruct (nexts_pop _ _ _ _ Hn) as (Hp0 & _ & Hn').
  assert (Hpi : p ∈ p :: l) by apply list_elem_of_here.
  assert (Hp_l0 : p ∉ l0) by (intros Hp; destruct Hi; by eapply (members_disjoint s i 0 (p :: l) l0 p)).
  assert (Hr' : boost_procs (procs s) p !! p = Some (set_ticks_executed 0 (set_priority 0 r)))
    by (unfold boost_procs; by rewrite !lookup_alter_eq, Hr).
  set (s1 := set_procs (boost_procs (procs s) p) s).
  assert (Hmem : forall j lj, p ∉ lj -> members s j lj -> forall s', procs s' = enq_procs (procs s1) l0 p ->
    members s' j lj).
  { intros j lj Hpj Hmj s' E. eapply (members_enq s1); [done|done|]. by eapply boost_procs_members. }
  destruct (Hm p Hpi) as (r0 & Hr0 & Hpr0 & _). rewrite Hr in Hr0. injection Hr0 as <-.
  split.
  - simpl. by rewrite !length_insert.
  - split.
    + eexists. simpl. rewrite list_lookup_insert_eq by (rewrite length_insert, Hlen; unfold NUM_QUEUES; lia).
      split; [done|]. simpl. rewrite last0_snoc. split_and!; try done.
      eapply enq_procs_linked; [by apply boost_procs_linked|done|done|done].
    + intros a [Ha| ->%list_elem_of_singleton]%elem_of_app; [by eapply (Hmem O l0)|].
      destruct (enq_procs_lookup (procs s1) l0 p p _ Hp_l0 Hr') as (r2 & Hr2 & E1 & _ & E2 & _).
      exists r2. rewrite decide_True in E2 by done. split_and!; [done|by rewrite E1|done].
  - intros j lj Hj Hj0 Hji. destruct (Hoth j lj Hj Hj0 Hji) as [(qj & Hqj & ? & ? & ? & Hlkj) Hmj].
    assert (Hpj : p ∉ lj) by (intros Hp; destruct Hji; by eapply (members_disjoint s j i lj (p :: l) p)).
    split; [|by eapply Hmem]. exists qj. simpl.
    rewrite !list_lookup_insert_ne by done. split_and!; try done.
    apply linked_enq; [by apply boost_procs_linked|done|].
    intros a Ha Ha'. destruct Hj0. by eapply (members_disjoint s j 0 lj l0 a).
  - exists (set_q_head (hd0 l) q). simpl. rewrite list_lookup_insert_ne by done.
    rewrite list_lookup_insert_eq by (by eapply lookup_lt_Some). done.
  - assert (Hml : members s i l) by (intros a Ha; apply Hm; by apply list_elem_of_further).
    split_and!; [done| |by eapply Hmem].
    intros k a Ha. destruct (Hn' k a Ha) as (Ha0 & ra & Hra & Hna). split; [done|].
    assert (Hal : a ∈ l) by (by eapply list_elem_of_lookup_2). exists ra.
    simpl procs. rewrite enq_procs_other; [|by intros ->|intros Ha'; destruct Hi; by eapply (members_disjoint s i 0 l l0 a)].
    simpl. unfold boost_procs. by rewrite !lookup_alter_ne by (intros ->; by apply Hpl).
Qed.

Lemma boost_strip m l0 p :
  qstrip <$> enq_procs (boost_procs m p) l0 p = alter boosted p (qstrip <$> m).
Proof.
  rewrite enq_procs_strip. unfold boost_procs.
  rewrite (fmap_alter_comm _ _ (set_ticks_executed 0)) by done.
  rewrite (fmap_alter_comm _ _ (set_priority 0)) by done. by rewrite !alter_alter_eq.
Qed.

Lemma wp_boost_queue ls i l : forall l0 s fuel,
  i <> O -> boosting s ls i l0 l -> (length l < fuel)%nat ->
  wp (boost_queue (Z.of_nat i) fuel) (fun _ s' => boosting s' ls i (l0 ++ l) [] /\ only_queues s s' /\
    qstrip <$> procs s' = boosted_all l (qstrip <$> procs s)) s.
Proof.
  induction l as [|p l IH]; intros l0 s fuel Hi Hb Hf; (destruct fuel as [|fuel]; [simpl in Hf; lia|]);
    pose proof Hb as [Hlen [(q0 & Hq0 & Hh & Ht & Hqu & Hlk) Hm0] Hoth (q & Hq & Hqh & Hqq) (Hnd & Hn & Hm)];
    cbn [boost_queue]; wp_steps; (eapply wp_qget; [lia|by rewrite Nat2Z.id|]); cbv beta; rewrite Hqh.
  - cbn [hd0 head default Z.eqb]. wp_steps. rewrite app_nil_r.
    split; [done|]. split; [apply only_queues_refl|done].
  - rewrite hd0_cons. destruct (nexts_pop _ _ _ _ Hn) as (Hp & (r & Hr & Hnx) & Hn').
    destruct (Hm p ltac:(apply list_elem_of_here)) as (r0 & Hr0 & Hpr & Hst).
    rewrite Hr in Hr0. injection Hr0 as <-.
    destruct (Z.eqb_spec p 0); [done|]. wp_steps. eapply wp_pget; [done|]. cbv beta. rewrite Hnx. wp_steps.
    apply wp_qset; [apply lookup_lt_Some in Hq; lia|]. cbv beta. rewrite Nat2Z.id. wp_steps.
    eapply wp_pset; [done|]. cbv beta. wp_steps.
    eapply wp_pset; [simpl; by rewrite lookup_alter_eq, Hr|]. cbv beta. wp_steps. simpl procs. simpl mlfq.
    assert (Hp_l0 : p ∉ l0).
    { intros Hpl. destruct Hi. eapply (members_disjoint s i 0 (p :: l) l0 p); try done. apply list_elem_of_here. }
    eapply wp_mono; [eapply (wp_mlfq_enqueue_raw _ p (set_ticks_executed 0 (set_priority 0 r)) 0 q0 l0)|].
    + done.
    + simpl. by rewrite !lookup_alter_eq, Hr.
    + simpl. by rewrite Hst.
    + done.
    + simpl. rewrite length_insert, Hlen. unfold NUM_QUEUES. lia.
    + simpl. by rewrite list_lookup_insert_ne.
    + done.
    + done.
    + simpl. by apply boost_procs_linked.
    + done.
    + intros [] s' ->. eapply wp_mono; [eapply (IH (l0 ++ [p]))|].
      * done.
      * apply (boost_step s ls i l0 p l r q0 q); done.
      * simpl in Hf. lia.
      * intros [] s'' (H1 & H2 & H3). rewrite <- app_assoc in H1. split; [exact H1|]. split.
        -- eapply only_queues_trans; [|exact H2]. done.
        -- rewrite H3. simpl. f_equal. apply boost_strip.
Qed.

Lemma members_length s j l : NoDup l -> members s j l -> (length l <= size (procs s))%nat.
Proof.
  intros Hnd Hm. rewrite <- (size_list_to_set (C := gset Z) l) by done. rewrite <- size_dom.
  apply subseteq_size. intros a. rewrite elem_of_list_to_set. intros Ha.
  destruct (Hm a Ha) as (r & Hr & _). by eapply elem_of_dom_2.
Qed.

Lemma wp_boost_one s ls i l0 l fuel :
  i <> O -> mlfq_wf s ls -> ls !! O = Some l0 -> ls !! i = Some l -> (length l < fuel)%nat ->
  wp (boost_queue (Z.of_nat i) fuel ;; q <- qget (Z.of_nat i) ;; qset (Z.of_nat i) (set_q_tail 0 q))
    (fun _ s' => mlfq_wf s' (<[i := []]> (<[O := l0 ++ l]> ls)) /\ only_queues s s' /\
      qstrip <$> procs s' = boosted_all l (qstrip <$> procs s)) s.
Proof.
  intros Hi (Hlen & Hls & Hwf) H0 Hl Hf. wp_steps.
  eapply wp_mono; [apply (wp_boost_queue ls i l l0 s fuel); [done| |done]|].
  - split; [done|by apply Hwf|by intros; apply Hwf| |].
    + destruct (Hwf i l Hl) as [(q & ? & ? & ? & ? & ?) _]. eauto.
    + destruct (Hwf i l Hl) as [(q & _ & _ & _ & _ & (? & ? & _)) ?]. done.
  - intros [] s' ([Hlen' [Hf0 Hm0] Hoth (q & Hq & Hqh & Hqq) _] & Ho & Hs). wp_steps.
    eapply wp_qget; [lia|by rewrite Nat2Z.id|]. cbv beta.
    assert (Hil : (i < length (mlfq s'))%nat) by (by eapply lookup_lt_Some).
    apply wp_qset; [lia|]. cbv beta. rewrite Nat2Z.id.
    split; [|split; [|done]].
    2:{ eapply only_queues_trans; [exact Ho|]. by destruct s'. }
    split; [simpl; by rewrite length_insert|]. split; [by rewrite !length_insert|].
    intros j lj. destruct (decide (j = i)) as [->|Hj].
    + rewrite list_lookup_insert_eq by (rewrite length_insert; by eapply lookup_lt_Some).
      intros [= <-]. split; [|by intros a Ha%not_elem_of_nil].
      eexists. simpl. rewrite list_lookup_insert_eq by done. split; [done|]. split_and!; try done.
      apply linked_nil.
    + rewrite list_lookup_insert_ne by done.
      assert (Hgen : forall lj, queue_ok s' j lj /\ members s' j lj ->
        queue_ok (set_mlfq (<[i:=set_q_tail 0 q]> (mlfq s')) s') j lj /\
        members (set_mlfq (<[i:=set_q_tail 0 q]> (mlfq s')) s') j lj).
      { intros l' [(qj & ? & ?) ?]. split; [|done]. exists qj. simpl. by rewrite list_lookup_insert_ne. }
      destruct (decide (j = O)) as [->|Hj0].
      * rewrite list_lookup_insert_eq by (by eapply lookup_lt_Some). intros [= <-]. by apply Hgen.
      * rewrite list_lookup_insert_ne by done. intros Hlj. apply Hgen. by apply Hoth.
Qed.

Lemma wp_mlfq_boost_all s l0 l1 l2 l3 :
  mlfq_wf s [l0; l1; l2; l3] ->
  wp mlfq_boost_all (fun _ s' => mlfq_wf s' (boost [l0; l1; l2; l3]) /\ only_queues s s' /\
    qstrip <$> procs s' = boosted_all (l1 ++ l2 ++ l3) (qstrip <$> procs s)) s.
Proof.
  intros Hwf. pose proof Hwf as (_ & _ & Hq).
  assert (Hlen : forall j l, [l0; l1; l2; l3] !! j = Some l -> (length l < S (size (procs s)))%nat).
  { intros j l Hl. destruct (Hq j l Hl) as [(q & _ & _ & _ & _ & (Hnd & _)) Hm].
    pose proof (members_length s j l Hnd Hm). lia. }
  unfold mlfq_boost_all. wp_steps. set (fuel := S (size (procs s))) in *. cbn [for_range].
  wp_step. eapply wp_mono; [apply (wp_boost_one s [l0; l1; l2; l3] 1 l0 l1 fuel); try done; by apply (Hlen 1%nat)|].
  intros [] s1 (H1 & O1 & S1). cbn in H1. wp_step.
  eapply wp_mono; [apply (wp_boost_one s1 [l0 ++ l1; []; l2; l3] 2 (l0 ++ l1) l2 fuel); try done; by apply (Hlen 2%nat)|].
  intros [] s2 (H2 & O2 & S2). cbn in H2. wp_step.
  eapply wp_mono; [apply (wp_boost_one s2 [(l0 ++ l1) ++ l2; []; []; l3] 3 ((l0 ++ l1) ++ l2) l3 fuel); try done; by apply (Hlen 3%nat)|].
  intros [] s3 (H3 & O3 & S3). cbn in H3. wp_steps. split; [|split].
  - unfold boost. simpl. rewrite app_nil_r, !app_assoc. exact H3.
  - eapply only_queues_trans; [|exact O3]. by eapply only_queues_trans.
  - by rewrite !boosted_all_app, S3, S2, S1.
Qed.

(** ** Initialisation *)

Lemma wp_mlfq_init s :
  length (mlfq s) = NUM_QUEUES ->
  wp mlfq_init (fun _ s' => mlfq_wf s' [[]; []; []; []] /\ s' = set_mlfq (mlfq s') s) s.
Proof.
  intros Hlen. destruct s as [pr pq cp ip np m g]. simpl in Hlen.
  destruct m as [|q0 [|q1 [|q2 [|q3 [|]]]]]; try done.
  cbn. split; [|done]. split; [done|]. split; [done|]. intros j l Hl.
  do 4 (destruct j as [|j]; [injection Hl as <-; split;
    [eexists; simpl; split; [done|]; split_and!; try done; apply linked_nil|by intros a Ha%not_elem_of_nil]|]).
  done.
Qed.

(** ** Runs of scheduler operations *)

Inductive mlfq_op := Enqueue (p : Z) | Pick | Boost.

Definition run_mlfq (o : mlfq_op) : M sched Z :=
  match o with
  | Enqueue p => mlfq_enqueue p ;; ret 0
  | Pick => mlfq_pick_next
  | Boost => mlfq_boost_all ;; ret 0
  end.

(** The abstract scheduler: the lists, and the table without links. *)
Record asched := mkA { a_lists : list (list Z); a_table : gmap Z process }.

Definition abs_step (o : mlfq_op) (a : asched) : Z * asched :=
  match o with
  | Enqueue p =>
      (0, mkA (match a_table a !! p with
               | Some r => enq (a_lists a) (Z.to_nat (priority r)) p
               | None => a_lists a
               end) (alter (set_p_state PROCESS_READY) p (a_table a)))
  | Pick => (fst (pick (a_lists a)), mkA (snd (pick (a_lists a))) (a_table a))
  | Boost => (0, mkA (boost (a_lists a)) (boosted_all (concat (tail (a_lists a))) (a_table a)))
  end.

(** What callers must ensure: only a live process that is in no queue is enqueued. *)
Definition legal_op (o : mlfq_op) (a : asched) : Prop :=
  match o with
  | Enqueue p => p <> 0 /\ (forall l, l ∈ a_lists a -> p ∉ l) /\
      exists r, a_table a !! p = Some r /\ p_state r <> PROCESS_DEAD /\ 0 <= priority r < 4
  | _ => True
  end.

Fixpoint run_mlfqs (os : list mlfq_op) : M sched (list Z) :=
  match os with
  | [] => ret []
  | o :: os' => x <- run_mlfq o ;; xs <- run_mlfqs os' ;; ret (x :: xs)
  end.
Fixpoint abs_run (os : list mlfq_op) (a : asched) : list Z * asched :=
  match os with
  | [] => ([], a)
  | o :: os' => let '(x, a') := abs_step o a in let '(xs, a'') := abs_run os' a' in (x :: xs, a'')
  end.
Fixpoint legal_ops (os : list mlfq_op) (a : asched) : Prop :=
  match os with
  | [] => True
  | o :: os' => legal_op o a /\ legal_ops os' (snd (abs_step o a))
  end.

Definition implements (s : sched) (a : asched) : Prop :=
  mlfq_wf s (a_lists a) /\ qstrip <$> procs s = a_table a.

Lemma run_mlfq_step s a o :
  implements s a -> legal_op o a ->
  wp (run_mlfq o) (fun x s' => x = fst (abs_step o a) /\ implements s' (snd (abs_step o a)) /\
    only_queues s s') s.
Proof.
  intros [Hwf Ht] Hlegal. pose proof Hwf as (Hlen & Hls & _).
  destruct a as [ls m]. simpl in *. subst m. destruct o as [p| |]; simpl in *.
  - destruct Hlegal as (Hp & Hnot & r' & Hr' & Hst & Hpr). rewrite Hr'. wp_step.
    rewrite lookup_fmap in Hr'. destruct (procs s !! p) as [r|] eqn:Hr; [|done].
    simpl in Hr'. apply (inj Some) in Hr' as <-. 
    change (p_state (qstrip r)) with (p_state r) in Hst. change (priority (qstrip r)) with (priority r) in *.
    destruct (lookup_lt_is_Some_2 ls (Z.to_nat (priority r))) as [l Hl]; [rewrite Hls; unfold NUM_QUEUES; lia|].
    eapply wp_mono; [by eapply (wp_mlfq_enqueue s ls p r (Z.to_nat (priority r)) l); try done; lia|].
    intros [] s' (H1 & H2 & H3). wp_steps. done.
  - eapply wp_mono; [by apply wp_mlfq_pick_next|]. intros x s' (-> & H1 & H2 & H3). done.
  - destruct ls as [|l0 [|l1 [|l2 [|l3 [|]]]]]; try done. wp_step.
    eapply wp_mono; [by apply wp_mlfq_boost_all|]. intros [] s' (H1 & H2 & H3). wp_steps.
    split; [done|]. split; [|done]. split; [done|]. rewrite H3. simpl. by rewrite app_nil_r.
Qed.

Lemma run_mlfqs_refines os : forall s a,
  implements s a -> legal_ops os a ->
  wp (run_mlfqs os) (fun xs s' => xs = fst (abs_run os a) /\ implements s' (snd (abs_run os a)) /\
    only_queues s s') s.
Proof.
  induction os as [|o os IH]; intros s a Ha Hl; simpl.
  - wp_steps. split; [done|]. split; [done|apply only_queues_refl].
  - destruct Hl as [Ho Hos]. wp_step. eapply wp_mono; [by apply (run_mlfq_step s a)|].
    intros x s' (-> & Ha' & Hq). wp_step. destruct (abs_step o a) as [x a']. simpl in *.
    eapply wp_mono; [by apply (IH s' a')|]. intros xs s'' (-> & Ha'' & Hq'). wp_steps.
    destruct (abs_run os a') as [xs' a'']. simpl in *. split; [done|]. split; [done|].
    by eapply only_queues_trans.
Qed.

(** C29: The linked ready queues implement four first-in first-out lists: every
    sequence of enqueues of live, unqueued processes, picks and priority boosts
    returns what the list scheduler returns, stays well linked (heads, tails,
    links both ways, no process twice, states and priorities as queued), touches
    no other field of any process, and every boost loop terminates. *)
Theorem mlfq_refines_lists (os : list mlfq_op) (s : sched) (a : asched) :
  implements s a -> legal_ops os a ->
  wp (run_mlfqs os) (fun xs s' => xs = fst (abs_run os a) /\ implements s' (snd (abs_run os a)) /\
    only_queues s s') s.
Proof. apply run_mlfqs_refines. Qed.

(** [mlfq_init] makes four empty queues with quanta 2, 4, 6 and 8 ticks. *)
Theorem mlfq_init_correct (s : sched) :
  length (mlfq s) = NUM_QUEUES ->
  wp mlfq_init (fun _ s' => mlfq_wf s' [[]; []; []; []] /\ s' = set_mlfq (mlfq s') s) s.
Proof. apply wp_mlfq_init. Qed.

(** The comment on [mlfq_enqueue] says that a process already in the queue
    is not enqueued; the code has no such test: enqueueing the tail of its queue
    again links the process to itself. *)
Theorem mlfq_enqueue_twice (s : sched) (p : Z) (r : process) (q : queue_t) :
  p <> 0 -> procs s !! p = Some r -> p_state r = PROCESS_READY -> 0 <= priority r ->
  mlfq s !! Z.to_nat (priority r) = Some q -> q_head q <> 0 -> q_tail q = p ->
  wp (mlfq_enqueue p) (fun _ s' =>
    exists r', procs s' !! p = Some r' /\ queue_next r' = p /\ queue_prev r' = p) s.
Proof.
  intros Hp Hr Hst Hpr Hq Hh Ht. unfold mlfq_enqueue. destruct (Z.eqb_spec p 0); [done|]. wp_steps.
  eapply wp_pget; [done|]. cbv beta. rewrite Hst. destruct (decide _); [done|]. wp_steps.
  eapply wp_pset; [done|]. cbv beta. wp_steps.
  eapply wp_pset; [simpl; by rewrite lookup_alter_eq, Hr|]. cbv beta. wp_steps.
  eapply wp_pget; [simpl; by rewrite !lookup_alter_eq, Hr|]. cbv beta. wp_steps.
  eapply wp_qget; [done|exact Hq|]. cbv beta. destruct (Z.eqb_spec (q_head q) 0); [done|]. wp_steps.
  eapply wp_pset; [simpl; by rewrite !lookup_alter_eq, Hr|]. cbv beta. rewrite Ht. wp_steps.
  eapply wp_pset; [simpl; by rewrite !lookup_alter_eq, Hr|]. cbv beta. wp_steps.
  apply wp_qset; [simpl; apply lookup_lt_Some in Hq; lia|]. cbv beta.
  simpl. rewrite !lookup_alter_eq, Hr. eexists. split; [done|]. done.
Qed.

(** ** Instances *)

(** Three processes, at 16, 32 and 48, with priorities 0, 2 and 0. *)
Definition demo_procs : gmap Z process :=
  <[16 := set_p_state PROCESS_RUNNING proc_zero]>
  (<[32 := set_priority 2 proc_zero]> (<[48 := proc_zero]> ∅)).
Definition demo_sched : sched :=
  mkSched demo_procs 16 16 0 4
    [mkQueue 0 0 2; mkQueue 0 0 4; mkQueue 0 0 6; mkQueue 0 0 8] 0.
Definition demo_asched : asched := mkA [[]; []; []; []] (qstrip <$> demo_procs).
Definition demo_mlfq_ops : list mlfq_op :=
  [Enqueue 32; Enqueue 16; Pick; Boost; Enqueue 48; Pick; Pick; Pick].

Lemma demo_sched_implements : implements demo_sched demo_asched.
Proof.
  split; [|done]. split; [done|]. split; [done|]. intros j l Hl.
  do 4 (destruct j as [|j]; [injection Hl as <-; split;
    [eexists; simpl; split; [done|]; split_and!; try done; apply linked_nil|by intros a Ha%not_elem_of_nil]|]).
  done.
Qed.

Lemma mlfq_refines_lists_witness :
  wp (run_mlfqs demo_mlfq_ops) (fun xs _ => xs = [0; 0; 16; 0; 0; 32; 48; 0]) demo_sched.
Proof.
  eapply wp_mono; [apply (mlfq_refines_lists demo_mlfq_ops demo_sched demo_asched demo_sched_implements)|].
  - assert (Hd : forall (ls : list (list Z)) (p : Z), forallb (fun l => forallb (fun x => negb (p =? x)) l) ls = true ->
      forall l, l ∈ ls -> p ∉ l).
    { intros ls p Hf l Hl Hp. rewrite forallb_forall in Hf. apply list_elem_of_In in Hl.
      specialize (Hf l Hl). rewrite forallb_forall in Hf. apply list_elem_of_In in Hp.
      specialize (Hf p Hp). by rewrite Z.eqb_refl in Hf. }
    cbn [legal_ops demo_mlfq_ops legal_op]. split_and!; try exact I; try discriminate;
      try (apply Hd; vm_compute; reflexivity);
      (eexists; split; [vm_compute; reflexivity|split; [discriminate|split; [discriminate|reflexivity]]]).
  - intros xs s' (-> & _). vm_compute. reflexivity.
Defined.

Lemma mlfq_init_correct_witness :
  wp mlfq_init (fun _ s' => mlfq_wf s' [[]; []; []; []]) demo_sched.
Proof.
  eapply wp_mono; [apply (mlfq_init_correct demo_sched eq_refl)|]. intros u s' [H _]. exact H.
Defined.

(** Process 48 waits alone in queue 0. *)
Definition demo_queued : sched :=
  mkSched demo_procs 16 16 0 4
    [mkQueue 48 48 2; mkQueue 0 0 4; mkQueue 0 0 6; mkQueue 0 0 8] 0.

Lemma mlfq_enqueue_twice_witness :
  wp (mlfq_enqueue 48) (fun _ s' =>
    exists r', procs s' !! 48 = Some r' /\ queue_next r' = 48 /\ queue_prev r' = 48) demo_queued.
Proof.
  apply (mlfq_enqueue_twice demo_queued 48 proc_zero (mkQueue 48 48 2)); try discriminate; reflexivity.
Defined.
