(* ===== verification/Wait.v ===== *)
(** * Blocking and waking

    The two moves every blocking primitive of the kernel is made of: parking
    the current process on a wait queue, and moving a parked process back to
    the ready queues.  The pipe, keyboard and mouse code use them. *)

From S2P Require Import Prelude Proc Queues Mlfq.

(** [waiter = wait_queue_pop(wq); if (waiter) mlfq_enqueue(waiter);] *)
Definition wake_one (wq : wait_queue) : M sched wait_queue :=
  x <- wait_queue_pop wq ;;
  (if negb (fst x =? 0) then mlfq_enqueue (fst x) else ret tt) ;;
  ret (snd x).

(** [current_process->state = st; wait_queue_push(wq, current_process);] *)
Definition park (st : process_state) (wq : wait_queue) : M sched wait_queue :=
  p <- gets current_process ;;
  pset (set_p_state st) p ;;
  wait_queue_push wq p.

(** [while ((p = wait_queue_pop(wq)) != NULL) mlfq_enqueue(p);] *)
Fixpoint wake_all_loop (wq : wait_queue) (fuel : nat) : M sched wait_queue :=
  match fuel with
  | O => undef
  | S fuel' =>
      x <- wait_queue_pop wq ;;
      if fst x =? 0 then ret (snd x)
      else mlfq_enqueue (fst x) ;; wake_all_loop (snd x) fuel'
  end.
Definition wake_all (wq : wait_queue) : M sched wait_queue :=
  s <- get ;; wake_all_loop wq (S (size (procs s))).

(** ** What they rely on and leave alone *)

(** The processes of [l] are parked in state [st]. *)
Definition parked (m : gmap Z process) (st : process_state) (l : list Z) : Prop :=
  forall a, a ∈ l -> exists r, m !! a = Some r /\ p_state r = st /\ 0 <= priority r < 4.

(** Every field of process [a] but its ready-queue links is the same. *)
Definition same_but_queue (m m' : gmap Z process) (a : Z) : Prop :=
  qstrip <$> m' !! a = qstrip <$> m !! a.

Lemma same_but_queue_Some m m' a r :
  same_but_queue m m' a -> m !! a = Some r -> exists r', m' !! a = Some r' /\ qstrip r' = qstrip r.
Proof.
  unfold same_but_queue. intros H Hr. rewrite Hr in H. simpl in H.
  destruct (m' !! a) as [r'|]; simpl in H; [|done]. exists r'. split; [done|]. by apply (inj Some) in H.
Qed.
Lemma same_but_queue_trans m1 m2 m3 a :
  same_but_queue m1 m2 a -> same_but_queue m2 m3 a -> same_but_queue m1 m3 a.
Proof. unfold same_but_queue. congruence. Qed.

Lemma qstrip_field {A} (f : process -> A) r r' :
  (forall r, f (qstrip r) = f r) -> qstrip r' = qstrip r -> f r' = f r.
Proof. intros Hf E. rewrite <- (Hf r'), E. apply Hf. Qed.

Lemma parked_frame m m' st l :
  (forall a, a ∈ l -> same_but_queue m m' a) -> parked m st l -> parked m' st l.
Proof.
  intros Hs Hp a Ha. destruct (Hp a Ha) as (r & Hr & ? & ?).
  destruct (same_but_queue_Some _ _ _ _ (Hs a Ha) Hr) as (r' & Hr' & E). exists r'.
  rewrite (qstrip_field p_state r r'), (qstrip_field priority r r') by done. done.
Qed.
Lemma wq_rep_frame m m' wq l :
  (forall a, a ∈ l -> same_but_queue m m' a) -> wq_rep m wq l -> wq_rep m' wq l.
Proof.
  intros Hs (Hl & ? & ?). split; [|done]. eapply linked_ext; [|exact Hl].
  intros a r Ha Hr. destruct (same_but_queue_Some _ _ _ _ (Hs a Ha) Hr) as (r' & Hr' & E). exists r'.
  rewrite (qstrip_field wait_next r r'), (qstrip_field wait_prev r r') by done. done.
Qed.

(** Changes of wait links do not concern the ready queues. *)
Lemma wrelinked_field {A} (f : process -> A) X m m' a r :
  wrelinked X m m' -> (forall r, f (strip set_wait_next set_wait_prev r) = f r) -> m !! a = Some r ->
  exists r', m' !! a = Some r' /\ f r' = f r.
Proof.
  intros H Hf Hr. destruct (relinked_lookup _ _ _ _ _ _ _ H Hr) as (r' & Hr' & E). exists r'.
  split; [done|]. rewrite <- (Hf r'), E. apply Hf.
Qed.

Lemma mlfq_wf_relinked s s' ls X :
  wrelinked X (procs s) (procs s') -> mlfq s' = mlfq s -> mlfq_wf s ls -> mlfq_wf s' ls.
Proof.
  intros Hrel Hm (Hlen & Hls & Hq). rewrite <- Hm in Hlen. split; [done|]. split; [done|].
  intros j l Hl. destruct (Hq j l Hl) as [(q & Hqj & ? & ? & ? & Hlk) Hmem]. split.
  - exists q. rewrite Hm. split_and!; try done. eapply linked_ext; [|exact Hlk]. intros a r Ha Hr.
    destruct (wrelinked_field (fun r => (queue_next r, queue_prev r)) X _ _ a r Hrel) as (r' & Hr' & E);
      [done|done|]. exists r'. injection E as E1 E2. done.
  - intros a Ha. destruct (Hmem a Ha) as (r & Hr & ? & ?).
    destruct (wrelinked_field (fun r => (priority r, p_state r)) X _ _ a r Hrel) as (r' & Hr' & E);
      [done|done|]. exists r'. injection E as E1 E2. rewrite E1, E2. done.
Qed.

Lemma parked_relinked m m' st l X : wrelinked X m m' -> parked m st l -> parked m' st l.
Proof.
  intros Hrel Hp a Ha. destruct (Hp a Ha) as (r & Hr & ? & ?).
  destruct (wrelinked_field (fun r => (priority r, p_state r)) X _ _ a r Hrel) as (r' & Hr' & E);
    [done|done|]. exists r'. injection E as E1 E2. rewrite E1, E2. done.
Qed.

Lemma parked_unqueued s ls st l a :
  mlfq_wf s ls -> parked (procs s) st l -> st <> PROCESS_READY -> a ∈ l ->
  forall l', l' ∈ ls -> a ∉ l'.
Proof.
  intros (_ & _ & Hq) Hp Hst Ha l' [j Hj]%list_elem_of_lookup Ha'.
  destruct (Hq j l' Hj) as [_ Hm]. destruct (Hm a Ha') as (r & Hr & _ & E).
  destruct (Hp a Ha) as (r' & Hr' & E' & _). congruence.
Qed.

(** The abstract effect of waking [l]: appended to the queues of their priorities. *)
Definition prio (m : gmap Z process) (a : Z) : nat :=
  match m !! a with Some r => Z.to_nat (priority r) | None => O end.
Definition woken (m : gmap Z process) (ls : list (list Z)) (l : list Z) : list (list Z) :=
  foldl (fun ls a => enq ls (prio m a) a) ls l.

(** What blocking and waking leave alone of every process: everything but the
    links of the queues and the state. *)
Definition core (r : process) : process :=
  set_p_state PROCESS_READY (strip set_wait_next set_wait_prev (qstrip r)).
Definition same_core (m m' : gmap Z process) : Prop := forall a, core <$> m' !! a = core <$> m !! a.

Lemma same_core_refl m : same_core m m.
Proof. done. Qed.
Lemma same_core_trans m1 m2 m3 : same_core m1 m2 -> same_core m2 m3 -> same_core m1 m3.
Proof. intros H1 H2 a. by rewrite H2. Qed.
Lemma core_field {A} (f : process -> A) m m' a :
  (forall r, f (core r) = f r) -> same_core m m' -> f <$> m' !! a = f <$> m !! a.
Proof.
  intros Hf H. specialize (H a). destruct (m !! a) as [r|], (m' !! a) as [r'|]; cbn in *; try done.
  apply (inj Some) in H. by rewrite <- (Hf r'), H, Hf.
Qed.
Lemma core_strip (f : process -> process) (m m' : gmap Z process) :
  (forall r, core (f r) = core r) -> f <$> m' = f <$> m -> same_core m m'.
Proof.
  intros Hf E a. apply (f_equal (fun x => core <$> x !! a)) in E. rewrite !lookup_fmap in E.
  destruct (m !! a) as [r|], (m' !! a) as [r'|]; cbn in *; try done. by rewrite !Hf in E.
Qed.
Lemma core_relinked X m m' : wrelinked X m m' -> same_core m m'.
Proof. intros [E _]. by apply core_strip in E. Qed.
Lemma core_enqueue m m' p :
  qstrip <$> m' = alter (set_p_state PROCESS_READY) p (qstrip <$> m) -> same_core m m'.
Proof.
  intros E. apply (core_strip (fun r => set_p_state PROCESS_READY (qstrip r))); [done|].
  apply (f_equal (fmap (set_p_state PROCESS_READY))) in E. rewrite <- map_fmap_compose in E.
  rewrite fmap_alter_same, <- map_fmap_compose in E by done. exact E.
Qed.
Lemma prio_core m m' a : same_core m m' -> prio m' a = prio m a.
Proof.
  intros H. pose proof (core_field priority m m' a ltac:(done) H) as E. unfold prio.
  destruct (m !! a) as [r|], (m' !! a) as [r'|]; cbn in E; try done. by injection E as ->.
Qed.

(** ** Their specifications *)

Lemma enqueue_frame s s' p :
  qstrip <$> procs s' = alter (set_p_state PROCESS_READY) p (qstrip <$> procs s) ->
  forall a, a <> p -> same_but_queue (procs s) (procs s') a.
Proof.
  intros E a Ha. apply (f_equal (fun m => m !! a)) in E.
  rewrite lookup_alter_ne, !lookup_fmap in E by done. exact E.
Qed.

Lemma woken_prio m m' l ls : (forall a, prio m' a = prio m a) -> woken m' ls l = woken m ls l.
Proof.
  intros H. revert ls. induction l as [|a l IH]; intros ls; [done|]. unfold woken in *. simpl.
  by rewrite H, IH.
Qed.

Lemma wp_wake_one s ls wq l st :
  st <> PROCESS_READY -> st <> PROCESS_DEAD ->
  wq_rep (procs s) wq l -> parked (procs s) st l -> mlfq_wf s ls ->
  wp (wake_one wq) (fun wq' s' =>
    wq_rep (procs s') wq' (tail l) /\ parked (procs s') st (tail l) /\
    mlfq_wf s' (woken (procs s) ls (take 1 l)) /\ only_queues s s' /\
    (forall a, a ∉ l -> same_but_queue (procs s) (procs s') a) /\
    same_core (procs s) (procs s')) s.
Proof.
  intros Hst Hdead Hwq Hpk Hwf. unfold wake_one. wp_steps.
  eapply wp_mono; [by apply wp_wait_queue_pop|]. intros x s1 (Hs1 & Hx & Hwq1 & Hrel). wp_steps.
  assert (Hm1 : mlfq s1 = mlfq s) by (by rewrite Hs1).
  assert (Hwf1 : mlfq_wf s1 ls) by (by eapply mlfq_wf_relinked).
  assert (Ho1 : only_queues s s1) by (rewrite Hs1; by destruct s).
  rewrite Hx. destruct l as [|p l].
  - cbn. split; [done|]. split; [by intros a Ha%not_elem_of_nil|]. split; [done|]. split; [done|].
    split; [|by eapply core_relinked].
    intros a Ha. unfold same_but_queue. destruct Hrel as [_ ->]; done.
  - rewrite hd0_cons. pose proof Hwq as (Hl & _). pose proof Hl as (Hnd & Hn & _).
    destruct (nexts_pop _ _ _ _ Hn) as (Hp0 & _ & _). apply NoDup_cons in Hnd as [Hpl Hnd].
    destruct (Z.eqb_spec p 0); [done|]. cbn [negb].
    destruct (Hpk p ltac:(apply list_elem_of_here)) as (r & Hr & Hrst & Hpr).
    destruct (wrelinked_field (fun r => (priority r, p_state r)) _ _ _ p r Hrel) as (r1 & Hr1 & E);
      [done|done|]. injection E as E1 E2.
    pose proof Hwf1 as (_ & Hls & _).
    destruct (lookup_lt_is_Some_2 ls (Z.to_nat (priority r))) as [lp Hlp];
      [rewrite Hls; unfold NUM_QUEUES; lia|].
    pose proof (parked_relinked _ _ _ _ _ Hrel Hpk) as Hpk1.
    eapply wp_mono; [eapply (wp_mlfq_enqueue s1 ls p r1 (Z.to_nat (priority r)) lp); try done|].
    + congruence.
    + lia.
    + intros l' Hl'. eapply parked_unqueued; try done. apply list_elem_of_here.
    + intros [] s2 (Hwf2 & Ho2 & Hs2). wp_steps. pose proof (enqueue_frame _ _ _ Hs2) as Hfr.
      assert (Htl : forall a, a ∈ l -> a <> p) by (by intros a Ha ->).
      split; [|split; [|split; [|split; [|split]]]].
      * eapply wq_rep_frame; [|exact Hwq1]. intros a Ha. by apply Hfr, Htl.
      * eapply parked_frame; [intros a Ha; by apply Hfr, Htl|]. intros a Ha. apply Hpk1. by apply list_elem_of_further.
      * simpl. unfold prio. rewrite Hr. done.
      * by eapply only_queues_trans.
      * intros a Ha. apply not_elem_of_cons in Ha as [Hap Hal]. eapply same_but_queue_trans; [|by apply Hfr].
        unfold same_but_queue. destruct Hrel as [_ ->]; [done|]. by apply not_elem_of_cons.
      * eapply same_core_trans; [by eapply core_relinked|by eapply core_enqueue].
Qed.

(** Waking everyone is waking one after the other. *)
Lemma wp_wake_all_loop l st : forall s ls wq fuel,
  st <> PROCESS_READY -> st <> PROCESS_DEAD ->
  wq_rep (procs s) wq l -> parked (procs s) st l -> mlfq_wf s ls -> (length l < fuel)%nat ->
  wp (wake_all_loop wq fuel) (fun wq' s' =>
    wq' = wq_empty /\ mlfq_wf s' (woken (procs s) ls l) /\ only_queues s s' /\
    (forall a, a ∉ l -> same_but_queue (procs s) (procs s') a) /\
    same_core (procs s) (procs s')) s.
Proof.
  induction l as [|p l IH]; intros s ls wq fuel Hst Hd Hwq Hpk Hwf Hf;
    (destruct fuel as [|fuel]; [simpl in Hf; lia|]).
  - cbn [wake_all_loop]. wp_steps. eapply wp_mono; [by apply wp_wait_queue_pop|].
    intros x s1 (Hs1 & Hx & Hwq1 & Hrel). rewrite Hx. cbn [hd0 head default Z.eqb]. wp_steps.
    destruct Hwq1 as (_ & Hh & Ht). destruct x as [x [h t]]. simpl in *. subst h t.
    split; [done|]. split; [by eapply mlfq_wf_relinked; [done|by rewrite Hs1|]|].
    split; [rewrite Hs1; by destruct s|]. split; [|by eapply core_relinked].
    intros a Ha. unfold same_but_queue. destruct Hrel as [_ ->]; done.
  - pose proof (wp_wake_one s ls wq (p :: l) st Hst Hd Hwq Hpk Hwf) as Hone.
    unfold wake_one in Hone. apply wp_bind_inv in Hone. cbn [wake_all_loop]. wp_steps.
    eapply wp_mono; [apply wp_and; [exact Hone|by apply wp_wait_queue_pop]|].
    intros x s1 [Hk (_ & Hx & _)]. rewrite Hx, hd0_cons in *.
    pose proof Hwq as ((_ & Hn & _) & _). destruct (nexts_pop _ _ _ _ Hn) as (Hp0 & _ & _).
    pose proof Hwq as ((Hnd & _ & _) & _). apply NoDup_cons in Hnd as [Hpl Hnd].
    destruct (Z.eqb_spec p 0); [done|]. cbn [negb] in Hk. wp_steps.
    apply wp_bind_inv in Hk. eapply wp_mono; [exact Hk|].
    intros [] s2 (Hwq2 & Hpk2 & Hwf2 & Ho2 & Hfr2 & Hpr2). cbv beta.
    eapply wp_mono; [apply (IH s2 _ _ fuel Hst Hd Hwq2 Hpk2 Hwf2); simpl in Hf; lia|].
    intros wq' s3 (-> & Hwf3 & Ho3 & Hfr3 & Hpr3). split; [done|]. split; [|split; [|split]].
    + rewrite (woken_prio (procs s)) in Hwf3; [done|]. intros a. by apply prio_core.
    + by eapply only_queues_trans.
    + intros a Ha. eapply same_but_queue_trans; [by apply Hfr2|]. apply Hfr3.
      by apply not_elem_of_cons in Ha as [_ ?].
    + by eapply same_core_trans.
Qed.

Lemma wp_wake_all s ls wq l st :
  st <> PROCESS_READY -> st <> PROCESS_DEAD ->
  wq_rep (procs s) wq l -> parked (procs s) st l -> mlfq_wf s ls ->
  wp (wake_all wq) (fun wq' s' =>
    wq' = wq_empty /\ mlfq_wf s' (woken (procs s) ls l) /\ only_queues s s' /\
    (forall a, a ∉ l -> same_but_queue (procs s) (procs s') a) /\
    same_core (procs s) (procs s')) s.
Proof.
  intros Hst Hd Hwq Hpk Hwf. unfold wake_all. wp_steps. eapply wp_wake_all_loop; try done.
  pose proof Hwq as ((Hnd & _ & _) & _). rewrite <- (size_list_to_set (C := gset Z) l) by done.
  apply Nat.lt_succ_r. rewrite <- size_dom. apply subseteq_size. intros a. rewrite elem_of_list_to_set.
  intros Ha. destruct (Hpk a Ha) as (r & Hr & _). by eapply elem_of_dom_2.
Qed.

(** Parking the running process. *)
Lemma wp_park s ls wq l st r :
  wq_rep (procs s) wq l -> parked (procs s) st l -> mlfq_wf s ls ->
  st <> PROCESS_RUNNING -> current_process s <> 0 ->
  procs s !! current_process s = Some r -> p_state r = PROCESS_RUNNING -> 0 <= priority r < 4 ->
  wp (park st wq) (fun wq' s' =>
    wq_rep (procs s') wq' (l ++ [current_process s]) /\
    parked (procs s') st (l ++ [current_process s]) /\
    mlfq_wf s' ls /\ s' = set_procs (procs s') s /\
    (forall a, a ∉ current_process s :: l -> procs s' !! a = procs s !! a) /\
    same_core (procs s) (procs s')) s.
Proof.
  intros Hwq Hpk Hwf Hst Hc Hr Hrun Hpr. unfold park. wp_steps.
  set (p := current_process s) in *. eapply wp_pset; [done|]. cbv beta.
  assert (Hpl : p ∉ l) by (intros Hp; destruct (Hpk p Hp) as (r' & ? & ? & _); congruence).
  set (s1 := set_procs (alter (set_p_state st) p (procs s)) s).
  assert (Hq : forall l', l' ∈ ls -> p ∉ l').
  { intros l' [j Hj]%list_elem_of_lookup Hp. destruct Hwf as (_ & _ & Hq).
    destruct (Hq j l' Hj) as [_ Hm]. destruct (Hm p Hp) as (r' & ? & _ & ?). congruence. }
  assert (Hwf1 : mlfq_wf s1 ls).
  { destruct Hwf as (? & ? & Hw). split; [done|]. split; [done|]. intros j l' Hj.
    destruct (Hw j l' Hj) as [(q & ? & ? & ? & ? & Hlk) Hm]. split.
    - exists q. split_and!; try done. apply linked_alter; [by right|done].
    - intros a Ha. destruct (Hm a Ha) as (ra & ? & ?). exists ra. simpl.
      rewrite lookup_alter_ne; [done|]. intros E. apply (Hq l'); [by eapply list_elem_of_lookup_2|by rewrite E]. }
  assert (Hpk1 : parked (procs s1) st l).
  { intros a Ha. destruct (Hpk a Ha) as (ra & ? & ?). exists ra. simpl.
    rewrite lookup_alter_ne; [done|]. by intros ->. }
  assert (Hwq1 : wq_rep (procs s1) wq l) by (destruct Hwq as (? & ? & ?); split; [by apply linked_alter; [left|]|done]).
  eapply wp_mono; [eapply (wp_wait_queue_push s1 wq l p); try done; simpl; by rewrite lookup_alter_eq, Hr|].
  intros wq' s2 (Hs2 & Hwq2 & Hrel). pose proof (parked_relinked _ _ _ _ _ Hrel Hpk1) as Hpk2.
  assert (Hp2 : exists r2, procs s2 !! p = Some r2 /\ priority r2 = priority r /\ p_state r2 = st).
  { destruct (wrelinked_field (fun r => (priority r, p_state r)) _ _ _ p (set_p_state st r) Hrel) as (r2 & Hr2 & E);
      [done|simpl; by rewrite lookup_alter_eq, Hr|]. injection E as E1 E2. eauto. }
  split; [done|]. split; [|split; [|split; [|split]]].
  - intros a [Ha| ->%list_elem_of_singleton]%elem_of_app; [by apply Hpk2|].
    destruct Hp2 as (r2 & ? & E & ?). exists r2. by rewrite E.
  - eapply mlfq_wf_relinked; [exact Hrel|by rewrite Hs2|done].
  - rewrite Hs2. by destruct s.
  - intros a Ha. destruct Hrel as [_ Hrel]. rewrite Hrel by done. simpl.
    apply not_elem_of_cons in Ha as [? _]. by rewrite lookup_alter_ne.
  - eapply same_core_trans; [|by eapply core_relinked]. intros a. simpl.
    destruct (decide (p = a)) as [->|]; [rewrite lookup_alter_eq|by rewrite lookup_alter_ne].
    by destruct (procs s !! a).
Qed.
