(* ===== verification/Ring.v ===== *)
(** * Ring buffers

    The contents of a circular byte buffer, as the pipe, the keyboard and the
    mouse drivers use it: the [n] elements from index [tail] on, modulo the size
    of the array. *)

From S2P Require Import Prelude.

Section ring.
Context {A : Type} (N : Z) (HN : 0 < N).
Implicit Types (buf : list A) (tail : Z) (n : nat) (b : A).

(** The first [n] elements from [tail]; [None] where the array is too short. *)
Fixpoint ring_take buf tail (n : nat) : list A :=
  match n with
  | O => []
  | S n' => match buf !! Z.to_nat tail with
            | Some b => b :: ring_take buf ((tail + 1) mod N) n'
            | None => []
            end
  end.

Lemma ring_take_S buf tail n :
  ring_take buf tail (S n) =
  match buf !! Z.to_nat tail with
  | Some b => b :: ring_take buf ((tail + 1) mod N) n
  | None => []
  end.
Proof. done. Qed.

Lemma ring_take_length buf tail n :
  Z.of_nat (length buf) = N -> 0 <= tail < N -> length (ring_take buf tail n) = n.
Proof.
  intros Hb. revert tail. induction n as [|n IH]; intros tail Ht; simpl; [done|].
  destruct (lookup_lt_is_Some_2 buf (Z.to_nat tail)) as [b ->]; [lia|]. simpl. rewrite IH; [done|].
  apply Z.mod_pos_bound. lia.
Qed.

(** Removing the oldest element. *)
Lemma ring_pop buf tail n :
  Z.of_nat (length buf) = N -> 0 <= tail < N ->
  exists b, buf !! Z.to_nat tail = Some b /\
    ring_take buf tail (S n) = b :: ring_take buf ((tail + 1) mod N) n.
Proof.
  intros Hb Ht. destruct (lookup_lt_is_Some_2 buf (Z.to_nat tail)) as [b E]; [lia|].
  exists b. split; [done|]. simpl. by rewrite E.
Qed.

Lemma mod_succ x : (x mod N + 1) mod N = (x + 1) mod N.
Proof. by rewrite Z.add_mod_idemp_l by lia. Qed.

(** Writing one slot past the contents. *)
Lemma ring_push buf tail n b :
  Z.of_nat (length buf) = N -> 0 <= tail < N -> Z.of_nat n < N ->
  ring_take (<[Z.to_nat ((tail + Z.of_nat n) mod N) := b]> buf) tail (S n) =
  ring_take buf tail n ++ [b].
Proof.
  intros Hb. revert tail. induction n as [|n IH]; intros tail Ht Hn.
  - simpl. rewrite Z.add_0_r, Z.mod_small by lia.
    by rewrite list_lookup_insert_eq by lia.
  - assert (Hs : 0 <= (tail + 1) mod N < N) by (apply Z.mod_pos_bound; lia).
    specialize (IH ((tail + 1) mod N) Hs ltac:(lia)).
    assert (E : ((tail + 1) mod N + Z.of_nat n) mod N = (tail + Z.of_nat (S n)) mod N).
    { rewrite Z.add_mod_idemp_l by lia. f_equal. lia. }
    rewrite E in IH. rewrite (ring_take_S _ tail (S n)), (ring_take_S buf tail n).
    assert (Hne : Z.to_nat ((tail + Z.of_nat (S n)) mod N) <> Z.to_nat tail).
    { pose proof (Z.mod_pos_bound (tail + Z.of_nat (S n)) N HN) as Hm. intros E'.
      assert (Hmod : (tail + Z.of_nat (S n)) mod N = tail) by lia.
      pose proof (Z.div_mod (tail + Z.of_nat (S n)) N ltac:(lia)) as Hq. rewrite Hmod in Hq.
      set (q := (tail + Z.of_nat (S n)) / N) in *.
      assert (N * q = Z.of_nat (S n)) by lia. assert (0 < q < 1) by nia. lia. }
    rewrite list_lookup_insert_ne by done.
    destruct (lookup_lt_is_Some_2 buf (Z.to_nat tail)) as [c Ec]; [lia|]. rewrite Ec.
    cbn [app]. f_equal. exact IH.
Qed.
End ring.

(** ** Rings with one free slot

    The drivers' buffers keep [head] and [tail] only, so that at most [N - 1]
    elements fit: [head = tail] is empty, [head + 1 = tail] is full. *)
Section slots.
Context {A : Type} (N : Z) (HN : 1 < N).
Implicit Types (buf : list A) (c : list A) (b : A).

Record slots_ok buf (head tail : Z) c : Prop := {
  so_len : Z.of_nat (length buf) = N;
  so_head : 0 <= head < N;
  so_tail : 0 <= tail < N;
  so_count : Z.of_nat (length c) = (head - tail) mod N;
  so_contents : ring_take N buf tail (length c) = c;
}.

Lemma slots_range buf head tail c : slots_ok buf head tail c -> 0 <= Z.of_nat (length c) <= N - 1.
Proof. intros [_ _ _ Hc _]. pose proof (Z.mod_pos_bound (head - tail) N ltac:(lia)). lia. Qed.

Lemma sub_mod (x y : Z) : 0 <= x < N -> 0 <= y < N -> (x - y) mod N = if y <=? x then x - y else x - y + N.
Proof.
  intros Hx Hy. destruct (Z.leb_spec y x).
  - apply Z.mod_small. lia.
  - symmetry. apply Z.mod_unique with (q := -1); lia.
Qed.
Lemma succ_mod a : 0 <= a < N -> (a + 1) mod N = if a =? N - 1 then 0 else a + 1.
Proof.
  intros Ha. destruct (Z.eqb_spec a (N - 1)) as [->|].
  - replace (N - 1 + 1) with N by lia. apply Z.mod_same. lia.
  - apply Z.mod_small. lia.
Qed.

Lemma slots_full buf head tail c :
  slots_ok buf head tail c -> ((head + 1) mod N =? tail) = (Z.of_nat (length c) =? N - 1).
Proof.
  intros [_ Hh Ht Hc _]. rewrite Hc, sub_mod, succ_mod by done. case_bools; lia.
Qed.

Lemma slots_push buf head tail c b :
  slots_ok buf head tail c -> Z.of_nat (length c) < N - 1 ->
  slots_ok (<[Z.to_nat head := b]> buf) ((head + 1) mod N) tail (c ++ [b]).
Proof.
  intros [Hl Hh Ht Hc Hk] Hlt. rewrite sub_mod in Hc by done.
  assert (Ehead : head = (tail + Z.of_nat (length c)) mod N).
  { rewrite Hc. destruct (Z.leb_spec tail head).
    - rewrite Z.mod_small; lia.
    - apply Z.mod_unique with (q := 1); lia. }
  pose proof (ring_push N ltac:(lia) buf tail (length c) b Hl Ht ltac:(lia)) as Hpush.
  rewrite <- Ehead, Hk in Hpush.
  split; rewrite ?length_insert, ?length_app; simpl; try done.
  - rewrite succ_mod by done. case_bools; lia.
  - rewrite succ_mod by done. rewrite sub_mod by (case_bools; lia). case_bools; lia.
  - by rewrite Nat.add_1_r.
Qed.

Lemma slots_empty buf head tail c : slots_ok buf head tail c -> (tail =? head) = true <-> c = [].
Proof.
  intros [_ Hh Ht Hc _]. rewrite sub_mod in Hc by done. rewrite Z.eqb_eq. split.
  - intros ->. destruct c; [done|]. simpl in Hc. case_bools; lia.
  - intros ->. simpl in Hc. case_bools; lia.
Qed.

Lemma slots_pop buf head tail b c :
  slots_ok buf head tail (b :: c) ->
  arr_get buf tail = Some b /\ slots_ok buf head ((tail + 1) mod N) c.
Proof.
  intros [Hl Hh Ht Hc Hk]. rewrite sub_mod in Hc by done. simpl length in *.
  destruct (ring_pop N buf tail (length c) Hl Ht) as (b' & Hb & E).
  rewrite E in Hk. injection Hk as -> Hk.
  split; [unfold arr_get; case_bools; done|].
  split; try done.
  - rewrite succ_mod by done. case_bools; lia.
  - rewrite succ_mod by done. rewrite sub_mod by (case_bools; lia). case_bools; lia.
Qed.
End slots.
