(* ===== verification/Pipe.v ===== *)
(** * Pipes (pipe.c)

    The ring buffer of a pipe with its two wait queues.  [pipe_read] and
    [pipe_write] are loops whose iterations run with interrupts disabled and
    which give up the processor between iterations: an iteration is an
    operation here, and a trace is any interleaving of iterations of any number
    of readers and writers, closes, and arbitrary scheduling in between. *)

From S2P Require Import Prelude Ring Proc Queues Mlfq Wait.

Definition PIPE_BUF_SIZE : Z := 512.

Record pipe := mkPipe {
  p_buf : list Z;
  p_head : Z;
  p_tail : Z;
  p_count : Z;
  p_readers : Z;
  p_writers : Z;
  read_waiters : wait_queue;
  write_waiters : wait_queue;
}.

Definition set_read_waiters (w : wait_queue) (p : pipe) : pipe :=
  mkPipe (p_buf p) (p_head p) (p_tail p) (p_count p) (p_readers p) (p_writers p) w (write_waiters p).
Definition set_write_waiters (w : wait_queue) (p : pipe) : pipe :=
  mkPipe (p_buf p) (p_head p) (p_tail p) (p_count p) (p_readers p) (p_writers p) (read_waiters p) w.

(** [pipe_create], once the memory is there: cleared, with one end of each kind. *)
Definition pipe_new : pipe := mkPipe (replicate 512 0) 0 0 0 1 1 wq_empty wq_empty.

Record psys := mkPs { ps_pipe : pipe; ps_sched : sched }.

Definition upd_pipe (f : pipe -> pipe) : M psys unit :=
  modify (fun s => mkPs (f (ps_pipe s)) (ps_sched s)).
Definition on_sched {A} (c : M sched A) : M psys A := fun s =>
  match c (ps_sched s) with
  | Some (a, s') => Some (a, mkPs (ps_pipe s) s')
  | None => None
  end.

(** ** The operations *)

Inductive read_result := Got (b : Z) | Eof | ReadYield.
Inductive write_result := Put | Broken | WriteYield.

(** One iteration of the loop of [pipe_read]. *)
Definition read_iter : M psys read_result :=
  p <- gets ps_pipe ;;
  if 0 <? p_count p then
    b <- lift (arr_get (p_buf p) (p_tail p)) ;;
    upd_pipe (fun p => mkPipe (p_buf p) (p_head p) ((p_tail p + 1) mod PIPE_BUF_SIZE) (p_count p - 1)
      (p_readers p) (p_writers p) (read_waiters p) (write_waiters p)) ;;
    w <- on_sched (wake_one (write_waiters p)) ;;
    upd_pipe (set_write_waiters w) ;;
    ret (Got b)
  else if p_writers p =? 0 then ret Eof
  else
    w <- on_sched (park PROCESS_BLOCKED_PIPE (read_waiters p)) ;;
    upd_pipe (set_read_waiters w) ;;
    ret ReadYield.

(** One iteration of the loop of [pipe_write], for the byte [b]. *)
Definition write_iter (b : Z) : M psys write_result :=
  p <- gets ps_pipe ;;
  if p_readers p =? 0 then ret Broken
  else if p_count p <? PIPE_BUF_SIZE then
    buf <- lift (arr_set (p_buf p) (p_head p) (u8 b)) ;;
    upd_pipe (fun p => mkPipe buf ((p_head p + 1) mod PIPE_BUF_SIZE) (p_tail p) (p_count p + 1)
      (p_readers p) (p_writers p) (read_waiters p) (write_waiters p)) ;;
    w <- on_sched (wake_one (read_waiters p)) ;;
    upd_pipe (set_read_waiters w) ;;
    ret Put
  else
    w <- on_sched (park PROCESS_BLOCKED_PIPE (write_waiters p)) ;;
    upd_pipe (set_write_waiters w) ;;
    ret WriteYield.

(** The loops up to the next yield: the bytes transferred so far and whether the
    call is over.  A process that is scheduled again continues with the rest. *)
Fixpoint read_loop (todo : nat) (acc : list Z) : M psys (list Z * bool) :=
  match todo with
  | O => ret (acc, true)
  | S todo' =>
      r <- read_iter ;;
      match r with
      | Got b => read_loop todo' (acc ++ [b])
      | Eof => ret (acc, true)
      | ReadYield => ret (acc, false)
      end
  end.
Definition pipe_read (count : Z) : M psys (list Z * bool) := read_loop (Z.to_nat count) [].

(** The result of [pipe_write] is the number of bytes written, or -1. *)
Fixpoint write_loop (data : list Z) (n : Z) : M psys (Z * bool) :=
  match data with
  | [] => ret (n, true)
  | b :: data' =>
      r <- write_iter b ;;
      match r with
      | Put => write_loop data' (n + 1)
      | Broken => ret (if 0 <? n then n else -1, true)
      | WriteYield => ret (n, false)
      end
  end.
Definition pipe_write (data : list Z) : M psys (Z * bool) := write_loop data 0.

(** [pipe_close_end]; the result says that the pipe is to be freed. *)
Definition pipe_close_end (is_read_end : bool) : M psys bool :=
  upd_pipe (fun p => mkPipe (p_buf p) (p_head p) (p_tail p) (p_count p)
    (if is_read_end && (0 <? p_readers p) then p_readers p - 1 else p_readers p)
    (if negb is_read_end && (0 <? p_writers p) then p_writers p - 1 else p_writers p)
    (read_waiters p) (write_waiters p)) ;;
  p <- gets ps_pipe ;;
  let should_free := (p_readers p =? 0) && (p_writers p =? 0) in
  w <- on_sched (wake_all (write_waiters p)) ;;
  upd_pipe (set_write_waiters w) ;;
  w <- on_sched (wake_all (read_waiters p)) ;;
  upd_pipe (set_read_waiters w) ;;
  ret should_free.

(** ** The invariant *)

(** The ring holds exactly the bytes [c], oldest first. *)
Record ring_ok (p : pipe) (c : list Z) : Prop := {
  rk_len : Z.of_nat (length (p_buf p)) = PIPE_BUF_SIZE;
  rk_tail : 0 <= p_tail p < PIPE_BUF_SIZE;
  rk_count : p_count p = Z.of_nat (length c) /\ p_count p <= PIPE_BUF_SIZE;
  rk_head : p_head p = (p_tail p + p_count p) mod PIPE_BUF_SIZE;
  rk_contents : ring_take PIPE_BUF_SIZE (p_buf p) (p_tail p) (length c) = c;
}.

(** The waiters [rl] and [wl], apart from each other and from the ready queues. *)
Record waiters_ok (s : psys) (rl wl : list Z) (ls : list (list Z)) : Prop := {
  wk_read : wq_rep (procs (ps_sched s)) (read_waiters (ps_pipe s)) rl;
  wk_write : wq_rep (procs (ps_sched s)) (write_waiters (ps_pipe s)) wl;
  wk_apart : forall a, a ∈ rl -> a ∉ wl;
  wk_rparked : parked (procs (ps_sched s)) PROCESS_BLOCKED_PIPE rl;
  wk_wparked : parked (procs (ps_sched s)) PROCESS_BLOCKED_PIPE wl;
  wk_ready : mlfq_wf (ps_sched s) ls;
}.

(** The process that executes is running and schedulable. *)
Definition running (s : sched) : Prop :=
  current_process s <> 0 /\ exists r, procs s !! current_process s = Some r /\
    p_state r = PROCESS_RUNNING /\ 0 <= priority r < 4.

Lemma wp_on_sched {A} (c : M sched A) (Q : A -> psys -> Prop) s :
  wp c (fun a s' => Q a (mkPs (ps_pipe s) s')) (ps_sched s) -> wp (on_sched c) Q s.
Proof. unfold wp, on_sched. by destruct (c (ps_sched s)) as [[? ?]|]. Qed.

(** The ring under one read and one write. *)
Lemma ring_ok_read p b c r w rw ww :
  ring_ok p (b :: c) ->
  0 < p_count p /\ arr_get (p_buf p) (p_tail p) = Some b /\
  ring_ok (mkPipe (p_buf p) (p_head p) ((p_tail p + 1) mod PIPE_BUF_SIZE) (p_count p - 1) r w rw ww) c.
Proof.
  intros [Hl Ht [Hc Hle] Hh Hk]. simpl length in *.
  destruct (ring_pop PIPE_BUF_SIZE (p_buf p) (p_tail p) (length c) Hl Ht) as (b' & Hb & E).
  rewrite E in Hk. injection Hk as -> Hk. unfold PIPE_BUF_SIZE in *.
  split; [lia|]. split; [unfold arr_get; case_bools; done|].
  split; simpl; try done; unfold PIPE_BUF_SIZE; lia.
Qed.

Lemma ring_ok_write p b c r w rw ww :
  ring_ok p c -> p_count p < PIPE_BUF_SIZE -> exists buf,
  arr_set (p_buf p) (p_head p) b = Some buf /\
  ring_ok (mkPipe buf ((p_head p + 1) mod PIPE_BUF_SIZE) (p_tail p) (p_count p + 1) r w rw ww) (c ++ [b]).
Proof.
  intros [Hl Ht [Hc Hle] Hh Hk] Hlt.
  pose proof (ring_push PIPE_BUF_SIZE ltac:(done) (p_buf p) (p_tail p) (length c) b Hl Ht ltac:(lia)) as Hpush.
  rewrite <- Hc, <- Hh, Hk in Hpush. eexists. split.
  - apply arr_set_Some. rewrite Hl, Hh. unfold PIPE_BUF_SIZE. lia.
  - split; simpl; rewrite ?length_insert, ?length_app; simpl; try done.
    + unfold PIPE_BUF_SIZE in *. lia.
    + rewrite Hh. unfold PIPE_BUF_SIZE in *. lia.
    + by rewrite Nat.add_1_r.
Qed.

(** The frame of a wake-up on one of the two queues, for the other queue. *)
Lemma other_queue m m' wq (l l' : list Z) :
  (forall a, a ∉ l -> same_but_queue m m' a) -> (forall a, a ∈ l' -> a ∉ l) ->
  wq_rep m wq l' -> parked m PROCESS_BLOCKED_PIPE l' ->
  wq_rep m' wq l' /\ parked m' PROCESS_BLOCKED_PIPE l'.
Proof.
  intros Hf Hd Hq Hp. assert (Hs : forall a, a ∈ l' -> same_but_queue m m' a) by auto.
  split; [by apply (wq_rep_frame m)|by apply (parked_frame m)].
Qed.

Lemma tail_elem (l : list Z) a : a ∈ tail l -> a ∈ l.
Proof. destruct l; [done|]. apply list_elem_of_further. Qed.

Lemma running_not_parked s l :
  running s -> parked (procs s) PROCESS_BLOCKED_PIPE l -> current_process s ∉ l.
Proof. intros (_ & r & Hr & Hst & _) Hp Hc. destruct (Hp _ Hc) as (r' & ? & ? & _). congruence. Qed.

(** Parking on one queue, for the other one. *)
Lemma other_queue_park m m' (p : Z) wq (l l' : list Z) :
  (forall a, a ∉ p :: l -> m' !! a = m !! a) -> (forall a, a ∈ l' -> a ∉ l) -> p ∉ l' ->
  wq_rep m wq l' -> parked m PROCESS_BLOCKED_PIPE l' ->
  wq_rep m' wq l' /\ parked m' PROCESS_BLOCKED_PIPE l'.
Proof.
  intros Hf Hd Hp Hq Hpk.
  assert (Hs : forall a, a ∈ l' -> same_but_queue m m' a).
  { intros a Ha. unfold same_but_queue. rewrite Hf; [done|]. apply not_elem_of_cons. split; [by intros ->|auto]. }
  split; [by eapply wq_rep_frame|by eapply parked_frame].
Qed.

(** One iteration of [pipe_read]: with bytes buffered it takes the oldest
    one and moves the first blocked writer to the ready queue of its priority;
    with an empty buffer it reports end of file exactly when no writer is left,
    and otherwise parks the caller at the end of the readers' queue.  Nothing
    else of the pipe or of the queues changes and no step is undefined. *)
Theorem read_iter_correct (s : psys) c rl wl ls :
  ring_ok (ps_pipe s) c -> waiters_ok s rl wl ls -> running (ps_sched s) ->
  wp read_iter (fun x s' =>
    p_readers (ps_pipe s') = p_readers (ps_pipe s) /\ p_writers (ps_pipe s') = p_writers (ps_pipe s) /\
    match c with
    | b :: c' => x = Got b /\ ring_ok (ps_pipe s') c' /\
        waiters_ok s' rl (tail wl) (woken (procs (ps_sched s)) ls (take 1 wl))
    | [] => if p_writers (ps_pipe s) =? 0 then x = Eof /\ s' = s
            else x = ReadYield /\ ring_ok (ps_pipe s') [] /\
                 waiters_ok s' (rl ++ [current_process (ps_sched s)]) wl ls
    end) s.
Proof.
  intros Hring [Hr Hw Hap Hrp Hwp Hwf] Hrun. unfold read_iter. wp_steps. destruct c as [|b c].
  - pose proof Hring as [_ _ [Hc _] _ _]. rewrite Hc. change (0 <? Z.of_nat (length [])) with false. cbv iota.
    destruct (Z.eqb_spec (p_writers (ps_pipe s)) 0); [by wp_steps|]. wp_steps. apply wp_on_sched.
    pose proof (running_not_parked _ _ Hrun Hwp) as Hcw. destruct Hrun as (Hc0 & r & Hcr & Hst & Hpr).
    eapply wp_mono; [by apply (wp_park (ps_sched s) ls _ rl _ r)|].
    intros w s' (Hr' & Hrp' & Hwf' & Hs' & Hfr & _). unfold upd_pipe. wp_steps. simpl ps_pipe.
    destruct (other_queue_park _ _ _ (write_waiters (ps_pipe s)) _ wl Hfr) as [Hw' Hwp']; try done.
    { intros a Ha Ha'. by apply (Hap a). }
    split; [done|]. split; [done|]. split; [done|]. split; [by destruct Hring|].
    split; simpl; try done. intros a [Ha| ->%list_elem_of_singleton]%elem_of_app; [by apply Hap|done].
  - destruct (ring_ok_read _ b c (p_readers (ps_pipe s)) (p_writers (ps_pipe s)) (read_waiters (ps_pipe s))
      (write_waiters (ps_pipe s)) Hring) as (Hc & Hb & Hring').
    destruct (Z.ltb_spec 0 (p_count (ps_pipe s))); [|lia]. wp_steps. eapply wp_lift; [done|]. cbv beta.
    unfold upd_pipe. wp_steps. apply wp_on_sched. simpl ps_sched.
    eapply wp_mono; [by apply (wp_wake_one (ps_sched s) ls _ wl PROCESS_BLOCKED_PIPE)|].
    intros w s' (Hw' & Hwp' & Hwf' & Ho & Hfr & _). wp_steps. simpl ps_pipe.
    destruct (other_queue _ _ (read_waiters (ps_pipe s)) wl rl Hfr) as [Hr' Hrp']; try done.
    split; [done|]. split; [done|]. split; [done|]. split; [by destruct Hring'|].
    split; simpl; try done. intros a Ha Ha'. apply (Hap a Ha). by apply tail_elem.
Qed.

(** One iteration of [pipe_write]: without a reader it reports a broken
    pipe; with room it appends the byte and moves the first blocked reader to
    the ready queue of its priority; with a full buffer it parks the caller at
    the end of the writers' queue. *)
Theorem write_iter_correct (s : psys) (b : Z) c rl wl ls :
  ring_ok (ps_pipe s) c -> waiters_ok s rl wl ls -> running (ps_sched s) ->
  wp (write_iter b) (fun x s' =>
    p_readers (ps_pipe s') = p_readers (ps_pipe s) /\ p_writers (ps_pipe s') = p_writers (ps_pipe s) /\
    if p_readers (ps_pipe s) =? 0 then x = Broken /\ s' = s
    else if Z.of_nat (length c) <? PIPE_BUF_SIZE
    then x = Put /\ ring_ok (ps_pipe s') (c ++ [u8 b]) /\
         waiters_ok s' (tail rl) wl (woken (procs (ps_sched s)) ls (take 1 rl))
    else x = WriteYield /\ ring_ok (ps_pipe s') c /\
         waiters_ok s' rl (wl ++ [current_process (ps_sched s)]) ls) s.
Proof.
  intros Hring [Hr Hw Hap Hrp Hwp Hwf] Hrun. unfold write_iter. wp_steps.
  destruct (Z.eqb_spec (p_readers (ps_pipe s)) 0); [by wp_steps|].
  pose proof Hring as [_ _ [Hc _] _ _]. rewrite <- Hc.
  destruct (Z.ltb_spec (p_count (ps_pipe s)) PIPE_BUF_SIZE) as [Hlt|Hge]; wp_steps.
  - destruct (ring_ok_write _ (u8 b) c (p_readers (ps_pipe s)) (p_writers (ps_pipe s)) (read_waiters (ps_pipe s))
      (write_waiters (ps_pipe s)) Hring Hlt) as (buf & Hset & Hring').
    eapply wp_lift; [done|]. cbv beta. unfold upd_pipe. wp_steps. apply wp_on_sched. simpl ps_sched.
    eapply wp_mono; [by apply (wp_wake_one (ps_sched s) ls _ rl PROCESS_BLOCKED_PIPE)|].
    intros w s' (Hr' & Hrp' & Hwf' & Ho & Hfr & _). wp_steps. simpl ps_pipe.
    destruct (other_queue _ _ (write_waiters (ps_pipe s)) rl wl Hfr) as [Hw' Hwp']; try done.
    { intros a Ha Ha'. by apply (Hap a). }
    split; [done|]. split; [done|]. split; [done|]. split; [by destruct Hring'|].
    split; simpl; try done. intros a Ha. apply Hap. by apply tail_elem.
  - apply wp_on_sched.
    pose proof (running_not_parked _ _ Hrun Hrp) as Hcr'. destruct Hrun as (Hc0 & r & Hcr & Hst & Hpr).
    eapply wp_mono; [by apply (wp_park (ps_sched s) ls _ wl _ r)|].
    intros w s' (Hw' & Hwp' & Hwf' & Hs' & Hfr & _). unfold upd_pipe. wp_steps. simpl ps_pipe.
    destruct (other_queue_park _ _ _ (read_waiters (ps_pipe s)) _ rl Hfr) as [Hr' Hrp']; try done.
    split; [done|]. split; [done|]. split; [done|]. split; [by destruct Hring|].
    split; simpl; try done. intros a Ha [Ha'| ->%list_elem_of_singleton]%elem_of_app; [|done]. by apply (Hap a).
Qed.

(** The pipe after one end of it is closed. *)
Definition less_end (rd : bool) (p : pipe) : pipe :=
  mkPipe (p_buf p) (p_head p) (p_tail p) (p_count p)
    (if rd then Z.max 0 (p_readers p - 1) else p_readers p)
    (if rd then p_writers p else Z.max 0 (p_writers p - 1)) wq_empty wq_empty.

Lemma wp_pipe_close_end (s : psys) (rd : bool) rl wl ls :
  waiters_ok s rl wl ls -> 0 <= p_readers (ps_pipe s) -> 0 <= p_writers (ps_pipe s) ->
  wp (pipe_close_end rd) (fun free s' =>
    ps_pipe s' = less_end rd (ps_pipe s) /\
    waiters_ok s' [] [] (woken (procs (ps_sched s)) ls (wl ++ rl)) /\
    (free = true <-> p_readers (ps_pipe s') = 0 /\ p_writers (ps_pipe s') = 0) /\
    only_queues (ps_sched s) (ps_sched s') /\
    (forall a, a ∉ rl -> a ∉ wl -> same_but_queue (procs (ps_sched s)) (procs (ps_sched s')) a) /\
    same_core (procs (ps_sched s)) (procs (ps_sched s'))) s.
Proof.
  intros [Hr Hw Hap Hrp Hwp Hwf] Hnr Hnw. unfold pipe_close_end, upd_pipe. wp_steps.
  apply wp_on_sched. simpl ps_sched.
  eapply wp_mono; [by apply (wp_wake_all (ps_sched s) ls _ wl PROCESS_BLOCKED_PIPE)|].
  intros w s1 (-> & Hwf1 & Ho1 & Hfr1 & Hpr1). wp_steps. apply wp_on_sched. simpl ps_sched. simpl ps_pipe.
  destruct (other_queue _ _ (read_waiters (ps_pipe s)) wl rl Hfr1) as [Hr1 Hrp1]; try done.
  eapply wp_mono; [by eapply (wp_wake_all s1 _ _ rl PROCESS_BLOCKED_PIPE)|].
  intros w s2 (-> & Hwf2 & Ho2 & Hfr2 & Hpr2). wp_steps. simpl ps_pipe. simpl p_readers. simpl p_writers.
  split; [|split; [|split; [|split; [|split]]]].
  - unfold less_end, set_read_waiters, set_write_waiters. cbn [p_buf p_head p_tail p_count p_readers p_writers read_waiters].
    f_equal; destruct rd; cbn [andb negb]; case_bools; lia.
  - assert (Hnil : forall m, wq_rep m wq_empty [] /\ parked m PROCESS_BLOCKED_PIPE []).
    { intros m. split; [by split; [apply linked_nil|]|by intros a Ha%not_elem_of_nil]. }
    split; simpl; try apply Hnil; [by intros a Ha%not_elem_of_nil|].
    rewrite (woken_prio _ _ _ _ (fun a => prio_core _ _ a Hpr1)) in Hwf2. unfold woken in *. by rewrite foldl_app.
  - rewrite andb_true_iff, !Z.eqb_eq. done.
  - by eapply only_queues_trans.
  - intros a Ha Ha'. eapply same_but_queue_trans; [by apply Hfr1|by apply Hfr2].
  - by eapply same_core_trans.
Qed.

(** [pipe_close_end] drops one end, wakes every blocked reader and writer,
    keeps the buffered bytes for the readers that remain, and asks for the pipe
    to be freed exactly when no end is left. *)
Theorem pipe_close_end_correct (s : psys) (rd : bool) c rl wl ls :
  ring_ok (ps_pipe s) c -> waiters_ok s rl wl ls ->
  0 <= p_readers (ps_pipe s) -> 0 <= p_writers (ps_pipe s) ->
  wp (pipe_close_end rd) (fun free s' =>
    ring_ok (ps_pipe s') c /\
    waiters_ok s' [] [] (woken (procs (ps_sched s)) ls (wl ++ rl)) /\
    p_readers (ps_pipe s') = (if rd then Z.max 0 (p_readers (ps_pipe s) - 1) else p_readers (ps_pipe s)) /\
    p_writers (ps_pipe s') = (if rd then p_writers (ps_pipe s) else Z.max 0 (p_writers (ps_pipe s) - 1)) /\
    (free = true <-> p_readers (ps_pipe s') = 0 /\ p_writers (ps_pipe s') = 0)) s.
Proof.
  intros Hring Hwt Hnr Hnw. eapply wp_mono; [by apply wp_pipe_close_end|].
  intros free s' (E & Hwt' & Hfree & _). rewrite E in *. split; [by destruct Hring|]. done.
Qed.

(** ** Interleavings *)

Inductive event := EvRead (b : Z) | EvWrite (b : Z) | EvEof | EvOther.

(** Any process may take any step; [ps_sched_step] stands for everything else
    that happens in between: context switches, timer ticks, other processes. *)
Inductive pstep : psys -> event -> psys -> Prop :=
  | ps_read s x s' : read_iter s = Some (x, s') ->
      pstep s (match x with Got b => EvRead b | Eof => EvEof | ReadYield => EvOther end) s'
  | ps_write s b x s' : write_iter b s = Some (x, s') ->
      pstep s (match x with Put => EvWrite (u8 b) | _ => EvOther end) s'
  | ps_close s rd x s' : pipe_close_end rd s = Some (x, s') -> pstep s EvOther s'
  | ps_sched_step s sc : pstep s EvOther (mkPs (ps_pipe s) sc).

Inductive ptrace : psys -> list event -> psys -> Prop :=
  | pt_nil s : ptrace s [] s
  | pt_cons s e s1 tr s' : pstep s e s1 -> ptrace s1 tr s' -> ptrace s (e :: tr) s'.

Definition ev_read (e : event) : list Z := match e with EvRead b => [b] | _ => [] end.
Definition ev_written (e : event) : list Z := match e with EvWrite b => [b] | _ => [] end.
Definition bytes_read (tr : list event) : list Z := concat (ev_read <$> tr).
Definition bytes_written (tr : list event) : list Z := concat (ev_written <$> tr).

Lemma on_sched_pipe {A} (c : M sched A) s a s' : on_sched c s = Some (a, s') -> ps_pipe s' = ps_pipe s.
Proof. unfold on_sched. destruct (c (ps_sched s)) as [[? ?]|]; [|done]. by intros [= _ <-]. Qed.

Lemma bind_Some {S A B} (c : M S A) (k : A -> M S B) s b s' :
  bind c k s = Some (b, s') -> exists a s1, c s = Some (a, s1) /\ k a s1 = Some (b, s').
Proof. unfold bind. destruct (c s) as [[a s1]|]; [|done]. eauto. Qed.

Ltac run_inv :=
  repeat match goal with
  | H : bind _ _ _ = Some _ |- _ => apply bind_Some in H as (? & ? & ? & H)
  | H : on_sched _ _ = Some _ |- _ => apply on_sched_pipe in H
  | H : Some _ = Some _ |- _ => injection H as ? ?
  end; subst.

(** Rewrite the pipe of a state that a scheduler operation produced. *)
Ltac pipe_eqs :=
  cbn [ps_pipe];
  repeat match goal with H : ps_pipe ?x = _ |- context [ps_pipe ?x] => rewrite H; cbn [ps_pipe] end.

Lemma read_iter_ring s x s' c :
  read_iter s = Some (x, s') -> ring_ok (ps_pipe s) c ->
  match x with
  | Got b => exists c', c = b :: c' /\ ring_ok (ps_pipe s') c'
  | Eof => c = [] /\ p_writers (ps_pipe s) = 0 /\ ring_ok (ps_pipe s') c
  | ReadYield => ring_ok (ps_pipe s') c
  end.
Proof.
  intros H Hring. unfold read_iter in H. apply bind_Some in H as (p & s1 & Hp & H).
  injection Hp as <- <-. pose proof Hring as [_ _ [Hc _] _ _].
  destruct (Z.ltb_spec 0 (p_count (ps_pipe s))).
  - destruct c as [|b c]; [simpl in Hc; lia|].
    destruct (ring_ok_read _ b c (p_readers (ps_pipe s)) (p_writers (ps_pipe s)) (read_waiters (ps_pipe s))
      (write_waiters (ps_pipe s)) Hring) as (_ & Hb & Hring').
    rewrite Hb in H. unfold upd_pipe, lift, modify, ret in H. run_inv. exists c. split; [done|].
    pipe_eqs. by destruct Hring'.
  - destruct c as [|b c]; [|simpl in Hc; lia]. destruct (Z.eqb_spec (p_writers (ps_pipe s)) 0).
    + unfold ret in H. run_inv. done.
    + unfold upd_pipe, modify, ret in H. run_inv. pipe_eqs. by destruct Hring.
Qed.

Lemma write_iter_ring s b x s' c :
  write_iter b s = Some (x, s') -> ring_ok (ps_pipe s) c ->
  ring_ok (ps_pipe s') (c ++ match x with Put => [u8 b] | _ => [] end).
Proof.
  intros H Hring. unfold write_iter in H. apply bind_Some in H as (p & s1 & Hp & H).
  injection Hp as <- <-. destruct (Z.eqb_spec (p_readers (ps_pipe s)) 0).
  { unfold ret in H. run_inv. by rewrite app_nil_r. }
  destruct (Z.ltb_spec (p_count (ps_pipe s)) PIPE_BUF_SIZE) as [Hlt|].
  - destruct (ring_ok_write _ (u8 b) c (p_readers (ps_pipe s)) (p_writers (ps_pipe s)) (read_waiters (ps_pipe s))
      (write_waiters (ps_pipe s)) Hring Hlt) as (buf & Hset & Hring').
    rewrite Hset in H. unfold upd_pipe, lift, modify, ret in H. run_inv.
    pipe_eqs. by destruct Hring'.
  - unfold upd_pipe, modify, ret in H. run_inv. rewrite app_nil_r. pipe_eqs. by destruct Hring.
Qed.

Lemma pipe_close_end_ring s rd x s' c :
  pipe_close_end rd s = Some (x, s') -> ring_ok (ps_pipe s) c -> ring_ok (ps_pipe s') c.
Proof.
  intros H Hring. unfold pipe_close_end, upd_pipe, modify, gets, ret in H. run_inv.
  pipe_eqs. by destruct Hring.
Qed.

Lemma pstep_ring s e s' c :
  pstep s e s' -> ring_ok (ps_pipe s) c ->
  exists c', ring_ok (ps_pipe s') c' /\ c ++ ev_written e = ev_read e ++ c' /\
    (e = EvEof -> c = [] /\ p_writers (ps_pipe s) = 0).
Proof.
  intros Hst Hring. destruct Hst as [s x s' H|s b x s' H|s rd x s' H|s sc].
  - pose proof (read_iter_ring _ _ _ _ H Hring) as Hr. destruct x as [b| |].
    + destruct Hr as (c' & -> & Hc'). exists c'. simpl. by rewrite app_nil_r.
    + destruct Hr as (-> & ? & ?). by exists [].
    + exists c. simpl. by rewrite app_nil_r.
  - pose proof (write_iter_ring _ _ _ _ _ H Hring) as Hr. by destruct x; eexists.
  - exists c. simpl. rewrite app_nil_r. split; [by eapply pipe_close_end_ring|done].
  - exists c. simpl. by rewrite app_nil_r.
Qed.

(** C30: A pipe is a first-in first-out byte stream under every interleaving: at
    any point the bytes handed to readers, followed by the bytes in the buffer,
    are the bytes accepted from writers, in order; none is lost, duplicated or
    reordered.  A reader sees end of file only after it has been handed every
    byte written before. *)
Theorem pipe_stream (s s' : psys) (tr : list event) (c : list Z) :
  ptrace s tr s' -> ring_ok (ps_pipe s) c ->
  (exists c', ring_ok (ps_pipe s') c' /\ c ++ bytes_written tr = bytes_read tr ++ c') /\
  (forall tr1 tr2, tr = tr1 ++ EvEof :: tr2 -> c ++ bytes_written tr1 = bytes_read tr1).
Proof.
  intros Htr. revert c. induction Htr as [s|s e s1 tr s' Hst Htr IH]; intros c Hring.
  - split; [exists c; cbn; by rewrite app_nil_r|]. intros [|? ?] ? [=].
  - destruct (pstep_ring _ _ _ _ Hst Hring) as (c1 & Hring1 & Heq & Heof).
    destruct (IH c1 Hring1) as [(c' & Hc' & Hs) He]. split.
    + exists c'. split; [done|]. unfold bytes_written, bytes_read in *. cbn [fmap list_fmap concat].
      by rewrite app_assoc, Heq, <- app_assoc, Hs, app_assoc.
    + intros [|e' tr1] tr2 [= -> Htr']; [by destruct Heof as [-> _]|].
      unfold bytes_written, bytes_read in *. cbn [fmap list_fmap concat].
      by rewrite app_assoc, Heq, <- app_assoc, (He _ _ Htr').
Qed.

(** ** Instances *)

(** Process 16 runs; process 32, of priority 2, is blocked writing to a pipe that
    holds the byte 65. *)
Definition demo_psched : sched :=
  mkSched (<[16 := set_p_state PROCESS_RUNNING proc_zero]>
    (<[32 := set_p_state PROCESS_BLOCKED_PIPE (set_priority 2 proc_zero)]> ∅)) 16 16 0 3
    [mkQueue 0 0 2; mkQueue 0 0 4; mkQueue 0 0 6; mkQueue 0 0 8] 0.
Definition demo_psys : psys :=
  mkPs (mkPipe (65 :: replicate 511 0) 1 0 1 1 1 wq_empty (mkWq 32 32)) demo_psched.

Lemma demo_ring : ring_ok (ps_pipe demo_psys) [65].
Proof. split; try done. Qed.

Lemma demo_waiters : waiters_ok demo_psys [] [32] [[]; []; []; []].
Proof.
  split; simpl.
  - by split; [apply linked_nil|].
  - split; [by eapply linked_singleton|done].
  - by intros a Ha%not_elem_of_nil.
  - by intros a Ha%not_elem_of_nil.
  - intros a ->%list_elem_of_singleton. by eexists.
  - split; [done|]. split; [done|]. intros j l Hl.
    do 4 (destruct j as [|j]; [injection Hl as <-; split;
      [eexists; simpl; split; [done|]; split_and!; try done; apply linked_nil|by intros a Ha%not_elem_of_nil]|]).
    done.
Qed.

Lemma demo_running : running demo_psched.
Proof. split; [done|]. by eexists. Qed.

Lemma read_iter_correct_witness :
  wp read_iter (fun x s' => x = Got 65 /\ waiters_ok s' [] [] [[]; []; [32]; []]) demo_psys.
Proof.
  eapply wp_mono; [apply (read_iter_correct demo_psys [65] [] [32] [[]; []; []; []]
    demo_ring demo_waiters demo_running)|].
  intros x s' (_ & _ & Hx & _ & Hw). split; [exact Hx|exact Hw].
Defined.

Lemma write_iter_correct_witness :
  wp (write_iter 300) (fun x s' => x = Put /\ ring_ok (ps_pipe s') [65; 44]) demo_psys.
Proof.
  eapply wp_mono; [apply (write_iter_correct demo_psys 300 [65] [] [32] [[]; []; []; []]
    demo_ring demo_waiters demo_running)|].
  intros x s' (_ & _ & Hx & Hr & _). split; [exact Hx|exact Hr].
Defined.

Lemma pipe_close_end_correct_witness :
  wp (pipe_close_end true) (fun free s' => free = false /\ waiters_ok s' [] [] [[]; []; [32]; []]) demo_psys.
Proof.
  eapply wp_mono; [apply (pipe_close_end_correct demo_psys true [65] [] [32] [[]; []; []; []]
    demo_ring demo_waiters ltac:(done) ltac:(done))|].
  intros x s' (_ & Hw & Hr & Hwr & Hf). split; [|exact Hw]. destruct x; [|done].
  destruct (proj1 Hf eq_refl) as [_ H0]. rewrite Hwr in H0. discriminate H0.
Defined.

Lemma pipe_stream_witness :
  exists s' c', ptrace demo_psys [EvRead 65; EvWrite 7] s' /\ ring_ok (ps_pipe s') c' /\ c' = [7].
Proof.
  destruct (read_iter demo_psys) as [[x s1]|] eqn:E1; [|vm_compute in E1; discriminate E1].
  assert (Hx : x = Got 65) by (vm_compute in E1; congruence). subst x.
  destruct (write_iter 7 s1) as [[y s2]|] eqn:E2.
  2:{ vm_compute in E1. injection E1 as <-. vm_compute in E2. discriminate E2. }
  assert (Hy : y = Put) by (vm_compute in E1; injection E1 as <-; vm_compute in E2; congruence). subst y.
  assert (Htr : ptrace demo_psys [EvRead 65; EvWrite 7] s2).
  { econstructor; [exact (ps_read _ _ _ E1)|]. econstructor; [exact (ps_write _ 7 _ _ E2)|constructor]. }
  destruct (pipe_stream _ _ _ [65] Htr demo_ring) as [(c' & Hc' & Hs) _].
  exists s2, c'. split; [exact Htr|]. split; [exact Hc'|]. vm_compute in Hs. congruence.
Defined.
