(* ===== verification/Keyboard.v ===== *)
(** * The keyboard driver (keyboard.c)

    The interrupt handler's decoding and line editing, the input ring it feeds
    and the blocking reader, related to an abstract terminal: a modifier, the
    line being edited and the bytes readers may take. *)

From Stdlib Require Import String.
From S2P Require Import Prelude Ring Proc Queues Mlfq Wait.

Definition KBD_BUF_SIZE : Z := 256.
Definition LINE_BUF_SIZE : Z := KBD_BUF_SIZE.
Definition SC_LSHIFT : Z := 0x2A.
Definition SC_RSHIFT : Z := 0x36.

(** The scancode table, with the characters as their codes. *)
Definition kbd_us : list Z :=
  [0; 27; 49; 50; 51; 52; 53; 54; 55; 56; 57; 48; 45;
   61; 8; 9; 113; 119; 101; 114; 116; 121; 117; 105; 111; 112;
   91; 93; 10; 0; 97; 115; 100; 102; 103; 104; 106; 107; 108;
   59; 39; 96; 0; 92; 122; 120; 99; 118; 98; 110; 109; 44;
   46; 47; 0; 42; 0; 32; 0; 0; 0; 0; 0; 0; 0;
   0; 0; 0; 0; 0; 0; 0; 0; 0; 45; 0; 0; 0;
   43; 0; 0; 0; 0; 0; 0; 0; 0; 0; 0; 0] ++ replicate 38 0.

Definition shift_char (c : Z) : Z :=
  if (97 <=? c) && (c <=? 122) then c - (97 - 65)
  else match c with
  | 49 => 33 | 50 => 64 | 51 => 35 | 52 => 36 | 53 => 37 | 54 => 94 | 55 => 38
  | 56 => 42 | 57 => 40 | 48 => 41 | 45 => 95 | 61 => 43 | 91 => 123 | 93 => 125
  | 59 => 58 | 39 => 34 | 96 => 126 | 92 => 124 | 44 => 60 | 46 => 62 | 47 => 63
  | _ => c
  end.

(** ** State *)

Record kbd := mkKbd {
  kbd_buf : list Z;
  kbd_head : Z;
  kbd_tail : Z;
  kbd_waitq : wait_queue;
  line_buf : list Z;
  line_len : Z;
  shift_down : bool;
}.
Definition set_kbd_waitq (w : wait_queue) (k : kbd) : kbd :=
  mkKbd (kbd_buf k) (kbd_head k) (kbd_tail k) w (line_buf k) (line_len k) (shift_down k).
Definition set_line (b : list Z) (n : Z) (k : kbd) : kbd :=
  mkKbd (kbd_buf k) (kbd_head k) (kbd_tail k) (kbd_waitq k) b n (shift_down k).
Definition set_shift (b : bool) (k : kbd) : kbd :=
  mkKbd (kbd_buf k) (kbd_head k) (kbd_tail k) (kbd_waitq k) (line_buf k) (line_len k) b.
Definition set_ring (b : list Z) (h t : Z) (k : kbd) : kbd :=
  mkKbd b h t (kbd_waitq k) (line_buf k) (line_len k) (shift_down k).

(** [ks_echo]: the characters sent to the console, oldest first. *)
Record ksys := mkKs { ks_kbd : kbd; ks_sched : sched; ks_echo : list Z }.

Definition upd_kbd (f : kbd -> kbd) : M ksys unit :=
  modify (fun s => mkKs (f (ks_kbd s)) (ks_sched s) (ks_echo s)).
Definition echo (cs : list Z) : M ksys unit :=
  modify (fun s => mkKs (ks_kbd s) (ks_sched s) (ks_echo s ++ cs)).
Definition k_on_sched {A} (c : M sched A) : M ksys A := fun s =>
  match c (ks_sched s) with
  | Some (a, s') => Some (a, mkKs (ks_kbd s) s' (ks_echo s))
  | None => None
  end.

(** ** Operations *)

Definition kbd_buf_push (c : Z) : M ksys unit :=
  k <- gets ks_kbd ;;
  let next := (kbd_head k + 1) mod KBD_BUF_SIZE in
  if next =? kbd_tail k then ret tt
  else
    buf <- lift (arr_set (kbd_buf k) (kbd_head k) c) ;;
    upd_kbd (set_ring buf next (kbd_tail k)).

Definition kbd_buf_pop : M ksys (option Z) :=
  k <- gets ks_kbd ;;
  if kbd_tail k =? kbd_head k then ret None
  else
    c <- lift (arr_get (kbd_buf k) (kbd_tail k)) ;;
    upd_kbd (set_ring (kbd_buf k) (kbd_head k) ((kbd_tail k + 1) mod KBD_BUF_SIZE)) ;;
    ret (Some c).

(** Handing the line over, at the end of [on_irq1]. *)
Definition flush_line : M ksys unit :=
  k <- gets ks_kbd ;;
  for_range 0 (Z.to_nat (line_len k)) (fun i =>
    k <- gets ks_kbd ;;
    c <- lift (arr_get (line_buf k) i) ;;
    kbd_buf_push c) ;;
  upd_kbd (fun k => set_line (line_buf k) 0 k) ;;
  k <- gets ks_kbd ;;
  w <- k_on_sched (wake_one (kbd_waitq k)) ;;
  upd_kbd (set_kbd_waitq w).

Definition on_irq1 (scancode : Z) : M ksys unit :=
  let code := Z.land scancode 0x7F in
  let is_break := negb (Z.land scancode 0x80 =? 0) in
  if (code =? SC_LSHIFT) || (code =? SC_RSHIFT) then upd_kbd (set_shift (negb is_break))
  else if is_break then ret tt
  else
    c <- lift (arr_get kbd_us scancode) ;;
    if c =? 0 then ret tt else
    k <- gets ks_kbd ;;
    let c := if shift_down k then shift_char c else c in
    if c =? 8 then
      (if 0 <? line_len k then
         upd_kbd (fun k => set_line (line_buf k) (line_len k - 1) k) ;;
         echo [8; 32; 8]
       else ret tt)
    else
      echo [c] ;;
      (if line_len k <? LINE_BUF_SIZE then
         b <- lift (arr_set (line_buf k) (line_len k) c) ;;
         upd_kbd (set_line b (line_len k + 1))
       else ret tt) ;;
      k <- gets ks_kbd ;;
      if (c =? 10) || (line_len k =? LINE_BUF_SIZE) then flush_line else ret tt.

(** One iteration of [keyboard_read]: a byte, or the caller is parked. *)
Definition kbd_iter : M ksys (option Z) :=
  r <- kbd_buf_pop ;;
  match r with
  | Some c => ret (Some c)
  | None =>
      k <- gets ks_kbd ;;
      w <- k_on_sched (park PROCESS_BLOCKED_KBD (kbd_waitq k)) ;;
      upd_kbd (set_kbd_waitq w) ;;
      ret None
  end.

(** The loop of [keyboard_read] up to its next yield: the bytes so far and
    whether the call is over. *)
Fixpoint kbd_loop (todo : nat) (acc : list Z) : M ksys (list Z * bool) :=
  match todo with
  | O => ret (acc, true)
  | S todo' =>
      r <- kbd_iter ;;
      match r with
      | Some c => if c =? 10 then ret (acc ++ [c], true) else kbd_loop todo' (acc ++ [c])
      | None => ret (acc, false)
      end
  end.
Definition keyboard_read (count : Z) : M ksys (list Z * bool) := kbd_loop (Z.to_nat count) [].

(** ** The abstract terminal *)

Record term := mkTerm { t_shift : bool; t_line : list Z; t_input : list Z }.

(** The US keyboard, by the rows of its keys: the scancode of the first key of a row,
    and what the keys of the row type without and with the shift key.  The last rows
    are Escape, the keys at the ends of the rows, the keypad and the space bar.  With
    shift the minus of the keypad types an underscore, as the minus above does. *)
Definition us_layout : list (Z * list Z * list Z) :=
  [ (2, text "1234567890-=", text "!@#$%^&*()_+");
    (16, text "qwertyuiop[]", text "QWERTYUIOP{}");
    (30, text "asdfghjkl;'`", text "ASDFGHJKL:" ++ [34] ++ text "~");
    (43, text "\zxcvbnm,./", text "|ZXCVBNM<>?");
    (1, [27], [27]); (14, [8; 9], [8; 9]); (28, [10], [10]);
    (55, text "*", text "*"); (57, text " ", text " "); (74, text "-", text "_"); (78, text "+", text "+") ].
Definition row_key (shift : bool) (scancode : Z) (row : Z * list Z * list Z) : option Z :=
  let '(first, plain, shifted) := row in arr_get (if shift then shifted else plain) (scancode - first).
Fixpoint typed (shift : bool) (scancode : Z) (rows : list (Z * list Z * list Z)) : option Z :=
  match rows with
  | [] => None
  | row :: rows' => match row_key shift scancode row with Some c => Some c | None => typed shift scancode rows' end
  end.

Inductive key := Modifier (down : bool) | NoKey | Erase | Char (c : Z).
(** A press of a key has a scancode below 128, its release the same plus 128; 42 and 54
    are the shift keys, and 8 is the character of Backspace. *)
Definition key_of (shift : bool) (scancode : Z) : key :=
  if bool_decide (scancode mod 128 = 42 \/ scancode mod 128 = 54) then Modifier (scancode <? 128)
  else if 128 <=? scancode then NoKey
  else match typed shift scancode us_layout with
       | None => NoKey
       | Some c => if c =? 8 then Erase else Char c
       end.

(** A character completes the line when it is a newline or the 256th of the line. *)
Definition completes (k : key) (t : term) : bool :=
  match k with
  | Char c => (c =? 10) || (Z.of_nat (length (t_line t)) =? 255)
  | _ => false
  end.

(** A complete line is handed to the readers as a whole. *)
Definition term_key (k : key) (t : term) : term :=
  match k with
  | Modifier b => mkTerm b (t_line t) (t_input t)
  | NoKey => t
  | Erase => mkTerm (t_shift t) (removelast (t_line t)) (t_input t)
  | Char c =>
      if completes k t
      then mkTerm (t_shift t) [] (t_input t ++ t_line t ++ [c])
      else mkTerm (t_shift t) (t_line t ++ [c]) (t_input t)
  end.
(** The readers' buffer has room for 255 bytes; what does not fit is lost. *)
Definition kept (t : term) : term := mkTerm (t_shift t) (t_line t) (take 255 (t_input t)).

Record kbd_ok (k : kbd) (t : term) : Prop := {
  ko_ring : slots_ok KBD_BUF_SIZE (kbd_buf k) (kbd_head k) (kbd_tail k) (t_input t);
  ko_buf : Z.of_nat (length (line_buf k)) = LINE_BUF_SIZE;
  ko_len : line_len k = Z.of_nat (length (t_line t));
  ko_room : line_len k < LINE_BUF_SIZE;
  ko_line : take (length (t_line t)) (line_buf k) = t_line t;
  ko_shift : shift_down k = t_shift t;
}.

(** The readers parked on the keyboard. *)
Record kbd_waiters_ok (s : ksys) (wl : list Z) (ls : list (list Z)) : Prop := {
  kw_rep : wq_rep (procs (ks_sched s)) (kbd_waitq (ks_kbd s)) wl;
  kw_parked : parked (procs (ks_sched s)) PROCESS_BLOCKED_KBD wl;
  kw_ready : mlfq_wf (ks_sched s) ls;
}.

Lemma wp_k_on_sched {A} (c : M sched A) (Q : A -> ksys -> Prop) s :
  wp c (fun a s' => Q a (mkKs (ks_kbd s) s' (ks_echo s))) (ks_sched s) -> wp (k_on_sched c) Q s.
Proof. unfold wp, k_on_sched. by destruct (c (ks_sched s)) as [[? ?]|]. Qed.

Lemma take_take_snoc {A} n (l : list A) x : take n (take n l ++ [x]) = take n (l ++ [x]).
Proof.
  destruct (le_lt_dec n (length l)) as [H|H].
  - rewrite !take_app_le by (rewrite ?length_take; lia). by rewrite take_take, Nat.min_id.
  - by rewrite (take_ge l n) by lia.
Qed.

Lemma wp_kbd_buf_push s x c :
  slots_ok KBD_BUF_SIZE (kbd_buf (ks_kbd s)) (kbd_head (ks_kbd s)) (kbd_tail (ks_kbd s)) c ->
  wp (kbd_buf_push x) (fun _ s' => exists b h t,
    s' = mkKs (set_ring b h t (ks_kbd s)) (ks_sched s) (ks_echo s) /\
    slots_ok KBD_BUF_SIZE b h t (take 255 (c ++ [x]))) s.
Proof.
  intros Hs. unfold kbd_buf_push. wp_steps. pose proof (slots_range KBD_BUF_SIZE ltac:(done) _ _ _ _ Hs) as Hr.
  rewrite (slots_full KBD_BUF_SIZE ltac:(done) _ _ _ _ Hs). unfold KBD_BUF_SIZE in *.
  destruct (Z.eqb_spec (Z.of_nat (length c)) (256 - 1)) as [E|E].
  - wp_steps. exists (kbd_buf (ks_kbd s)), (kbd_head (ks_kbd s)), (kbd_tail (ks_kbd s)).
    split; [by destruct s as [[] ? ?]|].
    rewrite take_app_le by lia. by rewrite take_ge by lia.
  - pose proof (slots_push 256 ltac:(done) _ _ _ _ x Hs ltac:(lia)) as Hp. pose proof Hs as [Hl Hh _ _ _].
    wp_steps. eapply wp_lift; [apply arr_set_Some; lia|]. cbv beta. unfold upd_kbd. wp_steps.
    do 3 eexists. split; [done|]. rewrite take_ge by (rewrite length_app; simpl; lia). exact Hp.
Qed.

Lemma wp_flush_line s t wl ls :
  slots_ok KBD_BUF_SIZE (kbd_buf (ks_kbd s)) (kbd_head (ks_kbd s)) (kbd_tail (ks_kbd s)) (t_input t) ->
  Z.of_nat (length (line_buf (ks_kbd s))) = LINE_BUF_SIZE ->
  line_len (ks_kbd s) = Z.of_nat (length (t_line t)) -> line_len (ks_kbd s) <= LINE_BUF_SIZE ->
  take (length (t_line t)) (line_buf (ks_kbd s)) = t_line t -> shift_down (ks_kbd s) = t_shift t ->
  kbd_waiters_ok s wl ls ->
  wp flush_line (fun _ s' =>
    kbd_ok (ks_kbd s') (kept (mkTerm (t_shift t) [] (t_input t ++ t_line t))) /\
    kbd_waiters_ok s' (tail wl) (woken (procs (ks_sched s)) ls (take 1 wl)) /\ ks_echo s' = ks_echo s) s.
Proof.
  intros Hs Hb Hn Hle Hl Hsh [Hw Hp Hwf]. unfold flush_line. wp_steps. rewrite Hn, Nat2Z.id.
  pose (I := fun (i : Z) (s' : ksys) => exists b h tl,
    s' = mkKs (set_ring b h tl (ks_kbd s)) (ks_sched s) (ks_echo s) /\
    slots_ok KBD_BUF_SIZE b h tl (take 255 (t_input t ++ take (Z.to_nat i) (line_buf (ks_kbd s))))).
  eapply wp_mono; [apply (wp_for_range I)|].
  - exists (kbd_buf (ks_kbd s)), (kbd_head (ks_kbd s)), (kbd_tail (ks_kbd s)).
    split; [by destruct s as [[] ? ?]|]. rewrite Z2Nat.inj_0, take_0, app_nil_r.
    pose proof (slots_range KBD_BUF_SIZE ltac:(done) _ _ _ _ Hs). unfold KBD_BUF_SIZE in *.
    by rewrite take_ge by lia.
  - intros i s' Hi (b & h & tl & -> & Hs'). wp_steps. cbn [ks_kbd set_ring line_buf].
    destruct (arr_get_Some (line_buf (ks_kbd s)) i) as [c Hc]; [lia|].
    eapply wp_lift; [done|]. cbv beta.
    eapply wp_mono; [by apply (wp_kbd_buf_push _ c)|]. intros [] s'' (b' & h' & tl' & -> & Hs'').
    exists b', h', tl'. split; [done|]. rewrite take_take_snoc, <- app_assoc in Hs''.
    replace (Z.to_nat (i + 1)) with (S (Z.to_nat i)) by lia.
    unfold arr_get in Hc. destruct (Z.leb_spec 0 i); [|lia]. 
    rewrite (take_S_r (line_buf (ks_kbd s)) (Z.to_nat i) c) by done. exact Hs''.
  - intros [] s' (b & h & tl & -> & Hs'). rewrite Z.add_0_l, Nat2Z.id, Hl in Hs'.
    unfold upd_kbd. wp_steps. apply wp_k_on_sched. simpl.
    eapply wp_mono; [by apply (wp_wake_one (ks_sched s) ls _ wl PROCESS_BLOCKED_KBD)|].
    intros w s' (Hw' & Hp' & Hwf' & _). wp_steps. simpl. split; [|split; [|done]]; split; simpl; try done.
Qed.

Lemma take_insert_snoc (l : list Z) n x :
  (n < length l)%nat -> take (S n) (<[n := x]> l) = take n l ++ [x].
Proof.
  intros Hn. rewrite (take_S_r _ _ x) by (by apply list_lookup_insert_eq).
  by rewrite take_insert_ge.
Qed.

Lemma kept_ok k t : kbd_ok k t -> kbd_ok k (kept t).
Proof.
  intros [Hr Hb Hn Hroom Hl Hsh]. split; try done. cbn. pose proof (slots_range KBD_BUF_SIZE ltac:(done) _ _ _ _ Hr). unfold KBD_BUF_SIZE in *.
  by rewrite take_ge by lia.
Qed.

Lemma wp_key_char s t c wl ls :
  kbd_ok (ks_kbd s) t -> kbd_waiters_ok s wl ls ->
  wp (echo [c] ;;
      (if line_len (ks_kbd s) <? LINE_BUF_SIZE then
         b <- lift (arr_set (line_buf (ks_kbd s)) (line_len (ks_kbd s)) c) ;;
         upd_kbd (set_line b (line_len (ks_kbd s) + 1))
       else ret tt) ;;
      k <- gets ks_kbd ;;
      if (c =? 10) || (line_len k =? LINE_BUF_SIZE) then flush_line else ret tt)
    (fun _ s' => kbd_ok (ks_kbd s') (kept (term_key (Char c) t)) /\
      kbd_waiters_ok s' (if completes (Char c) t then tail wl else wl)
        (if completes (Char c) t then woken (procs (ks_sched s)) ls (take 1 wl) else ls) /\
      ks_echo s' = ks_echo s ++ [c]) s.
Proof.
  intros [Hr Hb Hn Hroom Hl Hsh] Hw. unfold echo, upd_kbd. wp_steps.
  destruct (Z.ltb_spec (line_len (ks_kbd s)) LINE_BUF_SIZE); [|lia]. wp_steps.
  eapply wp_lift; [apply arr_set_Some; lia|]. cbv beta. wp_steps. simpl.
  assert (Hline : take (length (t_line t ++ [c])) (<[Z.to_nat (line_len (ks_kbd s)) := c]> (line_buf (ks_kbd s)))
    = t_line t ++ [c]).
  { rewrite length_app, Nat.add_1_r, Hn, Nat2Z.id. rewrite take_insert_snoc by lia. by rewrite Hl. }
  unfold completes, LINE_BUF_SIZE, KBD_BUF_SIZE in *.
  replace (line_len (ks_kbd s) + 1 =? 256) with (Z.of_nat (length (t_line t)) =? 255)
    by (rewrite Hn; case_bools; done).
  destruct ((c =? 10) || (Z.of_nat (length (t_line t)) =? 255)) eqn:Ec.
  - eapply wp_mono; [apply (wp_flush_line _ (mkTerm (t_shift t) (t_line t ++ [c]) (t_input t)) wl ls)|].
    + done.
    + simpl. by rewrite length_insert.
    + simpl. rewrite length_app. simpl. lia.
    + simpl. unfold LINE_BUF_SIZE, KBD_BUF_SIZE. lia.
    + exact Hline.
    + done.
    + by destruct Hw.
    + intros [] s' (H1 & H2 & H3). simpl in *. done.
  - wp_steps. apply orb_false_iff in Ec as [Ec1 Ec2]. apply Z.eqb_neq in Ec2.
    split; [|split; [by destruct Hw|done]]. apply kept_ok.
    split; simpl; try done; unfold LINE_BUF_SIZE, KBD_BUF_SIZE.
    + by rewrite length_insert.
    + rewrite length_app. simpl. lia.
    + lia.
Qed.

(** The tables of the driver are those of the keyboard. *)
Definition decoded (shift : bool) (c : Z) : option Z := if c =? 0 then None else Some (if shift then shift_char c else c).
Lemma kbd_us_layout shift sc c : 0 <= sc < 128 -> arr_get kbd_us sc = Some c -> typed shift sc us_layout = decoded shift c.
Proof.
  intros Hsc Hc.
  assert (H : forallb (fun i => forallb (fun b => bool_decide (Some (typed b i us_layout) = decoded b <$> arr_get kbd_us i)) [true; false]) (seqZ 0 128) = true)
    by (vm_compute; reflexivity).
  rewrite forallb_forall in H. specialize (H sc). rewrite <- list_elem_of_In, elem_of_seqZ in H. specialize (H ltac:(lia)).
  rewrite forallb_forall in H. specialize (H shift ltac:(destruct shift; cbn; auto)). apply bool_decide_eq_true in H. rewrite Hc in H. by injection H.
Qed.
Lemma shift_code sc : 0 <= sc < 256 ->
  (Z.land sc 127 =? SC_LSHIFT) || (Z.land sc 127 =? SC_RSHIFT) = bool_decide (sc mod 128 = 42 \/ sc mod 128 = 54).
Proof.
  intros Hsc. change 127 with (Z.ones 7). rewrite Z.land_ones by lia. change (2 ^ 7) with 128. unfold SC_LSHIFT, SC_RSHIFT.
  destruct (Z.eqb_spec (sc mod 128) 42), (Z.eqb_spec (sc mod 128) 54); symmetry; (apply bool_decide_eq_true_2; by auto) || (apply bool_decide_eq_false_2; lia).
Qed.
Lemma break_bit sc : 0 <= sc < 256 -> (Z.land sc 128 =? 0) = (sc <? 128).
Proof.
  intros Hsc.
  assert (H : forallb (fun i => eqb (Z.land i 128 =? 0) (i <? 128)) (seqZ 0 256) = true)
    by (vm_compute; reflexivity).
  rewrite forallb_forall in H. apply eqb_prop, H, list_elem_of_In, elem_of_seqZ. lia.
Qed.

Lemma wp_on_irq1 s t sc wl ls :
  kbd_ok (ks_kbd s) t -> kbd_waiters_ok s wl ls -> 0 <= sc < 256 ->
  wp (on_irq1 sc) (fun _ s' =>
    kbd_ok (ks_kbd s') (kept (term_key (key_of (t_shift t) sc) t)) /\
    kbd_waiters_ok s' (if completes (key_of (t_shift t) sc) t then tail wl else wl)
      (if completes (key_of (t_shift t) sc) t then woken (procs (ks_sched s)) ls (take 1 wl) else ls) /\
    ks_echo s' = ks_echo s ++ match key_of (t_shift t) sc with
                              | Char c => [c]
                              | Erase => if decide (t_line t = []) then [] else [8; 32; 8]
                              | _ => []
                              end) s.
Proof.
  intros Hk Hw Hsc. unfold on_irq1, key_of. cbv zeta.
  rewrite shift_code, break_bit by done. destruct (bool_decide _).
  { unfold upd_kbd. wp_steps. simpl. rewrite negb_involutive, app_nil_r.
    split; [apply kept_ok; by destruct Hk|]. split; [by destruct Hw|done]. }
  destruct (Z.ltb_spec sc 128) as [Hlt|], (Z.leb_spec 128 sc); try lia; cbn [negb].
  2:{ wp_steps. simpl. rewrite app_nil_r. split; [by apply kept_ok|done]. }
  destruct (arr_get_Some kbd_us sc) as [c Hc]; [change (Z.of_nat (length kbd_us)) with 128; lia|].
  rewrite (kbd_us_layout (t_shift t) sc c) by (done || lia). unfold decoded.
  wp_steps. eapply wp_lift; [done|]. cbv beta.
  destruct (c =? 0). { wp_steps. simpl. rewrite app_nil_r. split; [by apply kept_ok|done]. }
  wp_steps. pose proof Hk as [Hr Hb Hn Hroom Hl Hsh]. rewrite Hsh.
  set (c' := if t_shift t then shift_char c else c). destruct (c' =? 8).
  - cbn [completes term_key]. destruct (Z.ltb_spec 0 (line_len (ks_kbd s))).
    + unfold upd_kbd, echo. wp_steps. simpl. destruct (t_line t) as [|x l] eqn:El; [simpl in Hn; lia|].
      destruct (decide _); [done|]. split; [|split; [by destruct Hw|done]]. apply kept_ok.
      assert (Hrl : length (removelast (x :: l)) = length l) 
        by (rewrite removelast_firstn_len, length_take; simpl; lia).
      split; cbn [t_line t_input t_shift kbd_buf kbd_head kbd_tail line_buf line_len shift_down set_line];
        try done.
      * rewrite Hrl. simpl in Hn. lia.
      * unfold LINE_BUF_SIZE in *. lia.
      * rewrite Hrl, removelast_firstn_len. cbn [length pred]. cbn [length] in Hl.
        rewrite <- Hl. by rewrite take_take, Nat.min_l by lia.
    + wp_steps. assert (El : t_line t = []) by (destruct (t_line t); [done|simpl in Hn; lia]).
      rewrite El. rewrite decide_True by done. rewrite app_nil_r.
      split; [|split; [done|done]]. apply kept_ok. by destruct Hk; split; simpl; rewrite ?El in *.
  - by apply wp_key_char.
Qed.

Lemma wp_kbd_buf_pop s t c rest :
  kbd_ok (ks_kbd s) t -> t_input t = c :: rest ->
  wp kbd_buf_pop (fun r s' => r = Some c /\ kbd_ok (ks_kbd s') (mkTerm (t_shift t) (t_line t) rest) /\
    ks_sched s' = ks_sched s /\ ks_echo s' = ks_echo s /\ kbd_waitq (ks_kbd s') = kbd_waitq (ks_kbd s)) s.
Proof.
  intros [Hr Hb Hn Hroom Hl Hsh] Hi. unfold kbd_buf_pop. wp_steps. rewrite Hi in Hr.
  destruct (slots_pop KBD_BUF_SIZE ltac:(done) _ _ _ _ _ Hr) as [Hc Hr'].
  destruct (kbd_tail (ks_kbd s) =? kbd_head (ks_kbd s)) eqn:E.
  { by apply (slots_empty KBD_BUF_SIZE _ _ _ _ Hr) in E. }
  wp_steps. eapply wp_lift; [done|]. cbv beta. unfold upd_kbd. wp_steps. simpl.
  split; [done|]. split; [|done]. by split.
Qed.

Lemma wp_kbd_loop l : forall s t rest acc todo,
  kbd_ok (ks_kbd s) t -> t_input t = l ++ 10 :: rest -> 10 ∉ l -> (length l < todo)%nat ->
  wp (kbd_loop todo acc) (fun r s' => r = (acc ++ l ++ [10], true) /\
    kbd_ok (ks_kbd s') (mkTerm (t_shift t) (t_line t) rest) /\
    ks_sched s' = ks_sched s /\ ks_echo s' = ks_echo s /\ kbd_waitq (ks_kbd s') = kbd_waitq (ks_kbd s)) s.
Proof.
  induction l as [|c l IH]; intros s t rest acc todo Hk Hi Hnl Htodo;
    (destruct todo as [|todo]; [simpl in Htodo; lia|]); cbn [kbd_loop]; unfold kbd_iter; wp_steps;
    (eapply wp_mono; [by eapply wp_kbd_buf_pop|]); intros r s1 (-> & Hk1 & Hs1 & He1 & Hw1); wp_steps.
  - by rewrite Z.eqb_refl.
  - apply not_elem_of_cons in Hnl as [Hc Hnl]. destruct (Z.eqb_spec c 10); [by destruct Hc|].
    eapply wp_mono; [eapply (IH s1 _ rest (acc ++ [c]) todo Hk1); [done|done|simpl in Htodo; lia]|].
    intros r s' (-> & Hk' & -> & -> & ->). simpl in *. rewrite <- app_assoc. by split_and!.
Qed.

(** C34: The keyboard interrupt handler implements a terminal with a US keyboard: for
    every scancode it finds the key that was pressed or released, edits the line
    (backspace removes its last character), echoes, and on a newline or the 256th
    character hands the whole line to the readers and wakes the first parked reader; it
    never leaves its arrays.  When the bytes waiting for readers and the line are more
    than 255 together, the end of the line is lost, the newline with it. *)
Theorem on_irq1_refines (s : ksys) (t : term) (sc : Z) wl ls :
  kbd_ok (ks_kbd s) t -> kbd_waiters_ok s wl ls -> 0 <= sc < 256 ->
  wp (on_irq1 sc) (fun _ s' =>
    let t' := term_key (key_of (t_shift t) sc) t in
    kbd_ok (ks_kbd s') (if (length (t_input t') <=? 255)%nat then t' else kept t') /\
    kbd_waiters_ok s' (if completes (key_of (t_shift t) sc) t then tail wl else wl)
      (if completes (key_of (t_shift t) sc) t then woken (procs (ks_sched s)) ls (take 1 wl) else ls) /\
    ks_echo s' = ks_echo s ++ match key_of (t_shift t) sc with
                              | Char c => [c]
                              | Erase => if decide (t_line t = []) then [] else [8; 32; 8]
                              | _ => []
                              end) s.
Proof.
  intros Hk Hw Hsc. eapply wp_mono; [by apply (wp_on_irq1 s t sc wl ls)|]. intros [] s' (H1 & H2 & H3). cbv zeta.
  split; [|done]. destruct (Nat.leb_spec (length (t_input (term_key (key_of (t_shift t) sc) t))) 255) as [Hle|]; [|done].
  unfold kept in H1. rewrite take_ge in H1 by done. by destruct (term_key _ t).
Qed.

(** [keyboard_read] with room for a buffered line returns exactly that line,
    newline included, and leaves what follows it for the next call. *)
Theorem keyboard_read_line (s : ksys) (t : term) (l rest : list Z) (count : Z) :
  kbd_ok (ks_kbd s) t -> t_input t = l ++ 10 :: rest -> 10 ∉ l -> Z.of_nat (length l) < count ->
  wp (keyboard_read count) (fun r s' => r = (l ++ [10], true) /\
    kbd_ok (ks_kbd s') (mkTerm (t_shift t) (t_line t) rest) /\ ks_sched s' = ks_sched s) s.
Proof.
  intros Hk Hi Hl Hc. unfold keyboard_read.
  eapply wp_mono; [eapply (wp_kbd_loop l s t rest [] _ Hk Hi Hl); lia|].
  intros r s' (-> & Hk' & Hs' & _). done.
Qed.

(** A line of 255 characters loses its newline: the buffer for readers holds
    one byte less than the line buffer, so pressing Enter hands over the 255
    characters and drops the newline that [keyboard_read] waits for. *)
Theorem kbd_full_line_drops_newline (s : ksys) (t : term) wl ls :
  kbd_ok (ks_kbd s) t -> kbd_waiters_ok s wl ls -> t_shift t = false ->
  t_input t = [] -> length (t_line t) = 255%nat ->
  wp (on_irq1 28) (fun _ s' => exists t',
    kbd_ok (ks_kbd s') t' /\ t_line t' = [] /\ t_input t' = t_line t) s.
Proof.
  intros Hk Hw Hsh Hin Hlen.
  eapply wp_mono; [by apply (wp_on_irq1 s t 28 wl ls); [done|done|lia]|]. intros [] s' (Hk' & _).
  eexists. split; [exact Hk'|]. rewrite Hsh. change (key_of false 28) with (Char 10).
  cbn [term_key completes]. rewrite Hlen, Hin. cbn [Z.of_nat Z.eqb orb t_line t_input app kept].
  split; [done|]. change (take 255 (t_line t ++ [10]) = t_line t). rewrite take_app_le by lia. by rewrite take_ge by lia.
Qed.

(** ** Instances *)

Definition demo_kbd (line : list Z) (n : Z) : kbd :=
  mkKbd (replicate 256 0) 0 0 wq_empty (line ++ replicate (256 - length line) 0) n false.

Definition demo_ksys (line : list Z) : ksys := mkKs (demo_kbd line (Z.of_nat (length line))) demo_sched [].

Lemma demo_kbd_ok line :
  (length line < 256)%nat -> kbd_ok (ks_kbd (demo_ksys line)) (mkTerm false line []).
Proof.
  intros Hl. split; simpl; try done.
  - rewrite length_app, length_replicate. unfold LINE_BUF_SIZE, KBD_BUF_SIZE. lia.
  - unfold LINE_BUF_SIZE, KBD_BUF_SIZE. lia.
  - by rewrite take_app_length.
Qed.
Lemma demo_kbd_waiters line : kbd_waiters_ok (demo_ksys line) [] [[]; []; []; []].
Proof.
  split; simpl; [by split; [apply linked_nil|]|by intros a Ha%not_elem_of_nil|].
  apply (demo_sched_implements).
Qed.

(** The key A (scancode 0x1E) after "h". *)
Lemma on_irq1_refines_witness :
  wp (on_irq1 0x1E) (fun _ s' => kbd_ok (ks_kbd s') (mkTerm false [104; 97] []) /\ ks_echo s' = [97])
    (demo_ksys [104]).
Proof.
  eapply wp_mono; [apply (on_irq1_refines (demo_ksys [104]) (mkTerm false [104] []) 0x1E [] [[]; []; []; []]
    (demo_kbd_ok [104] ltac:(simpl; lia)) (demo_kbd_waiters [104]) ltac:(lia))|].
  intros u s' (Hk & _ & He). split; [exact Hk|exact He].
Defined.

(** A ring that holds "a\nb". *)
Definition demo_full : ksys :=
  mkKs (mkKbd ([97; 10; 98] ++ replicate 253 0) 3 0 wq_empty (replicate 256 0) 0 false) demo_sched [].
Lemma demo_full_ok : kbd_ok (ks_kbd demo_full) (mkTerm false [] [97; 10; 98]).
Proof. split; try done. Qed.
Lemma demo_no_newline : 10 ∉ [97].
Proof. by intros ?%list_elem_of_singleton. Qed.

Lemma keyboard_read_line_witness :
  wp (keyboard_read 64) (fun r _ => r = ([97; 10], true)) demo_full.
Proof.
  eapply wp_mono; [apply (keyboard_read_line demo_full (mkTerm false [] [97; 10; 98]) [97] [98] 64
    demo_full_ok eq_refl demo_no_newline ltac:(reflexivity))|].
  intros r s' [Hr _]. exact Hr.
Defined.

Lemma kbd_full_line_drops_newline_witness :
  wp (on_irq1 28) (fun _ s' => exists t',
    kbd_ok (ks_kbd s') t' /\ t_line t' = [] /\ t_input t' = replicate 255 97) (demo_ksys (replicate 255 97)).
Proof.
  apply (kbd_full_line_drops_newline (demo_ksys (replicate 255 97)) (mkTerm false (replicate 255 97) [])
    [] [[]; []; []; []] (demo_kbd_ok (replicate 255 97) ltac:(rewrite length_replicate; lia)) (demo_kbd_waiters (replicate 255 97))
    eq_refl eq_refl (length_replicate 255 97)).
Defined.
