(* ===== verification/Mouse.v ===== *)
(** * The mouse driver (mouse.c)

    The assembly of three-byte PS/2 packets, the packet ring and the reader. *)

From S2P Require Import Prelude Ring Proc Queues Mlfq Wait.

Definition MOUSE_BUF_SIZE : Z := 64.

Record mouse_packet := mkPkt { pkt_dx : Z; pkt_dy : Z; pkt_buttons : Z }.

Record mouse := mkMouse {
  mouse_buf : list mouse_packet;
  mouse_head : Z;
  mouse_tail : Z;
  mouse_waitq : wait_queue;
  packet_bytes : list Z;
  packet_idx : Z;
}.
Definition set_mring (b : list mouse_packet) (h t : Z) (m : mouse) : mouse :=
  mkMouse b h t (mouse_waitq m) (packet_bytes m) (packet_idx m).
Definition set_mwaitq (w : wait_queue) (m : mouse) : mouse :=
  mkMouse (mouse_buf m) (mouse_head m) (mouse_tail m) w (packet_bytes m) (packet_idx m).
Definition set_packet (b : list Z) (i : Z) (m : mouse) : mouse :=
  mkMouse (mouse_buf m) (mouse_head m) (mouse_tail m) (mouse_waitq m) b i.

Record msys := mkMs { ms_mouse : mouse; ms_sched : sched }.

Definition upd_mouse (f : mouse -> mouse) : M msys unit :=
  modify (fun s => mkMs (f (ms_mouse s)) (ms_sched s)).
Definition m_on_sched {A} (c : M sched A) : M msys A := fun s =>
  match c (ms_sched s) with
  | Some (a, s') => Some (a, mkMs (ms_mouse s) s')
  | None => None
  end.

(** ** Operations *)

Definition mouse_buf_push (pkt : mouse_packet) : M msys unit :=
  m <- gets ms_mouse ;;
  let next := (mouse_head m + 1) mod MOUSE_BUF_SIZE in
  if next =? mouse_tail m then ret tt
  else
    buf <- lift (arr_set (mouse_buf m) (mouse_head m) pkt) ;;
    upd_mouse (set_mring buf next (mouse_tail m)).

Definition mouse_buf_pop : M msys (option mouse_packet) :=
  m <- gets ms_mouse ;;
  if mouse_tail m =? mouse_head m then ret None
  else
    p <- lift (arr_get (mouse_buf m) (mouse_tail m)) ;;
    upd_mouse (set_mring (mouse_buf m) (mouse_head m) ((mouse_tail m + 1) mod MOUSE_BUF_SIZE)) ;;
    ret (Some p).

Definition on_irq12 (data : Z) : M msys unit :=
  m <- gets ms_mouse ;;
  if (packet_idx m =? 0) && (Z.land data 0x08 =? 0) then ret tt else
  b <- lift (arr_set (packet_bytes m) (packet_idx m) data) ;;
  upd_mouse (set_packet b (packet_idx m + 1)) ;;
  if packet_idx m + 1 <? 3 then ret tt else
  upd_mouse (set_packet b 0) ;;
  flags <- lift (arr_get b 0) ;;
  if negb (Z.land flags 0xC0 =? 0) then ret tt else
  b1 <- lift (arr_get b 1) ;;
  b2 <- lift (arr_get b 2) ;;
  mouse_buf_push (mkPkt
    (if negb (Z.land flags 0x10 =? 0) then b1 - 256 else b1)
    (if negb (Z.land flags 0x20 =? 0) then b2 - 256 else b2)
    (Z.land flags 0x07)) ;;
  m <- gets ms_mouse ;;
  w <- m_on_sched (wake_one (mouse_waitq m)) ;;
  upd_mouse (set_mwaitq w).

(** The loop of [mouse_read] up to its next yield: the packets so far and
    whether the call is over. *)
Fixpoint mouse_loop (todo : nat) (nonblock : bool) (acc : list mouse_packet)
  : M msys (list mouse_packet * bool) :=
  match todo with
  | O => ret (acc, true)
  | S todo' =>
      r <- mouse_buf_pop ;;
      match r with
      | Some p => mouse_loop todo' nonblock (acc ++ [p])
      | None =>
          if (0 <? Z.of_nat (length acc)) || nonblock then ret (acc, true)
          else
            m <- gets ms_mouse ;;
            w <- m_on_sched (park PROCESS_BLOCKED_MOUSE (mouse_waitq m)) ;;
            upd_mouse (set_mwaitq w) ;;
            ret (acc, false)
      end
  end.
Definition mouse_read (max_packets : Z) (nonblock : bool) : M msys (list mouse_packet * bool) :=
  mouse_loop (Z.to_nat max_packets) nonblock [].

(** ** The device's side: how a movement is put on the wire *)

(** The three bytes of a movement; bit 3 of the first byte is always set. *)
Definition packet_flags (p : mouse_packet) : Z :=
  pkt_buttons p + 8 + (if pkt_dx p <? 0 then 16 else 0) + (if pkt_dy p <? 0 then 32 else 0).
Definition encode_packet (p : mouse_packet) : list Z :=
  [packet_flags p; pkt_dx p mod 256; pkt_dy p mod 256].

Definition packet_ok (p : mouse_packet) : Prop :=
  -256 <= pkt_dx p < 256 /\ -256 <= pkt_dy p < 256 /\ 0 <= pkt_buttons p < 8.

Fixpoint feed (bytes : list Z) : M msys unit :=
  match bytes with
  | [] => ret tt
  | b :: bs => on_irq12 b ;; feed bs
  end.

Record mouse_ok (m : mouse) (c : list mouse_packet) : Prop := {
  mo_ring : slots_ok MOUSE_BUF_SIZE (mouse_buf m) (mouse_head m) (mouse_tail m) c;
  mo_packet : length (packet_bytes m) = 3%nat;
}.

Record mouse_waiters_ok (s : msys) (wl : list Z) (ls : list (list Z)) : Prop := {
  mw_rep : wq_rep (procs (ms_sched s)) (mouse_waitq (ms_mouse s)) wl;
  mw_parked : parked (procs (ms_sched s)) PROCESS_BLOCKED_MOUSE wl;
  mw_ready : mlfq_wf (ms_sched s) ls;
}.

Lemma wp_m_on_sched {A} (c : M sched A) (Q : A -> msys -> Prop) s :
  wp c (fun a s' => Q a (mkMs (ms_mouse s) s')) (ms_sched s) -> wp (m_on_sched c) Q s.
Proof. unfold wp, m_on_sched. by destruct (c (ms_sched s)) as [[? ?]|]. Qed.

Lemma wp_mouse_buf_push s p c :
  slots_ok MOUSE_BUF_SIZE (mouse_buf (ms_mouse s)) (mouse_head (ms_mouse s)) (mouse_tail (ms_mouse s)) c ->
  wp (mouse_buf_push p) (fun _ s' => exists b h t,
    s' = mkMs (set_mring b h t (ms_mouse s)) (ms_sched s) /\
    slots_ok MOUSE_BUF_SIZE b h t (take 63 (c ++ [p]))) s.
Proof.
  intros Hs. unfold mouse_buf_push. wp_steps. pose proof (slots_range MOUSE_BUF_SIZE ltac:(done) _ _ _ _ Hs) as Hr.
  rewrite (slots_full MOUSE_BUF_SIZE ltac:(done) _ _ _ _ Hs). unfold MOUSE_BUF_SIZE in *.
  destruct (Z.eqb_spec (Z.of_nat (length c)) (64 - 1)) as [E|E].
  - wp_steps. exists (mouse_buf (ms_mouse s)), (mouse_head (ms_mouse s)), (mouse_tail (ms_mouse s)).
    split; [by destruct s as [[] ?]|]. rewrite take_app_le by lia. by rewrite take_ge by lia.
  - pose proof (slots_push 64 ltac:(done) _ _ _ _ p Hs ltac:(lia)) as Hp. pose proof Hs as [Hl Hh _ _ _].
    wp_steps. eapply wp_lift; [apply arr_set_Some; lia|]. cbv beta. unfold upd_mouse. wp_steps.
    do 3 eexists. split; [done|]. rewrite take_ge by (rewrite length_app; simpl; lia). exact Hp.
Qed.

(** The bits of the flag byte, for the 32 flag bytes there are. *)
Lemma packet_flags_bits p :
  packet_ok p ->
  (Z.land (packet_flags p) 0x08 =? 0) = false /\ (Z.land (packet_flags p) 0xC0 =? 0) = true /\
  negb (Z.land (packet_flags p) 0x10 =? 0) = (pkt_dx p <? 0) /\
  negb (Z.land (packet_flags p) 0x20 =? 0) = (pkt_dy p <? 0) /\
  Z.land (packet_flags p) 0x07 = pkt_buttons p.
Proof.
  intros (_ & _ & Hb). unfold packet_flags.
  assert (H : forall b, 0 <= b < 8 -> b = 0 \/ b = 1 \/ b = 2 \/ b = 3 \/ b = 4 \/ b = 5 \/ b = 6 \/ b = 7) by lia.
  destruct (pkt_dx p <? 0), (pkt_dy p <? 0);
    destruct (H _ Hb) as [E|[E|[E|[E|[E|[E|[E|E]]]]]]]; rewrite E; by vm_compute.
Qed.

(** Bytes that cannot start a packet are skipped. *)
Lemma wp_feed_junk junk s :
  packet_idx (ms_mouse s) = 0 -> Forall (fun b => Z.land b 0x08 = 0) junk ->
  wp (feed junk) (fun _ s' => s' = s) s.
Proof.
  intros Hi. induction junk as [|b bs IH]; intros Hj; simpl; [by wp_steps|].
  apply Forall_cons in Hj as [Hb Hbs]. wp_steps. unfold on_irq12. wp_steps. rewrite Hi, Hb. simpl. wp_steps.
  by apply IH.
Qed.

Lemma feed_app b1 b2 s Q : wp (feed b1) (fun _ => wp (feed b2) Q) s -> wp (feed (b1 ++ b2)) Q s.
Proof.
  revert s. induction b1 as [|b b1 IH]; intros s H; simpl in *; [done|].
  apply wp_bind_inv in H. wp_steps. eapply wp_mono; [exact H|]. intros [] s' H'. by apply IH.
Qed.

(** The first and the second byte of a packet are stored. *)
Lemma wp_irq12_first s data x y z :
  packet_bytes (ms_mouse s) = [x; y; z] -> packet_idx (ms_mouse s) = 0 -> (Z.land data 0x08 =? 0) = false ->
  wp (on_irq12 data) (fun _ s' => s' = mkMs (set_packet [data; y; z] 1 (ms_mouse s)) (ms_sched s)) s.
Proof.
  intros Hb Hi Hd. unfold on_irq12. wp_steps. rewrite Hi, Hd, Hb. cbn [Z.eqb andb]. wp_steps.
  eapply wp_lift; [done|]. cbv beta. unfold upd_mouse. wp_steps. done.
Qed.
Lemma wp_irq12_second s data x y z :
  packet_bytes (ms_mouse s) = [x; y; z] -> packet_idx (ms_mouse s) = 1 ->
  wp (on_irq12 data) (fun _ s' => s' = mkMs (set_packet [x; data; z] 2 (ms_mouse s)) (ms_sched s)) s.
Proof.
  intros Hb Hi. unfold on_irq12. wp_steps. rewrite Hi, Hb. cbn [Z.eqb andb]. wp_steps.
  eapply wp_lift; [done|]. cbv beta. unfold upd_mouse. wp_steps. done.
Qed.
(** The third one completes the packet. *)
Lemma wp_irq12_third s c p z wl ls :
  slots_ok MOUSE_BUF_SIZE (mouse_buf (ms_mouse s)) (mouse_head (ms_mouse s)) (mouse_tail (ms_mouse s)) c ->
  packet_bytes (ms_mouse s) = [packet_flags p; pkt_dx p mod 256; z] -> packet_idx (ms_mouse s) = 2 ->
  packet_ok p -> mouse_waiters_ok s wl ls ->
  wp (on_irq12 (pkt_dy p mod 256)) (fun _ s' =>
    mouse_ok (ms_mouse s') (take 63 (c ++ [p])) /\ packet_idx (ms_mouse s') = 0 /\
    mouse_waiters_ok s' (tail wl) (woken (procs (ms_sched s)) ls (take 1 wl))) s.
Proof.
  intros Hr Hb Hi Hok [Hw Hp Hwf]. destruct (packet_flags_bits p Hok) as (F1 & F2 & F3 & F4 & F5).
  unfold on_irq12. wp_steps. rewrite Hi, Hb. cbn [Z.eqb andb]. wp_steps.
  eapply wp_lift; [done|]. cbv beta. unfold upd_mouse. wp_steps. change (2 + 1 <? 3) with false. cbv iota. wp_steps.
  eapply wp_lift; [done|]. cbv beta. rewrite F2. cbn [negb]. wp_steps.
  eapply wp_lift; [done|]. cbv beta. wp_steps. eapply wp_lift; [done|]. cbv beta. wp_steps.
  rewrite F3, F4, F5. replace (mkPkt _ _ _) with p.
  2:{ destruct p as [dx dy bt], Hok as (Hx & Hy & _). simpl in *. f_equal; case_bools; lia. }
  eapply wp_mono; [by apply (wp_mouse_buf_push _ p c)|]. intros [] s' (b & h' & t' & -> & Hr'). wp_steps.
  apply wp_m_on_sched. cbn.
  eapply wp_mono; [by apply (wp_wake_one (ms_sched s) ls _ wl PROCESS_BLOCKED_MOUSE)|].
  intros w s' (Hw' & Hp' & Hwf' & _). wp_steps. cbn. by split_and!.
Qed.

Lemma wp_feed_packet s c p wl ls :
  mouse_ok (ms_mouse s) c -> mouse_waiters_ok s wl ls -> packet_idx (ms_mouse s) = 0 -> packet_ok p ->
  wp (feed (encode_packet p)) (fun _ s' =>
    mouse_ok (ms_mouse s') (take 63 (c ++ [p])) /\ packet_idx (ms_mouse s') = 0 /\
    mouse_waiters_ok s' (tail wl) (woken (procs (ms_sched s)) ls (take 1 wl))) s.
Proof.
  intros [Hr Hb] Hw Hi Hok. destruct (packet_flags_bits p Hok) as (F1 & _).
  destruct (packet_bytes (ms_mouse s)) as [|x [|y [|z [|]]]] eqn:Eb; try done.
  unfold encode_packet. cbn [feed]. wp_step. eapply wp_mono; [by apply (wp_irq12_first s _ x y z)|].
  intros [] s1 ->. wp_step. eapply wp_mono; [by apply (wp_irq12_second _ _ (packet_flags p) y z)|].
  intros [] s2 ->. wp_step. eapply wp_mono; [apply (wp_irq12_third _ c p z wl ls); try done; by destruct Hw|].
  intros [] s3 H. by wp_steps.
Qed.

(** Packet assembly is the inverse of the wire format: whatever bytes that
    cannot start a packet come first, the three bytes of a movement in
    [-256, 255] with any buttons queue exactly that movement (when the ring has
    room) and wake the first parked reader, and the driver is ready for the next
    packet. *)
Theorem mouse_packet_roundtrip (s : msys) (c : list mouse_packet) (junk : list Z) (p : mouse_packet) wl ls :
  mouse_ok (ms_mouse s) c -> mouse_waiters_ok s wl ls -> packet_idx (ms_mouse s) = 0 ->
  Forall (fun b => Z.land b 0x08 = 0) junk -> packet_ok p ->
  wp (feed (junk ++ encode_packet p)) (fun _ s' =>
    mouse_ok (ms_mouse s') (take 63 (c ++ [p])) /\ packet_idx (ms_mouse s') = 0 /\
    mouse_waiters_ok s' (tail wl) (woken (procs (ms_sched s)) ls (take 1 wl))) s.
Proof.
  intros Hm Hw Hi Hj Hok. apply feed_app. eapply wp_mono; [by apply wp_feed_junk|].
  intros [] s' ->. by apply wp_feed_packet.
Qed.

Lemma wp_mouse_buf_pop s c :
  mouse_ok (ms_mouse s) c ->
  wp mouse_buf_pop (fun r s' => r = head c /\ mouse_ok (ms_mouse s') (tail c) /\ ms_sched s' = ms_sched s) s.
Proof.
  intros [Hr Hb]. unfold mouse_buf_pop. wp_steps.
  pose proof (slots_empty MOUSE_BUF_SIZE _ _ _ _ Hr) as He.
  destruct (mouse_tail (ms_mouse s) =? mouse_head (ms_mouse s)) eqn:E.
  - assert (c = []) as -> by (by apply He). by wp_steps.
  - destruct c as [|p c]; [pose proof (proj2 He eq_refl); congruence|].
    destruct (slots_pop MOUSE_BUF_SIZE ltac:(done) _ _ _ _ _ Hr) as [Hp Hr'].
    wp_steps. eapply wp_lift; [done|]. cbv beta. unfold upd_mouse. wp_steps. by split_and!.
Qed.

Lemma wp_mouse_loop todo : forall s c nonblock acc,
  mouse_ok (ms_mouse s) c -> nonblock = true \/ acc ++ c <> [] ->
  wp (mouse_loop todo nonblock acc) (fun r s' => r = (acc ++ take todo c, true) /\
    mouse_ok (ms_mouse s') (drop todo c) /\ ms_sched s' = ms_sched s) s.
Proof.
  induction todo as [|todo IH]; intros s c nonblock acc Hm Hnb; cbn [mouse_loop].
  - wp_steps. by rewrite take_0, drop_0, app_nil_r.
  - wp_steps. eapply wp_mono; [by apply wp_mouse_buf_pop|]. intros r s1 (-> & Hm1 & Hs1).
    destruct c as [|p c]; cbn [head tail] in *.
    + rewrite app_nil_r in Hnb.
      replace ((0 <? Z.of_nat (length acc)) || nonblock) with true.
      2:{ destruct Hnb as [-> | Hne]; [by rewrite orb_true_r|]. destruct acc; [done|]. simpl. lia. }
      wp_steps. by rewrite app_nil_r.
    + eapply wp_mono; [apply (IH s1 c nonblock (acc ++ [p]) Hm1); right; by destruct acc|].
      intros r s' (-> & Hm' & ->). simpl. by rewrite <- app_assoc.
Qed.

(** [mouse_read] returns the queued packets in order, up to the requested
    number, without blocking when one is available or the caller does not want
    to block, and leaves the rest queued. *)
Theorem mouse_read_correct (s : msys) (c : list mouse_packet) (max_packets : Z) (nonblock : bool) :
  mouse_ok (ms_mouse s) c -> nonblock = true \/ c <> [] ->
  wp (mouse_read max_packets nonblock) (fun r s' => r = (take (Z.to_nat max_packets) c, true) /\
    mouse_ok (ms_mouse s') (drop (Z.to_nat max_packets) c) /\ ms_sched s' = ms_sched s) s.
Proof. intros Hm Hnb. by apply (wp_mouse_loop _ s c nonblock []). Qed.

(** ** Instances *)

Definition demo_msys : msys :=
  mkMs (mkMouse (mkPkt 3 (-4) 1 :: replicate 63 (mkPkt 0 0 0)) 1 0 wq_empty [0; 0; 0] 0) demo_sched.
Lemma demo_mouse_ok : mouse_ok (ms_mouse demo_msys) [mkPkt 3 (-4) 1].
Proof. split; [split|]; done. Qed.
Lemma demo_mouse_waiters : mouse_waiters_ok demo_msys [] [[]; []; []; []].
Proof.
  split; simpl; [by split; [apply linked_nil|]|by intros a Ha%not_elem_of_nil|].
  apply demo_sched_implements.
Qed.

Lemma mouse_packet_roundtrip_witness :
  wp (feed ([0; 6] ++ encode_packet (mkPkt (-256) 255 5))) (fun _ s' =>
    mouse_ok (ms_mouse s') [mkPkt 3 (-4) 1; mkPkt (-256) 255 5]) demo_msys.
Proof.
  eapply wp_mono; [apply (mouse_packet_roundtrip demo_msys [mkPkt 3 (-4) 1] [0; 6] (mkPkt (-256) 255 5) []
    [[]; []; []; []] demo_mouse_ok demo_mouse_waiters eq_refl)|].
  - repeat constructor.
  - split; [|split]; (split; [discriminate|reflexivity]).
  - intros u s' [H _]. exact H.
Defined.

Lemma mouse_read_correct_witness :
  wp (mouse_read 8 false) (fun r _ => r = ([mkPkt 3 (-4) 1], true)) demo_msys.
Proof.
  eapply wp_mono; [apply (mouse_read_correct demo_msys [mkPkt 3 (-4) 1] 8 false demo_mouse_ok)|].
  - right. discriminate.
  - intros r s' [H _]. exact H.
Defined.
