(* ===== verification/Heap.v ===== *)
(** * The interface of the kernel heap

    What the kernel code relies on when it calls [kmalloc] and [kfree]: the
    result is 0 or the address of a block that is not in use. *)

From S2P Require Import Prelude.

Class HeapOps (H : Type) := {
  kmalloc : Z -> M H Z;
  kfree : Z -> M H unit;
}.

Class Heap (H : Type) `{HeapOps H} := {
  heap_wf : H -> Prop;
  (** The blocks in use. *)
  live : H -> gset Z;
  kmalloc_spec h n :
    heap_wf h -> 0 < n <= 2048 ->
    wp (kmalloc n) (fun p h' => heap_wf h' /\
      ((p = 0 /\ live h' = live h) \/ (p <> 0 /\ (p ∉ live h) /\ live h' = ({[p]} ∪ live h)))) h;
  kfree_spec h p :
    heap_wf h -> p ∈ live h ->
    wp (kfree p) (fun _ h' => heap_wf h' /\ live h' = (live h ∖ {[p]})) h;
}.

(** A heap that hands out ever higher addresses: the smallest implementation of
    the interface, on which the client theorems are instantiated. *)
Record bump := mkBump { bump_next : Z; bump_used : gset Z }.

#[export] Instance bump_ops : HeapOps bump := {
  kmalloc n := fun h => Some (bump_next h, mkBump (bump_next h + 2048) ({[bump_next h]} ∪ bump_used h));
  kfree p := fun h => Some (tt, mkBump (bump_next h) (bump_used h ∖ {[p]}));
}.

Definition bump_wf (h : bump) : Prop :=
  0 < bump_next h /\ forall p, p ∈ bump_used h -> p < bump_next h.

Lemma bump_alloc h n :
  bump_wf h -> wp (kmalloc n) (fun p h' => bump_wf h' /\ p <> 0 /\
    (p ∉ bump_used h) /\ bump_used h' = ({[p]} ∪ bump_used h)) h.
Proof.
  intros [Hn Hu]. cbn. split; [split; cbn; [lia|]|].
  - intros p [->%elem_of_singleton|Hp]%elem_of_union; [lia|]. specialize (Hu p Hp). lia.
  - split; [lia|]. split; [|done]. intros Hp. specialize (Hu _ Hp). lia.
Qed.

Lemma bump_alloc_law (h : bump) n :
  bump_wf h -> 0 < n <= 2048 ->
  wp (kmalloc n) (fun p h' => bump_wf h' /\
    ((p = 0 /\ bump_used h' = bump_used h) \/
     (p <> 0 /\ (p ∉ bump_used h) /\ bump_used h' = ({[p]} ∪ bump_used h)))) h.
Proof. intros Hh _. eapply wp_mono; [by apply bump_alloc|]. intros p h' (? & ? & ? & ?). eauto. Qed.
Lemma bump_free_law (h : bump) p :
  bump_wf h -> p ∈ bump_used h ->
  wp (kfree p) (fun _ h' => bump_wf h' /\ bump_used h' = (bump_used h ∖ {[p]})) h.
Proof.
  intros [Hn Hu] _. cbn. split; [|done]. split; cbn; [done|].
  intros q [Hq _]%elem_of_difference. by apply Hu.
Qed.

#[export] Instance bump_heap : Heap bump := {
  heap_wf := bump_wf;
  live := bump_used;
  kmalloc_spec := bump_alloc_law;
  kfree_spec := bump_free_law;
}.

(** ** A heap as its clients see it

    The blocks in use with their sizes, and the bytes in them.  The slab allocator
    of the kernel and the allocator of the C library both implement it. *)

Definition live_byte (live : gmap Z Z) (b : Z) : Prop := exists p n, live !! p = Some n /\ p <= b < p + n.

Record aheap := mkHeap { ah_live : gmap Z Z; ah_data : Z -> Z }.
Inductive hop := HMalloc (n : Z) | HFree (p : Z) | HWrite (b c : Z).

(** The client frees only what it got and writes only into its blocks. *)
Definition legal_hop (sizes : Z -> Prop) (a : aheap) (op : hop) : Prop :=
  match op with
  | HMalloc n => sizes n
  | HFree p => p = 0 \/ is_Some (ah_live a !! p)
  | HWrite b _ => live_byte (ah_live a) b
  end.

(** The bytes of the blocks of [live] have the same contents. *)
Definition same_data (live : gmap Z Z) (a a' : aheap) : Prop := forall b, live_byte live b -> ah_data a' b = ah_data a b.

(** A new block has room for [n] bytes, is aligned to 16 and overlaps no other;
    there is none only when [fails n]. *)
Definition hstep (fails : Z -> Prop) (a : aheap) (op : hop) (r : Z) (a' : aheap) : Prop :=
  match op with
  | HMalloc n =>
      same_data (ah_live a) a a' /\
      ((r = 0 /\ ah_live a' = ah_live a /\ fails n) \/
       exists k, n <= k /\ r <> 0 /\ r mod 16 = 0 /\ ah_live a !! r = None /\ (forall q j, ah_live a !! q = Some j -> r + k <= q \/ q + j <= r) /\
         ah_live a' = <[r := k]> (ah_live a))
  | HFree p => ah_live a' = delete p (ah_live a) /\ same_data (ah_live a') a a'
  | HWrite b c => ah_live a' = ah_live a /\ ah_data a' b = u8 c /\ forall b', b' <> b -> live_byte (ah_live a) b' -> ah_data a' b' = ah_data a b'
  end.
