(* ===== verification/Slab.v ===== *)
(** * The kernel heap (crates/kernel/src/slab.rs)

    A slab is a page of equally sized chunks behind a header; the free chunks of
    a slab are linked through their first word, and the slabs of each size class
    through their headers.  Everything lies in the byte memory: the slabs in the
    direct map, the table of size classes at [caches] in the kernel's image. *)

From S2P Require Import Prelude Mem CString FrameAlloc Vmm.

(** ** The code *)

Definition SLAB_MAGIC : Z := 0x51AB51AB.
Definition NUM_CACHES : nat := 8.
Definition CACHE_SIZES : list Z := [16; 32; 64; 128; 256; 512; 1024; 2048].

Section code.
Context {S : Type} `{FrameOps S} (hhdm_offset KMALLOC_CACHES : Z).
Abbreviation V := (M (vm S)).

(** Accesses to the fields of [Slab], [SlabChunk] and [SlabCache], by address. *)
Definition ld (a : Z) : V Z := gets (fun s => load64 (vm_mem s) a).
Definition st (a v : Z) : V unit := modify (fun s => set_mem (store64 (vm_mem s) a v) s).

(** [repr(C)] offsets: [magic] at 0. *)
Definition sl_next (s : Z) : Z := s + 8.
Definition sl_prev (s : Z) : Z := s + 16.
Definition sl_cache (s : Z) : Z := s + 24.
Definition sl_free_list (s : Z) : Z := s + 32.
Definition sl_free_chunks (s : Z) : Z := s + 40.
Definition sl_total_chunks (s : Z) : Z := s + 48.
Definition SLAB_SIZE : Z := 56.

Definition ca_object_size (c : Z) : Z := c.
Definition ca_partial (c : Z) : Z := c + 8.
Definition ca_free (c : Z) : Z := c + 16.
Definition ca_full (c : Z) : Z := c + 24.
Definition cache_at (i : Z) : Z := KMALLOC_CACHES + 32 * i.

Definition list_remove (head s : Z) : V unit :=
  prev <- ld (sl_prev s) ;;
  (if prev =? 0 then ret tt else next <- ld (sl_next s) ;; st (sl_next prev) next) ;;
  next <- ld (sl_next s) ;;
  (if next =? 0 then ret tt else prev <- ld (sl_prev s) ;; st (sl_prev next) prev) ;;
  h <- ld head ;;
  if h =? s then next <- ld (sl_next s) ;; st head next else ret tt.

Definition list_add (head s : Z) : V unit :=
  h <- ld head ;;
  st (sl_next s) h ;;
  st (sl_prev s) 0 ;;
  h <- ld head ;;
  (if h =? 0 then ret tt else st (sl_prev h) s) ;;
  st head s.

Definition init_slab : V unit :=
  for_range 0 NUM_CACHES (fun i =>
    size <- lift (arr_get CACHE_SIZES i) ;;
    st (ca_object_size (cache_at i)) size ;;
    st (ca_partial (cache_at i)) 0 ;;
    st (ca_free (cache_at i)) 0 ;;
    st (ca_full (cache_at i)) 0).

(** The loop that puts the chunks of a new slab on its free list; 256 rounds are
    more than a page has chunks. *)
Fixpoint carve (fuel : nat) (slab obj_size data_end chunk_addr : Z) : V unit :=
  match fuel with
  | O => undef
  | Datatypes.S fuel' =>
      if u64 (chunk_addr + obj_size) <=? data_end then
        fl <- ld (sl_free_list slab) ;;
        st chunk_addr fl ;;
        st (sl_free_list slab) chunk_addr ;;
        n <- ld (sl_free_chunks slab) ;;
        st (sl_free_chunks slab) (u64 (n + 1)) ;;
        carve fuel' slab obj_size data_end (u64 (chunk_addr + obj_size))
      else ret tt
  end.

Definition allocate_new_slab (cache : Z) : V Z :=
  raw_page_phys <- pa fa_alloc ;;
  if raw_page_phys =? 0 then ret 0
  else
    let new_slab := p2v hhdm_offset raw_page_phys in
    mem_memset new_slab 0 PAGE_SIZE ;;
    modify (fun s => set_mem (store32 (vm_mem s) new_slab SLAB_MAGIC) s) ;;
    st (sl_cache new_slab) cache ;;
    st (sl_next new_slab) 0 ;;
    st (sl_prev new_slab) 0 ;;
    st (sl_free_list new_slab) 0 ;;
    st (sl_free_chunks new_slab) 0 ;;
    let data_start := Z.land (u64 (new_slab + SLAB_SIZE + 15)) (Z.lnot 15) in
    let data_end := u64 (new_slab + PAGE_SIZE) in
    obj_size <- ld (ca_object_size cache) ;;
    carve 256 new_slab obj_size data_end data_start ;;
    n <- ld (sl_free_chunks new_slab) ;;
    st (sl_total_chunks new_slab) n ;;
    ret new_slab.

(** The first size class that fits. *)
Fixpoint find_cache (i : Z) (sizes : list Z) (size : Z) : option Z :=
  match sizes with
  | [] => None
  | c :: sizes' => if size <=? c then Some i else find_cache (i + 1) sizes' size
  end.

(** The slab to allocate from, on the partial list of its class. *)
Definition target_slab (cache : Z) : V Z :=
  target <- ld (ca_partial cache) ;;
  if negb (target =? 0) then ret target else
  target <- ld (ca_free cache) ;;
  if negb (target =? 0) then
    list_remove (ca_free cache) target ;;
    list_add (ca_partial cache) target ;;
    ret target
  else
    target <- allocate_new_slab cache ;;
    if target =? 0 then ret 0
    else list_add (ca_partial cache) target ;; ret target.

Definition slab_kmalloc (size : Z) : V Z :=
  if size =? 0 then ret 0 else
  if 2048 <? size then ret 0 else
  match find_cache 0 CACHE_SIZES size with
  | None => ret 0
  | Some i =>
      let cache := cache_at i in
      target <- target_slab cache ;;
      if target =? 0 then ret 0 else
      chunk <- ld (sl_free_list target) ;;
      next <- ld chunk ;;
      st (sl_free_list target) next ;;
      n <- ld (sl_free_chunks target) ;;
      st (sl_free_chunks target) (u64 (n - 1)) ;;
      n <- ld (sl_free_chunks target) ;;
      (if n =? 0 then
         list_remove (ca_partial cache) target ;;
         list_add (ca_full cache) target
       else ret tt) ;;
      ret chunk
  end.

Definition slab_kfree (ptr_in : Z) : V unit :=
  if ptr_in =? 0 then ret tt else
  let slab := Z.land ptr_in (Z.lnot 0xFFF) in
  magic <- gets (fun s => load32 (vm_mem s) slab) ;;
  if negb (magic =? SLAB_MAGIC) then ret tt else
  cache <- ld (sl_cache slab) ;;
  n <- ld (sl_free_chunks slab) ;;
  (if n =? 0 then
     list_remove (ca_full cache) slab ;;
     list_add (ca_partial cache) slab
   else ret tt) ;;
  fl <- ld (sl_free_list slab) ;;
  st ptr_in fl ;;
  st (sl_free_list slab) ptr_in ;;
  n <- ld (sl_free_chunks slab) ;;
  st (sl_free_chunks slab) (u64 (n + 1)) ;;
  n <- ld (sl_free_chunks slab) ;;
  t <- ld (sl_total_chunks slab) ;;
  if n =? t then
    list_remove (ca_partial cache) slab ;;
    pa (fa_free (v2p hhdm_offset slab))
  else ret tt.
End code.

#[local] Opaque load64 store64 load32 store32 load8 memset.

(** ** Doubly linked lists of slabs *)

Definition hd_or (n : Z) (l : list Z) : Z := match l with [] => n | x :: _ => x end.
Definition last_or (p : Z) (l : list Z) : Z := default p (last l).

(** The links of [l] between the neighbours [p] and [n]. *)
Fixpoint seg (m : memory) (p : Z) (l : list Z) (n : Z) : Prop :=
  match l with
  | [] => True
  | v :: l' => load64 m (sl_prev v) = p /\ load64 m (sl_next v) = hd_or n l' /\ seg m v l' n
  end.
Definition dlist (m : memory) (head : Z) (l : list Z) : Prop := load64 m head = hd_or 0 l /\ seg m 0 l 0.

Lemma last_or_snoc p l x : last_or p (l ++ [x]) = x.
Proof. unfold last_or. by rewrite last_snoc. Qed.
Lemma last_or_cons p x l : last_or p (x :: l) = last_or x l.
Proof. destruct l; [done|]. unfold last_or. cbn [last]. by destruct (last (z :: l)) eqn:E; [|apply last_None in E]. Qed.
Lemma seg_app m p l1 l2 n : seg m p (l1 ++ l2) n <-> seg m p l1 (hd_or n l2) /\ seg m (last_or p l1) l2 n.
Proof.
  revert p. induction l1 as [|v l1 IH]; intros p; cbn [app seg]; [tauto|]. rewrite IH, last_or_cons.
  replace (hd_or n (l1 ++ l2)) with (hd_or (hd_or n l2) l1) by (by destruct l1). tauto.
Qed.
Lemma seg_ext m m' p l n :
  (forall v, v ∈ l -> load64 m' (sl_prev v) = load64 m (sl_prev v) /\ load64 m' (sl_next v) = load64 m (sl_next v)) ->
  seg m p l n -> seg m' p l n.
Proof.
  revert p. induction l as [|v l IH]; intros p He H; [done|]. destruct H as (H1 & H2 & H3).
  destruct (He v) as [E1 E2]; [by left|]. cbn [seg]. rewrite E1, E2. split_and!; [done|done|]. apply IH; [|done]. intros u Hu. apply He. by right.
Qed.

Section lists.
Context {S : Type} `{FrameOps S} (top : Z) (Htop : top mod 4096 = 0).
Implicit Types (s : vm S).

(** A page that can hold a slab; the heads of the lists lie above all of them. *)
Definition page (v : Z) : Prop := v mod 4096 = 0 /\ 0 < v < top.

Lemma wp_ld a (Q : Z -> vm S -> Prop) s : Q (load64 (vm_mem s) a) s -> wp (ld a) Q s.
Proof. done. Qed.
Lemma wp_st a v (Q : unit -> vm S -> Prop) s : Q tt (set_mem (store64 (vm_mem s) a v) s) -> wp (st a v) Q s.
Proof. done. Qed.

(** The bytes of the link fields of the slabs of [l]. *)
Definition link_bytes (l : list Z) (b : Z) : Prop := exists v, v ∈ l /\ v + 8 <= b < v + 24.
Definition head_bytes (head b : Z) : Prop := head <= b < head + 8.

Lemma word_load64_store64 m a v : word v -> load64 (store64 m a v) a = v.
Proof. apply load64_store64_eq. Qed.

(** Cut [v] out between its neighbours. *)
Lemma seg_cut m m' l1 v l2 :
  NoDup (l1 ++ v :: l2) ->
  (l1 <> [] -> load64 m' (sl_next (last_or 0 l1)) = hd_or 0 l2) ->
  (l2 <> [] -> load64 m' (sl_prev (hd_or 0 l2)) = last_or 0 l1) ->
  (forall u, u ∈ l1 -> load64 m' (sl_prev u) = load64 m (sl_prev u)) ->
  (forall u, u ∈ l2 -> load64 m' (sl_next u) = load64 m (sl_next u)) ->
  (forall u, u ∈ l1 -> u <> last_or 0 l1 -> load64 m' (sl_next u) = load64 m (sl_next u)) ->
  (forall u, u ∈ l2 -> u <> hd_or 0 l2 -> load64 m' (sl_prev u) = load64 m (sl_prev u)) ->
  seg m 0 (l1 ++ v :: l2) 0 -> seg m' 0 (l1 ++ l2) 0.
Proof.
  intros Hnd Hn Hp E1 E2 E3 E4 Hs. apply seg_app in Hs as [Hs1 Hs2]. cbn [seg hd_or] in Hs1, Hs2. destruct Hs2 as (_ & _ & Hs2).
  apply NoDup_app in Hnd as (Hnd1 & _ & Hnd2). apply NoDup_cons in Hnd2 as [_ Hnd2]. apply seg_app. split.
  - destruct l1 as [|u l1 _] using rev_ind; [done|]. apply NoDup_app in Hnd1 as (_ & Hu & _).
    apply seg_app in Hs1 as [Ha Hb]. apply seg_app. cbn [seg hd_or] in *. destruct Hb as (Hb & _ & _).
    rewrite last_or_snoc in *. split.
    + eapply seg_ext; [|exact Ha]. intros x Hx. assert (x ∈ l1 ++ [u]) by (apply elem_of_app; by left). split; [by apply E1|].
      apply E3; [done|]. intros ->. apply (Hu u Hx). by left.
    + split_and!; [|by apply Hn; destruct l1|done]. rewrite E1, Hb; [done|]. apply elem_of_app. right. by left.
  - destruct l2 as [|w l2]; [done|]. cbn [seg hd_or] in *. destruct Hs2 as (_ & Hc & Hd). apply NoDup_cons in Hnd2 as [Hw _]. split_and!.
    + by apply Hp.
    + rewrite E2; [done|by left].
    + eapply seg_ext; [|exact Hd]. intros x Hx. split; [|apply E2; by right]. apply E4; [by right|]. by intros ->.
Qed.

(** [list_remove] on the words of memory. *)
Lemma wp_list_remove_raw head v pr nx s :
  page v -> top <= head -> (pr = 0 \/ page pr) -> (nx = 0 \/ page nx) -> pr <> v -> nx <> v ->
  load64 (vm_mem s) (sl_prev v) = pr -> load64 (vm_mem s) (sl_next v) = nx ->
  wp (list_remove head v) (fun _ s' => exists m', s' = set_mem m' s /\
    changes (vm_mem s) m' (fun b => (pr <> 0 /\ pr + 8 <= b < pr + 16) \/ (nx <> 0 /\ nx + 16 <= b < nx + 24) \/ head_bytes head b) /\
    (pr <> 0 -> load64 m' (sl_next pr) = nx) /\ (nx <> 0 -> load64 m' (sl_prev nx) = pr) /\
    load64 m' head = if load64 (vm_mem s) head =? v then nx else load64 (vm_mem s) head) s.
Proof.
  intros Hv Hh Hpr Hnx Hpv Hnv Ep En. unfold page, sl_prev, sl_next, head_bytes in *.
  pose proof (load64_range (vm_mem s) (v + 16)) as Wp. rewrite Ep in Wp. pose proof (load64_range (vm_mem s) (v + 8)) as Wn. rewrite En in Wn.
  set (m1 := if pr =? 0 then vm_mem s else store64 (vm_mem s) (pr + 8) nx).
  set (m2 := if nx =? 0 then m1 else store64 m1 (nx + 16) pr).
  set (m3 := if load64 (vm_mem s) head =? v then store64 m2 head nx else m2).
  assert (L1 : forall a, a + 8 <= pr + 8 \/ pr + 16 <= a \/ pr = 0 -> load64 m1 a = load64 (vm_mem s) a).
  { intros a Ha. unfold m1. destruct (Z.eqb_spec pr 0); [done|]. apply load64_store64_ne. lia. }
  assert (L2 : forall a, a + 8 <= nx + 16 \/ nx + 24 <= a \/ nx = 0 -> load64 m2 a = load64 m1 a).
  { intros a Ha. unfold m2. destruct (Z.eqb_spec nx 0); [done|]. apply load64_store64_ne. lia. }
  assert (L3 : forall a, a + 8 <= head -> load64 m3 a = load64 m2 a).
  { intros a Ha. unfold m3. destruct (_ =? v); [|done]. apply load64_store64_ne. lia. }
  assert (Hrun : wp (list_remove head v) (fun _ s' => s' = set_mem m3 s) s).
  { unfold list_remove, sl_prev, sl_next. wp_step. apply wp_ld. rewrite Ep. wp_step.
    apply (wp_mono _ (fun _ s' => s' = set_mem m1 s)).
    { unfold m1. destruct (pr =? 0); [by destruct s|]. wp_step. apply wp_ld. rewrite En. by apply wp_st. }
    intros [] ? ->. wp_step. apply wp_ld. cbn [vm_mem set_mem]. rewrite L1, En by lia. wp_step.
    apply (wp_mono _ (fun _ s' => s' = set_mem m2 s)).
    { unfold m2. destruct (nx =? 0); [done|]. wp_step. apply wp_ld. cbn [vm_mem set_mem]. rewrite L1, Ep by lia. by apply wp_st. }
    intros [] ? ->. wp_step. apply wp_ld. cbn [vm_mem set_mem]. rewrite L2, L1 by lia. unfold m3.
    destruct (_ =? v); [|done]. wp_step. apply wp_ld. cbn [vm_mem set_mem]. rewrite L2, L1, En by lia. by apply wp_st. }
  eapply wp_mono; [exact Hrun|]. intros [] s' ->. exists m3. split; [done|]. split_and!.
  - apply (changes_trans _ m1). { unfold m1. destruct (Z.eqb_spec pr 0); [done|]. apply changes_store. lia. }
    apply (changes_trans _ m2). { unfold m2. destruct (Z.eqb_spec nx 0); [done|]. apply changes_store. lia. }
    unfold m3. destruct (_ =? v); [|done]. apply changes_store. lia.
  - intros Hp. rewrite L3, L2 by lia. unfold m1. destruct (Z.eqb_spec pr 0); [done|]. by apply load64_store64_eq.
  - intros Hn. rewrite L3 by lia. unfold m2. destruct (Z.eqb_spec nx 0); [done|]. by apply load64_store64_eq.
  - unfold m3. destruct (_ =? v) eqn:E; [by apply load64_store64_eq|]. rewrite L2, L1 by lia. done.
Qed.

Lemma page_apart2 u v : page u -> page v -> u <> v -> u + 4096 <= v \/ v + 4096 <= u.
Proof. unfold page. lia. Qed.
Lemma last_or_page l : Forall page l -> l = [] /\ last_or 0 l = 0 \/ l <> [] /\ last_or 0 l ∈ l /\ page (last_or 0 l).
Proof.
  intros Hl. destruct l as [|u l _] using rev_ind; [by left|]. right. rewrite last_or_snoc. split; [by destruct l|].
  assert (Hu : u ∈ l ++ [u]) by (apply elem_of_app; right; by left). split; [done|]. by eapply Forall_forall in Hl.
Qed.
Lemma hd_or_page l : Forall page l -> l = [] /\ hd_or 0 l = 0 \/ l <> [] /\ hd_or 0 l ∈ l /\ page (hd_or 0 l).
Proof. intros Hl. destruct l as [|u l]; [by left|]. right. split; [done|]. split; [by left|]. by inversion Hl. Qed.

Lemma wp_list_remove head l1 v l2 s :
  Forall page (l1 ++ v :: l2) -> NoDup (l1 ++ v :: l2) -> top <= head -> dlist (vm_mem s) head (l1 ++ v :: l2) ->
  wp (list_remove head v) (fun _ s' => exists m', s' = set_mem m' s /\ dlist m' head (l1 ++ l2) /\
    changes (vm_mem s) m' (fun b => link_bytes (l1 ++ l2) b \/ head_bytes head b)) s.
Proof.
  intros Hp Hnd Hh [Hhd Hs]. set (m := vm_mem s) in *. pose proof Hp as [Hp1 [Hpv Hp2]%Forall_cons]%Forall_app.
  pose proof Hnd as (Hnd1 & Hv1 & [Hv2 Hnd2]%NoDup_cons)%NoDup_app.
  assert (Hlinks : load64 m (sl_prev v) = last_or 0 l1 /\ load64 m (sl_next v) = hd_or 0 l2).
  { apply seg_app in Hs as [_ Hs]. cbn in Hs. by destruct Hs as (? & ? & _). }
  destruct Hlinks as [Ep En]. pose proof (last_or_page l1 Hp1) as Hl1. pose proof (hd_or_page l2 Hp2) as Hl2.
  assert (Hne1 : last_or 0 l1 <> v). { intros E. destruct Hl1 as [[_ E']|(_ & Hin & _)]; [unfold page in Hpv; lia|]. rewrite E in Hin. apply (Hv1 v Hin). by left. }
  assert (Hne2 : hd_or 0 l2 <> v). { intros E. destruct Hl2 as [[_ E']|(_ & Hin & _)]; [unfold page in Hpv; lia|]. by rewrite E in Hin. }
  assert (Hpg : forall u, u ∈ l1 \/ u ∈ l2 -> page u).
  { intros u [Hu|Hu]; [by eapply (Forall_forall page l1)|by eapply (Forall_forall page l2)]. }
  eapply wp_mono; [apply (wp_list_remove_raw head v (last_or 0 l1) (hd_or 0 l2)); try done; tauto|].
  intros [] s' (m' & -> & Hch & Hn & Hpv' & Hhd'). exists m'. split; [done|].
  set (pr := last_or 0 l1) in *. set (nx := hd_or 0 l2) in *. split; [split|].
  - rewrite Hhd'. fold m. rewrite Hhd. destruct l1 as [|u l1]; cbn [app hd_or]; [by rewrite Z.eqb_refl|].
    destruct (Z.eqb_spec u v) as [->|]; [|done]. exfalso. apply (Hv1 v); by left.
  - apply (seg_cut m m' l1 v l2 Hnd); fold pr nx; unfold sl_prev, sl_next in *; try done.
    + intros Hl. apply Hn. destruct Hl1 as [[? _]|(_ & _ & [_ ?])]; [done|lia].
    + intros Hl. apply Hpv'. destruct Hl2 as [[? _]|(_ & _ & [_ ?])]; [done|lia].
    + intros u Hu. pose proof (Hpg u (or_introl Hu)) as Hpu. eapply changes_load64; [exact Hch|].
      assert (nx = 0 \/ page nx /\ u <> nx) as Hx.
      { destruct Hl2 as [[_ ?]|(_ & Hin & ?)]; [by left|right]. split; [done|]. intros ->. apply (Hv1 nx Hu). by right. }
      unfold head_bytes, page in *. intros b Hb. lia.
    + intros u Hu. pose proof (Hpg u (or_intror Hu)) as Hpu. eapply changes_load64; [exact Hch|].
      assert (pr = 0 \/ page pr /\ u <> pr) as Hx.
      { destruct Hl1 as [[_ ?]|(_ & Hin & ?)]; [by left|right]. split; [done|]. intros ->. apply (Hv1 pr Hin). by right. }
      unfold head_bytes, page in *. intros b Hb. lia.
    + intros u Hu Hne. pose proof (Hpg u (or_introl Hu)) as Hpu. eapply changes_load64; [exact Hch|].
      unfold head_bytes, page in *. intros b Hb. lia.
    + intros u Hu Hne. pose proof (Hpg u (or_intror Hu)) as Hpu. eapply changes_load64; [exact Hch|].
      unfold head_bytes, page in *. intros b Hb. lia.
  - eapply changes_mono; [exact Hch|]. unfold link_bytes, head_bytes. intros b [[Hne Hb]|[[Hne Hb]|Hb]]; [| |by right].
    + left. exists pr. split; [|lia]. apply elem_of_app. left. by destruct Hl1 as [[_ ?]|(_ & ? & _)].
    + left. exists nx. split; [|lia]. apply elem_of_app. right. by destruct Hl2 as [[_ ?]|(_ & ? & _)].
Qed.

Lemma wp_list_add head v l s :
  Forall page (v :: l) -> NoDup (v :: l) -> top <= head -> head + 8 <= 18446744073709551616 -> dlist (vm_mem s) head l ->
  wp (list_add head v) (fun _ s' => exists m', s' = set_mem m' s /\ dlist m' head (v :: l) /\
    changes (vm_mem s) m' (fun b => link_bytes (v :: l) b \/ head_bytes head b)) s.
Proof.
  intros [Hpv Hpl]%Forall_cons [Hv Hnd]%NoDup_cons Hh Hh' [Hhd Hs]. unfold list_add, sl_next, sl_prev.
  set (m := vm_mem s) in *. set (h := hd_or 0 l) in *. pose proof (hd_or_page l Hpl) as Hl. fold h in Hl.
  assert (Hwh : word h) by (rewrite <- Hhd; apply load64_range). assert (Hwv : word v) by (unfold word, page in *; lia).
  assert (Hhv : h = 0 \/ page h /\ h <> v). { destruct Hl as [[_ ?]|(_ & Hin & ?)]; [by left|right]. split; [done|]. by intros <-. }
  set (m1 := store64 m (v + 8) h). set (m2 := store64 m1 (v + 16) 0).
  set (m3 := if h =? 0 then m2 else store64 m2 (h + 16) v). set (m4 := store64 m3 head v).
  assert (L1 : load64 m1 head = h) by (unfold m1; rewrite load64_store64_ne by (unfold page in *; lia); done).
  assert (L2 : load64 m2 head = h) by (unfold m2; rewrite load64_store64_ne by (unfold page in *; lia); done).
  assert (L3 : forall a, a + 8 <= h + 16 \/ h + 24 <= a \/ h = 0 -> load64 m3 a = load64 m2 a).
  { intros a Ha. unfold m3. destruct (Z.eqb_spec h 0); [done|]. apply load64_store64_ne. lia. }
  assert (Hrun : wp (list_add head v) (fun _ s' => s' = set_mem m4 s) s).
  { unfold list_add, sl_next, sl_prev. wp_step. apply wp_ld. fold m. rewrite Hhd. wp_step. apply wp_st. wp_step. apply wp_st. wp_step.
    apply wp_ld. cbn [vm_mem set_mem]. fold m m1 m2. rewrite L2. wp_step. apply (wp_mono _ (fun _ s' => s' = set_mem m3 s)).
    { unfold m3. destruct (h =? 0); [done|]. by apply wp_st. }
    intros [] ? ->. by apply wp_st. }
  eapply wp_mono; [exact Hrun|]. intros [] s' ->. exists m4. split; [done|].
  assert (Hch : changes m m4 (fun b => v + 8 <= b < v + 24 \/ (h <> 0 /\ h + 16 <= b < h + 24) \/ head_bytes head b)).
  { unfold head_bytes. apply (changes_trans _ m1); [apply changes_store; lia|]. apply (changes_trans _ m2); [apply changes_store; lia|].
    apply (changes_trans _ m3); [|apply changes_store; lia]. unfold m3. destruct (Z.eqb_spec h 0); [apply changes_refl|]. apply changes_store. lia. }
  split; [split|].
  - exact (load64_store64_eq m3 head v Hwv).
  - cbn [seg hd_or]. unfold sl_next, sl_prev. fold h. unfold page in Hpv, Hhv. split_and!.
    + unfold m4. rewrite load64_store64_ne by lia. rewrite L3 by lia. apply (load64_store64_eq m1 (v + 16) 0). unfold word. lia.
    + unfold m4. rewrite load64_store64_ne by lia. rewrite L3 by lia. unfold m2. rewrite load64_store64_ne by lia. exact (load64_store64_eq m (v + 8) h Hwh).
    + destruct l as [|w l]; [done|]. cbn [seg hd_or] in Hs, h |- *. unfold sl_next, sl_prev in *. destruct Hs as (_ & Hn & Hs).
      apply Forall_cons in Hpl as [Hpw Hpl]. apply not_elem_of_cons in Hv as [_ Hv]. unfold page in Hpw. split_and!.
      * unfold m4, m3. rewrite load64_store64_ne by lia. destruct (Z.eqb_spec h 0); [lia|]. exact (load64_store64_eq m2 (h + 16) v Hwv).
      * rewrite <- Hn. eapply changes_load64; [exact Hch|]. unfold head_bytes. intros b Hb. lia.
      * eapply seg_ext; [|exact Hs]. intros u Hu. unfold sl_next, sl_prev.
        assert (page u /\ u <> v /\ u <> h) as ([? ?] & ? & ?).
        { split; [by eapply (Forall_forall page l)|]. apply NoDup_cons in Hnd as [Hnw _]. split; by intros ->. }
        split; eapply changes_load64; try exact Hch; unfold head_bytes; intros b Hb; lia.
  - eapply changes_mono; [exact Hch|]. unfold link_bytes. intros b [Hb|[[Hne Hb]|Hb]]; [| |by right].
    + left. exists v. split; [by left|lia].
    + left. exists h. split; [|lia]. right. by destruct Hl as [[_ ?]|(_ & ? & _)].
Qed.
End lists.

(** ** A slab *)

(** The object size of class [i] is [16 * 2^i]. *)
Definition osz (i : nat) : Z := default 0 (CACHE_SIZES !! i).
Lemma osz_facts i : (i < 8)%nat -> 16 <= osz i <= 2048 /\ osz i mod 16 = 0 /\ arr_get CACHE_SIZES (Z.of_nat i) = Some (osz i).
Proof. intros Hi. do 8 (destruct i as [|i]; [split; [vm_compute; split; discriminate|split; reflexivity]|]). lia. Qed.

Lemma find_cache_spec size i : find_cache 0 CACHE_SIZES size = Some i -> exists k, i = Z.of_nat k /\ (k < 8)%nat /\ size <= osz k.
Proof.
  cbn [find_cache CACHE_SIZES]. repeat (case_bool; [intros [= <-]|]); [..|done];
    [exists 0%nat|exists 1%nat|exists 2%nat|exists 3%nat|exists 4%nat|exists 5%nat|exists 6%nat|exists 7%nat]; split_and!; (done || lia).
Qed.
Lemma find_cache_fits size : size <= 2048 -> exists i, find_cache 0 CACHE_SIZES size = Some i.
Proof. intros Hs. cbn [find_cache CACHE_SIZES]. repeat (case_bool; [eauto|]). lia. Qed.

Definition is_chunk (o v p : Z) : Prop := exists k, 0 <= k < 4032 / o /\ p = v + 64 + k * o.

Section chunks.
Context (o : Z) (Ho : 16 <= o <= 2048) (Ho16 : o mod 16 = 0).

Lemma chunk_bounds v p : is_chunk o v p -> v + 64 <= p /\ p + o <= v + 4096 /\ (p - v) mod 16 = 0.
Proof.
  intros (k & Hk & ->). pose proof (Z.mul_div_le 4032 o ltac:(lia)).
  assert (k * o + o <= o * (4032 / o)) by nia. split; [nia|]. split; [lia|].
  replace (v + 64 + k * o - v) with (64 + k * o) by lia. rewrite <- Zplus_mod_idemp_r, <- Zmult_mod_idemp_r, Ho16, Z.mul_0_r. done.
Qed.
Lemma chunk_apart v p q : is_chunk o v p -> is_chunk o v q -> p <> q -> p + o <= q \/ q + o <= p.
Proof. intros (k & Hk & ->) (j & Hj & ->) Hne. assert (k <> j) by (intros ->; lia). nia. Qed.

Definition all_chunks (v : Z) : list Z := (fun k => v + 64 + Z.of_nat k * o) <$> seq 0 (Z.to_nat (4032 / o)).
Lemma all_chunks_length v : length (all_chunks v) = Z.to_nat (4032 / o).
Proof. unfold all_chunks. by rewrite length_fmap, length_seq. Qed.
Lemma elem_all_chunks v p : p ∈ all_chunks v <-> is_chunk o v p.
Proof.
  unfold all_chunks, is_chunk. rewrite list_elem_of_fmap. split.
  - intros (k & -> & Hk%elem_of_seq). exists (Z.of_nat k). lia.
  - intros (k & Hk & ->). exists (Z.to_nat k). rewrite Z2Nat.id by lia. split; [done|]. apply elem_of_seq. lia.
Qed.
(** No more chunks than fit in the page. *)
Lemma chunks_count v l : NoDup l -> Forall (is_chunk o v) l -> Z.of_nat (length l) <= 4032 / o.
Proof.
  intros Hnd Hl. assert (Hs : l ⊆+ all_chunks v).
  { apply NoDup_submseteq; [done|]. intros p Hp. apply elem_all_chunks. by eapply Forall_forall in Hl. }
  apply submseteq_length in Hs. rewrite all_chunks_length in Hs. assert (0 <= 4032 / o) by (apply Z.div_pos; lia). lia.
Qed.
End chunks.

(** As many free chunks as fit: every chunk is free. *)
Lemma chunks_full o v l c : 16 <= o <= 2048 -> o mod 16 = 0 -> NoDup l -> Forall (is_chunk o v) l -> Z.of_nat (length l) = 4032 / o ->
  is_chunk o v c -> c ∈ l.
Proof.
  intros Ho H16 Hnd Hl Hn Hc. destruct (decide (c ∈ l)); [done|]. exfalso.
  pose proof (chunks_count o Ho H16 v (c :: l)) as H. cbn [length] in H. rewrite Nat2Z.inj_succ in H.
  assert (4032 / o + 1 <= 4032 / o); [|lia]. rewrite <- Hn at 1. apply H; [by constructor|by constructor].
Qed.

(** The chain of free chunks, each linked to the next. *)
Fixpoint chain (m : memory) (l : list Z) : Prop :=
  match l with
  | [] => True
  | c :: l' => load64 m c = hd_or 0 l' /\ chain m l'
  end.
Lemma slab_chain_ext m m' l : (forall c, c ∈ l -> load64 m' c = load64 m c) -> chain m l -> chain m' l.
Proof.
  induction l as [|c l IH]; intros He H; [done|]. destruct H as [H1 H2]. split; [rewrite He; [done|by left]|].
  apply IH; [|done]. intros d Hd. apply He. by right.
Qed.

(** A slab of objects of size [o] at [v] whose free chunks are [fl]. *)
Record slab_ok (m : memory) (o cache v : Z) (fl : list Z) : Prop := {
  so_magic : load32 m v = SLAB_MAGIC;
  so_cache : load64 m (sl_cache v) = cache;
  so_first : load64 m (sl_free_list v) = hd_or 0 fl;
  so_count : load64 m (sl_free_chunks v) = Z.of_nat (length fl);
  so_total : load64 m (sl_total_chunks v) = 4032 / o;
  so_nodup : NoDup fl;
  so_chunks : Forall (is_chunk o v) fl;
  so_chain : chain m fl;
}.

(** The bytes it is made of. *)
Definition slab_bytes (v : Z) (fl : list Z) (b : Z) : Prop :=
  v <= b < v + 4 \/ v + 24 <= b < v + 56 \/ exists c, c ∈ fl /\ c <= b < c + 8.

Lemma slab_ok_ext m m' P o cache v fl :
  changes m m' P -> (forall b, slab_bytes v fl b -> ~ P b) -> slab_ok m o cache v fl -> slab_ok m' o cache v fl.
Proof.
  unfold slab_bytes. intros Hch HP [H1 H2 H3 H4 H5 H6 H7 H8]. unfold sl_cache, sl_free_list, sl_free_chunks, sl_total_chunks in *.
  assert (L : forall k, 24 <= k <= 48 -> load64 m' (v + k) = load64 m (v + k)).
  { intros k Hk. eapply changes_load64; [exact Hch|]. intros b Hb. apply HP. lia. }
  split; unfold sl_cache, sl_free_list, sl_free_chunks, sl_total_chunks; try (rewrite L by lia); try done.
  - rewrite <- H1. eapply changes_load32; [exact Hch|]. intros b Hb. apply HP. lia.
  - eapply slab_chain_ext; [|exact H8]. intros c Hc. eapply changes_load64; [exact Hch|]. intros b Hb. apply HP. right. right. eauto.
Qed.
