(* ===== verification/SlabHeap.v ===== *)
(** * The slab allocator is a heap (crates/kernel/src/slab.rs)

    All slabs together: the invariant of the lists, the slabs and the blocks in
    use, what [kmalloc], [kfree] and [init_slab] do to it, and the heap their
    callers see. *)

From S2P Require Import Prelude Mem CString FrameAlloc Pmm Vmm PageTable AddressSpace Heap Slab.

#[local] Opaque load64 store64 load32 store32 load8 memset.

(** ** All slabs of the heap *)

Section heap.
Context {S : Type} `{FO : FrameOps S, FA : !FrameAlloc S} (hh kc : Z) (Hhh : hhdm_ok hh).
Implicit Types (s : vm S).

(** The direct map ends below the kernel's image, which holds the table of caches. *)
Definition top : Z := hh + 70368744177664.
Definition image_ok : Prop := top <= kc /\ kc + 256 <= 18446744073709551616 /\ top + 4096 <= 18446744073709551616.
Hypothesis Hkc : image_ok.

Lemma top_aligned : top mod 4096 = 0.
Proof. destruct Hhh as (_ & ? & _). unfold top. lia. Qed.

(** The list of class [i]: of the full slabs, or of those with free chunks. *)
Abbreviation lists := (nat -> bool -> list Z).
Definition head_of (i : nat) (full : bool) : Z :=
  if full then ca_full (cache_at kc (Z.of_nat i)) else ca_partial (cache_at kc (Z.of_nat i)).

Record links_ok (m : memory) (ls : lists) : Prop := {
  lk_cache i : (i < 8)%nat ->
    load64 m (ca_object_size (cache_at kc (Z.of_nat i))) = osz i /\ load64 m (ca_free (cache_at kc (Z.of_nat i))) = 0;
  lk_list i k : (i < 8)%nat -> dlist m (head_of i k) (ls i k);
  lk_nodup i k : NoDup (ls i k);
  lk_page i k v : v ∈ ls i k -> (i < 8)%nat /\ page top v;
  lk_one i j k k' v : v ∈ ls i k -> v ∈ ls j k' -> i = j /\ k = k';
}.

Definition put_list (i : nat) (k : bool) (l : list Z) (ls : lists) : lists :=
  fun j k' => if decide (j = i /\ k' = k) then l else ls j k'.
Lemma put_list_eq i k l ls : put_list i k l ls i k = l.
Proof. unfold put_list. by rewrite decide_True. Qed.
Lemma put_list_ne i k l ls j k' : ~ (j = i /\ k' = k) -> put_list i k l ls j k' = ls j k'.
Proof. intros Hn. unfold put_list. by rewrite decide_False. Qed.

(** Where the links and the table of caches are. *)
Definition link_byte (b : Z) : Prop := kc <= b \/ (b < top /\ 8 <= b mod 4096 < 24).

Lemma head_of_bounds i k : (i < 8)%nat -> kc + 32 * Z.of_nat i + 8 <= head_of i k <= kc + 32 * Z.of_nat i + 24 /\ head_of i k <= kc + 248.
Proof. unfold head_of, ca_full, ca_partial, cache_at. destruct k; lia. Qed.
Lemma head_of_apart i j k k' : (i < 8)%nat -> (j < 8)%nat -> ~ (j = i /\ k' = k) ->
  head_of i k + 8 <= head_of j k' \/ head_of j k' + 8 <= head_of i k.
Proof.
  intros Hi Hj Hne. unfold head_of, ca_full, ca_partial, cache_at. destruct (decide (i = j)) as [->|]; [|destruct k, k'; lia].
  destruct k, k'; try lia; by destruct Hne.
Qed.

Lemma dlist_ext m m' P head l : changes m m' P -> (forall b, head_bytes head b -> ~ P b) -> (forall b, link_bytes l b -> ~ P b) ->
  dlist m head l -> dlist m' head l.
Proof.
  unfold head_bytes, link_bytes. intros Hch Hh Hl [H1 H2]. split.
  - rewrite <- H1. eapply changes_load64; [exact Hch|]. exact Hh.
  - eapply seg_ext; [|exact H2]. intros v Hv. unfold sl_prev, sl_next.
    split; (eapply changes_load64; [exact Hch|]; intros b Hb; apply Hl; exists v; split; [done|lia]).
Qed.

Lemma links_ok_ext m m' P ls : changes m m' P -> (forall b, kc <= b -> ~ P b) ->
  (forall i k v b, v ∈ ls i k -> v + 8 <= b < v + 24 -> ~ P b) -> links_ok m ls -> links_ok m' ls.
Proof.
  intros Hch HP HP' [H1 H2 H3 H4 H5]. split; try done.
  - intros i Hi. destruct (H1 i Hi) as [<- <-]. unfold ca_object_size, ca_free, cache_at.
    split; (eapply changes_load64; [exact Hch|]; intros b Hb; apply HP; lia).
  - intros i k Hi. pose proof (head_of_bounds i k Hi). eapply dlist_ext; [exact Hch| | |by apply H2].
    + intros b Hb. apply HP. unfold head_bytes in Hb. lia.
    + intros b (v & Hv & Hb). by apply (HP' i k v).
Qed.

Lemma list_link_byte i k l b : (i < 8)%nat -> Forall (page top) l -> link_bytes l b \/ head_bytes (head_of i k) b -> link_byte b.
Proof.
  intros Hi Hl [(v & Hv & Hb)|Hb].
  - right. eapply Forall_forall in Hv; [|exact Hl]. destruct Hv as [? ?]. pose proof top_aligned. lia.
  - left. pose proof (head_of_bounds i k Hi). unfold head_bytes in Hb. lia.
Qed.

(** The lists of the other classes while one list changes. *)
Lemma links_relist m m' ls i k l :
  links_ok m ls -> (i < 8)%nat -> NoDup l -> Forall (page top) l -> dlist m' (head_of i k) l ->
  (forall v j k', v ∈ l -> v ∈ ls j k' -> j = i /\ k' = k) ->
  changes m m' (fun b => link_bytes l b \/ head_bytes (head_of i k) b) ->
  links_ok m' (put_list i k l ls).
Proof.
  intros [H1 H2 H3 H4 H5] Hi Hnd Hpg Hd Hone Hch. destruct Hkc as (Hk1 & Hk2 & _). pose proof top_aligned as Hta.
  pose proof (head_of_bounds i k Hi) as Hhb.
  assert (Hpage : forall v, v ∈ l -> page top v) by (by apply Forall_forall).
  split.
  - intros j Hj. destruct (H1 j Hj) as [<- <-]. unfold ca_object_size, ca_free, cache_at.
    assert (Hh : head_of i k <> kc + 32 * Z.of_nat j /\ (head_of i k + 8 <= kc + 32 * Z.of_nat j \/ kc + 32 * Z.of_nat j + 8 <= head_of i k) /\
      (head_of i k + 8 <= kc + 32 * Z.of_nat j + 16 \/ kc + 32 * Z.of_nat j + 24 <= head_of i k)).
    { unfold head_of, ca_full, ca_partial, cache_at. destruct (decide (i = j)) as [->|]; destruct k; lia. }
    split; (eapply changes_load64; [exact Hch|]; intros b Hb [(v & Hv & Hb')|Hb']; [destruct (Hpage v Hv); lia|unfold head_bytes in Hb'; lia]).
  - intros j k' Hj. destruct (decide (j = i /\ k' = k)) as [[-> ->]|Hne]; [by rewrite put_list_eq|]. rewrite put_list_ne by done.
    pose proof (head_of_bounds j k' Hj). eapply dlist_ext; [exact Hch| | |by apply H2].
    + unfold head_bytes. intros b Hb [(v & Hv & Hb')|Hb']; [destruct (Hpage v Hv); lia|]. pose proof (head_of_apart i j k k' Hi Hj Hne). lia.
    + intros b (u & Hu & Hb) [(v & Hv & Hb')|Hb'].
      * destruct (decide (u = v)) as [->|Huv]; [by apply Hne, (Hone v j k')|]. destruct (H4 j k' u Hu) as [_ Hpu].
        destruct (page_apart2 top u v Hpu (Hpage v Hv) Huv); lia.
      * destruct (H4 j k' u Hu) as [_ [? ?]]. unfold head_bytes in Hb'. lia.
  - intros j k'. destruct (decide (j = i /\ k' = k)) as [[-> ->]|Hne]; [by rewrite put_list_eq|]. by rewrite put_list_ne.
  - intros j k' v. destruct (decide (j = i /\ k' = k)) as [[-> ->]|Hne]; [rewrite put_list_eq; auto|]. rewrite put_list_ne by done. apply H4.
  - intros i1 j1 k1 k1' v. unfold put_list. repeat case_decide.
    + intros _ _. split; [by destruct_and!; subst|by destruct_and!; subst].
    + intros Hv Hv'. destruct (Hone v j1 k1' Hv Hv'). tauto.
    + intros Hv Hv'. destruct (Hone v i1 k1 Hv' Hv). tauto.
    + apply H5.
Qed.

Lemma wp_unlink s ls i k l1 v l2 :
  links_ok (vm_mem s) ls -> ls i k = l1 ++ v :: l2 ->
  wp (list_remove (head_of i k) v) (fun _ s' => exists m', s' = set_mem m' s /\
    links_ok m' (put_list i k (l1 ++ l2) ls) /\ changes (vm_mem s) m' link_byte) s.
Proof.
  intros Hok E. pose proof Hok as [H1 H2 H3 H4 H5]. assert (Hv : v ∈ ls i k) by (rewrite E; apply elem_of_app; right; by left).
  destruct (H4 i k v Hv) as [Hi _]. pose proof (head_of_bounds i k Hi). destruct Hkc as (Hk1 & Hk2 & _).
  assert (Hpg : Forall (page top) (l1 ++ v :: l2)) by (rewrite <- E; apply Forall_forall; intros u Hu; by apply (H4 i k)).
  pose proof (H3 i k) as Hnd. rewrite E in Hnd.
  eapply wp_mono; [apply (wp_list_remove top top_aligned (head_of i k) l1 v l2); [done|done|lia|]; rewrite <- E; by apply H2|].
  intros [] s' (m' & -> & Hd & Hch). exists m'. split; [done|].
  assert (Hsub : forall u, u ∈ l1 ++ l2 -> u ∈ ls i k).
  { intros u Hu. rewrite E. apply elem_of_app. apply elem_of_app in Hu as [?|?]; [by left|right; by right]. }
  split.
  - apply (links_relist (vm_mem s)); try done.
    + apply NoDup_app in Hnd as (? & Hx & [? ?]%NoDup_cons). apply NoDup_app. split; [done|]. split; [|done]. intros u Hu Hu'. apply (Hx u Hu). by right.
    + apply Forall_app in Hpg as [? [_ ?]%Forall_cons]. by apply Forall_app.
    + intros u j k' Hu Hu'. apply (H5 j i k' k u); auto.
  - eapply changes_mono; [exact Hch|]. intros b. apply list_link_byte; [done|]. apply Forall_forall. intros u Hu. by apply (H4 i k), Hsub.
Qed.

Lemma wp_link s ls i k v :
  links_ok (vm_mem s) ls -> (i < 8)%nat -> page top v -> (forall j k', v ∉ ls j k') ->
  wp (list_add (head_of i k) v) (fun _ s' => exists m', s' = set_mem m' s /\
    links_ok m' (put_list i k (v :: ls i k) ls) /\ changes (vm_mem s) m' link_byte) s.
Proof.
  intros Hok Hi Hpv Hv. pose proof Hok as [H1 H2 H3 H4 H5]. pose proof (head_of_bounds i k Hi). destruct Hkc as (Hk1 & Hk2 & _).
  assert (Hpg : Forall (page top) (v :: ls i k)) by (constructor; [done|]; apply Forall_forall; intros u Hu; by apply (H4 i k)).
  assert (Hnd : NoDup (v :: ls i k)) by (constructor; [by apply Hv|done]).
  eapply wp_mono; [apply (wp_list_add top top_aligned (head_of i k) v (ls i k)); [done|done|lia|lia|by apply H2]|].
  intros [] s' (m' & -> & Hd & Hch). exists m'. split; [done|]. split.
  - apply (links_relist (vm_mem s)); try done. intros u j k' [->|Hu]%elem_of_cons Hu'; [by destruct (Hv j k')|]. by apply (H5 j i k' k u).
  - eapply changes_mono; [exact Hch|]. intros b. by apply list_link_byte.
Qed.

(** *** A new slab *)

Definition in_page_of (v b : Z) : Prop := v <= b < v + 4096.

(** The loop of [allocate_new_slab]: the chunks from the [k]-th on are put in
    front of the free list [fl]. *)
Definition carving (o v : Z) (k : Z) (m : memory) (fl : list Z) : Prop :=
  load64 m (sl_free_list v) = hd_or 0 fl /\ load64 m (sl_free_chunks v) = k /\ Z.of_nat (length fl) = k /\
  chain m fl /\ NoDup fl /\ Forall (fun c => is_chunk o v c /\ c < v + 64 + k * o) fl.

Lemma wp_carve o v s0 : 16 <= o <= 2048 -> o mod 16 = 0 -> 0 < v -> v + 8192 <= 18446744073709551616 ->
  forall fuel k fl s, 4032 / o - k < Z.of_nat fuel -> 0 <= k <= 4032 / o -> carving o v k (vm_mem s) fl ->
  s = set_mem (vm_mem s) s0 ->
  wp (carve fuel v o (v + 4096) (v + 64 + k * o)) (fun _ s' => exists fl', carving o v (4032 / o) (vm_mem s') fl' /\
    s' = set_mem (vm_mem s') s0 /\
    changes (vm_mem s) (vm_mem s') (fun b => v + 32 <= b < v + 48 \/ v + 64 <= b < v + 4096)) s.
Proof.
  intros Ho Ho16 Hv Hv'. pose proof (Z.mul_div_le 4032 o ltac:(lia)) as Hmul. pose proof (Z.mul_succ_div_gt 4032 o ltac:(lia)) as Hgt.
  induction fuel as [|fuel IH]; intros k fl s Hf Hk Hc Es; [lia|]. cbn [carve].
  assert (Hko : 0 <= k * o <= o * (4032 / o)) by nia.
  assert (Hadd : u64 (v + 64 + k * o + o) = v + 64 + k * o + o) by (apply u64_small; lia). rewrite Hadd.
  destruct (Z.leb_spec (v + 64 + k * o + o) (v + 4096)) as [Hle|Hnle].
  - assert (Hk' : k + 1 <= 4032 / o) by nia. destruct Hc as (Hfl & Hn & Hlen & Hch & Hnd & Hall).
    set (c := v + 64 + k * o) in *. assert (Hcb : v + 64 <= c /\ c + 8 <= v + 4096) by (unfold c; lia).
    assert (Hwc : word c) by (unfold word; lia).
    assert (Hapart : forall d, d ∈ fl -> v + 64 <= d /\ d + 16 <= c).
    { intros d Hd. eapply Forall_forall in Hd; [|exact Hall]. destruct Hd as [Hd Hlt]. pose proof (chunk_bounds o Ho Ho16 v d Hd) as (? & _ & _).
      split; [done|]. destruct Hd as (j & Hj & ->). unfold c in *. assert (j < k) by nia. nia. }
    assert (Hwf : word (hd_or 0 fl)) by (rewrite <- Hfl; apply load64_range).
    unfold sl_free_list, sl_free_chunks in *.
    wp_step. apply wp_ld. rewrite Hfl. wp_step. apply wp_st. wp_step. apply wp_st. wp_step. apply wp_ld. wp_step. apply wp_st.
    cbn [vm_mem set_mem]. set (m := vm_mem s) in *. set (m1 := store64 m c (hd_or 0 fl)). set (m2 := store64 m1 (v + 32) c).
    assert (E2 : load64 m2 (v + 40) = k). { unfold m2, m1. rewrite !load64_store64_ne by lia. done. }
    rewrite E2, u64_small by lia. set (m3 := store64 m2 (v + 40) (k + 1)).
    replace (c + o) with (v + 64 + (k + 1) * o) by (unfold c; lia).
    eapply wp_mono; [apply (IH (k + 1) (c :: fl))|].
    + lia.
    + lia.
    + cbn [vm_mem set_mem]. unfold carving, sl_free_list, sl_free_chunks. cbn [hd_or length]. split_and!.
      * unfold m3. rewrite load64_store64_ne by lia. exact (load64_store64_eq m1 (v + 32) c Hwc).
      * apply (load64_store64_eq m2 (v + 40) (k + 1)). unfold word. lia.
      * lia.
      * split.
        -- unfold m3, m2. rewrite !load64_store64_ne by lia. exact (load64_store64_eq m c _ Hwf).
        -- eapply slab_chain_ext; [|exact Hch]. intros d Hd. destruct (Hapart d Hd). unfold m3, m2, m1. rewrite !load64_store64_ne by lia. done.
      * constructor; [|done]. intros Hd. destruct (Hapart c Hd). lia.
      * constructor; [split; [exists k; unfold c; lia|unfold c; nia]|]. eapply Forall_impl; [exact Hall|]. intros d [? ?]. split; [done|nia].
    + rewrite Es. done.
    + intros [] s' (fl' & Hc' & Es' & Hch'). exists fl'. split_and!; [done|done|]. eapply changes_trans; [|exact Hch'].
      cbn [vm_mem set_mem]. apply (changes_trans _ m1); [apply changes_store; lia|]. apply (changes_trans _ m2); apply changes_store; lia.
  - assert (k = 4032 / o) as -> by nia. wp_step. exists fl. done.
Qed.

Lemma land_lnot_ones x n : 0 <= n -> Z.land x (Z.lnot (Z.ones n)) = x / 2 ^ n * 2 ^ n.
Proof. intros Hn. rewrite <- Z.ldiff_land, Z.ldiff_ones_r, Z.shiftl_mul_pow2, Z.shiftr_div_pow2 by done. done. Qed.

Lemma valid_page f : valid_frame f -> page top (f + hh).
Proof. destruct Hhh as (? & ? & ?). unfold valid_frame, PAGE_SIZE, page, top. lia. Qed.

Definition same_frames (x x' : S) : Prop := forall q, frames x' q = frames x q.

(** The header of a new slab, and the page cleared around it. *)
Definition new_header (m : memory) (v cache : Z) : memory :=
  store64 (store64 (store64 (store64 (store64 (store32 (memset m v 0 PAGE_SIZE) v SLAB_MAGIC)
    (sl_cache v) cache) (sl_next v) 0) (sl_prev v) 0) (sl_free_list v) 0) (sl_free_chunks v) 0.

Lemma new_header_spec m v cache : word cache ->
  changes m (new_header m v cache) (in_page_of v) /\ load32 (new_header m v cache) v = SLAB_MAGIC /\
  load64 (new_header m v cache) (v + 24) = cache /\ load64 (new_header m v cache) (v + 32) = 0 /\ load64 (new_header m v cache) (v + 40) = 0.
Proof.
  intros Hc. unfold new_header, sl_cache, sl_next, sl_prev, sl_free_list, sl_free_chunks. split.
  - unfold in_page_of. do 5 (eapply changes_trans; [|apply changes_store; lia]). eapply changes_trans; [|apply changes_store32; lia].
    intros b Hb. rewrite memset_spec by (unfold PAGE_SIZE; lia). unfold PAGE_SIZE. case_bools; try done.
  - assert (word 0) by (unfold word; lia). split; [|split; [|split]].
    + rewrite !load32_store64_ne by lia. by apply load32_store32_eq.
    + rewrite !(load64_store64_ne _ _ (v + 24)) by lia. by apply load64_store64_eq.
    + rewrite (load64_store64_ne _ _ (v + 32)) by lia. by apply load64_store64_eq.
    + by apply load64_store64_eq.
Qed.

(** A slab whose chunks are all on the free list. *)
Lemma carved_slab o cache v m fl : 16 <= o <= 2048 -> o mod 16 = 0 -> load32 m v = SLAB_MAGIC -> load64 m (v + 24) = cache ->
  carving o v (4032 / o) m fl -> slab_ok (store64 m (v + 48) (4032 / o)) o cache v fl /\ fl <> [] /\ Z.of_nat (length fl) = 4032 / o.
Proof.
  intros Hr H16 Hm Hc (Hfl & Hn & Hlen & Hchn & Hnd & Hall). unfold sl_free_list, sl_free_chunks in *.
  assert (Hpos : 1 <= 4032 / o) by (apply Z.div_le_lower_bound; lia).
  assert (Hb : 4032 / o <= 4032) by (apply Z.div_le_upper_bound; lia).
  split; [|split; [intros ->; cbn in Hlen; lia|done]].
  split; unfold sl_cache, sl_free_list, sl_free_chunks, sl_total_chunks; try rewrite load64_store64_ne by lia; try assumption.
  - by rewrite load32_store64_ne by lia.
  - lia.
  - apply (load64_store64_eq m (v + 48)). unfold word. lia.
  - eapply Forall_impl; [exact Hall|]. by intros c [? _].
  - eapply slab_chain_ext; [|exact Hchn]. intros c Hcc. eapply Forall_forall in Hcc; [|exact Hall]. destruct Hcc as [Hcc _].
    apply (chunk_bounds o Hr H16) in Hcc as (? & _ & _). by rewrite load64_store64_ne by lia.
Qed.

Lemma wp_allocate_new_slab s i : (i < 8)%nat -> fa_wf (vm_pa s) ->
  load64 (vm_mem s) (ca_object_size (cache_at kc (Z.of_nat i))) = osz i ->
  wp (allocate_new_slab hh (cache_at kc (Z.of_nat i))) (fun v s' => fa_wf (vm_pa s') /\
    ((v = 0 /\ (forall q, frames (vm_pa s) q <> None) /\ same_frames (vm_pa s) (vm_pa s') /\ vm_mem s' = vm_mem s) \/
     (valid_frame (v - hh) /\ page top v /\ frames (vm_pa s) (v - hh) = None /\ frames (vm_pa s') (v - hh) = Some 1 /\
      (forall q, q <> v - hh -> frames (vm_pa s') q = frames (vm_pa s) q) /\ changes (vm_mem s) (vm_mem s') (in_page_of v) /\
      exists fl, slab_ok (vm_mem s') (osz i) (cache_at kc (Z.of_nat i)) v fl /\ fl <> [] /\ Z.of_nat (length fl) = 4032 / osz i))) s.
Proof.
  intros Hi Hwf Ho. destruct (osz_facts i Hi) as (Hr & H16 & _). destruct Hkc as (Hk1 & Hk2 & Hk3).
  unfold allocate_new_slab. wp_step. apply wp_pa. eapply wp_mono; [by apply fa_alloc_spec|].
  intros f x [Hx [(-> & Hfull & Hsame)|(Hvf & Hfree & Hone & Hoth)]].
  { change (0 =? 0) with true. cbv beta iota. apply wp_ret. split; [done|]. left. done. }
  destruct (Z.eqb_spec f 0) as [->|_]; [unfold valid_frame in Hvf; lia|]. rewrite (valid_frame_p2v hh Hhh) by done.
  pose proof (valid_page f Hvf) as Hpg. assert (Ef : f + hh - hh = f) by lia. set (v := f + hh) in *. clearbody v.
  pose proof Hpg as [Hal [Hv0 Hvt]]. pose proof top_aligned as Hta. assert (Hve : v + 4096 <= top) by lia.
  unfold mem_memset. wp_step. wp_step. wp_step. wp_step. do 5 (wp_step; apply wp_st). cbn [vm_mem set_mem vm_pa kernel_pml4].
  replace (Z.land (u64 (v + SLAB_SIZE + 15)) (Z.lnot 15)) with (v + 64 + 0 * osz i)
    by (rewrite u64_small by (unfold SLAB_SIZE; lia); change 15 with (Z.ones 4) at 2; rewrite land_lnot_ones by lia; unfold SLAB_SIZE; lia).
  replace (u64 (v + PAGE_SIZE)) with (v + 4096) by (rewrite u64_small; unfold PAGE_SIZE; lia).
  fold (new_header (vm_mem s) v (cache_at kc (Z.of_nat i))). set (m := new_header _ _ _).
  destruct (new_header_spec (vm_mem s) v (cache_at kc (Z.of_nat i))) as (Hch & Hmag & Hca & Hf & Hn); [unfold word, cache_at; lia|]. fold m in Hch, Hmag, Hca, Hf, Hn.
  clearbody m. assert (Ho6 : load64 m (ca_object_size (cache_at kc (Z.of_nat i))) = osz i).
  { rewrite <- Ho. eapply changes_load64; [exact Hch|]. unfold in_page_of, ca_object_size, cache_at. clear - Hve Hk1. lia. }
  wp_step. apply wp_ld. cbn [vm_mem set_mem]. rewrite Ho6. wp_step.
  assert (Hdiv : 0 <= 4032 / osz i <= 252) by (split; [apply Z.div_pos; lia|apply Z.div_le_upper_bound; lia]).
  eapply wp_mono; [eapply (wp_carve (osz i) v (mkVm m x (kernel_pml4 s)) Hr H16 ltac:(lia) ltac:(lia) 256 0 []); [lia|lia| |reflexivity]|].
  { cbn [vm_mem set_mem]. split_and!; [exact Hf|exact Hn|done|exact I|constructor|constructor]. }
  intros [] s' (fl & Hcv & Es & Hch'). pose proof Hcv as (_ & Hn' & _). wp_step. apply wp_ld. wp_step. apply wp_st. wp_step.
  cbn [vm_mem set_mem vm_pa] in *. rewrite Hn'. assert (Epa : vm_pa s' = x) by (by rewrite Es). rewrite Epa, Ef. split; [done|]. right.
  split_and!; try assumption.
  - apply (changes_trans _ m); [done|]. unfold in_page_of, sl_total_chunks. apply (changes_trans _ (vm_mem s')); [|apply changes_store; lia].
    eapply changes_mono; [exact Hch'|]. clear. cbv beta. intros b Hb. lia.
  - exists fl. apply carved_slab; try done.
    + rewrite (changes_load32 _ _ _ _ Hch'); [done|]. clear. intros b Hb. lia.
    + rewrite (changes_load64 _ _ _ _ Hch'); [done|]. clear. intros b Hb. lia.
Qed.

(** *** The invariant *)

Definition slab_in (ls : lists) (i : nat) (v : Z) : Prop := exists k, v ∈ ls i k.

(** [fr v]: the free chunks of slab [v]; [live]: the blocks in use, with the size
    of their class. *)
Record heap_pre s (ls : lists) (fr : Z -> list Z) (live : gmap Z Z) : Prop := {
  hp_wf : fa_wf (vm_pa s);
  hp_links : links_ok (vm_mem s) ls;
  hp_slab i v : slab_in ls i v -> slab_ok (vm_mem s) (osz i) (cache_at kc (Z.of_nat i)) v (fr v);
  hp_frame i v : slab_in ls i v -> valid_frame (v - hh) /\ frames (vm_pa s) (v - hh) = Some 1;
  hp_live p n : live !! p = Some n <-> exists i v, slab_in ls i v /\ n = osz i /\ is_chunk (osz i) v p /\ (p ∉ fr v);
}.
Definition kinds (ls : lists) (fr : Z -> list Z) : Prop := forall i k v, v ∈ ls i k -> if k : bool then fr v = [] else fr v <> [].
Definition heap_inv s ls fr live : Prop := heap_pre s ls fr live /\ kinds ls fr.

(** The contents of the blocks in use stay. *)
Definition keeps (live : gmap Z Z) (m m' : memory) : Prop := forall b, live_byte live b -> load8 m' b = load8 m b.

Section inv.
Context (s : vm S) (ls : lists) (fr : Z -> list Z) (live : gmap Z Z) (Hp : heap_pre s ls fr live).

Lemma slab_in_page i v : slab_in ls i v -> (i < 8)%nat /\ page top v /\ v + 4096 <= top.
Proof.
  intros [k Hv]. destruct (lk_page _ _ (hp_links _ _ _ _ Hp) i k v Hv) as [? Hpg]. split_and!; [done|done|].
  pose proof top_aligned. unfold page in Hpg. lia.
Qed.
Lemma slab_in_one i j v : slab_in ls i v -> slab_in ls j v -> i = j.
Proof. intros [k Hv] [k' Hv']. by destruct (lk_one _ _ (hp_links _ _ _ _ Hp) i j k k' v Hv Hv'). Qed.
Lemma slab_in_apart i j u v : slab_in ls i u -> slab_in ls j v -> u <> v -> u + 4096 <= v \/ v + 4096 <= u.
Proof. intros (_ & Hu & _)%slab_in_page (_ & Hv & _)%slab_in_page. by apply (page_apart2 top). Qed.

Lemma slab_bytes_in i v b : slab_in ls i v -> slab_bytes v (fr v) b -> v <= b < v + 4096 /\ ~ (8 <= b - v < 24).
Proof.
  intros Hv Hb. destruct (slab_in_page i v Hv) as (Hi & _ & _). destruct (osz_facts i Hi) as (Hr & H16 & _).
  pose proof (so_chunks _ _ _ _ _ (hp_slab _ _ _ _ Hp i v Hv)) as Hc. destruct Hb as [?|[?|(c & Hin & ?)]]; [lia|lia|].
  eapply Forall_forall in Hin; [|exact Hc]. apply (chunk_bounds _ Hr H16) in Hin. lia.
Qed.
Lemma slab_bytes_no_link i v b : slab_in ls i v -> slab_bytes v (fr v) b -> ~ link_byte b.
Proof.
  intros Hv Hb. destruct (slab_bytes_in i v b Hv Hb) as [? ?]. destruct (slab_in_page i v Hv) as (_ & [? ?] & ?).
  destruct Hkc as (? & _). unfold link_byte. lia.
Qed.

(** A block in use lies in a slab, behind the header. *)
Lemma live_block p n : live !! p = Some n -> exists i v, slab_in ls i v /\ n = osz i /\ is_chunk (osz i) v p /\ (p ∉ fr v) /\
  16 <= n <= 2048 /\ v + 64 <= p /\ p + n <= v + 4096 /\ p mod 16 = 0.
Proof.
  intros (i & v & Hv & -> & Hc & Hf)%(hp_live _ _ _ _ Hp). exists i, v. destruct (slab_in_page i v Hv) as (Hi & [? ?] & _).
  destruct (osz_facts i Hi) as (Hr & H16 & _). destruct (chunk_bounds _ Hr H16 v p Hc) as (? & ? & ?). split_and!; try done; lia.
Qed.
Lemma live_byte_no_link b : live_byte live b -> ~ link_byte b.
Proof.
  intros (p & n & Hl & Hb). destruct (live_block p n Hl) as (i & v & Hv & _ & _ & _ & _ & ? & ? & _).
  destruct (slab_in_page i v Hv) as (_ & [? ?] & ?). destruct Hkc as (? & _). unfold link_byte. lia.
Qed.
(** Blocks in use do not overlap. *)
Lemma live_apart p n q k : live !! p = Some n -> live !! q = Some k -> p <> q -> p + n <= q \/ q + k <= p.
Proof.
  intros Hp1 Hq1 Hne. destruct (live_block p n Hp1) as (i & v & Hv & -> & Hc & _ & ? & ? & ? & _).
  destruct (live_block q k Hq1) as (j & u & Hu & -> & Hd & _ & ? & ? & ? & _).
  destruct (decide (u = v)) as [->|Hne']; [|destruct (slab_in_apart j i u v Hu Hv Hne'); lia].
  rewrite (slab_in_one j i v Hu Hv) in *. destruct (slab_in_page i v Hv) as (Hi & _). destruct (osz_facts i Hi) as (Hr & H16 & _).
  by apply (chunk_apart _ Hr H16 v).
Qed.

(** New links. *)
Lemma pre_links m' ls' : links_ok m' ls' -> (forall i v, slab_in ls' i v <-> slab_in ls i v) -> changes (vm_mem s) m' link_byte ->
  heap_pre (set_mem m' s) ls' fr live /\ keeps live (vm_mem s) m'.
Proof.
  intros Hl Heq Hch. split; [split|].
  - apply (hp_wf _ _ _ _ Hp).
  - done.
  - intros i v Hv%Heq. eapply slab_ok_ext; [exact Hch| |by apply (hp_slab _ _ _ _ Hp)]. intros b. by apply (slab_bytes_no_link i).
  - intros i v Hv%Heq. by apply (hp_frame _ _ _ _ Hp i).
  - intros p n. rewrite (hp_live _ _ _ _ Hp). split; intros (i & v & Hv & ?); exists i, v; (split; [by apply Heq|done]).
  - intros b Hb. apply Hch. by apply live_byte_no_link.
Qed.
End inv.

(** Moving a slab to the other list of its class. *)
Lemma wp_relist s ls fr live i k l1 v l2 : heap_pre s ls fr live -> ls i k = l1 ++ v :: l2 ->
  wp (list_remove (head_of i k) v ;; list_add (head_of i (negb k)) v) (fun _ s' => exists m' ls', s' = set_mem m' s /\
    heap_pre s' ls' fr live /\ keeps live (vm_mem s) m' /\ ls' i k = l1 ++ l2 /\ ls' i (negb k) = v :: ls i (negb k) /\
    forall j k', j <> i -> ls' j k' = ls j k') s.
Proof.
  intros Hp E. assert (Hv : v ∈ ls i k) by (rewrite E; apply elem_of_app; right; by left).
  destruct (lk_page _ _ (hp_links _ _ _ _ Hp) i k v Hv) as [Hi Hpg]. pose proof (lk_one _ _ (hp_links _ _ _ _ Hp)) as Hone.
  pose proof (lk_nodup _ _ (hp_links _ _ _ _ Hp) i k) as Hnd. rewrite E in Hnd.
  wp_step. eapply wp_mono; [eapply wp_unlink; [apply (hp_links _ _ _ _ Hp)|exact E]|]. intros [] s1 (m1 & -> & Hl1 & Hch1).
  set (ls1 := put_list i k (l1 ++ l2) ls) in *.
  assert (E1 : ls1 i (negb k) = ls i (negb k)) by (apply put_list_ne; destruct k; intros [_ ?]; done).
  assert (Hout : forall j k', v ∉ ls1 j k').
  { intros j k' Hin. destruct (decide (j = i /\ k' = k)) as [[-> ->]|Hne].
    - unfold ls1 in Hin. rewrite put_list_eq in Hin. apply NoDup_app in Hnd as (_ & Hx & [Hy _]%NoDup_cons).
      apply elem_of_app in Hin as [Hin|Hin]; [apply (Hx v Hin); by left|done].
    - unfold ls1 in Hin. rewrite put_list_ne in Hin by done. by apply Hne, (Hone j i k' k v). }
  eapply wp_mono; [apply (wp_link (set_mem m1 s) ls1 i (negb k) v Hl1 Hi Hpg Hout)|]. intros [] s2 (m2 & -> & Hl2 & Hch2).
  rewrite E1 in Hl2. cbn [vm_mem set_mem] in Hch2. exists m2, (put_list i (negb k) (v :: ls i (negb k)) ls1).
  destruct (pre_links s ls fr live Hp m2 (put_list i (negb k) (v :: ls i (negb k)) ls1)) as [Hp2 Hk2].
  - done.
  - intros j u. unfold slab_in, ls1. split; intros [k' Hu].
    + destruct (decide (j = i)) as [->|Hj]; [|rewrite !put_list_ne in Hu by (by intros [? _]); by exists k'].
      destruct (decide (k' = k)) as [->|Hk].
      * rewrite put_list_ne in Hu by (destruct k; intros [_ ?]; done). rewrite put_list_eq in Hu. exists k. rewrite E.
        apply elem_of_app. apply elem_of_app in Hu as [?|?]; [by left|right; by right].
      * assert (k' = negb k) as -> by (by destruct k, k'). rewrite put_list_eq in Hu. apply elem_of_cons in Hu as [->|Hu]; eauto.
    + destruct (decide (j = i)) as [->|Hj]; [|exists k'; rewrite !put_list_ne by (by intros [? _]); done].
      destruct (decide (u = v)) as [->|Huv]; [exists (negb k); rewrite put_list_eq; by left|]. exists k'. destruct (decide (k' = k)) as [->|Hk].
      * rewrite put_list_ne by (destruct k; intros [_ ?]; done). rewrite put_list_eq. rewrite E in Hu.
        apply elem_of_app in Hu as [?|[?|?]%elem_of_cons]; apply elem_of_app; [by left|done|by right].
      * assert (k' = negb k) as -> by (by destruct k, k'). rewrite put_list_eq. by right.
  - by eapply changes_trans.
  - split_and!; try done.
    + rewrite put_list_ne by (destruct k; intros [_ ?]; done). apply put_list_eq.
    + apply put_list_eq.
    + intros j k' Hj. unfold ls1. by rewrite !put_list_ne by (by intros [? _]).
Qed.

(** Which slab a chunk belongs to. *)
Lemma chunk_slab s ls fr live i j u v p : heap_pre s ls fr live -> slab_in ls i v -> slab_in ls j u ->
  is_chunk (osz i) v p -> is_chunk (osz j) u p -> u = v /\ j = i.
Proof.
  intros Hp Hv Hu Hc Hd. destruct (slab_in_page _ _ _ _ Hp i v Hv) as (Hi & _). destruct (slab_in_page _ _ _ _ Hp j u Hu) as (Hj & _).
  destruct (osz_facts i Hi) as (Hr & H16 & _). destruct (osz_facts j Hj) as (Hr' & H16' & _).
  apply (chunk_bounds _ Hr H16) in Hc as (? & ? & _). apply (chunk_bounds _ Hr' H16') in Hd as (? & ? & _).
  destruct (decide (u = v)) as [->|Hne]; [split; [done|by apply (slab_in_one _ _ _ _ Hp j i v)]|].
  destruct (slab_in_apart _ _ _ _ Hp j i u v Hu Hv Hne); lia.
Qed.

Definition upd (fr : Z -> list Z) (v : Z) (fl : list Z) : Z -> list Z := fun u => if decide (u = v) then fl else fr u.
Lemma upd_eq fr v fl : upd fr v fl v = fl.
Proof. unfold upd. by rewrite decide_True. Qed.
Lemma upd_ne fr v fl u : u <> v -> upd fr v fl u = fr u.
Proof. intros. unfold upd. by rewrite decide_False. Qed.

(** A change inside one slab, outside its links. *)
Definition slab_data (v b : Z) : Prop := in_page_of v b /\ ~ (8 <= b - v < 24).
Lemma pre_data s ls fr live i v m' fl' live' :
  heap_pre s ls fr live -> slab_in ls i v -> slab_ok m' (osz i) (cache_at kc (Z.of_nat i)) v fl' -> changes (vm_mem s) m' (slab_data v) ->
  (forall p n, live' !! p = Some n <-> exists j u, slab_in ls j u /\ n = osz j /\ is_chunk (osz j) u p /\ (p ∉ upd fr v fl' u)) ->
  heap_pre (set_mem m' s) ls (upd fr v fl') live'.
Proof.
  intros Hp Hv Hok Hch Hl. unfold slab_data, in_page_of in Hch. destruct (slab_in_page _ _ _ _ Hp i v Hv) as (_ & [? ?] & Hvt).
  destruct Hkc as (Hk & _). split; try done.
  - apply (hp_wf _ _ _ _ Hp).
  - eapply links_ok_ext; [exact Hch| | |apply (hp_links _ _ _ _ Hp)].
    + cbv beta. intros b Hb. lia.
    + cbv beta. intros j k u b Hu Hb. destruct (decide (u = v)) as [->|Hne]; [lia|].
      destruct (slab_in_apart _ _ _ _ Hp j i u v (ex_intro _ k Hu) Hv Hne); lia.
  - intros j u Hu. destruct (decide (u = v)) as [->|Hne].
    + rewrite upd_eq. by rewrite (slab_in_one _ _ _ _ Hp j i v Hu Hv).
    + rewrite upd_ne by done. eapply slab_ok_ext; [exact Hch| |by apply (hp_slab _ _ _ _ Hp)].
      cbv beta. intros b Hb%(slab_bytes_in _ _ _ _ Hp j u b Hu). destruct (slab_in_apart _ _ _ _ Hp j i u v Hu Hv Hne); lia.
  - apply (hp_frame _ _ _ _ Hp).
Qed.

(** A page nobody else uses may change. *)
Lemma pre_page s ls fr live v x m' : heap_pre s ls fr live -> page top v -> (forall i, ~ slab_in ls i v) ->
  fa_wf x -> (forall q, q <> v - hh -> frames x q = frames (vm_pa s) q) -> changes (vm_mem s) m' (in_page_of v) ->
  heap_pre (mkVm m' x (kernel_pml4 s)) ls fr live /\ keeps live (vm_mem s) m'.
Proof.
  intros Hp Hpg Hout Hx Hfr Hch. pose proof top_aligned. pose proof Hpg as [? ?]. destruct Hkc as (Hk & _).
  assert (Hapart : forall i u, slab_in ls i u -> u <> v /\ (u + 4096 <= v \/ v + 4096 <= u)).
  { intros i u Hu. assert (u <> v) by (intros ->; by apply (Hout i)). split; [done|].
    destruct (slab_in_page _ _ _ _ Hp i u Hu) as (_ & Hpu & _). by apply (page_apart2 top). }
  unfold in_page_of in Hch. split; [split|].
  - done.
  - eapply links_ok_ext; [exact Hch| | |apply (hp_links _ _ _ _ Hp)]; [cbv beta; intros b Hb; lia|].
    cbv beta. intros j k u b Hu Hb. destruct (Hapart j u (ex_intro _ k Hu)). lia.
  - intros i u Hu. eapply slab_ok_ext; [exact Hch| |by apply (hp_slab _ _ _ _ Hp)].
    cbv beta. intros b Hb%(slab_bytes_in _ _ _ _ Hp i u b Hu). destruct (Hapart i u Hu). lia.
  - intros i u Hu. destruct (hp_frame _ _ _ _ Hp i u Hu) as [Hf E]. split; [done|]. cbn [vm_pa]. rewrite Hfr; [done|].
    destruct (Hapart i u Hu). lia.
  - apply (hp_live _ _ _ _ Hp).
  - intros b (p & n & Hl & Hb). apply Hch. destruct (live_block _ _ _ _ Hp p n Hl) as (i & u & Hu & _ & _ & _ & _ & ? & ? & _).
    destruct (Hapart i u Hu). lia.
Qed.

(** *** [kmalloc] *)

Lemma partial_head s ls fr live i : heap_pre s ls fr live -> (i < 8)%nat ->
  load64 (vm_mem s) (ca_partial (cache_at kc (Z.of_nat i))) = hd_or 0 (ls i false).
Proof. intros Hp Hi. by destruct (lk_list _ _ (hp_links _ _ _ _ Hp) i false Hi) as [E _]. Qed.

(** A slab of free chunks joins the lists. *)
Lemma pre_add_slab s ls fr live i v fl m' :
  heap_inv s ls fr live -> (i < 8)%nat -> page top v -> valid_frame (v - hh) -> frames (vm_pa s) (v - hh) = Some 1 ->
  (forall j, ~ slab_in ls j v) -> slab_ok (vm_mem s) (osz i) (cache_at kc (Z.of_nat i)) v fl -> fl <> [] ->
  Z.of_nat (length fl) = 4032 / osz i -> links_ok m' (put_list i false (v :: ls i false) ls) -> changes (vm_mem s) m' link_byte ->
  heap_inv (set_mem m' s) (put_list i false (v :: ls i false) ls) (upd fr v fl) live.
Proof.
  intros [Hp Hkd] Hi [Hal Hpos] Hvf Hfr Hout Hok Hne Hlen Hl Hch. set (ls' := put_list i false (v :: ls i false) ls) in *.
  destruct (osz_facts i Hi) as (Hr & H16 & _). pose proof (so_chunks _ _ _ _ _ Hok) as Hc. pose proof top_aligned as Hta. pose proof Hkc as (Hk & _).
  assert (Hin : forall j u, slab_in ls' j u <-> (j = i /\ u = v) \/ slab_in ls j u).
  { intros j u. unfold slab_in, ls'. split.
    - intros [k' Hu]. destruct (decide (j = i /\ k' = false)) as [[-> ->]|Hn]; [|rewrite put_list_ne in Hu by done; eauto].
      rewrite put_list_eq in Hu. apply elem_of_cons in Hu as [->|Hu]; eauto.
    - intros [[-> ->]|[k' Hu]]; [exists false; rewrite put_list_eq; by left|]. exists k'.
      destruct (decide (j = i /\ k' = false)) as [[-> ->]|Hn]; [rewrite put_list_eq; by right|by rewrite put_list_ne]. }
  assert (Hupd : forall j u, slab_in ls j u -> upd fr v fl u = fr u) by (intros j u Hu; apply upd_ne; intros ->; by apply (Hout j)).
  split; [split|].
  - apply (hp_wf _ _ _ _ Hp).
  - done.
  - intros j u [[-> ->]|Hu]%Hin.
    + rewrite upd_eq. eapply slab_ok_ext; [exact Hch| |exact Hok]. unfold link_byte. intros b [?|[?|(c & Hcin & ?)]]; [lia|lia|].
      eapply Forall_forall in Hcin; [|exact Hc]. apply (chunk_bounds _ Hr H16) in Hcin. lia.
    + rewrite (Hupd j u Hu). eapply slab_ok_ext; [exact Hch| |exact (hp_slab _ _ _ _ Hp j u Hu)]. intros b. by apply (slab_bytes_no_link _ _ _ _ Hp j).
  - intros j u [[-> ->]|Hu]%Hin; [done|]. by apply (hp_frame _ _ _ _ Hp j u).
  - intros p n. rewrite (hp_live _ _ _ _ Hp). split; intros (j & u & Hu & En & Hcu & Hf).
    + exists j, u. rewrite (Hupd j u Hu). split_and!; try done. apply Hin. by right.
    + apply Hin in Hu as [[-> ->]|Hu]; [|exists j, u; by rewrite (Hupd j u Hu) in Hf].
      destruct Hf. rewrite upd_eq. by apply (chunks_full (osz i) v fl p Hr H16 (so_nodup _ _ _ _ _ Hok)).
  - intros j k' u Hu. unfold ls' in Hu. destruct (decide (u = v)) as [->|Huv].
    + rewrite upd_eq. destruct (decide (j = i /\ k' = false)) as [[-> ->]|Hn]; [done|]. rewrite put_list_ne in Hu by done.
      destruct (Hout j). by exists k'.
    + rewrite upd_ne by done. apply (Hkd j k'). destruct (decide (j = i /\ k' = false)) as [[-> ->]|Hn]; [|by rewrite put_list_ne in Hu].
      rewrite put_list_eq in Hu. by apply elem_of_cons in Hu as [?|?].
Qed.

Lemma wp_target_slab s ls fr live i : heap_inv s ls fr live -> (i < 8)%nat ->
  wp (target_slab hh (cache_at kc (Z.of_nat i))) (fun v s' => exists ls' fr', heap_inv s' ls' fr' live /\
    keeps live (vm_mem s) (vm_mem s') /\
    ((v = 0 /\ forall q, frames (vm_pa s) q <> None) \/ exists l, ls' i false = v :: l)) s.
Proof.
  intros Hinv Hi. pose proof Hinv as [Hp _]. unfold target_slab. wp_step. apply wp_ld. rewrite (partial_head s ls fr live i Hp Hi).
  destruct (ls i false) as [|v l] eqn:Els; cbn [hd_or].
  2: { assert (Hv : slab_in ls i v) by (exists false; rewrite Els; by left). destruct (slab_in_page _ _ _ _ Hp i v Hv) as (_ & [? ?] & _).
    destruct (Z.eqb_spec v 0); [lia|]. cbn [negb]. wp_step. exists ls, fr. split_and!; [done|done|]. right. by exists l. }
  change (0 =? 0) with true. cbn [negb]. destruct (lk_cache _ _ (hp_links _ _ _ _ Hp) i Hi) as [Hosz Hfree0].
  wp_step. apply wp_ld. rewrite Hfree0. change (0 =? 0) with true. cbn [negb]. wp_step.
  eapply wp_mono; [apply (wp_allocate_new_slab s i Hi (hp_wf _ _ _ _ Hp) Hosz)|].
  intros v s1 [Hwf1 [(-> & Hfull & Hsame & Em)|(Hvf & Hpg & Hfree & Hone & Hoth & Hch & fl & Hok & Hne & Hlen)]].
  { change (0 =? 0) with true. cbv iota. wp_step. exists ls, fr. rewrite Em. split; [|split; [done|by left]]. split; [|by apply Hinv].
    destruct Hp as [? ? ? ? ?]. split; rewrite ?Em; try done. intros j u Hu. rewrite Hsame. eauto. }
  destruct (Z.eqb_spec v 0) as [->|_]; [destruct Hpg; lia|].
  assert (Hout : forall j, ~ slab_in ls j v). { intros j Hj. destruct (hp_frame _ _ _ _ Hp j v Hj) as [_ E]. congruence. }
  destruct (pre_page s ls fr live v (vm_pa s1) (vm_mem s1) Hp Hpg Hout Hwf1 Hoth Hch) as [Hp1 Hk1].
  assert (Hp1' : heap_pre s1 ls fr live) by (destruct Hp1; by split).
  wp_step. eapply wp_mono; [apply (wp_link s1 ls i false v); [exact (hp_links _ _ _ _ Hp1)|done|done|]|].
  { intros j k' Hj. apply (Hout j). by exists k'. }
  intros [] s2 (m2 & -> & Hl2 & Hch2). wp_step. exists (put_list i false (v :: ls i false) ls), (upd fr v fl). split_and!.
  - apply pre_add_slab; try done. split; [done|apply Hinv].
  - intros b Hb. cbn [vm_mem set_mem]. rewrite Hch2; [by apply Hk1|]. by apply (live_byte_no_link _ _ _ _ Hp1).
  - right. exists []. by rewrite put_list_eq, Els.
Qed.

(** Taking the first free chunk, and giving one back. *)
Lemma slab_pop m o cache v c fl : 16 <= o <= 2048 -> o mod 16 = 0 -> slab_ok m o cache v (c :: fl) ->
  slab_ok (store64 (store64 m (v + 32) (hd_or 0 fl)) (v + 40) (Z.of_nat (length fl))) o cache v fl.
Proof.
  intros Hr H16 [H1 H2 H3 H4 H5 H6 H7 H8]. apply NoDup_cons in H6 as [_ H6]. apply Forall_cons in H7 as [_ H7].
  cbn [chain] in H8. destruct H8 as [Hn H8]. unfold sl_cache, sl_free_list, sl_free_chunks, sl_total_chunks in *. cbn [length] in H4.
  assert (Hw : word (hd_or 0 fl)) by (rewrite <- Hn; apply load64_range).
  assert (Hw' : word (Z.of_nat (length fl))) by (pose proof (load64_range m (v + 40)); unfold word; lia).
  split; unfold sl_cache, sl_free_list, sl_free_chunks, sl_total_chunks; try assumption; try by rewrite !load64_store64_ne by lia.
  - by rewrite !load32_store64_ne by lia.
  - rewrite load64_store64_ne by lia. by apply load64_store64_eq.
  - by apply load64_store64_eq.
  - eapply slab_chain_ext; [|exact H8]. intros d Hd. eapply Forall_forall in Hd; [|exact H7]. apply (chunk_bounds _ Hr H16) in Hd. by rewrite !load64_store64_ne by lia.
Qed.
Lemma slab_push m o cache v p fl : 16 <= o <= 2048 -> o mod 16 = 0 -> 0 < v -> v + 4096 <= 18446744073709551616 ->
  slab_ok m o cache v fl -> is_chunk o v p -> p ∉ fl ->
  slab_ok (store64 (store64 (store64 m p (hd_or 0 fl)) (v + 32) p) (v + 40) (Z.of_nat (length fl) + 1)) o cache v (p :: fl).
Proof.
  intros Hr H16 Hv Hv' [H1 H2 H3 H4 H5 H6 H7 H8] Hp Hnp. unfold sl_cache, sl_free_list, sl_free_chunks, sl_total_chunks in *.
  pose proof (chunk_bounds _ Hr H16 v p Hp) as (? & ? & _). assert (Hwp : word p) by (unfold word; lia).
  assert (Hw : word (hd_or 0 fl)) by (rewrite <- H3; apply load64_range).
  assert (Hw' : word (Z.of_nat (length fl) + 1)).
  { pose proof (chunks_count o Hr H16 v fl H6 H7). assert (4032 / o <= 4032) by (apply Z.div_le_upper_bound; lia). unfold word. lia. }
  split; unfold sl_cache, sl_free_list, sl_free_chunks, sl_total_chunks; try by rewrite !load64_store64_ne by lia.
  - by rewrite !load32_store64_ne by lia.
  - rewrite load64_store64_ne by lia. by apply load64_store64_eq.
  - cbn [length]. rewrite Nat2Z.inj_succ, <- Z.add_1_r. by apply load64_store64_eq.
  - by constructor.
  - by constructor.
  - split; [rewrite !load64_store64_ne by lia; by apply load64_store64_eq|]. eapply slab_chain_ext; [|exact H8]. intros d Hd.
    assert (d <> p) by (by intros ->). eapply Forall_forall in Hd; [|exact H7]. pose proof (chunk_bounds _ Hr H16 v d Hd).
    destruct (chunk_apart _ Hr H16 v d p Hd Hp); [done| |]; by rewrite !load64_store64_ne by lia.
Qed.

Lemma live_take s ls fr live i v c fl : heap_pre s ls fr live -> slab_in ls i v -> fr v = c :: fl ->
  live !! c = None /\ forall p n, <[c := osz i]> live !! p = Some n <->
    exists j u, slab_in ls j u /\ n = osz j /\ is_chunk (osz j) u p /\ (p ∉ upd fr v fl u).
Proof.
  intros Hp Hv Hfr. pose proof (hp_slab _ _ _ _ Hp i v Hv) as Hok. rewrite Hfr in Hok. pose proof (so_nodup _ _ _ _ _ Hok) as [Hc Hnd]%NoDup_cons.
  pose proof (so_chunks _ _ _ _ _ Hok) as [Hch _]%Forall_cons. split.
  - destruct (live !! c) as [n|] eqn:E; [|done]. apply (hp_live _ _ _ _ Hp) in E as (j & u & Hu & _ & Hcu & Hf).
    destruct (chunk_slab _ _ _ _ i j u v c Hp Hv Hu Hch Hcu) as [-> ->]. destruct Hf. rewrite Hfr. by left.
  - intros p n. destruct (decide (p = c)) as [->|Hne].
    + rewrite lookup_insert_eq. split.
      * intros [= <-]. exists i, v. by rewrite upd_eq.
      * intros (j & u & Hu & -> & Hcu & _). by destruct (chunk_slab _ _ _ _ i j u v c Hp Hv Hu Hch Hcu) as [-> ->].
    + rewrite lookup_insert_ne by done. rewrite (hp_live _ _ _ _ Hp). split; intros (j & u & Hu & En & Hcu & Hf); exists j, u; split_and!; try done.
      * destruct (decide (u = v)) as [->|]; [|by rewrite upd_ne]. rewrite upd_eq. rewrite Hfr in Hf. by apply not_elem_of_cons in Hf as [_ ?].
      * destruct (decide (u = v)) as [->|]; [|by rewrite upd_ne in Hf]. rewrite upd_eq in Hf. rewrite Hfr. by apply not_elem_of_cons.
Qed.
Lemma live_give s ls fr live i v p : heap_pre s ls fr live -> slab_in ls i v -> is_chunk (osz i) v p ->
  forall q n, delete p live !! q = Some n <->
    exists j u, slab_in ls j u /\ n = osz j /\ is_chunk (osz j) u q /\ (q ∉ upd fr v (p :: fr v) u).
Proof.
  intros Hp Hv Hpc q n. destruct (decide (q = p)) as [->|Hne].
  - rewrite lookup_delete_eq. split; [done|]. intros (j & u & Hu & _ & Hcu & Hf).
    destruct (chunk_slab _ _ _ _ i j u v p Hp Hv Hu Hpc Hcu) as [-> ->]. destruct Hf. rewrite upd_eq. by left.
  - rewrite lookup_delete_ne by done. rewrite (hp_live _ _ _ _ Hp). split; intros (j & u & Hu & En & Hcu & Hf); exists j, u; split_and!; try done.
    + destruct (decide (u = v)) as [->|]; [|by rewrite upd_ne]. rewrite upd_eq. by apply not_elem_of_cons.
    + destruct (decide (u = v)) as [->|]; [|by rewrite upd_ne in Hf]. rewrite upd_eq in Hf. by apply not_elem_of_cons in Hf as [_ ?].
Qed.

(** The header of a slab holds no byte of a block in use. *)
Lemma live_not_header s ls fr live i v b : heap_pre s ls fr live -> slab_in ls i v -> live_byte live b -> ~ (v <= b < v + 64).
Proof.
  intros Hp Hv (p & n & Hl & Hb). destruct (live_block _ _ _ _ Hp p n Hl) as (j & u & Hu & _ & _ & _ & _ & ? & ? & _).
  destruct (decide (u = v)) as [->|Hne]; [lia|]. destruct (slab_in_apart _ _ _ _ Hp j i u v Hu Hv Hne); lia.
Qed.

(** Kinds after one slab changed lists. *)
Lemma kinds_move s ls ls' fr fl live i k l1 v l2 : heap_pre s ls' (upd fr v fl) live -> kinds ls fr ->
  ls i k = l1 ++ v :: l2 -> ls' i k = l1 ++ l2 -> ls' i (negb k) = v :: ls i (negb k) ->
  (forall j k', j <> i -> ls' j k' = ls j k') -> (if k then fl <> [] else fl = []) -> kinds ls' (upd fr v fl).
Proof.
  intros Hp Hkd E E1 E2 E3 Hfl j k' u Hu. destruct (decide (u = v)) as [->|Huv].
  - rewrite upd_eq. assert (Hv : v ∈ ls' i (negb k)) by (rewrite E2; by left).
    destruct (lk_one _ _ (hp_links _ _ _ _ Hp) j i k' (negb k) v Hu Hv) as [-> ->]. by destruct k.
  - rewrite upd_ne by done. apply (Hkd j k'). destruct (decide (j = i)) as [->|Hj]; [|by rewrite E3 in Hu].
    destruct (decide (k' = k)) as [->|Hk].
    + rewrite E1 in Hu. rewrite E. apply elem_of_app in Hu as [?|?]; apply elem_of_app; [by left|right; by right].
    + assert (k' = negb k) as -> by (by destruct k, k'). rewrite E2 in Hu. by apply elem_of_cons in Hu as [?|?].
Qed.
Lemma kinds_stay s ls fr fl live i k v : heap_pre s ls (upd fr v fl) live -> kinds ls fr -> v ∈ ls i k ->
  (if k : bool then fl = [] else fl <> []) -> kinds ls (upd fr v fl).
Proof.
  intros Hp Hkd Hv Hfl j k' u Hu. destruct (decide (u = v)) as [->|Huv]; [|rewrite upd_ne by done; by apply (Hkd j k')].
  rewrite upd_eq. by destruct (lk_one _ _ (hp_links _ _ _ _ Hp) j i k' k v Hu Hv) as [-> ->].
Qed.

Definition no_page s : Prop := forall q, frames (vm_pa s) q <> None.

Lemma wp_slab_kmalloc s ls fr live n : heap_inv s ls fr live -> 0 <= n ->
  wp (slab_kmalloc hh kc n) (fun p s' => exists ls' fr' live', heap_inv s' ls' fr' live' /\ keeps live (vm_mem s) (vm_mem s') /\
    ((p = 0 /\ live' = live /\ (n = 0 \/ 2048 < n \/ no_page s)) \/
     (exists k, n <= k /\ p <> 0 /\ live !! p = None /\ live' = <[p := k]> live))) s.
Proof.
  intros Hinv Hn. unfold slab_kmalloc. destruct (Z.eqb_spec n 0) as [->|Hn0]; [wp_step; exists ls, fr, live; split_and!; [done|done|]; left; tauto|].
  destruct (Z.ltb_spec 2048 n); [wp_step; exists ls, fr, live; split_and!; [done|done|]; left; tauto|].
  destruct (find_cache_fits n) as [z Ez]; [lia|]. rewrite Ez. destruct (find_cache_spec n z Ez) as (i & -> & Hi & Hfit).
  destruct (osz_facts i Hi) as (Hr & H16 & _). wp_step. eapply wp_mono; [by apply (wp_target_slab s ls fr live i)|].
  intros v s1 (ls1 & fr1 & [Hp1 Hkd1] & Hk1 & [[-> Hfull]|[l El]]).
  { change (0 =? 0) with true. cbv iota. wp_step. exists ls1, fr1, live. split_and!; [done|done|]. left. tauto. }
  assert (Hvin : v ∈ ls1 i false) by (rewrite El; by left). assert (Hv : slab_in ls1 i v) by (by exists false).
  destruct (slab_in_page _ _ _ _ Hp1 i v Hv) as (_ & [_ Hpos] & Hvt). destruct (Z.eqb_spec v 0); [lia|].
  pose proof (Hkd1 i false v Hvin) as Hne. cbn in Hne. destruct (fr1 v) as [|c fl] eqn:Hfr; [done|].
  pose proof (hp_slab _ _ _ _ Hp1 i v Hv) as Hok. rewrite Hfr in Hok. pose proof Hok as [_ _ Hfl Hcnt _ _ [Hcc _]%Forall_cons Hchain].
  cbn [chain length hd_or] in Hfl, Hcnt, Hchain. destruct Hchain as [Hnext _].
  pose proof (chunk_bounds _ Hr H16 v c Hcc) as (Hc1 & Hc2 & _). destruct (live_take s1 ls1 fr1 live i v c fl Hp1 Hv Hfr) as [Hnone Hlive].
  unfold sl_free_list, sl_free_chunks in *. wp_step. apply wp_ld. rewrite Hfl. wp_step. apply wp_ld. rewrite Hnext. wp_step. apply wp_st.
  wp_step. apply wp_ld. cbn [vm_mem set_mem]. rewrite load64_store64_ne by lia. rewrite Hcnt.
  assert (Hlen : Z.of_nat (Datatypes.S (length fl)) < 18446744073709551616) by (rewrite <- Hcnt; apply load64_range).
  rewrite (u64_small (Z.of_nat _ - 1)) by lia. replace (Z.of_nat (Datatypes.S (length fl)) - 1) with (Z.of_nat (length fl)) by lia.
  wp_step. apply wp_st. cbn [vm_mem set_mem]. pose proof (slab_pop _ _ _ _ _ _ Hr H16 Hok) as Hok2. set (m2 := store64 (store64 _ _ _) _ _) in *.
  assert (Hch : changes (vm_mem s1) m2 (fun b => v + 32 <= b < v + 48)).
  { unfold m2. eapply changes_trans; apply changes_store; lia. }
  assert (Hk2 : keeps live (vm_mem s1) m2). { intros b Hb. apply Hch. pose proof (live_not_header _ _ _ _ i v b Hp1 Hv Hb). lia. }
  assert (Hp2 : heap_pre (set_mem m2 s1) ls1 (upd fr1 v fl) (<[c := osz i]> live)).
  { eapply pre_data; try done. eapply changes_mono; [exact Hch|]. unfold slab_data, in_page_of. clear. cbv beta. intros b Hb. lia. }
  wp_step. apply wp_ld. cbn [vm_mem set_mem]. rewrite (so_count _ _ _ _ _ Hok2 : load64 m2 (v + 40) = _).
  assert (Hres : n <= osz i /\ c <> 0 /\ live !! c = None /\ <[c := osz i]> live = <[c := osz i]> live) by (split_and!; [done|lia|done|done]).
  wp_step. destruct (Z.eqb_spec (Z.of_nat (length fl)) 0) as [E0|E0].
  - assert (fl = []) as -> by (by destruct fl). eapply wp_mono; [apply (wp_relist (set_mem m2 s1) ls1 _ _ i false [] v l Hp2 El)|].
    intros [] s3 (m3 & ls3 & -> & Hp3 & Hk3 & E1 & E2 & E3). wp_step. exists ls3, (upd fr1 v []), (<[c := osz i]> live). split_and!.
    + split; [done|]. by apply (kinds_move _ ls1 ls3 fr1 [] _ i false [] v l Hp3).
    + intros b Hb. cbn [vm_mem set_mem] in *. rewrite Hk3, Hk2, Hk1; try done. destruct Hb as (q & k & Hq & ?). exists q, k. split; [|done].
      rewrite lookup_insert_ne; [done|]. intros ->. congruence.
    + right. eauto.
  - wp_step. wp_step. exists ls1, (upd fr1 v fl), (<[c := osz i]> live). split_and!.
    + split; [done|]. apply (kinds_stay _ ls1 fr1 fl _ i false v Hp2); [done|done|by destruct fl].
    + intros b Hb. cbn [vm_mem set_mem]. rewrite Hk2, Hk1; done.
    + right. eauto.
Qed.

(** *** [kfree] *)

(** A slab without a block in use leaves the lists, and its page the heap. *)
Lemma pre_drop s ls fr live i v l1 l2 m' x : heap_pre s ls fr live -> ls i false = l1 ++ v :: l2 ->
  (forall c, is_chunk (osz i) v c -> c ∈ fr v) -> links_ok m' (put_list i false (l1 ++ l2) ls) -> changes (vm_mem s) m' link_byte ->
  fa_wf x -> (forall q, q <> v - hh -> frames x q = frames (vm_pa s) q) ->
  heap_pre (mkVm m' x (kernel_pml4 s)) (put_list i false (l1 ++ l2) ls) fr live.
Proof.
  intros Hp E Hall Hl Hch Hx Hfr. assert (Hv : v ∈ ls i false) by (rewrite E; apply elem_of_app; right; by left).
  set (ls' := put_list i false (l1 ++ l2) ls) in *. pose proof (lk_nodup _ _ (hp_links _ _ _ _ Hp) i false) as Hnd. rewrite E in Hnd.
  assert (Hvn : v ∉ l1 ++ l2).
  { apply NoDup_app in Hnd as (_ & Hd & [Hn _]%NoDup_cons). intros [H|H]%elem_of_app; [apply (Hd v H); by left|done]. }
  assert (Hin : forall j u, slab_in ls' j u <-> slab_in ls j u /\ u <> v).
  { intros j u. unfold slab_in, ls'. split.
    - intros [k Hu]. destruct (decide (j = i /\ k = false)) as [[-> ->]|Hn].
      + rewrite put_list_eq in Hu. split; [|by intros ->]. exists false. rewrite E. apply elem_of_app in Hu as [?|?]; apply elem_of_app; [by left|right; by right].
      + rewrite put_list_ne in Hu by done. split; [by exists k|]. intros ->. by apply Hn, (lk_one _ _ (hp_links _ _ _ _ Hp) j i k false v).
    - intros [[k Hu] Hne]. exists k. destruct (decide (j = i /\ k = false)) as [[-> ->]|Hn]; [|by rewrite put_list_ne].
      rewrite put_list_eq. rewrite E in Hu. apply elem_of_app in Hu as [?|[?|?]%elem_of_cons]; apply elem_of_app; [by left|done|by right]. }
  split; try done.
  - intros j u [Hu _]%Hin. eapply slab_ok_ext; [exact Hch| |by apply (hp_slab _ _ _ _ Hp)]. intros b. by apply (slab_bytes_no_link _ _ _ _ Hp j).
  - intros j u [Hu Hne]%Hin. destruct (hp_frame _ _ _ _ Hp j u Hu) as [? Hf]. split; [done|]. cbn [vm_pa]. rewrite Hfr; [done|lia].
  - intros p n. rewrite (hp_live _ _ _ _ Hp). split; intros (j & u & Hu & En & Hc & Hf).
    + exists j, u. split_and!; try done. apply Hin. split; [done|]. intros ->. apply Hf.
      rewrite (slab_in_one _ _ _ _ Hp j i v Hu) in Hc by (by exists false). by apply Hall.
    + apply Hin in Hu as [Hu _]. by exists j, u.
Qed.

Lemma page_of v p : v mod 4096 = 0 -> v <= p < v + 4096 -> Z.land p (Z.lnot 0xFFF) = v.
Proof. intros Hv Hp. change 0xFFF with (Z.ones 12). rewrite land_lnot_ones by lia. change (2 ^ 12) with 4096. lia. Qed.

(** The slab of the block is on the partial list when the block is put back. *)
Lemma wp_kfree_list s ls fr live i v : heap_inv s ls fr live -> slab_in ls i v ->
  wp (if Z.of_nat (length (fr v)) =? 0 then
        list_remove (ca_full (cache_at kc (Z.of_nat i))) v ;; list_add (ca_partial (cache_at kc (Z.of_nat i))) v
      else ret tt)
    (fun _ s' => exists ls' l1 l2, heap_pre s' ls' fr live /\ keeps live (vm_mem s) (vm_mem s') /\ ls' i false = l1 ++ v :: l2 /\
      forall fl, fl <> [] -> kinds ls' (upd fr v fl)) s.
Proof.
  intros [Hp Hkd] [k Hv]. pose proof (Hkd i k v Hv) as Hk. destruct (Z.eqb_spec (Z.of_nat (length (fr v))) 0) as [E|E].
  - assert (Hnil : fr v = []) by (by destruct (fr v)). destruct k; [|done]. pose proof Hv as (l1 & l2 & El)%list_elem_of_split.
    eapply wp_mono; [apply (wp_relist s ls fr live i true l1 v l2 Hp El)|]. intros [] s1 (m1 & ls1 & -> & Hp1 & Hk1 & E1 & E2 & E3).
    cbn [negb] in E2. exists ls1, [], (ls i false). split_and!; try done. intros fl Hfl j k u Hu. destruct (decide (u = v)) as [->|Huv].
    + rewrite upd_eq. assert (Hvf : v ∈ ls1 i false) by (rewrite E2; by left). by destruct (lk_one _ _ (hp_links _ _ _ _ Hp1) j i k false v Hu Hvf) as [-> ->].
    + rewrite upd_ne by done. apply (Hkd j k). destruct (decide (j = i)) as [->|Hj]; [|by rewrite E3 in Hu]. destruct k.
      * rewrite E1 in Hu. rewrite El. apply elem_of_app in Hu as [?|?]; apply elem_of_app; [by left|right; by right].
      * rewrite E2 in Hu. by apply elem_of_cons in Hu as [?|?].
  - destruct k; [rewrite Hk in E; done|]. pose proof Hv as (l1 & l2 & El)%list_elem_of_split. wp_step. exists ls, l1, l2. split_and!; try done.
    intros fl Hfl j k u Hu. destruct (decide (u = v)) as [->|Huv]; [|rewrite upd_ne by done; by apply (Hkd j k)].
    rewrite upd_eq. by destruct (lk_one _ _ (hp_links _ _ _ _ Hp) j i k false v Hu Hv) as [-> ->].
Qed.

Lemma wp_slab_kfree s ls fr live p n : heap_inv s ls fr live -> live !! p = Some n ->
  wp (slab_kfree hh p) (fun _ s' => exists ls' fr', heap_inv s' ls' fr' (delete p live) /\
    keeps (delete p live) (vm_mem s) (vm_mem s')) s.
Proof.
  intros Hinv Hl. pose proof Hinv as [Hp _]. destruct (live_block _ _ _ _ Hp p n Hl) as (i & v & Hv & -> & Hc & Hf & Hr & Hp1 & Hp2 & _).
  destruct (slab_in_page _ _ _ _ Hp i v Hv) as (Hi & [Hal Hpos] & Hvt). destruct (osz_facts i Hi) as (_ & H16 & _). destruct Hkc as (Hk1 & Hk2 & _).
  pose proof (hp_slab _ _ _ _ Hp i v Hv) as Hok. destruct (hp_frame _ _ _ _ Hp i v Hv) as [Hvf Hone].
  unfold slab_kfree. destruct (Z.eqb_spec p 0); [lia|]. rewrite (page_of v p) by lia. wp_step. wp_step.
  rewrite (so_magic _ _ _ _ _ Hok), Z.eqb_refl. cbn [negb]. wp_step. apply wp_ld. rewrite (so_cache _ _ _ _ _ Hok). wp_step. apply wp_ld.
  rewrite (so_count _ _ _ _ _ Hok). wp_step. eapply wp_mono; [by apply (wp_kfree_list s ls fr live i v)|].
  intros [] s1 (ls1 & l1 & l2 & Hq & Hkeep1 & El & Hkinds). assert (Hv1 : slab_in ls1 i v) by (exists false; rewrite El; apply elem_of_app; right; by left).
  pose proof (hp_slab _ _ _ _ Hq i v Hv1) as Hok1. destruct (hp_frame _ _ _ _ Hq i v Hv1) as [_ Hone1].
  unfold sl_free_list, sl_free_chunks, sl_total_chunks. wp_step. apply wp_ld. rewrite (so_first _ _ _ _ _ Hok1 : load64 (vm_mem s1) (v + 32) = _). wp_step. apply wp_st. wp_step. apply wp_st.
  wp_step. apply wp_ld. cbn [vm_mem set_mem]. rewrite !load64_store64_ne by lia. rewrite (so_count _ _ _ _ _ Hok1 : load64 (vm_mem s1) (v + 40) = _).
  pose proof (chunks_count _ Hr H16 v _ (so_nodup _ _ _ _ _ Hok1) (so_chunks _ _ _ _ _ Hok1)) as Hcount.
  assert (Hdiv : 4032 / osz i <= 4032) by (apply Z.div_le_upper_bound; lia). rewrite u64_small by lia.
  wp_step. apply wp_st. cbn [vm_mem set_mem]. pose proof (slab_push _ _ _ v p _ Hr H16 ltac:(lia) ltac:(lia) Hok1 Hc Hf) as Hok2.
  set (m2 := store64 (store64 (store64 _ _ _) _ _) _ _) in *.
  assert (Hch : changes (vm_mem s1) m2 (fun b => v + 32 <= b < v + 48 \/ p <= b < p + 8)).
  { unfold m2. do 2 (eapply changes_trans; [|apply changes_store; lia]). apply changes_store. lia. }
  assert (Hkeep2 : keeps (delete p live) (vm_mem s1) m2).
  { intros b Hb. apply Hch. destruct Hb as (q & k & [Hqp Hlq]%lookup_delete_Some & Hb).
    pose proof (live_not_header _ _ _ _ i v b Hq Hv1 (ex_intro _ q (ex_intro _ k (conj Hlq Hb)))).
    destruct (live_apart _ _ _ _ Hq p (osz i) q k Hl Hlq Hqp); lia. }
  assert (Hq2 : heap_pre (set_mem m2 s1) ls1 (upd fr v (p :: fr v)) (delete p live)).
  { eapply pre_data; try done; [|by apply (live_give s1 ls1 fr live i v p)]. eapply changes_mono; [exact Hch|]. unfold slab_data, in_page_of.
    clear - Hp1 Hp2 Hr. cbv beta. intros b Hb. lia. }
  assert (Hkeep : forall m', keeps (delete p live) m2 m' -> keeps (delete p live) (vm_mem s) m').
  { intros m' Hk b Hb. rewrite Hk, Hkeep2; [|done|done]. apply Hkeep1. destruct Hb as (q & k & [_ Hlq]%lookup_delete_Some & Hb). by exists q, k. }
  wp_step. apply wp_ld. cbn [vm_mem set_mem]. rewrite (so_count _ _ _ _ _ Hok2 : load64 m2 (v + 40) = _). wp_step. apply wp_ld. cbn [vm_mem set_mem].
  rewrite (so_total _ _ _ _ _ Hok2 : load64 m2 (v + 48) = _). destruct (Z.eqb_spec (Z.of_nat (length (p :: fr v))) (4032 / osz i)) as [Efull|Epart].
  - wp_step. eapply wp_mono; [apply (wp_unlink (set_mem m2 s1) ls1 i false l1 v l2 (hp_links _ _ _ _ Hq2) El)|].
    intros [] s3 (m3 & -> & Hl3 & Hch3). cbn [vm_mem set_mem] in Hch3.
    assert (Ev : v2p hh v = v - hh) by (unfold v2p; apply u64_small; destruct Hvf; unfold top in *; lia). rewrite Ev.
    apply wp_pa. cbn [vm_pa set_mem]. eapply wp_mono; [apply (fa_free_spec _ (v - hh) 1 (hp_wf _ _ _ _ Hq) Hvf Hone1); lia|].
    intros [] x (Hx & _ & Hoth). cbn [vm_mem set_mem kernel_pml4].
    assert (Hall : forall c, is_chunk (osz i) v c -> c ∈ upd fr v (p :: fr v) v).
    { intros c Hcc. rewrite upd_eq. by apply (chunks_full (osz i) v _ c Hr H16 (so_nodup _ _ _ _ _ Hok2) (so_chunks _ _ _ _ _ Hok2)). }
    pose proof (pre_drop _ _ _ _ i v l1 l2 m3 x Hq2 El Hall Hl3 Hch3 Hx Hoth) as Hq3. exists (put_list i false (l1 ++ l2) ls1), (upd fr v (p :: fr v)). split; [split|].
    + done.
    + intros j k u Hu. apply (Hkinds (p :: fr v) ltac:(done) j k). destruct (decide (j = i /\ k = false)) as [[-> ->]|Hn]; [|by rewrite put_list_ne in Hu].
      rewrite put_list_eq in Hu. rewrite El. apply elem_of_app in Hu as [?|?]; apply elem_of_app; [by left|right; by right].
    + apply Hkeep. intros b Hb. apply Hch3. by apply (live_byte_no_link _ _ _ _ Hq2).
  - wp_step. exists ls1, (upd fr v (p :: fr v)). split; [split; [done|by apply Hkinds]|]. by apply Hkeep.
Qed.

(** *** Initialisation, and the owners of blocks *)

Lemma wp_init_slab s : fa_wf (vm_pa s) -> wp (init_slab kc) (fun _ s' => heap_inv s' (fun _ _ => []) (fun _ => []) ∅) s.
Proof.
  intros Hwf. set (I := fun (i : Z) (s' : vm S) => fa_wf (vm_pa s') /\ forall j, (Z.of_nat j < i) -> (j < 8)%nat ->
    let c := cache_at kc (Z.of_nat j) in load64 (vm_mem s') c = osz j /\ load64 (vm_mem s') (c + 8) = 0 /\
      load64 (vm_mem s') (c + 16) = 0 /\ load64 (vm_mem s') (c + 24) = 0).
  unfold init_slab. eapply wp_mono; [apply (wp_for_range I)|].
  - split; [done|]. lia.
  - intros i s1 Hi [Hwf1 H1]. destruct (osz_facts (Z.to_nat i)) as (Hr & _ & Hget); [unfold NUM_CACHES in Hi; lia|].
    rewrite Z2Nat.id in Hget by lia. unfold ca_object_size, ca_partial, ca_free, ca_full.
    wp_step. eapply wp_lift; [exact Hget|]. do 3 (wp_step; apply wp_st). apply wp_st. cbn [vm_mem set_mem].
    split; [done|]. cbv zeta. intros j Hj Hj8. cbn [vm_mem set_mem].
    assert (W0 : word 0) by (unfold word; lia). destruct (decide (Z.of_nat j = i)) as [<-|Hne].
    + rewrite Nat2Z.id in *. set (c := cache_at kc (Z.of_nat j)). split_and!.
      * rewrite !load64_store64_ne by lia. apply load64_store64_eq. unfold word. lia.
      * rewrite !(load64_store64_ne _ _ (c + 8)) by lia. by apply load64_store64_eq.
      * rewrite (load64_store64_ne _ _ (c + 16)) by lia. by apply load64_store64_eq.
      * by apply load64_store64_eq.
    + destruct (H1 j) as (E1 & E2 & E3 & E4); [lia|done|]. unfold cache_at in *. rewrite !load64_store64_ne by lia. done.
  - intros [] s' [Hwf' H']. change (0 + Z.of_nat NUM_CACHES) with 8 in H'.
    assert (Hno : forall i v, ~ slab_in (fun _ _ => []) i v) by (intros i v [k Hv]; by apply not_elem_of_nil in Hv).
    split; [split|].
    + done.
    + split; try done.
      * intros i Hi. by destruct (H' i ltac:(lia) Hi) as (E1 & _ & E3 & _).
      * intros i k Hi. destruct (H' i ltac:(lia) Hi) as (_ & E2 & _ & E4). split; [|done]. unfold head_of, ca_full, ca_partial. by destruct k.
      * intros. constructor.
      * intros i k v Hv. by apply not_elem_of_nil in Hv.
      * intros i j k k' v Hv. by apply not_elem_of_nil in Hv.
    + intros i v Hv. by destruct (Hno i v).
    + intros i v Hv. by destruct (Hno i v).
    + intros p n. rewrite lookup_empty. split; [done|]. intros (i & v & Hv & _). by destruct (Hno i v).
    + intros i k v Hv. by apply not_elem_of_nil in Hv.
Qed.

(** The owner of a block writes to it. *)
Lemma pre_write s ls fr live b c : heap_inv s ls fr live -> live_byte live b -> heap_inv (set_mem (store8 (vm_mem s) b c) s) ls fr live.
Proof.
  intros [Hp Hkd] Hb. split; [|done].
  assert (Hch : changes (vm_mem s) (store8 (vm_mem s) b c) (fun b' => b' = b)).
  { intros b' Hb'. rewrite load8_store8. destruct (Z.eqb_spec b' b); done. }
  pose proof Hb as (p & n & Hl & Hbp). destruct (live_block _ _ _ _ Hp p n Hl) as (i & v & Hv & -> & Hc & Hf & Hr & Hp1 & Hp2 & _).
  destruct (slab_in_page _ _ _ _ Hp i v Hv) as (Hi & [? ?] & Hvt). destruct (osz_facts i Hi) as (_ & H16 & _). pose proof Hkc as (Hk & _). split.
  - apply (hp_wf _ _ _ _ Hp).
  - eapply links_ok_ext; [exact Hch| | |apply (hp_links _ _ _ _ Hp)]; cbv beta; [intros; lia|].
    intros j k u b' Hu Hb' ->. apply (live_not_header _ _ _ _ j u b Hp (ex_intro _ k Hu) Hb). lia.
  - intros j u Hu. eapply slab_ok_ext; [exact Hch| |by apply (hp_slab _ _ _ _ Hp)]. cbv beta. intros b' Hb' ->.
    pose proof (live_not_header _ _ _ _ j u b Hp Hu Hb) as Hnh. destruct Hb' as [?|[?|(d & Hd & ?)]]; [lia|lia|].
    pose proof (so_chunks _ _ _ _ _ (hp_slab _ _ _ _ Hp j u Hu)) as Hcs. assert (Hdc : is_chunk (osz j) u d) by (by eapply Forall_forall in Hcs).
    destruct (slab_in_page _ _ _ _ Hp j u Hu) as (Hj & _). destruct (osz_facts j Hj) as (Hrj & H16j & _). pose proof (chunk_bounds _ Hrj H16j u d Hdc).
    destruct (decide (u = v)) as [->|Hne]; [|destruct (slab_in_apart _ _ _ _ Hp j i u v Hu Hv Hne); lia].
    rewrite (slab_in_one _ _ _ _ Hp j i v Hu Hv) in *. assert (d <> p) by (by intros ->). destruct (chunk_apart _ Hr H16 v d p Hdc Hc); [done|lia|lia].
  - apply (hp_frame _ _ _ _ Hp).
  - apply (hp_live _ _ _ _ Hp).
Qed.

(** ** The heap as its clients see it *)

Definition run_hop (op : hop) : M (vm S) Z :=
  match op with
  | HMalloc n => slab_kmalloc hh kc n
  | HFree p => slab_kfree hh p ;; ret 0
  | HWrite b c => modify (fun s => set_mem (store8 (vm_mem s) b c) s) ;; ret 0
  end.

(** There is no block only for a size outside 1..2048 or when no page is free. *)
Definition slab_fails s (n : Z) : Prop := n = 0 \/ 2048 < n \/ no_page s.
Definition slab_sizes (n : Z) : Prop := 0 <= n.

Definition implements_heap s (a : aheap) : Prop :=
  (exists ls fr, heap_inv s ls fr (ah_live a)) /\ forall b, live_byte (ah_live a) b -> load8 (vm_mem s) b = ah_data a b.

Lemma hop_simulates s a op : implements_heap s a -> legal_hop slab_sizes a op ->
  wp (run_hop op) (fun r s' => exists a', hstep (slab_fails s) a op r a' /\ implements_heap s' a') s.
Proof.
  intros [(ls & fr & Hinv) Hdata] Hlegal. destruct op as [n|p|b c]; cbn [run_hop legal_hop hstep] in *.
  - eapply wp_mono; [by apply (wp_slab_kmalloc s ls fr (ah_live a) n)|]. intros r s' (ls' & fr' & live' & Hinv' & Hk & Hres).
    exists (mkHeap live' (load8 (vm_mem s'))). split; [|split; [by exists ls', fr'|done]]. cbn [ah_live ah_data]. split.
    + intros b Hb. cbn [ah_data]. rewrite Hk by done. by apply Hdata.
    + destruct Hres as [?|(k & Hfit & Hr0 & Hnone & ->)]; [by left|right]. exists k. destruct Hinv' as [Hp' _].
      assert (Hr : <[r := k]> (ah_live a) !! r = Some k) by apply lookup_insert_eq.
      destruct (live_block _ _ _ _ Hp' r k Hr) as (i & v & _ & _ & _ & _ & _ & _ & _ & Hal). split_and!; try done.
      intros q j Hq. assert (Hne : r <> q) by (intros ->; congruence). apply (live_apart _ _ _ _ Hp' r k q j Hr); [by rewrite lookup_insert_ne|done].
  - wp_step. assert (H0 : ah_live a !! 0 = None).
    { destruct (ah_live a !! 0) as [n|] eqn:E; [|done]. destruct Hinv as [Hp _]. destruct (live_block _ _ _ _ Hp 0 n E) as (i & v & Hv & _ & _ & _ & _ & ? & _).
      destruct (slab_in_page _ _ _ _ Hp i v Hv) as (_ & [_ ?] & _). lia. }
    destruct Hlegal as [->|[n Hn]].
    + unfold slab_kfree. change (0 =? 0) with true. cbv iota. wp_steps. exists a. split; [|split; [by exists ls, fr|done]].
      rewrite delete_id by done. split; [done|]. by intros b.
    + eapply wp_mono; [by apply (wp_slab_kfree s ls fr (ah_live a) p n)|]. intros [] s' (ls' & fr' & Hinv' & Hk). wp_step.
      exists (mkHeap (delete p (ah_live a)) (load8 (vm_mem s'))). split; [|split; [by exists ls', fr'|done]]. split; [done|]. cbn [ah_live ah_data].
      intros b Hb. cbn [ah_data]. rewrite Hk by done. apply Hdata. destruct Hb as (q & j & [_ Hq]%lookup_delete_Some & ?). by exists q, j.
  - wp_steps. exists (mkHeap (ah_live a) (load8 (store8 (vm_mem s) b c))). split.
    + cbn [ah_live ah_data]. split; [done|]. split; [by rewrite load8_store8, Z.eqb_refl|]. intros b' Hne Hb'. rewrite load8_store8.
      destruct (Z.eqb_spec b' b); [done|]. by apply Hdata.
    + split; [|done]. exists ls, fr. by apply pre_write.
Qed.

(** C8: The slab allocator is a heap: [init_slab] makes an empty one, and every call
    by a client that frees only what it got and writes only into its blocks does what
    [hstep] says: blocks in use never overlap, are as large as asked for and aligned
    to 16 bytes, and keep their contents until they are freed. *)
Theorem slab_refines_heap :
  (forall s, fa_wf (vm_pa s) -> wp (init_slab kc) (fun _ s' => implements_heap s' (mkHeap ∅ (load8 (vm_mem s')))) s) /\
  (forall s a op, implements_heap s a -> legal_hop slab_sizes a op ->
    wp (run_hop op) (fun r s' => exists a', hstep (slab_fails s) a op r a' /\ implements_heap s' a') s).
Proof.
  split; [|apply hop_simulates]. intros s Hwf. eapply wp_mono; [by apply wp_init_slab|]. intros [] s' Hinv.
  split; [by exists (fun _ _ => []), (fun _ => [])|done].
Qed.

(** ** The interface of the heap *)

(** The allocator with the set of blocks in use beside it. *)
Definition slab_ops : HeapOps (vm S * gset Z) := {|
  kmalloc n := fun h =>
    match slab_kmalloc hh kc n h.1 with
    | None => None
    | Some (p, s) => Some (p, (s, if p =? 0 then h.2 else {[p]} ∪ h.2))
    end;
  kfree p := fun h =>
    match slab_kfree hh p h.1 with
    | None => None
    | Some (_, s) => Some (tt, (s, h.2 ∖ {[p]}))
    end;
|}.
Definition slab_heap_wf (h : vm S * gset Z) : Prop := exists ls fr live, heap_inv h.1 ls fr live /\ dom live = h.2.

Lemma slab_kmalloc_law (h : vm S * gset Z) n : slab_heap_wf h -> 0 < n <= 2048 ->
  wp (@kmalloc _ slab_ops n) (fun p h' => slab_heap_wf h' /\
    ((p = 0 /\ h'.2 = h.2) \/ (p <> 0 /\ (p ∉ h.2) /\ h'.2 = ({[p]} ∪ h.2)))) h.
Proof.
  intros (ls & fr & live & Hinv & Hdom) Hn. pose proof (wp_slab_kmalloc h.1 ls fr live n Hinv ltac:(lia)) as H. unfold wp in *. cbn [kmalloc slab_ops].
  destruct (slab_kmalloc hh kc n h.1) as [[p s]|]; [|done]. destruct H as (ls' & fr' & live' & Hinv' & _ & Hres). cbn [snd].
  destruct Hres as [(-> & -> & _)|(k & _ & Hp & Hnone & ->)].
  - split; [by exists ls', fr', live|by left].
  - destruct (Z.eqb_spec p 0); [done|]. split; [|right; split_and!; [done| |done]].
    + exists ls', fr', (<[p := k]> live). split; [done|]. cbn [snd]. by rewrite dom_insert_L, Hdom.
    + rewrite <- Hdom. by apply not_elem_of_dom.
Qed.
Lemma slab_kfree_law (h : vm S * gset Z) p : slab_heap_wf h -> p ∈ h.2 ->
  wp (@kfree _ slab_ops p) (fun _ h' => slab_heap_wf h' /\ h'.2 = (h.2 ∖ {[p]})) h.
Proof.
  intros (ls & fr & live & Hinv & Hdom) Hin. rewrite <- Hdom in Hin. apply elem_of_dom in Hin as [n Hn].
  pose proof (wp_slab_kfree h.1 ls fr live p n Hinv Hn) as H. unfold wp in *. cbn [kfree slab_ops].
  destruct (slab_kfree hh p h.1) as [[[] s]|]; [|done]. destruct H as (ls' & fr' & Hinv' & _). split; [|done].
  exists ls', fr', (delete p live). split; [done|]. cbn [snd]. by rewrite dom_delete_L, Hdom.
Qed.
(** The slab allocator keeps the promises that the file tree and the process code
    rely on. *)
Definition slab_heap : @Heap (vm S * gset Z) slab_ops := {|
  heap_wf := slab_heap_wf;
  live := snd;
  kmalloc_spec := slab_kmalloc_law;
  kfree_spec := slab_kfree_law;
|}.
End heap.

(** ** An instance *)

Definition demo_caches : Z := 0xFFFFFFFF80100000.
Lemma demo_image_ok : image_ok demo_hh demo_caches.
Proof. vm_compute. split; [discriminate|split; discriminate]. Qed.

Lemma slab_refines_heap_witness :
  wp (_ <- init_slab demo_caches ;; run_hop demo_hh demo_caches (HMalloc 40)) (fun r _ => r mod 16 = 0) demo_vm.
Proof.
  destruct (slab_refines_heap demo_hh demo_caches demo_hh_ok demo_image_ok) as [Hinit Hstep].
  apply wp_bind. eapply wp_mono; [apply (Hinit demo_vm demo_vm_wf)|]. intros u s' Himp.
  eapply wp_mono; [apply (Hstep s' _ (HMalloc 40) Himp); vm_compute; discriminate|].
  intros r s2 (a' & [_ [(-> & _)|(k & _ & _ & Hal & _)]] & _); [reflexivity|exact Hal].
Defined.
