(* ===== verification/Malloc.v ===== *)
(** * The allocator of the C library (libc/stdlib/malloc.c, and sbrk of libc/unistd.c)

    Blocks of units of 16 bytes behind a header of one unit.  The free blocks form
    a circular list in the order of their addresses that starts at [base], a static
    header of size 0; [free_list] points anywhere into it.  The memory is the one
    the process sees. *)

From S2P Require Import Prelude Mem CString Heap.

(** ** The code *)

Record umem := mkUmem { um_mem : memory; free_list : Z; um_brk : Z }.
Definition set_um_mem (m : memory) (s : umem) : umem := mkUmem m (free_list s) (um_brk s).
Definition set_free_list (p : Z) (s : umem) : umem := mkUmem (um_mem s) p (um_brk s).
Definition set_um_brk (b : Z) (s : umem) : umem := mkUmem (um_mem s) (free_list s) b.

Definition HEADER : Z := 16.
Definition MIN_ALLOC_UNITS : Z := 256.

Section code.
(** [base]: the address of the static header; [grant cur addr]: whether the kernel
    moves the break from [cur] to [addr] ([SYS_brk]). *)
Context (base : Z) (grant : Z -> Z -> bool).

(** The fields of [header_t]. *)
Definition h_next (h : Z) : M umem Z := gets (fun s => load64 (um_mem s) h).
Definition h_size (h : Z) : M umem Z := gets (fun s => load64 (um_mem s) (h + 8)).
Definition put_next (h v : Z) : M umem unit := modify (fun s => set_um_mem (store64 (um_mem s) h v) s).
Definition put_size (h v : Z) : M umem unit := modify (fun s => set_um_mem (store64 (um_mem s) (h + 8) v) s).
(** [h + n] for a [header_t *]. *)
Definition h_add (h n : Z) : Z := u64 (h + n * HEADER).

Definition brk (addr : Z) : M umem Z :=
  cur <- gets um_brk ;;
  if addr =? 0 then ret cur
  else if grant cur addr then modify (set_um_brk addr) ;; ret addr
  else ret cur.

Definition MINUS_ONE : Z := 18446744073709551615.
Definition sbrk (increment : Z) : M umem Z :=
  old_brk <- brk 0 ;;
  if increment =? 0 then ret old_brk
  else if increment <? 0 then ret MINUS_ONE
  else
    new_brk <- brk (u64 (old_brk + increment)) ;;
    if negb (new_brk =? u64 (old_brk + increment)) then ret MINUS_ONE else ret old_brk.

(** The loop of [free]: the free block behind which [block] belongs. *)
Fixpoint find_place (fuel : nat) (block cur : Z) : M umem Z :=
  match fuel with
  | O => undef
  | S fuel' =>
      next <- h_next cur ;;
      if (cur <? block) && (block <? next) then ret cur
      else if (next <=? cur) && ((cur <? block) || (block <? next)) then ret cur
      else find_place fuel' block next
  end.

Definition free (fuel : nat) (ptr : Z) : M umem unit :=
  if ptr =? 0 then ret tt else
  let block := h_add ptr (-1) in
  fl <- gets free_list ;;
  cur <- find_place fuel block fl ;;
  size <- h_size block ;;
  next <- h_next cur ;;
  (if h_add block size =? next then
     nsize <- h_size next ;;
     put_size block (u64 (size + nsize)) ;;
     nn <- h_next next ;;
     put_next block nn
   else put_next block next) ;;
  csize <- h_size cur ;;
  (if h_add cur csize =? block then
     size <- h_size block ;;
     put_size cur (u64 (csize + size)) ;;
     next <- h_next block ;;
     put_next cur next
   else put_next cur block) ;;
  modify (set_free_list cur).

Definition grow_heap (fuel : nat) (units : Z) : M umem Z :=
  let units := if units <? MIN_ALLOC_UNITS then MIN_ALLOC_UNITS else units in
  raw <- sbrk (s64 (u64 (units * HEADER))) ;;
  if raw =? MINUS_ONE then ret 0
  else
    put_size raw units ;;
    free fuel (h_add raw 1) ;;
    gets free_list.

(** The loop of [malloc]. *)
Fixpoint search (fuel : nat) (units prev cur : Z) : M umem Z :=
  match fuel with
  | O => undef
  | S fuel' =>
      size <- h_size cur ;;
      if units <=? size then
        cur <- (if size =? units then
                  next <- h_next cur ;;
                  put_next prev next ;;
                  ret cur
                else
                  put_size cur (u64 (size - units)) ;;
                  let cur := h_add cur (u64 (size - units)) in
                  put_size cur units ;;
                  ret cur) ;;
        modify (set_free_list prev) ;;
        ret (h_add cur 1)
      else
        fl <- gets free_list ;;
        if cur =? fl then
          cur <- grow_heap fuel units ;;
          if cur =? 0 then ret 0 else next <- h_next cur ;; search fuel' units cur next
        else next <- h_next cur ;; search fuel' units cur next
  end.

Definition malloc (fuel : nat) (size : Z) : M umem Z :=
  if size =? 0 then ret 0 else
  let units := u64 (u64 (size + HEADER - 1) / HEADER + 1) in
  fl <- gets free_list ;;
  (if fl =? 0 then put_next base base ;; modify (set_free_list base) ;; put_size base 0 else ret tt) ;;
  prev <- gets free_list ;;
  cur <- h_next prev ;;
  search fuel units prev cur.

Definition calloc (fuel : nat) (nmemb size : Z) : M umem Z :=
  if negb (nmemb =? 0) && (MINUS_ONE / nmemb <? size) then ret 0 else
  let total := u64 (nmemb * size) in
  ptr <- malloc fuel total ;;
  (if ptr =? 0 then ret tt else modify (fun s => set_um_mem (memset (um_mem s) ptr 0 total) s)) ;;
  ret ptr.
End code.

#[local] Opaque load64 store64 load8.

(** ** Linked blocks *)

Abbreviation blocks := (list (Z * Z)).
Definition hd_addr (n : Z) (L : blocks) : Z := match L with [] => n | (a, _) :: _ => a end.
Definition last_addr (p : Z) (L : blocks) : Z := match last L with Some (a, _) => a | None => p end.

(** The headers of the blocks of [L] in memory, the last linked to [n]. *)
Fixpoint lnk (m : memory) (L : blocks) (n : Z) : Prop :=
  match L with
  | [] => True
  | (a, z) :: L' => load64 m a = hd_addr n L' /\ load64 m (a + 8) = z /\ lnk m L' n
  end.

Lemma last_addr_snoc p L a z : last_addr p (L ++ [(a, z)]) = a.
Proof. unfold last_addr. by rewrite last_snoc. Qed.
Lemma last_addr_cons p a z L : last_addr p ((a, z) :: L) = last_addr a L.
Proof.
  destruct L as [|[b y] L]; [done|]. unfold last_addr. cbn [last].
  destruct (last ((b, y) :: L)) eqn:E; [done|by apply last_None in E].
Qed.
Lemma hd_addr_app n L L' : hd_addr n (L ++ L') = hd_addr (hd_addr n L') L.
Proof. by destruct L as [|[a z] L]. Qed.
Lemma lnk_app m L L' n : lnk m (L ++ L') n <-> lnk m L (hd_addr n L') /\ lnk m L' n.
Proof. induction L as [|[a z] L IH]; cbn [app lnk]; [tauto|]. rewrite IH, hd_addr_app. tauto. Qed.
Lemma lnk_ext m m' L n : (forall a z, (a, z) ∈ L -> load64 m' a = load64 m a /\ load64 m' (a + 8) = load64 m (a + 8)) ->
  lnk m L n -> lnk m' L n.
Proof.
  induction L as [|[a z] L IH]; intros He H; [done|]. destruct H as (H1 & H2 & H3). destruct (He a z) as [E1 E2]; [by left|].
  cbn [lnk]. rewrite E1, E2. split_and!; [done|done|]. apply IH; [|done]. intros b y Hb. apply (He b y). by right.
Qed.
Lemma lnk_size m L n a z : lnk m L n -> (a, z) ∈ L -> load64 m (a + 8) = z.
Proof.
  induction L as [|[b y] L IH]; [by intros _ ?%not_elem_of_nil|]. intros (_ & H2 & H3) [[= -> ->]|H]%elem_of_cons; [done|by apply IH].
Qed.

Lemma lnk_changes m m' P L n : changes m m' P -> (forall a z x, (a, z) ∈ L -> a <= x < a + 16 -> ~ P x) -> lnk m L n -> lnk m' L n.
Proof.
  intros Hc HP. apply lnk_ext. intros a z Ha. split; apply (changes_load64 _ _ _ _ Hc); intros x Hx; apply (HP a z x Ha); lia.
Qed.

(** ** Blocks in the heap *)

(** The blocks of [B] lie in this order above [lo] and up to [hi], no two of them
    adjacent. *)
Fixpoint within (lo : Z) (B : blocks) (hi : Z) : Prop :=
  match B with
  | [] => lo <= hi
  | (a, z) :: B' => lo < a /\ 1 <= z /\ within (a + 16 * z) B' hi
  end.
Definition end_of (lo : Z) (B : blocks) : Z := match last B with Some (a, z) => a + 16 * z | None => lo end.

Lemma end_of_cons lo a z B : end_of lo ((a, z) :: B) = end_of (a + 16 * z) B.
Proof.
  destruct B as [|[b y] B]; [done|]. unfold end_of. cbn [last]. destruct (last ((b, y) :: B)) eqn:E; [done|by apply last_None in E].
Qed.
Lemma within_app lo B B' hi : within lo (B ++ B') hi <-> within lo B (end_of lo B) /\ within (end_of lo B) B' hi.
Proof.
  revert lo. induction B as [|[a z] B IH]; intros lo; cbn [app within]; [unfold end_of; cbn; split; [intros H; split; [lia|done]|tauto]|].
  rewrite IH, end_of_cons. tauto.
Qed.
Lemma within_le lo B hi : within lo B hi -> lo <= hi.
Proof. revert lo. induction B as [|[a z] B IH]; intros lo H; [done|]. destruct H as (? & ? & ?%IH). lia. Qed.
Lemma within_lo lo lo' B hi : lo' <= lo -> within lo B hi -> within lo' B hi.
Proof. destruct B as [|[a z] B]; cbn; [lia|]. intros ? (? & ? & ?). split_and!; [lia|done|done]. Qed.
Lemma within_hi lo B hi hi' : hi <= hi' -> within lo B hi -> within lo B hi'.
Proof. revert lo. induction B as [|[a z] B IH]; intros lo Hle H; [cbn in *; lia|]. destruct H as (? & ? & ?). split_and!; auto. Qed.
Lemma within_elem lo B hi a z : within lo B hi -> (a, z) ∈ B -> lo < a /\ 1 <= z /\ a + 16 * z <= hi.
Proof.
  revert lo. induction B as [|[b y] B IH]; intros lo H Hin; [by apply not_elem_of_nil in Hin|]. destruct H as (H1 & H2 & H3).
  apply elem_of_cons in Hin as [[= -> ->]|Hin]; [apply within_le in H3; lia|]. destruct (IH _ H3 Hin). lia.
Qed.

(** Ascending addresses. *)
Fixpoint asc (lo : Z) (B : blocks) : Prop :=
  match B with [] => True | (a, _) :: B' => lo < a /\ asc a B' end.
Lemma within_asc lo B hi : within lo B hi -> asc lo B.
Proof.
  revert lo. induction B as [|[a z] B IH]; intros lo; cbn [within asc]; [done|]. intros (? & ? & H). split; [lia|].
  apply IH in H. destruct B as [|[b y] B]; [done|]. cbn in *. split; [lia|tauto].
Qed.
Lemma within_apart lo B c z B' hi : within lo (B ++ (c, z) :: B') hi ->
  (forall a y, (a, y) ∈ B -> a + 16 * y < c) /\ (forall a y, (a, y) ∈ B' -> c + 16 * z < a).
Proof.
  intros [H1 (H2 & H3 & H4)]%within_app. split; intros a y Hin.
  - destruct (within_elem _ _ _ _ _ H1 Hin). lia.
  - destruct (within_elem _ _ _ _ _ H4 Hin). lia.
Qed.

(** No free block meets the bytes from [lo] to [hi]. *)
Definition clear (lo hi : Z) (B : blocks) : Prop := forall a z, (a, z) ∈ B -> a + 16 * z <= lo \/ hi <= a.

(** The place of a block in the order. *)
Lemma within_split b e lo B hi : b < e -> within lo B hi -> clear b e B ->
  exists B1 B2, B = B1 ++ B2 /\ (forall a z, (a, z) ∈ B1 -> a + 16 * z <= b) /\ (forall a z, (a, z) ∈ B2 -> e <= a).
Proof.
  intros He. revert lo. induction B as [|[a z] B IH]; intros lo Hw Hc.
  - exists [], []. split_and!; [done|by intros ?? ?%not_elem_of_nil..].
  - destruct Hw as (H1 & H2 & H3). destruct (Hc a z) as [Ha|Ha]; [by left|..].
    + destruct (IH _ H3) as (B1 & B2 & -> & HB1 & HB2); [intros x y Hx; apply (Hc x y); by right|].
      exists ((a, z) :: B1), B2. split_and!; [done| |done]. intros x y [[= -> ->]|Hx]%elem_of_cons; [done|by apply (HB1 x y)].
    + exists [], ((a, z) :: B). split_and!; [done|by intros ?? ?%not_elem_of_nil|]. intros x y [[= -> ->]|Hx]%elem_of_cons; [done|].
      destruct (within_elem _ _ _ _ _ H3 Hx). lia.
Qed.
Lemma end_of_le lo B b : lo < b -> (forall a z, (a, z) ∈ B -> a + 16 * z <= b) -> end_of lo B <= b.
Proof.
  intros Hlo H. unfold end_of. destruct (last B) as [[a z]|] eqn:E; [|lia]. apply (H a z). by apply last_Some_elem_of.
Qed.

Lemma asc_app lo B B' : asc lo (B ++ B') <-> asc lo B /\ asc (last_addr lo B) B'.
Proof.
  revert lo. induction B as [|[a z] B IH]; intros lo; cbn [app asc]; [unfold last_addr; tauto|]. rewrite IH, last_addr_cons. tauto.
Qed.
Lemma asc_lo lo lo' B : lo' <= lo -> asc lo B -> asc lo' B.
Proof. destruct B as [|[a z] B]; cbn; [done|]. intros ? [? ?]. split; [lia|done]. Qed.
Lemma asc_elem lo B a z : asc lo B -> (a, z) ∈ B -> lo < a.
Proof.
  revert lo. induction B as [|[b y] B IH]; intros lo; [by intros _ ?%not_elem_of_nil|]. intros [H1 H2] [[= -> ->]|H]%elem_of_cons; [done|].
  specialize (IH b H2 H). lia.
Qed.

Section proofs.
Context (base : Z) (grant : Z -> Z -> bool) (hs : Z) (Hbase : 0 < base /\ base + 16 <= hs).

Lemma wp_h_next h (Q : Z -> umem -> Prop) s : Q (load64 (um_mem s) h) s -> wp (h_next h) Q s.
Proof. done. Qed.
Lemma wp_h_size h (Q : Z -> umem -> Prop) s : Q (load64 (um_mem s) (h + 8)) s -> wp (h_size h) Q s.
Proof. done. Qed.
Lemma wp_put_next h v (Q : unit -> umem -> Prop) s : Q tt (set_um_mem (store64 (um_mem s) h v) s) -> wp (put_next h v) Q s.
Proof. done. Qed.
Lemma wp_put_size h v (Q : unit -> umem -> Prop) s : Q tt (set_um_mem (store64 (um_mem s) (h + 8) v) s) -> wp (put_size h v) Q s.
Proof. done. Qed.

(** *** Where a block belongs *)

(** Forwards from a block below [b]. *)
Lemma wp_place_fwd b n s : b < n \/ n = base -> base < b -> forall M fuel c z,
  lnk (um_mem s) ((c, z) :: M) n -> asc c M -> base <= c < b -> (forall a y, (a, y) ∈ M -> a < b) -> (length M < fuel)%nat ->
  wp (find_place fuel b c) (fun r s' => r = last_addr c M /\ s' = s) s.
Proof.
  intros Hn Hb. induction M as [|[a y] M IH]; intros fuel c z Hl Ha Hc HM Hf; (destruct fuel as [|fuel]; [cbn in Hf; lia|]); cbn [find_place].
  - destruct Hl as (E & _). cbn [hd_addr] in E. wp_step. apply wp_h_next. rewrite E.
    destruct Hn as [Hn| ->]; case_bools; cbn [andb orb]; (wp_step; done).
  - destruct Hl as (E & _ & Hl). cbn [hd_addr asc] in E, Ha. destruct Ha as [Ha1 Ha2]. assert (a < b) by (apply (HM a y); by left).
    wp_step. apply wp_h_next. rewrite E. case_bools. cbn [andb orb]. rewrite last_addr_cons. apply (IH fuel a y); try done; [lia|..].
    + intros d x Hd. apply (HM d x). by right.
    + cbn in Hf. lia.
Qed.

(** To the end of the list from a block above [b]. *)
Lemma wp_place_wrap b Q s : base < b -> forall M fuel c z,
  lnk (um_mem s) ((c, z) :: M) base -> asc c M -> b < c -> wp (find_place fuel b base) Q s ->
  wp (find_place (S (length M) + fuel) b c) Q s.
Proof.
  intros Hb. induction M as [|[a y] M IH]; intros fuel c z Hl Ha Hc HQ.
  - destruct Hl as (E & _). cbn [hd_addr] in E. cbn [length Nat.add find_place]. wp_step. apply wp_h_next. rewrite E. case_bools. exact HQ.
  - destruct Hl as (E & _ & Hl). cbn [hd_addr asc] in E, Ha. destruct Ha as [Ha1 Ha2].
    pose proof (IH fuel a y Hl Ha2 ltac:(lia) HQ) as Hrest. revert Hrest. cbn [length].
    change (S (S (length M)) + fuel)%nat with (S (S (length M) + fuel)). generalize (S (length M) + fuel)%nat. intros k Hrest.
    cbn [find_place]. wp_step. apply wp_h_next. rewrite E. case_bools. exact Hrest.
Qed.

Lemma wp_find_place b B1 B2 s fuel c z : lnk (um_mem s) ((base, 0) :: B1 ++ B2) base -> asc base (B1 ++ B2) -> base < b ->
  (forall a y, (a, y) ∈ B1 -> a < b) -> (forall a y, (a, y) ∈ B2 -> b < a) -> (c, z) ∈ (base, 0) :: B1 ++ B2 ->
  (2 * length (B1 ++ B2) + 2 < fuel)%nat ->
  wp (find_place fuel b c) (fun r s' => r = last_addr base B1 /\ s' = s) s.
Proof.
  intros Hl Ha Hb H1 H2 Hin Hf. rewrite length_app in Hf.
  assert (Hn : b < hd_addr base B2 \/ hd_addr base B2 = base).
  { destruct B2 as [|[a y] B2]; [by right|]. left. cbn. apply (H2 a y). by left. }
  pose proof Hl as [Hl1 Hl2]%(lnk_app _ ((base, 0) :: B1) B2). apply asc_app in Ha as [Ha1 Ha2].
  assert (Hfwd : forall fuel, (length B1 < fuel)%nat -> wp (find_place fuel b base) (fun r s' => r = last_addr base B1 /\ s' = s) s).
  { intros k Hk. by eapply (wp_place_fwd b (hd_addr base B2) s Hn Hb B1 k base 0); try done; lia. }
  apply elem_of_cons in Hin as [[= -> ->]|Hin]; [apply Hfwd; lia|]. apply elem_of_app in Hin as [Hin|Hin].
  - pose proof Hin as (X & Y & ->)%list_elem_of_split. rewrite length_app in Hf. cbn [length] in Hf.
    apply (lnk_app _ ((base, 0) :: X) ((c, z) :: Y)) in Hl1 as [_ Hl1].
    assert (Hc : base < c) by (by apply (asc_elem base (X ++ (c, z) :: Y) c z)). apply asc_app in Ha1 as [_ [Hx Ha1]].
    assert (E : last_addr base (X ++ (c, z) :: Y) = last_addr c Y).
    { destruct Y as [|[y1 y2] Y _] using rev_ind; [by rewrite last_addr_snoc|]. rewrite app_comm_cons, app_assoc, !last_addr_snoc. done. }
    rewrite E. eapply (wp_place_fwd b (hd_addr base B2) s Hn Hb Y fuel c z); try done.
    + split; [lia|by apply (H1 c z)].
    + intros a y Hay. apply (H1 a y). apply elem_of_app. right. by right.
    + lia.
  - pose proof Hin as (X & Y & ->)%list_elem_of_split. rewrite length_app in Hf. cbn [length] in Hf.
    apply lnk_app in Hl2 as [_ Hl2]. apply asc_app in Ha2 as [_ [Hx Ha2]].
    replace fuel with (S (length Y) + (fuel - S (length Y)))%nat by lia. apply (wp_place_wrap b _ s Hb Y _ c z); try done.
    + by apply (H2 c z).
    + apply Hfwd. lia.
Qed.

(** *** Merging with the neighbours *)

Definition merge_next (b n : Z) (B2 : blocks) : Z * blocks :=
  match B2 with
  | (a, z) :: T => if b + 16 * n =? a then (n + z, T) else (n, B2)
  | [] => (n, [])
  end.

Lemma h_add_small a n : 0 <= a + 16 * n < 18446744073709551616 -> h_add a n = a + 16 * n.
Proof. intros H. unfold h_add, HEADER. rewrite u64_small; lia. Qed.

Lemma wp_free_next b n B2 hi s (Q : unit -> umem -> Prop) :
  lnk (um_mem s) B2 base -> hs <= b -> 1 <= n -> within (b + 16 * n - 1) B2 hi -> hi <= 4611686018427387904 -> 
  (forall m', changes (um_mem s) m' (fun x => b <= x < b + 16) -> load64 (um_mem s) (b + 8) = n ->
     lnk m' ((b, (merge_next b n B2).1) :: (merge_next b n B2).2) base -> Q tt (set_um_mem m' s)) ->
  load64 (um_mem s) (b + 8) = n ->
  wp (if h_add b n =? hd_addr base B2 then
        nsize <- h_size (hd_addr base B2) ;; put_size b (u64 (n + nsize)) ;; nn <- h_next (hd_addr base B2) ;; put_next b nn
      else put_next b (hd_addr base B2)) Q s.
Proof.
  intros Hl Hb Hn Hw Hhi HQ Hsz. pose proof (within_le _ _ _ Hw) as Hle. rewrite h_add_small by lia.
  assert (Hst : forall a v, b <= a <= b + 8 -> changes (um_mem s) (store64 (um_mem s) a v) (fun x => b <= x < b + 16)).
  { intros a v Ha. apply changes_store. lia. }
  assert (Hk : b + 16 * n <> hd_addr base B2 -> merge_next b n B2 = (n, B2)).
  { destruct B2 as [|[a z] T]; [done|]. cbn [hd_addr merge_next]. intros ?. case_bools. done. }
  assert (Hhd : 0 <= hd_addr base B2 < 18446744073709551616).
  { destruct B2 as [|[a z] T]; cbn [hd_addr]; [lia|]. cbn in Hw. pose proof (within_le _ _ _ (proj2 (proj2 Hw))). lia. }
  assert (HB2 : forall a z x, (a, z) ∈ B2 -> a <= x < a + 16 -> ~ (b <= x < b + 16)).
  { intros a z x Ha Hx. destruct (within_elem _ _ _ _ _ Hw Ha). lia. }
  destruct (Z.eqb_spec (b + 16 * n) (hd_addr base B2)) as [E|E].
  - destruct B2 as [|[a z] T]; [cbn in E; lia|]. cbn [hd_addr merge_next] in *. case_bools. destruct Hl as (L1 & L2 & L3).
    destruct Hw as (W1 & W2 & W3). pose proof (within_le _ _ _ W3).
    wp_step. apply wp_h_size. rewrite L2. wp_step. apply wp_put_size. wp_step. apply wp_h_next. cbn [um_mem set_um_mem].
    rewrite load64_store64_ne, L1 by lia. apply wp_put_next. cbn [um_mem set_um_mem free_list um_brk]. rewrite u64_small by lia.
    assert (Hch : changes (um_mem s) (store64 (store64 (um_mem s) (b + 8) (n + z)) b (hd_addr base T)) (fun x => b <= x < b + 16)).
    { eapply changes_trans; [apply (Hst (b + 8) (n + z)); lia|]. apply changes_store. lia. }
    apply (HQ _ Hch Hsz). cbn [fst snd lnk]. split_and!.
    + apply load64_store64_eq. rewrite <- L1. apply load64_range.
    + rewrite load64_store64_ne by lia. apply load64_store64_eq. lia.
    + apply (lnk_changes _ _ _ _ _ Hch); [|exact L3]. intros c y x Hc. apply (HB2 c y x). by right.
  - rewrite (Hk E) in HQ. cbn [fst snd] in HQ. apply wp_put_next.
    apply (HQ _ (Hst b _ ltac:(lia)) Hsz). cbn [lnk]. split_and!.
    + apply load64_store64_eq. exact Hhd.
    + rewrite load64_store64_ne by lia. exact Hsz.
    + apply (lnk_changes _ _ _ _ _ (Hst b (hd_addr base B2) ltac:(lia))); [exact HB2|exact Hl].
Qed.

Definition merge_prev (c y b n : Z) (T : blocks) : blocks :=
  if c + 16 * y =? b then (c, y + n) :: T else (c, y) :: (b, n) :: T.

Lemma wp_free_prev P c y b n T s (Q : unit -> umem -> Prop) :
  lnk (um_mem s) P c -> load64 (um_mem s) (c + 8) = y -> lnk (um_mem s) ((b, n) :: T) base ->
  0 < c -> 0 <= y -> c + 16 <= b -> 1 <= n -> b + 16 * n <= 4611686018427387904 -> c + 16 * y <= b ->
  (forall a z, (a, z) ∈ P -> a + 16 <= c) -> (forall a z, (a, z) ∈ T -> b + 16 <= a) ->
  (forall m', changes (um_mem s) m' (fun x => c <= x < c + 16) -> lnk m' (P ++ merge_prev c y b n T) base -> Q tt (set_um_mem m' s)) ->
  wp (if h_add c y =? b then
        size <- h_size b ;; put_size c (u64 (y + size)) ;; next <- h_next b ;; put_next c next
      else put_next c b) Q s.
Proof.
  intros HP Hy Hb Hc0 Hy0 Hcb Hn Htop Hle HPc HT HQ. rewrite h_add_small by lia. unfold merge_prev in HQ. pose proof Hb as (L1 & L2 & L3).
  assert (HbT : forall a z x, (a, z) ∈ (b, n) :: T -> a <= x < a + 16 -> ~ (c <= x < c + 16)).
  { intros a z x [[= -> ->]|Ha]%elem_of_cons Hx; [lia|]. specialize (HT a z Ha). lia. }
  assert (HPx : forall a z x, (a, z) ∈ P -> a <= x < a + 16 -> ~ (c <= x < c + 16)).
  { intros a z x Ha Hx. specialize (HPc a z Ha). lia. }
  destruct (Z.eqb_spec (c + 16 * y) b) as [E|E].
  - wp_step. apply wp_h_size. rewrite L2. wp_step. apply wp_put_size. wp_step. apply wp_h_next. cbn [um_mem set_um_mem].
    rewrite load64_store64_ne, L1 by lia. apply wp_put_next. cbn [um_mem set_um_mem free_list um_brk]. rewrite u64_small by lia.
    assert (Hch : changes (um_mem s) (store64 (store64 (um_mem s) (c + 8) (y + n)) c (hd_addr base T)) (fun x => c <= x < c + 16)).
    { eapply changes_trans; apply changes_store; lia. }
    apply (HQ _ Hch). apply lnk_app. cbn [hd_addr lnk]. split_and!.
    + by apply (lnk_changes _ _ _ _ _ Hch).
    + apply load64_store64_eq. rewrite <- L1. apply load64_range.
    + rewrite load64_store64_ne by lia. apply load64_store64_eq. lia.
    + apply (lnk_changes _ _ _ _ _ Hch); [|exact L3]. intros a z x Ha. apply (HbT a z x). by right.
  - apply wp_put_next. assert (Hch : changes (um_mem s) (store64 (um_mem s) c b) (fun x => c <= x < c + 16)) by (apply changes_store; lia).
    apply (HQ _ Hch). apply lnk_app. cbn [hd_addr]. split; [by apply (lnk_changes _ _ _ _ _ Hch)|].
    pose proof (lnk_changes _ _ _ ((b, n) :: T) base Hch HbT Hb) as Hb'. split; [|split; [|exact Hb']].
    + cbn [hd_addr]. apply load64_store64_eq. lia.
    + rewrite load64_store64_ne by lia. exact Hy.
Qed.

Lemma merge_next_ok b n B2 hi : 1 <= n -> within (b + 16 * n - 1) B2 hi -> b + 16 * n <= hi ->
  n <= (merge_next b n B2).1 /\ within (b + 16 * (merge_next b n B2).1) (merge_next b n B2).2 hi /\
  (forall a z, (a, z) ∈ (merge_next b n B2).2 -> (a, z) ∈ B2) /\ (length (merge_next b n B2).2 <= length B2)%nat /\
  (forall lo e, lo < e -> clear lo e B2 -> e <= b \/ b + 16 * n <= lo -> e <= b \/ b + 16 * (merge_next b n B2).1 <= lo).
Proof.
  intros Hn Hw Hhi. destruct B2 as [|[a z] T]; [cbn; split_and!; try done; lia|]. cbn [merge_next]. destruct Hw as (W1 & W2 & W3).
  destruct (Z.eqb_spec (b + 16 * n) a) as [<-|E]; cbn [fst snd].
  - split_and!; [lia| | |cbn; lia|].
    + by replace (b + 16 * (n + z)) with (b + 16 * n + 16 * z) by lia.
    + intros x y Hx. by right.
    + intros lo e Hlo Hc [H|H]; [by left|]. destruct (Hc (b + 16 * n) z) as [H'|H']; [by left|right; lia|lia].
  - split_and!; [lia| |done|lia|done]. split_and!; [lia|done|done].
Qed.

(** The list after a block was put between [B1] and [B2]. *)
Record joined (B : blocks) (b n : Z) (hi c : Z) (B' : blocks) : Prop := {
  jo_within : within (hs - 1) B' hi;
  jo_from a z : (a, z) ∈ B' -> a = b \/ exists z', (a, z') ∈ B;
  jo_clear lo e : lo < e -> clear lo e B -> e <= b \/ b + 16 * n <= lo -> clear lo e B';
  jo_big : exists a z, (a, z) ∈ B' /\ n <= z;
  jo_at : exists z, (c, z) ∈ (base, 0) :: B';
  jo_length : (length B' <= S (length B))%nat;
}.

(** The block behind which a block goes, with what is before it. *)
Definition behind (B1 P : blocks) (c y : Z) : Prop := (base, 0) :: B1 = P ++ [(c, y)].
Lemma behind_last B1 P c y : behind B1 P c y -> c = last_addr base B1.
Proof. intros H. by rewrite <- (last_addr_cons 0 base 0 B1), H, last_addr_snoc. Qed.
Lemma behind_inv B1 P c y : behind B1 P c y -> (B1 = [] /\ P = [] /\ c = base /\ y = 0) \/ exists B0, B1 = B0 ++ [(c, y)] /\ P = (base, 0) :: B0.
Proof. destruct P as [|q P]; intros [= ]; [left|right; exists P]; by subst. Qed.
Lemma behind_ex B1 : exists P c y, behind B1 P c y.
Proof.
  destruct B1 as [|[c y] B0 _] using rev_ind; [by exists [], base, 0|]. exists ((base, 0) :: B0), c, y. done.
Qed.

Lemma joined_ok B1 B2 P c y b n hi : within (hs - 1) (B1 ++ B2) hi -> behind B1 P c y ->
  (forall a z, (a, z) ∈ B1 -> a + 16 * z <= b) -> (forall a z, (a, z) ∈ B2 -> b + 16 * n <= a) ->
  hs <= b -> 1 <= n -> b + 16 * n <= hi ->
  exists B', P ++ merge_prev c y b (merge_next b n B2).1 (merge_next b n B2).2 = (base, 0) :: B' /\
    joined (B1 ++ B2) b n hi c B'.
Proof.
  intros Hw Hbe H1 H2 Hb Hn Hhi. apply within_app in Hw as [W1 W2].
  assert (W2' : within (b + 16 * n - 1) B2 hi).
  { destruct B2 as [|[a z] T]; cbn in *; [lia|]. specialize (H2 a z ltac:(by left)). split_and!; [lia|tauto|tauto]. }
  destruct (merge_next_ok b n B2 hi Hn W2' Hhi) as (Hn' & HwT & HT & HlT & Hcl). destruct (merge_next b n B2) as [n' T]. cbn [fst snd] in *.
  destruct (behind_inv _ _ _ _ Hbe) as [(-> & -> & -> & ->)|(B0 & -> & ->)].
  - exists ((b, n') :: T). unfold merge_prev. case_bools. split; [done|]. split.
    + cbn. split_and!; [lia|lia|done].
    + intros a z [[= -> ->]|Ha]%elem_of_cons; [by left|right]. exists z. by apply HT.
    + intros lo e Hlo Hc Hbe' a z [[= -> ->]|Ha]%elem_of_cons; [destruct (Hcl lo e Hlo Hc Hbe'); lia|]. apply Hc. by apply HT.
    + exists b, n'. split; [by left|done].
    + exists 0. by left.
    + cbn. lia.
  - exists (B0 ++ merge_prev c y b n' T). split; [done|]. assert (Hcb : c + 16 * y <= b) by (apply H1, elem_of_app; right; by left).
    apply within_app in W1 as (W0 & W1 & Wy & _). unfold merge_prev. destruct (Z.eqb_spec (c + 16 * y) b) as [E|E]; split.
    + apply within_app. split; [done|]. cbn. split_and!; [done|lia|]. by replace (c + 16 * (y + n')) with (b + 16 * n') by lia.
    + intros a z [Ha|[[= -> ->]|Ha]%elem_of_cons]%elem_of_app; right; [exists z; set_solver|exists y; set_solver|].
      exists z. apply elem_of_app. right. by apply HT.
    + intros lo e Hlo Hc Hbe' a z [Ha|[[= -> ->]|Ha]%elem_of_cons]%elem_of_app; [apply Hc; set_solver| |apply Hc; apply elem_of_app; right; by apply HT].
      assert (Hc2 : clear lo e B2) by (intros x w Hx; apply Hc, elem_of_app; by right).
      destruct (Hc c y) as [Hx|Hx]; [set_solver| |by right]. destruct (Hcl lo e Hlo Hc2 Hbe'); lia.
    + exists c, (y + n'). split; [set_solver|lia].
    + exists (y + n'). set_solver.
    + rewrite !length_app. cbn. lia.
    + apply within_app. split; [done|]. cbn. split_and!; [done|lia|lia|lia|done].
    + intros a z [Ha|[[= -> ->]|[[= -> ->]|Ha]%elem_of_cons]%elem_of_cons]%elem_of_app; [right; exists z; set_solver|right; exists y; set_solver|by left|].
      right. exists z. apply elem_of_app. right. by apply HT.
    + intros lo e Hlo Hc Hbe' a z [Ha|[[= -> ->]|[[= -> ->]|Ha]%elem_of_cons]%elem_of_cons]%elem_of_app; [apply Hc; set_solver|apply Hc; set_solver| |apply Hc; apply elem_of_app; right; by apply HT].
      assert (Hc2 : clear lo e B2) by (intros x w Hx; apply Hc, elem_of_app; by right).
      destruct (Hcl lo e Hlo Hc2 Hbe'); lia.
    + exists b, n'. split; [set_solver|lia].
    + exists y. set_solver.
    + rewrite !length_app. cbn. lia.
Qed.

(** *** The heap *)

(** The list of free blocks. *)
Record list_ok (s : umem) (B : blocks) : Prop := {
  lo_links : lnk (um_mem s) ((base, 0) :: B) base;
  lo_within : within (hs - 1) B (um_brk s);
  lo_top : hs <= um_brk s <= 4611686018427387904;
  lo_at : exists z, (free_list s, z) ∈ (base, 0) :: B;
}.

(** The bytes the allocator writes. *)
Definition headers (B : blocks) (x : Z) : Prop :=
  base <= x < base + 16 \/ exists a z, (a, z) ∈ B /\ a <= x < a + 16.

Lemma wp_free_block b n s B fuel : list_ok s B -> hs <= b -> 1 <= n -> b + 16 * n <= um_brk s ->
  load64 (um_mem s) (b + 8) = n -> clear b (b + 16 * n) B -> (2 * length B + 2 < fuel)%nat ->
  wp (free fuel (b + 16)) (fun _ s' => exists B', list_ok s' B' /\ joined B b n (um_brk s) (free_list s') B' /\
    um_brk s' = um_brk s /\ changes (um_mem s) (um_mem s') (headers ((b, n) :: B))) s.
Proof.
  intros [Hl Hw Htop [fz Hfl]] Hb Hn Hhi Hsz Hcl Hf. unfold free. case_bools. rewrite h_add_small by lia.
  replace (b + 16 + 16 * -1) with b by lia.
  destruct (within_split b (b + 16 * n) _ _ _ ltac:(lia) Hw Hcl) as (B1 & B2 & -> & H1 & H2).
  pose proof (within_asc _ _ _ Hw) as Ha. apply (asc_lo _ base) in Ha; [|lia].
  assert (H1' : forall a y, (a, y) ∈ B1 -> a < b).
  { intros a y Hay. specialize (H1 a y Hay). pose proof (within_elem _ _ _ a y Hw ltac:(set_solver)). lia. }
  assert (H2' : forall a y, (a, y) ∈ B2 -> b < a) by (intros a y Hay; specialize (H2 a y Hay); lia).
  wp_steps. eapply wp_mono; [apply (wp_find_place b B1 B2 s fuel (free_list s) fz Hl Ha ltac:(lia) H1' H2' Hfl Hf)|].
  intros r s' [-> ->]. destruct (behind_ex B1) as (P & c & y & Hbe). rewrite <- (behind_last _ _ _ _ Hbe).
  rewrite app_comm_cons, Hbe, <- app_assoc in Hl. pose proof Hl as [LP (Lc1 & Lc2 & L2)]%lnk_app.
  assert (Hpc : (forall a z, (a, z) ∈ P -> a + 16 <= c) /\ 0 < c /\ 0 <= y /\ c + 16 <= b /\ c + 16 * y <= b).
  { clear Lc1 Lc2 L2 LP Hl. destruct (behind_inv _ _ _ _ Hbe) as [(-> & -> & -> & ->)|(B0 & -> & ->)].
    - split; [by intros ?? ?%not_elem_of_nil|lia].
    - pose proof (within_elem _ _ _ c y Hw ltac:(set_solver)). pose proof (H1 c y ltac:(set_solver)).
      rewrite <- app_assoc in Hw. split; [|lia]. intros a z [[= -> ->]|Hx]%elem_of_cons; [lia|].
      pose proof (proj1 (within_apart _ _ _ _ _ _ Hw) a z Hx). pose proof (within_elem _ _ _ a z Hw ltac:(set_solver)). lia. }
  destruct Hpc as (HPc & Hc0 & Hy0 & Hcb & Hcy).
  destruct (joined_ok B1 B2 P c y b n (um_brk s) Hw Hbe H1 H2 Hb Hn Hhi) as (B' & EB' & Hj).
  assert (W2 : within (b + 16 * n - 1) B2 (um_brk s)).
  { apply within_app in Hw as [_ Hw]. destruct B2 as [|[a z] T]; cbn in *; [lia|]. specialize (H2 a z ltac:(by left)). split_and!; [lia|tauto|tauto]. }
  destruct (merge_next_ok b n B2 (um_brk s) Hn W2 Hhi) as (Hn' & HwT & HT & _). pose proof (within_le _ _ _ HwT).
  wp_step. apply wp_h_size. rewrite Hsz. wp_step. apply wp_h_next. rewrite Lc1. wp_step.
  apply (wp_free_next b n B2 (um_brk s) s); try done; [lia|]. intros m1 Hch1 _ Hl1. wp_step. apply wp_h_size. cbn [um_mem set_um_mem].
  rewrite (changes_load64 _ _ _ _ Hch1), Lc2 by lia. wp_step.
  apply (wp_free_prev P c y b (merge_next b n B2).1 (merge_next b n B2).2); try done; cbn [um_mem set_um_mem]; try lia.
  - apply (lnk_changes _ _ _ _ _ Hch1); [|exact LP]. intros a z x Hx. specialize (HPc a z Hx). lia.
  - rewrite (changes_load64 _ _ _ _ Hch1), Lc2 by lia. done.
  - intros a z Hx. specialize (H2 a z (HT a z Hx)). lia.
  - intros m2 Hch2 Hl2. rewrite EB' in Hl2. wp_step. exists B'. cbn [um_mem set_um_mem free_list set_free_list um_brk]. split_and!; try done.
    + split; [done|by apply Hj|done|apply Hj].
    + apply (changes_trans _ m1); [apply (changes_mono _ _ _ _ Hch1)|apply (changes_mono _ _ _ _ Hch2)]; intros x Hx.
      * right. exists b, n. split; [by left|lia].
      * destruct (behind_inv _ _ _ _ Hbe) as [(-> & -> & -> & ->)|(B0 & -> & ->)]; [by left|right]. exists c, y.
        split; [|done]. apply elem_of_cons. right. apply elem_of_app. left. apply elem_of_app. right. by left.
Qed.

(** The live blocks: the units of the block of each pointer handed out. *)
Record live_ok (s : umem) (B : blocks) (L : gmap Z Z) : Prop := {
  lv_block p n : L !! p = Some n -> hs <= p - 16 /\ 1 <= n /\ p - 16 + 16 * n <= um_brk s /\ load64 (um_mem s) (p - 8) = n;
  lv_apart p n q k : L !! p = Some n -> L !! q = Some k -> p <> q -> p + 16 * n <= q \/ q + 16 * k <= p;
  lv_clear p n : L !! p = Some n -> clear (p - 16) (p - 16 + 16 * n) B;
  lv_align : um_brk s mod 16 = 0 /\ (forall a z, (a, z) ∈ B -> a mod 16 = 0) /\ (forall p n, L !! p = Some n -> p mod 16 = 0);
}.

Definition free_bytes (B : blocks) (x : Z) : Prop :=
  base <= x < base + 16 \/ exists a z, (a, z) ∈ B /\ a <= x < a + 16 * z.
Definition kept (L : gmap Z Z) (m m' : memory) : Prop :=
  forall p n x, L !! p = Some n -> p - 16 <= x < p - 16 + 16 * n -> load8 m' x = load8 m x.

Lemma headers_free B : (forall a z, (a, z) ∈ B -> 1 <= z) -> forall x, headers B x -> free_bytes B x.
Proof. intros H x [?|(a & z & Ha & Hx)]; [by left|right]. exists a, z. specialize (H a z Ha). split; [done|lia]. Qed.

Lemma live_kept s B L m' : live_ok s B L -> changes (um_mem s) m' (free_bytes B) -> kept L (um_mem s) m'.
Proof.
  intros HL Hch p n x Hp Hx. apply Hch. destruct (lv_block _ _ _ HL p n Hp) as (? & ? & ? & _).
  intros [?|(a & z & Ha & ?)]; [lia|]. destruct (lv_clear _ _ _ HL p n Hp a z Ha); lia.
Qed.
Lemma kept_size L m m' p n : kept L m m' -> L !! p = Some n -> 1 <= n -> load64 m' (p - 8) = load64 m (p - 8).
Proof.
  intros Hk Hp Hn. apply (changes_load64 m m' (fun x => ~ (p - 16 <= x < p - 16 + 16 * n))); [|lia]. intros x Hx. apply (Hk p n x Hp). lia.
 Qed.
Lemma blocks_kept_trans L m1 m2 m3 : kept L m1 m2 -> kept L m2 m3 -> kept L m1 m3.
Proof. intros H1 H2 p n x Hp Hx. by rewrite (H2 p n x), (H1 p n x). Qed.
Lemma kept_sub L L' m m' : L' ⊆ L -> kept L m m' -> kept L' m m'.
Proof. intros Hs Hk p n x Hp. apply (Hk p n x). by eapply lookup_weaken. Qed.

(** The live blocks of a state whose free blocks moved elsewhere. *)
Lemma live_move s s' B B' L : live_ok s B L -> kept L (um_mem s) (um_mem s') -> um_brk s <= um_brk s' -> um_brk s' mod 16 = 0 ->
  (forall p n, L !! p = Some n -> clear (p - 16) (p - 16 + 16 * n) B') -> (forall a z, (a, z) ∈ B' -> a mod 16 = 0) -> live_ok s' B' L.
Proof.
  intros HL Hk Hb Hal Hc Ha. split.
  - intros p n Hp. destruct (lv_block _ _ _ HL p n Hp) as (H1 & H2 & H3 & H4). rewrite (kept_size _ _ _ _ _ Hk Hp H2). split_and!; [done|done|lia|done].
  - apply HL.
  - exact Hc.
  - split_and!; [done|done|apply HL].
Qed.
Lemma live_delete s B L p : live_ok s B L -> live_ok s B (delete p L).
Proof.
  intros HL. split.
  - intros q n [_ Hq]%lookup_delete_Some. by apply HL.
  - intros q n q' k [_ Hq]%lookup_delete_Some [_ Hq']%lookup_delete_Some. by apply (lv_apart _ _ _ HL).
  - intros q n [_ Hq]%lookup_delete_Some. by apply (lv_clear _ _ _ HL).
  - split_and!; [apply HL|apply HL|]. intros q n [_ Hq]%lookup_delete_Some. by eapply (lv_align _ _ _ HL).
Qed.

(** *** free *)

Lemma wp_free_live p n s B L fuel : list_ok s B -> live_ok s B L -> L !! p = Some n -> (2 * length B + 2 < fuel)%nat ->
  wp (free fuel p) (fun _ s' => exists B', list_ok s' B' /\ live_ok s' B' (delete p L) /\ um_brk s' = um_brk s /\
    kept (delete p L) (um_mem s) (um_mem s')) s.
Proof.
  intros HB HL Hp Hf. destruct (lv_block _ _ _ HL p n Hp) as (H1 & H2 & H3 & H4). replace p with (p - 16 + 16) at 1 by lia.
  assert (Ha : forall q k, delete p L !! q = Some k -> clear (q - 16) (q - 16 + 16 * k) ((p - 16, n) :: B)).
  { intros q k [Hne Hq]%lookup_delete_Some a z [[= -> ->]|Ha]%elem_of_cons; [destruct (lv_apart _ _ _ HL p n q k Hp Hq Hne); lia|].
    by apply (lv_clear _ _ _ HL q k Hq). }
  eapply wp_mono; [apply (wp_free_block (p - 16) n s B fuel HB H1 H2 H3)|].
  - rewrite <- H4. f_equal. lia.
  - by apply (lv_clear _ _ _ HL).
  - done.
  - intros _ s' (B' & HB' & Hj & Ebrk & Hch). exists B'.
    assert (Hk : kept (delete p L) (um_mem s) (um_mem s')).
    { intros q k x Hq Hx. apply Hch. pose proof Hq as [_ Hq']%lookup_delete_Some. destruct (lv_block _ _ _ HL q k Hq') as (? & ? & ? & _).
      intros [?|(a & z & Haz & ?)]; [lia|]. assert (1 <= z); [|destruct (Ha q k Hq a z Haz); lia].
      apply elem_of_cons in Haz as [[= -> ->]|Haz]; [done|]. by apply (within_elem _ _ _ _ _ (lo_within _ _ HB) Haz). }
    split_and!; [done| |done|done]. pose proof (live_delete _ _ _ p HL) as HL'. apply (live_move s s' B B' (delete p L) HL' Hk); [lia|rewrite Ebrk; apply HL| |].
    + intros q k Hq. pose proof Hq as [_ Hq']%lookup_delete_Some. destruct (lv_block _ _ _ HL q k Hq') as (? & ? & ? & _).
      apply (jo_clear _ _ _ _ _ _ Hj); [lia|by apply (lv_clear _ _ _ HL)|]. destruct (Ha q k Hq (p - 16) n); [by left|lia..].
    + intros a z Haz. apply (jo_from _ _ _ _ _ _ Hj) in Haz as [->|[z' Haz]]; [|by apply (lv_align _ _ _ HL) in Haz].
      apply (lv_align _ _ _ HL) in Hp. lia.
Qed.

(** *** grow_heap *)

Definition asked (units : Z) : Z := 16 * (if units <? MIN_ALLOC_UNITS then MIN_ALLOC_UNITS else units).
(** The kernel does not grant the memory, or the size has no place in the signed
    argument of sbrk. *)
Definition refused (s : umem) (units : Z) : Prop :=
  9223372036854775808 <= asked units \/ grant (um_brk s) (um_brk s + asked units) = false.

Lemma wp_sbrk inc s : 0 <= um_brk s <= 4611686018427387904 -> 0 < inc < 9223372036854775808 ->
  wp (sbrk grant inc) (fun r s' =>
    if grant (um_brk s) (um_brk s + inc) then r = um_brk s /\ s' = set_um_brk (um_brk s + inc) s else r = MINUS_ONE /\ s' = s) s.
Proof.
  intros Hb Hi. unfold sbrk, brk. cbn [Z.eqb]. wp_steps. destruct (Z.eqb_spec inc 0), (Z.ltb_spec inc 0); try lia. rewrite u64_small by lia.
  wp_step. case_bools. wp_steps. destruct (grant (um_brk s) (um_brk s + inc)); wp_steps; case_bools; wp_steps; done.
Qed.

Lemma list_grow s B n : list_ok s B -> 1 <= n -> um_brk s + 16 * n <= 4611686018427387904 ->
  list_ok (set_um_mem (store64 (um_mem s) (um_brk s + 8) n) (set_um_brk (um_brk s + 16 * n) s)) B.
Proof.
  intros [Hl Hw Htop Hat] Hn Hmax. split; cbn [um_mem set_um_mem um_brk set_um_brk free_list]; [|by eapply within_hi; [|exact Hw]; lia|lia|done].
  apply (lnk_changes (um_mem s) _ (fun x => um_brk s + 8 <= x < um_brk s + 16)); [apply changes_store; lia| |exact Hl].
  intros a z x [[= -> ->]|Ha]%elem_of_cons Hx; [lia|]. destruct (within_elem _ _ _ _ _ Hw Ha) as (? & ? & ?). lia.
Qed.

Context (Hgrant : forall cur a, grant cur a = true -> a <= 4611686018427387904).

Lemma wp_grow_heap u s B L fuel : list_ok s B -> live_ok s B L -> 1 <= u -> 16 * u < 18446744073709551616 -> (2 * length B + 2 < fuel)%nat ->
  wp (grow_heap grant fuel u) (fun r s' =>
    (r = 0 /\ s' = s /\ refused s u) \/
    (r = free_list s' /\ exists B', list_ok s' B' /\ live_ok s' B' L /\ kept L (um_mem s) (um_mem s') /\
       (exists a z, (a, z) ∈ B' /\ u <= z) /\ (length B' <= S (length B))%nat /\ um_brk s <= um_brk s')) s.
Proof.
  intros HB HL Hu Hmax Hf. unfold grow_heap. set (n := if u <? MIN_ALLOC_UNITS then MIN_ALLOC_UNITS else u).
  assert (Hn : u <= n /\ 1 <= n /\ 16 * n < 18446744073709551616 /\ asked u = 16 * n).
  { unfold n, asked, MIN_ALLOC_UNITS. case_bools. }
  clearbody n. destruct Hn as (Hun & Hn1 & Hn2 & Hask). pose proof (lo_top _ _ HB) as Htop.
  unfold HEADER. rewrite u64_small by lia. unfold refused. rewrite Hask. replace (n * 16) with (16 * n) by lia.
  wp_step. destruct (Z.leb_spec 9223372036854775808 (16 * n)) as [Hbig|Hsm].
  - eapply (wp_mono _ (fun r s' => r = MINUS_ONE /\ s' = s)).
    + unfold s64. rewrite u64_small by lia. unfold sbrk, brk. cbn [Z.eqb]. case_bools. wp_steps. case_bools. wp_steps. done.
    + intros r s' [-> ->]. rewrite Z.eqb_refl. wp_steps. left. split_and!; [done|done|by left].
  - replace (s64 (16 * n)) with (16 * n) by (unfold s64; rewrite u64_small by lia; case_bools; done).
    eapply wp_mono; [apply wp_sbrk; lia|]. intros r s' Hr. cbv beta in Hr. destruct (grant (um_brk s) (um_brk s + 16 * n)) eqn:Eg.
    2:{ destruct Hr as [-> ->]. rewrite Z.eqb_refl. wp_steps. left. split_and!; [done|done|by right]. }
    destruct Hr as [-> ->]. apply Hgrant in Eg. unfold MINUS_ONE. case_bools. rewrite h_add_small by lia. wp_step. apply wp_put_size. wp_step.
    pose proof (list_grow s B n HB Hn1 Eg) as HB1. set (s1 := set_um_mem _ _) in *.
    assert (E1 : um_mem s1 = store64 (um_mem s) (um_brk s + 8) n /\ um_brk s1 = um_brk s + 16 * n) by done. clearbody s1. destruct E1 as [Em Eb].
    assert (Hcl : clear (um_brk s) (um_brk s + 16 * n) B).
    { intros a z Ha. left. by apply (within_elem _ _ _ _ _ (lo_within _ _ HB) Ha). }
    eapply wp_mono; [apply (wp_free_block (um_brk s) n s1 B fuel HB1); try done; [lia|lia| ]|].
    + rewrite Em. apply load64_store64_eq. lia.
    + intros _ s2 (B' & HB' & Hj & Ebrk & Hch). wp_step. right. split; [done|]. exists B'.
      assert (Hk : kept L (um_mem s) (um_mem s2)).
      { intros q k x Hq Hx. destruct (lv_block _ _ _ HL q k Hq) as (? & ? & ? & _). rewrite Hch.
        - rewrite Em. apply load8_store64_ne. lia.
        - intros [?|(a & z & [[= -> ->]|Haz]%elem_of_cons & ?)]; [lia|lia|]. pose proof (within_elem _ _ _ _ _ (lo_within _ _ HB) Haz).
          destruct (lv_clear _ _ _ HL q k Hq a z Haz); lia. }
      pose proof (lv_align _ _ _ HL) as (Al1 & Al2 & Al3).
      split_and!; [done| |done| |apply Hj|lia].
      * apply (live_move s s2 B B' L HL Hk); [lia|rewrite Ebrk, Eb; lia| |].
        -- intros q k Hq. destruct (lv_block _ _ _ HL q k Hq) as (? & ? & ? & _).
           apply (jo_clear _ _ _ _ _ _ Hj); [lia|by apply (lv_clear _ _ _ HL)|]. left. lia.
        -- intros a z Haz. apply (jo_from _ _ _ _ _ _ Hj) in Haz as [->|[z' Haz]]; [done|by apply Al2 in Haz].
      * destruct (jo_big _ _ _ _ _ _ Hj) as (a & z & Haz & ?). exists a, z. split; [done|lia].
Qed.

(** *** Taking a block *)

Lemma pred_split m B p zp c : lnk m ((base, 0) :: B) base -> (p, zp) ∈ (base, 0) :: B -> load64 m p = c -> c <> base ->
  exists B1 P z T, B = B1 ++ (c, z) :: T /\ behind B1 P p zp.
Proof.
  intros Hl Hin Hp Hc. apply list_elem_of_split in Hin as (P & T & E). rewrite E in Hl. apply lnk_app in Hl as [_ (H1 & _)].
  rewrite Hp in H1. destruct T as [|[c' z] T]; cbn in H1; [done|]. subst c'. destruct P as [|q P]; injection E; intros.
  - exists [], [], z, T. subst. done.
  - exists (P ++ [(p, zp)]), (q :: P), z, T. subst. rewrite <- app_assoc. done.
Qed.

(** What the loop leaves when it takes a block of [u] units. *)
Definition taken (s : umem) (L : gmap Z Z) (u r : Z) (s' : umem) : Prop :=
  exists B', list_ok s' B' /\ live_ok s' B' (<[r := u]> L) /\ L !! r = None /\ kept L (um_mem s) (um_mem s') /\ um_brk s <= um_brk s'.

(** A piece [r - 16, r - 16 + 16 u) of a free block becomes live. *)
Lemma ulive_take s s' B B' L r u c z : live_ok s B L -> um_brk s' = um_brk s -> (c, z) ∈ B -> within (hs - 1) B (um_brk s) ->
  changes (um_mem s) (um_mem s') (free_bytes B) -> load64 (um_mem s') (r - 8) = u -> 1 <= u ->
  c <= r - 16 -> r - 16 + 16 * u = c + 16 * z -> r mod 16 = 0 ->
  (forall lo e, lo < e -> clear lo e B -> clear lo e B') -> clear (r - 16) (r - 16 + 16 * u) B' ->
  (forall a y, (a, y) ∈ B' -> a mod 16 = 0) -> L !! r = None /\ kept L (um_mem s) (um_mem s') /\ live_ok s' B' (<[r := u]> L).
Proof.
  intros HL Eb Hc Hw Hch Hr Hu Hr1 Hr2 Hr16 Hcl Hcr Hal. pose proof (live_kept _ _ _ _ HL Hch) as Hk.
  destruct (within_elem _ _ _ _ _ Hw Hc) as (Hc1 & Hz & Hc2).
  assert (Hap : forall q k, L !! q = Some k -> 1 <= k /\ (q - 16 + 16 * k <= c \/ c + 16 * z <= q - 16)).
  { intros q k Hq. destruct (lv_block _ _ _ HL q k Hq) as (_ & ? & _ & _). destruct (lv_clear _ _ _ HL q k Hq c z Hc); lia. }
  assert (Hnone : L !! r = None).
  { destruct (L !! r) as [k|] eqn:E; [|done]. destruct (Hap r k E). lia. }
  split_and!; [done|done|]. assert (HL' : live_ok s' B' L).
  { apply (live_move s s' B B' L HL Hk); [lia|rewrite Eb; apply HL| |done]. intros q k Hq. destruct (Hap q k Hq). apply Hcl; [lia|by apply (lv_clear _ _ _ HL)]. }
  split.
  - intros q k [[<- <-]|[_ Hq]]%lookup_insert_Some; [|by apply HL']. split_and!; [lia|lia|lia|done].
  - intros q k q' k' [[<- <-]|[Hn Hq]]%lookup_insert_Some [[<- <-]|[Hn' Hq']]%lookup_insert_Some Hne; [done| | |by apply (lv_apart _ _ _ HL')].
    + destruct (Hap q' k' Hq'). lia.
    + destruct (Hap q k Hq). lia.
  - intros q k [[<- <-]|[_ Hq]]%lookup_insert_Some; [done|by apply (lv_clear _ _ _ HL')].
  - split_and!; [apply HL'|done|]. intros q k [[<- <-]|[_ Hq]]%lookup_insert_Some; [done|]. by apply (lv_align _ _ _ HL') in Hq.
Qed.

Lemma behind_apart B1 R P p zp hi : within (hs - 1) (B1 ++ R) hi -> behind B1 P p zp ->
  (forall a z, (a, z) ∈ P -> a + 16 <= p) /\ (forall a z, (a, z) ∈ R -> p + 16 <= a) /\ 0 < p /\ forall x, p <= x < p + 16 -> free_bytes (B1 ++ R) x.
Proof.
  intros Hw Hbe. destruct (behind_inv _ _ _ _ Hbe) as [(-> & -> & -> & ->)|(B0 & -> & ->)].
  - split_and!; [by intros ?? ?%not_elem_of_nil| |lia|by left]. intros a z Ha. pose proof (within_elem _ _ _ _ _ Hw Ha). lia.
  - rewrite <- app_assoc in *. cbn [app] in *. pose proof (within_elem _ _ _ p zp Hw ltac:(set_solver)).
    destruct (within_apart _ _ _ _ _ _ Hw) as [W1 W2]. split_and!; [| |lia|].
    + intros a z [[= -> ->]|Ha]%elem_of_cons; [lia|]. specialize (W1 a z Ha). pose proof (within_elem _ _ _ a z Hw ltac:(set_solver)). lia.
    + intros a z Ha. specialize (W2 a z Ha). lia.
    + intros x Hx. right. exists p, zp. split; [set_solver|lia].
Qed.

Lemma within_drop lo B1 c z T hi : within lo (B1 ++ (c, z) :: T) hi -> within lo (B1 ++ T) hi.
Proof.
  intros [H1 (H2 & H3 & H4)]%within_app. apply within_app. split; [done|]. by eapply within_lo; [|exact H4]; lia.
Qed.
Lemma at_behind B1 T P p zp : behind B1 P p zp -> exists z, (p, z) ∈ (base, 0) :: B1 ++ T.
Proof. intros E. exists zp. rewrite app_comm_cons, E. set_solver. Qed.

Lemma take_exact s B1 P p zp c z T L : list_ok s (B1 ++ (c, z) :: T) -> live_ok s (B1 ++ (c, z) :: T) L -> behind B1 P p zp ->
  taken s L z (c + 16) (set_free_list p (set_um_mem (store64 (um_mem s) p (load64 (um_mem s) c)) s)).
Proof.
  intros HB HL Hbe. pose proof HB as [Hl Hw Htop Hat]. destruct (behind_apart _ _ _ _ _ _ Hw Hbe) as (HP & HR & Hp0 & Hpf).
  pose proof (within_elem _ _ _ c z Hw ltac:(set_solver)) as (Hc1 & Hz & Hc2). destruct (within_apart _ _ _ _ _ _ Hw) as [W1 W2].
  rewrite app_comm_cons, Hbe, <- app_assoc in Hl. apply lnk_app in Hl as [LP (Lp1 & Lp2 & Lc1 & Lc2 & LT)]. cbn [hd_addr] in *.
  pose proof (HR c z ltac:(by left)) as Hpc.
  assert (Hch : changes (um_mem s) (store64 (um_mem s) p (load64 (um_mem s) c)) (fun x => p <= x < p + 16)) by (apply changes_store; lia).
  destruct (ulive_take s (set_free_list p (set_um_mem (store64 (um_mem s) p (load64 (um_mem s) c)) s)) (B1 ++ (c, z) :: T) (B1 ++ T) L (c + 16) z c z)
    as (H1 & H2 & H3); try done; cbn [um_mem set_um_mem set_free_list um_brk]; try lia.
  - set_solver.
  - by apply (changes_mono _ _ _ _ Hch).
  - replace (c + 16 - 8) with (c + 8) by lia. rewrite (changes_load64 _ _ _ _ Hch) by lia. done.
  - pose proof (proj1 (proj2 (lv_align _ _ _ HL)) c z ltac:(set_solver)). lia.
  - intros lo e _ Hcl a y Ha. apply (Hcl a y). set_solver.
  - intros a y [Ha|Ha]%elem_of_app; [left; specialize (W1 a y Ha); lia|right; specialize (W2 a y Ha); lia].
  - intros a y Ha. apply (proj1 (proj2 (lv_align _ _ _ HL)) a y). set_solver.
  - exists (B1 ++ T). split_and!; [|done..]. split; cbn [um_mem set_um_mem set_free_list um_brk free_list].
    + rewrite app_comm_cons, Hbe, <- app_assoc. apply lnk_app. cbn [app hd_addr lnk]. split_and!.
      * apply (lnk_changes _ _ _ _ _ Hch); [|exact LP]. intros a y x Ha. specialize (HP a y Ha). lia.
      * rewrite Lc1. apply load64_store64_eq. rewrite <- Lc1. apply load64_range.
      * rewrite load64_store64_ne by lia. exact Lp2.
      * apply (lnk_changes _ _ _ _ _ Hch); [|exact LT]. intros a y x Ha. specialize (HR a y ltac:(by right)). lia.
    + by apply within_drop in Hw.
    + done.
    + by apply (at_behind _ _ _ _ _ Hbe).
Qed.

Lemma take_part s B1 P p zp c z T L u : list_ok s (B1 ++ (c, z) :: T) -> live_ok s (B1 ++ (c, z) :: T) L -> behind B1 P p zp -> 1 <= u < z ->
  taken s L u (c + 16 * (z - u) + 16)
    (set_free_list p (set_um_mem (store64 (store64 (um_mem s) (c + 8) (z - u)) (c + 16 * (z - u) + 8) u) s)).
Proof.
  intros HB HL Hbe Hu. pose proof HB as [Hl Hw Htop Hat]. destruct (behind_apart _ _ _ _ _ _ Hw Hbe) as (HP & HR & Hp0 & _).
  pose proof (within_elem _ _ _ c z Hw ltac:(set_solver)) as (Hc1 & Hz & Hc2). destruct (within_apart _ _ _ _ _ _ Hw) as [W1 W2].
  set (d := c + 16 * (z - u)) in *. assert (Hd : c + 16 <= d /\ d + 16 * u = c + 16 * z /\ d mod 16 = c mod 16) by lia. 
  set (m' := store64 (store64 (um_mem s) (c + 8) (z - u)) (d + 8) u).
  assert (Hch : changes (um_mem s) m' (fun x => c + 8 <= x < c + 16 * z)).
  { unfold m'. eapply changes_trans; apply changes_store; lia. }
  assert (E1 : load64 m' (c + 8) = z - u).
  { unfold m'. rewrite load64_store64_ne by lia. apply load64_store64_eq. lia. }
  assert (E2 : load64 m' (d + 8) = u) by (apply load64_store64_eq; lia). clearbody m'. destruct Hd as (Hd1 & Hd2 & Hd3). clearbody d.
  destruct (ulive_take s (set_free_list p (set_um_mem m' s)) (B1 ++ (c, z) :: T) (B1 ++ (c, z - u) :: T) L (d + 16) u c z)
    as (H1 & H2 & H3); try done; cbn [um_mem set_um_mem set_free_list um_brk]; try lia.
  - set_solver.
  - apply (changes_mono _ _ _ _ Hch). intros x Hx. right. exists c, z. split; [set_solver|lia].
  - rewrite <- E2. f_equal. lia.
  - pose proof (proj1 (proj2 (lv_align _ _ _ HL)) c z ltac:(set_solver)). lia.
  - intros lo e _ Hcl a y [Ha|[[= -> ->]|Ha]%elem_of_cons]%elem_of_app; [apply (Hcl a y); set_solver| |apply (Hcl a y); set_solver].
    destruct (Hcl c z); [set_solver|lia..].
  - intros a y [Ha|[[= -> ->]|Ha]%elem_of_cons]%elem_of_app; [left; specialize (W1 a y Ha); lia|left; lia|right; specialize (W2 a y Ha); lia].
  - intros a y [Ha|[[= -> ->]|Ha]%elem_of_cons]%elem_of_app; pose proof (proj1 (proj2 (lv_align _ _ _ HL))) as Hal;
      [apply (Hal a y)|apply (Hal c z)|apply (Hal a y)]; set_solver.
  - exists (B1 ++ (c, z - u) :: T). split_and!; [|done..]. split; cbn [um_mem set_um_mem set_free_list um_brk free_list].
    + rewrite app_comm_cons in Hl |- *. apply lnk_app in Hl as [LP (L1 & L2 & L3)]. apply lnk_app.
      cbn [hd_addr] in *. split; [|split; [rewrite (changes_load64 _ _ _ _ Hch) by lia; exact L1|split; [exact E1|]]].
      * apply (lnk_changes _ _ _ ((base, 0) :: B1) c Hch); [|exact LP]. intros a y x [[= -> ->]|Ha]%elem_of_cons Hx; [lia|].
        specialize (W1 a y Ha). pose proof (within_elem _ _ _ a y Hw ltac:(set_solver)). lia.
      * apply (lnk_changes _ _ _ _ _ Hch); [|exact L3]. intros a y x Ha. specialize (W2 a y Ha). lia.
    + apply within_app in Hw as [Hw1 (Hw2 & _ & Hw3)]. apply within_app. split; [done|]. split_and!; [done|lia|]. eapply within_lo; [|exact Hw3]. lia.
    + done.
    + by apply (at_behind _ _ _ _ _ Hbe).
Qed.

(** *** The search *)

Lemma wp_take s B L p zp c z u fuel : list_ok s B -> live_ok s B L -> (p, zp) ∈ (base, 0) :: B -> load64 (um_mem s) p = c ->
  (c, z) ∈ B -> 1 <= u <= z -> wp (search grant (S fuel) u p c) (fun r s' => r <> 0 /\ taken s L u r s') s.
Proof.
  intros HB HL Hp Hpc Hc Hu. pose proof HB as [Hl Hw Htop _]. destruct (within_elem _ _ _ _ _ Hw Hc) as (Hc1 & Hz & Hc2).
  assert (Hsz : load64 (um_mem s) (c + 8) = z) by (apply (lnk_size _ _ _ _ _ Hl); by right).
  destruct (pred_split _ _ _ _ _ Hl Hp Hpc ltac:(lia)) as (B1 & P & z' & T & -> & Hbe).
  assert (z' = z) as ->. { rewrite <- Hsz. symmetry. apply (lnk_size _ _ _ _ _ Hl). set_solver. }
  cbn [search]. wp_step. apply wp_h_size. rewrite Hsz. case_bools.
  - wp_step. wp_step. apply wp_h_next. wp_step. apply wp_put_next. wp_steps. subst u. rewrite h_add_small by lia. split; [lia|].
    by apply (take_exact s B1 P p zp c z T L).
  - wp_step. wp_step. rewrite u64_small by lia. apply wp_put_size. rewrite h_add_small by lia. wp_step. apply wp_put_size.
    wp_steps. rewrite h_add_small by lia. split; [lia|]. apply (take_part s B1 P p zp c z T L u); try done. lia.
Qed.

(** Blocks that are too small. *)
Lemma wp_search_skip u k s (Q : Z -> umem -> Prop) c zc n : forall D p zp, lnk (um_mem s) ((p, zp) :: D ++ [(c, zc)]) n ->
  (forall a z, (a, z) ∈ D -> z < u /\ a <> free_list s) ->
  wp (search grant k u (last_addr p D) c) Q s -> wp (search grant (length D + k) u p (hd_addr c D)) Q s.
Proof.
  induction D as [|[a z] D IH]; intros p zp Hl HD HQ; [done|]. destruct (HD a z) as [Hz Ha]; [by left|].
  rewrite last_addr_cons in HQ. destruct Hl as (_ & _ & Hl). pose proof Hl as (L1 & L2 & _).
  specialize (IH a z Hl ltac:(intros b y Hb; apply (HD b y); by right) HQ). cbn [length Nat.add hd_addr]. generalize dependent (length D + k)%nat.
  intros j IH. cbn [search]. wp_step. apply wp_h_size. rewrite L2. case_bools. wp_steps. case_bools. wp_step. apply wp_h_next.
  rewrite L1, hd_addr_app. exact IH.
Qed.

Lemma lnk_last m c : forall D p zp, lnk m ((p, zp) :: D) c -> load64 m (last_addr p D) = c /\ exists z, (last_addr p D, z) ∈ (p, zp) :: D.
Proof.
  induction D as [|[a z] D IH]; intros p zp Hl.
  - destruct Hl as (H & _). split; [done|]. exists zp. by left.
  - destruct Hl as (_ & _ & Hl). rewrite last_addr_cons. destruct (IH a z Hl) as [H1 [y H2]]. split; [done|]. exists y. by right.
Qed.

(** The list from behind [free_list] around to it. *)
Lemma rotation s B : list_ok s B -> exists R zf, lnk (um_mem s) ((free_list s, zf) :: R) (free_list s) /\
  (forall x, x ∈ (base, 0) :: B <-> x ∈ (free_list s, zf) :: R) /\ (forall a z, (a, z) ∈ R -> a <> free_list s) /\ length R = length B.
Proof.
  intros [Hl Hw Htop [zf Hat]]. pose proof (within_asc _ _ _ Hw) as Ha. apply (asc_lo _ base) in Ha; [|lia].
  set (f := free_list s) in *. clearbody f. apply list_elem_of_split in Hat as (X & Y & E). exists (Y ++ X), zf.
  assert (Has : asc (base - 1) (X ++ (f, zf) :: Y)) by (rewrite <- E; split; [lia|done]).
  rewrite E in Hl. apply lnk_app in Hl as [LX (L1 & L2 & LY)]. split_and!.
  - destruct X as [|[x y] X].
    + injection E as <- <- <-. rewrite app_nil_r. done.
    + injection E as <- <- ->. cbn [hd_addr] in *. split; [by rewrite hd_addr_app|]. split; [done|]. by apply lnk_app.
  - intros x. rewrite E. set_solver.
  - apply asc_app in Has as [HX [Hf HY]]. intros a z [Hin|Hin]%elem_of_app; [pose proof (asc_elem _ _ _ _ HY Hin); lia|].
    assert (Hlt : forall W lo, asc lo W -> (a, z) ∈ W -> a <= last_addr lo W).
    { induction W as [|[w1 w2] W IH]; intros lo HW Hw'; [by apply not_elem_of_nil in Hw'|]. destruct HW as [HW1 HW2]. rewrite last_addr_cons.
      apply elem_of_cons in Hw' as [[= -> ->]|Hw']; [|by apply IH]. clear -HW2. revert w1 HW2. induction W as [|[v1 v2] W IH]; intros w1 HW2; [done|].
      destruct HW2 as [? HW2]. rewrite last_addr_cons. specialize (IH v1 HW2). lia. }
    specialize (Hlt X _ HX Hin). lia.
  - apply (f_equal length) in E. rewrite length_app in *. cbn in *. lia.
Qed.

Lemma first_fit u (C : blocks) : (forall a z, (a, z) ∈ C -> z < u) \/
  exists D c z E, C = D ++ (c, z) :: E /\ u <= z /\ forall a y, (a, y) ∈ D -> y < u.
Proof.
  induction C as [|[a z] C IH]; [left; by intros ?? ?%not_elem_of_nil|]. destruct (Z.ltb_spec z u) as [Hz|Hz].
  - destruct IH as [IH|(D & c & y & E & -> & Hy & HD)]; [left|right].
    + intros b y [[= -> ->]|Hb]%elem_of_cons; [done|by apply (IH b y)].
    + exists ((a, z) :: D), c, y, E. split_and!; [done|done|]. intros b w [[= -> ->]|Hb]%elem_of_cons; [done|by apply (HD b w)].
  - right. exists [], a, z, C. split_and!; [done|done|]. by intros ?? ?%not_elem_of_nil.
Qed.

Lemma wp_search_fit s B L u fuel : list_ok s B -> live_ok s B L -> (exists a z, (a, z) ∈ B /\ u <= z) -> 1 <= u -> (length B < fuel)%nat ->
  wp (search grant fuel u (free_list s) (load64 (um_mem s) (free_list s))) (fun r s' => r <> 0 /\ taken s L u r s') s.
Proof.
  intros HB HL (a & za & Ha & Hza) Hu Hf. destruct (rotation s B HB) as (R & zf & HR & Hin & Hne & Hlen).
  set (f := free_list s) in *. assert (Ef : f = free_list s) by done. clearbody f.
  assert (HC : lnk (um_mem s) ((f, zf) :: R ++ [(f, zf)]) (hd_addr f R)).
  { rewrite app_comm_cons. apply lnk_app. split; [exact HR|]. destruct HR as (H1 & H2 & _). split_and!; done. }
  assert (Hin' : forall x, x ∈ R ++ [(f, zf)] -> x ∈ (base, 0) :: B) by (intros x Hx; apply Hin; set_solver).
  destruct (first_fit u (R ++ [(f, zf)])) as [Hno|(D & c & z & E & EC & Hz & HD)].
  { specialize (Hno a za). assert ((a, za) ∈ (f, zf) :: R) by (apply Hin; by right). assert (za < u); [apply Hno; set_solver|lia]. }
  assert (HDR : forall b y, (b, y) ∈ D -> (b, y) ∈ R).
  { intros b y Hb. destruct E as [|e E _] using rev_ind.
    - apply app_inj_tail in EC as [-> _]. done.
    - rewrite app_comm_cons, app_assoc in EC. apply app_inj_tail in EC as [-> _]. set_solver. }
  assert (HlD : (length D <= length R)%nat) by (apply (f_equal length) in EC; rewrite !length_app in EC; cbn in EC; lia).
  assert (Hc : (c, z) ∈ (base, 0) :: B) by (apply Hin'; rewrite EC; set_solver).
  apply elem_of_cons in Hc as [[= -> ->]|Hc]; [lia|].
  rewrite EC, app_comm_cons in HC. replace (((f, zf) :: D) ++ (c, z) :: E) with (((f, zf) :: D ++ [(c, z)]) ++ E) in HC by (cbn; by rewrite <- app_assoc).
  apply lnk_app in HC as [HC _]. pose proof HC as [Hlast _]%(lnk_app _ ((f, zf) :: D) [(c, z)]). cbn [hd_addr] in Hlast.
  destruct (lnk_last _ _ _ _ _ Hlast) as [Hp [zp Hpin]].
  assert (Hload : load64 (um_mem s) f = hd_addr c D) by apply Hlast.
  rewrite Hload. replace fuel with (length D + S (fuel - S (length D)))%nat by lia.
  eapply (wp_search_skip u (S (fuel - S (length D))) s _ c z _ D f zf HC).
  - intros b y Hb. split; [by apply (HD b y)|]. rewrite <- Ef. apply (Hne b y). by apply HDR.
  - apply (wp_take s B L (last_addr f D) zp c z u); try done. apply Hin. apply elem_of_cons in Hpin as [->|Hpin]; [by left|]. right. by apply HDR.
Qed.

Lemma wp_search s B L u fuel : list_ok s B -> live_ok s B L -> 1 <= u -> 16 * u < 18446744073709551616 -> (4 * length B + 8 <= fuel)%nat ->
  wp (search grant fuel u (free_list s) (load64 (um_mem s) (free_list s)))
    (fun r s' => (r = 0 /\ s' = s /\ refused s u) \/ (r <> 0 /\ taken s L u r s')) s.
Proof.
  intros HB HL Hu Hmax Hf. destruct (first_fit u B) as [Hno|(D & c & z & E & -> & Hz & _)].
  2:{ eapply wp_mono; [apply (wp_search_fit s _ L u fuel HB HL); [|done|lia]|by right]. exists c, z. split; [set_solver|done]. }
  destruct (rotation s B HB) as (R & zf & HR & Hin & Hne & Hlen).
  assert (Hsm : forall a z, (a, z) ∈ (free_list s, zf) :: R -> z < u).
  { intros a z [[= -> ->]|Ha]%Hin%elem_of_cons; [lia|by apply (Hno a z)]. }
  assert (HC : lnk (um_mem s) ((free_list s, zf) :: R ++ [(free_list s, zf)]) (hd_addr (free_list s) R)).
  { rewrite app_comm_cons. apply lnk_app. split; [exact HR|]. destruct HR as (H1 & H2 & _). split_and!; done. }
  pose proof HR as (H1 & H2 & _). rewrite H1.
  replace fuel with (length R + S (fuel - S (length R)))%nat by lia. remember (fuel - S (length R))%nat as k eqn:Ek.
  apply (wp_search_skip u (S k) s _ (free_list s) zf _ R (free_list s) zf HC).
  { intros a z Ha. split; [apply (Hsm a z); by right|by apply (Hne a z)]. }
  cbn [search]. wp_step. apply wp_h_size. rewrite H2. pose proof (Hsm (free_list s) zf ltac:(by left)). case_bools. wp_steps. rewrite Z.eqb_refl. wp_step.
  eapply wp_mono; [apply (wp_grow_heap u s B L (S k) HB HL Hu Hmax); lia|].
  intros r s1 [(-> & -> & Href)|(-> & B1 & HB1 & HL1 & Hk & Hbig & Hlen1 & Hbrk)]; [by wp_steps; left|].
  assert (Hf0 : free_list s1 <> 0).
  { destruct (lo_at _ _ HB1) as [y [[= -> ->]|Hy]%elem_of_cons]; [lia|]. pose proof (within_elem _ _ _ _ _ (lo_within _ _ HB1) Hy). lia. }
  case_bools. wp_step. apply wp_h_next. eapply wp_mono; [apply (wp_search_fit s1 B1 L u k HB1 HL1 Hbig Hu); lia|].
  intros r s' [Hr (B' & ? & ? & ? & Hk' & ?)]. right. split; [done|]. exists B'. split_and!; try done; [by eapply blocks_kept_trans|lia].
Qed.

(** *** malloc *)

Definition heap_ok (s : umem) (L : gmap Z Z) : Prop :=
  (free_list s = 0 /\ L = ∅ /\ um_brk s mod 16 = 0 /\ hs <= um_brk s <= 4611686018427387904) \/
  exists B, list_ok s B /\ live_ok s B L.

Definition units_of (size : Z) : Z := u64 (u64 (size + HEADER - 1) / HEADER + 1).

(** More than the number of blocks the loops visit. *)
Definition steps (s : umem) : nat := Z.to_nat ((um_brk s - hs) / 4 + 12).
Lemma within_length lo B hi : within lo B hi -> 17 * Z.of_nat (length B) <= hi - lo.
Proof. revert lo. induction B as [|[a z] B IH]; intros lo H; [cbn in *; lia|]. destruct H as (? & ? & ?%IH). cbn [length]. lia. Qed.
Lemma steps_enough s B : list_ok s B -> (4 * length B + 8 <= steps s)%nat.
Proof. intros [_ Hw%within_length _ _]. unfold steps. lia. Qed.

Lemma heap_init s : free_list s = 0 -> um_brk s mod 16 = 0 -> hs <= um_brk s <= 4611686018427387904 ->
  let s0 := set_um_mem (store64 (store64 (um_mem s) base base) (base + 8) 0) (set_free_list base s) in
  list_ok s0 [] /\ live_ok s0 [] ∅.
Proof.
  intros Hf Hal Hb s0. split; split; cbn [um_mem set_um_mem set_free_list um_brk free_list s0].
  - cbn [lnk hd_addr]. split_and!; [|apply load64_store64_eq; lia|done]. rewrite load64_store64_ne by lia. apply load64_store64_eq. lia.
  - cbn. lia.
  - done.
  - exists 0. by left.
  - intros p n. by rewrite lookup_empty.
  - intros p n q k. by rewrite lookup_empty.
  - intros p n. by rewrite lookup_empty.
  - split_and!; [done|by intros ?? ?%not_elem_of_nil|]. intros p n. by rewrite lookup_empty.
Qed.

(** A call of malloc that asks for [u] units. *)
Lemma wp_malloc_units s L size fuel : heap_ok s L -> size <> 0 -> let u := units_of size in 1 <= u -> 16 * u < 18446744073709551616 -> (steps s <= fuel)%nat ->
  wp (malloc base grant fuel size) (fun r s' => kept L (um_mem s) (um_mem s') /\ um_brk s <= um_brk s' /\
    ((r = 0 /\ refused s u /\ heap_ok s' L) \/ (r <> 0 /\ L !! r = None /\ heap_ok s' (<[r := u]> L)))) s.
Proof.
  intros Hok H0 u Hu Hmax Hf. unfold malloc. fold (units_of size). fold u. case_bools. clearbody u.
  assert (Hgo : forall s1 B, list_ok s1 B -> live_ok s1 B L -> um_brk s1 = um_brk s -> kept L (um_mem s) (um_mem s1) ->
    wp (prev <- gets free_list ;; cur <- h_next prev ;; search grant fuel u prev cur)
      (fun r s' => kept L (um_mem s) (um_mem s') /\ um_brk s <= um_brk s' /\
        ((r = 0 /\ refused s u /\ heap_ok s' L) \/ (r <> 0 /\ L !! r = None /\ heap_ok s' (<[r := u]> L)))) s1).
  { intros s1 B HB HL Eb Hk. pose proof (steps_enough _ _ HB) as Hs. unfold steps in *. rewrite Eb in Hs. wp_steps. apply wp_h_next.
    eapply wp_mono; [apply (wp_search s1 B L u fuel HB HL Hu Hmax); lia|].
    intros r s' [(-> & -> & Hr)|(Hr & B' & HB' & HL' & Hn & Hk' & Hb')].
    - split_and!; [done|lia|]. left. unfold refused in *. rewrite Eb in Hr. split_and!; [done|done|]. right. by exists B.
    - split_and!; [by eapply blocks_kept_trans|lia|]. right. split_and!; [done|done|]. right. by exists B'. }
  wp_steps. destruct Hok as [(Hfl & -> & Hal & Hb)|(B & HB & HL)].
  - rewrite Hfl. cbn [Z.eqb]. wp_step. apply wp_put_next. wp_steps. apply wp_put_size. destruct (heap_init s Hfl Hal Hb) as [HB HL].
    apply (Hgo _ _ HB HL); [done|]. intros p k x. by rewrite lookup_empty.
  - assert (free_list s <> 0).
    { destruct (lo_at _ _ HB) as [y [[= -> ->]|Hy]%elem_of_cons]; [lia|]. pose proof (within_elem _ _ _ _ _ (lo_within _ _ HB) Hy). lia. }
    case_bools. wp_steps. by apply (Hgo s B).
Qed.

Lemma units_of_fit size : 0 < size <= 18446744073709551584 -> units_of size = (size + 15) / 16 + 1.
Proof. intros H. unfold units_of, HEADER. rewrite (u64_small (size + 16 - 1)) by lia. rewrite u64_small by lia. lia. Qed.

(** *** free and writes of the program *)

Lemma wp_free s L p fuel : heap_ok s L -> is_Some (L !! p) -> (steps s <= fuel)%nat ->
  wp (free fuel p) (fun _ s' => heap_ok s' (delete p L) /\ um_brk s' = um_brk s /\ kept (delete p L) (um_mem s) (um_mem s')) s.
Proof.
  intros [(_ & -> & _)|(B & HB & HL)] [n Hp] Hf; [by rewrite lookup_empty in Hp|]. pose proof (steps_enough _ _ HB).
  eapply wp_mono; [apply (wp_free_live p n s B L fuel HB HL Hp); lia|]. intros _ s' (B' & HB' & HL' & Hb & Hk).
  split_and!; [|done|done]. right. by exists B'.
Qed.

(** The program writes into the payload of a block. *)
Definition payload (L : gmap Z Z) : gmap Z Z := (fun u => 16 * (u - 1)) <$> L.
Lemma live_payload L b : live_byte (payload L) b -> exists p n, L !! p = Some n /\ p <= b < p - 16 + 16 * n.
Proof.
  intros (p & k & Hp & Hb). unfold payload in Hp. rewrite lookup_fmap in Hp. destruct (L !! p) as [n|] eqn:E; [|done].
  injection Hp as <-. exists p, n. split; [done|lia].
Qed.
Lemma heap_write s L m' : heap_ok s L -> changes (um_mem s) m' (live_byte (payload L)) -> heap_ok (set_um_mem m' s) L.
Proof.
  intros [(Hf & -> & Hb)|(B & HB & HL)] Hch; [by left|right]. exists B.
  assert (Hx : forall x p n, live_byte (payload L) x -> L !! p = Some n -> ~ (p - 16 <= x < p)).
  { intros x p n (q & k & Hq & Hxq)%live_payload Hp Hxp. destruct (decide (p = q)) as [->|Hne]; [lia|].
    destruct (lv_block _ _ _ HL q k Hq) as (_ & ? & _). destruct (lv_block _ _ _ HL p n Hp) as (_ & ? & _).
    destruct (lv_apart _ _ _ HL p n q k Hp Hq Hne); lia. }
  split; split; cbn [um_mem set_um_mem um_brk free_list]; try apply HB; try apply HL.
  - apply (lnk_changes _ _ _ _ _ Hch); [|apply HB]. intros a z x Ha Hax (q & k & Hq & Hxq)%live_payload.
    destruct (lv_block _ _ _ HL q k Hq) as (? & ? & ? & _). apply elem_of_cons in Ha as [[= -> ->]|Ha]; [lia|].
    pose proof (within_elem _ _ _ _ _ (lo_within _ _ HB) Ha). destruct (lv_clear _ _ _ HL q k Hq a z Ha); lia.
  - intros p n Hp. destruct (lv_block _ _ _ HL p n Hp) as (? & ? & ? & E). rewrite (changes_load64 _ _ _ _ Hch); [done|].
    intros x Hxp Hl. apply (Hx x p n Hl Hp). lia.
Qed.

(** ** The heap of a process *)

Definition run_umop (op : hop) : M umem Z :=
  match op with
  | HMalloc n => s <- get ;; malloc base grant (steps s) n
  | HFree p => s <- get ;; free (steps s) p ;; ret 0
  | HWrite b c => modify (fun s => set_um_mem (store8 (um_mem s) b c) s) ;; ret 0
  end.
Definition malloc_sizes (n : Z) : Prop := 0 <= n <= 18446744073709551584.
Definition malloc_fails (s : umem) (n : Z) : Prop := n = 0 \/ refused s (units_of n).
Definition implements_uheap (s : umem) (a : aheap) : Prop :=
  (exists L, heap_ok s L /\ ah_live a = payload L) /\ forall b, live_byte (ah_live a) b -> load8 (um_mem s) b = ah_data a b.

Lemma kept_payload L m m' b : kept L m m' -> live_byte (payload L) b -> load8 m' b = load8 m b.
Proof. intros Hk (p & n & Hp & Hb)%live_payload. apply (Hk p n b Hp). lia. Qed.

Lemma malloc_simulates s L n : heap_ok s L -> malloc_sizes n ->
  wp (run_umop (HMalloc n)) (fun r s' => exists L', heap_ok s' L' /\ kept L (um_mem s) (um_mem s') /\
    ((r = 0 /\ L' = L /\ malloc_fails s n) \/
     (n <= 16 * (units_of n - 1) /\ r <> 0 /\ L !! r = None /\ L' = <[r := units_of n]> L))) s.
Proof.
  intros Hok Hn. unfold run_umop, malloc_fails, malloc_sizes in *. wp_steps. destruct (decide (n = 0)) as [->|H0].
  { unfold malloc. cbn [Z.eqb]. wp_steps. exists L. split_and!; [done|by intros ?|left]. split_and!; [done|done|by left]. }
  pose proof (units_of_fit n ltac:(lia)) as E. eapply wp_mono; [apply (wp_malloc_units s L n (steps s) Hok H0); lia|].
  intros r s' (Hk & _ & [(-> & Hr & Hok')|(Hr & Hn' & Hok')]).
  - exists L. split_and!; [done|done|left]. split_and!; [done|done|by right].
  - exists (<[r := units_of n]> L). split_and!; [done|done|right]. split_and!; [lia|done|done|done].
Qed.

Lemma heap_ok_block s L p n : heap_ok s L -> L !! p = Some n -> 0 < p /\ 1 <= n /\ p mod 16 = 0 /\
  forall q k, L !! q = Some k -> p <> q -> p + 16 * n <= q \/ q + 16 * k <= p.
Proof.
  intros [(_ & -> & _)|(B & HB & HL)] Hp; [by rewrite lookup_empty in Hp|]. destruct (lv_block _ _ _ HL p n Hp) as (? & ? & ? & _).
  split_and!; [lia|done|by apply (lv_align _ _ _ HL) in Hp|]. intros q k Hq. by apply (lv_apart _ _ _ HL).
Qed.

Lemma umop_simulates s a op : implements_uheap s a -> legal_hop malloc_sizes a op ->
  wp (run_umop op) (fun r s' => exists a', hstep (malloc_fails s) a op r a' /\ implements_uheap s' a') s.
Proof.
  intros [(L & Hok & EL) Hdata] Hlegal. destruct a as [la da]. cbn [ah_live ah_data] in *. subst la. destruct op as [n|p|b c]; cbn [legal_hop hstep ah_live ah_data] in *.
  - eapply wp_mono; [by apply (malloc_simulates s L n Hok)|]. intros r s' (L' & Hok' & Hk & Hr).
    exists (mkHeap (payload L') (load8 (um_mem s'))). split; [|split; [by exists L'|done]]. cbn [ah_live ah_data]. split.
    { intros b Hb. cbn [ah_data]. rewrite (kept_payload L _ _ b Hk Hb). by apply Hdata. }
    destruct Hr as [(-> & -> & Hf)|(Hfit & Hr0 & Hnone & ->)]; [by left|right]. exists (16 * (units_of n - 1)).
    destruct (heap_ok_block s' _ r (units_of n) Hok' ltac:(by rewrite lookup_insert_eq)) as (_ & Hu & Hal & Hap).
    split_and!; [done|done|done|unfold payload; by rewrite lookup_fmap, Hnone| |unfold payload; by rewrite fmap_insert].
    intros q j Hq. unfold payload in Hq. rewrite lookup_fmap in Hq. destruct (L !! q) as [k|] eqn:E; [|done]. injection Hq as <-.
    assert (Hne : r <> q) by (intros ->; congruence). destruct (Hap q k ltac:(by rewrite lookup_insert_ne) Hne); lia.
  - assert (H0 : L !! 0 = None). { destruct (L !! 0) as [k|] eqn:E; [|done]. destruct (heap_ok_block s L 0 k Hok E). lia. }
    unfold run_umop. wp_steps. destruct Hlegal as [->|Hp].
    + unfold free. cbn [Z.eqb]. wp_steps. exists (mkHeap (payload L) da). split; [|split; [by exists L|done]]. cbn [ah_live].
      rewrite delete_id by (unfold payload; by rewrite lookup_fmap, H0). split; [done|by intros b].
    + assert (Hp' : is_Some (L !! p)). { unfold payload in Hp. rewrite lookup_fmap in Hp. by apply fmap_is_Some in Hp. }
      eapply wp_mono; [by apply (wp_free s L p (steps s) Hok)|]. intros _ s' (Hok' & _ & Hk). wp_step.
      exists (mkHeap (payload (delete p L)) (load8 (um_mem s'))). split; [|split; [by exists (delete p L)|done]]. cbn [ah_live ah_data].
      split; [unfold payload; by rewrite fmap_delete|]. intros b Hb. cbn [ah_data]. rewrite (kept_payload _ _ _ b Hk Hb). apply Hdata.
      destruct Hb as (q & j & Hq & ?). exists q, j. split; [|done]. unfold payload in *. rewrite fmap_delete in Hq. by apply lookup_delete_Some in Hq as [_ Hq].
  - unfold run_umop. wp_steps. exists (mkHeap (payload L) (load8 (store8 (um_mem s) b c))). cbn [ah_live ah_data]. split; [split_and!; [done| |]|split; [|done]].
    + by rewrite load8_store8, Z.eqb_refl.
    + intros b' Hne Hb'. rewrite load8_store8. destruct (Z.eqb_spec b' b); [done|]. by apply Hdata.
    + exists L. split; [|done]. apply (heap_write s L _ Hok). intros x Hx. rewrite load8_store8. destruct (Z.eqb_spec x b) as [->|]; [done|done].
Qed.

Lemma fresh_implements s : free_list s = 0 -> um_brk s mod 16 = 0 -> hs <= um_brk s <= 4611686018427387904 ->
  implements_uheap s (mkHeap ∅ (load8 (um_mem s))).
Proof. intros Hf Hal Hb. split; [|done]. exists ∅. split; [by left|]. unfold payload. by rewrite fmap_empty. Qed.

(** C20: The allocator of the C library is a heap for programs that free only what
    they got and write only into their blocks: it starts empty, the blocks in use
    never overlap, are as large as asked for and aligned to 16 bytes, and keep their
    contents until they are freed; malloc fails only when the kernel refuses to move
    the break.  The theorem covers every size up to 2^64 - 32 and every order of
    calls. *)
Theorem malloc_refines_heap :
  (forall s, free_list s = 0 -> um_brk s mod 16 = 0 -> hs <= um_brk s <= 4611686018427387904 ->
    implements_uheap s (mkHeap ∅ (load8 (um_mem s)))) /\
  (forall s a op, implements_uheap s a -> legal_hop malloc_sizes a op ->
    wp (run_umop op) (fun r s' => exists a', hstep (malloc_fails s) a op r a' /\ implements_uheap s' a') s).
Proof. split; [apply fresh_implements|apply umop_simulates]. Qed.

(** *** The loops end *)

Lemma find_place_more b s x k : forall fuel c, find_place fuel b c s = Some x -> find_place (fuel + k) b c s = Some x.
Proof.
  induction fuel as [|fuel IH]; intros c H; [done|]. cbn [Nat.add find_place] in *. unfold bind, h_next, gets in *.
  destruct ((c <? b) && (b <? load64 (um_mem s) c)); [done|]. destruct ((load64 (um_mem s) c <=? c) && _); [done|by apply IH].
Qed.
(** [c'] ends where [c] does. *)
Definition extends {A} (c c' : M umem A) : Prop := forall s x, c s = Some x -> c' s = Some x.
Lemma uheap_extends_refl {A} (c : M umem A) : extends c c.
Proof. intros s x H. exact H. Qed.
Lemma extends_bind {A B} (c c' : M umem A) (k k' : A -> M umem B) : extends c c' -> (forall a, extends (k a) (k' a)) -> extends (bind c k) (bind c' k').
Proof. intros Hc Hk s x. unfold bind. destruct (c s) as [[a s']|] eqn:E; [|done]. rewrite (Hc _ _ E). apply Hk. Qed.
Ltac extend := repeat (apply extends_bind; [apply uheap_extends_refl|intros ?]).
Lemma free_more fuel k p : extends (free fuel p) (free (fuel + k) p).
Proof.
  unfold free. destruct (p =? 0); [apply uheap_extends_refl|]. extend. apply extends_bind; [|intros ?; apply uheap_extends_refl].
  intros s x. apply find_place_more.
Qed.
Lemma grow_heap_more fuel k u : extends (grow_heap grant fuel u) (grow_heap grant (fuel + k) u).
Proof.
  unfold grow_heap. extend. destruct (_ =? MINUS_ONE); [apply uheap_extends_refl|]. extend.
  apply extends_bind; [apply free_more|intros ?; apply uheap_extends_refl].
Qed.
Lemma search_more k u : forall fuel p c, extends (search grant fuel u p c) (search grant (fuel + k) u p c).
Proof.
  induction fuel as [|fuel IH]; intros p c; [intros s x [=]|]. cbn [Nat.add search]. extend. destruct (u <=? _); [apply uheap_extends_refl|]. extend.
  destruct (c =? _).
  - apply extends_bind; [apply (grow_heap_more (S fuel) k)|intros r]. destruct (r =? 0); [apply uheap_extends_refl|]. extend. apply IH.
  - extend. apply IH.
Qed.
Lemma malloc_more fuel k n : extends (malloc base grant fuel n) (malloc base grant (fuel + k) n).
Proof. unfold malloc. destruct (n =? 0); [apply uheap_extends_refl|]. extend. apply search_more. Qed.

(** C21: The loops of malloc and free end: on a heap of [um_brk s - hs] bytes they
    take at most a quarter as many iterations, plus 12, and further fuel does not
    change the result. *)
Theorem malloc_terminates s a n p fuel :
  implements_uheap s a -> malloc_sizes n -> is_Some (ah_live a !! p) -> (Z.to_nat ((um_brk s - hs) / 4 + 12) <= fuel)%nat ->
  (exists r s', malloc base grant fuel n s = Some (r, s') /\ run_umop (HMalloc n) s = Some (r, s')) /\
  (exists s', free fuel p s = Some (tt, s') /\ run_umop (HFree p) s = Some (0, s')).
Proof.
  intros Himp Hn Hp Hf. fold (steps s) in Hf. replace fuel with (steps s + (fuel - steps s))%nat by lia.
  pose proof (umop_simulates s a (HMalloc n) Himp Hn) as (r & s' & E & _)%wp_run.
  pose proof (umop_simulates s a (HFree p) Himp ltac:(by right)) as (r1 & s1 & E1 & _)%wp_run.
  split; [exists r, s'|exists s1].
  - split; [|done]. by apply malloc_more.
  - unfold run_umop, bind, get, ret in E1 |- *. destruct (free (steps s) p s) as [[[] s2]|] eqn:E2; [|done]. injection E1 as <- <-.
    split; [by apply free_more|done].
Qed.

(** *** calloc *)

Definition run_calloc (nmemb size : Z) : M umem Z := s <- get ;; calloc base grant (steps s) nmemb size.

(** Calloc refuses a product that does not fit in 64 bits without touching the
    heap, and otherwise allocates like malloc a block whose bytes are zero. *)
Theorem calloc_correct s a nmemb size : implements_uheap s a -> 0 <= nmemb < 18446744073709551616 -> 0 <= size < 18446744073709551616 ->
  nmemb * size <= 18446744073709551584 \/ 18446744073709551616 <= nmemb * size ->
  wp (run_calloc nmemb size) (fun r s' =>
    (18446744073709551616 <= nmemb * size /\ r = 0 /\ s' = s) \/
    exists a', hstep (malloc_fails s) a (HMalloc (nmemb * size)) r a' /\ implements_uheap s' a' /\
      (r <> 0 -> forall b, r <= b < r + nmemb * size -> ah_data a' b = 0)) s.
Proof.
  intros Himp Hn Hs Hp. unfold run_calloc, calloc. wp_steps.
  assert (E : negb (nmemb =? 0) && (MINUS_ONE / nmemb <? size) = (18446744073709551616 <=? nmemb * size)).
  { unfold MINUS_ONE. destruct (Z.eqb_spec nmemb 0) as [->|H0]; [cbn [negb andb]; by destruct (Z.leb_spec 18446744073709551616 (0 * size)); [lia|]|]. cbn [negb andb].
    pose proof (Z.mul_div_le 18446744073709551615 nmemb ltac:(lia)). pose proof (Z.mul_succ_div_gt 18446744073709551615 nmemb ltac:(lia)).
    destruct (Z.ltb_spec (18446744073709551615 / nmemb) size), (Z.leb_spec 18446744073709551616 (nmemb * size)); try done; nia. }
  rewrite E. destruct (Z.leb_spec 18446744073709551616 (nmemb * size)) as [Hbig|Hfit]; [wp_steps; by left|].
  assert (Hsz : 0 <= nmemb * size <= 18446744073709551584) by (split; [apply Z.mul_nonneg_nonneg|]; lia). clear Hp E. rewrite u64_small by lia.
  generalize dependent (nmemb * size). intros n Hlt Hsz. wp_step. pose proof (umop_simulates s a (HMalloc n) Himp Hsz) as H.
  unfold run_umop in H. apply wp_bind_inv in H. change (wp (malloc base grant (steps s) n) (fun r s' => exists a', hstep (malloc_fails s) a (HMalloc n) r a' /\ implements_uheap s' a') s) in H.
  eapply wp_mono; [exact H|]. clear H. intros r s' (a' & Hstep & (L & Hok & EL) & Hdata).
  destruct (Z.eqb_spec r 0) as [->|Hr]; wp_steps; right; [exists a'; split_and!; [done|split; [by exists L|done]|done]|].
  cbn [hstep] in Hstep. destruct Hstep as [Hsame [(? & _)|(k & Hk & _ & Hal & Hnone & Hap & Ha')]]; [done|].
  assert (Hin : forall b, r <= b < r + n -> live_byte (ah_live a') b).
  { intros b Hb. exists r, k. rewrite Ha', lookup_insert_eq. split; [done|lia]. }
  assert (Hms : forall b, load8 (memset (um_mem s') r 0 n) b = if (r <=? b) && (b <? r + n) then 0 else load8 (um_mem s') b).
  { intros b. rewrite memset_spec by lia. done. }
  exists (mkHeap (ah_live a') (load8 (memset (um_mem s') r 0 n))). cbn [ah_live ah_data hstep]. split_and!.
  - intros b Hb. cbn [ah_data]. rewrite Hms. destruct Hb as (q & j & Hq & Hbq). destruct (Hap q j Hq); case_bools; rewrite <- Hsame by (by exists q, j); apply Hdata; rewrite Ha'; exists q, j; (rewrite lookup_insert_ne; [done|intros ->; congruence]).
  - right. by exists k.
  - split; [|done]. exists L. split; [|done]. apply (heap_write s' L _ Hok). intros b Hb. rewrite Hms. case_bools. destruct Hb. rewrite <- EL. apply Hin. lia.
  - intros _ b Hb. rewrite Hms. case_bools.
Qed.

(** *** Sizes that wrap around *)

(** C38: A size in the last 15 values of 64 bits wraps around to one unit: malloc
    returns a block without a single byte of payload as if it had that size, where
    it should fail. *)
Theorem malloc_wraps s a n : implements_uheap s a -> 18446744073709551601 <= n < 18446744073709551616 ->
  grant (um_brk s) (um_brk s + 4096) = true ->
  wp (run_umop (HMalloc n)) (fun r s' => r <> 0 /\ exists a', ah_live a' = <[r := 0]> (ah_live a) /\ implements_uheap s' a') s.
Proof.
  intros [(L & Hok & EL) Hdata] Hn Hg. unfold run_umop. wp_steps.
  assert (E : units_of n = 1).
  { unfold units_of, HEADER. assert (Hw : u64 (n + 16 - 1) / 16 = 0); [|by rewrite Hw]. unfold u64. lia. }
  eapply wp_mono; [apply (wp_malloc_units s L n (steps s) Hok); rewrite ?E; lia|]. rewrite E.
  intros r s' (Hk & _ & [(_ & [Href|Href] & _)|(Hr & Hnone & Hok')]).
  - unfold asked, MIN_ALLOC_UNITS in Href. cbn in Href. lia.
  - change (asked 1) with 4096 in Href. by rewrite Hg in Href.
  - split; [done|]. exists (mkHeap (<[r := 0]> (ah_live a)) (load8 (um_mem s'))). split; [done|]. split; [|done]. exists (<[r := 1]> L). split; [done|].
    cbn [ah_live]. rewrite EL. unfold payload. by rewrite fmap_insert.
Qed.
End proofs.

(** ** Instances *)

(** A process whose heap starts at 0x20000 and that may have 1 MiB. *)
Definition demo_base : Z := 0x10000.
Definition demo_hs : Z := 0x20000.
Definition demo_grant (cur addr : Z) : bool := addr <=? 0x120000.
Definition demo_um : umem := mkUmem ∅ 0 demo_hs.

Lemma demo_base_ok : 0 < demo_base /\ demo_base + 16 <= demo_hs.
Proof. vm_compute. split; [reflexivity|discriminate]. Qed.
Lemma demo_grant_ok cur a : demo_grant cur a = true -> a <= 4611686018427387904.
Proof. unfold demo_grant. intros H%Z.leb_le. lia. Qed.

Lemma malloc_refines_heap_witness :
  wp (p <- run_umop demo_base demo_grant demo_hs (HMalloc 40) ;; run_umop demo_base demo_grant demo_hs (HFree p))
    (fun _ s' => exists a', implements_uheap demo_base demo_hs s' a') demo_um.
Proof.
  destruct (malloc_refines_heap demo_base demo_grant demo_hs demo_base_ok demo_grant_ok) as [Hinit Hstep].
  assert (H0 : implements_uheap demo_base demo_hs demo_um (mkHeap ∅ (load8 (um_mem demo_um)))).
  { apply Hinit; [reflexivity|reflexivity|vm_compute; split; discriminate]. }
  apply wp_bind. eapply wp_mono; [apply (Hstep demo_um _ (HMalloc 40) H0); vm_compute; split; discriminate|].
  intros p s1 (a1 & [_ Hres] & H1). eapply wp_mono; [apply (Hstep s1 a1 (HFree p) H1)|].
  - destruct Hres as [(Hp & _)|(k & _ & _ & _ & _ & _ & Ha)]; [left; exact Hp|right]. rewrite Ha, lookup_insert_eq. eexists. reflexivity.
  - intros r s2 (a2 & _ & H2). exists a2. exact H2.
Defined.

Definition demo_um1 : umem := snd (default (0, demo_um) (run_umop demo_base demo_grant demo_hs (HMalloc 40) demo_um)).
Definition demo_heap1 : aheap := mkHeap {[135120 := 48]} (load8 (um_mem demo_um1)).
Lemma demo_malloc : run_umop demo_base demo_grant demo_hs (HMalloc 40) demo_um = Some (135120, demo_um1).
Proof. vm_compute. reflexivity. Qed.
Lemma demo_heap1_ok : implements_uheap demo_base demo_hs demo_um1 demo_heap1.
Proof.
  assert (H0 : heap_ok demo_base demo_hs demo_um ∅).
  { left. split_and!; [reflexivity|reflexivity|reflexivity|vm_compute; discriminate|vm_compute; discriminate]. }
  assert (Hn : malloc_sizes 40) by (vm_compute; split; discriminate).
  pose proof (malloc_simulates demo_base demo_grant demo_hs demo_base_ok demo_grant_ok demo_um ∅ 40 H0 Hn) as H.
  unfold wp in H. rewrite demo_malloc in H. destruct H as (L & Hok & _ & [(H & _)|(_ & _ & _ & EL)]); [discriminate|].
  split; [|intros b _; exact eq_refl]. exists L. split; [exact Hok|]. rewrite EL. vm_compute. reflexivity.
Qed.

Lemma malloc_terminates_witness :
  exists r s', malloc demo_base demo_grant 5000 100 demo_um1 = Some (r, s') /\ run_umop demo_base demo_grant demo_hs (HMalloc 100) demo_um1 = Some (r, s').
Proof.
  apply (malloc_terminates demo_base demo_grant demo_hs demo_base_ok demo_grant_ok demo_um1 demo_heap1 100 135120 5000 demo_heap1_ok).
  - vm_compute. split; discriminate.
  - vm_compute. eexists. reflexivity.
  - apply Nat.leb_le. vm_compute. reflexivity.
Defined.

Lemma calloc_correct_witness :
  wp (run_calloc demo_base demo_grant demo_hs 3 20) (fun r s' => r = 0 \/ exists a', implements_uheap demo_base demo_hs s' a') demo_um1.
Proof.
  eapply wp_mono; [apply (calloc_correct demo_base demo_grant demo_hs demo_base_ok demo_grant_ok demo_um1 demo_heap1 3 20 demo_heap1_ok); lia|].
  intros r s' [(_ & H & _)|(a' & _ & H & _)]; [left; exact H|right; exists a'; exact H].
Defined.

Lemma malloc_wraps_witness :
  wp (run_umop demo_base demo_grant demo_hs (HMalloc 18446744073709551615)) (fun r s' => r <> 0) demo_um1.
Proof.
  eapply wp_mono; [apply (malloc_wraps demo_base demo_grant demo_hs demo_base_ok demo_grant_ok demo_um1 demo_heap1 18446744073709551615 demo_heap1_ok); [lia|reflexivity]|].
  intros r s' [H _]. exact H.
Defined.

(** The 16 sizes before those wrap around to a request of no bytes from the kernel:
    the block that malloc then returns lies above the break. *)
Lemma malloc_above_break :
  exists s', run_umop demo_base demo_grant demo_hs (HMalloc 18446744073709551600) demo_um = Some (demo_hs + 16, s') /\ um_brk s' = demo_hs.
Proof. eexists. split; vm_compute; reflexivity. Qed.
