(* ===== verification/Vfs.v ===== *)
(** * The virtual file system (vfs.c)

    The tree of nodes in the kernel heap.  C strings are byte lists without a
    zero byte; the byte at the end of the list reads as 0. *)

From S2P Require Import Prelude Heap.

Abbreviation str := (list Z).

(** [s[0]], for a C string. *)
Definition chr (s : str) : Z := match s with [] => 0 | c :: _ => c end.
Definition slash : Z := 47.

Inductive vfs_node_type := VFS_FILE | VFS_DIRECTORY.
#[export] Instance vfs_node_type_eq_dec : EqDecision vfs_node_type.
Proof. solve_decision. Defined.

Record vnode := mkVnode {
  vn_name : str;
  vn_type : vfs_node_type;
  vn_size : Z;
  vn_data : Z;
  vn_parent : Z;
  vn_children : Z;
  vn_next : Z;
}.
Definition set_vn_parent (v : Z) (n : vnode) : vnode :=
  mkVnode (vn_name n) (vn_type n) (vn_size n) (vn_data n) v (vn_children n) (vn_next n).
Definition set_vn_children (v : Z) (n : vnode) : vnode :=
  mkVnode (vn_name n) (vn_type n) (vn_size n) (vn_data n) (vn_parent n) v (vn_next n).
Definition set_vn_next (v : Z) (n : vnode) : vnode :=
  mkVnode (vn_name n) (vn_type n) (vn_size n) (vn_data n) (vn_parent n) (vn_children n) v.
Definition set_vn_file (size data : Z) (n : vnode) : vnode :=
  mkVnode (vn_name n) (vn_type n) size data (vn_parent n) (vn_children n) (vn_next n).

(** [sizeof(vfs_node_t)]. *)
Definition VFS_NODE_SIZE : Z := 168.

Record vfs (H : Type) := mkVfs { vfs_heap : H; nodes : gmap Z vnode; vfs_root : Z }.
Arguments mkVfs {H}. Arguments vfs_heap {H}. Arguments nodes {H}. Arguments vfs_root {H}.

(** ** Strings *)

Fixpoint strncmp_path (s1 s2 : str) (n : nat) : Z :=
  match n with
  | O => 0
  | S n' => if negb (chr s1 =? 0) && (chr s1 =? chr s2)
            then strncmp_path (tail s1) (tail s2) n'
            else chr s1 - chr s2
  end.

(** Skipping the slashes a path starts with. *)
Fixpoint skip_slashes (p : str) : str :=
  match p with
  | c :: p' => if c =? slash then skip_slashes p' else p
  | [] => []
  end.

(** The segment up to the next slash, and what starts at that slash. *)
Fixpoint segment (p : str) : str * str :=
  match p with
  | [] => ([], [])
  | c :: p' => if c =? slash then ([], p) else let '(s, r) := segment p' in (c :: s, r)
  end.

Section ops.
Context {H : Type} `{HeapOps H}.
Abbreviation F := (M (vfs H)).

Definition nget {A} (f : vnode -> A) (p : Z) : F A := fun s =>
  match nodes s !! p with Some n => Some (f n, s) | None => None end.
Definition nset (g : vnode -> vnode) (p : Z) : F unit := fun s =>
  match nodes s !! p with
  | Some n => Some (tt, mkVfs (vfs_heap s) (<[p := g n]> (nodes s)) (vfs_root s))
  | None => None
  end.
Definition on_heap {A} (c : M H A) : F A := fun s =>
  match c (vfs_heap s) with
  | Some (a, h) => Some (a, mkVfs h (nodes s) (vfs_root s))
  | None => None
  end.

(** The name copied by [vfs_create_node]: up to a slash and at most 127 bytes. *)
Definition node_name (name : str) : str := take 127 (fst (segment name)).

(** [memset] through the pointer of a failed allocation is undefined. *)
Definition vfs_create_node (name : str) (type : vfs_node_type) : F Z :=
  p <- on_heap (kmalloc VFS_NODE_SIZE) ;;
  if p =? 0 then undef else
  modify (fun s => mkVfs (vfs_heap s) (<[p := mkVnode (node_name name) type 0 0 0 0 0]> (nodes s)) (vfs_root s)) ;;
  ret p.

Definition init_vfs : F unit :=
  p <- vfs_create_node [slash] VFS_DIRECTORY ;;
  modify (fun s => mkVfs (vfs_heap s) (nodes s) p).

Definition vfs_add_child (parent child : Z) : F unit :=
  nset (set_vn_parent parent) child ;;
  c <- nget vn_children parent ;;
  nset (set_vn_next c) child ;;
  nset (set_vn_children child) parent.

(** The loop over the children, for the segment of length [len] at [path]. *)
Fixpoint find_child (child : Z) (path : str) (len : nat) (fuel : nat) : F Z :=
  match fuel with
  | O => undef
  | S fuel' =>
      if child =? 0 then ret 0 else
      name <- nget vn_name child ;;
      if (strncmp_path name path len =? 0) && (chr (drop len name) =? 0) then ret child
      else
        nx <- nget vn_next child ;;
        find_child nx path len fuel'
  end.

Fixpoint find_node (parent : Z) (path : str) (fuel : nat) : F Z :=
  match fuel with
  | O => undef
  | S fuel' =>
      if (parent =? 0) || (chr path =? 0) then ret parent else
      let path := skip_slashes path in
      if chr path =? 0 then ret parent else
      let '(seg, next_slash) := segment path in
      let rest := match next_slash with c :: r => r | [] => [] end in
      c <- nget vn_children parent ;;
      s <- get ;;
      child <- find_child c path (length seg) (S (size (nodes s))) ;;
      if child =? 0 then ret 0 else find_node child rest fuel'
  end.
Definition vfs_find_node (parent : Z) (path : str) : F Z := find_node parent path (S (length path)).

(** The loop of [create_directories]; [buffer] has 128 bytes, a segment that does
    not fit with its terminator is written outside it. *)
Fixpoint create_dirs (current : Z) (p : str) (fuel : nat) : F Z :=
  match fuel with
  | O => undef
  | S fuel' =>
      match p with
      | [] => ret current
      | _ =>
          let '(seg, next_slash) := segment p in
          match next_slash with
          | [] => ret current
          | _ :: rest =>
              if (128 <=? Z.of_nat (length seg)) then undef else
              child <- vfs_find_node current seg ;;
              child <- (if child =? 0 then
                          c <- vfs_create_node seg VFS_DIRECTORY ;;
                          vfs_add_child current c ;;
                          ret c
                        else ret child) ;;
              create_dirs child rest fuel'
          end
      end
  end.
Definition create_directories (path : str) : F Z :=
  root <- gets vfs_root ;;
  create_dirs root path (S (length path)).
End ops.

(** ** Paths as lists of segments *)

Fixpoint split_path (p : str) : list str :=
  match p with
  | [] => [[]]
  | c :: p' =>
      if c =? slash then [] :: split_path p'
      else match split_path p' with s :: r => (c :: s) :: r | [] => [[c]] end
  end.
Definition nonempty (s : str) : bool := match s with [] => false | _ => true end.
Definition segments (p : str) : list str := filter nonempty (split_path p).

Lemma segments_skip p : segments (skip_slashes p) = segments p.
Proof.
  induction p as [|c p IH]; [done|]. simpl. unfold segments in *. simpl.
  destruct (Z.eqb_spec c slash) as [->|]; [|simpl; by rewrite (proj2 (Z.eqb_neq _ _))]. rewrite IH. done.
Qed.

Lemma segment_spec p :
  p = fst (segment p) ++ snd (segment p) /\ Forall (fun c => c <> slash) (fst (segment p)) /\
  (snd (segment p) = [] \/ exists r, snd (segment p) = slash :: r) /\
  split_path p = match snd (segment p) with
                 | [] => [fst (segment p)]
                 | _ :: r => fst (segment p) :: split_path r
                 end.
Proof.
  induction p as [|c p (E & Hs & Hn & Hsp)]; [by split_and!; [|constructor|left|]|].
  simpl. destruct (Z.eqb_spec c slash) as [->|Hc].
  - simpl. split_and!; [done|constructor|right; eauto|done].
  - destruct (segment p) as [s r]. simpl in *. split_and!; [by rewrite E|by constructor|done|].
    rewrite Hsp. by destruct r.
Qed.

Lemma segments_cons p :
  chr p <> 0 -> chr p <> slash -> fst (segment p) <> [] /\
  segments p = fst (segment p) :: segments (match snd (segment p) with c :: r => r | [] => [] end).
Proof.
  intros H0 Hsl. destruct p as [|c p]; [done|]. simpl in H0, Hsl.
  destruct (segment_spec (c :: p)) as (_ & _ & _ & Hsp). unfold segments. rewrite Hsp.
  simpl. destruct (Z.eqb_spec c slash); [done|]. destruct (segment p) as [s r]. simpl.
  split; [done|]. by destruct r.
Qed.

Lemma chr_zero p : Forall (fun c => c <> 0) p -> chr p = 0 <-> p = [].
Proof. intros Hp. destruct p; [done|]. apply Forall_cons in Hp as [? _]. done. Qed.

Lemma skip_slashes_spec p :
  Forall (fun c => c <> 0) p -> Forall (fun c => c <> 0) (skip_slashes p) /\
  chr (skip_slashes p) <> slash /\ (length (skip_slashes p) <= length p)%nat.
Proof.
  induction p as [|c p IH]; intros Hp; [by split_and!|]. apply Forall_cons in Hp as [Hc Hp].
  destruct (IH Hp) as (? & ? & ?). simpl. destruct (Z.eqb_spec c slash).
  - split_and!; [done|done|lia].
  - split_and!; [by constructor|done|simpl; lia].
Qed.

Lemma segment_nz p : Forall (fun c => c <> 0) p ->
  Forall (fun c => c <> 0) (fst (segment p)) /\ Forall (fun c => c <> 0) (snd (segment p)).
Proof. intros Hp. destruct (segment_spec p) as (E & _). rewrite E in Hp. by apply Forall_app in Hp. Qed.

(** The comparison of [vfs_find_node] decides equality with the segment. *)
Lemma strncmp_path_spec n : forall s1 s2,
  Forall (fun c => c <> 0) s1 -> Forall (fun c => c <> 0) s2 -> (n <= length s2)%nat ->
  (strncmp_path s1 s2 n =? 0) && (chr (drop n s1) =? 0) = true <-> s1 = take n s2.
Proof.
  induction n as [|n IH]; intros s1 s2 H1 H2 Hn.
  - simpl. rewrite drop_0, take_0, Z.eqb_eq. by apply chr_zero.
  - destruct s2 as [|c2 s2]; [simpl in Hn; lia|]. apply Forall_cons in H2 as [Hc2 H2].
    destruct s1 as [|c1 s1]; cbn [strncmp_path chr drop take tail].
    + cbn [Z.eqb negb andb]. rewrite andb_true_iff, Z.eqb_eq. split; [lia|done].
    + apply Forall_cons in H1 as [Hc1 H1]. destruct (Z.eqb_spec c1 0); [done|].
      destruct (Z.eqb_spec c1 c2) as [->|Hne]; cbn [negb andb].
      * rewrite IH by (done || (simpl in Hn; lia)). split; [by intros ->|by intros [= ->]].
      * rewrite andb_true_iff, Z.eqb_eq. split; [lia|]. intros [= -> _]. done.
Qed.

(** ** The tree *)

(** The children of a node, linked through [vn_next] from [a]. *)
Fixpoint chain (m : gmap Z vnode) (a : Z) (l : list Z) : Prop :=
  match l with
  | [] => a = 0
  | b :: l' => a = b /\ b <> 0 /\ exists n, m !! b = Some n /\ chain m (vn_next n) l'
  end.

Definition name_of (m : gmap Z vnode) (p : Z) : str :=
  match m !! p with Some n => vn_name n | None => [] end.

(** [kids p]: the children of [p], in the order of the linked list. *)
Record fs_wf (m : gmap Z vnode) (kids : Z -> list Z) : Prop := {
  fw_chain : forall p n, m !! p = Some n -> chain m (vn_children n) (kids p);
  fw_nodup : forall p, NoDup (kids p);
  fw_names : forall p n, m !! p = Some n -> Forall (fun c => c <> 0) (vn_name n);
  fw_null : m !! 0 = None;
  fw_dead : forall p, m !! p = None -> kids p = [];
  fw_parent : forall p q c, c ∈ kids p -> c ∈ kids q -> p = q;
}.

(** Path lookup in the tree. *)
Definition child_named (m : gmap Z vnode) (l : list Z) (seg : str) : option Z :=
  List.find (fun c => bool_decide (name_of m c = seg)) l.
Fixpoint resolve (m : gmap Z vnode) (kids : Z -> list Z) (p : Z) (segs : list str) : option Z :=
  match segs with
  | [] => Some p
  | s :: segs' => match child_named m (kids p) s with
                  | Some c => resolve m kids c segs'
                  | None => None
                  end
  end.

Lemma chain_elem m l : forall a b, chain m a l -> b ∈ l -> b <> 0 /\ exists n, m !! b = Some n.
Proof.
  induction l as [|c l IH]; intros a b Hc Hb; [by apply not_elem_of_nil in Hb|].
  destruct Hc as (-> & Hc0 & n & Hn & Hch). apply elem_of_cons in Hb as [->|Hb]; [eauto|by eapply IH].
Qed.
Lemma chain_length m a l : NoDup l -> chain m a l -> (length l <= size m)%nat.
Proof.
  intros Hnd Hc. rewrite <- (size_list_to_set (C := gset Z) l) by done. rewrite <- size_dom.
  apply subseteq_size. intros b. rewrite elem_of_list_to_set. intros Hb.
  destruct (chain_elem _ _ _ _ Hc Hb) as (_ & n & Hn). by eapply elem_of_dom_2.
Qed.

Section find.
Context {H : Type} `{HeapOps H}.
Implicit Types (s : vfs H).

Lemma wp_nget {A} (f : vnode -> A) p Q s n : nodes s !! p = Some n -> Q (f n) s -> wp (nget f p) Q s.
Proof. unfold wp, nget. by intros ->. Qed.
Lemma wp_nset g p Q s n :
  nodes s !! p = Some n -> Q tt (mkVfs (vfs_heap s) (<[p := g n]> (nodes s)) (vfs_root s)) -> wp (nset g p) Q s.
Proof. unfold wp, nset. by intros ->. Qed.

Lemma wp_find_child s kids path len l : forall a fuel,
  fs_wf (nodes s) kids -> chain (nodes s) a l -> (length l < fuel)%nat ->
  Forall (fun c => c <> 0) path -> (len <= length path)%nat ->
  wp (find_child a path len fuel) (fun r s' => s' = s /\
    r = default 0 (child_named (nodes s) l (take len path))) s.
Proof.
  induction l as [|b l IH]; intros a fuel Hwf Hc Hf Hp Hlen;
    (destruct fuel as [|fuel]; [simpl in Hf; lia|]); cbn [find_child].
  - simpl in Hc. subst a. by wp_steps.
  - destruct Hc as (-> & Hb0 & n & Hn & Hch). destruct (Z.eqb_spec b 0); [done|]. wp_steps.
    eapply wp_nget; [done|]. cbv beta. pose proof (fw_names _ _ Hwf b n Hn) as Hnz.
    pose proof (strncmp_path_spec len (vn_name n) path Hnz Hp Hlen) as Hcmp.
    assert (Hname : name_of (nodes s) b = vn_name n) by (unfold name_of; by rewrite Hn).
    unfold child_named. cbn [List.find].
    destruct ((strncmp_path (vn_name n) path len =? 0) && (chr (drop len (vn_name n)) =? 0)) eqn:E.
    + wp_steps. rewrite bool_decide_true by (rewrite Hname; by apply Hcmp). done.
    + rewrite bool_decide_false by (rewrite Hname; intros E'; apply Hcmp in E'; congruence).
      wp_steps. eapply wp_nget; [done|]. cbv beta. apply IH; try done. simpl in Hf. lia.
Qed.

Lemma child_named_elem m l seg c : child_named m l seg = Some c -> c ∈ l /\ name_of m c = seg.
Proof.
  intros E%List.find_some. destruct E as [Hc Hn]. split; [by apply list_elem_of_In|].
  by apply bool_decide_eq_true in Hn.
Qed.

Lemma wp_find_node s kids : forall fuel path p n,
  fs_wf (nodes s) kids -> nodes s !! p = Some n -> Forall (fun c => c <> 0) path ->
  (length path < fuel)%nat ->
  wp (find_node p path fuel) (fun r s' => s' = s /\
    r = default 0 (resolve (nodes s) kids p (segments path))) s.
Proof.
  induction fuel as [|fuel IH]; intros path p n Hwf Hn Hp Hf; [lia|]. cbn [find_node].
  assert (Hp0 : p <> 0) by (intros ->; rewrite (fw_null _ _ Hwf) in Hn; done).
  destruct (Z.eqb_spec p 0); [done|]. cbn [orb].
  destruct (Z.eqb_spec (chr path) 0) as [E0|E0].
  { wp_steps. apply chr_zero in E0 as ->; [|done]. by unfold segments. }
  destruct (skip_slashes_spec path Hp) as (Hp' & Hsl & Hlen).
  rewrite <- segments_skip. set (q := skip_slashes path) in *. cbv zeta.
  destruct (Z.eqb_spec (chr q) 0) as [E1|E1].
  { wp_steps. apply chr_zero in E1 as ->; [|done]. by unfold segments. }
  destruct (segments_cons q E1 Hsl) as [Hne ->]. destruct (segment_spec q) as (Eq & _).
  destruct (segment_nz q Hp') as [Hz1 Hz2].
  destruct (segment q) as [seg nx] eqn:Eseg. cbn [fst snd] in Eq, Hne, Hz1, Hz2 |- *. cbn [resolve].
  wp_steps. eapply wp_nget; [done|]. cbv beta. wp_steps.
  pose proof (fw_chain _ _ Hwf p n Hn) as Hch.
  eapply wp_mono; [eapply (wp_find_child s kids q (length seg) (kids p)); try done|].
  - pose proof (chain_length _ _ _ (fw_nodup _ _ Hwf p) Hch). lia.
  - rewrite Eq, length_app. lia.
  - intros c s' [-> ->]. rewrite Eq, take_app_length.
    destruct (child_named (nodes s) (kids p) seg) as [c|] eqn:Ec; simpl.
    + destruct (child_named_elem _ _ _ _ Ec) as [Hc _].
      destruct (chain_elem _ _ _ _ Hch Hc) as (Hc0 & nc & Hnc).
      destruct (Z.eqb_spec c 0); [done|]. eapply IH; try done.
      * by destruct nx; [constructor|apply Forall_cons in Hz2 as [_ ?]].
      * apply (f_equal length) in Eq. rewrite length_app in Eq.
        destruct seg; [done|]. destruct nx; simpl in *; lia.
    + by wp_steps.
Qed.
End find.

(** ** Growing the tree *)

Definition add_kid (kids : Z -> list Z) (p c : Z) : Z -> list Z :=
  fun q => if q =? p then c :: kids p else kids q.

Lemma chain_ext m m' l : forall a,
  (forall b n, b ∈ l -> m !! b = Some n -> exists n', m' !! b = Some n' /\ vn_next n' = vn_next n) ->
  chain m a l -> chain m' a l.
Proof.
  induction l as [|b l IH]; intros a Hext Hc; [done|]. destruct Hc as (-> & Hb & n & Hn & Hc).
  destruct (Hext b n) as (n' & Hn' & E); [apply list_elem_of_here|done|].
  split; [done|]. split; [done|]. exists n'. split; [done|]. rewrite E. apply IH; [|done].
  intros b' n'' Hb'. apply Hext. by apply list_elem_of_further.
Qed.

(** The store after [vfs_add_child]. *)
Definition linked_child (m : gmap Z vnode) (p c : Z) (np nc : vnode) : gmap Z vnode :=
  <[p := set_vn_children c np]> (<[c := set_vn_next (vn_children np) (set_vn_parent p nc)]> m).

Lemma child_named_ext m1 m2 l seg :
  (forall q, name_of m1 q = name_of m2 q) -> child_named m1 l seg = child_named m2 l seg.
Proof.
  intros E. unfold child_named. induction l as [|a l IH]; [done|]. cbn [List.find]. rewrite IH.
  replace (bool_decide (name_of m1 a = seg)) with (bool_decide (name_of m2 a = seg)); [done|].
  apply bool_decide_ext. by rewrite E.
Qed.

Section grow.
Context (m : gmap Z vnode) (kids : Z -> list Z) (p c : Z) (np nc : vnode).
Hypothesis Hwf : fs_wf m kids.
Hypothesis Hp : m !! p = Some np.
Hypothesis Hc : m !! c = Some nc.
Hypothesis Hpc : p <> c.
Hypothesis Hfresh : forall q, c ∉ kids q.
Hypothesis Hleaf : vn_children nc = 0 /\ kids c = [].

Lemma linked_child_lookup q :
  linked_child m p c np nc !! q =
  if q =? p then Some (set_vn_children c np)
  else if q =? c then Some (set_vn_next (vn_children np) (set_vn_parent p nc)) else m !! q.
Proof.
  unfold linked_child. destruct (Z.eqb_spec q p) as [->|]; [by rewrite lookup_insert_eq|].
  rewrite lookup_insert_ne by done.
  destruct (Z.eqb_spec q c) as [->|]; [by rewrite lookup_insert_eq|by rewrite lookup_insert_ne].
Qed.

Lemma linked_child_name q : name_of (linked_child m p c np nc) q = name_of m q.
Proof.
  unfold name_of. rewrite linked_child_lookup.
  destruct (Z.eqb_spec q p) as [->|]; [by rewrite Hp|].
  destruct (Z.eqb_spec q c) as [->|]; [by rewrite Hc|done].
Qed.

Lemma linked_child_chain a l : c ∉ l -> chain m a l -> chain (linked_child m p c np nc) a l.
Proof.
  intros Hl. apply chain_ext. intros b n Hb Hn. rewrite linked_child_lookup.
  destruct (Z.eqb_spec b p) as [->|].
  - rewrite Hp in Hn. injection Hn as <-. by eexists.
  - destruct (Z.eqb_spec b c) as [->|]; [done|]. by exists n.
Qed.

Lemma linked_child_wf : fs_wf (linked_child m p c np nc) (add_kid kids p c).
Proof.
  assert (Hc0 : c <> 0) by (intros ->; rewrite (fw_null _ _ Hwf) in Hc; done).
  assert (Hp0 : p <> 0) by (intros ->; rewrite (fw_null _ _ Hwf) in Hp; done).
  split.
  - intros q n. rewrite linked_child_lookup. unfold add_kid.
    destruct (Z.eqb_spec q p) as [->|].
    + intros [= <-]. simpl. split; [done|]. split; [done|]. eexists.
      rewrite linked_child_lookup. destruct (Z.eqb_spec c p); [congruence|]. rewrite Z.eqb_refl.
      split; [done|]. simpl. apply linked_child_chain; [done|]. by apply (fw_chain _ _ Hwf).
    + destruct (Z.eqb_spec q c) as [->|].
      * intros [= <-]. simpl. destruct Hleaf as [-> ->]. done.
      * intros Hn. apply linked_child_chain; [done|]. by apply (fw_chain _ _ Hwf).
  - intros q. unfold add_kid. destruct (q =? p); [|apply (fw_nodup _ _ Hwf)].
    apply NoDup_cons. split; [done|apply (fw_nodup _ _ Hwf)].
  - intros q n. rewrite linked_child_lookup. destruct (q =? p); [|destruct (q =? c)].
    + intros [= <-]. exact (fw_names _ _ Hwf p np Hp).
    + intros [= <-]. exact (fw_names _ _ Hwf c nc Hc).
    + apply (fw_names _ _ Hwf).
  - rewrite linked_child_lookup. destruct (Z.eqb_spec 0 p); [done|]. destruct (Z.eqb_spec 0 c); [done|].
    apply (fw_null _ _ Hwf).
  - intros q. rewrite linked_child_lookup. unfold add_kid. destruct (q =? p); [done|].
    destruct (q =? c); [done|]. apply (fw_dead _ _ Hwf).
  - intros q1 q2 x. unfold add_kid. destruct (Z.eqb_spec q1 p) as [->|], (Z.eqb_spec q2 p) as [->|]; try done.
    + intros [Hx|Hx]%elem_of_cons Hx'; [subst x; by destruct (Hfresh q2)|].
      exact (fw_parent _ _ Hwf _ _ _ Hx Hx').
    + intros Hx [Hx'|Hx']%elem_of_cons; [subst x; by destruct (Hfresh q1)|].
      exact (fw_parent _ _ Hwf _ _ _ Hx Hx').
    + apply (fw_parent _ _ Hwf).
Qed.

(** A child with a new name shadows nothing. *)
Lemma linked_child_resolve segs : forall q x,
  child_named m (kids p) (vn_name nc) = None ->
  resolve m kids q segs = Some x ->
  resolve (linked_child m p c np nc) (add_kid kids p c) q segs = Some x.
Proof.
  induction segs as [|sg segs IH]; intros q x Hnew Hr; [done|]. cbn [resolve] in *.
  destruct (child_named m (kids q) sg) as [c'|] eqn:Ec; [|done].
  assert (child_named (linked_child m p c np nc) (add_kid kids p c q) sg = Some c') as ->; [|by apply IH].
  rewrite (child_named_ext _ m) by apply linked_child_name. unfold add_kid.
  destruct (Z.eqb_spec q p) as [->|]; [|done]. unfold child_named in *. cbn [List.find].
  rewrite bool_decide_false; [done|]. unfold name_of. rewrite Hc. intros E. rewrite E in Hnew. congruence.
Qed.
End grow.

(** ** The operations on well-formed trees *)

(** What the tree code relies on: a heap that does not run out (the code does not
    test the result of [kmalloc]). *)
Definition heap_total (H : Type) `{Heap H} : Prop :=
  forall h, heap_wf h -> wp (kmalloc VFS_NODE_SIZE) (fun p h' => heap_wf h' /\
    p <> 0 /\ (p ∉ live h) /\ live h' = ({[p]} ∪ live h)) h.

Section tree.
Context {H : Type} `{HH : Heap H} (Htotal : heap_total H).
Implicit Types (s : vfs H).

Record vfs_ok s (kids : Z -> list Z) : Prop := {
  vo_fs : fs_wf (nodes s) kids;
  vo_heap : heap_wf (vfs_heap s);
  vo_live : forall p n, nodes s !! p = Some n -> p ∈ live (vfs_heap s);
}.

(** Lookups survive, and so does what a node holds besides its links. *)
Definition grows s kids s' kids' : Prop :=
  (forall p segs x, resolve (nodes s) kids p segs = Some x -> resolve (nodes s') kids' p segs = Some x) /\
  (forall p n, nodes s !! p = Some n -> exists n', nodes s' !! p = Some n' /\
     vn_name n' = vn_name n /\ vn_type n' = vn_type n /\ vn_size n' = vn_size n /\ vn_data n' = vn_data n) /\
  vfs_root s' = vfs_root s.

Lemma grows_refl s kids : grows s kids s kids.
Proof. split_and!; [done|eauto 7|done]. Qed.
Lemma grows_trans s1 k1 s2 k2 s3 k3 : grows s1 k1 s2 k2 -> grows s2 k2 s3 k3 -> grows s1 k1 s3 k3.
Proof.
  intros (A1 & A2 & A3) (B1 & B2 & B3). split_and!; [auto| |congruence].
  intros p n Hn. destruct (A2 p n Hn) as (n2 & Hn2 & ? & ? & ? & ?).
  destruct (B2 p n2 Hn2) as (n3 & ? & ? & ? & ? & ?). exists n3. split_and!; congruence.
Qed.

(** A fresh node, not yet in the tree. *)
Definition fresh_node s (kids : Z -> list Z) s1 (c : Z) (n0 : vnode) : Prop :=
  nodes s1 = <[c := n0]> (nodes s) /\ vfs_root s1 = vfs_root s /\ nodes s !! c = None /\ c <> 0 /\
  heap_wf (vfs_heap s1) /\ (forall q, q ∈ live (vfs_heap s1) <-> q = c \/ q ∈ live (vfs_heap s)) /\
  (forall q, c ∉ kids q).

Lemma wp_vfs_create_node s kids name type :
  vfs_ok s kids ->
  wp (vfs_create_node name type) (fun c s1 =>
    fresh_node s kids s1 c (mkVnode (node_name name) type 0 0 0 0 0)) s.
Proof.
  intros [Hfs Hheap Hlive]. unfold vfs_create_node. wp_steps.
  unfold on_heap, wp at 1. pose proof (Htotal _ Hheap) as Hk. unfold wp in Hk.
  destruct (kmalloc VFS_NODE_SIZE (vfs_heap s)) as [[c h]|]; [|done]. destruct Hk as (Hh & Hc0 & Hcl & Hl).
  destruct (Z.eqb_spec c 0) as [|_]; [done|]. wp_steps.
  assert (Hcn : nodes s !! c = None).
  { destruct (nodes s !! c) eqn:E; [|done]. by apply Hlive in E. }
  split_and!; try done; cbn [vfs_heap].
  - intros q. rewrite Hl, elem_of_union, elem_of_singleton. done.
  - intros q Hq. destruct (nodes s !! q) as [nq|] eqn:Eq.
    + destruct (chain_elem _ _ _ _ (fw_chain _ _ Hfs q nq Eq) Hq) as (_ & ? & ?). congruence.
    + rewrite (fw_dead _ _ Hfs q Eq) in Hq. by apply not_elem_of_nil in Hq.
Qed.

(** Inserting a childless node that is nobody's child. *)
Lemma fs_wf_insert m kids c n0 :
  fs_wf m kids -> m !! c = None -> c <> 0 -> (forall q, c ∉ kids q) -> vn_children n0 = 0 ->
  Forall (fun x => x <> 0) (vn_name n0) -> fs_wf (<[c := n0]> m) kids.
Proof.
  intros [F1 F2 F3 F4 F5 F6] Hcn Hc0 Hkc Hch Hname. split; try done.
  - intros q n [[<- <-]|[? Hn]]%lookup_insert_Some; [by rewrite F5, Hch|].
    apply (chain_ext m); [|by apply F1]. intros b nb Hb Hnb. exists nb.
    rewrite lookup_insert_ne; [done|]. intros ->. by apply (Hkc q).
  - intros q n [[<- <-]|[? Hn]]%lookup_insert_Some; [done|by eapply F3].
  - by rewrite lookup_insert_ne.
  - intros q [? ?]%lookup_insert_None. by apply F5.
Qed.

Lemma child_named_insert m (c : Z) n0 (l : list Z) seg :
  c ∉ l -> child_named (<[c := n0]> m) l seg = child_named m l seg.
Proof.
  induction l as [|a l IH]; intros Hl; [done|]. apply not_elem_of_cons in Hl as [? ?].
  unfold child_named in *. cbn [List.find]. rewrite IH by done.
  replace (bool_decide (name_of (<[c:=n0]> m) a = seg)) with (bool_decide (name_of m a = seg)); [done|].
  apply bool_decide_ext. unfold name_of. by rewrite lookup_insert_ne.
Qed.
Lemma resolve_insert m (kids : Z -> list Z) (c : Z) n0 segs : (forall q, c ∉ kids q) -> forall q,
  resolve (<[c := n0]> m) kids q segs = resolve m kids q segs.
Proof.
  intros Hkc. induction segs as [|sg segs IH]; intros q; [done|]. cbn [resolve].
  rewrite child_named_insert by done. by destruct (child_named _ _ _).
Qed.

(** Hanging a fresh node under [p]. *)
Lemma wp_vfs_add_child s kids s1 p np c n0 :
  vfs_ok s kids -> nodes s !! p = Some np -> fresh_node s kids s1 c n0 ->
  vn_children n0 = 0 -> Forall (fun x => x <> 0) (vn_name n0) ->
  child_named (nodes s) (kids p) (vn_name n0) = None ->
  wp (vfs_add_child p c) (fun _ s' =>
    vfs_ok s' (add_kid kids p c) /\ grows s kids s' (add_kid kids p c) /\
    child_named (nodes s') (add_kid kids p c p) (vn_name n0) = Some c /\
    exists n, nodes s' !! c = Some n /\ vn_name n = vn_name n0 /\ vn_type n = vn_type n0 /\
      vn_size n = vn_size n0 /\ vn_data n = vn_data n0) s1.
Proof.
  intros [Hfs Hheap Hlive] Hp (Hm1 & Hroot & Hcn & Hc0 & Hh & Hl & Hkc) Hch0 Hname Hnew.
  assert (Hpc : p <> c) by (intros ->; congruence).
  pose proof (fs_wf_insert _ kids c n0 Hfs Hcn Hc0 Hkc Hch0 Hname) as Hwf1. rewrite <- Hm1 in Hwf1.
  assert (Hp1 : nodes s1 !! p = Some np) by (rewrite Hm1; by rewrite lookup_insert_ne).
  assert (Hc1 : nodes s1 !! c = Some n0) by (rewrite Hm1; by rewrite lookup_insert_eq).
  assert (Hleaf : vn_children n0 = 0 /\ kids c = []) by (split; [done|by apply (fw_dead _ _ Hfs)]).
  unfold vfs_add_child. wp_steps.
  eapply wp_nset; [exact Hc1|]. cbv beta. wp_steps. cbn [vfs_heap nodes vfs_root].
  eapply wp_nget; [cbn; rewrite lookup_insert_ne by done; exact Hp1|]. cbv beta. wp_steps.
  eapply wp_nset; [cbn; apply lookup_insert_eq|]. cbv beta. wp_steps. cbn [vfs_heap nodes vfs_root].
  eapply wp_nset; [cbn; rewrite !lookup_insert_ne by done; exact Hp1|]. cbv beta.
  cbn [vfs_heap nodes vfs_root]. rewrite insert_insert_eq. fold (linked_child (nodes s1) p c np n0).
  pose proof (linked_child_wf (nodes s1) kids p c np n0 Hwf1 Hp1 Hc1 Hpc Hkc Hleaf) as Hwf2.
  split; [|split; [split; [|split]|split]]; cbn [nodes].
  - split; cbn [vfs_heap nodes]; [done|done|]. intros q n. rewrite linked_child_lookup, Hl.
    destruct (Z.eqb_spec q p) as [->|]; [intros _; right; by eapply Hlive|].
    destruct (Z.eqb_spec q c) as [->|]; [by left|]. rewrite Hm1.
    intros [[? ?]|[_ Hq]]%lookup_insert_Some; [done|]. right. by eapply Hlive.
  - intros q segs x Hr. apply (linked_child_resolve (nodes s1) kids p c np n0 Hp1 Hc1); rewrite Hm1.
    + by rewrite child_named_insert.
    + by rewrite resolve_insert.
  - intros q n Hq. rewrite linked_child_lookup. destruct (Z.eqb_spec q p) as [->|].
    + rewrite Hp in Hq. injection Hq as <-. by eexists.
    + destruct (Z.eqb_spec q c) as [->|]; [congruence|]. exists n. rewrite Hm1. by rewrite lookup_insert_ne.
  - done.
  - rewrite (child_named_ext _ (nodes s1)) by (by apply linked_child_name). unfold add_kid. rewrite Z.eqb_refl.
    unfold child_named. cbn [List.find]. rewrite bool_decide_true; [done|]. unfold name_of. by rewrite Hc1.
  - eexists. rewrite linked_child_lookup. destruct (Z.eqb_spec c p); [congruence|].
    rewrite Z.eqb_refl. split; [done|]. by split_and!.
Qed.

Lemma node_name_nz name : Forall (fun c => c <> 0) name -> Forall (fun c => c <> 0) (node_name name).
Proof. intros Hn. unfold node_name. apply Forall_take. by apply segment_nz. Qed.

(** The directory part of a path: the segments that a slash follows. *)
Definition dir_segments (path : str) : list str := filter nonempty (removelast (split_path path)).

Lemma split_path_ne p : split_path p <> [].
Proof. destruct p as [|c p]; [done|]. simpl. destruct (c =? slash); [done|]. by destruct (split_path p). Qed.

Lemma removelast_cons {A} (a : A) l : l <> [] -> removelast (a :: l) = a :: removelast l.
Proof. by destruct l. Qed.

Lemma segment_self seg : Forall (fun c => c <> slash) seg -> segment seg = (seg, []).
Proof.
  induction seg as [|c seg IH]; intros Hs; [done|]. apply Forall_cons in Hs as [Hc Hs]. simpl.
  destruct (Z.eqb_spec c slash); [done|]. by rewrite IH.
Qed.
Lemma segments_self seg : Forall (fun c => c <> slash) seg -> segments seg = filter nonempty [seg].
Proof.
  intros Hs. destruct (segment_spec seg) as (_ & _ & _ & E). unfold segments. rewrite E.
  by rewrite segment_self.
Qed.

(** Either the directories were there, and nothing happened, or the last one is
    new and empty. *)
Definition dirs_made s (kids : Z -> list Z) p segs s' (kids' : Z -> list Z) (r : Z) : Prop :=
  (s' = s /\ kids' = kids) \/ (resolve (nodes s) kids p segs = None /\ kids' r = []).

Lemma dirs_made_new s kids s1 (kids1 : Z -> list Z) p sg c segs s' kids' r :
  child_named (nodes s) (kids p) sg = None -> kids1 c = [] ->
  resolve (nodes s') kids' c segs = Some r -> dirs_made s1 kids1 c segs s' kids' r ->
  dirs_made s kids p (sg :: segs) s' kids' r.
Proof.
  intros Hnew Hc Hr Hmade. right. cbn [resolve]. rewrite Hnew. split; [done|].
  destruct Hmade as [[-> ->]|[_ ?]]; [|done]. destruct segs as [|sg' segs]; cbn [resolve] in Hr.
  - by injection Hr as <-.
  - by rewrite Hc in Hr.
Qed.

Lemma wp_create_dirs fuel : forall path s kids p np,
  vfs_ok s kids -> nodes s !! p = Some np -> Forall (fun c => c <> 0) path ->
  Forall (fun sg => length sg < 128)%nat (removelast (split_path path)) -> (length path < fuel)%nat ->
  wp (create_dirs p path fuel) (fun r s' => exists kids', vfs_ok s' kids' /\ grows s kids s' kids' /\
    (exists n, nodes s' !! r = Some n) /\
    resolve (nodes s') kids' p (dir_segments path) = Some r /\
    dirs_made s kids p (dir_segments path) s' kids' r) s.
Proof.
  induction fuel as [|fuel IH]; intros path s kids p np Hok Hp Hnz Hshort Hf; [lia|].
  pose proof Hok as [Hfs _ _].
  assert (Hp0 : p <> 0) by (intros ->; rewrite (fw_null _ _ Hfs) in Hp; done).
  destruct (segment_spec path) as (Epath & Hsl & Hnx & Hsp). destruct (segment_nz path Hnz) as [Hz1 Hz2].
  unfold dir_segments in *. rewrite Hsp in *. cbn [create_dirs].
  destruct (segment path) as [seg nx] eqn:Eseg. cbn [fst snd] in *.
  assert (Hstop : nx = [] -> wp (ret p) (fun r s' => exists kids', vfs_ok s' kids' /\ grows s kids s' kids' /\
    (exists n, nodes s' !! r = Some n) /\
    resolve (nodes s') kids' p (filter nonempty (removelast
      (match nx with [] => [seg] | _ :: r0 => seg :: split_path r0 end))) = Some r /\
    dirs_made s kids p (filter nonempty (removelast
      (match nx with [] => [seg] | _ :: r0 => seg :: split_path r0 end))) s' kids' r) s).
  { intros ->. wp_steps. exists kids. split_and!; [done|apply grows_refl|eauto|done|by left]. }
  destruct path as [|c0 path]; [simpl in Eseg; injection Eseg as <- <-; by apply Hstop|].
  destruct nx as [|sl rest]; [by apply Hstop|]. clear Hstop.
  rewrite (removelast_cons seg _ (split_path_ne rest)) in *. apply Forall_cons in Hshort as [Hlen Hshort].
  destruct (Z.leb_spec 128 (Z.of_nat (length seg))); [lia|]. wp_steps. unfold vfs_find_node.
  eapply wp_mono; [by eapply (wp_find_node s kids _ seg p np); try done; lia|]. intros r s' [-> ->].
  rewrite segments_self by done. apply Forall_cons in Hz2 as [_ Hrest].
  assert (Hfuel : (length rest < fuel)%nat).
  { apply (f_equal length) in Epath. rewrite length_app in Epath. simpl in Epath, Hf. lia. }
  destruct (decide (seg = [])) as [->|Hne].
  { rewrite !filter_cons_False by (intros []). rewrite filter_nil. cbn [resolve default id].
    destruct (Z.eqb_spec p 0); [done|]. wp_steps. by eapply (IH rest s kids p np). }
  rewrite !filter_cons_True by (by destruct seg). rewrite filter_nil. cbn [resolve].
  destruct (child_named (nodes s) (kids p) seg) as [c|] eqn:Ec.
  - cbn [default id]. destruct (child_named_elem _ _ _ _ Ec) as [Hc _].
    destruct (chain_elem _ _ _ _ (fw_chain _ _ Hfs p np Hp) Hc) as (Hc0 & nc & Hnc).
    destruct (Z.eqb_spec c 0); [done|]. wp_steps.
    eapply wp_mono; [by eapply (IH rest s kids c nc)|].
    intros r s' (kids' & Hok' & Hg & Hn & Hr & Hm). exists kids'. split; [done|]. split; [done|]. split; [done|].
    destruct Hg as (Hg & _). pose proof (Hg p [seg] c) as Hone. cbn [resolve] in Hone. rewrite Ec in Hone.
    specialize (Hone eq_refl). split.
    + destruct (child_named (nodes s') (kids' p) seg); [|done]. congruence.
    + unfold dirs_made. cbn [resolve]. by rewrite Ec.
  - assert (Hname : node_name seg = seg).
    { unfold node_name. rewrite segment_self by done. apply take_ge. simpl. lia. }
    cbn [default Z.eqb]. wp_steps.
    eapply wp_mono; [by apply (wp_vfs_create_node s kids seg VFS_DIRECTORY)|].
    intros c s0 Hfresh. wp_steps. eapply wp_mono; [apply (wp_vfs_add_child s kids s0 p np c _ Hok Hp Hfresh)|].
    { done. } { by apply node_name_nz. } { cbn [vn_name]. by rewrite Hname. }
    intros [] s1 (Hok1 & Hg1 & Hch & nc & Hnc & _). cbn [vn_name] in Hch. rewrite Hname in Hch. wp_steps.
    eapply wp_mono; [by eapply (IH rest s1 _ c nc)|].
    intros r s' (kids' & Hok' & Hg & Hn & Hr & Hm). exists kids'. split; [done|].
    split; [by eapply grows_trans|]. split; [done|].
    destruct Hg as (Hg & _). pose proof (Hg p [seg] c) as Hone. cbn [resolve] in Hone. rewrite Hch in Hone.
    specialize (Hone eq_refl). split.
    + destruct (child_named (nodes s') (kids' p) seg); [|done]. congruence.
    + eapply dirs_made_new; [done| |exact Hr|exact Hm]. destruct Hfresh as (_ & _ & Hcn & _).
      unfold add_kid. destruct (Z.eqb_spec c p) as [->|]; [congruence|]. by apply (fw_dead _ _ Hfs).
Qed.

(** C35: [vfs_find_node] is path resolution in the tree: it skips empty segments,
    compares whole segments, and returns the node or [NULL]; it changes nothing
    and always terminates. *)
Theorem vfs_find_node_correct s (kids : Z -> list Z) (p : Z) (n : vnode) (path : str) :
  fs_wf (nodes s) kids -> nodes s !! p = Some n -> Forall (fun c => c <> 0) path ->
  wp (vfs_find_node p path) (fun r s' => s' = s /\
    r = default 0 (resolve (nodes s) kids p (segments path))) s.
Proof. intros Hwf Hn Hp. eapply wp_find_node; try done. lia. Qed.

(** [create_directories] makes every directory on the way to a file exist and
    returns the last one, for paths whose directory names have fewer than 128
    bytes; what was in the tree before stays where it was. *)
Theorem create_directories_correct s (kids : Z -> list Z) (n : vnode) (path : str) :
  vfs_ok s kids -> nodes s !! vfs_root s = Some n -> Forall (fun c => c <> 0) path ->
  Forall (fun sg => length sg < 128)%nat (removelast (split_path path)) ->
  wp (create_directories path) (fun r s' => exists kids', vfs_ok s' kids' /\ grows s kids s' kids' /\
    resolve (nodes s') kids' (vfs_root s) (dir_segments path) = Some r) s.
Proof.
  intros Hok Hn Hnz Hshort. unfold create_directories. wp_steps.
  eapply wp_mono; [eapply wp_create_dirs; try done; lia|]. intros r s' (kids' & ? & ? & _ & ? & _). eauto.
Qed.
End tree.

(** ** Instances *)

Lemma bump_total : heap_total bump.
Proof. intros h Hh. by apply bump_alloc. Qed.

(** The root at 16, with the directory "d" at 32, which has the file "f" at 48. *)
Definition demo_nodes : gmap Z vnode :=
  <[16 := mkVnode [] VFS_DIRECTORY 0 0 0 32 0]>
  (<[32 := mkVnode [100] VFS_DIRECTORY 0 0 16 48 0]>
  (<[48 := mkVnode [102] VFS_FILE 5 4096 32 0 0]> ∅)).
Definition demo_kids (p : Z) : list Z := if p =? 16 then [32] else if p =? 32 then [48] else [].
Definition demo_vfs : vfs bump := mkVfs (mkBump 64 {[16; 32; 48]}) demo_nodes 16.

Lemma demo_nodes_inv p n :
  demo_nodes !! p = Some n ->
  (p = 16 /\ n = mkVnode [] VFS_DIRECTORY 0 0 0 32 0) \/
  (p = 32 /\ n = mkVnode [100] VFS_DIRECTORY 0 0 16 48 0) \/
  (p = 48 /\ n = mkVnode [102] VFS_FILE 5 4096 32 0 0).
Proof.
  unfold demo_nodes. intros [[<- <-]|[_ H]]%lookup_insert_Some; [by left|].
  apply lookup_insert_Some in H as [[<- <-]|[_ H]]; [by right; left|].
  apply lookup_insert_Some in H as [[<- <-]|[_ H]]; [by right; right|]. by rewrite lookup_empty in H.
Qed.

Lemma demo_kids_inv p c : c ∈ demo_kids p -> (p = 16 /\ c = 32) \/ (p = 32 /\ c = 48).
Proof.
  unfold demo_kids. destruct (Z.eqb_spec p 16) as [->|]; [intros ->%list_elem_of_singleton; by left|].
  destruct (Z.eqb_spec p 32) as [->|]; [intros ->%list_elem_of_singleton; by right|].
  by intros ?%not_elem_of_nil.
Qed.

Lemma demo_fs_wf : fs_wf demo_nodes demo_kids.
Proof.
  split.
  - intros p n [[-> ->]|[[-> ->]|[-> ->]]]%demo_nodes_inv; [| |done]; cbn;
      (split; [done|]; split; [done|]; eexists; split; done).
  - intros p. unfold demo_kids. destruct (p =? 16), (p =? 32); try apply NoDup_singleton; constructor.
  - intros p n [[-> ->]|[[-> ->]|[-> ->]]]%demo_nodes_inv; repeat constructor; done.
  - done.
  - intros p Hp. unfold demo_kids. destruct (Z.eqb_spec p 16) as [->|]; [done|].
    destruct (Z.eqb_spec p 32) as [->|]; done.
  - intros p q c Hp%demo_kids_inv Hq%demo_kids_inv. lia.
Qed.

Lemma demo_vfs_ok : vfs_ok demo_vfs demo_kids.
Proof.
  split; [apply demo_fs_wf| |].
  - split; [done|]. intros p. cbn. rewrite !elem_of_union, !elem_of_singleton. lia.
  - intros p n [[-> _]|[[-> _]|[-> _]]]%demo_nodes_inv; cbn; set_solver.
Qed.

(** "//d/f" *)
Lemma vfs_find_node_correct_witness :
  wp (vfs_find_node 16 [47; 47; 100; 47; 102]) (fun r s' => s' = demo_vfs /\ r = 48) demo_vfs.
Proof.
  apply (vfs_find_node_correct demo_vfs demo_kids 16 (mkVnode [] VFS_DIRECTORY 0 0 0 32 0)
    [47; 47; 100; 47; 102] demo_fs_wf eq_refl).
  repeat constructor; discriminate.
Defined.

(** "d/e/g" *)
Lemma create_directories_correct_witness :
  wp (create_directories [100; 47; 101; 47; 103]) (fun r s' => exists kids', vfs_ok s' kids' /\
    resolve (nodes s') kids' 16 [[100]; [101]] = Some r /\
    resolve (nodes s') kids' 16 [[100]; [102]] = Some 48) demo_vfs.
Proof.
  eapply wp_mono; [apply (create_directories_correct bump_total demo_vfs demo_kids
    (mkVnode [] VFS_DIRECTORY 0 0 0 32 0) [100; 47; 101; 47; 103] demo_vfs_ok eq_refl)|].
  - repeat constructor; discriminate.
  - cbn. repeat constructor; lia.
  - intros r s' (kids' & Hok & Hg & Hr). exists kids'. split; [exact Hok|]. split; [exact Hr|].
    apply Hg. reflexivity.
Defined.
