(* ===== verification/Initramfs.v ===== *)
(** * The initial file system (initramfs.c)

    Reading a cpio archive ("newc" format) that lies in memory and mounting its
    entries in the tree of [Vfs]. *)

From S2P Require Import Prelude Mem Heap Vfs.

Definition CPIO_HEADER_SIZE : Z := 110.
Definition MAGIC_NEWC : str := [48; 55; 48; 55; 48; 49].
Definition MAGIC_CRC : str := [48; 55; 48; 55; 48; 50].
Definition TRAILER : str := [84; 82; 65; 73; 76; 69; 82; 33; 33; 33].

Definition ALIGN4 (v : Z) : Z := Z.land (u64 (v + 3)) 0xFFFFFFFFFFFFFFFC.

(** One digit of [parse_hex_str]: characters that are no digit only shift. *)
Definition hex_step (c val : Z) : Z :=
  let val := u32 (Z.shiftl val 4) in
  if (48 <=? c) && (c <=? 57) then Z.lor val (c - 48)
  else if (65 <=? c) && (c <=? 70) then Z.lor val (c - 65 + 10)
  else if (97 <=? c) && (c <=? 102) then Z.lor val (c - 97 + 10)
  else val.

Fixpoint parse_hex (m : memory) (a : Z) (len : nat) (val : Z) : Z :=
  match len with
  | O => val
  | S len' => parse_hex m (a + 1) len' (hex_step (load8 m a) val)
  end.
Definition parse_hex_str (m : memory) (a : Z) (len : nat) : Z := parse_hex m a len 0.

(** [memcmp(a, literal, n) == 0]. *)
Fixpoint bytes_at (m : memory) (a : Z) (l : str) : bool :=
  match l with
  | [] => true
  | c :: l' => (load8 m a =? c) && bytes_at m (a + 1) l'
  end.

(** The C string at [a]; [None] when no terminator is met within the fuel. *)
Fixpoint read_cstr (m : memory) (a : Z) (fuel : nat) : option str :=
  match fuel with
  | O => None
  | S fuel' => if load8 m a =? 0 then Some []
               else match read_cstr m (a + 1) fuel' with
                    | Some s => Some (load8 m a :: s)
                    | None => None
                    end
  end.

(** What the loop of [initramfs_init] reads of the entry at [current_addr]. *)
Record cpio_entry := mkCe {
  ce_name : str;
  ce_mode : Z;
  ce_size : Z;
  ce_data : Z;
}.
Inductive scan_result :=
  | ScanBad
  | ScanTrailer
  | ScanEntry (e : cpio_entry) (next : Z)
  | ScanStuck.

Definition scan_entry (m : memory) (current_addr end_addr : Z) : scan_result :=
  if negb (bytes_at m current_addr MAGIC_NEWC) && negb (bytes_at m current_addr MAGIC_CRC)
  then ScanBad
  else
    let filesize := parse_hex_str m (current_addr + 54) 8 in
    let namesize := parse_hex_str m (current_addr + 94) 8 in
    let mode := parse_hex_str m (current_addr + 14) 8 in
    let filename := current_addr + CPIO_HEADER_SIZE in
    if bytes_at m filename TRAILER then ScanTrailer
    else
      let data_addr := ALIGN4 (u64 (current_addr + CPIO_HEADER_SIZE + namesize)) in
      match read_cstr m filename (Z.to_nat (end_addr - filename)) with
      | None => ScanStuck
      | Some name => ScanEntry (mkCe name mode filesize data_addr) (ALIGN4 (u64 (data_addr + filesize)))
      end.

(** [if (filename[0] == '.' && filename[1] == '/') filename += 2;] *)
Definition strip_dot (name : str) : str :=
  match name with
  | c0 :: c1 :: r => if (c0 =? 46) && (c1 =? slash) then r else name
  | _ => name
  end.

(** The part after the last slash. *)
Fixpoint leaf_name (name : str) : str :=
  match name with
  | [] => []
  | c :: r => if existsb (Z.eqb slash) name then leaf_name r else name
  end.

Section mount.
Context {H : Type} `{HeapOps H}.

(** The tree update for one entry. *)
Definition mount_entry (e : cpio_entry) : M (vfs H) unit :=
  let filename := strip_dot (ce_name e) in
  if bool_decide (filename = [46]) then ret tt
  else
    parent_dir <- create_directories filename ;;
    let leaf := leaf_name filename in
    if Z.land (ce_mode e) 0xF000 =? 0x4000 then
      n <- vfs_find_node parent_dir leaf ;;
      if n =? 0 then
        c <- vfs_create_node leaf VFS_DIRECTORY ;;
        vfs_add_child parent_dir c
      else ret tt
    else if Z.land (ce_mode e) 0xF000 =? 0x8000 then
      file <- vfs_create_node leaf VFS_FILE ;;
      nset (set_vn_file (ce_size e) (ce_data e)) file ;;
      vfs_add_child parent_dir file
    else ret tt.

(** Every iteration advances by more than the header, so the size of the archive
    bounds the number of iterations. *)
Fixpoint mount_loop (m : memory) (current_addr end_addr : Z) (fuel : nat) : M (vfs H) unit :=
  if current_addr <? end_addr then
    match fuel with
    | O => undef
    | S fuel' =>
        match scan_entry m current_addr end_addr with
        | ScanBad | ScanTrailer => ret tt
        | ScanStuck => undef
        | ScanEntry e next => mount_entry e ;; mount_loop m next end_addr fuel'
        end
    end
  else ret tt.
Definition initramfs_init (m : memory) (base_address size : Z) : M (vfs H) unit :=
  init_vfs ;;
  mount_loop m base_address (u64 (base_address + size)) (S (Z.to_nat size)).
End mount.

(** ** Hexadecimal numbers *)

Definition hex_char (d : Z) : Z := if d <? 10 then 48 + d else 97 + (d - 10).

Lemma hex_step_char d val :
  0 <= d < 16 -> 0 <= val < 268435456 -> hex_step (hex_char d) val = 16 * val + d.
Proof.
  intros Hd Hv. unfold hex_step. cbv zeta.
  assert (E : u32 (Z.shiftl val 4) = 16 * val).
  { rewrite Z.shiftl_mul_pow2 by lia. change (2 ^ 4) with 16. rewrite u32_small; lia. }
  assert (Hor : forall x, 0 <= x < 16 -> Z.lor (16 * val) x = 16 * val + x).
  { intros x Hx. rewrite (Z.mul_comm 16). by apply (lor_low 4). }
  rewrite E. unfold hex_char. destruct (Z.ltb_spec d 10); case_bools; rewrite Hor by lia; lia.
Qed.

(** The eight digits of [n] at [a]. *)
Definition hex_at (m : memory) (a n : Z) : Prop :=
  0 <= n < 4294967296 /\ forall k, (k < 8)%nat -> load8 m (a + 7 - Z.of_nat k) = hex_char (n / 16 ^ Z.of_nat k mod 16).

Lemma parse_hex_digits m a n : 0 <= n < 4294967296 -> forall k : nat,
  (k <= 8)%nat -> (forall j, (j < k)%nat -> load8 m (a + 7 - Z.of_nat j) = hex_char (n / 16 ^ Z.of_nat j mod 16)) ->
  parse_hex m (a + 8 - Z.of_nat k) k (n / 16 ^ Z.of_nat k) = n.
Proof.
  intros Hn k. induction k as [|k IH]; intros Hk Hd.
  - cbn [parse_hex]. change (16 ^ Z.of_nat 0) with 1. apply Z.div_1_r.
  - cbn [parse_hex]. replace (a + 8 - Z.of_nat (S k)) with (a + 7 - Z.of_nat k) by lia.
    replace (a + 7 - Z.of_nat k + 1) with (a + 8 - Z.of_nat k) by lia.
    rewrite (Hd k) by lia.
    assert (E : n / 16 ^ Z.of_nat (S k) = n / 16 ^ Z.of_nat k / 16).
    { rewrite Nat2Z.inj_succ, Z.pow_succ_r by lia. rewrite Z.div_div; [f_equal; lia|lia|lia]. }
    assert (Hle : 0 <= n / 16 ^ Z.of_nat k <= n).
    { split; [apply Z.div_pos; lia|]. apply Z.div_le_upper_bound; [lia|].
      assert (1 <= 16 ^ Z.of_nat k) by lia. nia. }
    rewrite E, hex_step_char; [|apply Z.mod_pos_bound; lia|].
    + rewrite <- Z.div_mod by lia. apply IH; [lia|]. intros j Hj. apply Hd. lia.
    + split; [apply Z.div_pos; lia|]. apply Z.div_lt_upper_bound; lia.
Qed.

Lemma parse_hex_at m a n : hex_at m a n -> parse_hex_str m a 8 = n.
Proof.
  intros [Hn Hd]. unfold parse_hex_str. pose proof (parse_hex_digits m a n Hn 8%nat) as E.
  replace (a + 8 - Z.of_nat 8) with a in E by lia.
  rewrite Z.div_small in E by (change (16 ^ Z.of_nat 8) with 4294967296; lia). by apply E.
Qed.

(** ** Archives *)

Record file_image := mkFile { fi_name : str; fi_mode : Z; fi_data : list Z }.

(** The archive format: header, name and terminator, padding, data, padding. *)
Definition pad4 (v : Z) : Z := (v + 3) / 4 * 4.
Definition data_pos (a : Z) (f : file_image) : Z := pad4 (a + 110 + Z.of_nat (length (fi_name f)) + 1).
Definition next_pos (a : Z) (f : file_image) : Z := pad4 (data_pos a f + Z.of_nat (length (fi_data f))).

Record file_at (m : memory) (a : Z) (f : file_image) : Prop := {
  fa_magic : bytes_in m a MAGIC_NEWC;
  fa_mode : hex_at m (a + 14) (fi_mode f);
  fa_filesize : hex_at m (a + 54) (Z.of_nat (length (fi_data f)));
  fa_namesize : hex_at m (a + 94) (Z.of_nat (length (fi_name f)) + 1);
  fa_name : bytes_in m (a + 110) (fi_name f ++ [0]);
  fa_data : bytes_in m (data_pos a f) (fi_data f);
  fa_name_ok : Forall (fun c => c <> 0) (fi_name f);
  fa_not_trailer : take 10 (fi_name f) <> TRAILER;
}.
Fixpoint archive_at (m : memory) (a : Z) (fs : list file_image) (stop : Z) : Prop :=
  match fs with
  | [] => bytes_in m a MAGIC_NEWC /\ bytes_in m (a + 110) TRAILER /\ a + 120 <= stop
  | f :: fs' => file_at m a f /\ archive_at m (next_pos a f) fs' stop
  end.

(** What the loop reads of it. *)
Definition entry_of (a : Z) (f : file_image) : cpio_entry :=
  mkCe (fi_name f) (fi_mode f) (Z.of_nat (length (fi_data f))) (data_pos a f).
Fixpoint entries_of (a : Z) (fs : list file_image) : list cpio_entry :=
  match fs with
  | [] => []
  | f :: fs' => entry_of a f :: entries_of (next_pos a f) fs'
  end.
Definition mount_all {H} `{HeapOps H} (es : list cpio_entry) : M (vfs H) unit :=
  foldr (fun e k => mount_entry e ;; k) (ret tt) es.

Lemma pad4_bounds v : v <= pad4 v < v + 4.
Proof. unfold pad4. pose proof (Z.div_mod (v + 3) 4). pose proof (Z.mod_pos_bound (v + 3) 4). lia. Qed.
Lemma ALIGN4_pad4 v : 0 <= v < 18446744073709551612 -> ALIGN4 v = pad4 v.
Proof.
  intros Hv. unfold ALIGN4. rewrite u64_small by lia. apply (land_high 2 64); [lia|].
  change (2 ^ 64) with 18446744073709551616. lia.
Qed.
Lemma next_pos_gt a f : a + 110 + Z.of_nat (length (fi_name f)) < next_pos a f.
Proof.
  unfold next_pos, data_pos. pose proof (pad4_bounds (a + 110 + Z.of_nat (length (fi_name f)) + 1)).
  pose proof (pad4_bounds (pad4 (a + 110 + Z.of_nat (length (fi_name f)) + 1) + Z.of_nat (length (fi_data f)))). lia.
Qed.

Lemma archive_fits m stop fs : forall a, archive_at m a fs stop -> a + 120 + Z.of_nat (length fs) <= stop.
Proof.
  induction fs as [|f fs IH]; intros a; cbn [archive_at length].
  - intros (_ & _ & ?). lia.
  - intros [_ Ha]. specialize (IH _ Ha). pose proof (next_pos_gt a f). lia.
Qed.

Lemma bytes_at_true m l : forall a, bytes_in m a l -> bytes_at m a l = true.
Proof.
  induction l as [|c l IH]; intros a Hb; [done|]. apply bytes_in_cons in Hb as [Hc Hb].
  cbn [bytes_at]. rewrite Hc, Z.eqb_refl. by apply IH.
Qed.
Lemma read_cstr_name m s : forall a fuel,
  bytes_in m a (s ++ [0]) -> Forall (fun c => c <> 0) s -> (length s < fuel)%nat -> read_cstr m a fuel = Some s.
Proof.
  induction s as [|c s IH]; intros a fuel Hb Hs Hf; (destruct fuel as [|fuel]; [simpl in Hf; lia|]);
    apply bytes_in_cons in Hb as [Hc Hb]; cbn [read_cstr]; rewrite Hc.
  - done.
  - apply Forall_cons in Hs as [Hc0 Hs]. destruct (Z.eqb_spec c 0); [done|].
    rewrite IH; [done|done|done|simpl in Hf; lia].
Qed.

(** A name that does not start with [l] differs from it where it is compared. *)
Lemma bytes_at_false m l : forall a s,
  bytes_in m a (s ++ [0]) -> Forall (fun c => c <> 0) l -> take (length l) s <> l -> bytes_at m a l = false.
Proof.
  induction l as [|c l IH]; intros a s Hb Hl Hne; [done|]. apply Forall_cons in Hl as [Hc Hl].
  cbn [bytes_at]. destruct s as [|x s]; apply bytes_in_cons in Hb as [Hx Hb]; rewrite Hx.
  - by rewrite (proj2 (Z.eqb_neq 0 c)).
  - destruct (Z.eqb_spec x c) as [->|]; [|done]. apply (IH _ s); [done|done|].
    intros E. apply Hne. cbn [length take]. by rewrite E.
Qed.

Lemma scan_file m a stop f :
  0 <= a -> file_at m a f -> next_pos a f + 120 <= stop < 18446744073709551612 ->
  scan_entry m a stop = ScanEntry (entry_of a f) (next_pos a f).
Proof.
  intros Ha [Hmg Hmode Hsz Hnsz Hname _ Hok Htr] Hstop. unfold scan_entry.
  rewrite (bytes_at_true m MAGIC_NEWC a Hmg). cbn [negb andb].
  rewrite (parse_hex_at _ _ _ Hmode), (parse_hex_at _ _ _ Hsz), (parse_hex_at _ _ _ Hnsz). unfold CPIO_HEADER_SIZE.
  rewrite (bytes_at_false m TRAILER (a + 110) (fi_name f)); [|done|by repeat constructor|done].
  assert (H1 := next_pos_gt a f).
  assert (H2 := pad4_bounds (data_pos a f + Z.of_nat (length (fi_data f)))). fold (next_pos a f) in H2.
  assert (H3 := pad4_bounds (a + 110 + Z.of_nat (length (fi_name f)) + 1)). fold (data_pos a f) in H3.
  rewrite Z.add_assoc, (u64_small (a + 110 + _ + 1)), (ALIGN4_pad4 (a + 110 + _ + 1)) by lia. fold (data_pos a f).
  rewrite (read_cstr_name m (fi_name f)) by (done || lia).
  by rewrite (u64_small (data_pos a f + _)), (ALIGN4_pad4 (data_pos a f + _)) by lia.
Qed.

Section load.
Context {H : Type} `{HeapOps H}.

Lemma mount_loop_archive m stop : stop < 18446744073709551612 -> forall fs a fuel (s : vfs H),
  0 <= a -> archive_at m a fs stop -> (length fs < fuel)%nat ->
  mount_loop m a stop fuel s = mount_all (entries_of a fs) s.
Proof.
  intros Hstop. induction fs as [|f fs IH]; intros a fuel s Ha Har Hf; (destruct fuel as [|fuel]; [lia|]);
    pose proof (archive_fits _ _ _ _ Har) as Hfit; cbn [mount_loop]; (destruct (Z.ltb_spec a stop); [|lia]).
  - destruct Har as (Hmg & Htr & _). unfold scan_entry.
    rewrite (bytes_at_true m MAGIC_NEWC a Hmg). cbn [negb andb].
    unfold CPIO_HEADER_SIZE. by rewrite (bytes_at_true m TRAILER _ Htr).
  - destruct Har as [Hfile Har]. pose proof (archive_fits _ _ _ _ Har) as Hfit'.
    rewrite (scan_file m a stop f) by (done || lia). cbn [entries_of mount_all foldr]. unfold bind.
    destruct (mount_entry (entry_of a f) s) as [[[] s']|]; [|done]. simpl in Hf. pose proof (next_pos_gt a f).
    rewrite IH; [done|lia|done|lia].
Qed.

End load.

(** ** Paths *)

Lemma split_path_noslash p : existsb (Z.eqb slash) p = false -> split_path p = [p].
Proof.
  induction p as [|c p IH]; [done|]. cbn [existsb split_path]. rewrite (Z.eqb_sym slash c).
  destruct (c =? slash); [done|]. cbn [orb]. intros Hp. by rewrite IH.
Qed.
Lemma split_path_slash p : existsb (Z.eqb slash) p = true -> exists sg r, split_path p = sg :: r /\ r <> [].
Proof.
  induction p as [|c p IH]; [done|]. cbn [existsb split_path]. rewrite (Z.eqb_sym slash c).
  destruct (c =? slash); cbn [orb].
  - intros _. eexists _, _. split; [done|]. apply split_path_ne.
  - intros Hp. destruct (IH Hp) as (sg & r & -> & Hr). by exists (c :: sg), r.
Qed.

(** A path is its directories and its leaf. *)
Lemma split_path_leaf p : split_path p = removelast (split_path p) ++ [leaf_name p].
Proof.
  induction p as [|c p IH]; [done|]. cbn [leaf_name].
  destruct (existsb (Z.eqb slash) (c :: p)) eqn:E.
  - cbn [existsb] in E. rewrite (Z.eqb_sym slash c) in E. cbn [split_path]. destruct (c =? slash).
    + rewrite removelast_cons by apply split_path_ne. cbn [app]. by rewrite <- IH.
    + destruct (split_path_slash p E) as (sg & r & Esp & Hr). rewrite Esp in IH |- *.
      rewrite removelast_cons in IH |- * by done. cbn [app] in IH |- *. by injection IH as <-.
  - by rewrite split_path_noslash.
Qed.
Lemma segments_leaf p : leaf_name p <> [] -> segments p = dir_segments p ++ [leaf_name p].
Proof.
  intros Hl. unfold segments, dir_segments. rewrite split_path_leaf at 1. rewrite filter_app. f_equal.
  by destruct (leaf_name p).
Qed.

Lemma resolve_snoc m kids segs sg : forall p r,
  resolve m kids p segs = Some r -> resolve m kids p (segs ++ [sg]) = child_named m (kids r) sg.
Proof.
  induction segs as [|sg' segs IH]; intros p r; cbn [resolve app].
  - intros [= ->]. by destruct (child_named m (kids r) sg).
  - destruct (child_named m (kids p) sg'); [|done]. apply IH.
Qed.

Lemma leaf_name_Forall (P : Z -> Prop) p : Forall P p -> Forall P (leaf_name p).
Proof.
  induction 1 as [|c p Hc Hp IH]; [constructor|]. cbn [leaf_name].
  destruct (existsb _ _); [done|by constructor].
Qed.
Lemma leaf_name_noslash p : Forall (fun c => c <> slash) (leaf_name p).
Proof.
  induction p as [|c p IH]; [constructor|]. cbn [leaf_name].
  destruct (existsb (Z.eqb slash) (c :: p)) eqn:E; [done|]. apply Forall_forall. intros x Hx ->.
  assert (existsb (Z.eqb slash) (c :: p) = true) as F; [|congruence].
  apply existsb_exists. exists slash. split; [by apply list_elem_of_In|apply Z.eqb_refl].
Qed.

(** ** The file system of an archive

    A file system is a map from paths, lists of names, to directories and files with
    their contents. *)

Inductive object := ADir | AFile (data : list Z).
Abbreviation files := (gmap (list str) object).

(** The directories on the way from [pre] along [segs] are there. *)
Fixpoint with_dirs (pre segs : list str) (fs : files) : files :=
  match segs with
  | [] => fs
  | sg :: segs' =>
      let p := pre ++ [sg] in
      with_dirs p segs' (match fs !! p with Some _ => fs | None => <[p := ADir]> fs end)
  end.

(** The path of an entry: its name is relative to the root, with or without "." in front. *)
Definition entry_path (name : str) : list str :=
  match segments name with
  | sg :: segs => if bool_decide (sg = [46]) then segs else sg :: segs
  | [] => []
  end.
(** Bits 12 to 15 of the mode: 4 is a directory, 8 a regular file. *)
Definition file_type (mode : Z) : Z := mode / 4096 mod 16.

Definition mounted_file (f : file_image) (fs : files) : files :=
  match entry_path (fi_name f) with
  | [] => fs
  | path =>
      let fs := with_dirs [] (removelast path) fs in
      if file_type (fi_mode f) =? 4 then match fs !! path with Some _ => fs | None => <[path := ADir]> fs end
      else if file_type (fi_mode f) =? 8 then <[path := AFile (fi_data f)]> fs
      else fs
  end.
Definition archive_files (l : list file_image) : files := foldl (fun fs f => mounted_file f fs) {[[] := ADir]} l.

(** Names as an archiver writes them: relative, without a slash at the end, without "."
    but for one in front, and with parts that fit in a node. *)
Record name_ok (name : str) : Prop := {
  na_relative : chr name <> slash;
  na_leaf : leaf_name name <> [];
  na_dot : [46] ∉ entry_path name;
  na_short : Forall (fun sg => length sg < 128)%nat (split_path name);
}.
(** A regular file does not come twice, nor after a directory of its name. *)
Fixpoint archive_ok (l : list file_image) (fs : files) : Prop :=
  match l with
  | [] => True
  | f :: l' => name_ok (fi_name f) /\ (file_type (fi_mode f) = 8 -> fs !! entry_path (fi_name f) = None) /\ archive_ok l' (mounted_file f fs)
  end.

(** What a node shows of a file or a directory, and a lookup of what is in the map. *)
Definition node_shows (m : memory) (n : vnode) (ob : object) : Prop :=
  match ob with
  | ADir => vn_type n = VFS_DIRECTORY
  | AFile d => vn_type n = VFS_FILE /\ vn_size n = Z.of_nat (length d) /\ bytes_in m (vn_data n) d
  end.
Definition shows (m : memory) (ns : gmap Z vnode) (found : option Z) (ob : option object) : Prop :=
  match found, ob with
  | Some c, Some b => exists n, ns !! c = Some n /\ node_shows m n b
  | None, None => True
  | _, _ => False
  end.

(** The directories on the way are shorter paths than the entry. *)
Lemma with_dirs_other segs : forall pre fs path, (length pre + length segs < length path)%nat -> with_dirs pre segs fs !! path = fs !! path.
Proof.
  induction segs as [|sg segs IH]; intros pre fs path Hl; [done|]. cbn [with_dirs length] in *. rewrite IH by (rewrite length_app; cbn; lia).
  destruct (fs !! (pre ++ [sg])); [done|]. rewrite lookup_insert_ne; [done|]. intros <-. rewrite length_app in Hl. cbn in Hl. lia.
Qed.

(** ** Paths in the tree *)

Lemma resolve_join m kids a : forall p b, resolve m kids p (a ++ b) = match resolve m kids p a with Some q => resolve m kids q b | None => None end.
Proof. induction a as [|sg a IH]; intros p b; [done|]. cbn [app resolve]. by destruct (child_named m (kids p) sg). Qed.
Lemma resolve_last m kids p a sg c : resolve m kids p (a ++ [sg]) = Some c ->
  exists q, resolve m kids p a = Some q /\ child_named m (kids q) sg = Some c.
Proof.
  rewrite resolve_join. destruct (resolve m kids p a) as [q|]; [|done]. intros E. exists q. split; [done|]. cbn [resolve] in E.
  by destruct (child_named m (kids q) sg).
Qed.
(** No two paths lead to one node. *)
Lemma resolve_unique m kids root : fs_wf m kids -> (forall q, root ∉ kids q) -> forall P Q r,
  resolve m kids root P = Some r -> resolve m kids root Q = Some r -> P = Q.
Proof.
  intros Hwf Hroot. assert (Hne : forall P sg, resolve m kids root (P ++ [sg]) <> Some root).
  { intros P sg (q & _ & [Hq _]%child_named_elem)%resolve_last. by apply (Hroot q). }
  induction P as [|s P IH] using rev_ind; intros Q r HP HQ; destruct Q as [|t Q _] using rev_ind; [done| | |].
  - injection HP as <-. by apply Hne in HQ.
  - injection HQ as <-. by apply Hne in HP.
  - apply resolve_last in HP as (p & HP & [Hp Ep]%child_named_elem), HQ as (q & HQ & [Hq Eq]%child_named_elem).
    assert (p = q) as <- by (by apply (fw_parent _ _ Hwf p q r)). rewrite (IH Q p HP HQ). congruence.
Qed.
Lemma resolve_lives m kids root P r : fs_wf m kids -> is_Some (m !! root) -> resolve m kids root P = Some r -> is_Some (m !! r).
Proof.
  intros Hwf. revert root. induction P as [|sg P IH]; intros root Hr E; cbn [resolve] in E; [by injection E as <-|].
  destruct (child_named m (kids root) sg) as [c|] eqn:Ec; [|done]. apply (IH c); [|done]. destruct Hr as [n Hn]. apply child_named_elem in Ec as [Hc _].
  destruct (chain_elem _ _ _ _ (fw_chain _ _ Hwf root n Hn) Hc) as (_ & nc & ->). done.
Qed.
Lemma child_named_same m1 m2 l seg : (forall q, q ∈ l -> name_of m1 q = name_of m2 q) -> child_named m1 l seg = child_named m2 l seg.
Proof.
  intros E. unfold child_named. induction l as [|a l IH]; [done|]. cbn [List.find]. rewrite IH by (intros q Hq; apply E; by right).
  rewrite (E a) by (by left). done.
Qed.

(** A new leaf [c] under the node at [P] answers for one more path. *)
Lemma resolve_added m m' kids root P r c leaf : fs_wf m kids -> (forall q, root ∉ kids q) -> is_Some (m !! root) -> m !! c = None ->
  (forall q n, m !! q = Some n -> name_of m' q = vn_name n) -> name_of m' c = leaf -> resolve m kids root P = Some r -> resolve m kids root (P ++ [leaf]) = None ->
  forall segs, resolve m' (add_kid kids r c) root segs = if decide (segs = P ++ [leaf]) then Some c else resolve m kids root segs.
Proof.
  intros Hwf Hroot Hl Hc Hn Hnc HP Hnew. destruct (resolve_lives _ _ _ _ _ Hwf Hl HP) as [nr Hnr]. assert (Hrc : r <> c) by congruence.
  assert (Hkids : forall q sg, is_Some (m !! q) -> child_named m' (kids q) sg = child_named m (kids q) sg).
  { intros q sg [nq Hq]. apply child_named_same. intros x Hx. destruct (chain_elem _ _ _ _ (fw_chain _ _ Hwf q nq Hq) Hx) as (_ & nx & Hnx).
    rewrite (Hn x nx Hnx). unfold name_of. by rewrite Hnx. }
  assert (Hnew' : child_named m (kids r) leaf = None) by (by rewrite <- (resolve_snoc m kids P leaf root r HP)).
  induction segs as [|sg segs IH] using rev_ind; [rewrite decide_False; [done|by destruct P]|].
  rewrite !resolve_join, IH. destruct (decide (segs = P ++ [leaf])) as [->|Hne].
  - rewrite decide_False by (intros E%app_inj_tail; destruct E as [E _]; apply (f_equal length) in E; rewrite length_app in E; cbn in E; lia).
    rewrite Hnew. cbn [resolve]. unfold add_kid. destruct (Z.eqb_spec c r); [congruence|]. by rewrite (fw_dead _ _ Hwf c Hc).
  - destruct (resolve m kids root segs) as [q|] eqn:Eq.
    2:{ rewrite decide_False; [done|]. intros [-> _]%app_inj_tail. congruence. }
    pose proof (resolve_lives _ _ _ _ _ Hwf Hl Eq) as Hlq. cbn [resolve]. unfold add_kid. destruct (Z.eqb_spec q r) as [->|Hqr].
    + assert (segs = P) as -> by (by apply (resolve_unique m kids root Hwf Hroot segs P r)).
      unfold child_named at 1. cbn [List.find]. rewrite Hnc. fold (child_named m' (kids r) sg). rewrite Hkids by done. destruct (decide (leaf = sg)) as [->|Hls].
      * rewrite bool_decide_true, decide_True by done. done.
      * rewrite bool_decide_false by done. rewrite decide_False; [done|]. by intros [_ ->]%app_inj_tail.
    + rewrite Hkids by done. rewrite decide_False; [done|]. intros [-> _]%app_inj_tail. congruence.
Qed.

(** ** Names and modes *)

Lemma land_type mode : Z.land mode 0xF000 = file_type mode * 4096.
Proof.
  unfold file_type. change 16 with (2 ^ 4). rewrite <- Z.land_ones by lia. change 4096 with (2 ^ 12). rewrite <- Z.shiftr_div_pow2, <- Z.shiftl_mul_pow2 by lia.
  apply Z.bits_inj'. intros i Hi. rewrite Z.land_spec, Z.shiftl_spec, Z.land_spec by done. change 0xF000 with (Z.shiftl (Z.ones 4) 12).
  rewrite Z.shiftl_spec by done. destruct (Z.ltb_spec i 12); [rewrite !(Z.testbit_neg_r _ (i - 12)) by lia; by rewrite andb_false_r|].
  rewrite Z.shiftr_spec by lia. by replace (i - 12 + 12) with i by lia.
Qed.
Lemma split_path_head c p : c <> slash -> exists sg r, split_path (c :: p) = (c :: sg) :: r /\ (sg = [] <-> p = [] \/ chr p = slash).
Proof.
  intros Hc. cbn [split_path]. destruct (Z.eqb_spec c slash); [done|]. destruct p as [|x p]; [exists [], []; cbn; intuition|].
  cbn [split_path chr]. destruct (Z.eqb_spec x slash) as [->|Hx]; [eexists [], _; cbn; intuition|].
  destruct (split_path p) as [|sg r] eqn:E; [by destruct (split_path_ne p)|]. exists (x :: sg), r. split; [done|]. split; [done|]. intros [?|?]; done.
Qed.
(** What the loop makes of a name is the path of the entry. *)
Lemma strip_dot_path name : name_ok name -> (name = [46] /\ entry_path name = []) \/
  (strip_dot name <> [46] /\ leaf_name (strip_dot name) <> [] /\ segments (strip_dot name) = entry_path name /\
   Forall (fun sg => length sg < 128)%nat (split_path (strip_dot name)) /\ exists pre, name = pre ++ strip_dot name).
Proof.
  intros [Hrel Hleaf Hdot Hshort]. destruct name as [|c0 p]; [done|]. cbn [chr] in Hrel. destruct (split_path_head c0 p Hrel) as (sg & r & Esp & Hsg).
  assert (Eseg : segments (c0 :: p) = (c0 :: sg) :: filter nonempty r) by (unfold segments; rewrite Esp; by rewrite filter_cons_True).
  assert (Eent : entry_path (c0 :: p) = if bool_decide (c0 :: sg = [46]) then filter nonempty r else segments (c0 :: p)) by (unfold entry_path; by rewrite Eseg).
  destruct p as [|c1 p].
  { destruct (decide (c0 = 46)) as [->|Hc]; [by left|right]. rewrite Eent, bool_decide_false by (intros [= -> _]; done). cbn [strip_dot].
    split_and!; [congruence|done|done|done|by exists []]. }
  right. cbn [strip_dot]. destruct ((c0 =? 46) && (c1 =? slash)) eqn:E.
  - apply andb_true_iff in E as [->%Z.eqb_eq ->%Z.eqb_eq]. assert (Hs : split_path (46 :: slash :: p) = [46] :: split_path p) by done.
    rewrite Hs in Esp. injection Esp as <- <-. rewrite Eent, bool_decide_true in Hdot |- * by done. rewrite Hs in Hshort. apply Forall_cons in Hshort as [_ Hshort].
    split_and!; [|done|done|done|by exists [46; slash]]. intros ->. apply Hdot. by left.
  - rewrite Eent, bool_decide_false; [by split_and!; [..|by exists []]|]. intros [= -> Es]. destruct (proj1 Hsg Es) as [|Hc]; [done|]. cbn in Hc. by rewrite Hc in E.
Qed.

(** ** Mounting *)

Section mounted.
Context {H : Type} `{HH : Heap H} (Htotal : heap_total H) (m : memory).
Implicit Types (s : vfs H) (fs : files).

(** The tree in the kernel's memory is the file system [fs], path by path. *)
Record mounted s (kids : Z -> list Z) fs : Prop := {
  mo_ok : vfs_ok s kids;
  mo_root : forall q, vfs_root s ∉ kids q;
  mo_live : is_Some (nodes s !! vfs_root s);
  mo_shows : forall path, shows m (nodes s) (resolve (nodes s) kids (vfs_root s) path) (fs !! path);
}.
Lemma mounted_none s kids fs path : mounted s kids fs -> fs !! path = None <-> resolve (nodes s) kids (vfs_root s) path = None.
Proof. intros Hm. pose proof (mo_shows _ _ _ Hm path) as Hs. unfold shows in Hs. by destruct (resolve _ _ _ path), (fs !! path). Qed.

Lemma wp_hang s kids fs P r c s1 n0 ob : mounted s kids fs -> resolve (nodes s) kids (vfs_root s) P = Some r ->
  fresh_node s kids s1 c n0 -> vn_children n0 = 0 -> Forall (fun x => x <> 0) (vn_name n0) -> fs !! (P ++ [vn_name n0]) = None -> node_shows m n0 ob ->
  wp (vfs_add_child r c) (fun _ s' => mounted s' (add_kid kids r c) (<[P ++ [vn_name n0] := ob]> fs) /\ vfs_root s' = vfs_root s /\
    resolve (nodes s') (add_kid kids r c) (vfs_root s') (P ++ [vn_name n0]) = Some c) s1.
Proof.
  intros Hm HP Hf Hch Hnz Hnew Hob. pose proof Hm as [Hok Hroot Hl Hsh]. pose proof (vo_fs _ _ Hok) as Hwf.
  pose proof (proj1 (mounted_none s kids fs _ Hm) Hnew) as Hres. destruct (resolve_lives _ _ _ _ _ Hwf Hl HP) as [nr Hnr].
  pose proof (resolve_snoc _ _ _ (vn_name n0) _ _ HP) as Ec. rewrite Hres in Ec. symmetry in Ec.
  eapply wp_mono; [by apply (wp_vfs_add_child s kids s1 r nr c n0 Hok Hnr Hf)|].
  intros [] s' (Hok' & (_ & Hgn & Er) & _ & n & Hn & E1 & E2 & E3 & E4). destruct Hf as (_ & _ & Hcn & _ & _ & _ & Hkc).
  assert (Hall : forall segs, resolve (nodes s') (add_kid kids r c) (vfs_root s) segs = if decide (segs = P ++ [vn_name n0]) then Some c else resolve (nodes s) kids (vfs_root s) segs).
  { apply resolve_added; try done; [|unfold name_of; by rewrite Hn]. intros q nq Hq. destruct (Hgn q nq Hq) as (nq' & Hq' & <- & _). unfold name_of. by rewrite Hq'. }
  split; [split|split; [done|]]; rewrite ?Er; try done.
  - intros q. unfold add_kid. destruct (q =? r); [|done]. intros [E|?]%elem_of_cons; [|by apply (Hroot r)]. destruct Hl as [? Hl]. congruence.
  - destruct Hl as [nl Hl]. destruct (Hgn _ _ Hl) as (nl' & -> & _). done.
  - intros path. rewrite Hall. destruct (decide (path = P ++ [vn_name n0])) as [->|Hne].
    + rewrite lookup_insert_eq. exists n. split; [done|]. destruct ob; cbn in *; [congruence|]. by rewrite E2, E3, E4.
    + rewrite lookup_insert_ne by done. specialize (Hsh path). unfold shows in *. destruct (resolve (nodes s) kids _ path) as [q|] eqn:Eq; [|done].
      destruct (fs !! path) as [b|]; [|done]. destruct Hsh as (nq & Hq & Hb). destruct (Hgn q nq Hq) as (nq' & Hq' & F1 & F2 & F3 & F4).
      exists nq'. split; [done|]. destruct b; cbn in *; [congruence|]. by rewrite F2, F3, F4.
  - rewrite Hall. by rewrite decide_True.
Qed.

Lemma node_name_self seg : Forall (fun c => c <> slash) seg -> (length seg < 128)%nat -> node_name seg = seg.
Proof. intros Hs Hl. unfold node_name. rewrite segment_self by done. apply take_ge. cbn. lia. Qed.

Lemma wp_add_dir s kids fs P r leaf : mounted s kids fs -> resolve (nodes s) kids (vfs_root s) P = Some r ->
  Forall (fun c => c <> 0) leaf -> Forall (fun c => c <> slash) leaf -> (length leaf < 128)%nat -> fs !! (P ++ [leaf]) = None ->
  wp (c <- vfs_create_node leaf VFS_DIRECTORY ;; vfs_add_child r c ;; ret c) (fun c s' => exists kids', mounted s' kids' (<[P ++ [leaf] := ADir]> fs) /\
    vfs_root s' = vfs_root s /\ resolve (nodes s') kids' (vfs_root s') (P ++ [leaf]) = Some c) s.
Proof.
  intros Hm HP Hnz Hsl Hlen Hnew. wp_step. eapply wp_mono; [apply (wp_vfs_create_node Htotal s kids leaf VFS_DIRECTORY), Hm|].
  intros c s1 Hf. rewrite node_name_self in Hf by done. wp_step. eapply wp_mono; [by apply (wp_hang s kids fs P r c s1 _ ADir Hm HP Hf)|].
  intros [] s' Hs'. wp_step. by exists (add_kid kids r c).
Qed.

Lemma wp_add_file s kids fs P r leaf a d : mounted s kids fs -> resolve (nodes s) kids (vfs_root s) P = Some r ->
  Forall (fun c => c <> 0) leaf -> Forall (fun c => c <> slash) leaf -> (length leaf < 128)%nat -> fs !! (P ++ [leaf]) = None -> bytes_in m a d ->
  wp (file <- vfs_create_node leaf VFS_FILE ;; nset (set_vn_file (Z.of_nat (length d)) a) file ;; vfs_add_child r file)
    (fun _ s' => exists kids', mounted s' kids' (<[P ++ [leaf] := AFile d]> fs) /\ vfs_root s' = vfs_root s) s.
Proof.
  intros Hm HP Hnz Hsl Hlen Hnew Hd. wp_step. eapply wp_mono; [apply (wp_vfs_create_node Htotal s kids leaf VFS_FILE), Hm|].
  intros c s1 Hf. rewrite node_name_self in Hf by done. pose proof Hf as (Hm0 & Hroot & Hcn & Hc0 & Hh & Hl & Hk).
  wp_step. eapply wp_nset; [rewrite Hm0; apply lookup_insert_eq|]. cbv beta. set (s2 := mkVfs _ _ _).
  assert (Hf2 : fresh_node s kids s2 c (mkVnode leaf VFS_FILE (Z.of_nat (length d)) a 0 0 0)) by (split_and!; try done; cbn [s2 nodes]; by rewrite Hm0, insert_insert_eq).
  eapply wp_mono; [by apply (wp_hang s kids fs P r c s2 _ (AFile d) Hm HP Hf2)|]. intros [] s' (Hs' & Er & _). by exists (add_kid kids r c).
Qed.

(** [create_directories] on the way to an entry. *)
Lemma wp_mount_dirs fuel : forall path s kids fs P r, mounted s kids fs -> resolve (nodes s) kids (vfs_root s) P = Some r ->
  Forall (fun c => c <> 0) path -> Forall (fun sg => length sg < 128)%nat (removelast (split_path path)) -> (length path < fuel)%nat ->
  wp (create_dirs r path fuel) (fun d s' => exists kids', mounted s' kids' (with_dirs P (dir_segments path) fs) /\ vfs_root s' = vfs_root s /\
    resolve (nodes s') kids' (vfs_root s') (P ++ dir_segments path) = Some d) s.
Proof.
  induction fuel as [|fuel IH]; intros path s kids fs P r Hm HP Hnz Hshort Hf; [lia|]. pose proof (vo_fs _ _ (mo_ok _ _ _ Hm)) as Hwf.
  destruct (resolve_lives _ _ _ _ _ Hwf (mo_live _ _ _ Hm) HP) as [nr Hnr]. assert (Hr0 : r <> 0) by (intros ->; rewrite (fw_null _ _ Hwf) in Hnr; done).
  destruct (segment_spec path) as (Epath & Hsl & Hnx & Hsp). destruct (segment_nz path Hnz) as [Hz1 Hz2].
  unfold dir_segments in *. rewrite Hsp in *. cbn [create_dirs]. destruct (segment path) as [seg nx] eqn:Eseg. cbn [fst snd] in *.
  destruct path as [|c0 path]; [injection Eseg as <- <-; wp_step; exists kids; by rewrite app_nil_r|].
  destruct nx as [|sl rest]; [wp_step; exists kids; by rewrite app_nil_r|].
  rewrite (removelast_cons seg _ (split_path_ne rest)) in *. apply Forall_cons in Hshort as [Hlen Hshort]. apply Forall_cons in Hz2 as [_ Hrest].
  destruct (Z.leb_spec 128 (Z.of_nat (length seg))); [lia|]. wp_step. unfold vfs_find_node.
  eapply wp_mono; [by eapply (wp_find_node s kids _ seg r nr); try done; lia|]. intros x s' [-> ->]. rewrite segments_self by done.
  assert (Hfuel : (length rest < fuel)%nat) by (apply (f_equal length) in Epath; rewrite length_app in Epath; cbn in Epath, Hf; lia).
  destruct (decide (seg = [])) as [->|Hne].
  { rewrite !filter_cons_False by (intros []). rewrite filter_nil. cbn [resolve default id]. destruct (Z.eqb_spec r 0); [done|]. wp_steps. by eapply (IH rest s kids fs P r). }
  rewrite !filter_cons_True by (by destruct seg). rewrite filter_nil. cbn [with_dirs].
  assert (Hone : resolve (nodes s) kids r [seg] = resolve (nodes s) kids (vfs_root s) (P ++ [seg])) by (by rewrite resolve_join, HP). rewrite Hone.
  replace (P ++ seg :: filter nonempty (removelast (split_path rest))) with ((P ++ [seg]) ++ filter nonempty (removelast (split_path rest))) by (by rewrite <- app_assoc).
  pose proof (mounted_none s kids fs (P ++ [seg]) Hm) as Hnone. destruct (resolve (nodes s) kids (vfs_root s) (P ++ [seg])) as [c|] eqn:Ec.
  - cbn [default id]. destruct (resolve_lives _ _ _ _ _ Hwf (mo_live _ _ _ Hm) Ec) as [nc Hnc].
    destruct (Z.eqb_spec c 0) as [->|_]; [rewrite (fw_null _ _ Hwf) in Hnc; done|]. wp_steps.
    destruct (fs !! (P ++ [seg])) as [ob|]; [|discriminate (proj1 Hnone eq_refl)]. by apply (IH rest s kids fs (P ++ [seg]) c).
  - rewrite (proj2 Hnone eq_refl). cbn [default Z.eqb]. wp_step. eapply wp_mono; [by apply (wp_add_dir s kids fs P r seg); [..|apply Hnone]|].
    intros c s1 (kids1 & Hm1 & Er & Hc). cbv beta. rewrite <- Er. by apply (IH rest s1 kids1 (<[P ++ [seg] := ADir]> fs) (P ++ [seg]) c).
Qed.

(** One entry. *)
Lemma wp_mount_entry s kids fs a f : mounted s kids fs -> Forall (fun c => c <> 0) (fi_name f) -> name_ok (fi_name f) ->
  (file_type (fi_mode f) = 8 -> fs !! entry_path (fi_name f) = None) -> bytes_in m (data_pos a f) (fi_data f) ->
  wp (mount_entry (entry_of a f)) (fun _ s' => exists kids', mounted s' kids' (mounted_file f fs)) s.
Proof.
  intros Hm Hnz Hok Hnew Hd. unfold mount_entry. cbn [ce_name ce_mode ce_size ce_data entry_of]. cbv zeta.
  destruct (strip_dot_path _ Hok) as [[En E]|(Hdot & Hleaf & Eseg & Hshort & pre & Epre)].
  { unfold mounted_file. rewrite E, En. rewrite bool_decide_true by done. wp_step. by exists kids. }
  set (g := strip_dot (fi_name f)) in *. rewrite bool_decide_false by done. unfold create_directories. rewrite Epre in Hnz. apply Forall_app in Hnz as [_ Hnz].
  rewrite split_path_leaf in Hshort. apply Forall_app in Hshort as [Hdirs [Hlen _]%Forall_cons]. rewrite segments_leaf in Eseg by done.
  assert (Emf : mounted_file f fs = (let fs := with_dirs [] (dir_segments g) fs in
      if file_type (fi_mode f) =? 4 then match fs !! (dir_segments g ++ [leaf_name g]) with Some _ => fs | None => <[dir_segments g ++ [leaf_name g] := ADir]> fs end
      else if file_type (fi_mode f) =? 8 then <[dir_segments g ++ [leaf_name g] := AFile (fi_data f)]> fs else fs)).
  { unfold mounted_file. rewrite <- Eseg. destruct (dir_segments g ++ [leaf_name g]) as [|p0 ps] eqn:Ep; [by destruct (dir_segments g)|].
    rewrite <- Ep, removelast_last. done. }
  rewrite <- Eseg in Hnew. wp_steps. eapply wp_mono; [apply (wp_mount_dirs (S (length g)) g s kids fs [] (vfs_root s)); try done; lia|].
  intros d s1 (kids1 & Hm1 & Er & Hd1). cbn [app] in Hd1. rewrite Emf. cbv zeta. set (fs1 := with_dirs [] (dir_segments g) fs) in *. cbv beta. rewrite land_type.
  pose proof (leaf_name_Forall _ _ Hnz) as Hlnz. pose proof (leaf_name_noslash g) as Hlsl.
  destruct (resolve_lives _ _ _ _ _ (vo_fs _ _ (mo_ok _ _ _ Hm1)) (mo_live _ _ _ Hm1) Hd1) as [nd Hnd].
  destruct (Z.eqb_spec (file_type (fi_mode f)) 4) as [E4|E4]; [rewrite E4; change (4 * 4096 =? 16384) with true; cbv iota|].
  - wp_step. unfold vfs_find_node. eapply wp_mono; [eapply (wp_find_node s1 kids1 _ (leaf_name g) d nd); [apply Hm1|done|done|lia]|]. intros x s' [-> ->].
    rewrite segments_self, filter_cons_True, filter_nil by (done || by destruct (leaf_name g)).
    assert (Hone : resolve (nodes s1) kids1 d [leaf_name g] = resolve (nodes s1) kids1 (vfs_root s1) (dir_segments g ++ [leaf_name g])) by (by rewrite resolve_join, Hd1).
    rewrite Hone. pose proof (mounted_none s1 kids1 fs1 (dir_segments g ++ [leaf_name g]) Hm1) as Hnone.
    destruct (resolve (nodes s1) kids1 (vfs_root s1) (dir_segments g ++ [leaf_name g])) as [c|] eqn:Ec; cbn [default id].
    + destruct (resolve_lives _ _ _ _ _ (vo_fs _ _ (mo_ok _ _ _ Hm1)) (mo_live _ _ _ Hm1) Ec) as [nc Hnc].
      destruct (Z.eqb_spec c 0) as [->|_]; [rewrite (fw_null _ _ (vo_fs _ _ (mo_ok _ _ _ Hm1))) in Hnc; done|]. wp_step. exists kids1.
      destruct (fs1 !! _) as [ob|]; [done|discriminate (proj1 Hnone eq_refl)].
    + rewrite (proj2 Hnone eq_refl). cbn [Z.eqb]. pose proof (wp_add_dir s1 kids1 fs1 _ d (leaf_name g) Hm1 Hd1 Hlnz Hlsl Hlen (proj2 Hnone eq_refl)) as Hw.
      wp_follow Hw. apply wp_bind_inv in Hw. eapply wp_mono; [exact Hw|]. intros ? s2 (kids' & Hm' & _). by exists kids'.
  - destruct (Z.eqb_spec (file_type (fi_mode f) * 4096) 16384); [lia|]. destruct (Z.eqb_spec (file_type (fi_mode f)) 8) as [E8|E8].
    + rewrite E8. change (8 * 4096 =? 32768) with true. cbv iota.
      eapply wp_mono; [apply (wp_add_file s1 kids1 fs1 (dir_segments g) d (leaf_name g)); try done|]. 
      * unfold fs1. rewrite with_dirs_other; [by apply Hnew|]. rewrite length_app. cbn. lia.
      * intros ? s' (kids' & Hm' & _). by exists kids'.
    + destruct (Z.eqb_spec (file_type (fi_mode f) * 4096) 32768); [lia|]. wp_step. by exists kids1.
Qed.

Lemma wp_mount_all l : forall a s kids fs stop, mounted s kids fs -> archive_at m a l stop -> archive_ok l fs ->
  wp (mount_all (entries_of a l)) (fun _ s' => exists kids', mounted s' kids' (foldl (fun fs f => mounted_file f fs) fs l)) s.
Proof.
  induction l as [|f l IH]; intros a s kids fs stop Hm Har Hok; cbn [entries_of mount_all foldr foldl]; [wp_step; by exists kids|].
  destruct Har as [Hf Har], Hok as (Hn & Hnew & Hok). wp_step. eapply wp_mono; [by apply (wp_mount_entry s kids fs a f Hm); [apply Hf|..|apply Hf]|].
  intros ? s1 (kids1 & Hm1). by apply (IH _ s1 kids1 _ stop).
Qed.

(** The root alone. *)
Lemma wp_init_vfs s : nodes s = ∅ -> heap_wf (vfs_heap s) -> wp init_vfs (fun _ s' => exists kids, mounted s' kids {[[] := ADir]}) s.
Proof.
  intros Hn Hh. unfold init_vfs. wp_step. assert (Hok : vfs_ok s (fun _ => [])).
  { split; [|done|rewrite Hn; by intros p n ?%lookup_empty_Some]. rewrite Hn. split; try done.
    - intros p. constructor.
    - by intros p q c ?%not_elem_of_nil. }
  eapply wp_mono; [by apply (wp_vfs_create_node Htotal s (fun _ => []) [slash] VFS_DIRECTORY)|]. intros c s1 (E & Er & Hc & Hc0 & Hh1 & Hl & Hk). wp_steps.
  exists (fun _ => []). rewrite Hn in E. assert (Hwf : fs_wf (nodes s1) (fun _ => [])) by (rewrite E; apply fs_wf_insert; try done; rewrite <- Hn; apply Hok).
  split; cbn [vfs_root nodes]; [split; try done; cbn [nodes vfs_heap]| |by rewrite E, lookup_insert_eq|].
  - intros p n. rewrite E. intros [[<- _]|[_ ?%lookup_empty_Some]]%lookup_insert_Some; [|done]. apply Hl. by left.
  - intros q. apply not_elem_of_nil.
  - intros path. destruct path as [|sg path]; cbn [resolve]; [|by rewrite lookup_singleton_ne].
    rewrite lookup_singleton_eq. eexists. split; [by rewrite E, lookup_insert_eq|done].
Qed.

(** C36: On memory that holds an archive in the "newc" format, [initramfs_init] builds
    the file system of the archive: after it, path lookup in the tree finds exactly the
    directories and regular files of the archive, each file with its size and its bytes,
    and the directories on the way to them.  The names are as an archiver writes them,
    no regular file comes twice, and the heap does not run out. *)
Theorem initramfs_init_correct base size l s : nodes s = ∅ -> heap_wf (vfs_heap s) ->
  0 <= base -> base + size < 18446744073709551612 -> archive_at m base l (base + size) -> archive_ok l {[[] := ADir]} ->
  wp (initramfs_init m base size) (fun _ s' => exists kids, vfs_ok s' kids /\
    forall path, shows m (nodes s') (resolve (nodes s') kids (vfs_root s') path) (archive_files l !! path)) s.
Proof.
  intros Hn Hh Hb Hsz Har Hok. unfold initramfs_init. wp_step. eapply wp_mono; [by apply wp_init_vfs|]. intros ? s1 (kids & Hm).
  pose proof (archive_fits _ _ _ _ Har). rewrite u64_small by lia. unfold wp. rewrite (mount_loop_archive m (base + size) Hsz l) by (done || lia).
  pose proof (wp_mount_all l base s1 kids _ _ Hm Har Hok) as Hw. unfold wp in Hw. destruct (mount_all _ s1) as [[u s2]|]; [|done].
  destruct Hw as (kids' & Hm'). exists kids'. by destruct Hm'.
Qed.
End mounted.

(** ** Instances *)

Lemma bytes_at_in m l : forall a, bytes_at m a l = true -> bytes_in m a l.
Proof.
  induction l as [|c l IH]; intros a Hb i x Hi; [done|]. cbn [bytes_at] in Hb.
  apply andb_true_iff in Hb as [Hc Hb]. apply Z.eqb_eq in Hc. destruct i as [|i].
  - injection Hi as <-. by rewrite Z.add_0_r.
  - replace (a + Z.of_nat (S i)) with (a + 1 + Z.of_nat i) by lia. by apply IH.
Qed.
Definition hex_digits (n : Z) : list Z :=
  (fun k => hex_char (n / 16 ^ Z.of_nat k mod 16)) <$> [7; 6; 5; 4; 3; 2; 1; 0]%nat.
Lemma hex_at_digits m a n : 0 <= n < 4294967296 -> bytes_at m a (hex_digits n) = true -> hex_at m a n.
Proof.
  intros Hn Hb. split; [done|]. intros k Hk. apply bytes_at_in in Hb.
  replace (a + 7 - Z.of_nat k) with (a + Z.of_nat (7 - k)) by lia. apply Hb.
  do 8 (destruct k as [|k]; [done|]). lia.
Qed.

(** An archive at 4096 with the file "d/g" of three bytes. *)
Definition demo_file : file_image := mkFile [100; 47; 103] 0x81A4 [7; 8; 9].
Definition demo_archive : memory :=
  let m := store_bytes ∅ 4096 MAGIC_NEWC in
  let m := store_bytes m 4110 (hex_digits 0x81A4) in
  let m := store_bytes m 4150 (hex_digits 3) in
  let m := store_bytes m 4190 (hex_digits 4) in
  let m := store_bytes m 4206 [100; 47; 103; 0] in
  let m := store_bytes m 4212 [7; 8; 9] in
  let m := store_bytes m 4216 MAGIC_NEWC in
  store_bytes m 4326 TRAILER.

Lemma demo_archive_at : archive_at demo_archive 4096 [demo_file] (4096 + 240).
Proof.
  cbn [archive_at]. change (next_pos 4096 demo_file) with 4216. split; [split|].
  - apply bytes_at_in. by vm_compute.
  - apply hex_at_digits; [cbn; lia|by vm_compute].
  - apply hex_at_digits; [cbn; lia|by vm_compute].
  - apply hex_at_digits; [cbn; lia|by vm_compute].
  - apply bytes_at_in. by vm_compute.
  - apply bytes_at_in. by vm_compute.
  - cbn. repeat constructor; discriminate.
  - discriminate.
  - split; [apply bytes_at_in; by vm_compute|]. split; [apply bytes_at_in; by vm_compute|lia].
Qed.

(** The archive has the directory "d" and the file "d/g". *)
Lemma initramfs_init_correct_witness :
  wp (initramfs_init demo_archive 4096 240) (fun _ s' => exists kids c n, vfs_ok s' kids /\
    resolve (nodes s') kids (vfs_root s') [[100]; [103]] = Some c /\ nodes s' !! c = Some n /\ vn_type n = VFS_FILE /\ vn_size n = 3 /\
    bytes_in demo_archive (vn_data n) [7; 8; 9] /\ resolve (nodes s') kids (vfs_root s') [[101]] = None) (mkVfs (mkBump 64 ∅) ∅ 0).
Proof.
  eapply wp_mono; [apply (initramfs_init_correct bump_total demo_archive 4096 240 [demo_file] (mkVfs (mkBump 64 ∅) ∅ 0) eq_refl)|].
  - split; [reflexivity|]. intros p Hp. by apply not_elem_of_empty in Hp.
  - lia.
  - lia.
  - exact demo_archive_at.
  - split; [split|]; [discriminate|discriminate|apply (bool_decide_unpack _); vm_compute; exact I|cbn; repeat constructor; lia|]. split; [intros _; vm_compute; reflexivity|exact I].
  - intros ? s' (kids & Hok & Hs). pose proof (Hs [[100]; [103]]) as H1. pose proof (Hs [[101]]) as H2.
    assert (E1 : archive_files [demo_file] !! [[100]; [103]] = Some (AFile [7; 8; 9])) by (vm_compute; reflexivity).
    assert (E2 : archive_files [demo_file] !! [[101]] = None) by (vm_compute; reflexivity). rewrite E1 in H1. rewrite E2 in H2. unfold shows in H1, H2.
    destruct (resolve (nodes s') kids (vfs_root s') [[100]; [103]]) as [c|] eqn:R1; [|done]. destruct H1 as (n & Hn & Ht & Hz & Hb).
    destruct (resolve (nodes s') kids (vfs_root s') [[101]]) eqn:R2; [done|]. exists kids, c, n. by split_and!.
Defined.
