(* ===== verification/Switch.v ===== *)
(** * Context switches (process.c, switch.asm, resume_usermode.asm)

    The kernel stack a new process starts from, the stack-switching routine, and
    the return to user mode, on the callee-saved registers, the stack pointer and
    the memory that holds the stacks. *)

From S2P Require Import Prelude Mem Proc.

(** ** The machine *)

Record callee := mkCallee {
  c_rbx : Z; c_rbp : Z; c_r12 : Z; c_r13 : Z; c_r14 : Z; c_r15 : Z; c_rflags : Z;
}.
Record machine := mkMach {
  m_regs : callee;
  m_rsp : Z;
  m_rip : Z;
  m_cr3 : Z;
  m_mem : memory;
  m_sched : sched;
}.

Definition push (v : Z) : M machine unit := modify (fun s =>
  let sp := u64 (m_rsp s - 8) in
  mkMach (m_regs s) sp (m_rip s) (m_cr3 s) (store64 (m_mem s) sp v) (m_sched s)).
Definition pop : M machine Z := fun s =>
  Some (load64 (m_mem s) (m_rsp s),
        mkMach (m_regs s) (u64 (m_rsp s + 8)) (m_rip s) (m_cr3 s) (m_mem s) (m_sched s)).
Definition on_table {A} (c : M sched A) : M machine A := fun s =>
  match c (m_sched s) with
  | Some (a, t) => Some (a, mkMach (m_regs s) (m_rsp s) (m_rip s) (m_cr3 s) (m_mem s) t)
  | None => None
  end.

(** ** The code *)

(** [switch_task]: the caller's return address is on the stack. *)
Definition switch_task (prev next : Z) : M machine unit :=
  r <- gets m_regs ;;
  push (c_rflags r) ;; push (c_rbx r) ;; push (c_rbp r) ;; push (c_r12 r) ;;
  push (c_r13 r) ;; push (c_r14 r) ;; push (c_r15 r) ;;
  sp <- gets m_rsp ;;
  on_table (pset (set_p_rsp sp) prev) ;;
  sp <- on_table (pget p_rsp next) ;;
  cr3 <- on_table (pget p_cr3 next) ;;
  modify (fun s => mkMach (m_regs s) sp (m_rip s) cr3 (m_mem s) (m_sched s)) ;;
  r15 <- pop ;; r14 <- pop ;; r13 <- pop ;; r12 <- pop ;; rbp <- pop ;; rbx <- pop ;; fl <- pop ;;
  ra <- pop ;;
  modify (fun s => mkMach (mkCallee rbx rbp r12 r13 r14 r15 fl) (m_rsp s) ra (m_cr3 s) (m_mem s) (m_sched s)).

(** Pushing through a pointer into the stack. *)
Fixpoint push_all (m : memory) (sp : Z) (l : list Z) : memory * Z :=
  match l with
  | [] => (m, sp)
  | v :: l' => push_all (store64 m (sp - 8) v) (sp - 8) l'
  end.

Definition setup_kernel_stack (m : memory) (kernel_stack_base stub : Z) : memory * Z :=
  push_all m (kernel_stack_base + 4096) [stub; 0x202; 0; 0; 0; 0; 0; 0].

(** ** The frame on the stack *)

Lemma push_all_spec l : forall m sp ws,
  Forall word l -> words_at m sp ws ->
  words_at (fst (push_all m sp l)) (sp - 8 * Z.of_nat (length l)) (rev l ++ ws) /\
  snd (push_all m sp l) = sp - 8 * Z.of_nat (length l) /\
  (forall b, ~ (sp - 8 * Z.of_nat (length l) <= b < sp) -> load8 (fst (push_all m sp l)) b = load8 m b).
Proof.
  induction l as [|v l IH]; intros m sp ws Hl Hw.
  - cbn. rewrite Z.sub_0_r. done.
  - apply Forall_cons in Hl as [Hv Hl]. cbn [push_all rev].
    destruct (IH (store64 m (sp - 8) v) (sp - 8) (v :: ws) Hl) as (H1 & H2 & H3).
    + apply words_at_cons. split; [by apply load64_store64_eq|]. replace (sp - 8 + 8) with sp by lia.
      eapply words_at_ext; [|exact Hw]. intros b Hb. apply load8_store64_ne. lia.
    + rewrite <- app_assoc. cbn [app length].
      replace (sp - 8 * Z.of_nat (S (length l))) with (sp - 8 - 8 * Z.of_nat (length l)) by lia.
      split; [exact H1|]. split; [exact H2|]. intros b Hb. rewrite H3 by lia. apply load8_store64_ne. lia.
Qed.

(** The frame [switch_task] leaves on a stack and expects on one. *)
Definition frame_words (r : callee) (ra : Z) : list Z :=
  [c_r15 r; c_r14 r; c_r13 r; c_r12 r; c_rbp r; c_rbx r; c_rflags r; ra].
Definition regs_ok (r : callee) : Prop :=
  Forall word [c_rflags r; c_rbx r; c_rbp r; c_r12 r; c_r13 r; c_r14 r; c_r15 r].

Lemma wp_push v Q s :
  8 <= m_rsp s < 18446744073709551616 ->
  Q tt (mkMach (m_regs s) (m_rsp s - 8) (m_rip s) (m_cr3 s) (store64 (m_mem s) (m_rsp s - 8) v) (m_sched s)) ->
  wp (push v) Q s.
Proof. intros Hs HQ. unfold push, modify, wp. cbv zeta. by rewrite u64_small by lia. Qed.
Lemma wp_pop w Q s :
  load64 (m_mem s) (m_rsp s) = w -> 0 <= m_rsp s < 18446744073709551608 ->
  Q w (mkMach (m_regs s) (m_rsp s + 8) (m_rip s) (m_cr3 s) (m_mem s) (m_sched s)) -> wp pop Q s.
Proof. intros <- Hs HQ. unfold pop, wp. by rewrite u64_small by lia. Qed.
Lemma wp_on_table {A} (c : M sched A) Q s :
  wp c (fun a t => Q a (mkMach (m_regs s) (m_rsp s) (m_rip s) (m_cr3 s) (m_mem s) t)) (m_sched s) ->
  wp (on_table c) Q s.
Proof. unfold wp, on_table. by destruct (c (m_sched s)) as [[? ?]|]. Qed.

(** ** Switching *)

Definition saved_words (r : callee) : list Z :=
  [c_rflags r; c_rbx r; c_rbp r; c_r12 r; c_r13 r; c_r14 r; c_r15 r].

(** The state in which [next] continues. *)
Definition switched (s : machine) (prev : Z) (rn : process) (r' : callee) (ra' : Z) : machine :=
  mkMach r' (p_rsp rn + 64) ra' (p_cr3 rn) (fst (push_all (m_mem s) (m_rsp s) (saved_words (m_regs s))))
    (set_procs (alter (set_p_rsp (m_rsp s - 56)) prev (procs (m_sched s))) (m_sched s)).

Definition stack_ok (s : machine) : Prop := 56 <= m_rsp s < 18446744073709551608 /\ regs_ok (m_regs s).
Definition frame_ok (sp : Z) : Prop := 0 <= sp < 18446744073709551552.

Lemma wp_switch_task s prev next rp rn r' ra' :
  stack_ok s -> prev <> next ->
  procs (m_sched s) !! prev = Some rp -> procs (m_sched s) !! next = Some rn ->
  frame_ok (p_rsp rn) -> words_at (m_mem s) (p_rsp rn) (frame_words r' ra') ->
  (p_rsp rn + 64 <= m_rsp s - 56 \/ m_rsp s <= p_rsp rn) ->
  wp (switch_task prev next) (fun _ s' => s' = switched s prev rn r' ra') s.
Proof.
  intros [Hsp Hr] Hne Hp Hn Hf Hw Hd. unfold switch_task, switched.
  destruct (push_all_spec (saved_words (m_regs s)) (m_mem s) (m_rsp s) [] Hr) as (_ & _ & Hout);
    [apply words_at_nil|].
  assert (Hw' : words_at (fst (push_all (m_mem s) (m_rsp s) (saved_words (m_regs s)))) (p_rsp rn) (frame_words r' ra')).
  { eapply words_at_ext; [|exact Hw]. intros b Hb. apply Hout. cbn [length frame_words saved_words] in *. lia. }
  cbn [push_all saved_words fst] in Hw' |- *. clear Hout Hw.
  wp_steps. do 7 (eapply wp_push; [cbn [m_rsp]; lia|]; cbn [m_regs m_rsp m_rip m_cr3 m_mem m_sched]; wp_steps).
  cbn [m_rsp]. replace (m_rsp s - 8 - 8 - 8 - 8 - 8 - 8 - 8) with (m_rsp s - 56) in * by lia.
  apply wp_on_table. eapply wp_pset; [exact Hp|]. cbv beta. wp_steps. cbn [m_sched].
  assert (Hn' : procs (set_procs (alter (set_p_rsp (m_rsp s - 56)) prev (procs (m_sched s))) (m_sched s)) !! next = Some rn).
  { cbn. by rewrite lookup_alter_ne. }
  apply wp_on_table. eapply wp_pget; [exact Hn'|]. cbv beta. wp_steps.
  apply wp_on_table. eapply wp_pget; [exact Hn'|]. cbv beta. wp_steps. clear Hn'.
  unfold frame_words, frame_ok in *.
  do 8 (apply words_at_cons in Hw' as [? Hw']; eapply wp_pop; [cbn [m_rsp m_mem]; eassumption|cbn [m_rsp]; lia|];
    cbn [m_regs m_rsp m_rip m_cr3 m_mem m_sched]; wp_steps).
  cbn [m_rsp]. f_equal; [by destruct r'|lia].
Qed.

(** What [switch_task] leaves behind for the process it switches away from. *)
Lemma switched_frame s prev rn r' ra' :
  stack_ok s ->
  words_at (m_mem (switched s prev rn r' ra')) (m_rsp s - 56)
    (frame_words (m_regs s) (load64 (m_mem s) (m_rsp s))).
Proof.
  intros [Hsp Hr]. unfold switched. cbn [m_mem].
  destruct (push_all_spec (saved_words (m_regs s)) (m_mem s) (m_rsp s) [load64 (m_mem s) (m_rsp s)] Hr) as (H & _).
  - apply words_at_cons. split; [done|]. intros i w. by rewrite lookup_nil.
  - exact H.
Qed.

(** C28: A process that gives up the processor in [switch_task] continues, whenever
    it is switched to again, behind its call with the registers, flags and stack
    pointer it had, in its own address space, if nobody has written into its
    stack frame or changed its [rsp] and [cr3] in between. *)
Theorem switch_task_roundtrip s p q (rp rq : process) r' ra' s2 other ro rp2 :
  stack_ok s -> p <> q -> procs (m_sched s) !! p = Some rp -> procs (m_sched s) !! q = Some rq ->
  frame_ok (p_rsp rq) -> words_at (m_mem s) (p_rsp rq) (frame_words r' ra') ->
  (p_rsp rq + 64 <= m_rsp s - 56 \/ m_rsp s <= p_rsp rq) ->
  wp (switch_task p q) (fun _ s1 =>
    stack_ok s2 -> other <> p -> procs (m_sched s2) !! other = Some ro -> procs (m_sched s2) !! p = Some rp2 ->
    (forall r1, procs (m_sched s1) !! p = Some r1 -> p_rsp rp2 = p_rsp r1 /\ p_cr3 rp2 = p_cr3 r1) ->
    (forall b, m_rsp s - 56 <= b < m_rsp s + 8 -> load8 (m_mem s2) b = load8 (m_mem s1) b) ->
    (m_rsp s + 8 <= m_rsp s2 - 56 \/ m_rsp s2 <= m_rsp s - 56) ->
    wp (switch_task other p) (fun _ s3 => m_regs s3 = m_regs s /\ m_rsp s3 = m_rsp s + 8 /\
      m_rip s3 = load64 (m_mem s) (m_rsp s) /\ m_cr3 s3 = p_cr3 rp) s2) s.
Proof.
  intros Hs Hpq Hp Hq Hf Hw Hd.
  eapply wp_mono; [by apply (wp_switch_task s p q rp rq r' ra')|].
  intros [] s1 -> Hs2 Ho Hro Hrp2 Hsame Hmem Hd2.
  assert (Hp1 : procs (m_sched (switched s p rq r' ra')) !! p = Some (set_p_rsp (m_rsp s - 56) rp)).
  { cbn. by rewrite lookup_alter_eq, Hp. }
  destruct (Hsame _ Hp1) as [E1 E2]. cbn in E1, E2.
  pose proof (switched_frame s p rq r' ra' Hs) as Hfr. destruct Hs as [Hsp Hr].
  eapply wp_mono; [apply (wp_switch_task s2 other p ro rp2 (m_regs s) (load64 (m_mem s) (m_rsp s)))|]; try done.
  - unfold frame_ok. lia.
  - rewrite E1. eapply words_at_ext; [|exact Hfr]. intros b Hb. apply Hmem. cbn [frame_words length] in Hb. lia.
  - rewrite E1. lia.
  - intros [] s3 ->. cbn. rewrite E1, E2. split_and!; [done|lia|done|done].
Qed.

(** The first switch to a process whose kernel stack [setup_kernel_stack] has
    prepared enters its stub on an empty stack with interrupts enabled, cleared
    callee-saved registers and the process's address space. *)
Theorem setup_kernel_stack_starts s base stub m' sp prev next (rp rn : process) :
  setup_kernel_stack (m_mem s) base stub = (m', sp) -> word stub -> 0 <= base < 18446744073709547456 ->
  stack_ok s -> (m_rsp s <= base \/ base + 4096 <= m_rsp s - 56) -> prev <> next ->
  procs (m_sched s) !! prev = Some rp -> procs (m_sched s) !! next = Some rn -> p_rsp rn = sp ->
  base <= sp /\
  wp (switch_task prev next) (fun _ s' =>
    m_regs s' = mkCallee 0 0 0 0 0 0 0x202 /\ m_rsp s' = base + 4096 /\ m_rip s' = stub /\ m_cr3 s' = p_cr3 rn)
    (mkMach (m_regs s) (m_rsp s) (m_rip s) (m_cr3 s) m' (m_sched s)).
Proof.
  intros Hsetup Hstub Hb [Hsp Hr] Hd Hne Hp Hn Hrsp. unfold setup_kernel_stack in Hsetup.
  destruct (push_all_spec [stub; 0x202; 0; 0; 0; 0; 0; 0] (m_mem s) (base + 4096) []) as (Hw & Hsp' & _).
  - unfold word in *. repeat constructor; lia.
  - intros i w. by rewrite lookup_nil.
  - rewrite Hsetup in Hw, Hsp'. cbn [fst snd length rev app] in Hw, Hsp'.
    assert (E : sp = base + 4032) by lia. split; [lia|].
    eapply wp_mono; [apply (wp_switch_task _ prev next rp rn (mkCallee 0 0 0 0 0 0 0x202) stub)|]; cbn; try done.
    + unfold frame_ok. lia.
    + rewrite Hrsp, E. replace (base + 4032) with (base + 4096 - 8 * Z.of_nat 8) by lia. exact Hw.
    + rewrite Hrsp. lia.
    + intros [] s' ->. cbn. split_and!; [done|lia|done|done].
Qed.

(** ** Instances *)

(** Two processes; the second has a frame of zeros at 8192. *)
Definition demo_table : sched :=
  mkSched (<[1 := set_p_cr3 4096 proc_zero]> (<[2 := set_p_cr3 12288 (set_p_rsp 8192 proc_zero)]> ∅)) 1 1 1 3 [] 0.
Definition demo_mach : machine := mkMach (mkCallee 1 2 3 4 5 6 0x246) 4096 0 4096 (store64 ∅ 4096 77) demo_table.
Definition demo_mach1 : machine :=
  snd (default (tt, demo_mach) (switch_task 1 2 demo_mach)).
Definition demo_rp1 : process := set_p_rsp 4040 (set_p_cr3 4096 proc_zero).

Lemma switch_task_roundtrip_witness :
  wp (switch_task 2 1) (fun _ s3 => m_regs s3 = mkCallee 1 2 3 4 5 6 0x246 /\ m_rsp s3 = 4104 /\
    m_rip s3 = 77 /\ m_cr3 s3 = 4096) demo_mach1.
Proof.
  assert (Hs : stack_ok demo_mach).
  { split; [cbn; lia|]. unfold regs_ok, word. cbn. repeat constructor; lia. }
  assert (Hs1 : stack_ok demo_mach1).
  { split; [vm_compute; split; [discriminate|reflexivity]|]. unfold regs_ok, word.
    do 7 (constructor; [vm_compute; split; [discriminate|reflexivity]|]). constructor. }
  assert (Hw : words_at (m_mem demo_mach) 8192 (frame_words (mkCallee 0 0 0 0 0 0 0) 0)).
  { intros i w Hi. do 8 (destruct i as [|i]; [injection Hi as <-; vm_compute; reflexivity|]). discriminate. }
  pose proof (switch_task_roundtrip demo_mach 1 2 (set_p_cr3 4096 proc_zero)
    (set_p_cr3 12288 (set_p_rsp 8192 proc_zero)) (mkCallee 0 0 0 0 0 0 0) 0 demo_mach1 2
    (set_p_cr3 12288 (set_p_rsp 8192 proc_zero)) demo_rp1 Hs ltac:(lia) eq_refl eq_refl
    ltac:(unfold frame_ok; cbn; lia) Hw ltac:(cbn; lia)) as H.
  pose proof (wp_outcome _ _ _ (tt, demo_mach) tt H eq_refl Hs1 ltac:(lia)
    ltac:(vm_compute; reflexivity) ltac:(vm_compute; reflexivity)) as H'.
  refine (H' _ _ _).
  - intros r1 Hr1. assert (Hr : Some demo_rp1 = Some r1) by (rewrite <- Hr1; vm_compute; reflexivity).
    apply (inj Some) in Hr as <-. split; reflexivity.
  - intros b _. reflexivity.
  - left. vm_compute. discriminate.
Defined.

Definition demo_stack : memory * Z := setup_kernel_stack (store64 ∅ 4096 77) 16384 99.

Lemma setup_kernel_stack_starts_witness :
  16384 <= 20416 /\
  wp (switch_task 1 3) (fun _ s' =>
    m_regs s' = mkCallee 0 0 0 0 0 0 0x202 /\ m_rsp s' = 20480 /\ m_rip s' = 99 /\ m_cr3 s' = 12288)
    (mkMach (mkCallee 1 2 3 4 5 6 0x246) 4096 0 4096 (fst demo_stack)
      (set_procs (<[3 := set_p_cr3 12288 (set_p_rsp 20416 proc_zero)]> (procs demo_table)) demo_table)).
Proof.
  apply (setup_kernel_stack_starts (mkMach (mkCallee 1 2 3 4 5 6 0x246) 4096 0 4096 (store64 ∅ 4096 77)
    (set_procs (<[3 := set_p_cr3 12288 (set_p_rsp 20416 proc_zero)]> (procs demo_table)) demo_table))
    16384 99 (fst demo_stack) 20416 1 3 (set_p_cr3 4096 proc_zero)
    (set_p_cr3 12288 (set_p_rsp 20416 proc_zero))).
  - vm_compute. reflexivity.
  - unfold word. lia.
  - lia.
  - split; [cbn; lia|]. unfold regs_ok, word. cbn. repeat constructor; lia.
  - cbn. lia.
  - lia.
  - vm_compute. reflexivity.
  - vm_compute. reflexivity.
  - reflexivity.
Defined.
