(* ===== verification/Ustack.v ===== *)
(** * The arguments on the user stack (process.c)

    [setup_user_stack_args] lays out the strings of [argv] at the top of the
    stack page, which the kernel writes through its alias in the direct map.
    The strings are byte lists without a zero byte. *)

From S2P Require Import Prelude Mem Proc.

(** ** The code *)

(** The loop that copies the strings: [memcpy] of the bytes and the terminator.
    The result is [None] where the function returns 0. *)
Fixpoint place_strings (m : memory) (stack_hhdm_base stack_vaddr_base cur : Z) (argv : list (list Z)) :
    memory * option (Z * list Z) :=
  match argv with
  | [] => (m, Some (cur, []))
  | s :: argv' =>
      let len := Z.of_nat (length s) + 1 in
      if u64 (cur - stack_vaddr_base) <? len then (m, None)
      else
        let cur := cur - len in
        let m := store_bytes m (stack_hhdm_base + (cur - stack_vaddr_base)) (s ++ [0]) in
        match place_strings m stack_hhdm_base stack_vaddr_base cur argv' with
        | (m, Some (cur', str_vaddrs)) => (m, Some (cur', cur :: str_vaddrs))
        | (m, None) => (m, None)
        end
  end.

Definition setup_user_stack_args (m : memory) (stack_hhdm_base stack_vaddr_base : Z) (argv : list (list Z)) :
    memory * Z :=
  let argc := Z.of_nat (length argv) in
  if (argc <=? 0) || (MAX_USER_ARGS <? argc) then (m, 0)
  else
    match place_strings m stack_hhdm_base stack_vaddr_base (stack_vaddr_base + 4096) argv with
    | (m, None) => (m, 0)
    | (m, Some (cur, str_vaddrs)) =>
        let cur := Z.land cur 0xFFFFFFFFFFFFFFF8 in
        let arr_size := (argc + 1) * 8 in
        if u64 (cur - stack_vaddr_base) <? arr_size then (m, 0)
        else
          let cur := cur - arr_size in
          let argv_vaddr := cur in
          let m := store_words m (stack_hhdm_base + (cur - stack_vaddr_base)) (str_vaddrs ++ [0]) in
          if u64 (cur - stack_vaddr_base) <? 16 then (m, 0)
          else
            let cur := cur - 16 in
            (store_words m (stack_hhdm_base + (cur - stack_vaddr_base)) [argc; argv_vaddr], cur)
    end.

(** ** What the program finds on its stack *)

Definition c_string (s : list Z) : Prop := Forall (fun c => 0 < c < 256) s.

(** The space the strings take. *)
Definition strings_size (argv : list (list Z)) : Z :=
  foldr (fun s n => Z.of_nat (length s) + 1 + n) 0 argv.

Section layout.
Context (hb vb : Z).

(** The kernel's alias of a user address on the stack page. *)
Definition kaddr (v : Z) : Z := hb + (v - vb).

(** The strings [argv] are at the user addresses [ps], between [lo] and [hi]. *)
Definition strings_at (m : memory) (argv : list (list Z)) (ps : list Z) (lo hi : Z) : Prop :=
  Forall2 (fun s p => lo <= p /\ p + Z.of_nat (length s) + 1 <= hi /\ bytes_in m (kaddr p) (s ++ [0])) argv ps.

Lemma strings_size_nonneg argv : 0 <= strings_size argv.
Proof.
  induction argv as [|s argv IH]; [cbn; lia|]. unfold strings_size in *. cbn [foldr]. lia.
Qed.

Lemma c_string_bytes s : c_string s -> Forall (fun c => 0 <= c < 256) (s ++ [0]).
Proof.
  intros Hs. apply Forall_app. split; [|repeat constructor; lia].
  eapply Forall_impl; [exact Hs|]. cbv beta. lia.
Qed.

Lemma strings_at_ext m m' argv ps lo hi lo' hi' :
  (forall b, kaddr lo <= b < kaddr hi -> load8 m' b = load8 m b) -> lo' <= lo -> hi <= hi' ->
  strings_at m argv ps lo hi -> strings_at m' argv ps lo' hi'.
Proof.
  intros He Hl Hh H. eapply Forall2_impl; [exact H|]. cbv beta. intros s p (H1 & H2 & H3).
  split; [lia|]. split; [lia|]. eapply bytes_in_ext; [|exact H3]. rewrite length_app. cbn [length].
  intros b Hb. apply He. unfold kaddr in *. lia.
Qed.

Lemma strings_at_words m argv ps lo hi :
  0 <= lo -> hi < 18446744073709551616 -> strings_at m argv ps lo hi -> Forall word ps.
Proof.
  intros Hlo Hhi H. induction H as [|s p argv ps (? & ? & _) _ IH]; [constructor|].
  constructor; [unfold word; lia|done].
Qed.

Lemma place_strings_spec argv : forall m cur,
  Forall c_string argv -> vb <= cur -> cur - vb < 18446744073709551616 ->
  let '(m', r) := place_strings m hb vb cur argv in
  (forall b, ~ (hb <= b < kaddr cur) -> load8 m' b = load8 m b) /\
  match r with
  | None => cur - vb < strings_size argv
  | Some (cur', ps) =>
      cur' = cur - strings_size argv /\ vb <= cur' /\ strings_at m' argv ps cur' cur /\
      (forall b, ~ (kaddr cur' <= b < kaddr cur) -> load8 m' b = load8 m b)
  end.
Proof.
  induction argv as [|s argv IH]; intros m cur Hs Hle Hlt; cbn [place_strings strings_size foldr].
  - split; [done|]. split_and!; [lia|done|constructor|done].
  - apply Forall_cons in Hs as [Hs Hargs]. pose proof (strings_size_nonneg argv) as Hnn. unfold strings_size in *.
    cbv zeta. rewrite u64_small by lia.
    destruct (Z.ltb_spec (cur - vb) (Z.of_nat (length s) + 1)); [split; [done|]; lia|].
    set (cur1 := cur - (Z.of_nat (length s) + 1)).
    destruct (store_bytes_spec (s ++ [0]) m (kaddr cur1) (c_string_bytes s Hs)) as [Hb1 Hb2].
    change (hb + (cur1 - vb)) with (kaddr cur1). set (m1 := store_bytes m (kaddr cur1) (s ++ [0])) in *.
    assert (Hlen : length (s ++ [0]) = S (length s)) by (rewrite length_app; cbn; lia). rewrite Hlen in Hb2.
    specialize (IH m1 cur1 Hargs ltac:(lia) ltac:(lia)).
    destruct (place_strings m1 hb vb cur1 argv) as [m' [[cur' ps]|]]; unfold kaddr in *;
      destruct IH as [Hout Hr].
    + destruct Hr as (-> & Hle' & Hst & Hin). split.
      * intros b Hb. rewrite Hout, Hb2 by lia. done.
      * split; [lia|]. split; [done|]. split; [|intros b Hb; rewrite Hin, Hb2 by lia; done].
        constructor.
        -- split; [lia|]. split; [lia|]. eapply bytes_in_ext; [|exact Hb1]. rewrite Hlen.
           intros b Hb. apply Hin. unfold kaddr in *. lia.
        -- eapply (strings_at_ext m'); [done| | |exact Hst]; lia.
    + split; [|lia]. intros b Hb. rewrite Hout, Hb2 by lia. done.
Qed.

(** The layout at the stack pointer [sp]. *)
Record argv_at (m : memory) (sp : Z) (argv : list (list Z)) : Prop := {
  av_aligned : sp mod 8 = 0;
  av_argc : load64 m (kaddr sp) = Z.of_nat (length argv);
  av_argv : exists ps, strings_at m argv ps vb (vb + 4096) /\
    words_at m (kaddr (load64 m (kaddr (sp + 8)))) (ps ++ [0]);
}.

(** The space the layout takes, with the padding below the strings. *)
Definition layout_size (argv : list (list Z)) : Z :=
  let n := strings_size argv in n + (- n) mod 8 + 8 * (Z.of_nat (length argv) + 1) + 16.

Lemma align8 x : 0 <= x < 18446744073709551616 -> Z.land x 0xFFFFFFFFFFFFFFF8 = x - x mod 8.
Proof.
  intros Hx. change 0xFFFFFFFFFFFFFFF8 with (2 ^ 64 - 2 ^ 3). rewrite land_high; [|lia|exact Hx].
  change (2 ^ 3) with 8. lia.
Qed.

Lemma argv_at_intro m m1 m2 argv ps lo av :
  Forall word ps -> word av -> vb <= av - 16 -> av mod 8 = 0 ->
  av + 8 * (Z.of_nat (length argv) + 1) <= lo -> (length argv < 9)%nat ->
  strings_at m argv ps lo (vb + 4096) ->
  m1 = store_words m (kaddr av) (ps ++ [0]) ->
  m2 = store_words m1 (kaddr (av - 16)) [Z.of_nat (length argv); av] ->
  argv_at m2 (av - 16) argv /\
  (forall b, ~ (kaddr (av - 16) <= b < kaddr lo) -> load8 m2 b = load8 m b).
Proof.
  intros Hps Hav Hlo Hal Hfit Hargc Hst E1 E2.
  assert (Hlen : length ps = length argv) by (symmetry; by eapply Forall2_length).
  destruct (store_words_spec (ps ++ [0]) m (kaddr av)) as [Hw1 Ho1].
  { apply Forall_app. split; [done|]. unfold word. repeat constructor; lia. }
  destruct (store_words_spec [Z.of_nat (length argv); av] m1 (kaddr (av - 16))) as [Hw2 Ho2].
  { unfold word in *. repeat constructor; lia. }
  rewrite <- E1 in Hw1, Ho1. rewrite <- E2 in Hw2, Ho2. rewrite length_app in Ho1. cbn [length] in Ho1, Ho2.
  apply words_at_cons in Hw2 as [Ha Hw2]. apply words_at_cons in Hw2 as [Hb _].
  replace (kaddr (av - 16) + 8) with (kaddr (av - 16 + 8)) in Hb by (unfold kaddr; lia).
  unfold kaddr in Ho1, Ho2. split.
  - split; [lia|done|]. exists ps. rewrite Hb. split.
    + apply (strings_at_ext m m2 argv ps lo (vb + 4096)); [|lia|lia|exact Hst]. intros b Hr. unfold kaddr in Hr.
      rewrite Ho2, Ho1 by lia. done.
    + eapply words_at_ext; [|exact Hw1]. rewrite length_app. cbn [length]. intros b Hr.
      apply Ho2. unfold kaddr in Hr. lia.
  - intros b Hr. unfold kaddr in Hr. rewrite Ho2, Ho1 by lia. done.
Qed.

(** C27: [setup_user_stack_args] builds the layout the program's start code reads:
    at the returned, aligned stack pointer the count and the address of the
    pointer array, whose pointers lead to the argument strings and end in NULL,
    all on the stack page.  It returns 0 exactly when the number of arguments is
    out of range or the layout does not fit in the page, and never writes outside
    the page. *)
Theorem setup_user_stack_args_correct m argv :
  Forall c_string argv -> 0 < vb < 18446744073709547520 -> vb mod 8 = 0 ->
  let '(m', sp) := setup_user_stack_args m hb vb argv in
  (forall b, ~ (hb <= b < hb + 4096) -> load8 m' b = load8 m b) /\
  if (1 <=? length argv)%nat && (length argv <=? 8)%nat && (layout_size argv <=? 4096)
  then vb <= sp < vb + 4096 /\ argv_at m' sp argv
  else sp = 0.
Proof.
  intros Hargs Hvb Hal. unfold setup_user_stack_args, MAX_USER_ARGS, layout_size. cbv zeta.
  destruct (Nat.leb_spec 1 (length argv)), (Nat.leb_spec (length argv) 8); cbn [andb];
    destruct (Z.leb_spec (Z.of_nat (length argv)) 0), (Z.ltb_spec 8 (Z.of_nat (length argv))); try lia;
    cbn [orb]; try done.
  pose proof (place_strings_spec argv m (vb + 4096) Hargs ltac:(lia) ltac:(lia)) as Hpl.
  pose proof (strings_size_nonneg argv) as Hnn.
  destruct (place_strings m hb vb (vb + 4096) argv) as [m0 [[cur ps]|]]; destruct Hpl as [Hout Hr];
    unfold kaddr in Hout at 1.
  2:{ split; [intros b Hb; apply Hout; lia|]. case_bools; done. }
  destruct Hr as (Hcur & Hle & Hst & Hin). rewrite align8 by lia.
  set (n := strings_size argv) in *. set (k := Z.of_nat (length argv)) in *.
  assert (Hc8 : cur - cur mod 8 = vb + 4096 - n - (- n) mod 8) by lia.
  set (av := cur - cur mod 8 - (k + 1) * 8). rewrite (u64_small (cur - cur mod 8 - vb)) by lia.
  destruct (Z.ltb_spec (cur - cur mod 8 - vb) ((k + 1) * 8)).
  { split; [intros b Hb; apply Hout; lia|]. case_bools; done. }
  rewrite (u64_small (av - vb)) by lia.
  pose proof (strings_at_words m0 argv ps cur (vb + 4096) ltac:(lia) ltac:(lia) Hst) as Hps.
  destruct (store_words_spec (ps ++ [0]) m0 (kaddr av)) as [_ Ho1].
  { apply Forall_app. split; [done|]. unfold word. repeat constructor; lia. }
  assert (Hlen : length ps = length argv) by (symmetry; by eapply Forall2_length).
  rewrite length_app in Ho1. cbn [length] in Ho1. change (hb + (av - vb)) with (kaddr av).
  destruct (Z.ltb_spec (av - vb) 16).
  { split; [intros b Hb; unfold kaddr in *; rewrite Ho1, Hout by lia; done|]. case_bools; done. }
  destruct (argv_at_intro m0 (store_words m0 (kaddr av) (ps ++ [0])) (store_words (store_words m0 (kaddr av) (ps ++ [0]))
    (kaddr (av - 16)) [k; av]) argv ps cur av) as [Hav Ho2]; [done| |lia|lia|lia|lia|exact Hst|done|done|].
  { unfold word. lia. }
  change (hb + (av - 16 - vb)) with (kaddr (av - 16)). split.
  - intros b Hb. unfold kaddr in *. rewrite Ho2, Hout by lia. done.
  - case_bools. split; [lia|exact Hav].
Qed.
End layout.

(** ** Instances *)

(** "ls" and "-l" in the page at 4096 whose alias is at 1048576. *)
Lemma setup_user_stack_args_correct_witness :
  let '(m', sp) := setup_user_stack_args ∅ 1048576 4096 [[108; 115]; [45; 108]] in
  (forall b, ~ (1048576 <= b < 1052672) -> load8 m' b = load8 ∅ b) /\
  4096 <= sp < 8192 /\ argv_at 1048576 4096 m' sp [[108; 115]; [45; 108]].
Proof.
  apply (setup_user_stack_args_correct 1048576 4096 ∅ [[108; 115]; [45; 108]]).
  - unfold c_string. repeat constructor; lia.
  - lia.
  - reflexivity.
Defined.
