(* ===== verification/Elf.v ===== *)
(** * The program loader (elf.c)

    Loading the PT_LOAD segments of an ELF64 executable that lies in memory into
    an address space.  [data] is the address of the file's bytes ([file->data]). *)

From S2P Require Import Prelude Mem CString FrameAlloc Pmm Vmm PageTable AddressSpace.

(** ** The code *)

Definition ELF_MAGIC : Z := 0x464C457F.
Definition ELFCLASS64 : Z := 2.
Definition ELFDATA2LSB : Z := 1.
Definition ET_EXEC : Z := 2.
Definition PT_LOAD : Z := 1.
Definition PF_X : Z := 1.
Definition PF_W : Z := 2.

Definition page_align_down (addr : Z) : Z := Z.land addr 0xFFFFFFFFFFFFF000.
Definition page_align_up (addr : Z) : Z := Z.land (u64 (addr + PAGE_SIZE - 1)) 0xFFFFFFFFFFFFF000.

(** The fields of [Elf64_Phdr] the loader reads. *)
Record phdr := mkPhdr { p_type : Z; p_flags : Z; p_offset : Z; p_vaddr : Z; p_filesz : Z; p_memsz : Z }.
Definition phdr_at (m : memory) (a : Z) : phdr :=
  mkPhdr (load32 m a) (load32 m (a + 4)) (load64 m (a + 8)) (load64 m (a + 16)) (load64 m (a + 32)) (load64 m (a + 40)).

Definition seg_flags (ph : phdr) : Z :=
  let flags := Z.lor PTE_PRESENT PTE_USER in
  let flags := if Z.land (p_flags ph) PF_W =? 0 then flags else Z.lor flags PTE_WRITABLE in
  if Z.land (p_flags ph) PF_X =? 0 then Z.lor flags PTE_NX else flags.
Definition seg_start (ph : phdr) : Z := page_align_down (p_vaddr ph).
Definition seg_end (ph : phdr) : Z := page_align_up (u64 (p_vaddr ph + p_memsz ph)).

Section ops.
Context {S : Type} `{FrameOps S} (hhdm_offset : Z).

(** The file bytes that fall within the page at [page_vaddr]. *)
Definition copy_file (data : Z) (ph : phdr) (virt page_vaddr : Z) : M (vm S) unit :=
  let page_end := u64 (page_vaddr + PAGE_SIZE) in
  let file_start := p_vaddr ph in
  let file_end := u64 (p_vaddr ph + p_filesz ph) in
  let copy_start := if page_vaddr >? file_start then page_vaddr else file_start in
  let copy_end := if page_end <? file_end then page_end else file_end in
  if copy_start <? copy_end then
    let copy_len := copy_end - copy_start in
    let file_offset := u64 (p_offset ph + (copy_start - file_start)) in
    let page_offset := copy_start - page_vaddr in
    mem_memcpy (virt + page_offset) (u64 (data + file_offset)) copy_len
  else ret tt.

(** One page of a segment; [false] where the function returns -1. *)
Definition load_page (data : Z) (ph : phdr) (pml4 page_vaddr : Z) : M (vm S) bool :=
  phys <- pa fa_alloc ;;
  if phys =? 0 then ret false
  else
    let virt := p2v hhdm_offset phys in
    mem_memset virt 0 PAGE_SIZE ;;
    copy_file data ph virt page_vaddr ;;
    vmm_map_page hhdm_offset pml4 page_vaddr phys (seg_flags ph) ;;
    ret true.

Fixpoint load_pages (data : Z) (ph : phdr) (pml4 page_vaddr : Z) (fuel : nat) : M (vm S) bool :=
  if page_vaddr <? seg_end ph then
    match fuel with
    | O => undef
    | Datatypes.S fuel' =>
        ok <- load_page data ph pml4 page_vaddr ;;
        if ok : bool then load_pages data ph pml4 (u64 (page_vaddr + PAGE_SIZE)) fuel' else ret false
    end
  else ret true.

(** The loop over the program headers, from the one at [a]: the highest segment
    end so far, or [None] for -1. *)
Fixpoint load_segments (data pml4 a : Z) (n : nat) (highest_end : Z) : M (vm S) (option Z) :=
  match n with
  | O => ret (Some highest_end)
  | Datatypes.S n' =>
      ph <- gets (fun s => phdr_at (vm_mem s) a) ;;
      if negb (p_type ph =? PT_LOAD) then load_segments data pml4 (a + 56) n' highest_end
      else
        ok <- load_pages data ph pml4 (seg_start ph) (Z.to_nat ((seg_end ph - seg_start ph) / PAGE_SIZE)) ;;
        if ok : bool then
          load_segments data pml4 (a + 56) n' (if seg_end ph >? highest_end then seg_end ph else highest_end)
        else ret None
  end.

(** The entry point and the initial program break, or [None] for -1. *)
Definition elf_load (data pml4 : Z) : M (vm S) (option (Z * Z)) :=
  if data =? 0 then ret None
  else
    m <- gets vm_mem ;;
    if negb (load32 m data =? ELF_MAGIC) || negb (load8 m (data + 4) =? ELFCLASS64) ||
       negb (load8 m (data + 5) =? ELFDATA2LSB) || negb (load16 m (data + 16) =? ET_EXEC)
    then ret None
    else
      r <- load_segments data pml4 (u64 (data + load64 m (data + 32))) (Z.to_nat (load16 m (data + 56))) 0 ;;
      match r with
      | None => ret None
      | Some highest_end =>
          m <- gets vm_mem ;;
          ret (Some (load64 m (data + 24), highest_end))
      end.
End ops.

(** ** What a loaded page is *)

(** Byte [k] of the page at [v]: from the file, or zero. *)
Definition page_byte (m : memory) (data : Z) (ph : phdr) (v k : Z) : Z :=
  if (p_vaddr ph <=? v + k) && (v + k <? p_vaddr ph + p_filesz ph)
  then load8 m (data + p_offset ph + (v + k - p_vaddr ph)) else 0.

Section load.
Context {S : Type} `{FA : FrameAlloc S} (hh : Z) (Hhh : hhdm_ok hh).
Implicit Types (s : vm S) (tabs : tables).

(** An address outside every free page and every table of the address space. *)
Definition stable s tabs (a : Z) : Prop :=
  forall f, valid_frame f -> f + hh <= a < f + hh + 4096 ->
    frames (vm_pa s) f <> None /\ forall p, tabs !! p <> Some f.

(** No page is left. *)
Definition full s : Prop := forall q, frames (vm_pa s) q <> None.

(** What loading does to everything else: pages in use keep their count, stable
    bytes keep their value and stay stable. *)
Record grew s tabs s' tabs' : Prop := {
  gr_used : forall q n, frames (vm_pa s) q = Some n -> frames (vm_pa s') q = Some n;
  gr_stable : forall a, stable s tabs a -> stable s' tabs' a /\ load8 (vm_mem s') a = load8 (vm_mem s) a;
}.

Definition page_loaded (m : memory) s root tabs data ph v : Prop := exists f,
  valid_frame f /\ mapping hh s root v = Some (Z.lor f (seg_flags ph)) /\
  frames (vm_pa s) f = Some 1 /\ (forall p, tabs !! p <> Some f) /\
  forall k, 0 <= k < 4096 -> load8 (vm_mem s) (f + hh + k) = page_byte m data ph v k.

Lemma frame_unique f g a :
  valid_frame f -> valid_frame g -> f + hh <= a < f + hh + 4096 -> g + hh <= a < g + hh + 4096 -> f = g.
Proof.
  intros Hf Hg Ha Hb. destruct (decide (f = g)) as [|Hne]; [done|].
  pose proof (page_apart f g Hf Hg Hne). lia.
Qed.

Lemma owned_stable s tabs f a :
  valid_frame f -> frames (vm_pa s) f <> None -> (forall p, tabs !! p <> Some f) ->
  f + hh <= a < f + hh + 4096 -> stable s tabs a.
Proof. intros Hf Hfr Ht Ha g Hg Hga. by rewrite (frame_unique g f a). Qed.

Lemma grew_refl s tabs : grew s tabs s tabs.
Proof. by split. Qed.
Lemma grew_trans s1 T1 s2 T2 s3 T3 : grew s1 T1 s2 T2 -> grew s2 T2 s3 T3 -> grew s1 T1 s3 T3.
Proof.
  intros [A1 A2] [B1 B2]. split; [auto|]. intros a Ha. destruct (A2 a Ha) as [Ha2 E1].
  destruct (B2 a Ha2) as [Ha3 E2]. split; [done|congruence].
Qed.
Lemma full_grew s tabs s' tabs' : grew s tabs s' tabs' -> full s -> full s'.
Proof.
  intros [Hu _] Hf q. destruct (frames (vm_pa s) q) as [n|] eqn:E; [|by destruct (Hf q)].
  by rewrite (Hu q n E).
Qed.

Lemma map_frame_grew s root tabs s' tabs' :
  as_wf hh s' root tabs' -> map_frame hh s root tabs s' tabs' -> grew s tabs s' tabs'.
Proof.
  intros Hwf [_ Hnew Hu Hm _]. split; [done|]. intros a Ha.
  assert (Hs : stable s' tabs' a).
  { intros f Hf Hfa. destruct (Ha f Hf Hfa) as [Hfr Ht]. split.
    - destruct (frames (vm_pa s) f) as [n|] eqn:E; [|done]. by rewrite (Hu f n E).
    - intros p Hp. destruct (Hnew p f Hp) as [Ho|Ho]; [by apply (Ht p)|done]. }
  split; [done|]. apply Hm. intros p t Hp Hta.
  destruct (Hs t (proj1 (as_frame _ _ _ _ Hwf p t Hp)) Hta) as [_ Ht]. by apply (Ht p).
Qed.

(** Changes inside one page that is no table. *)
Section page.
Context (s s2 : vm S) (root : Z) (tabs : tables) (f : Z).
Hypothesis Hwf : as_wf hh s root tabs.
Hypothesis Hf : valid_frame f.
Hypothesis Hnot : forall p, tabs !! p <> Some f.
Hypothesis Hpa : fa_wf (vm_pa s2).
Hypothesis Hframes : forall q, q <> f -> frames (vm_pa s2) q = frames (vm_pa s) q.
Hypothesis Hmem : forall a, ~ (f + hh <= a < f + hh + 4096) -> load8 (vm_mem s2) a = load8 (vm_mem s) a.

Lemma page_entry p t i : tabs !! p = Some t -> 0 <= i < 512 -> entry hh s2 t i = entry hh s t i.
Proof.
  intros Hp Hi. unfold entry, load64. apply load_le_ext. intros k Hk. apply Hmem.
  destruct (as_frame _ _ _ _ Hwf p t Hp) as [Ht _].
  pose proof (page_apart t f Ht Hf ltac:(intros ->; by apply (Hnot p))). lia.
Qed.
Lemma page_as_wf : as_wf hh s2 root tabs.
Proof.
  apply (as_wf_agree hh s); [done|done| |].
  - intros p t Hp. rewrite Hframes by (intros ->; by apply (Hnot p)). by apply (as_frame _ _ _ _ Hwf p).
  - intros p t i Hp _ Hi. eapply page_entry; [done|by eapply idx_512].
Qed.
Lemma page_mapping va : user_va va -> mapping hh s2 root va = mapping hh s root va.
Proof.
  intros Hva. rewrite (mapping_tabs hh Hhh s2 root tabs) by (done || apply page_as_wf).
  rewrite (mapping_tabs hh Hhh s root tabs) by done.
  destruct (tabs !! _) as [t|] eqn:E; [|done]. cbv zeta.
  rewrite (page_entry _ t _ E); [done|]. by destruct (user_indices va Hva) as (_ & _ & _ & ?).
Qed.
Lemma page_grew : frames (vm_pa s) f = None -> frames (vm_pa s2) f <> None -> grew s tabs s2 tabs.
Proof.
  intros Hfree Hused. split.
  - intros q n Hq. rewrite Hframes; [done|]. intros ->. congruence.
  - intros a Ha. split.
    + intros g Hg Hga. destruct (Ha g Hg Hga) as [Hgf Hgt]. split; [|done].
      destruct (decide (g = f)) as [->|]; [done|]. by rewrite Hframes.
    + apply Hmem. intros Hfa. by destruct (Ha f Hf Hfa).
Qed.
End page.

(** A segment of a file of [size] bytes that lies in the user half. *)
Record seg_ok (size : Z) (ph : phdr) : Prop := {
  so_vaddr : 0 <= p_vaddr ph;
  so_memsz : 0 <= p_memsz ph /\ p_vaddr ph + p_memsz ph <= 140737488355328;
  so_filesz : 0 <= p_filesz ph /\ p_vaddr ph + p_filesz ph <= 140737488355328;
  so_offset : 0 <= p_offset ph /\ p_offset ph + p_filesz ph <= size;
}.

#[local] Opaque memcpy memset.

(** Copying the file's part of a page into a cleared page [f]. *)
Lemma wp_copy_file s1 (m : memory) data size ph f v :
  seg_ok size ph -> 0 < data -> data + size < 18446744073709551616 -> valid_frame f ->
  user_va v -> v mod 4096 = 0 ->
  (forall a, data <= a < data + size -> ~ (f + hh <= a < f + hh + 4096)) ->
  (forall a, load8 (vm_mem s1) a = if (f + hh <=? a) && (a <? f + hh + 4096) then 0 else load8 m a) ->
  wp (copy_file data ph (f + hh) v) (fun _ s2 => vm_pa s2 = vm_pa s1 /\ kernel_pml4 s2 = kernel_pml4 s1 /\
    forall a, load8 (vm_mem s2) a =
      if (f + hh <=? a) && (a <? f + hh + 4096) then page_byte m data ph v (a - (f + hh)) else load8 m a) s1.
Proof.
  intros [Hv0 [Hm0 Hm1] [Hfs0 Hfs1] [Ho0 Ho1]] Hd Hds Hf [Hv1 Hv2] Hal Himg H1. unfold copy_file, PAGE_SIZE.
  rewrite (u64_small (v + 4096)), (u64_small (p_vaddr ph + p_filesz ph)) by lia. rewrite Z.gtb_ltb.
  set (cs := if p_vaddr ph <? v then v else p_vaddr ph).
  set (ce := if v + 4096 <? p_vaddr ph + p_filesz ph then v + 4096 else p_vaddr ph + p_filesz ph).
  assert (Hcs : v <= cs /\ p_vaddr ph <= cs /\ (cs = v \/ cs = p_vaddr ph)) by (unfold cs; case_bools; lia).
  assert (Hce : ce <= v + 4096 /\ ce <= p_vaddr ph + p_filesz ph /\
    (ce = v + 4096 \/ ce = p_vaddr ph + p_filesz ph)) by (unfold ce; case_bools; lia).
  clearbody cs ce. destruct (Z.ltb_spec cs ce) as [Hlt|Hge]; cbv zeta.
  - rewrite (u64_small (p_offset ph + (cs - p_vaddr ph))), u64_small by lia.
    set (src := data + (p_offset ph + (cs - p_vaddr ph))). unfold mem_memcpy. wp_steps. cbn [vm_pa kernel_pml4 vm_mem].
    split; [done|]. split; [done|].
    assert (Hsrc : src + (ce - cs) <= f + hh \/ f + hh + 4096 <= src).
    { pose proof (Himg src ltac:(lia)). destruct (Z.leb_spec (f + hh + 4096) src); [by right|].
      destruct (Z.leb_spec (src + (ce - cs)) (f + hh)); [by left|].
      pose proof (Himg (f + hh) ltac:(lia)). lia. }
    intros a. rewrite (up_copied (vm_mem s1) (f + hh + (cs - v)) src (ce - cs)) by lia.
    rewrite !H1. unfold page_byte. case_bools; try done; f_equal; lia.
  - wp_steps. split; [done|]. split; [done|]. intros a. rewrite H1. unfold page_byte. case_bools; done.
Qed.

(** The file's bytes are neither in free pages nor in the tables being built. *)
Definition image_ok s tabs (data size : Z) : Prop :=
  0 < data /\ data + size < 18446744073709551616 /\
  forall a, data <= a < data + size -> stable s tabs a.

Lemma image_ok_grew s tabs s' tabs' data size :
  grew s tabs s' tabs' -> image_ok s tabs data size ->
  image_ok s' tabs' data size /\ forall a, data <= a < data + size -> load8 (vm_mem s') a = load8 (vm_mem s) a.
Proof.
  intros [_ Hg] (H1 & H2 & H3). split; [split_and!; try done|]; intros a Ha; by apply Hg, H3.
Qed.

Lemma page_byte_ext m m' data size ph v k :
  seg_ok size ph -> (forall a, data <= a < data + size -> load8 m' a = load8 m a) ->
  page_byte m' data ph v k = page_byte m data ph v k.
Proof.
  intros [_ _ [? _] [? ?]] He. unfold page_byte. case_bools; try done; apply He; lia.
Qed.

Lemma seg_flags_ok ph : flag_bits (seg_flags ph) /\ present (seg_flags ph) = true.
Proof.
  unfold seg_flags. destruct (Z.land (p_flags ph) PF_W =? 0), (Z.land (p_flags ph) PF_X =? 0); cbv zeta; done.
Qed.

Lemma wp_load_page s root tabs data size ph v :
  as_wf hh s root tabs -> seg_ok size ph -> image_ok s tabs data size -> user_va v -> v mod 4096 = 0 ->
  wp (load_page hh data ph root v) (fun ok s' => exists tabs',
    as_wf hh s' root tabs' /\ grew s tabs s' tabs' /\
    (forall va', user_va va' -> va' / 4096 <> v / 4096 -> mapping hh s' root va' = mapping hh s root va') /\
    (full s' \/ (ok = true /\ page_loaded (vm_mem s) s' root tabs' data ph v))) s.
Proof.
  intros Hwf Hseg (Hd & Hds & Himg) Hva Hal. unfold load_page. wp_steps.
  apply wp_pa. eapply wp_mono; [apply fa_alloc_spec, (as_pa _ _ _ _ Hwf)|].
  intros f x [Hx [(-> & Hfull & Hsame)|(Hf & Hfree & Hused & Hoth)]]; cbv beta.
  { wp_steps. exists tabs. split_and!; [|split; [by intros q n; cbn; rewrite Hsame|]|done|].
    - apply as_wf_pa_change; [done|done|]. intros p t _. apply Hsame.
    - intros a Ha. split; [|done]. intros g Hg Hga. cbn. rewrite Hsame. by apply Ha.
    - left. intros q. cbn. by rewrite Hsame. }
  destruct (Z.eqb_spec f 0) as [->|_]; [destruct Hf; lia|]. rewrite (valid_frame_p2v hh Hhh f Hf).
  unfold mem_memset. wp_steps. cbn [vm_mem vm_pa kernel_pml4].
  assert (Hnot : forall p, tabs !! p <> Some f).
  { intros p Hp. destruct (as_frame _ _ _ _ Hwf p f Hp). congruence. }
  eapply wp_mono; [eapply (wp_copy_file _ (vm_mem s) data size ph f v); try done|].
  { intros a Ha Hfa. by destruct (Himg a Ha f Hf Hfa). }
  { intros a. cbn [vm_mem set_mem]. by rewrite memset_spec. }
  intros [] s2 (Epa & Ek & Hm). cbn [vm_pa set_mem] in Epa.
  assert (Hout : forall a, ~ (f + hh <= a < f + hh + 4096) -> load8 (vm_mem s2) a = load8 (vm_mem s) a).
  { intros a Ha. rewrite Hm. case_bools; done. }
  assert (Hwf2 : as_wf hh s2 root tabs) by (apply (page_as_wf s s2 root tabs f); rewrite ?Epa; done).
  assert (Hg2 : grew s tabs s2 tabs) by (apply (page_grew s s2 tabs f); rewrite ?Epa; try done; congruence).
  destruct Hf as [Hfa Hfr]. destruct (seg_flags_ok ph) as [Hfl Hpr]. wp_steps.
  eapply wp_mono; [apply (wp_vmm_map_page hh Hhh s2 root tabs v f (seg_flags ph)); try done; lia|].
  intros [] s' (tabs' & Hwf' & Hmf & Hother & Hmap). wp_steps. exists tabs'.
  pose proof (map_frame_grew s2 root tabs s' tabs' Hwf' Hmf) as Hg'.
  split; [done|]. split; [by eapply grew_trans|]. split.
  - intros va' Hva' Hne. rewrite Hother by done. apply (page_mapping s s2 root tabs f); rewrite ?Epa; done.
  - destruct Hmap as [Hmap|[_ Hfull]]; [right|by left]. split; [done|]. exists f.
    assert (Hst : forall k, 0 <= k < 4096 -> stable s2 tabs (f + hh + k)).
    { intros k Hk. apply (owned_stable s2 tabs f); [done| |done|lia]. rewrite Epa. congruence. }
    destruct Hg' as [Hu' Hs']. split; [done|]. split; [done|]. split; [apply Hu'; by rewrite Epa|]. split.
    + destruct (Hs' (f + hh + 0) (Hst 0 ltac:(lia))) as [Hst' _]. apply (Hst' f); [done|lia].
    + intros k Hk. destruct (Hs' _ (Hst k Hk)) as [_ ->]. rewrite Hm.
      replace (f + hh + k - (f + hh)) with k by lia. case_bools; done.
Qed.

(** ** Segments *)

Lemma page_mask x : 0 <= x < 18446744073709551616 -> Z.land x 0xFFFFFFFFFFFFF000 = x - x mod 4096.
Proof.
  intros Hx. change 0xFFFFFFFFFFFFF000 with (2 ^ 64 - 2 ^ 12). rewrite land_high; [|lia|exact Hx].
  change (2 ^ 12) with 4096. lia.
Qed.

Lemma seg_bounds size ph :
  seg_ok size ph ->
  0 <= seg_start ph <= p_vaddr ph /\ seg_start ph mod 4096 = 0 /\ p_vaddr ph + p_memsz ph <= seg_end ph /\
  seg_start ph <= seg_end ph <= 140737488355328 /\ seg_end ph mod 4096 = 0.
Proof.
  intros [? [? ?] _ _]. unfold seg_start, seg_end, page_align_down, page_align_up, PAGE_SIZE.
  rewrite (u64_small (p_vaddr ph + p_memsz ph)) by lia. rewrite u64_small by lia. rewrite !page_mask by lia. lia.
Qed.

Definition range_loaded (m : memory) s root tabs data ph lo hi : Prop :=
  forall v, lo <= v < hi -> v mod 4096 = 0 -> page_loaded m s root tabs data ph v.

Lemma page_loaded_grew m m' s s' root tabs tabs' data size ph v :
  grew s tabs s' tabs' -> mapping hh s' root v = mapping hh s root v -> seg_ok size ph ->
  (forall a, data <= a < data + size -> load8 m' a = load8 m a) ->
  page_loaded m' s root tabs data ph v -> page_loaded m s' root tabs' data ph v.
Proof.
  intros [Hu Hs] Hmap Hseg Hm (f & Hf & Hfm & Hfr & Hft & Hb). exists f.
  assert (Hst : forall k, 0 <= k < 4096 -> stable s tabs (f + hh + k)).
  { intros k Hk. apply (owned_stable s tabs f); [done|congruence|done|lia]. }
  split; [done|]. split; [by rewrite Hmap|]. split; [by apply Hu|]. split.
  - destruct (Hs _ (Hst 0 ltac:(lia))) as [Hst' _]. apply (Hst' f); [done|lia].
  - intros k Hk. destruct (Hs _ (Hst k Hk)) as [_ ->]. rewrite (Hb k Hk). by apply (page_byte_ext _ _ _ size).
Qed.

Lemma wp_load_pages root data size ph : seg_ok size ph -> forall n v s tabs fuel,
  as_wf hh s root tabs -> image_ok s tabs data size -> 0 <= v -> v mod 4096 = 0 ->
  seg_end ph = v + 4096 * Z.of_nat n -> (n <= fuel)%nat ->
  wp (load_pages hh data ph root v fuel) (fun ok s' => exists tabs',
    as_wf hh s' root tabs' /\ grew s tabs s' tabs' /\
    (forall va, user_va va -> ~ (v <= va < seg_end ph) -> mapping hh s' root va = mapping hh s root va) /\
    (full s' \/ (ok = true /\ range_loaded (vm_mem s) s' root tabs' data ph v (seg_end ph)))) s.
Proof.
  intros Hseg. destruct (seg_bounds size ph Hseg) as (_ & _ & _ & [_ Hend] & _).
  induction n as [|n IH]; intros v s tabs fuel Hwf Himg Hv Hal E Hf.
  - assert (Hlt : (v <? seg_end ph) = false) by (apply Z.ltb_ge; lia).
    destruct fuel; cbn [load_pages]; rewrite Hlt; wp_steps; exists tabs; split_and!; try done;
      try apply grew_refl; right; (split; [done|]); intros va Hva; lia.
  - destruct fuel as [|fuel]; [lia|]. cbn [load_pages].
    destruct (Z.ltb_spec v (seg_end ph)) as [Hlt|]; [|lia]. wp_steps. assert (Hva : user_va v) by (split; lia).
    eapply wp_mono; [by apply (wp_load_page s root tabs data size ph v)|].
    intros ok s1 (tabs1 & Hwf1 & Hg1 & Ho1 & Hr1). destruct (image_ok_grew _ _ _ _ _ _ Hg1 Himg) as [Himg1 Hm1].
    assert (Hout : forall va, user_va va -> ~ (v <= va < seg_end ph) -> mapping hh s1 root va = mapping hh s root va).
    { intros va Hva' Hne. apply Ho1; [done|]. lia. }
    destruct ok; [|wp_steps; exists tabs1; split_and!; try done; destruct Hr1 as [?|[? _]]; [by left|done]].
    unfold PAGE_SIZE. rewrite u64_small by lia.
    eapply wp_mono; [eapply (IH (v + 4096) s1 tabs1 fuel); try done; lia|].
    intros ok s' (tabs' & Hwf' & Hg' & Ho' & Hr'). exists tabs'. split; [done|]. split; [by eapply grew_trans|].
    split; [intros va Hva' Hne; rewrite Ho', Hout by (done || lia); done|].
    destruct Hr' as [?|[-> Hr']]; [by left|]. destruct Hr1 as [Hfull|[_ Hp]]; [left; by eapply full_grew|].
    right. split; [done|]. intros w Hw Hwal. destruct (decide (w = v)) as [->|Hne].
    + apply (page_loaded_grew (vm_mem s) (vm_mem s) s1 s' root tabs1 tabs' data size); try done. apply Ho'; [done|lia].
    + apply (page_loaded_grew (vm_mem s) (vm_mem s1) s' s' root tabs' tabs' data size); try done.
      apply Hr'; lia.
Qed.

(** The program headers from [a] on. *)
Fixpoint phdrs (m : memory) (a : Z) (n : nat) : list phdr :=
  match n with O => [] | Datatypes.S n' => phdr_at m a :: phdrs m (a + 56) n' end.

Definition covers (ph : phdr) (va : Z) : Prop := p_type ph = PT_LOAD /\ seg_start ph <= va < seg_end ph.

(** No two segments share a page. *)
Fixpoint segs_disjoint (phs : list phdr) : Prop :=
  match phs with
  | [] => True
  | ph :: phs' => (forall ph' va, ph' ∈ phs' -> covers ph va -> ~ covers ph' va) /\ segs_disjoint phs'
  end.
Definition segs_ok (size : Z) (phs : list phdr) : Prop :=
  (forall ph, ph ∈ phs -> p_type ph = PT_LOAD -> seg_ok size ph) /\ segs_disjoint phs.

(** The end of the highest segment. *)
Definition top (phs : list phdr) (h : Z) : Z :=
  foldl (fun h ph => if p_type ph =? PT_LOAD then Z.max h (seg_end ph) else h) h phs.

Lemma phdrs_ext m m' n : forall a,
  (forall b, a <= b < a + 56 * Z.of_nat n -> load8 m' b = load8 m b) -> phdrs m' a n = phdrs m a n.
Proof.
  induction n as [|n IH]; intros a He; [done|]. cbn [phdrs]. f_equal; [|apply IH; intros b Hb; apply He; lia].
  unfold phdr_at, load32, load64. f_equal; apply load_le_ext; intros k Hk; apply He; lia.
Qed.

Definition segs_loaded (m : memory) s root tabs data (phs : list phdr) : Prop :=
  forall ph, ph ∈ phs -> p_type ph = PT_LOAD ->
    range_loaded m s root tabs data ph (seg_start ph) (seg_end ph).

(** What loading the segments [phs] achieves from state [s]. *)
Definition load_post (m : memory) s root tabs data phs (h : Z) (r : option Z) s' : Prop := exists tabs',
  as_wf hh s' root tabs' /\ grew s tabs s' tabs' /\
  (forall va, user_va va -> (forall ph, ph ∈ phs -> ~ covers ph va) ->
    mapping hh s' root va = mapping hh s root va) /\
  (r = None -> full s') /\ (forall h', r = Some h' -> h' = top phs h) /\
  (full s' \/ segs_loaded m s' root tabs' data phs).

Lemma load_post_skip m s root tabs data ph phs h r s' :
  p_type ph <> PT_LOAD -> load_post m s root tabs data phs h r s' ->
  load_post m s root tabs data (ph :: phs) h r s'.
Proof.
  intros Hty (tabs' & H1 & H2 & H3 & H4 & H5 & H6). exists tabs'. split_and!; try done.
  - intros va Hva Hc. apply H3; [done|]. intros ph' Hph'. apply Hc. by apply list_elem_of_further.
  - intros h' Hh'. rewrite (H5 h' Hh'). unfold top. cbn [foldl]. by destruct (Z.eqb_spec (p_type ph) PT_LOAD).
  - destruct H6 as [?|H6]; [by left|right]. intros ph' [->|Hph']%elem_of_cons Hty'; [done|by apply H6].
Qed.

(** One segment, then the others. *)
Lemma load_post_load s s1 root tabs tabs1 data size ph phs h r s' :
  p_type ph = PT_LOAD -> segs_ok size (ph :: phs) -> image_ok s tabs data size -> grew s tabs s1 tabs1 ->
  (forall va, user_va va -> ~ (seg_start ph <= va < seg_end ph) -> mapping hh s1 root va = mapping hh s root va) ->
  (full s1 \/ range_loaded (vm_mem s) s1 root tabs1 data ph (seg_start ph) (seg_end ph)) ->
  load_post (vm_mem s1) s1 root tabs1 data phs (Z.max h (seg_end ph)) r s' ->
  load_post (vm_mem s) s root tabs data (ph :: phs) h r s'.
Proof.
  intros Hty [Hok [Hdj _]] Himg Hg1 Ho1 Hr1 (tabs' & H1 & H2 & H3 & H4 & H5 & H6).
  destruct (image_ok_grew _ _ _ _ _ _ Hg1 Himg) as [_ Hm1]. exists tabs'. split_and!; try done.
  - by eapply grew_trans.
  - intros va Hva Hc. rewrite H3, Ho1; [done|done| |done|].
    + intros Hin. apply (Hc ph); [apply list_elem_of_here|done].
    + intros ph' Hph'. apply Hc. by apply list_elem_of_further.
  - intros h' Hh'. rewrite (H5 h' Hh'). unfold top. cbn [foldl]. by rewrite (proj2 (Z.eqb_eq _ _) Hty).
  - destruct H6 as [?|H6]; [by left|]. destruct Hr1 as [Hf|Hr1]; [left; by eapply full_grew|right].
    assert (Hseg : seg_ok size ph) by (apply Hok; [apply list_elem_of_here|done]).
    destruct (seg_bounds size ph Hseg) as (Hs1 & _ & _ & Hs3 & _).
    intros ph' [->|Hph']%elem_of_cons Hty' v Hv Hal.
    + apply (page_loaded_grew (vm_mem s) (vm_mem s) s1 s' root tabs1 tabs' data size); try done; [|by apply Hr1].
      apply H3; [split; lia|]. intros ph' Hph'. by apply (Hdj ph' v Hph').
    + apply (page_loaded_grew (vm_mem s) (vm_mem s1) s' s' root tabs' tabs' data size); try done; [|by apply H6].
      apply Hok; [by apply list_elem_of_further|done].
Qed.

Lemma wp_load_segments root data size n : forall a s tabs h,
  as_wf hh s root tabs -> image_ok s tabs data size -> data <= a -> a + 56 * Z.of_nat n <= data + size ->
  segs_ok size (phdrs (vm_mem s) a n) ->
  wp (load_segments hh data root a n h)
    (load_post (vm_mem s) s root tabs data (phdrs (vm_mem s) a n) h) s.
Proof.
  induction n as [|n IH]; intros a s tabs h Hwf Himg Ha1 Ha2 Hsegs; cbn [load_segments phdrs].
  { wp_steps. exists tabs. split_and!; try done; [by intros h' [= <-]|right; intros ph Hph; by apply not_elem_of_nil in Hph]. }
  cbn [phdrs] in Hsegs. wp_steps. set (ph := phdr_at (vm_mem s) a) in *.
  set (phs := phdrs (vm_mem s) (a + 56) n) in *. pose proof Hsegs as [Hok [_ Hdj]].
  assert (Hok' : segs_ok size phs) by (split; [intros ph' Hph'; apply Hok; by apply list_elem_of_further|done]).
  destruct (Z.eqb_spec (p_type ph) PT_LOAD) as [Ety|Ety]; cbn [negb].
  2:{ eapply wp_mono; [by eapply (IH (a + 56) s tabs h); try done; lia|]. intros r s'. by apply load_post_skip. }
  assert (Hseg : seg_ok size ph) by (apply Hok; [apply list_elem_of_here|done]).
  destruct (seg_bounds size ph Hseg) as (Hs1 & Hs2 & _ & Hs3 & Hs4). wp_steps.
  eapply wp_mono; [eapply (wp_load_pages root data size ph Hseg
    (Z.to_nat ((seg_end ph - seg_start ph) / PAGE_SIZE)) (seg_start ph) s tabs); try done; unfold PAGE_SIZE; lia|].
  intros ok s1 (tabs1 & Hwf1 & Hg1 & Ho1 & Hr1). destruct (image_ok_grew _ _ _ _ _ _ Hg1 Himg) as [Himg1 Hm1].
  destruct ok.
  - assert (E : phdrs (vm_mem s1) (a + 56) n = phs) by (apply phdrs_ext; intros b Hb; apply Hm1; lia).
    eapply wp_mono; [eapply (IH (a + 56) s1 tabs1); try done; [lia|lia|by rewrite E]|]. rewrite E.
    intros r s' Hpost. eapply load_post_load; try done; [by destruct Hr1 as [?|[_ ?]]; [left|right]|].
    replace (Z.max h (seg_end ph)) with (if seg_end ph >? h then seg_end ph else h); [done|].
    rewrite Z.gtb_ltb. case_bools; lia.
  - destruct Hr1 as [Hfull|[? _]]; [|done]. wp_steps. exists tabs1. split_and!; try done; [|by left].
    intros va Hva Hc. apply Ho1; [done|]. intros Hin. apply (Hc ph); [apply list_elem_of_here|done].
Qed.

(** A file that says it is a 64-bit little-endian executable: the bytes of the
    identification and the type at their offsets. *)
Definition says_elf (m : memory) (data : Z) : bool :=
  bool_decide (data <> 0) && bool_decide (map (fun i => load8 m (data + i)) [0; 1; 2; 3; 4; 5; 16; 17] = [0x7F; 0x45; 0x4C; 0x46; 2; 1; 2; 0]).

(** Such a file of [size] bytes at [data], with the program headers [phs]. *)
Record elf_file (m : memory) (data size : Z) (phs : list phdr) : Prop := {
  ef_size : 64 <= size;
  ef_table : load64 m (data + 32) + 56 * load16 m (data + 56) <= size;
  ef_phdrs : phs = phdrs m (data + load64 m (data + 32)) (Z.to_nat (load16 m (data + 56)));
  ef_segs : segs_ok size phs;
}.

Lemma says_elf_checks m data : data <> 0 ->
  negb (load32 m data =? ELF_MAGIC) || negb (load8 m (data + 4) =? ELFCLASS64) ||
  negb (load8 m (data + 5) =? ELFDATA2LSB) || negb (load16 m (data + 16) =? ET_EXEC) = negb (says_elf m data).
Proof.
  intros Hd. unfold says_elf. rewrite bool_decide_true by done. rewrite <- !negb_andb. f_equal. cbn [map].
  unfold load32, load16, ELF_MAGIC, ELFCLASS64, ELFDATA2LSB, ET_EXEC. cbn [load_le andb].
  replace (data + 1 + 1 + 1) with (data + 3) by lia. replace (data + 1 + 1) with (data + 2) by lia.
  replace (data + 16 + 1) with (data + 17) by lia. replace (data + 0) with data by lia.
  pose proof (fun i => load8_range m (data + i)) as Hr. pose proof (load8_range m data).
  pose proof (Hr 1). pose proof (Hr 2). pose proof (Hr 3). pose proof (Hr 16). pose proof (Hr 17).
  apply eq_true_iff_eq. rewrite !andb_true_iff, !Z.eqb_eq, bool_decide_eq_true. split.
  - intros (((Em & Ec) & Ed) & Et). do 7 (f_equal; [lia|]). f_equal. lia.
  - intros [= -> -> -> -> -> -> -> ->]. done.
Qed.

End load.

(** ** Instances *)

Fixpoint le_bytes (n : nat) (v : Z) : list Z :=
  match n with O => [] | Datatypes.S n' => v mod 256 :: le_bytes n' (v / 256) end.

(** An executable with one segment of 5000 bytes at 0x600010, four of them in the
    file, in memory at 4096. *)
Definition demo_elf : list Z :=
  le_bytes 4 ELF_MAGIC ++ [2; 1; 1; 0] ++ le_bytes 8 0 ++ le_bytes 2 2 ++ le_bytes 2 62 ++ le_bytes 4 1 ++
  le_bytes 8 0x600010 ++ le_bytes 8 64 ++ le_bytes 8 0 ++ le_bytes 4 0 ++ le_bytes 2 64 ++ le_bytes 2 56 ++
  le_bytes 2 1 ++ le_bytes 6 0 ++
  le_bytes 4 1 ++ le_bytes 4 5 ++ le_bytes 8 120 ++ le_bytes 8 0x600010 ++ le_bytes 8 0 ++ le_bytes 8 4 ++
  le_bytes 8 5000 ++ le_bytes 8 4096 ++ [1; 2; 3; 4].
Definition demo_vm_elf : vm pmm :=
  mkVm (store_bytes (vm_mem demo_vm2) 4096 demo_elf) (vm_pa demo_vm2) (kernel_pml4 demo_vm2).
Definition demo_ph : phdr := mkPhdr 1 5 120 0x600010 4 5000.

#[local] Opaque demo_vm2.

Lemma demo_elf_bytes : Forall (fun c => 0 <= c < 256) demo_elf.
Proof.
  assert (H : forallb (fun c => (0 <=? c) && (c <? 256)) demo_elf = true) by (vm_compute; reflexivity).
  apply Forall_forall. intros c Hc. rewrite forallb_forall in H.
  specialize (H c (proj1 (list_elem_of_In _ _) Hc)). lia.
Qed.

Lemma low_store_wf (s : vm pmm) root tabs l :
  as_wf demo_hh s root tabs -> Forall (fun c => 0 <= c < 256) l -> (length l <= 4096)%nat ->
  as_wf demo_hh (mkVm (store_bytes (vm_mem s) 4096 l) (vm_pa s) (kernel_pml4 s)) root tabs.
Proof.
  intros Hwf Hl Hlen. pose proof Hwf as [Hpa _ Hfr _ _ _].
  apply (as_wf_agree demo_hh s); [exact Hwf|exact Hpa|intros p t Hp; exact (proj2 (Hfr p t Hp))|].
  intros p t i Hp _ Hi. pose proof (idx_512 _ _ Hi). destruct (Hfr p t Hp) as [[_ Ht] _].
  destruct (store_bytes_spec l (vm_mem s) 4096 Hl) as [_ Ho].
  unfold entry, load64. apply load_le_ext. intros k Hk. apply Ho. unfold demo_hh. lia.
Qed.

Lemma demo_vm_elf_wf : exists tabs, as_wf demo_hh demo_vm_elf demo_root tabs.
Proof.
  destruct demo_run_wf as [tabs Hwf]. exists tabs.
  refine (low_store_wf demo_vm2 demo_root tabs demo_elf Hwf demo_elf_bytes _).
  assert (E : length demo_elf = 124%nat) by (vm_compute; reflexivity). rewrite E. lia.
Qed.

Lemma demo_elf_file : elf_file (vm_mem demo_vm_elf) 4096 124 [demo_ph].
Proof.
  split.
  1: lia.
  1: vm_compute; discriminate.
  1: vm_compute; reflexivity.
  split; [|split; [|exact I]].
  - intros ph [Hph|Hph]%elem_of_cons _; [rewrite Hph; split; cbn; lia|by apply not_elem_of_nil in Hph].
  - intros ph va Hph. by apply not_elem_of_nil in Hph.
Qed.

Lemma demo_elf_image tabs : image_ok demo_hh demo_vm_elf tabs 4096 124.
Proof.
  split; [lia|]. split; [lia|]. intros a Ha f [_ Hf] Hfa. unfold demo_hh in Hfa. lia.
Qed.

#[local] Opaque demo_vm_elf elf_load.

