(* ===== verification/ProcRing.v ===== *)
(** * The ring of all processes (process.c)

    The circular doubly linked list of every process, the loops that walk it, and
    the choice of the next process to run. *)

From S2P Require Import Prelude Proc Queues Mlfq.

(** ** Operations *)

Definition enqueue_process (proc : Z) : M sched unit :=
  q <- gets process_queue ;;
  if q =? 0 then
    modify (set_process_queue proc) ;;
    pset (set_p_next proc) proc ;;
    pset (set_p_prev proc) proc
  else
    t <- pget p_prev q ;;
    pset (set_p_prev t) proc ;;
    pset (set_p_next q) proc ;;
    t <- pget p_prev q ;;
    pset (set_p_next proc) t ;;
    pset (set_p_prev proc) q.

(** Taking a process out of the ring, as [reap_zombies] and [wait_reap_child] do. *)
Definition ring_unlink (victim : Z) : M sched unit :=
  pv <- pget p_prev victim ;;
  nx <- pget p_next victim ;;
  pset (set_p_next nx) pv ;;
  nx <- pget p_next victim ;;
  pv <- pget p_prev victim ;;
  pset (set_p_prev pv) nx ;;
  q <- gets process_queue ;;
  if q =? victim then
    nx <- pget p_next victim ;;
    modify (set_process_queue (if nx =? victim then 0 else nx))
  else ret tt.

(** [do { count++; p = p->next; } while (p != node);] *)
Fixpoint count_ring (node p : Z) (fuel : nat) : M sched nat :=
  match fuel with
  | O => undef
  | S fuel' =>
      nx <- pget p_next p ;;
      if nx =? node then ret 1%nat
      else n <- count_ring node nx fuel' ;; ret (S n)
  end.
Definition ring_count (node : Z) : M sched nat :=
  s <- get ;; count_ring node node (size (procs s)).

Fixpoint wake_loop (self node : Z) (count : nat) : M sched unit :=
  match count with
  | O => ret tt
  | S count' =>
      let cand := node in
      node <- pget p_next node ;;
      st <- pget p_state cand ;;
      (if negb (cand =? self) && bool_decide (st = PROCESS_BLOCKED) then mlfq_enqueue cand else ret tt) ;;
      wake_loop self node count'
  end.
Definition wake_blocked_processes (self : Z) : M sched unit :=
  q <- gets process_queue ;;
  if q =? 0 then ret tt
  else
    count <- ring_count q ;;
    wake_loop self q count.

(** The search loop of [wait_reap_child]: the dead child found, or 0, and whether
    there is any child.  [pid] is signed. *)
Fixpoint find_loop (parent_ pid node : Z) (count : nat) (has_children : bool) : M sched (Z * bool) :=
  match count with
  | O => ret (0, has_children)
  | S count' =>
      let cand := node in
      node <- pget p_next node ;;
      par <- pget parent cand ;;
      if negb (par =? parent_) then find_loop parent_ pid node count' has_children
      else
        st <- pget p_state cand ;;
        cpid <- pget p_pid cand ;;
        if bool_decide (st = PROCESS_DEAD) && ((pid <=? 0) || (u64 pid =? cpid))
        then ret (cand, true)
        else find_loop parent_ pid node count' true
  end.

(** The part of [schedule_locked] behind [reap_zombies]: whether another process
    was chosen, and which.  The switch itself is [Switch.switch_task]. *)
Definition choose_next : M sched (option Z) :=
  prev <- gets current_process ;;
  idle <- gets idle_process ;;
  (wake_blocked_processes prev ;;
   st <- pget p_state prev ;;
   (if bool_decide (st = PROCESS_RUNNING) && negb (prev =? idle) then mlfq_enqueue prev else ret tt)) ;;
  next <- mlfq_pick_next ;;
  let next := if next =? 0 then idle else next in
  if prev =? next then ret None
  else
    modify (set_current_process next) ;;
    pset (set_p_state PROCESS_RUNNING) next ;;
    ret (Some next).

(** ** Rings *)

(** [a] points to [b] and [b] back to [a]. *)
Definition edge (m : gmap Z process) (a b : Z) : Prop :=
  exists ra rb, m !! a = Some ra /\ m !! b = Some rb /\ p_next ra = b /\ p_prev rb = a.
Fixpoint edges (m : gmap Z process) (l : list Z) : Prop :=
  match l with
  | a :: ((b :: _) as l') => edge m a b /\ edges m l'
  | _ => True
  end.

Record ring (s : sched) (l : list Z) : Prop := {
  rg_ne : l <> [];
  rg_head : process_queue s = hd0 l;
  rg_nodup : NoDup l;
  rg_null : 0 ∉ l;
  rg_edges : edges (procs s) (l ++ [hd0 l]);
}.

Lemma edges_cons m a b l : edges m (a :: b :: l) <-> edge m a b /\ edges m (b :: l).
Proof. done. Qed.
Lemma edges_app m l1 x l2 : edges m (l1 ++ x :: l2) <-> edges m (l1 ++ [x]) /\ edges m (x :: l2).
Proof.
  induction l1 as [|a [|b l1] IH]; cbn [app].
  - split; [intros H; split; [exact I|exact H]|by intros [_ H]].
  - rewrite !edges_cons. cbn [edges] in IH |- *. tauto.
  - rewrite !edges_cons. cbn [app] in IH. rewrite IH. tauto.
Qed.

(** A ring may be entered anywhere. *)
Lemma edges_rotate m l1 v l2 :
  edges m (l1 ++ v :: l2 ++ [hd0 (l1 ++ [v])]) <-> edges m (v :: l2 ++ l1 ++ [v]).
Proof.
  destruct l1 as [|h l1]; [done|].
  pose proof (edges_app m (h :: l1) v (l2 ++ [h])) as E1. pose proof (edges_app m (v :: l2) h (l1 ++ [v])) as E2.
  cbn [app] in *. change (hd0 (h :: l1 ++ [v])) with h. rewrite E1, E2. tauto.
Qed.

(** Updates that keep the links of the members. *)
Lemma edges_ext m m' l :
  (forall a r, a ∈ l -> m !! a = Some r -> exists r', m' !! a = Some r' /\ p_next r' = p_next r /\ p_prev r' = p_prev r) ->
  edges m l -> edges m' l.
Proof.
  induction l as [|a [|b l] IH]; intros He H; [done|done|]. rewrite edges_cons in H |- *.
  destruct H as [(ra & rb & Ha & Hb & En & Ep) H]. split.
  - destruct (He a ra ltac:(apply list_elem_of_here) Ha) as (ra' & Ha' & E1 & _).
    destruct (He b rb ltac:(apply list_elem_of_further, list_elem_of_here) Hb) as (rb' & Hb' & _ & E2).
    exists ra', rb'. by rewrite E1, E2.
  - apply IH; [|done]. intros c r Hc. apply He. by apply list_elem_of_further.
Qed.

Lemma edges_set_next m l x p : p ∉ removelast l -> edges m l -> edges (alter (set_p_next x) p m) l.
Proof.
  induction l as [|a [|b l] IH]; intros Hp H; [done|done|]. rewrite edges_cons in H |- *.
  cbn [removelast] in Hp. apply not_elem_of_cons in Hp as [Hpa Hp]. destruct H as [(ra & rb & Ha & Hb & En & Ep) H].
  split; [|by apply IH]. exists ra, (if decide (p = b) then set_p_next x rb else rb).
  rewrite lookup_alter_ne by done. split; [done|]. destruct (decide (p = b)) as [->|Hne].
  - by rewrite lookup_alter_eq, Hb.
  - by rewrite lookup_alter_ne.
Qed.
Lemma edges_set_prev m l x p : p ∉ tail l -> edges m l -> edges (alter (set_p_prev x) p m) l.
Proof.
  induction l as [|a [|b l] IH]; intros Hp H; [done|done|]. rewrite edges_cons in H |- *.
  cbn [tail] in Hp. apply not_elem_of_cons in Hp as [Hpb Hp]. destruct H as [(ra & rb & Ha & Hb & En & Ep) H].
  split; [|by apply IH]. unfold edge. rewrite (lookup_alter_ne _ _ p b) by done.
  destruct (decide (p = a)) as [->|Hne].
  - exists (set_p_prev x ra), rb. by rewrite lookup_alter_eq, Ha.
  - exists ra, rb. by rewrite lookup_alter_ne.
Qed.

(** What the ring operations leave alone: all but the ring links. *)
Definition rstrip (r : process) : process := set_p_next 0 (set_p_prev 0 r).
Definition same_but_ring (m m' : gmap Z process) : Prop := rstrip <$> m' = rstrip <$> m.

Lemma same_alter_next m x p : same_but_ring m (alter (set_p_next x) p m).
Proof. unfold same_but_ring. by apply fmap_alter_same. Qed.
Lemma same_alter_prev m x p : same_but_ring m (alter (set_p_prev x) p m).
Proof. unfold same_but_ring. by apply fmap_alter_same. Qed.
Lemma same_trans m1 m2 m3 : same_but_ring m1 m2 -> same_but_ring m2 m3 -> same_but_ring m1 m3.
Proof. unfold same_but_ring. congruence. Qed.
#[local] Hint Resolve same_alter_next same_alter_prev : queues.

Lemma same_lookup m m' a r :
  same_but_ring m m' -> m !! a = Some r -> exists r', m' !! a = Some r' /\ rstrip r' = rstrip r.
Proof.
  intros E Hr. apply (f_equal (fun m => m !! a)) in E. rewrite !lookup_fmap, Hr in E.
  destruct (m' !! a) as [r'|]; [|done]. exists r'. split; [done|]. by apply (inj Some) in E.
Qed.

Lemma ring_member s l a : ring s l -> a ∈ l -> a <> 0 /\ exists r, procs s !! a = Some r.
Proof.
  intros [_ _ _ H0 He] Ha. split; [by intros ->|]. apply list_elem_of_split in Ha as (l1 & l2 & ->).
  rewrite <- app_assoc in He. cbn [app] in He.
  destruct (l2 ++ [hd0 (l1 ++ a :: l2)]) as [|b l'] eqn:E; [by destruct l2|].
  rewrite edges_app, edges_cons in He. destruct He as (_ & (ra & _ & Hr & _) & _). eauto.
Qed.

Lemma ring_last_edge s l : ring s l -> edge (procs s) (last0 l) (hd0 l).
Proof.
  intros [Hne _ _ _ He]. destruct (last_split l Hne) as (l' & t & -> & _). rewrite last0_snoc.
  rewrite <- app_assoc in He. cbn [app] in He. rewrite edges_app, edges_cons in He. tauto.
Qed.

Lemma ring_ends s l : ring s l ->
  hd0 l ∈ l /\ last0 l ∈ l /\ (hd0 l ∉ tail l) /\ (last0 l ∉ removelast l) /\ edges (procs s) l.
Proof.
  intros [Hne _ Hnd _ He]. destruct (last_split l Hne) as (l' & t & E & _).
  split; [destruct l; [done|]; apply list_elem_of_here|]. split; [rewrite E, last0_snoc; apply elem_of_app; right; apply list_elem_of_here|].
  split; [destruct l; [done|]; by apply NoDup_cons in Hnd as [? _]|]. split.
  - rewrite E, last0_snoc, removelast_last in *. apply NoDup_app in Hnd as (_ & Hd & _).
    intros Hin. apply (Hd t Hin). apply list_elem_of_here.
  - rewrite E, <- app_assoc in He. cbn [app] in He. rewrite edges_app in He. rewrite E. tauto.
Qed.

(** The four updates that append [p] after the tail [t] of a ring with head [h]. *)
Definition ring_push (m : gmap Z process) (h t p : Z) : gmap Z process :=
  alter (set_p_prev p) h (alter (set_p_next p) t (alter (set_p_next h) p (alter (set_p_prev t) p m))).

Lemma ring_push_edges s l p r :
  ring s l -> p ∉ l -> procs s !! p = Some r ->
  edges (ring_push (procs s) (hd0 l) (last0 l) p) ((l ++ [p]) ++ [hd0 l]).
Proof.
  intros Hr Hp Hpr. destruct (ring_ends s l Hr) as (Hh & Ht & Hh' & Ht' & He). pose proof (rg_ne _ _ Hr) as Hne.
  assert (Hph : p <> hd0 l) by (by intros ->). assert (Hpt : p <> last0 l) by (by intros ->).
  destruct (ring_last_edge s l Hr) as (rt & rh & Hrt & Hrh & _ & _). unfold ring_push.
  destruct (last_split l Hne) as (l' & t & E & Et). rewrite Et in *. set (h := hd0 l) in *.
  rewrite E. rewrite <- !app_assoc. cbn [app]. rewrite edges_app, edges_cons. split; [|split; [|split; [|exact I]]].
  - rewrite <- E. apply edges_set_prev; [done|]. apply edges_set_next; [done|].
    apply edges_set_next; [|apply edges_set_prev; [|done]].
    + intros Hin. apply Hp. rewrite E, removelast_last in Hin. rewrite E. apply elem_of_app. by left.
    + intros Hin. apply Hp. destruct l; [done|]. by apply list_elem_of_further.
  - unfold edge. eexists (if decide (h = t) then set_p_prev p (set_p_next p rt) else set_p_next p rt), _.
    split; [|split; [rewrite !(lookup_alter_ne _ _ _ p), lookup_alter_eq, lookup_alter_eq, Hpr by done; done|]].
    + destruct (decide (h = t)) as [->|].
      * rewrite lookup_alter_eq, lookup_alter_eq, !lookup_alter_ne, Hrt by done. done.
      * rewrite lookup_alter_ne, lookup_alter_eq, !lookup_alter_ne, Hrt by done. done.
    + by destruct (decide (h = t)).
  - unfold edge. eexists _, (set_p_prev p (if decide (h = t) then set_p_next p rh else rh)).
    split; [rewrite !(lookup_alter_ne _ _ _ p), lookup_alter_eq, lookup_alter_eq, Hpr by done; done|].
    split; [|done]. rewrite lookup_alter_eq. destruct (decide (h = t)) as [->|].
    + rewrite lookup_alter_eq, !lookup_alter_ne, Hrh by done. done.
    + rewrite !lookup_alter_ne, Hrh by done. done.
Qed.

Lemma wp_enqueue_process s l p r :
  ring s l -> p <> 0 -> p ∉ l -> procs s !! p = Some r ->
  wp (enqueue_process p) (fun _ s' => ring s' (l ++ [p]) /\ s' = set_procs (procs s') s /\
    same_but_ring (procs s) (procs s')) s.
Proof.
  intros Hr Hp0 Hp Hpr. destruct (ring_last_edge s l Hr) as (rt & rh & Hrt & Hrh & _ & Hpv).
  destruct (ring_ends s l Hr) as (Hh & Ht & _). pose proof (ring_push_edges s l p r Hr Hp Hpr) as Hed.
  assert (Hph : p <> hd0 l) by (by intros ->). assert (Hpt : p <> last0 l) by (by intros ->).
  pose proof Hr as [Hne Hq Hnd H0 _]. unfold enqueue_process. wp_steps. rewrite Hq.
  destruct (Z.eqb_spec (hd0 l) 0) as [E0|_]; [rewrite E0 in Hh; done|].
  wp_steps. eapply wp_pget; [exact Hrh|]. cbv beta. rewrite Hpv. wp_steps.
  eapply wp_pset; [exact Hpr|]. cbv beta. wp_steps.
  eapply wp_pset; [cbn; by rewrite lookup_alter_eq, Hpr|]. cbv beta. wp_steps.
  eapply wp_pget; [cbn; by rewrite !lookup_alter_ne, Hrh by done|]. cbv beta. rewrite Hpv. wp_steps.
  eapply wp_pset; [cbn; by rewrite !lookup_alter_ne, Hrt by done|]. cbv beta. wp_steps.
  eapply (wp_pset _ _ _ _ (if decide (last0 l = hd0 l) then set_p_next p rh else rh)).
  { cbn. destruct (decide (last0 l = hd0 l)) as [->|].
    - by rewrite lookup_alter_eq, !lookup_alter_ne, Hrh by done.
    - by rewrite !lookup_alter_ne, Hrh by done. }
  cbn. fold (ring_push (procs s) (hd0 l) (last0 l) p).
  assert (Hhd : hd0 (l ++ [p]) = hd0 l) by (by destruct l).
  split; [split; cbn; rewrite ?Hhd|split; [done|]].
  - by destruct l.
  - exact Hq.
  - apply NoDup_app. split; [done|]. split; [|apply NoDup_singleton]. intros x Hx ->%list_elem_of_singleton. done.
  - intros [?|?%list_elem_of_singleton]%elem_of_app; [done|by subst].
  - exact Hed.
  - unfold ring_push. do 4 (eapply same_trans; [|by auto with queues]). done.
Qed.

(** ** Taking a process out *)

(** The two updates that close the gap between [z] and [b]. *)
Definition ring_cut (m : gmap Z process) (z b : Z) : gmap Z process :=
  alter (set_p_prev z) b (alter (set_p_next b) z m).

Lemma cut_pointers m v rest :
  edges m (v :: rest ++ [v]) -> exists rv, m !! v = Some rv /\
    p_next rv = hd0 (rest ++ [v]) /\ p_prev rv = last0 (v :: rest).
Proof.
  intros He. destruct rest as [|b rest].
  - cbn [app] in He. rewrite edges_cons in He. destruct He as [(ra & rb & Ha & Hb & En & Ep) _].
    exists ra. rewrite Ha in Hb. injection Hb as <-. done.
  - cbn [app] in He. rewrite edges_cons in He. destruct He as [(ra & rb & Ha & Hb & En & Ep) He].
    exists ra. split; [done|]. split; [done|]. destruct (last_split (b :: rest) ltac:(done)) as (l' & z & E & Ez).
    rewrite last0_cons by done. rewrite Ez. change (b :: rest ++ [v]) with ((b :: rest) ++ [v]) in He.
    rewrite E, <- app_assoc in He. cbn [app] in He. rewrite edges_app, edges_cons in He.
    destruct He as (_ & (rz & rv & Hz & Hv & _ & E') & _). rewrite Ha in Hv. by injection Hv as <-.
Qed.

Lemma ring_cut_edges m v rest :
  NoDup (v :: rest) -> rest <> [] -> edges m (v :: rest ++ [v]) ->
  edges (ring_cut m (last0 rest) (hd0 rest)) (rest ++ [hd0 rest]).
Proof.
  intros Hnd Hne He. apply NoDup_cons in Hnd as [_ Hnd].
  destruct (last_split rest Hne) as (l' & z & E & Ez).
  assert (Hrest : edges m rest /\ exists rz, m !! z = Some rz).
  { change (v :: rest ++ [v]) with ((v :: rest) ++ [v]) in He. rewrite E in He. cbn [app] in He.
    rewrite <- app_assoc in He. cbn [app] in He. change (v :: l' ++ z :: [v]) with ((v :: l') ++ z :: [v]) in He.
    rewrite edges_app, edges_cons in He. destruct He as (He & (rz & _ & Hz & _) & _). split; [|eauto].
    rewrite E. destruct (l' ++ [z]) as [|x l''] eqn:E'; [done|]. cbn [app] in He. rewrite E' in He. by apply edges_cons in He as [_ ?]. }
  destruct Hrest as [Hrest [rz Hz]].
  assert (Hb : exists b rest' rb, rest = b :: rest' /\ m !! b = Some rb).
  { destruct rest as [|b rest']; [done|]. cbn [app] in He. rewrite edges_cons in He. destruct He as [(_ & rb & _ & Hb & _) _].
    by exists b, rest', rb. }
  destruct Hb as (b & rest' & rb & Erest & Hb). assert (Hhd : hd0 rest = b) by (by rewrite Erest). rewrite Hhd, Ez.
  unfold ring_cut. rewrite E at 1. rewrite <- app_assoc. cbn [app]. rewrite edges_app, edges_cons.
  split; [rewrite <- E|split; [|exact I]].
  - apply edges_set_prev; [|apply edges_set_next; [|done]].
    + rewrite Erest in Hnd |- *. by apply NoDup_cons in Hnd as [? _].
    + rewrite E, removelast_last. rewrite E in Hnd. apply NoDup_app in Hnd as (_ & Hd & _).
      intros Hin. apply (Hd z Hin). apply list_elem_of_here.
  - unfold edge. exists (if decide (b = z) then set_p_prev z (set_p_next b rz) else set_p_next b rz),
      (set_p_prev z (if decide (z = b) then set_p_next b rb else rb)).
    split; [|split; [|split; [by destruct (decide (b = z))|done]]].
    + destruct (decide (b = z)) as [->|]; [by rewrite !lookup_alter_eq, Hz|].
      by rewrite lookup_alter_ne, lookup_alter_eq, Hz by done.
    + rewrite lookup_alter_eq. destruct (decide (z = b)) as [->|]; [by rewrite lookup_alter_eq, Hb|].
      by rewrite lookup_alter_ne, Hb by done.
Qed.

(** The state after [v] has left the ring [l1 ++ v :: l2]. *)
Definition unlinked (s s' : sched) (l : list Z) : Prop :=
  (if bool_decide (l = []) then process_queue s' = 0 else ring s' l) /\
  s' = set_process_queue (process_queue s') (set_procs (procs s') s) /\ same_but_ring (procs s) (procs s').

Lemma ring_rotated s l1 v l2 :
  ring s (l1 ++ v :: l2) -> edges (procs s) (v :: (l2 ++ l1) ++ [v]) /\ NoDup (v :: l2 ++ l1) /\
  process_queue s = hd0 (l1 ++ [v]) /\ 0 ∉ l1 ++ l2.
Proof.
  intros [_ Hq Hnd H0 He]. assert (Hhd : hd0 (l1 ++ v :: l2) = hd0 (l1 ++ [v])) by (by destruct l1).
  rewrite Hhd in *. split_and!; [|by rewrite (Permutation_app_comm l2 l1), Permutation_middle|done|].
  - rewrite <- !app_assoc in *. cbn [app] in He. by apply edges_rotate.
  - rewrite elem_of_app in *. rewrite elem_of_cons in H0. tauto.
Qed.

Lemma ring_joined m l1 l2 :
  edges m ((l2 ++ l1) ++ [hd0 (l2 ++ l1)]) -> edges m ((l1 ++ l2) ++ [hd0 (l1 ++ l2)]).
Proof.
  destruct l2 as [|b l2]; [by rewrite app_nil_r|]. cbn [app]. change (hd0 (b :: l2 ++ l1)) with b.
  rewrite <- !app_assoc. cbn [app]. intros He. apply edges_rotate in He. by destruct l1.
Qed.

Lemma wp_unlink_last s v : ring s [v] -> wp (ring_unlink v) (fun _ s' => unlinked s s' []) s.
Proof.
  intros Hr. destruct (ring_rotated s [] v [] Hr) as (He & _ & Hq & _).
  destruct (cut_pointers _ _ _ He) as (rv & Hv & Hn & Hp). cbn [app] in *.
  change (last0 [v]) with v in *. change (hd0 [v]) with v in *.
  unfold ring_unlink. wp_steps. eapply wp_pget; [exact Hv|]. cbv beta. wp_steps. eapply wp_pget; [exact Hv|].
  cbv beta. rewrite Hn, Hp. wp_steps.
  eapply wp_pset; [exact Hv|]. cbv beta. wp_steps. eapply wp_pget; [cbn; by rewrite lookup_alter_eq, Hv|]. cbv beta. wp_steps.
  eapply wp_pget; [cbn; by rewrite lookup_alter_eq, Hv|]. cbn [p_next p_prev set_p_next]. cbv beta. wp_steps.
  rewrite Hp. eapply wp_pset; [cbn; by rewrite lookup_alter_eq, Hv|]. cbv beta. wp_steps.
  cbn [process_queue set_procs]. rewrite Hq, Z.eqb_refl. wp_steps.
  eapply wp_pget; [cbn; by rewrite lookup_alter_eq, lookup_alter_eq, Hv|]. cbn [p_next set_p_next set_p_prev].
  rewrite Z.eqb_refl. wp_steps. split; [done|]. split; [by destruct s|]. cbn.
  eapply same_trans; [|by auto with queues]. auto with queues.
Qed.

Lemma wp_ring_unlink s l1 v l2 :
  ring s (l1 ++ v :: l2) -> wp (ring_unlink v) (fun _ s' => unlinked s s' (l1 ++ l2)) s.
Proof.
  intros Hr. destruct (decide (l2 ++ l1 = [])) as [E|E].
  { apply app_nil in E as [-> ->]. by apply wp_unlink_last. }
  destruct (ring_rotated s l1 v l2 Hr) as (He & Hnd & Hq & H0).
  destruct (cut_pointers _ _ _ He) as (rv & Hv & Hn & Hp).
  unfold ring_unlink. wp_steps. eapply wp_pget; [exact Hv|]. cbv beta. wp_steps. eapply wp_pget; [exact Hv|].
  cbv beta. rewrite Hn, Hp. wp_steps.
  assert (Hb : hd0 ((l2 ++ l1) ++ [v]) = hd0 (l2 ++ l1)) by (by destruct (l2 ++ l1)).
  rewrite Hb in *. rewrite last0_cons in * by done. pose proof (ring_cut_edges _ _ _ Hnd E He) as Hcut.
  set (b := hd0 (l2 ++ l1)) in *. set (z := last0 (l2 ++ l1)) in *. apply NoDup_cons in Hnd as [Hvr Hnd].
  assert (Hbin : b ∈ l2 ++ l1) by (unfold b; destruct (l2 ++ l1); [done|]; apply list_elem_of_here).
  assert (Hzin : z ∈ l2 ++ l1) by (unfold z; destruct (last_split _ E) as (? & ? & -> & ->); apply elem_of_app; right; apply list_elem_of_here).
  assert (Hvb : v <> b) by (by intros ->). assert (Hvz : v <> z) by (by intros ->).
  assert (Hmem : forall a, a ∈ l2 ++ l1 -> exists r, procs s !! a = Some r).
  { intros a Ha. eapply ring_member; [exact Hr|]. rewrite elem_of_app in *. rewrite elem_of_cons. tauto. }
  destruct (Hmem b Hbin) as [rb Hrb]. destruct (Hmem z Hzin) as [rz Hrz].
  eapply wp_pset; [exact Hrz|]. cbv beta. wp_steps.
  eapply wp_pget; [cbn; by rewrite lookup_alter_ne, Hv by done|]. cbv beta. wp_steps.
  eapply wp_pget; [cbn; by rewrite lookup_alter_ne, Hv by done|]. cbv beta. rewrite Hn, Hp. wp_steps.
  eapply (wp_pset _ _ _ _ (if decide (z = b) then set_p_next b rb else rb)).
  { cbn. destruct (decide (z = b)) as [->|]; [by rewrite lookup_alter_eq, Hrb|by rewrite lookup_alter_ne]. }
  cbn [procs set_procs]. fold (ring_cut (procs s) z b). wp_steps. cbn [process_queue set_procs].
  apply ring_joined in Hcut.
  assert (Hsame : same_but_ring (procs s) (ring_cut (procs s) z b)).
  { eapply same_trans; [apply same_alter_next|apply same_alter_prev]. }
  assert (Hne : l1 ++ l2 <> []) by (intros [-> ->]%app_nil; done).
  assert (Hnd' : NoDup (l1 ++ l2)) by (by rewrite (Permutation_app_comm l1 l2)).
  unfold unlinked. rewrite bool_decide_false by done. destruct (Z.eqb_spec (process_queue s) v) as [Eq|Eq].
  - assert (l1 = []) as ->.
    { destruct l1 as [|h l1]; [done|]. change (hd0 ((h :: l1) ++ [v])) with h in Hq. exfalso. apply Hvr.
      rewrite elem_of_app. right. rewrite <- Eq, Hq. apply list_elem_of_here. }
    wp_steps. eapply wp_pget; [cbn; unfold ring_cut; by rewrite !lookup_alter_ne, Hv by done|]. cbv beta. rewrite Hn.
    rewrite (proj2 (Z.eqb_neq b v)) by done. wp_steps. rewrite app_nil_r in *.
    split; [split; try done; unfold b; cbn; by rewrite ?app_nil_r|]. split; [done|exact Hsame].
  - wp_steps. split; [split; try done|split; [by destruct s|exact Hsame]]. cbn. rewrite Hq.
    destruct l1; [done|done].
Qed.

(** ** Walking the ring *)

Lemma hd0_snoc_ne a (l : list Z) h : hd0 ((a :: l) ++ [h]) = a.
Proof. done. Qed.

Lemma edges_step m a l h : edges m ((a :: l) ++ [h]) ->
  edges m (l ++ [h]) /\ exists r, m !! a = Some r /\ p_next r = hd0 (l ++ [h]).
Proof.
  intros He. destruct l as [|b l]; cbn [app] in *; rewrite edges_cons in He;
    destruct He as [(ra & rb & Ha & _ & En & _) He]; (split; [done|]; exists ra; done).
Qed.

Lemma wp_count_ring s h : forall suf a fuel,
  edges (procs s) ((a :: suf) ++ [h]) -> h ∉ suf -> (length suf < fuel)%nat ->
  wp (count_ring h a fuel) (fun n s' => s' = s /\ n = S (length suf)) s.
Proof.
  induction suf as [|b suf IH]; intros a fuel He Hh Hf; (destruct fuel as [|fuel]; [lia|]); cbn [count_ring];
    destruct (edges_step _ _ _ _ He) as (He' & r & Ha & Hn); wp_steps; (eapply wp_pget; [exact Ha|]); cbv beta; rewrite Hn.
  - change (hd0 ([] ++ [h])) with h. rewrite Z.eqb_refl. by wp_steps.
  - rewrite hd0_snoc_ne. apply not_elem_of_cons in Hh as [Hhb Hh].
    destruct (Z.eqb_spec b h) as [|_]; [done|]. wp_steps. cbn [length] in Hf.
    eapply wp_mono; [apply (IH b fuel); [done|done|lia]|]. intros n s' [-> ->]. by wp_steps.
Qed.

Lemma ring_size s l : ring s l -> (length l <= size (procs s))%nat.
Proof.
  intros Hr. pose proof (rg_nodup _ _ Hr) as Hnd.
  rewrite <- (size_list_to_set (C := gset Z) l) by done. rewrite <- size_dom.
  apply subseteq_size. intros a. rewrite elem_of_list_to_set. intros Ha.
  destruct (ring_member s l a Hr Ha) as (_ & r & Hr'). by eapply elem_of_dom_2.
Qed.

Lemma wp_ring_count s l : ring s l -> wp (ring_count (hd0 l)) (fun n s' => s' = s /\ n = length l) s.
Proof.
  intros Hr. pose proof (ring_size s l Hr) as Hsz. pose proof Hr as [Hne _ Hnd _ He].
  destruct l as [|h l]; [done|]. change (hd0 (h :: l)) with h in *. apply NoDup_cons in Hnd as [Hh _].
  unfold ring_count. wp_steps. apply wp_count_ring; [done|done|]. cbn [length] in Hsz. lia.
Qed.

(** ** Waking the blocked processes *)

Definition state_of (m : gmap Z process) (p : Z) : option process_state := p_state <$> m !! p.
Definition prio_of (m : gmap Z process) (p : Z) : nat :=
  match m !! p with Some r => Z.to_nat (priority r) | None => 0%nat end.
Definition wakes (m : gmap Z process) (self p : Z) : bool :=
  negb (p =? self) && bool_decide (state_of m p = Some PROCESS_BLOCKED).

(** The ready lists after waking the processes of [l] that are to be woken. *)
Definition awake (m : gmap Z process) (self : Z) (l : list Z) (ls : list (list Z)) : list (list Z) :=
  foldl (fun ls p => if wakes m self p then enq ls (prio_of m p) p else ls) ls l.
Definition readied (m : gmap Z process) (self : Z) (l : list Z) (t : gmap Z process) : gmap Z process :=
  foldl (fun t p => if wakes m self p then alter (set_p_state PROCESS_READY) p t else t) t l.

Definition prio_ok (m : gmap Z process) (l : list Z) : Prop :=
  forall a r, a ∈ l -> m !! a = Some r -> 0 <= priority r < 4.

(** [m] and [m'] agree on [a] but for the ready-queue links. *)
Definition qsame (m m' : gmap Z process) (a : Z) : Prop := qstrip <$> m' !! a = qstrip <$> m !! a.

Lemma qsame_field {A} (f : process -> A) m m' a :
  (forall r, f (qstrip r) = f r) -> qsame m m' a -> f <$> m' !! a = f <$> m !! a.
Proof.
  intros Hf E. unfold qsame in E. apply (f_equal (fmap f)) in E. rewrite <- !option_fmap_compose in E.
  destruct (m !! a), (m' !! a); cbn in *; try done. by rewrite !Hf in E.
Qed.

(** After an enqueue: the ring links stay, other processes are the same. *)
Lemma enqueued_lookup s s' p c r :
  qstrip <$> procs s' = alter (set_p_state PROCESS_READY) p (qstrip <$> procs s) ->
  procs s !! c = Some r -> exists r', procs s' !! c = Some r' /\
    qstrip r' = (if decide (c = p) then set_p_state PROCESS_READY (qstrip r) else qstrip r).
Proof.
  intros E Hr. apply (f_equal (fun x : gmap Z process => x !! c)) in E. rewrite lookup_fmap in E.
  destruct (decide (c = p)) as [->|].
  - rewrite lookup_alter_eq, lookup_fmap, Hr in E. cbn in E. destruct (procs s' !! p) as [r'|]; [|done].
    exists r'. split; [done|]. by apply (inj Some) in E.
  - rewrite lookup_alter_ne, lookup_fmap, Hr in E by done. cbn in E. destruct (procs s' !! c) as [r'|]; [|done].
    exists r'. split; [done|]. by apply (inj Some) in E.
Qed.

Lemma qstrip_links r r' f : qstrip r' = f (qstrip r) ->
  (forall x, p_next (f x) = p_next x /\ p_prev (f x) = p_prev x) -> p_next r' = p_next r /\ p_prev r' = p_prev r.
Proof.
  intros E Hf. pose proof (f_equal p_next E) as E1. pose proof (f_equal p_prev E) as E2.
  destruct (Hf (qstrip r)) as [F1 F2]. rewrite F1 in E1. rewrite F2 in E2. done.
Qed.

Lemma enqueued_edges s s' p l :
  qstrip <$> procs s' = alter (set_p_state PROCESS_READY) p (qstrip <$> procs s) ->
  edges (procs s) l -> edges (procs s') l.
Proof.
  intros E. apply edges_ext. intros c r _ Hr. destruct (enqueued_lookup s s' p c r E Hr) as (r' & Hr' & Eq).
  exists r'. split; [done|]. destruct (decide (c = p)).
  - by apply (qstrip_links r r' (set_p_state PROCESS_READY)).
  - by apply (qstrip_links r r' id).
Qed.

Lemma enqueued_qsame (m : gmap Z process) s s' p c :
  qstrip <$> procs s' = alter (set_p_state PROCESS_READY) p (qstrip <$> procs s) -> c <> p ->
  qsame m (procs s) c -> qsame m (procs s') c.
Proof.
  intros E Hc Hq. unfold qsame in *. apply (f_equal (fun x : gmap Z process => x !! c)) in E.
  by rewrite lookup_alter_ne, !lookup_fmap, Hq in E by done.
Qed.

Lemma not_queued s ls p r : mlfq_wf s ls -> procs s !! p = Some r -> p_state r <> PROCESS_READY ->
  forall l, l ∈ ls -> p ∉ l.
Proof.
  intros (_ & _ & Hq) Hr Hst l [j Hj]%list_elem_of_lookup Hp. destruct (Hq j l Hj) as [_ Hm].
  destruct (Hm p Hp) as (r' & Hr' & _ & Hs). congruence.
Qed.

Lemma ready_list (ls : list (list Z)) j : length ls = NUM_QUEUES -> (j < 4)%nat -> exists l, ls !! j = Some l.
Proof. intros Hl Hj. apply lookup_lt_is_Some. by rewrite Hl. Qed.

Lemma wp_wake_loop (m : gmap Z process) self h : forall suf s ls,
  NoDup suf -> 0 ∉ suf -> edges (procs s) (suf ++ [h]) -> (forall a, a ∈ suf -> qsame m (procs s) a) ->
  prio_ok m suf -> mlfq_wf s ls ->
  wp (wake_loop self (hd0 (suf ++ [h])) (length suf)) (fun _ s' =>
    mlfq_wf s' (awake m self suf ls) /\ only_queues s s' /\
    qstrip <$> procs s' = readied m self suf (qstrip <$> procs s)) s.
Proof.
  induction suf as [|a suf IH]; intros s ls Hnd H0 He Hq Hpr Hwf; cbn [length wake_loop].
  { wp_steps. split_and!; [done|apply only_queues_refl|done]. }
  rewrite hd0_snoc_ne. destruct (edges_step _ _ _ _ He) as (He' & r & Ha & Hn).
  apply NoDup_cons in Hnd as [Hna Hnd]. apply not_elem_of_cons in H0 as [Ha0 H0].
  pose proof (Hq a ltac:(apply list_elem_of_here)) as Hqa.
  wp_steps. eapply wp_pget; [exact Ha|]. cbv beta. rewrite Hn. wp_steps. eapply wp_pget; [exact Ha|]. cbv beta.
  assert (Est : state_of m a = Some (p_state r)).
  { pose proof (qsame_field p_state m (procs s) a ltac:(done) Hqa) as E. rewrite Ha in E. by symmetry. }
  assert (Epr : prio_of m a = Z.to_nat (priority r) /\ 0 <= priority r < 4).
  { pose proof (qsame_field priority m (procs s) a ltac:(done) Hqa) as E. rewrite Ha in E. unfold prio_of.
    destruct (m !! a) as [r0|] eqn:E0; [|done]. injection E as E. rewrite E.
    split; [done|]. by apply (Hpr a r0); [apply list_elem_of_here|]. }
  assert (Ew : negb (a =? self) && bool_decide (p_state r = PROCESS_BLOCKED) = wakes m self a).
  { unfold wakes. f_equal. apply bool_decide_ext. rewrite Est. split; congruence. }
  rewrite Ew. unfold awake, readied. cbn [foldl].
  assert (Hpr' : prio_ok m suf) by (intros b rb Hb; apply Hpr; by apply list_elem_of_further).
  destruct (wakes m self a) eqn:Hw; wp_steps.
  - unfold wakes in Hw. apply andb_true_iff in Hw as [_ Hw]. apply bool_decide_eq_true in Hw. rewrite Est in Hw.
    injection Hw as Hw. destruct Epr as [Ej Hj]. pose proof Hwf as (_ & Hls & _).
    destruct (ready_list ls (Z.to_nat (priority r)) Hls ltac:(lia)) as [l Hl].
    eapply wp_mono; [eapply (wp_mlfq_enqueue s ls a r (Z.to_nat (priority r)) l); try done|].
    + rewrite Hw. done.
    + lia.
    + eapply not_queued; [done|done|]. by rewrite Hw.
    + intros [] s1 (Hwf1 & Ho1 & E1). rewrite Ej.
      eapply wp_mono; [apply (IH s1 (enq ls (Z.to_nat (priority r)) a)); try done|].
      * by eapply enqueued_edges.
      * intros b Hb. eapply enqueued_qsame; [done|by intros ->|]. apply Hq. by apply list_elem_of_further.
      * intros [] s' (Hwf' & Ho' & E'). split_and!; [done|by eapply only_queues_trans|by rewrite E', E1].
  - eapply wp_mono; [apply (IH s ls); try done; intros b Hb; apply Hq; by apply list_elem_of_further|]. done.
Qed.

(** Facts that depend on the ring links and the priority only. *)
Definition plinks (r : process) : Z * Z * Z := (p_next r, p_prev r, priority r).
Definition links_same (m m' : gmap Z process) : Prop := plinks <$> m' = plinks <$> m.

Lemma links_same_qstrip m m' : links_same (qstrip <$> m) (qstrip <$> m') -> links_same m m'.
Proof.
  unfold links_same. intros E. apply map_eq. intros c. apply (f_equal (fun x => x !! c)) in E.
  rewrite !(lookup_fmap plinks) in E |- *. rewrite !(lookup_fmap qstrip) in E.
  destruct (m !! c), (m' !! c); cbn in E |- *; try done; exact E.
Qed.
Lemma links_same_alter m v p : links_same m (alter (set_p_state v) p m).
Proof.
  unfold links_same. apply map_eq. intros c. rewrite !lookup_fmap. destruct (decide (p = c)) as [->|].
  - rewrite lookup_alter_eq. by destruct (m !! c).
  - by rewrite lookup_alter_ne.
Qed.
Lemma links_same_readied m self l : forall t, links_same t (readied m self l t).
Proof.
  unfold readied. induction l as [|a l IH]; intros t; [done|]. cbn [foldl]. unfold links_same in *. rewrite IH.
  destruct (wakes m self a); [apply links_same_alter|done].
Qed.
Lemma links_same_lookup m m' a r :
  links_same m m' -> m !! a = Some r -> exists r', m' !! a = Some r' /\ plinks r' = plinks r.
Proof.
  intros E Hr. apply (f_equal (fun x => x !! a)) in E. rewrite !lookup_fmap, Hr in E.
  destruct (m' !! a) as [r'|]; [|done]. injection E as E1 E2 E3. exists r'. unfold plinks. split; [done|congruence].
Qed.
Lemma links_same_sym m m' : links_same m m' -> links_same m' m.
Proof. unfold links_same. congruence. Qed.

Lemma links_same_ring s s' l :
  links_same (procs s) (procs s') -> process_queue s' = process_queue s -> ring s l -> ring s' l.
Proof.
  intros E Hq [Hne Hh Hnd H0 He]. split; try done; [congruence|]. eapply edges_ext; [|exact He].
  intros a r _ Hr. destruct (links_same_lookup _ _ _ _ E Hr) as (r' & Hr' & [= E1 E2 _]). eauto.
Qed.
Lemma links_same_prio m m' l : links_same m m' -> prio_ok m l -> prio_ok m' l.
Proof.
  intros E Hp a r Ha Hr. destruct (links_same_lookup _ _ _ _ (links_same_sym _ _ E) Hr) as (r0 & Hr0 & [= _ _ E3]).
  rewrite <- E3. by eapply Hp.
Qed.

Lemma wp_wake_blocked s l ls self :
  ring s l -> prio_ok (procs s) l -> mlfq_wf s ls ->
  wp (wake_blocked_processes self) (fun _ s' =>
    mlfq_wf s' (awake (procs s) self l ls) /\ only_queues s s' /\
    qstrip <$> procs s' = readied (procs s) self l (qstrip <$> procs s)) s.
Proof.
  intros Hr Hp Hwf. pose proof Hr as [Hne Hq Hnd H0 He]. unfold wake_blocked_processes. wp_steps. rewrite Hq.
  destruct (Z.eqb_spec (hd0 l) 0) as [E|_]; [destruct l; [done|]; rewrite <- E in H0; destruct H0; apply list_elem_of_here|].
  wp_steps. eapply wp_mono; [by apply (wp_ring_count s l)|]. intros n s' [-> ->].
  replace (hd0 l) with (hd0 (l ++ [hd0 l])) by (by destruct l).
  apply wp_wake_loop; try done.
Qed.

(** ** Choosing *)

Record sched_ok (s : sched) (l : list Z) (ls : list (list Z)) : Prop := {
  so_ring : ring s l;
  so_queues : mlfq_wf s ls;
  so_prio : prio_ok (procs s) l;
  so_member : Forall (fun q => q ⊆ l) ls;
  so_current : current_process s ∈ l;
  so_idle : idle_process s ∈ l;
  so_idle_state : state_of (procs s) (idle_process s) = Some PROCESS_RUNNING;
}.

(** Whether the current process goes back into the ready queues. *)
Definition requeued (s : sched) : bool :=
  bool_decide (state_of (procs s) (current_process s) = Some PROCESS_RUNNING) &&
  negb (current_process s =? idle_process s).
(** The ready lists the next process is chosen from, and the choice. *)
Definition ready_lists (s : sched) (l : list Z) (ls : list (list Z)) : list (list Z) :=
  let ls1 := awake (procs s) (current_process s) l ls in
  if requeued s then enq ls1 (prio_of (procs s) (current_process s)) (current_process s) else ls1.
Definition next_proc (s : sched) (l : list Z) (ls : list (list Z)) : Z :=
  let p := fst (pick (ready_lists s l ls)) in if p =? 0 then idle_process s else p.
(** The process table then, up to the ready-queue links. *)
Definition chosen_table (s : sched) (l : list Z) (ls : list (list Z)) : gmap Z process :=
  let t := readied (procs s) (current_process s) l (qstrip <$> procs s) in
  let t := if requeued s then alter (set_p_state PROCESS_READY) (current_process s) t else t in
  if current_process s =? next_proc s l ls then t
  else alter (set_p_state PROCESS_RUNNING) (next_proc s l ls) t.

Lemma readied_other m self l p : wakes m self p = false -> forall t, readied m self l t !! p = t !! p.
Proof.
  intros Hp. unfold readied. induction l as [|a l IH]; intros t; [done|]. cbn [foldl]. rewrite IH.
  destruct (wakes m self a) eqn:E; [|done]. rewrite lookup_alter_ne; [done|]. intros ->. congruence.
Qed.
Lemma wakes_self m self : wakes m self self = false.
Proof. unfold wakes. by rewrite Z.eqb_refl. Qed.
Lemma wakes_running m self p : state_of m p = Some PROCESS_RUNNING -> wakes m self p = false.
Proof. unfold wakes. intros ->. by rewrite andb_comm. Qed.

Lemma pick_cases ls :
  (fst (pick ls) = 0 /\ snd (pick ls) = ls) \/
  exists i p l, ls !! i = Some (p :: l) /\ pick ls = (p, <[i := l]> ls).
Proof.
  induction ls as [|[|p l] ls IH]; [by left| |right; by exists 0%nat, p, l].
  cbn [pick]. destruct (pick ls) as [q ls'] eqn:E. destruct IH as [[E1 E2]|(i & p & l & Hi & E')].
  - left. cbn in *. by rewrite E1, E2.
  - right. injection E' as -> ->. by exists (S i), p, l.
Qed.

Lemma pick_not_in s ls p ls' : mlfq_wf s ls -> pick ls = (p, ls') -> p <> 0 -> forall l, l ∈ ls' -> p ∉ l.
Proof.
  intros (_ & _ & Hq) E Hp l Hl. destruct (pick_cases ls) as [[E1 _]|(i & q & l0 & Hi & E')].
  { rewrite E in E1. done. }
  rewrite E in E'. injection E' as <- ->. destruct (Hq i _ Hi) as [(_ & _ & _ & _ & _ & (Hnd & _)) Hm].
  apply NoDup_cons in Hnd as [Hnd _]. apply list_elem_of_lookup in Hl as [j Hj].
  destruct (decide (i = j)) as [->|Hij].
  - apply list_lookup_insert_Some in Hj as [(_ & <- & _)|[? _]]; done.
  - rewrite list_lookup_insert_ne in Hj by done. destruct (Hq j l Hj) as [_ Hm']. intros Hin.
    destruct Hij. eapply members_disjoint; [exact Hm|exact Hm'|apply list_elem_of_here|exact Hin].
Qed.

Lemma mlfq_wf_set_state s ls v p c :
  mlfq_wf s ls -> (forall l, l ∈ ls -> p ∉ l) ->
  mlfq_wf (set_procs (alter (set_p_state v) p (procs s)) (set_current_process c s)) ls.
Proof.
  intros (Hlen & Hls & Hq) Hp. split; [done|]. split; [done|]. intros j l Hj. destruct (Hq j l Hj) as [(q & H1 & H2 & H3 & H4 & H5) Hm].
  split.
  - exists q. cbn. split_and!; try done. apply linked_alter; [by right|done].
  - intros a Ha. destruct (Hm a Ha) as (r & Hr & ?). exists r. cbn. rewrite lookup_alter_ne; [done|].
    intros ->. eapply Hp; [|exact Ha]. by eapply list_elem_of_lookup_2.
Qed.

Lemma state_of_qstrip m p : state_of (qstrip <$> m) p = state_of m p.
Proof. unfold state_of. rewrite lookup_fmap. by destruct (m !! p). Qed.
Lemma prio_of_lookup m p r : m !! p = Some r -> 0 <= priority r -> priority r = Z.of_nat (prio_of m p).
Proof. unfold prio_of. intros ->. lia. Qed.

(** The first two steps: waking, and putting the current process back. *)
Lemma wp_requeue s l ls (Q : unit -> sched -> Prop) :
  sched_ok s l ls ->
  (forall s', mlfq_wf s' (ready_lists s l ls) -> only_queues s s' ->
    qstrip <$> procs s' = (let t := readied (procs s) (current_process s) l (qstrip <$> procs s) in
      if requeued s then alter (set_p_state PROCESS_READY) (current_process s) t else t) -> Q tt s') ->
  wp (wake_blocked_processes (current_process s) ;;
      st <- pget p_state (current_process s) ;;
      (if bool_decide (st = PROCESS_RUNNING) && negb (current_process s =? idle_process s)
       then mlfq_enqueue (current_process s) else ret tt)) Q s.
Proof.
  intros [Hr Hwf Hp _ Hc Hi His] HQ. wp_steps. eapply wp_mono; [by apply (wp_wake_blocked s l ls)|].
  intros [] s1 (Hwf1 & Ho1 & E1). wp_steps. destruct (ring_member s l _ Hr Hc) as (Hc0 & r & Hcr).
  assert (E1c : qstrip <$> procs s1 !! current_process s = qstrip <$> Some r).
  { apply (f_equal (fun x : gmap Z process => x !! current_process s)) in E1.
    rewrite readied_other, !lookup_fmap, Hcr in E1 by apply wakes_self. exact E1. }
  destruct (procs s1 !! current_process s) as [r1|] eqn:Hr1; [|done]. apply (inj Some) in E1c.
  eapply wp_pget; [exact Hr1|]. cbv beta.
  assert (Est : p_state r1 = p_state r) by exact (f_equal p_state E1c).
  assert (Epr : priority r1 = priority r) by exact (f_equal priority E1c).
  assert (Erq : bool_decide (p_state r1 = PROCESS_RUNNING) && negb (current_process s =? idle_process s) = requeued s).
  { unfold requeued, state_of. rewrite Hcr, Est. f_equal. apply bool_decide_ext. cbn. split; congruence. }
  rewrite Erq. unfold ready_lists in HQ. cbv zeta in HQ. destruct (requeued s) eqn:Hrq.
  - apply andb_true_iff in Erq as [Erun _]. apply bool_decide_eq_true in Erun.
    pose proof (Hp _ r Hc Hcr) as Hprio. pose proof Hwf1 as (_ & Hls1 & _).
    assert (Ej : priority r1 = Z.of_nat (prio_of (procs s) (current_process s))) by (rewrite Epr; apply prio_of_lookup; [done|lia]).
    destruct (ready_list _ (prio_of (procs s) (current_process s)) Hls1 ltac:(lia)) as [l0 Hl0].
    eapply wp_mono; [eapply (wp_mlfq_enqueue s1 _ (current_process s) r1); try done|].
    + by rewrite Erun.
    + eapply not_queued; [exact Hwf1|exact Hr1|by rewrite Erun].
    + intros [] s2 (Hwf2 & Ho2 & E2). apply HQ; [done|by eapply only_queues_trans|by rewrite E2, E1].
  - wp_steps. by apply HQ.
Qed.

Lemma only_queues_fields s s' : only_queues s s' ->
  process_queue s' = process_queue s /\ current_process s' = current_process s /\
  idle_process s' = idle_process s /\ next_pid s' = next_pid s /\ global_ticks s' = global_ticks s.
Proof. unfold only_queues. intros ->. by destruct s. Qed.

(** The table from which the choice is made. *)
Definition ready_table (s : sched) (l : list Z) : gmap Z process :=
  let t := readied (procs s) (current_process s) l (qstrip <$> procs s) in
  if requeued s then alter (set_p_state PROCESS_READY) (current_process s) t else t.

Lemma ready_table_links s l m : qstrip <$> m = ready_table s l -> links_same (procs s) m.
Proof.
  intros E. apply links_same_qstrip. rewrite E. unfold ready_table. destruct (requeued s); [|apply links_same_readied].
  unfold links_same. rewrite links_same_alter. apply links_same_readied.
Qed.
Lemma ready_table_idle s l m :
  state_of (procs s) (idle_process s) = Some PROCESS_RUNNING -> qstrip <$> m = ready_table s l ->
  state_of m (idle_process s) = Some PROCESS_RUNNING.
Proof.
  intros Hi E. rewrite <- state_of_qstrip, E. unfold ready_table.
  assert (Hr : state_of (readied (procs s) (current_process s) l (qstrip <$> procs s)) (idle_process s) = Some PROCESS_RUNNING).
  { unfold state_of. rewrite readied_other by (by apply wakes_running). change (state_of (qstrip <$> procs s) (idle_process s) = Some PROCESS_RUNNING).
    by rewrite state_of_qstrip. }
  destruct (requeued s) eqn:Hq; [|done]. unfold requeued in Hq. apply andb_true_iff in Hq as [_ Hq].
  destruct (Z.eqb_spec (current_process s) (idle_process s)); [done|]. unfold state_of. by rewrite lookup_alter_ne.
Qed.

Lemma enq_member l (ls : list (list Z)) j p : p ∈ l -> Forall (fun q => q ⊆ l) ls -> Forall (fun q => q ⊆ l) (enq ls j p).
Proof.
  intros Hp Hls. unfold enq. apply Forall_alter; [done|]. intros q _ Hq a [Ha|Ha%list_elem_of_singleton]%elem_of_app; [auto|by subst].
Qed.
Lemma awake_member m self l l' : l' ⊆ l -> forall ls, Forall (fun q => q ⊆ l) ls -> Forall (fun q => q ⊆ l) (awake m self l' ls).
Proof.
  unfold awake. induction l' as [|a l' IH]; intros Hl ls Hls; [done|]. cbn [foldl]. apply IH.
  - intros b Hb. apply Hl. by apply list_elem_of_further.
  - destruct (wakes m self a); [|done]. apply enq_member; [|done]. apply Hl, list_elem_of_here.
Qed.
Lemma ready_lists_member s l ls : sched_ok s l ls -> Forall (fun q => q ⊆ l) (ready_lists s l ls).
Proof.
  intros [_ _ _ Hm Hc _ _]. unfold ready_lists. cbv zeta.
  assert (Ha := awake_member (procs s) (current_process s) l l ltac:(done) ls Hm).
  destruct (requeued s); [by apply enq_member|done].
Qed.
Lemma pick_member l ls p ls' : Forall (fun q => q ⊆ l) ls -> pick ls = (p, ls') ->
  Forall (fun q => q ⊆ l) ls' /\ (p <> 0 -> p ∈ l).
Proof.
  intros Hls E. destruct (pick_cases ls) as [[E1 E2]|(i & q & l0 & Hi & E')].
  - rewrite E in E1, E2. cbn in E1, E2. by subst.
  - rewrite E in E'. injection E' as -> ->. rewrite Forall_lookup in Hls. pose proof (Hls i _ Hi) as Hq. split.
    + apply Forall_insert; [by apply Forall_lookup|]. intros a Ha. apply Hq. by apply list_elem_of_further.
    + intros _. apply Hq, list_elem_of_here.
Qed.

(** The chosen process is in the ring and in none of the remaining lists. *)
Lemma next_proc_apart s l ls s3 :
  sched_ok s l ls -> mlfq_wf s3 (snd (pick (ready_lists s l ls))) ->
  (exists s2, mlfq_wf s2 (ready_lists s l ls)) ->
  state_of (procs s3) (idle_process s) = Some PROCESS_RUNNING ->
  next_proc s l ls ∈ l /\ forall l', l' ∈ snd (pick (ready_lists s l ls)) -> next_proc s l ls ∉ l'.
Proof.
  intros Hok Hwf3 [s2 Hwf2] Hidle. pose proof (ready_lists_member s l ls Hok) as Hm. unfold next_proc. cbv zeta.
  destruct (pick (ready_lists s l ls)) as [p ls'] eqn:E. cbn [fst snd] in *.
  destruct (pick_member _ _ _ _ Hm E) as [_ Hp]. destruct (Z.eqb_spec p 0) as [->|Hp0].
  - split; [apply (so_idle _ _ _ Hok)|]. unfold state_of in Hidle. destruct (procs s3 !! idle_process s) as [r|] eqn:Hr; [|done].
    injection Hidle as Hst. eapply not_queued; [exact Hwf3|exact Hr|by rewrite Hst].
  - split; [auto|]. by eapply pick_not_in.
Qed.

Lemma wp_choose_next s l ls :
  sched_ok s l ls ->
  wp choose_next (fun r s' =>
    sched_ok s' l (snd (pick (ready_lists s l ls))) /\ current_process s' = next_proc s l ls /\
    r = (if current_process s =? next_proc s l ls then None else Some (next_proc s l ls)) /\
    qstrip <$> procs s' = chosen_table s l ls /\
    (forall l', l' ∈ snd (pick (ready_lists s l ls)) -> next_proc s l ls ∉ l') /\
    idle_process s' = idle_process s /\ global_ticks s' = global_ticks s) s.
Proof.
  intros Hok. pose proof Hok as [Hr Hwf Hp Hmem Hc Hi His]. unfold choose_next. do 5 wp_step.
  apply (wp_requeue s l ls); [done|]. intros s2 Hwf2 Ho2 E2. fold (ready_table s l) in E2. wp_steps.
  eapply wp_mono; [by apply (wp_mlfq_pick_next s2 (ready_lists s l ls))|]. intros p s3 (-> & Hwf3 & Ho3 & E3).
  rewrite E2 in E3. pose proof (only_queues_trans _ _ _ Ho2 Ho3) as Ho.
  destruct (only_queues_fields s s3 Ho) as (Eq & Ec & Ei & _ & Eg).
  pose proof (ready_table_links s l _ E3) as Hlinks. pose proof (ready_table_idle s l _ His E3) as Hidle.
  destruct (next_proc_apart s l ls s3 Hok Hwf3 ltac:(eauto) Hidle) as [Hnl Hnot].
  assert (Hmem3 : Forall (fun q => q ⊆ l) (snd (pick (ready_lists s l ls)))).
  { eapply pick_member; [by apply ready_lists_member|apply surjective_pairing]. }
  pose proof (links_same_ring s s3 l Hlinks Eq Hr) as Hr3. pose proof (links_same_prio _ _ _ Hlinks Hp) as Hp3.
  fold (next_proc s l ls). cbv zeta. unfold chosen_table. fold (ready_table s l). cbv zeta.
  destruct (Z.eqb_spec (current_process s) (next_proc s l ls)) as [E|E].
  - wp_steps. split; [split; try done; congruence|]. rewrite <- E in *. done.
  - destruct (ring_member s3 l _ Hr3 Hnl) as (_ & r & Hrn). wp_steps.
    eapply wp_pset; [exact Hrn|]. cbv beta. wp_steps. cbn [procs set_procs].
    split; [split|]; cbn; try done.
    + eapply (links_same_ring s3); [apply links_same_alter|done|done].
    + by apply mlfq_wf_set_state.
    + eapply links_same_prio; [apply links_same_alter|done].
    + by rewrite Ei.
    + rewrite Ei. unfold state_of in *. destruct (decide (next_proc s l ls = idle_process s)) as [->|].
      * rewrite lookup_alter_eq. by destruct (procs s3 !! idle_process s).
      * by rewrite lookup_alter_ne.
    + split; [done|]. split; [done|]. split; [|done].
      by rewrite (fmap_alter_comm _ _ (set_p_state PROCESS_RUNNING)), E3.
Qed.

(** ** Looking for a dead child *)

Definition is_child (m : gmap Z process) (par a : Z) : bool :=
  match m !! a with Some r => parent r =? par | None => false end.
Definition reapable (m : gmap Z process) (par pid a : Z) : bool :=
  match m !! a with
  | Some r => (parent r =? par) && bool_decide (p_state r = PROCESS_DEAD) &&
              ((pid <=? 0) || (u64 pid =? p_pid r))
  | None => false
  end.

Lemma wp_find_loop s par pid h : forall suf hc,
  0 ∉ suf -> edges (procs s) (suf ++ [h]) ->
  wp (find_loop par pid (hd0 (suf ++ [h])) (length suf) hc) (fun r s' => s' = s /\
    match List.find (reapable (procs s) par pid) suf with
    | Some c => r = (c, true)
    | None => r = (0, hc || existsb (is_child (procs s) par) suf)
    end) s.
Proof.
  induction suf as [|a suf IH]; intros hc H0 He; cbn [length find_loop].
  { wp_steps. split; [done|]. cbn. by rewrite orb_false_r. }
  rewrite hd0_snoc_ne. destruct (edges_step _ _ _ _ He) as (He' & r & Ha & Hn).
  apply not_elem_of_cons in H0 as [_ H0]. cbn [List.find existsb].
  assert (E1 : is_child (procs s) par a = (parent r =? par)) by (unfold is_child; by rewrite Ha).
  assert (E2 : reapable (procs s) par pid a = (parent r =? par) && bool_decide (p_state r = PROCESS_DEAD) &&
    ((pid <=? 0) || (u64 pid =? p_pid r))) by (unfold reapable; by rewrite Ha).
  rewrite E1, E2. wp_steps. eapply wp_pget; [exact Ha|]. cbv beta. rewrite Hn. wp_steps.
  eapply wp_pget; [exact Ha|]. cbv beta. destruct (parent r =? par); cbn [negb andb orb].
  - wp_steps. eapply wp_pget; [exact Ha|]. cbv beta. wp_steps. eapply wp_pget; [exact Ha|]. cbv beta.
    destruct (bool_decide (p_state r = PROCESS_DEAD) && ((pid <=? 0) || (u64 pid =? p_pid r))).
    + by wp_steps.
    + eapply wp_mono; [by apply (IH true)|]. intros x s' [-> H]. split; [done|].
      destruct (List.find _ suf); [done|]. by rewrite orb_true_r.
  - by apply IH.
Qed.
