(* ===== verification/Kernel.v ===== *)
(** * The kernel's state

    All global state of the kernel in one record, the embedding of the component
    operations into it, the heap objects, and the accesses to user memory with
    the page-fault handling behind them (idt.c, usercopy.c). *)

From S2P Require Import Prelude Mem CString FrameAlloc Vmm PageTable Proc Queues Mlfq Wait Pipe Keyboard Mouse Heap Vfs.

(** [k_cells]: the heap words that count the threads of an address space;
    [k_pipes]: the pipes; [k_nodes], [k_root]: the file tree; [k_console]: the
    characters printed; [k_rsp0]: the kernel stack the processor switches to on
    entry from user mode ([kernel_rsp_scratch] and the TSS); [k_fb_owner]:
    [fb_has_owner] and [fb_owner_pid]. *)
Record kernel (S H : Type) := mkK {
  k_vm : vm S;
  k_heap : H;
  k_sched : sched;
  k_cells : gmap Z Z;
  k_pipes : gmap Z pipe;
  k_nodes : gmap Z vnode;
  k_root : Z;
  k_kbd : kbd;
  k_mouse : mouse;
  k_console : list Z;
  k_cr3 : Z;
  k_rsp0 : Z;
  k_fb_owner : option Z;
  k_ticks : Z;
}.
Arguments mkK {S H}.
Arguments k_vm {S H}. Arguments k_heap {S H}. Arguments k_sched {S H}. Arguments k_cells {S H}. Arguments k_pipes {S H}. Arguments k_nodes {S H}. Arguments k_root {S H}. Arguments k_kbd {S H}. Arguments k_mouse {S H}. Arguments k_console {S H}. Arguments k_cr3 {S H}. Arguments k_rsp0 {S H}. Arguments k_fb_owner {S H}. Arguments k_ticks {S H}.

Section setters.
Context {S H : Type}.
Implicit Types (k : kernel S H).
Definition set_k_vm (v : vm S) k : kernel S H :=
  mkK v (k_heap k) (k_sched k) (k_cells k) (k_pipes k) (k_nodes k) (k_root k) (k_kbd k) (k_mouse k)
    (k_console k) (k_cr3 k) (k_rsp0 k) (k_fb_owner k) (k_ticks k).
Definition set_k_heap (v : H) k : kernel S H :=
  mkK (k_vm k) v (k_sched k) (k_cells k) (k_pipes k) (k_nodes k) (k_root k) (k_kbd k) (k_mouse k)
    (k_console k) (k_cr3 k) (k_rsp0 k) (k_fb_owner k) (k_ticks k).
Definition set_k_sched (v : sched) k : kernel S H :=
  mkK (k_vm k) (k_heap k) v (k_cells k) (k_pipes k) (k_nodes k) (k_root k) (k_kbd k) (k_mouse k)
    (k_console k) (k_cr3 k) (k_rsp0 k) (k_fb_owner k) (k_ticks k).
Definition set_k_cells (v : gmap Z Z) k : kernel S H :=
  mkK (k_vm k) (k_heap k) (k_sched k) v (k_pipes k) (k_nodes k) (k_root k) (k_kbd k) (k_mouse k)
    (k_console k) (k_cr3 k) (k_rsp0 k) (k_fb_owner k) (k_ticks k).
Definition set_k_pipes (v : gmap Z pipe) k : kernel S H :=
  mkK (k_vm k) (k_heap k) (k_sched k) (k_cells k) v (k_nodes k) (k_root k) (k_kbd k) (k_mouse k)
    (k_console k) (k_cr3 k) (k_rsp0 k) (k_fb_owner k) (k_ticks k).
Definition set_k_nodes (v : gmap Z vnode) k : kernel S H :=
  mkK (k_vm k) (k_heap k) (k_sched k) (k_cells k) (k_pipes k) v (k_root k) (k_kbd k) (k_mouse k)
    (k_console k) (k_cr3 k) (k_rsp0 k) (k_fb_owner k) (k_ticks k).
Definition set_k_root (v : Z) k : kernel S H :=
  mkK (k_vm k) (k_heap k) (k_sched k) (k_cells k) (k_pipes k) (k_nodes k) v (k_kbd k) (k_mouse k)
    (k_console k) (k_cr3 k) (k_rsp0 k) (k_fb_owner k) (k_ticks k).
Definition set_k_kbd (v : kbd) k : kernel S H :=
  mkK (k_vm k) (k_heap k) (k_sched k) (k_cells k) (k_pipes k) (k_nodes k) (k_root k) v (k_mouse k)
    (k_console k) (k_cr3 k) (k_rsp0 k) (k_fb_owner k) (k_ticks k).
Definition set_k_mouse (v : mouse) k : kernel S H :=
  mkK (k_vm k) (k_heap k) (k_sched k) (k_cells k) (k_pipes k) (k_nodes k) (k_root k) (k_kbd k) v
    (k_console k) (k_cr3 k) (k_rsp0 k) (k_fb_owner k) (k_ticks k).
Definition set_k_console (v : list Z) k : kernel S H :=
  mkK (k_vm k) (k_heap k) (k_sched k) (k_cells k) (k_pipes k) (k_nodes k) (k_root k) (k_kbd k)
    (k_mouse k) v (k_cr3 k) (k_rsp0 k) (k_fb_owner k) (k_ticks k).
Definition set_k_cr3 (v : Z) k : kernel S H :=
  mkK (k_vm k) (k_heap k) (k_sched k) (k_cells k) (k_pipes k) (k_nodes k) (k_root k) (k_kbd k)
    (k_mouse k) (k_console k) v (k_rsp0 k) (k_fb_owner k) (k_ticks k).
Definition set_k_rsp0 (v : Z) k : kernel S H :=
  mkK (k_vm k) (k_heap k) (k_sched k) (k_cells k) (k_pipes k) (k_nodes k) (k_root k) (k_kbd k)
    (k_mouse k) (k_console k) (k_cr3 k) v (k_fb_owner k) (k_ticks k).
Definition set_k_fb_owner (v : option Z) k : kernel S H :=
  mkK (k_vm k) (k_heap k) (k_sched k) (k_cells k) (k_pipes k) (k_nodes k) (k_root k) (k_kbd k)
    (k_mouse k) (k_console k) (k_cr3 k) (k_rsp0 k) v (k_ticks k).
Definition set_k_ticks (v : Z) k : kernel S H :=
  mkK (k_vm k) (k_heap k) (k_sched k) (k_cells k) (k_pipes k) (k_nodes k) (k_root k) (k_kbd k)
    (k_mouse k) (k_console k) (k_cr3 k) (k_rsp0 k) (k_fb_owner k) v.
End setters.

Section kernel.
Context {S H : Type} `{FrameOps S} `{HeapOps H} (hhdm_offset : Z).
Abbreviation K := (M (kernel S H)).

(** ** The components inside the kernel *)

Definition on_vm {A} (c : M (vm S) A) : K A := fun k =>
  match c (k_vm k) with Some (a, v) => Some (a, set_k_vm v k) | None => None end.
Definition in_sched {A} (c : M sched A) : K A := fun k =>
  match c (k_sched k) with Some (a, s) => Some (a, set_k_sched s k) | None => None end.
Definition in_heap {A} (c : M H A) : K A := fun k =>
  match c (k_heap k) with Some (a, h) => Some (a, set_k_heap h k) | None => None end.
Definition on_pipe {A} (p : Z) (c : M psys A) : K A := fun k =>
  match k_pipes k !! p with
  | None => None
  | Some pi =>
      match c (mkPs pi (k_sched k)) with
      | Some (a, s) => Some (a, set_k_pipes (<[p := ps_pipe s]> (k_pipes k)) (set_k_sched (ps_sched s) k))
      | None => None
      end
  end.
Definition on_vfs {A} (c : M (vfs H) A) : K A := fun k =>
  match c (mkVfs (k_heap k) (k_nodes k) (k_root k)) with
  | Some (a, s) => Some (a, set_k_heap (vfs_heap s) (set_k_nodes (nodes s) (set_k_root (vfs_root s) k)))
  | None => None
  end.
Definition on_kbd {A} (c : M ksys A) : K A := fun k =>
  match c (mkKs (k_kbd k) (k_sched k) (k_console k)) with
  | Some (a, s) => Some (a, set_k_kbd (ks_kbd s) (set_k_sched (ks_sched s) (set_k_console (ks_echo s) k)))
  | None => None
  end.
Definition on_mouse {A} (c : M msys A) : K A := fun k =>
  match c (mkMs (k_mouse k) (k_sched k)) with
  | Some (a, s) => Some (a, set_k_mouse (ms_mouse s) (set_k_sched (ms_sched s) k))
  | None => None
  end.

(** ** Heap objects *)

(** [sizeof(process_t)], [sizeof(pipe_t)] and [sizeof(uint64_t)]. *)
Definition PROCESS_SIZE : Z := 1320.
Definition PIPE_SIZE : Z := 568.
Definition WORD_SIZE : Z := 8.

(** A heap object disappears with the block that holds it. *)
Definition free_process (p : Z) : K unit :=
  in_heap (kfree p) ;; in_sched (modify (fun s => set_procs (delete p (procs s)) s)).
Definition free_pipe (p : Z) : K unit :=
  in_heap (kfree p) ;; modify (fun k => set_k_pipes (delete p (k_pipes k)) k).
Definition free_cell (p : Z) : K unit :=
  in_heap (kfree p) ;; modify (fun k => set_k_cells (delete p (k_cells k)) k).
Definition new_process (p : Z) (r : process) : K unit :=
  in_sched (modify (fun s => set_procs (<[p := r]> (procs s)) s)).
Definition get_cell (p : Z) : K Z := fun k =>
  match k_cells k !! p with Some v => Some (v, k) | None => None end.
Definition set_cell (p v : Z) : K unit := fun k =>
  match k_cells k !! p with
  | Some _ => Some (tt, set_k_cells (<[p := v]> (k_cells k)) k)
  | None => None
  end.

(** [pipe_create] *)
Definition pipe_create : K Z :=
  p <- in_heap (kmalloc PIPE_SIZE) ;;
  if p =? 0 then ret 0
  else modify (fun k => set_k_pipes (<[p := pipe_new]> (k_pipes k)) k) ;; ret p.

(** [pipe_close_end], which frees the pipe with its last end. *)
Definition close_end (p : Z) (is_read_end : bool) : K unit :=
  f <- on_pipe p (pipe_close_end is_read_end) ;;
  if f : bool then free_pipe p else ret tt.

(** ** Reasoning about the components inside the kernel *)

Lemma wp_on_vm {A} (c : M (vm S) A) (Q : A -> kernel S H -> Prop) k :
  wp c (fun a v => Q a (set_k_vm v k)) (k_vm k) -> wp (on_vm c) Q k.
Proof. unfold wp, on_vm. by destruct (c (k_vm k)) as [[? ?]|]. Qed.
Lemma wp_in_sched {A} (c : M sched A) (Q : A -> kernel S H -> Prop) k :
  wp c (fun a s => Q a (set_k_sched s k)) (k_sched k) -> wp (in_sched c) Q k.
Proof. unfold wp, in_sched. by destruct (c (k_sched k)) as [[? ?]|]. Qed.
Lemma wp_in_heap {A} (c : M H A) (Q : A -> kernel S H -> Prop) k :
  wp c (fun a h => Q a (set_k_heap h k)) (k_heap k) -> wp (in_heap c) Q k.
Proof. unfold wp, in_heap. by destruct (c (k_heap k)) as [[? ?]|]. Qed.
Lemma wp_on_pipe {A} p pi (c : M psys A) (Q : A -> kernel S H -> Prop) k :
  k_pipes k !! p = Some pi ->
  wp c (fun a s => Q a (set_k_pipes (<[p := ps_pipe s]> (k_pipes k)) (set_k_sched (ps_sched s) k))) (mkPs pi (k_sched k)) ->
  wp (on_pipe p c) Q k.
Proof. unfold wp, on_pipe. intros ->. by destruct (c _) as [[? ?]|]. Qed.

(** ** User memory *)

Section user.
(** The addresses outside the user half that are mapped: the boot loader's tables. *)
Context (kmapped : Z -> bool).

(** Where a byte the kernel writes at [va] goes, [None] for a fault that is not
    resolved.  A write fault is first offered to the copy-on-write handler
    (isr_handler) and the access repeated. *)
Definition write_addr (pml4 va : Z) : M (vm S) (option Z) :=
  let at_page (e : Z) := Some (p2v hhdm_offset (pte_addr e) + va mod 4096) in
  if (0 <=? va) && (va <? 140737488355328) then
    e <- gets (fun s => mapping hhdm_offset s pml4 va) ;;
    match e with
    | Some e =>
        if has PTE_WRITABLE e then ret (at_page e)
        else
          ok <- vmm_handle_cow_fault hhdm_offset pml4 va ;;
          if ok : bool then
            e <- gets (fun s => mapping hhdm_offset s pml4 va) ;;
            match e with
            | Some e => ret (if has PTE_WRITABLE e then at_page e else None)
            | None => ret None
            end
          else ret None
    | None => ret None
    end
  else ret (if kmapped va then Some va else None).

(** [copy_to_user] into the address space [pml4]; [false] for -1. *)
Fixpoint copy_to_user (pml4 udst : Z) (src : list Z) : M (vm S) bool :=
  match src with
  | [] => ret true
  | b :: src' =>
      a <- write_addr pml4 udst ;;
      match a with
      | None => ret false
      | Some a =>
          modify (fun s => set_mem (store8 (vm_mem s) a b) s) ;;
          copy_to_user pml4 (udst + 1) src'
      end
  end.

(** A byte the kernel reads at [va]. *)
Definition read_user (pml4 va : Z) : M (vm S) (option Z) :=
  gets (fun s =>
    if (0 <=? va) && (va <? 140737488355328) then
      match mapping hhdm_offset s pml4 va with
      | Some e => Some (load8 (vm_mem s) (p2v hhdm_offset (pte_addr e) + va mod 4096))
      | None => None
      end
    else if kmapped va then Some (load8 (vm_mem s) va) else None).
End user.
End kernel.
