(* ===== verification/UserMem.v ===== *)
(** * What processes see of memory

    The bytes of an address space as its process reads them, how a write through
    the copy-on-write handler changes them, and that it changes nothing for
    another process.  [copy_to_user] (usercopy.c) is a sequence of such writes. *)

From S2P Require Import Prelude Mem CString FrameAlloc Pmm Vmm PageTable AddressSpace CloneSpace DestroySpace Kernel.

Lemma has_cow_flags k e : 0 <= k -> k <> 1 -> k <> 9 -> Z.testbit FLAG_MASK k = true ->
  has (Z.shiftl 1 k) (cow_flags e) = has (Z.shiftl 1 k) e.
Proof.
  intros Hk H1 H9 Hm. rewrite !has_bit by done. unfold cow_flags.
  rewrite Z.lor_spec, !Z.land_spec, Z.lnot_spec, Hm by done.
  assert (E1 : Z.testbit PTE_WRITABLE k = false) by (apply (Z.pow2_bits_false 1 k); lia).
  assert (E2 : Z.testbit PTE_COW k = false) by (apply (Z.pow2_bits_false 9 k); lia).
  rewrite E1, E2. by destruct (Z.testbit e k).
Qed.

Section user.
Context {S : Type} `{FA : FrameAlloc S} (hh : Z) (Hhh : hhdm_ok hh) (kmapped : Z -> bool).
Implicit Types (s : vm S) (T : tables).

(** The byte a process reads at [va]. *)
Definition byte_of s (va e : Z) : Z := load8 (vm_mem s) (p2v hh (pte_addr e) + va mod 4096).
Definition user_byte s (root va : Z) : option Z := byte_of s va <$> mapping hh s root va.

(** No page of a device is mapped. *)
Definition managed s (root : Z) : Prop :=
  forall va e, user_va va -> mapping hh s root va = Some e -> has PTE_NOPMM e = false.

Record space s root T : Prop := {
  us_ok : space_ok hh s root T;
  us_managed : managed s root;
}.

Lemma space_page s root T va e : space s root T -> user_va va -> mapping hh s root va = Some e ->
  exists n, owned s T e n.
Proof. intros [Hok Hm] Hva He. apply (sp_owned _ _ _ _ Hok va e); try done. by apply (Hm va). Qed.
Lemma space_once s root T va va' e e' : space s root T -> user_va va -> user_va va' ->
  mapping hh s root va = Some e -> mapping hh s root va' = Some e' -> pte_addr e = pte_addr e' ->
  va / 4096 = va' / 4096.
Proof. intros [Hok Hm] Hva Hva' He He' E. apply (sp_once _ _ _ _ Hok va va' e e'); try done; [by apply (Hm va)|by apply (Hm va')]. Qed.

(** A page that only this address space can have: fresh, or its own page at [va]
    if that is writable or counted once. *)
Definition mine s (root va q : Z) : Prop :=
  valid_frame q /\
  (frames (vm_pa s) q = None \/
   exists e, mapping hh s root va = Some e /\ q = pte_addr e /\
     (has PTE_WRITABLE e = true \/ frames (vm_pa s) q = Some 1)).

(** A change that stays within the tables and such pages, and may give up a
    reference to the page that was at [va]. *)
Record confined s (root : Z) T va s' : Prop := {
  cf_frames : forall q, frames (vm_pa s') q = frames (vm_pa s) q \/ mine s root va q \/
    exists e n, mapping hh s root va = Some e /\ q = pte_addr e /\
      frames (vm_pa s) q = Some n /\ n <> 1 /\ frames (vm_pa s') q = Some (n - 1) /\
      exists e', mapping hh s' root va = Some e' /\ pte_addr e' <> q;
  cf_map : forall va', user_va va' -> mapping hh s' root va' = mapping hh s root va' \/
    exists e', mapping hh s' root va' = Some e' /\ mine s root va (pte_addr e');
  cf_mem : forall a, (forall p t, T !! p = Some t -> ~ in_page hh t a) ->
    (forall q, mine s root va q -> ~ in_page hh q a) -> load8 (vm_mem s') a = load8 (vm_mem s) a;
}.

Lemma confined_refl s root T va : confined s root T va s.
Proof. split; [by left|by left|done]. Qed.

Lemma byte_addr e k : valid_frame (pte_addr e) -> p2v hh (pte_addr e) + k mod 4096 = pte_addr e + hh + k mod 4096.
Proof. intros Hv. by rewrite (valid_frame_p2v hh Hhh) by done. Qed.

(** ** The copy-on-write handler *)

Section cow.
Context (s : vm S) (root : Z) (T : tables) (va e n : Z) (s' : vm S) (fp : Z).
Hypothesis Hsp : space s root T.
Hypothesis Hva : user_va va.
Hypothesis He : mapping hh s root va = Some e.
Hypothesis Hown : owned s T e n.
Hypothesis Hwf' : as_wf hh s' root T.
Hypothesis Hother : forall va', user_va va' -> va' / 4096 <> va / 4096 -> mapping hh s' root va' = mapping hh s root va'.
Hypothesis Hcow : cow_resolved hh s root T va e n s' fp.

Lemma cow_mine : mine s root va fp.
Proof.
  split; [apply Hcow|]. destruct (decide (n = 1)) as [E|E].
  - right. exists e. rewrite (cr_inplace _ _ _ _ _ _ _ _ _ Hcow E). split_and!; try done. right. rewrite <- E. apply Hown.
  - left. by apply (cr_old _ _ _ _ _ _ _ _ _ Hcow).
Qed.
Lemma cow_not_table p : T !! p <> Some fp.
Proof.
  intros Hp. destruct (as_frame _ _ _ _ (sp_wf _ _ _ _ (us_ok _ _ _ Hsp)) _ _ Hp) as [_ Hf].
  destruct (decide (n = 1)) as [E|E].
  - rewrite (cr_inplace _ _ _ _ _ _ _ _ _ Hcow E) in Hp. destruct Hown as (_ & Hnt & _). by apply (Hnt p).
  - destruct (cr_old _ _ _ _ _ _ _ _ _ Hcow E) as [Hn _]. congruence.
Qed.
Lemma cow_here va' : user_va va' -> va' / 4096 = va / 4096 -> mapping hh s' root va' = Some (Z.lor fp (cow_flags e)).
Proof. intros Hva' E. rewrite (mapping_page hh s' root va' va) by done. apply Hcow. Qed.

(** Another page of the space is neither the old page nor the new one. *)
Lemma cow_elsewhere va' e' : user_va va' -> va' / 4096 <> va / 4096 -> mapping hh s root va' = Some e' ->
  pte_addr e' <> pte_addr e /\ pte_addr e' <> fp.
Proof.
  intros Hva' Hne He'. assert (Hd : pte_addr e' <> pte_addr e) by (intros E; apply Hne; by eapply space_once).
  split; [done|]. destruct (space_page _ _ _ _ _ Hsp Hva' He') as (n' & _ & _ & Hf' & _). intros E.
  destruct (decide (n = 1)) as [E1|E1].
  - by rewrite (cr_inplace _ _ _ _ _ _ _ _ _ Hcow E1) in E.
  - destruct (cr_old _ _ _ _ _ _ _ _ _ Hcow E1) as [Hn _]. congruence.
Qed.

Lemma cow_space : space s' root T.
Proof.
  destruct (mapping_range _ _ _ _ _ He) as [Hr Hp]. destruct (cow_flags_spec e Hr Hp) as (Hfl & Hpr & _).
  pose proof (cr_addr _ _ _ _ _ _ _ _ _ Hcow) as Ea. pose proof (cr_valid _ _ _ _ _ _ _ _ _ Hcow) as Hv.
  assert (Hnop : has PTE_NOPMM (Z.lor fp (cow_flags e)) = false).
  { destruct Hv. rewrite has_lor by (done || lia). unfold PTE_NOPMM. rewrite has_cow_flags by done. by eapply (us_managed _ _ _ Hsp). }
  assert (Hcase : forall va' e', user_va va' -> mapping hh s' root va' = Some e' ->
    (va' / 4096 = va / 4096 /\ e' = Z.lor fp (cow_flags e)) \/ (va' / 4096 <> va / 4096 /\ mapping hh s root va' = Some e')).
  { intros va' e' Hva' He'. destruct (decide (va' / 4096 = va / 4096)) as [E|E].
    - left. split; [done|]. rewrite cow_here in He' by done. by injection He' as <-.
    - right. split; [done|]. by rewrite <- Hother. }
  assert (Howned : forall va' e', user_va va' -> mapping hh s' root va' = Some e' -> exists n', owned s' T e' n').
  { intros va' e' Hva' He'. destruct (Hcase va' e' Hva' He') as [[_ ->]|[Hne He0]].
    - exists 1. unfold owned. rewrite Ea. split_and!; [done|apply cow_not_table|apply Hcow|lia].
    - destruct (space_page _ _ _ _ _ Hsp Hva' He0) as (n' & Hv' & Hnt & Hf & Hn'). exists n'. split_and!; try done.
      destruct (cow_elsewhere va' e' Hva' Hne He0). rewrite (cr_frames _ _ _ _ _ _ _ _ _ Hcow) by done. done. }
  split; [split|]; [done|..].
  - intros va' e' Hva' He'. destruct (Howned va' e' Hva' He') as (_ & [_ ?] & _). lia.
  - intros va' e' Hva' He' _. by apply (Howned va').
  - intros va1 va2 e1 e2 H1 H2 M1 M2 _ _ E.
    destruct (Hcase _ _ H1 M1) as [[D1 ->]|[D1 N1]], (Hcase _ _ H2 M2) as [[D2 ->]|[D2 N2]].
    + congruence.
    + exfalso. rewrite Ea in E. by apply (cow_elsewhere va2 e2 H2 D2 N2).
    + exfalso. rewrite Ea in E. by apply (cow_elsewhere va1 e1 H1 D1 N1).
    + by eapply space_once.
  - intros va' e' Hva' He'. destruct (Hcase va' e' Hva' He') as [[_ ->]|[_ He0]]; [done|]. by eapply (us_managed _ _ _ Hsp).
Qed.

Lemma cow_bytes va' : user_va va' -> user_byte s' root va' = user_byte s root va'.
Proof.
  intros Hva'. unfold user_byte, byte_of. pose proof (cr_valid _ _ _ _ _ _ _ _ _ Hcow) as Hv.
  pose proof (cr_addr _ _ _ _ _ _ _ _ _ Hcow) as Ea. destruct (decide (va' / 4096 = va / 4096)) as [E|E].
  - rewrite cow_here, (mapping_page hh s root va' va), He by done. cbn [fmap option_fmap option_map]. f_equal.
    destruct Hown as (Hve & _). rewrite !byte_addr by (by rewrite ?Ea). rewrite Ea.
    apply (cr_bytes _ _ _ _ _ _ _ _ _ Hcow). apply Z.mod_pos_bound. lia.
  - rewrite Hother by done. destruct (mapping hh s root va') as [e'|] eqn:He'; [|done]. cbn [fmap option_fmap option_map]. f_equal.
    destruct (space_page _ _ _ _ _ Hsp Hva' He') as (n' & Hv' & Hnt & _). rewrite !byte_addr by done.
    destruct (cow_elsewhere va' e' Hva' E He') as [D1 D2]. pose proof (Z.mod_pos_bound va' 4096 ltac:(lia)).
    apply (cr_mem _ _ _ _ _ _ _ _ _ Hcow).
    + apply (in_page_apart hh (pte_addr e') fp); try done. unfold in_page. lia.
    + intros p t Ht. destruct (as_frame _ _ _ _ (sp_wf _ _ _ _ (us_ok _ _ _ Hsp)) _ _ Ht) as [Hvt _].
      apply (in_page_apart hh (pte_addr e') t); try done; [|unfold in_page; lia]. intros Et. apply (Hnt p). by rewrite Et.
Qed.

Lemma cow_confined : confined s root T va s'.
Proof.
  pose proof Hown as (_ & _ & Hf & _). split.
  - intros q. destruct (decide (q = fp)) as [->|D1]; [right; left; apply cow_mine|].
    destruct (decide (q = pte_addr e)) as [->|D2]; [|left; by apply (cr_frames _ _ _ _ _ _ _ _ _ Hcow)].
    right. right. destruct (decide (n = 1)) as [E|E]; [by rewrite (cr_inplace _ _ _ _ _ _ _ _ _ Hcow E) in D1|].
    exists e, n. split_and!; try done; [by apply (cr_old _ _ _ _ _ _ _ _ _ Hcow)|].
    eexists. split; [apply Hcow|]. rewrite (cr_addr _ _ _ _ _ _ _ _ _ Hcow). auto.
  - intros va' Hva'. destruct (decide (va' / 4096 = va / 4096)) as [E|E]; [|left; by apply Hother].
    right. eexists. split; [by apply cow_here|]. rewrite (cr_addr _ _ _ _ _ _ _ _ _ Hcow). apply cow_mine.
  - intros a Ht Hm. apply (cr_mem _ _ _ _ _ _ _ _ _ Hcow); [apply Hm, cow_mine|exact Ht].
Qed.
End cow.

(** ** One byte *)

(** Writing at [va] fails: nothing is mapped there, or a page that is read-only
    and, if it is copy-on-write, cannot be copied for want of memory. *)
Definition cannot_write s (root va : Z) : Prop :=
  forall e, mapping hh s root va = Some e -> has PTE_WRITABLE e = false /\
    (has PTE_COW e = true -> exhausted s).

Lemma space_same s s' root T :
  space s root T -> as_wf hh s' root T -> (forall va, user_va va -> mapping hh s' root va = mapping hh s root va) ->
  (forall va e n, user_va va -> mapping hh s root va = Some e -> frames (vm_pa s) (pte_addr e) = Some n ->
    exists n', frames (vm_pa s') (pte_addr e) = Some n' /\ 1 <= n') ->
  space s' root T.
Proof.
  intros Hsp Hwf Hmap Hfr. pose proof Hsp as [Hok Hm]. split; [split|]; [done|..].
  - intros va e Hva. rewrite Hmap by done. by apply (sp_addr _ _ _ _ Hok).
  - intros va e Hva He _. rewrite Hmap in He by done. destruct (space_page _ _ _ _ _ Hsp Hva He) as (n & Hv & Hnt & Hf & Hn).
    destruct (Hfr va e n) as (n' & ? & ?); try done. exists n'. split_and!; done.
  - intros va va' e e' Hva Hva' He He'. rewrite Hmap in He, He' by done. by apply (sp_once _ _ _ _ Hok va va' e e').
  - intros va e Hva. rewrite Hmap by done. by apply Hm.
Qed.

Lemma mapping_mem s s' root va : vm_mem s' = vm_mem s -> mapping hh s' root va = mapping hh s root va.
Proof. unfold mapping. by intros ->. Qed.

Lemma wp_write_addr s root T va :
  space s root T -> user_va va ->
  wp (write_addr hh kmapped root va) (fun r s' =>
    space s' root T /\ (forall va', user_va va' -> user_byte s' root va' = user_byte s root va') /\
    confined s root T va s' /\
    match r with
    | Some a => exists e, mapping hh s' root va = Some e /\ has PTE_WRITABLE e = true /\ a = p2v hh (pte_addr e) + va mod 4096
    | None => cannot_write s' root va
    end) s.
Proof.
  intros Hsp Hva. unfold write_addr. cbv zeta.
  assert (E : (0 <=? va) && (va <? 140737488355328) = true) by (unfold user_va in Hva; case_bools; done). rewrite E.
  wp_steps. destruct (mapping hh s root va) as [e|] eqn:He.
  2:{ wp_steps. split_and!; try done; [apply confined_refl|]. intros e E'. congruence. }
  destruct (has PTE_WRITABLE e) eqn:Hw. { wp_steps. split_and!; try done; [apply confined_refl|eauto]. }
  wp_steps. destruct (space_page _ _ _ _ _ Hsp Hva He) as (n & Hown).
  eapply wp_mono; [apply (wp_vmm_handle_cow_fault hh Hhh s root T va)|].
  - apply Hsp.
  - done.
  - intros e' E' _. rewrite He in E'. injection E' as <-. eauto.
  - intros [] s' (Hwf' & Hother & Hr); wp_steps.
    + destruct Hr as (e' & n' & fp & E' & _ & Hf & Hcow). rewrite He in E'. injection E' as <-.
      pose proof Hown as (_ & _ & Hf' & _). rewrite Hf in Hf'. injection Hf' as ->.
      pose proof (cow_space s root T va e n s' fp Hsp Hva He Hown Hwf' Hother Hcow) as Hsp'.
      rewrite (cr_mapping _ _ _ _ _ _ _ _ _ Hcow). destruct (mapping_range _ _ _ _ _ He) as [Hrg Hp].
      destruct (cow_flags_spec e Hrg Hp) as (_ & _ & Hwr & _). destruct (cr_valid _ _ _ _ _ _ _ _ _ Hcow) as [Hal Hv].
      assert (Hw' : has PTE_WRITABLE (Z.lor fp (cow_flags e)) = true) by (by rewrite has_lor by (done || lia)).
      wp_steps. rewrite Hw'. split; [done|]. split; [by apply (cow_bytes s root T va e n s' fp)|].
      split; [by apply (cow_confined s root T va e n s' fp)|]. eexists. split; [apply Hcow|done].
    + destruct Hr as (Em & Ef & Hfull).
      assert (Hmap : forall va', mapping hh s' root va' = mapping hh s root va') by (intros va'; by apply mapping_mem).
      split; [|split; [|split]].
      * apply (space_same s); try done. intros va' e' n' Hva' He' Hf'. rewrite Ef. exists n'. split; [done|].
        destruct (space_page _ _ _ _ _ Hsp Hva' He') as (n2 & _ & _ & ? & ?). congruence.
      * intros va' _. unfold user_byte, byte_of. by rewrite Hmap, Em.
      * split; [intros q; left; apply Ef|intros va' _; left; apply Hmap|intros a _ _; by rewrite Em].
      * intros e' E'. rewrite Hmap, He in E'. injection E' as <-. split; [done|]. intros Hc q. rewrite Ef. by apply (Hfull e).
Qed.

(** The byte goes to one virtual address. *)
Lemma store_space s root T va e b :
  space s root T -> user_va va -> mapping hh s root va = Some e ->
  let s' := set_mem (store8 (vm_mem s) (p2v hh (pte_addr e) + va mod 4096) b) s in
  space s' root T /\
  forall va', user_va va' -> user_byte s' root va' = if va' =? va then Some (u8 b) else user_byte s root va'.
Proof.
  intros Hsp Hva He. cbv zeta. destruct (space_page _ _ _ _ _ Hsp Hva He) as (n & Hv & Hnt & Hf & Hn).
  pose proof (Z.mod_pos_bound va 4096 ltac:(lia)) as Hmod. rewrite byte_addr by done.
  set (s' := set_mem (store8 (vm_mem s) (pte_addr e + hh + va mod 4096) b) s).
  assert (Hpg : in_page hh (pte_addr e) (pte_addr e + hh + va mod 4096)) by (unfold in_page; lia).
  destruct (other_space hh Hhh s s' root T) as (Hwf & Hmap & _).
  { apply Hsp. } { apply (as_pa _ _ _ _ (sp_wf _ _ _ _ (us_ok _ _ _ Hsp))). } { done. }
  { intros p t a Ht Ha. cbn. rewrite load8_store8. destruct (Z.eqb_spec a (pte_addr e + hh + va mod 4096)) as [->|]; [|done].
    destruct (as_frame _ _ _ _ (sp_wf _ _ _ _ (us_ok _ _ _ Hsp)) _ _ Ht) as [Hvt _]. exfalso.
    apply (in_page_apart hh (pte_addr e) t _ Hv Hvt) in Hpg; [done|]. intros E. apply (Hnt p). by rewrite E. }
  split.
  - apply (space_same s); try done. intros va' e' n' Hva' He' Hf'. exists n'. split; [done|].
    destruct (space_page _ _ _ _ _ Hsp Hva' He') as (n2 & _ & _ & ? & ?). congruence.
  - intros va' Hva'. unfold user_byte, byte_of. rewrite Hmap by done.
    destruct (mapping hh s root va') as [e'|] eqn:He'.
    + destruct (space_page _ _ _ _ _ Hsp Hva' He') as (n' & Hv' & _). cbn [fmap option_fmap option_map]. rewrite byte_addr by done.
      pose proof (Z.mod_pos_bound va' 4096 ltac:(lia)) as Hmod'. unfold s'. cbn [vm_mem set_mem]. rewrite load8_store8.
      destruct (Z.eqb_spec va' va) as [->|Hne].
      * rewrite He in He'. injection He' as <-. by rewrite Z.eqb_refl.
      * destruct (Z.eqb_spec (pte_addr e' + hh + va' mod 4096) (pte_addr e + hh + va mod 4096)) as [E|]; [|done]. exfalso.
        assert (Ep : pte_addr e' = pte_addr e).
        { destruct (decide (pte_addr e' = pte_addr e)) as [|D]; [done|]. exfalso.
          apply (in_page_apart hh (pte_addr e') (pte_addr e) (pte_addr e + hh + va mod 4096)); try done. unfold in_page. lia. }
        pose proof (space_once _ _ _ _ _ _ _ Hsp Hva' Hva He' He Ep). lia.
    + destruct (Z.eqb_spec va' va) as [->|]; [congruence|done].
Qed.

(** ** Two address spaces *)

(** Two processes: their tables and pages are different, but for read-only pages
    with a reference for each of them. *)
Record separate s root T root2 T2 : Prop := {
  sep_1 : space s root T;
  sep_2 : space s root2 T2;
  sep_tables : forall p q t, T !! p = Some t -> T2 !! q <> Some t;
  sep_12 : forall va e p, user_va va -> mapping hh s root va = Some e -> T2 !! p <> Some (pte_addr e);
  sep_21 : forall va e p, user_va va -> mapping hh s root2 va = Some e -> T !! p <> Some (pte_addr e);
  sep_pages : forall va e va2 e2, user_va va -> user_va va2 ->
    mapping hh s root va = Some e -> mapping hh s root2 va2 = Some e2 -> pte_addr e = pte_addr e2 ->
    has PTE_WRITABLE e = false /\ has PTE_WRITABLE e2 = false /\ frames (vm_pa s) (pte_addr e) <> Some 1;
}.

Lemma separate_sym s root T root2 T2 : separate s root T root2 T2 -> separate s root2 T2 root T.
Proof.
  intros [H1 H2 H3 H4 H5 H6]. split; try done.
  - intros p q t Hp Hq. by apply (H3 q p t).
  - intros va e va2 e2 Hva Hva2 He He2 E. destruct (H6 va2 e2 va e) as (? & ? & ?); try done. rewrite E. done.
Qed.

Section other.
Context (s : vm S) (root : Z) (T : tables) (root2 : Z) (T2 : tables) (va : Z) (s' : vm S).
Hypothesis Hsep : separate s root T root2 T2.
Hypothesis Hva : user_va va.
Hypothesis Hsp' : space s' root T.
Hypothesis Hcf : confined s root T va s'.

Lemma mine_not_table2 q p : mine s root va q -> T2 !! p <> Some q.
Proof.
  intros [_ [Hf|(e & He & -> & _)]] Hp; [|by eapply (sep_12 _ _ _ _ _ Hsep)].
  destruct (as_frame _ _ _ _ (sp_wf _ _ _ _ (us_ok _ _ _ (sep_2 _ _ _ _ _ Hsep))) _ _ Hp). congruence.
Qed.
Lemma mine_not_page2 q va2 e2 : mine s root va q -> user_va va2 -> mapping hh s root2 va2 = Some e2 -> pte_addr e2 <> q.
Proof.
  intros [_ Hm] Hva2 He2 E. destruct (space_page _ _ _ _ _ (sep_2 _ _ _ _ _ Hsep) Hva2 He2) as (n & _ & _ & Hf & _).
  destruct Hm as [Hf'|(e & He & -> & Hw)]; [congruence|].
  destruct (sep_pages _ _ _ _ _ Hsep va e va2 e2) as (? & ? & ?); try done. destruct Hw; congruence.
Qed.

(** The other space's tables. *)
Lemma other_tables :
  as_wf hh s' root2 T2 /\ (forall va2, user_va va2 -> mapping hh s' root2 va2 = mapping hh s root2 va2).
Proof.
  pose proof (sp_wf _ _ _ _ (us_ok _ _ _ (sep_2 _ _ _ _ _ Hsep))) as Hwf2.
  destruct (other_space hh Hhh s s' root2 T2) as (H1 & H2 & _); try done.
  - apply (as_pa _ _ _ _ (sp_wf _ _ _ _ (us_ok _ _ _ Hsp'))).
  - intros p t Hp. destruct (cf_frames _ _ _ _ _ Hcf t) as [?|[Hm|(e & n & He & -> & _)]]; [done| |].
    + by apply (mine_not_table2 t p) in Hm.
    + by eapply (sep_12 _ _ _ _ _ Hsep) in Hp.
  - intros p t a Hp Ha. destruct (as_frame _ _ _ _ Hwf2 _ _ Hp) as [Hv _]. apply (cf_mem _ _ _ _ _ Hcf).
    + intros q u Hq. destruct (as_frame _ _ _ _ (sp_wf _ _ _ _ (us_ok _ _ _ (sep_1 _ _ _ _ _ Hsep))) _ _ Hq) as [Hu _].
      apply (in_page_apart hh t u a); try done. intros ->. by apply (sep_tables _ _ _ _ _ Hsep q p u).
    + intros q Hm. apply (in_page_apart hh t q a); try done; [apply Hm|]. intros ->. by apply (mine_not_table2 q p).
Qed.

Lemma other_pages va2 : user_va va2 -> user_byte s' root2 va2 = user_byte s root2 va2.
Proof.
  intros Hva2. unfold user_byte, byte_of. destruct other_tables as [_ Hmap]. rewrite Hmap by done.
  destruct (mapping hh s root2 va2) as [e2|] eqn:He2; [|done]. cbn [fmap option_fmap option_map]. f_equal.
  destruct (space_page _ _ _ _ _ (sep_2 _ _ _ _ _ Hsep) Hva2 He2) as (n & Hv & _). rewrite !byte_addr by done.
  pose proof (Z.mod_pos_bound va2 4096 ltac:(lia)).
  assert (Hin : in_page hh (pte_addr e2) (pte_addr e2 + hh + va2 mod 4096)) by (unfold in_page; lia).
  apply (cf_mem _ _ _ _ _ Hcf).
  - intros p t Hp. destruct (as_frame _ _ _ _ (sp_wf _ _ _ _ (us_ok _ _ _ (sep_1 _ _ _ _ _ Hsep))) _ _ Hp) as [Hu _].
    apply (in_page_apart hh (pte_addr e2) t); try done. intros <-. by apply (sep_21 _ _ _ _ _ Hsep va2 e2 p).
  - intros q Hm. apply (in_page_apart hh (pte_addr e2) q); try done; [apply Hm|]. by apply (mine_not_page2 q va2).
Qed.

Lemma other_space2 : space s' root2 T2.
Proof.
  destruct other_tables as [Hwf Hmap]. apply (space_same s); try done; [apply Hsep|].
  intros va2 e2 n Hva2 He2 Hf. destruct (space_page _ _ _ _ _ (sep_2 _ _ _ _ _ Hsep) Hva2 He2) as (n' & _ & _ & Hf' & Hn).
  rewrite Hf in Hf'. injection Hf' as <-. destruct (cf_frames _ _ _ _ _ Hcf (pte_addr e2)) as [E|[Hm|(e & m & _ & _ & E & E1 & E2 & _)]].
  - rewrite E, Hf. eauto.
  - by apply (mine_not_page2 _ va2 e2) in Hm.
  - rewrite Hf in E. injection E as <-. exists (n - 1). split; [done|lia].
Qed.

Lemma confined_separate : separate s' root T root2 T2.
Proof.
  destruct other_tables as [Hwf Hmap]. split; try done; [apply other_space2|by apply Hsep|..].
  - intros va1 e1 p Hva1 He1. destruct (cf_map _ _ _ _ _ Hcf va1 Hva1) as [E|(e' & E & Hm)].
    + rewrite E in He1. by apply (sep_12 _ _ _ _ _ Hsep va1).
    + rewrite E in He1. injection He1 as <-. by apply mine_not_table2.
  - intros va2 e2 p Hva2. rewrite Hmap by done. by apply (sep_21 _ _ _ _ _ Hsep va2).
  - intros va1 e1 va2 e2 Hva1 Hva2 He1 He2 E. rewrite Hmap in He2 by done.
    destruct (cf_map _ _ _ _ _ Hcf va1 Hva1) as [E1|(e' & E1 & Hm)]; rewrite E1 in He1.
    2:{ injection He1 as <-. by apply (mine_not_page2 _ va2 e2) in Hm. }
    destruct (sep_pages _ _ _ _ _ Hsep va1 e1 va2 e2) as (Hw1 & Hw2 & Hn); try done. split; [done|]. split; [done|].
    destruct (cf_frames _ _ _ _ _ Hcf (pte_addr e1)) as [->|[Hm|(e & m & He & Ep & _ & _ & _ & e' & He' & Hne)]]; [done| |].
    + by apply (mine_not_page2 _ va2 e2) in Hm.
    + exfalso. apply Hne. pose proof (space_once _ _ _ _ _ _ _ (sep_1 _ _ _ _ _ Hsep) Hva1 Hva He1 He Ep) as Epg.
      rewrite (mapping_page hh s' root va va1) in He' by done. congruence.
Qed.
End other.

(** ** [copy_to_user] *)

Lemma user_byte_mem s s' root va :
  vm_mem s' = vm_mem s -> user_byte s' root va = user_byte s root va.
Proof. intros E. unfold user_byte, byte_of. by rewrite (mapping_mem s s'), E. Qed.

Lemma store_confined s root T va e b :
  space s root T -> user_va va -> mapping hh s root va = Some e -> has PTE_WRITABLE e = true ->
  confined s root T va (set_mem (store8 (vm_mem s) (p2v hh (pte_addr e) + va mod 4096) b) s).
Proof.
  intros Hsp Hva He Hw. destruct (space_page _ _ _ _ _ Hsp Hva He) as (n & Hv & Hnt & Hf & Hn).
  pose proof (Z.mod_pos_bound va 4096 ltac:(lia)) as Hmod.
  assert (Hm : mine s root va (pte_addr e)) by (split; [done|right; eauto]).
  destruct (store_space s root T va e b Hsp Hva He) as [Hsp' _]. split; [by left| |].
  - intros va' Hva'. left. destruct (other_space hh Hhh s (set_mem (store8 (vm_mem s) (p2v hh (pte_addr e) + va mod 4096) b) s) root T)
      as (_ & Hmap & _); [apply Hsp|apply (as_pa _ _ _ _ (sp_wf _ _ _ _ (us_ok _ _ _ Hsp')))|done| |by apply Hmap].
    intros p t a Ht Ha. cbn. rewrite load8_store8, byte_addr by done.
    destruct (Z.eqb_spec a (pte_addr e + hh + va mod 4096)) as [->|]; [|done].
    destruct (as_frame _ _ _ _ (sp_wf _ _ _ _ (us_ok _ _ _ Hsp)) _ _ Ht) as [Hvt _]. exfalso.
    apply (in_page_apart hh t (pte_addr e) _ Hvt Hv) in Ha; [apply Ha; unfold in_page; lia|]. intros ->. by apply (Hnt p).
  - intros a _ Ha. cbn. rewrite load8_store8, byte_addr by done.
    destruct (Z.eqb_spec a (pte_addr e + hh + va mod 4096)) as [->|]; [|done]. exfalso. apply (Ha _ Hm). unfold in_page. lia.
Qed.

Lemma wp_copy_to_user root T : forall src s udst,
  space s root T -> 0 <= udst -> udst + Z.of_nat (length src) <= 140737488355328 ->
  wp (copy_to_user hh kmapped root udst src) (fun ok s' => space s' root T /\
    (forall root2 T2, separate s root T root2 T2 -> separate s' root T root2 T2 /\
      forall va, user_va va -> user_byte s' root2 va = user_byte s root2 va) /\
    exists n, (n <= length src)%nat /\
      (if ok : bool then n = length src else (n < length src)%nat /\ cannot_write s' root (udst + Z.of_nat n)) /\
      forall va, user_va va -> user_byte s' root va =
        if (udst <=? va) && (va <? udst + Z.of_nat n) then u8 <$> src !! Z.to_nat (va - udst) else user_byte s root va) s.
Proof.
  induction src as [|b src IH]; intros s udst Hsp H0 Hmax; cbn [copy_to_user].
  { wp_steps. split; [done|]. split; [done|]. exists 0%nat. split; [done|]. split; [done|]. intros va _. case_bools; (lia || done). }
  cbn [length] in Hmax. assert (Hva : user_va udst) by (unfold user_va; lia). wp_steps.
  eapply wp_mono; [by apply (wp_write_addr s root T udst)|]. intros [a|] s1 (Hsp1 & Hb1 & Hcf1 & Hr); cbv beta iota.
  2:{ wp_steps. split; [done|]. split.
      - intros root2 T2 Hsep. split; [by apply (confined_separate s root T root2 T2 udst)|].
        intros va Hv. by apply (other_pages s root T root2 T2 udst).
      - exists 0%nat. split; [lia|]. split; [split; [cbn; lia|by rewrite Z.add_0_r]|]. intros va Hv.
        rewrite Hb1 by done. case_bools; (lia || done). }
  destruct Hr as (e & He & Hw & ->). wp_steps. set (s2 := set_mem _ s1).
  destruct (store_space s1 root T udst e b Hsp1 Hva He) as [Hsp2 Hb2].
  pose proof (store_confined s1 root T udst e b Hsp1 Hva He Hw) as Hcf2.
  eapply wp_mono; [apply (IH s2 (udst + 1)); [done|lia|lia]|]. intros ok s3 (Hsp3 & Hsep3 & n & Hn & Hok & Hb3). split; [done|]. split.
  - intros root2 T2 Hsep. pose proof (confined_separate s root T root2 T2 udst s1 Hsep Hva Hsp1 Hcf1) as Hs1.
    pose proof (confined_separate s1 root T root2 T2 udst s2 Hs1 Hva Hsp2 Hcf2) as Hs2.
    destruct (Hsep3 root2 T2 Hs2) as [Hs3 Hb]. split; [done|]. intros va Hv. rewrite Hb by done.
    rewrite (other_pages s1 root T root2 T2 udst s2) by done. by apply (other_pages s root T root2 T2 udst).
  - exists (Datatypes.S n). cbn [length]. split; [lia|]. split.
    + destruct ok; [lia|]. destruct Hok as [? Hc]. split; [lia|].
      by replace (udst + Z.of_nat (Datatypes.S n)) with (udst + 1 + Z.of_nat n) by lia.
    + intros va Hv. rewrite Hb3, Hb2 by done. destruct (Z.eqb_spec va udst) as [->|].
      * rewrite Z.sub_diag. case_bools; (lia || done).
      * rewrite Hb1 by done. case_bools; try (lia || done).
        replace (Z.to_nat (va - udst)) with (Datatypes.S (Z.to_nat (va - (udst + 1)))) by lia. done.
Qed.

(** [copy_to_user] writes the bytes of the buffer, in order, to the user's
    addresses, and nothing else of what the process sees changes; pages shared
    copy-on-write are made private first.  It stops early, with an error, only at
    an address that is not mapped or cannot be made writable. *)
Theorem copy_to_user_correct s root T udst src :
  space s root T -> 0 <= udst -> udst + Z.of_nat (length src) <= 140737488355328 ->
  wp (copy_to_user hh kmapped root udst src) (fun ok s' => space s' root T /\
    exists n, (n <= length src)%nat /\
      (if ok : bool then n = length src else (n < length src)%nat /\ cannot_write s' root (udst + Z.of_nat n)) /\
      forall va, user_va va -> user_byte s' root va =
        if (udst <=? va) && (va <? udst + Z.of_nat n) then u8 <$> src !! Z.to_nat (va - udst) else user_byte s root va) s.
Proof.
  intros Hsp H0 Hmax. eapply wp_mono; [by apply wp_copy_to_user|]. intros ok s' (Hsp' & _ & Hrest). done.
Qed.

(** ** Fork *)

(** No page is mapped to be shared with children. *)
Definition unshared s (root : Z) : Prop :=
  forall va e, user_va va -> mapping hh s root va = Some e -> has PTE_SHARED e = false.

Lemma share_readonly e :
  has PTE_SHARED e = false -> has PTE_NOPMM e = false -> has PTE_WRITABLE (share e) = false.
Proof.
  intros Hs Hn. unfold share, shared_flags. cbv zeta. rewrite !flag_mask_low by done.
  assert (E : has (Z.lor PTE_SHARED PTE_NOPMM) e = false).
  { unfold has in *. rewrite Z.land_lor_distr_r. apply negb_false_iff in Hs, Hn. apply Z.eqb_eq in Hs, Hn. by rewrite Hs, Hn. }
  rewrite E. unfold PTE_WRITABLE. rewrite !has_bit by done. unfold pte_addr.
  assert (Ea : Z.testbit (Z.land e ADDR_MASK) 1 = false) by (rewrite Z.land_spec; apply andb_false_r).
  destruct (Z.testbit e 1) eqn:E1; cbn [andb negb]; rewrite Z.lor_spec, Ea; cbn [orb].
  - rewrite Z.lor_spec, !Z.land_spec, Z.lnot_spec by done. by rewrite !andb_false_r.
  - by rewrite Z.land_spec, E1.
Qed.

Section fork.
Context (s : vm S) (root : Z) (T : tables) (child : Z) (s1 : vm S) (T1 : tables).
Hypothesis Hsp : space s root T.
Hypothesis Hun : unshared s root.
Hypothesis Hc : cloned hh s root T child 140737488355328 s1 T1.

Lemma cloned_maps va : user_va va ->
  mapping hh s1 root va = share <$> mapping hh s root va /\
  (mapping hh s1 child va = share <$> mapping hh s root va \/ (mapping hh s1 child va = None /\ exhausted s1)).
Proof.
  intros Hva. rewrite (cl_parent _ _ _ _ _ _ _ _ Hc) by done.
  pose proof (cl_child _ _ _ _ _ _ _ _ Hc va Hva) as Hch. unfold user_va in Hva.
  destruct (Z.ltb_spec va 140737488355328); [|lia]. split; [done|]. destruct Hch as [->|?]; [by left|by right].
Qed.

(** A page either space maps: read-only, counted for both, no table of either. *)
Lemma cloned_user_entry r va e' : r = root \/ r = child -> user_va va -> mapping hh s1 r va = Some e' ->
  exists e n, mapping hh s root va = Some e /\ pte_addr e' = pte_addr e /\ has PTE_NOPMM e' = false /\
    has PTE_WRITABLE e' = false /\ owned s1 T e' (n + 1) /\ owned s1 T1 e' (n + 1) /\ 1 <= n.
Proof.
  intros Hr Hva He'. pose proof Hsp as [Hok Hmg]. destruct (cloned_maps va Hva) as [Hp Hch].
  assert (Hm : exists e, mapping hh s root va = Some e /\ e' = share e).
  { destruct Hr as [-> | ->]; [rewrite Hp in He'|destruct Hch as [E|[E _]]; rewrite E in He'; [|done]];
      apply fmap_Some in He' as (e & -> & ->); eauto. }
  destruct Hm as (e & He & ->). destruct (mapped_share hh s root T va e Hok Hva He) as (Ea & En & _).
  pose proof (Hmg va e Hva He) as Hnp. destruct (space_page _ _ _ _ _ Hsp Hva He) as (n & Hv & Hnt & Hf & Hn).
  pose proof (cloned_owned hh s root T child s1 T1 va e n Hok Hc Hva He Hnp Hf Hn) as Hown.
  exists e, n. split_and!; try done; [congruence|by apply share_readonly; [apply (Hun va)|]|].
  destruct Hown as (? & _ & ? & ?). unfold owned. rewrite Ea in *. done.
Qed.

Lemma cloned_space r T' :
  (r = root /\ T' = T) \/ (r = child /\ T' = T1) -> as_wf hh s1 r T' -> space s1 r T'.
Proof.
  intros Hr Hwf. assert (Hr' : r = root \/ r = child) by tauto. split; [split|]; [done|..].
  - intros va e' Hva He'. destruct (cloned_user_entry r va e' Hr' Hva He') as (e & n & _ & _ & _ & _ & ([_ ?] & _) & _). lia.
  - intros va e' Hva He' _. destruct (cloned_user_entry r va e' Hr' Hva He') as (e & n & _ & _ & _ & _ & H1 & H2 & _).
    exists (n + 1). by destruct Hr as [[_ ->]|[_ ->]].
  - intros va va' e1 e2 Hva Hva' He1 He2 _ _ E.
    destruct (cloned_user_entry r va e1 Hr' Hva He1) as (e & n & He & Ea & _).
    destruct (cloned_user_entry r va' e2 Hr' Hva' He2) as (e' & n' & He' & Ea' & _).
    apply (space_once _ _ _ _ _ e e' Hsp); congruence || done.
  - intros va e' Hva He'. by destruct (cloned_user_entry r va e' Hr' Hva He') as (e & n & _ & _ & ? & _).
Qed.

Lemma cloned_separate : separate s1 root T child T1.
Proof.
  split.
  - apply cloned_space; [by left|apply Hc].
  - apply cloned_space; [by right|apply Hc].
  - intros p q t Hp Hq. by apply (cloned_apart hh s root T child (us_ok _ _ _ Hsp) _ _ _ p q t t Hc).
  - intros va e p Hva He. destruct (cloned_user_entry root va e (or_introl eq_refl) Hva He) as (e0 & n & _ & _ & _ & _ & _ & (_ & ? & _) & _). done.
  - intros va e p Hva He. destruct (cloned_user_entry child va e (or_intror eq_refl) Hva He) as (e0 & n & _ & _ & _ & _ & (_ & ? & _) & _). done.
  - intros va e va2 e2 Hva Hva2 He He2 E.
    destruct (cloned_user_entry root va e (or_introl eq_refl) Hva He) as (e0 & n & _ & _ & _ & Hw & (_ & _ & Hf & _) & _ & Hn).
    destruct (cloned_user_entry child va2 e2 (or_intror eq_refl) Hva2 He2) as (e1 & n1 & _ & _ & _ & Hw2 & _).
    split; [done|]. split; [done|]. rewrite Hf. intros [= ?]. lia.
Qed.

Lemma cloned_byte va e : user_va va -> mapping hh s root va = Some e -> byte_of s1 va (share e) = byte_of s va e.
Proof.
  intros Hva He. unfold byte_of. destruct (mapped_share hh s root T va e (us_ok _ _ _ Hsp) Hva He) as (Ea & _ & _). rewrite Ea.
  destruct (space_page _ _ _ _ _ Hsp Hva He) as (n & Hv & _). rewrite !byte_addr by done.
  apply (cloned_bytes hh s root T child 140737488355328 s1 T1 va e); try done.
  - apply (us_ok _ _ _ Hsp).
  - by apply (us_managed _ _ _ Hsp va).
  - apply Z.mod_pos_bound. lia.
Qed.
Lemma cloned_user_bytes va : user_va va ->
  user_byte s1 root va = user_byte s root va /\
  (user_byte s1 child va = user_byte s root va \/ (user_byte s1 child va = None /\ exhausted s1)).
Proof.
  intros Hva. destruct (cloned_maps va Hva) as [Hp Hch]. unfold user_byte. rewrite Hp.
  destruct (mapping hh s root va) as [e|] eqn:He.
  - pose proof (cloned_byte va e Hva He) as E. cbn [fmap option_fmap option_map]. rewrite E. split; [done|].
    destruct Hch as [->|[-> ?]]; [left|by right]. cbn. by rewrite E.
  - split; [done|]. left. by destruct Hch as [->|[-> _]].
Qed.
End fork.

(** A process that writes: any number of buffers to any addresses. *)
Fixpoint write_all (root : Z) (ws : list (Z * list Z)) : M (vm S) unit :=
  match ws with
  | [] => ret tt
  | (udst, src) :: ws => _ <- copy_to_user hh kmapped root udst src ;; write_all root ws
  end.
Definition user_write (w : Z * list Z) : Prop :=
  0 <= w.1 /\ w.1 + Z.of_nat (length w.2) <= 140737488355328.

Lemma wp_write_all root T root2 T2 : forall ws s,
  separate s root T root2 T2 -> Forall user_write ws ->
  wp (write_all root ws) (fun _ s' => separate s' root T root2 T2 /\
    forall va, user_va va -> user_byte s' root2 va = user_byte s root2 va) s.
Proof.
  induction ws as [|[u src] ws IH]; intros s Hsep Hws; cbn [write_all]; [by wp_steps|].
  apply Forall_cons in Hws as [[H0 Hmax] Hws]. wp_steps.
  eapply wp_mono; [apply (wp_copy_to_user root T src s u); [apply Hsep|done|done]|]. intros ok s1 (_ & H1 & _). cbv beta.
  destruct (H1 root2 T2 Hsep) as [Hsep1 Hb1]. eapply wp_mono; [by apply (IH s1)|]. intros [] s2 [Hsep2 Hb2].
  split; [done|]. intros va Hva. by rewrite Hb2, Hb1.
Qed.

(** C2: Fork isolates: in an address space whose user pages all belong to the page
    allocator and none of which is mapped to be shared with children, whatever the
    child writes after the clone, the parent reads what it read before it, and
    whatever the parent writes, the child reads at every address what the parent
    read at the clone.  The child may miss a page only if the clone used up
    the last free page; the clone fails only if none was free. *)
Theorem fork_isolates s root T kp ws (by_child : bool) :
  space s root T -> unshared s root -> room hh s root ->
  valid_frame kp -> frames (vm_pa s) kp <> None -> kernel_pml4 s = kp + hh -> Forall user_write ws ->
  wp (vmm_clone_user_pagetable hh root) (fun child s1 =>
    if child =? 0 then exhausted s
    else wp (write_all (if by_child then child else root) ws) (fun _ s' => forall va, user_va va ->
      if by_child then user_byte s' root va = user_byte s root va
      else user_byte s' child va = user_byte s root va \/ (user_byte s' child va = None /\ exhausted s1)) s1) s.
Proof.
  intros Hsp Hun Hroom Hkv Hk Hkp Hws.
  eapply wp_mono; [by apply (wp_vmm_clone hh Hhh s root T kp (us_ok _ _ _ Hsp))|].
  intros c s1 [(-> & Hex & _)|[T1 Hc]]; [done|].
  pose proof (cloned_root_ne hh Hhh _ _ _ _ _ _ _ Hc). destruct (Z.eqb_spec c 0) as [|Hc0]; [done|].
  pose proof (cloned_separate s root T c s1 T1 Hsp Hun Hc) as Hsep.
  pose proof (cloned_user_bytes s root T c s1 T1 Hsp Hc) as Hbytes. destruct by_child.
  - eapply wp_mono; [apply (wp_write_all c T1 root T ws s1); [by apply separate_sym|done]|].
    intros [] s2 [_ Hb] va Hva. rewrite Hb by done. by apply Hbytes.
  - eapply wp_mono; [by apply (wp_write_all root T c T1 ws s1)|].
    intros [] s2 [_ Hb] va Hva. rewrite Hb by done. by apply Hbytes.
Qed.
End user.

(** ** Instances on the machine of [CloneSpace] *)

Lemma fork_user_space : exists T, space demo_hh fork_vm fork_root T /\ unshared demo_hh fork_vm fork_root /\
  room demo_hh fork_vm fork_root.
Proof.
  destruct fork_space as (T & Hok & Hroom & Hfl). exists T. split; [split; [done|]|split; [|done]];
    intros va e Hva He; by apply (Hfl va e).
Qed.
#[local] Opaque fork_vm vmm_clone_user_pagetable copy_to_user.

Lemma copy_to_user_correct_witness :
  wp (copy_to_user demo_hh (fun _ => false) fork_root 0x400010 [72; 105]) (fun ok s' =>
    ok = true -> user_byte demo_hh s' fork_root 0x400011 = Some 105) fork_vm.
Proof.
  destruct fork_user_space as (T & Hsp & _).
  eapply wp_mono; [apply (copy_to_user_correct demo_hh demo_hh_ok (fun _ => false) fork_vm fork_root T 0x400010 [72; 105] Hsp);
    [lia|cbn; lia]|].
  intros ok s' (_ & n & _ & Hn & Hb). intros ->. subst n. rewrite Hb by (split; lia). reflexivity.
Defined.

Lemma fork_isolates_witness :
  wp (vmm_clone_user_pagetable demo_hh fork_root) (fun child s1 => child <> 0 ->
    wp (write_all demo_hh (fun _ => false) child [(0x400010, [72; 105])]) (fun _ s' =>
      user_byte demo_hh s' fork_root 0x400010 = user_byte demo_hh fork_vm fork_root 0x400010) s1) fork_vm.
Proof.
  destruct fork_user_space as (T & Hsp & Hun & Hroom).
  assert (Hws : Forall user_write [(0x400010, [72; 105])]) by (constructor; [split; cbn; lia|constructor]).
  eapply wp_mono; [exact (fork_isolates demo_hh demo_hh_ok (fun _ => false) fork_vm fork_root T 4096
    [(0x400010, [72; 105])] true Hsp Hun Hroom demo_kernel_frame fork_kernel_used fork_kernel Hws)|].
  intros c s1 Hc Hne. cbv beta iota in Hc. destruct (Z.eqb_spec c 0) as [|_]; [done|].
  eapply wp_mono; [exact Hc|]. intros [] s' Hb. apply Hb. split; lia.
Defined.
