(* ===== verification/Process.v ===== *)
(** * Processes (process.c, and the tick of scheduler.c)

    Creation, fork and clone, exec, exit, reaping and scheduling, on the state
    of the whole kernel. *)

From S2P Require Import Prelude Mem CString FrameAlloc Vmm PageTable Elf Ustack Switch.
From S2P Require Import Proc Queues Mlfq Wait Pipe Heap Vfs Keyboard Mouse ProcRing Kernel.

Definition USER_STACK_TOP : Z := 0x0000700000000000.
Definition CLONE_VM : Z := 0x100.

(** The addresses of the routines a new process starts in, fixed by the linker. *)
Record stubs := mkStubs {
  kernel_thread_stub : Z;
  idle_thread : Z;
  user_thread_stub : Z;
  fork_trampoline : Z;
}.

Definition closed_fd (fd : file_descriptor) : file_descriptor := mkFd FD_NONE 0 0 (fd_offset fd) (fd_flags fd).

Section process.
Context {S H : Type} `{FrameOps S} `{HeapOps H} (hhdm_offset : Z) (code : stubs).
Abbreviation K := (M (kernel S H)).

Definition pread {A} (f : process -> A) (p : Z) : K A := in_sched (pget f p).
Definition pwrite (g : process -> process) (p : Z) : K unit := in_sched (pset g p).
Definition get_current : K Z := gets (fun k => current_process (k_sched k)).

Lemma wp_pread {A} (f : process -> A) p (Q : A -> kernel S H -> Prop) k r :
  procs (k_sched k) !! p = Some r -> Q (f r) k -> wp (pread f p) Q k.
Proof. intros Hp HQ. apply wp_in_sched. eapply wp_pget; [exact Hp|]. by destruct k. Qed.
Lemma wp_pwrite g p (Q : unit -> kernel S H -> Prop) k r :
  procs (k_sched k) !! p = Some r ->
  Q tt (set_k_sched (set_procs (alter g p (procs (k_sched k))) (k_sched k)) k) -> wp (pwrite g p) Q k.
Proof. intros Hp HQ. apply wp_in_sched. by eapply wp_pset. Qed.

(** [vmm_get_kernel_pml4() - hhdm_offset] *)
Definition kernel_cr3 : K Z := gets (fun k => v2p hhdm_offset (kernel_pml4 (k_vm k))).

(** [setup_kernel_stack] on the kernel's memory. *)
Definition prepare_stack (base stub : Z) : K Z := on_vm (fun v =>
  let '(m, sp) := setup_kernel_stack (vm_mem v) base stub in Some (sp, set_mem m v)).

Definition take_pid : K Z :=
  pid <- gets (fun k => next_pid (k_sched k)) ;;
  in_sched (modify (set_next_pid (u64 (pid + 1)))) ;;
  ret pid.

(** ** Creation *)

Definition init_scheduler : K unit :=
  in_sched mlfq_init ;;
  p <- in_heap (kmalloc PROCESS_SIZE) ;;
  if p =? 0 then undef else
  new_process p proc_zero ;;
  in_sched (modify (set_idle_process p)) ;;
  pwrite (set_p_pid 0) p ;;
  pwrite (set_p_state PROCESS_RUNNING) p ;;
  pwrite (set_priority 3) p ;;
  pwrite (set_ticks_executed 0) p ;;
  pwrite (set_entrypoint (idle_thread code)) p ;;
  cr3 <- kernel_cr3 ;;
  pwrite (set_p_cr3 cr3) p ;;
  stack <- on_vm (pa fa_alloc) ;;
  let base := p2v hhdm_offset stack in
  pwrite (set_kernel_stack base) p ;;
  sp <- prepare_stack base (kernel_thread_stub code) ;;
  pwrite (set_p_rsp sp) p ;;
  in_sched (modify (set_current_process p)) ;;
  in_sched (modify (set_process_queue p)) ;;
  pwrite (set_p_next p) p ;;
  pwrite (set_p_prev p) p.

(** The new descriptor is not cleared: [junk] is what the memory held. *)
Definition create_kernel_thread (junk : process) (entry : Z) : K Z :=
  p <- in_heap (kmalloc PROCESS_SIZE) ;;
  if p =? 0 then ret 0 else
  new_process p junk ;;
  stack <- on_vm (pa fa_alloc) ;;
  if stack =? 0 then free_process p ;; ret 0 else
  let base := p2v hhdm_offset stack in
  pwrite (set_kernel_stack base) p ;;
  pid <- take_pid ;;
  pwrite (set_p_pid pid) p ;;
  pwrite (set_p_state PROCESS_READY) p ;;
  pwrite (set_entrypoint entry) p ;;
  cur <- get_current ;;
  pwrite (set_parent cur) p ;;
  sp <- prepare_stack base (kernel_thread_stub code) ;;
  pwrite (set_p_rsp sp) p ;;
  cr3 <- kernel_cr3 ;;
  pwrite (set_p_cr3 cr3) p ;;
  in_sched (enqueue_process p) ;;
  pwrite (set_priority 0) p ;;
  pwrite (set_ticks_executed 0) p ;;
  in_sched (mlfq_enqueue p) ;;
  ret p.

(** The new address space, the entry point, the stack pointer and the break. *)
Record image := mkImage { im_pml4 : Z; im_entry : Z; im_stack : Z; im_break : Z }.

Definition load_elf_into_new_pagetable (path : str) (argv : list str) : K (option image) :=
  root <- gets (@k_root S H) ;;
  file <- on_vfs (vfs_find_node root path) ;;
  if file =? 0 then ret None else
  nd <- gets (fun k => k_nodes k !! file) ;;
  nd <- lift nd ;;
  if negb (bool_decide (vn_type nd = VFS_FILE)) then ret None else
  pml4 <- on_vm (vmm_new_user_pagetable hhdm_offset) ;;
  if pml4 =? 0 then ret None else
  r <- on_vm (elf_load hhdm_offset (vn_data nd) pml4) ;;
  match r with
  | None => on_vm (vmm_destroy_user_pagetable hhdm_offset pml4) ;; ret None
  | Some (entry, brk_start) =>
      phys <- on_vm (pa fa_alloc) ;;
      if phys =? 0 then on_vm (vmm_destroy_user_pagetable hhdm_offset pml4) ;; ret None else
      on_vm (vmm_map_page hhdm_offset pml4 (USER_STACK_TOP - PAGE_SIZE) phys
        (Z.lor (Z.lor (Z.lor PTE_PRESENT PTE_WRITABLE) PTE_USER) PTE_NX)) ;;
      sp <- on_vm (fun v =>
        let '(m, sp) := setup_user_stack_args (vm_mem v) (p2v hhdm_offset phys) (USER_STACK_TOP - PAGE_SIZE) argv in
        Some (sp, set_mem m v)) ;;
      if sp =? 0 then on_vm (vmm_destroy_user_pagetable hhdm_offset pml4) ;; ret None
      else ret (Some (mkImage pml4 entry sp brk_start))
  end.

Definition create_user_process (path : str) (argv : list str) : K Z :=
  im <- load_elf_into_new_pagetable path argv ;;
  match im with
  | None => ret 0
  | Some im =>
      p <- in_heap (kmalloc PROCESS_SIZE) ;;
      if p =? 0 then on_vm (vmm_destroy_user_pagetable hhdm_offset (im_pml4 im)) ;; ret 0 else
      new_process p proc_zero ;;
      stack <- on_vm (pa fa_alloc) ;;
      if stack =? 0 then
        free_process p ;; on_vm (vmm_destroy_user_pagetable hhdm_offset (im_pml4 im)) ;; ret 0
      else
      let base := p2v hhdm_offset stack in
      pwrite (set_kernel_stack base) p ;;
      pid <- take_pid ;;
      pwrite (set_p_pid pid) p ;;
      pwrite (set_p_state PROCESS_READY) p ;;
      pwrite (set_elf_entry (im_entry im)) p ;;
      pwrite (set_user_stack_top (im_stack im)) p ;;
      pwrite (set_brk_start (im_break im)) p ;;
      pwrite (set_brk (im_break im)) p ;;
      pwrite (set_mmap_next MMAP_BASE) p ;;
      pwrite (set_p_cr3 (v2p hhdm_offset (im_pml4 im))) p ;;
      cur <- get_current ;;
      pwrite (set_parent cur) p ;;
      sp <- prepare_stack base (user_thread_stub code) ;;
      pwrite (set_p_rsp sp) p ;;
      in_sched (enqueue_process p) ;;
      pwrite (set_priority 0) p ;;
      pwrite (set_ticks_executed 0) p ;;
      in_sched (mlfq_enqueue p) ;;
      ret p
  end.

(** On success the process continues in user mode at the entry point, on the new
    stack; [None] is -1. *)
Definition exec_process (proc : Z) (path : str) (argv : list str) : K (option (Z * Z)) :=
  im <- load_elf_into_new_pagetable path argv ;;
  match im with
  | None => ret None
  | Some im =>
      cr3 <- pread p_cr3 proc ;;
      on_vm (vmm_destroy_user_pagetable hhdm_offset (p2v hhdm_offset cr3)) ;;
      pwrite (set_p_cr3 (v2p hhdm_offset (im_pml4 im))) proc ;;
      pwrite (set_elf_entry (im_entry im)) proc ;;
      pwrite (set_user_stack_top (im_stack im)) proc ;;
      pwrite (set_brk_start (im_break im)) proc ;;
      pwrite (set_brk (im_break im)) proc ;;
      pwrite (set_mmap_next MMAP_BASE) proc ;;
      modify (set_k_cr3 (v2p hhdm_offset (im_pml4 im))) ;;
      ret (Some (im_entry im, im_stack im))
  end.

(** ** File descriptors *)

Definition get_fd (p i : Z) : K file_descriptor :=
  t <- pread fd_table p ;;
  lift (arr_get t i).
Definition put_fd (p i : Z) (fd : file_descriptor) : K unit :=
  t <- pread fd_table p ;;
  t <- lift (arr_set t i fd) ;;
  pwrite (set_fd_table t) p.

(** One more descriptor names the end of a pipe that [fd] names. *)
Definition add_ends (readers writers : Z) (p : pipe) : pipe :=
  mkPipe (p_buf p) (p_head p) (p_tail p) (p_count p) (p_readers p + readers) (p_writers p + writers)
    (read_waiters p) (write_waiters p).
Definition bump_end (fd : file_descriptor) : K unit :=
  match fd_kind fd with
  | FD_PIPE_READ => on_pipe (fd_pipe fd) (upd_pipe (add_ends 1 0))
  | FD_PIPE_WRITE => on_pipe (fd_pipe fd) (upd_pipe (add_ends 0 1))
  | _ => ret tt
  end.
(** The end of a pipe that [fd] names is closed. *)
Definition drop_end (fd : file_descriptor) : K unit :=
  match fd_kind fd with
  | FD_PIPE_READ => close_end (fd_pipe fd) true
  | FD_PIPE_WRITE => close_end (fd_pipe fd) false
  | _ => ret tt
  end.

Definition process_release_fds (proc : Z) : K unit :=
  for_range 0 32 (fun i =>
    fd <- get_fd proc i ;;
    drop_end fd ;;
    fd <- get_fd proc i ;;
    put_fd proc i (closed_fd fd)).

(** ** Fork and clone *)

(** The address space of the child and the count of the processes that share it. *)
Definition clone_vm (par flags : Z) : K (option (Z * Z)) :=
  cr3 <- pread p_cr3 par ;;
  if negb (Z.land flags CLONE_VM =? 0) then
    rc <- pread vm_refcount par ;;
    (if rc =? 0 then
       rc <- in_heap (kmalloc WORD_SIZE) ;;
       pwrite (set_vm_refcount rc) par ;;
       if rc =? 0 then ret tt else modify (fun k => set_k_cells (<[rc := 1]> (k_cells k)) k)
     else ret tt) ;;
    rc <- pread vm_refcount par ;;
    if rc =? 0 then ret None else ret (Some (p2v hhdm_offset cr3, rc))
  else
    pml4 <- on_vm (vmm_clone_user_pagetable hhdm_offset (p2v hhdm_offset cr3)) ;;
    ret (if pml4 =? 0 then None else Some (pml4, 0)).

(** The child names the ends of pipes the parent names. *)
Definition copy_fds (par child : Z) : K unit :=
  t <- pread fd_table par ;;
  pwrite (set_fd_table t) child ;;
  for_range 0 32 (fun i => fd <- get_fd child i ;; bump_end fd).

Definition clone_process (par : Z) (regs : trapframe) (flags child_stack : Z) : K Z :=
  v <- clone_vm par flags ;;
  match v with
  | None => ret 0
  | Some (child_pml4, vm_rc) =>
      let drop_vm := if vm_rc =? 0 then on_vm (vmm_destroy_user_pagetable hhdm_offset child_pml4) else ret tt in
      child <- in_heap (kmalloc PROCESS_SIZE) ;;
      if child =? 0 then drop_vm ;; ret 0 else
      new_process child proc_zero ;;
      stack <- on_vm (pa fa_alloc) ;;
      if stack =? 0 then free_process child ;; drop_vm ;; ret 0 else
      let base := p2v hhdm_offset stack in
      pwrite (set_kernel_stack base) child ;;
      pid <- take_pid ;;
      pwrite (set_p_pid pid) child ;;
      pwrite (set_p_state PROCESS_READY) child ;;
      entry <- pread elf_entry par ;;
      pwrite (set_elf_entry entry) child ;;
      top <- pread user_stack_top par ;;
      pwrite (set_user_stack_top (if child_stack =? 0 then top else child_stack)) child ;;
      b <- pread brk_start par ;;
      pwrite (set_brk_start b) child ;;
      b <- pread brk par ;;
      pwrite (set_brk b) child ;;
      b <- pread mmap_next par ;;
      pwrite (set_mmap_next b) child ;;
      pwrite (set_p_cr3 (v2p hhdm_offset child_pml4)) child ;;
      pwrite (set_vm_refcount vm_rc) child ;;
      (if vm_rc =? 0 then ret tt else n <- get_cell vm_rc ;; set_cell vm_rc (u64 (n + 1))) ;;
      pwrite (set_parent par) child ;;
      copy_fds par child ;;
      pwrite (set_fork_frame (let t := set_tf_rax 0 regs in
                              if child_stack =? 0 then t else set_tf_rsp child_stack t)) child ;;
      sp <- prepare_stack base (fork_trampoline code) ;;
      pwrite (set_p_rsp sp) child ;;
      in_sched (enqueue_process child) ;;
      pwrite (set_priority 0) child ;;
      pwrite (set_ticks_executed 0) child ;;
      in_sched (mlfq_enqueue child) ;;
      ret child
  end.

Definition fork_process (par : Z) (regs : trapframe) : K Z := clone_process par regs 0 0.

(** ** Reaping *)

Definition destroy_process_vm (proc kcr3 : Z) : K unit :=
  cr3 <- pread p_cr3 proc ;;
  if cr3 =? kcr3 then ret tt else
  rc <- pread vm_refcount proc ;;
  last <-
    (if rc =? 0 then ret true
     else
       n <- get_cell rc ;;
       set_cell rc (u64 (n - 1)) ;;
       if 0 <? u64 (n - 1) then ret false else free_cell rc ;; ret true) ;;
  if last : bool then on_vm (vmm_destroy_user_pagetable hhdm_offset (p2v hhdm_offset cr3)) else ret tt.

(** What is left of a dead process that is no longer in the ring. *)
Definition release_process (proc kcr3 : Z) : K unit :=
  stack <- pread kernel_stack proc ;;
  on_vm (pa (fa_free (v2p hhdm_offset stack))) ;;
  destroy_process_vm proc kcr3 ;;
  free_process proc.

Fixpoint reap_loop (kcr3 node : Z) (count : nat) : K unit :=
  match count with
  | O => ret tt
  | Datatypes.S count' =>
      let victim := node in
      node <- pread p_next victim ;;
      st <- pread p_state victim ;;
      cur <- get_current ;;
      par <- pread parent victim ;;
      if negb (bool_decide (st = PROCESS_DEAD)) || (victim =? cur) || negb (par =? 0)
      then reap_loop kcr3 node count'
      else
        in_sched (ring_unlink victim) ;;
        release_process victim kcr3 ;;
        q <- gets (fun k => process_queue (k_sched k)) ;;
        if q =? 0 then ret tt else reap_loop kcr3 node count'
  end.
Definition reap_zombies : K unit :=
  q <- gets (fun k => process_queue (k_sched k)) ;;
  if q =? 0 then ret tt else
  kcr3 <- kernel_cr3 ;;
  count <- in_sched (ring_count q) ;;
  reap_loop kcr3 q count.

(** The result and, for a child that was found, its exit code. *)
Definition wait_reap_child (par pid : Z) : K (Z * option Z) :=
  q <- gets (fun k => process_queue (k_sched k)) ;;
  if q =? 0 then ret (-1, None) else
  count <- in_sched (ring_count q) ;;
  r <- in_sched (find_loop par pid q count false) ;;
  let '(found, has_children) := r in
  if found =? 0 then ret (if has_children then 0 else -1, None) else
  found_pid <- pread p_pid found ;;
  status <- pread exit_code found ;;
  in_sched (ring_unlink found) ;;
  kcr3 <- kernel_cr3 ;;
  release_process found kcr3 ;;
  ret (s32 found_pid, Some status).

(** ** Scheduling *)

(** The processor at a call of [switch_task]; its page-table register and the
    memory are the kernel's. *)
Record cpu := mkCpu { cpu_regs : callee; cpu_rsp : Z; cpu_rip : Z }.
Definition on_machine (c : cpu) (op : M machine unit) : K cpu := fun k =>
  match op (mkMach (cpu_regs c) (cpu_rsp c) (cpu_rip c) (k_cr3 k) (vm_mem (k_vm k)) (k_sched k)) with
  | Some (_, s) =>
      Some (mkCpu (m_regs s) (m_rsp s) (m_rip s),
            set_k_cr3 (m_cr3 s) (set_k_sched (m_sched s) (set_k_vm (set_mem (m_mem s) (k_vm k)) k)))
  | None => None
  end.

(** [None] when the caller goes on without a switch, otherwise the processor as
    the process that was chosen left it. *)
Definition schedule_locked (c : cpu) : K (option cpu) :=
  prev <- get_current ;;
  if prev =? 0 then ret None else
  reap_zombies ;;
  r <- in_sched choose_next ;;
  match r with
  | None => ret None
  | Some next =>
      stack <- pread kernel_stack next ;;
      (if stack =? 0 then ret tt else modify (set_k_rsp0 (u64 (stack + PAGE_SIZE)))) ;;
      c' <- on_machine c (switch_task prev next) ;;
      ret (Some c')
  end.

(** The interrupt flag of RFLAGS is bit 9. *)
Definition cli (c : cpu) : cpu :=
  let r := cpu_regs c in
  mkCpu (mkCallee (c_rbx r) (c_rbp r) (c_r12 r) (c_r13 r) (c_r14 r) (c_r15 r) (Z.clearbit (c_rflags r) 9))
    (cpu_rsp c) (cpu_rip c).

(** Without a switch the caller gets its flags back.  A process that is switched
    to is behind its own call of [switch_task] and restores its own flags. *)
Definition schedule (c : cpu) : K cpu :=
  r <- schedule_locked (cli c) ;;
  ret (match r with Some c' => c' | None => c end).

(** [current_process->exit_code = code; state = PROCESS_DEAD; schedule();] *)
Definition die (code : Z) (c : cpu) : K cpu :=
  cur <- get_current ;;
  pwrite (set_exit_code code) cur ;;
  pwrite (set_p_state PROCESS_DEAD) cur ;;
  schedule c.
Definition kernel_thread_exit (c : cpu) : K cpu := die 0 c.

(** [mlfq_on_tick] (scheduler.c), up to its call of [schedule]: [true] when the
    scheduler is called. *)
Definition tick : M sched bool :=
  t <- gets global_ticks ;;
  modify (set_global_ticks (u32 (t + 1))) ;;
  cur <- gets current_process ;;
  idle <- gets idle_process ;;
  if PRIORITY_BOOST_INTERVAL <=? u32 (t + 1) then
    modify (set_global_ticks 0) ;;
    mlfq_boost_all ;;
    (if negb (cur =? 0) && negb (cur =? idle) then
       pset (set_priority 0) cur ;; pset (set_ticks_executed 0) cur
     else ret tt) ;;
    ret true
  else if cur =? 0 then ret false
  else
    st <- pget p_state cur ;;
    if negb (bool_decide (st = PROCESS_RUNNING)) then ret false else
    n <- pget ticks_executed cur ;;
    pset (set_ticks_executed (u32 (n + 1))) cur ;;
    pr <- pget priority cur ;;
    q <- qget pr ;;
    if q_quantum q <=? u32 (n + 1) then
      (if pr <? Z.of_nat NUM_QUEUES - 1 then pset (set_priority (pr + 1)) cur else ret tt) ;;
      pset (set_ticks_executed 0) cur ;;
      ret true
    else ret false.
Definition mlfq_on_tick (c : cpu) : K cpu :=
  b <- in_sched tick ;;
  if b : bool then schedule c else ret c.

(** The timer interrupt (timer.c). *)
Definition on_irq0 (c : cpu) : K cpu :=
  modify (fun k => set_k_ticks (u64 (k_ticks k + 1)) k) ;;
  mlfq_on_tick c.
End process.
