(* ===== verification/Schedule.v ===== *)
(** * The scheduler's theorems

    What [schedule] and the timer tick do to the kernel: the process that runs
    next, the processor it runs with, and what is kept of the one that gives way. *)

From S2P Require Import Prelude Mem FrameAlloc Pmm Vmm AddressSpace Switch Proc Queues Mlfq Wait Keyboard Mouse Heap ProcRing Kernel Process.

(** ** Updates the scheduler does not see *)

Definition sched_part (r : process) : Z * Z * Z * Z * Z * process_state :=
  (p_next r, p_prev r, priority r, queue_next r, queue_prev r, p_state r).
Definition neutral (g : process -> process) : Prop := forall r, sched_part (g r) = sched_part r.

Lemma neutral_mlfq s ls g p : neutral g -> mlfq_wf s ls -> mlfq_wf (set_procs (alter g p (procs s)) s) ls.
Proof.
  intros Hg (H1 & H2 & H3). split; [done|]. split; [done|]. intros j l Hj. destruct (H3 j l Hj) as [(q & ? & ? & ? & ? & Hl) Hm].
  split.
  - exists q. split_and!; try done. apply linked_alter; [right|done]. intros r. by injection (Hg r) as ? ? ? -> -> ?.
  - intros a Ha. destruct (Hm a Ha) as (r & Hr & Hp & Hs). destruct (decide (p = a)) as [->|].
    + exists (g r). cbn. rewrite lookup_alter_eq, Hr. injection (Hg r) as ? ? E ? ? E'. split_and!; [done|congruence|congruence].
    + exists r. cbn. by rewrite lookup_alter_ne.
Qed.

Lemma neutral_sched_ok s l ls g p : neutral g -> sched_ok s l ls -> sched_ok (set_procs (alter g p (procs s)) s) l ls.
Proof.
  intros Hg [H1 H2 H3 H4 H5 H6 H7].
  assert (E : links_same (procs s) (alter g p (procs s))).
  { unfold links_same. apply map_eq. intros c. rewrite !lookup_fmap. destruct (decide (p = c)) as [->|].
    - rewrite lookup_alter_eq. destruct (procs s !! c) as [r|]; [|done]. cbn. f_equal. unfold plinks.
      by injection (Hg r) as -> -> -> ? ? ?.
    - by rewrite lookup_alter_ne. }
  split; try done.
  - by eapply links_same_ring.
  - by apply neutral_mlfq.
  - by eapply links_same_prio.
  - cbn. unfold state_of in *. destruct (decide (p = idle_process s)) as [->|].
    + rewrite lookup_alter_eq. destruct (procs s !! idle_process s) as [r|]; [|done]. cbn in *.
      injection (Hg r) as ? ? ? ? ? E'. congruence.
    + by rewrite lookup_alter_ne.
Qed.

(** ** Nothing to reap *)

Section kernel.
Context {S H : Type} `{FA : FrameAlloc S} `{HeapOps H} (hhdm_offset : Z).
Implicit Types (k : kernel S H).

(** No dead process without a parent, but for the current one. *)
Definition no_orphans (s : sched) (l : list Z) : Prop :=
  forall a r, a ∈ l -> procs s !! a = Some r -> a <> current_process s -> p_state r = PROCESS_DEAD -> parent r <> 0.

Lemma wp_reap_none k kcr3 h : forall suf,
  no_orphans (k_sched k) suf -> edges (procs (k_sched k)) (suf ++ [h]) ->
  wp (reap_loop hhdm_offset kcr3 (hd0 (suf ++ [h])) (length suf)) (fun _ k' => k' = k) k.
Proof.
  induction suf as [|a suf IH]; intros Hno He; cbn [length reap_loop]; [by wp_steps|].
  rewrite hd0_snoc_ne. destruct (edges_step _ _ _ _ He) as (He' & r & Ha & Hn). wp_steps.
  eapply wp_pread; [exact Ha|]. cbv beta. rewrite Hn. wp_steps. eapply wp_pread; [exact Ha|]. cbv beta. wp_steps.
  unfold get_current. wp_steps. eapply wp_pread; [exact Ha|]. cbv beta.
  assert (E : negb (bool_decide (p_state r = PROCESS_DEAD)) || (a =? current_process (k_sched k)) || negb (parent r =? 0) = true).
  { destruct (bool_decide_reflect (p_state r = PROCESS_DEAD)) as [Hd|]; [|done]. cbn [negb orb].
    destruct (Z.eqb_spec a (current_process (k_sched k))); [done|]. cbn [orb].
    destruct (Z.eqb_spec (parent r) 0) as [E|]; [|done]. exfalso. revert E. eapply Hno; try done. apply list_elem_of_here. }
  rewrite E. apply IH; [|done]. intros b rb Hb. apply Hno. by apply list_elem_of_further.
Qed.

Lemma wp_reap_zombies_none k l :
  ring (k_sched k) l -> no_orphans (k_sched k) l -> wp (reap_zombies hhdm_offset) (fun _ k' => k' = k) k.
Proof.
  intros Hr Hno. pose proof Hr as [Hne Hq Hnd Hz He]. unfold reap_zombies, kernel_cr3. wp_steps. rewrite Hq.
  destruct (Z.eqb_spec (hd0 l) 0) as [E|_]; [destruct l; [done|]; rewrite <- E in Hz; destruct Hz; apply list_elem_of_here|].
  wp_steps. apply wp_in_sched. eapply wp_mono; [by apply (wp_ring_count (k_sched k) l)|]. intros n s' [-> ->]. cbv beta.
  assert (Ek : set_k_sched (k_sched k) k = k) by (by destruct k). rewrite Ek.
  replace (hd0 l) with (hd0 (l ++ [hd0 l])) by (by destruct l). by apply wp_reap_none.
Qed.

(** ** The choice and the switch *)

(** Fields other than the state and the ready-queue links survive the choice. *)
Lemma readied_field {A} (f : process -> A) m self l :
  (forall v r, f (set_p_state v r) = f r) -> forall t a, f <$> readied m self l t !! a = f <$> t !! a.
Proof.
  intros Hf. unfold readied. induction l as [|b l IH]; intros t a; [done|]. cbn [foldl]. rewrite IH.
  destruct (wakes m self b); [|done]. destruct (decide (b = a)) as [->|].
  - rewrite lookup_alter_eq. destruct (t !! a) as [r|]; [|done]. cbn. by rewrite Hf.
  - by rewrite lookup_alter_ne.
Qed.
Lemma alter_field {A} (f : process -> A) g (t : gmap Z process) b a :
  (forall r, f (g r) = f r) -> f <$> alter g b t !! a = f <$> t !! a.
Proof.
  intros Hf. destruct (decide (b = a)) as [->|].
  - rewrite lookup_alter_eq. destruct (t !! a) as [r|]; [|done]. cbn. by rewrite Hf.
  - by rewrite lookup_alter_ne.
Qed.
Lemma chosen_field {A} (f : process -> A) s l ls (m : gmap Z process) a :
  (forall r, f (qstrip r) = f r) -> (forall v r, f (set_p_state v r) = f r) ->
  qstrip <$> m = chosen_table s l ls -> f <$> m !! a = f <$> procs s !! a.
Proof.
  intros Hq Hs E.
  assert (Hm : forall t : gmap Z process, f <$> (qstrip <$> t) !! a = f <$> t !! a).
  { intros t. rewrite lookup_fmap. destruct (t !! a) as [r|]; [|done]. cbn. by rewrite Hq. }
  rewrite <- Hm, E, <- (Hm (procs s)). unfold chosen_table. cbv zeta.
  destruct (requeued s), (_ =? _); rewrite ?alter_field by done; by apply readied_field.
Qed.

Lemma wp_on_machine c op (Q : cpu -> kernel S H -> Prop) k :
  wp op (fun _ m => Q (mkCpu (m_regs m) (m_rsp m) (m_rip m))
      (set_k_cr3 (m_cr3 m) (set_k_sched (m_sched m) (set_k_vm (set_mem (m_mem m) (k_vm k)) k))))
    (mkMach (cpu_regs c) (cpu_rsp c) (cpu_rip c) (k_cr3 k) (vm_mem (k_vm k)) (k_sched k)) ->
  wp (on_machine c op) Q k.
Proof. unfold wp, on_machine. by destruct (op _) as [[[] ?]|]. Qed.

(** The frame a suspended process continues from, apart from the running stack. *)
Definition suspended (m : memory) (c : cpu) (r : process) (regs : callee) (ra : Z) : Prop :=
  frame_ok (p_rsp r) /\ words_at m (p_rsp r) (frame_words regs ra) /\
  (p_rsp r + 64 <= cpu_rsp c - 56 \/ cpu_rsp c <= p_rsp r).

(** What a switch keeps of every process. *)
Definition switch_keeps {A} (f : process -> A) : Prop :=
  (forall r, f (qstrip r) = f r) /\ (forall v r, f (set_p_state v r) = f r) /\ (forall v r, f (set_p_rsp v r) = f r).

Lemma chosen_dead s l ls (m : gmap Z process) a : qstrip <$> m = chosen_table s l ls ->
  state_of (procs s) a = Some PROCESS_DEAD -> a <> next_proc s l ls -> state_of m a = Some PROCESS_DEAD.
Proof.
  intros Htab Hst Hn.
  assert (Ht : qstrip <$> m !! a = qstrip <$> procs s !! a).
  { rewrite <- !lookup_fmap, Htab. unfold chosen_table. cbv zeta.
    assert (Hr : readied (procs s) (current_process s) l (qstrip <$> procs s) !! a = (qstrip <$> procs s) !! a).
    { apply readied_other. unfold wakes. rewrite Hst. by rewrite andb_false_r. }
    assert (Hq : requeued s = true -> current_process s <> a).
    { unfold requeued. intros [Hq _]%andb_true_iff E. rewrite E, Hst in Hq. by apply bool_decide_eq_true in Hq. }
    destruct (requeued s), (_ =? _); rewrite ?lookup_alter_ne by auto; done. }
  unfold state_of in *. destruct (procs s !! a) as [r0|], (m !! a) as [r1|]; try done. cbn in *.
  apply (inj Some) in Ht. rewrite <- Hst. f_equal. exact (f_equal p_state Ht).
Qed.

Lemma wp_schedule_locked k l ls c rn regs ra :
  sched_ok (k_sched k) l ls -> no_orphans (k_sched k) l -> current_process (k_sched k) <> 0 ->
  procs (k_sched k) !! next_proc (k_sched k) l ls = Some rn ->
  56 <= cpu_rsp c < 18446744073709551608 -> regs_ok (cpu_regs c) ->
  (next_proc (k_sched k) l ls <> current_process (k_sched k) -> suspended (vm_mem (k_vm k)) c rn regs ra) ->
  wp (schedule_locked hhdm_offset c) (fun o k' =>
    sched_ok (k_sched k') l (snd (pick (ready_lists (k_sched k) l ls))) /\
    current_process (k_sched k') = next_proc (k_sched k) l ls /\
    (forall A (f : process -> A), switch_keeps f -> forall a, f <$> procs (k_sched k') !! a = f <$> procs (k_sched k) !! a) /\
    (forall a, state_of (procs (k_sched k)) a = Some PROCESS_DEAD -> a <> next_proc (k_sched k) l ls -> state_of (procs (k_sched k')) a = Some PROCESS_DEAD) /\
    k_fb_owner k' = k_fb_owner k /\
    if next_proc (k_sched k) l ls =? current_process (k_sched k)
    then o = None /\ k_vm k' = k_vm k /\ k_cr3 k' = k_cr3 k
    else o = Some (mkCpu regs (p_rsp rn + 64) ra) /\ k_cr3 k' = p_cr3 rn /\
      (kernel_stack rn <> 0 -> k_rsp0 k' = u64 (kernel_stack rn + PAGE_SIZE)) /\
      p_rsp <$> procs (k_sched k') !! current_process (k_sched k) = Some (cpu_rsp c - 56) /\
      words_at (vm_mem (k_vm k')) (cpu_rsp c - 56)
        (frame_words (cpu_regs c) (load64 (vm_mem (k_vm k)) (cpu_rsp c)))) k.
Proof.
  intros Hok Hno Hc0 Hrn Hsp Hregs Hsus. set (next := next_proc (k_sched k) l ls) in *.
  unfold schedule_locked, get_current. wp_steps.
  destruct (Z.eqb_spec (current_process (k_sched k)) 0) as [|_]; [done|]. wp_step.
  eapply wp_mono; [by apply (wp_reap_zombies_none k l); [apply Hok|]|]. intros [] k' ->. wp_step.
  apply wp_in_sched. eapply wp_mono; [by apply (wp_choose_next (k_sched k) l ls)|].
  intros r s' (Hok' & Hcur & -> & Htab & _). cbv beta. fold next in Hcur |- *.
  assert (Hk : forall A (f : process -> A), switch_keeps f -> forall a, f <$> procs s' !! a = f <$> procs (k_sched k) !! a).
  { intros A f (Hf1 & Hf2 & _) a. by apply (chosen_field f (k_sched k) l ls). }
  assert (Hdead : forall a, state_of (procs (k_sched k)) a = Some PROCESS_DEAD -> a <> next -> state_of (procs s') a = Some PROCESS_DEAD).
  { intros a. by apply (chosen_dead (k_sched k) l ls). }
  rewrite Z.eqb_sym. destruct (Z.eqb_spec next (current_process (k_sched k))) as [E|E].
  { wp_steps. cbn. split_and!; done. }
  destruct (Hsus E) as (Hf & Hw & Hd).
  assert (Hfield : forall f : process -> Z, (forall r, f (qstrip r) = f r) -> (forall v r, f (set_p_state v r) = f r) ->
    f <$> procs s' !! next = Some (f rn)).
  { intros f Hf1 Hf2. rewrite (chosen_field f (k_sched k) l ls _ next Hf1 Hf2 Htab). by rewrite Hrn. }
  pose proof (Hfield p_rsp ltac:(done) ltac:(done)) as E1. pose proof (Hfield p_cr3 ltac:(done) ltac:(done)) as E2.
  pose proof (Hfield kernel_stack ltac:(done) ltac:(done)) as E3. clear Hfield.
  destruct (procs s' !! next) as [rn'|] eqn:Hrn'; [|done]. cbn in E1, E2, E3. injection E1 as E1. injection E2 as E2. injection E3 as E3.
  destruct (ring_member s' l (current_process (k_sched k)) (so_ring _ _ _ Hok') (so_current _ _ _ Hok)) as (_ & rp & Hrp).
  wp_step. eapply wp_pread; [exact Hrn'|]. cbv beta. wp_step.
  set (k1 := set_k_sched s' k).
  assert (Hk1 : wp (if kernel_stack rn' =? 0 then ret tt else modify (set_k_rsp0 (u64 (kernel_stack rn' + PAGE_SIZE))))
    (fun _ k2 => k_sched k2 = s' /\ k_vm k2 = k_vm k /\ k_fb_owner k2 = k_fb_owner k /\
      (kernel_stack rn <> 0 -> k_rsp0 k2 = u64 (kernel_stack rn + PAGE_SIZE))) k1).
  { rewrite E3. destruct (Z.eqb_spec (kernel_stack rn) 0); by wp_steps. }
  eapply wp_mono; [exact Hk1|]. intros [] k2 (Hs2 & Hv2 & Hf2 & Hr2). wp_step. apply wp_on_machine. rewrite Hs2, Hv2.
  eapply wp_mono; [apply (wp_switch_task _ _ next rp rn' regs ra); cbn [m_regs m_rsp m_mem m_sched]; rewrite ?E1; try done|].
  intros [] m ->. wp_steps. cbn [m_regs m_rsp m_rip m_cr3 m_sched m_mem switched k_sched k_cr3 k_vm k_rsp0 set_k_cr3 set_k_sched set_k_vm].
  rewrite E1, E2. split; [by apply neutral_sched_ok|]. split; [done|].
  split; [intros A f Hkf a; rewrite <- (Hk A f Hkf a); cbn [procs set_procs]; apply alter_field; intros; apply Hkf|].
  split; [intros a Ha Hne; rewrite <- (Hdead a Ha Hne); unfold state_of; cbn [procs set_procs]; by apply alter_field|].
  split; [done|]. split; [done|]. split; [done|]. split; [done|].
  cbn [procs set_procs]. rewrite lookup_alter_eq, Hrp. split; [done|].
  exact (switched_frame (mkMach (cpu_regs c) (cpu_rsp c) (cpu_rip c) (k_cr3 k2) (vm_mem (k_vm k)) s')
    (current_process (k_sched k)) rn' regs ra ltac:(done)).
Qed.

End kernel.

(** ** A process that is chosen twice in a row *)

(** A process that is marked ready and is in no ready list. *)
Record stray (s : sched) (ls : list (list Z)) (p : Z) : Prop := {
  st_ready : state_of (procs s) p = Some PROCESS_READY;
  st_lists : forall l, l ∈ ls -> p ∉ l;
  st_idle : p <> idle_process s;
  st_zero : p <> 0;
}.

Lemma enq_elem (ls : list (list Z)) j q l p : l ∈ enq ls j q -> p ∈ l -> p = q \/ exists l', l' ∈ ls /\ p ∈ l'.
Proof.
  unfold enq. intros [i Hi]%list_elem_of_lookup Hp. destruct (decide (i = j)) as [->|].
  - rewrite list_lookup_alter_eq in Hi. destruct (ls !! j) as [l0|] eqn:E; [|done]. injection Hi as <-.
    apply elem_of_app in Hp as [Hp| ->%list_elem_of_singleton]; [right|by left]. exists l0. split; [by eapply list_elem_of_lookup_2|done].
  - rewrite list_lookup_alter_ne in Hi by done. right. exists l. split; [by eapply list_elem_of_lookup_2|done].
Qed.
Lemma awake_elem m self l' p : forall ls l, l ∈ awake m self l' ls -> p ∈ l ->
  (exists l0, l0 ∈ ls /\ p ∈ l0) \/ wakes m self p = true.
Proof.
  unfold awake. induction l' as [|a l' IH]; intros ls l Hl Hp; cbn [foldl] in Hl; [eauto|].
  destruct (IH _ _ Hl Hp) as [(l0 & Hl0 & Hp0)|?]; [|by right]. destruct (wakes m self a) eqn:E; [|eauto].
  destruct (enq_elem _ _ _ _ _ Hl0 Hp0) as [->|?]; [by right|by left].
Qed.

(** A process that is neither running nor blocked and in no ready list stays out. *)
Lemma out_lists s l ls p : state_of (procs s) p <> Some PROCESS_RUNNING -> state_of (procs s) p <> Some PROCESS_BLOCKED ->
  (forall l, l ∈ ls -> p ∉ l) -> forall l', l' ∈ ready_lists s l ls -> p ∉ l'.
Proof.
  intros Hst Hst' Hls l' Hl' Hp.
  assert (Ha : forall l0, l0 ∈ awake (procs s) (current_process s) l ls -> p ∉ l0).
  { intros l0 Hl0 Hp0. destruct (awake_elem _ _ _ _ _ _ Hl0 Hp0) as [(l1 & ? & ?)|Hw]; [by apply (Hls l1)|].
    unfold wakes in Hw. apply andb_true_iff in Hw as [_ Hw]. by apply bool_decide_eq_true in Hw. }
  unfold ready_lists in Hl'. cbv zeta in Hl'. destruct (requeued s) eqn:Hr; [|by apply (Ha l')].
  destruct (enq_elem _ _ _ _ _ Hl' Hp) as [->|(l0 & ? & ?)]; [|by apply (Ha l0)].
  unfold requeued in Hr. apply andb_true_iff in Hr as [Hr _]. by apply bool_decide_eq_true in Hr.
Qed.
Lemma out_next s l ls p : (forall l', l' ∈ ready_lists s l ls -> p ∉ l') -> p <> idle_process s -> next_proc s l ls <> p.
Proof.
  intros Hno Hi. unfold next_proc. cbv zeta.
  destruct (pick_cases (ready_lists s l ls)) as [[-> _]|(i & q & l0 & Hi' & ->)]; cbn [fst]; [done|].
  destruct (q =? 0); [done|]. intros ->. eapply (Hno (p :: l0)); [by eapply list_elem_of_lookup_2|apply list_elem_of_here].
Qed.
Lemma stray_lists s l ls p : stray s ls p -> forall l', l' ∈ ready_lists s l ls -> p ∉ l'.
Proof. intros [Hst Hls _ _]. apply out_lists; by rewrite ?Hst. Qed.
Lemma stray_next s l ls p : stray s ls p -> next_proc s l ls <> p.
Proof. intros Hs. apply out_next; [by apply stray_lists|apply Hs]. Qed.
Lemma pick_subset ls l p : l ∈ snd (pick ls) -> p ∈ l -> exists l', l' ∈ ls /\ p ∈ l'.
Proof.
  intros Hl Hp. destruct (pick_cases ls) as [[_ E]|(i & q & l0 & Hi & E)]; rewrite E in Hl; [eauto|]. cbn in Hl.
  apply list_elem_of_lookup in Hl as [j Hj]. apply list_lookup_insert_Some in Hj as [(-> & <- & _)|[_ Hj]].
  - exists (q :: l0). split; [by eapply list_elem_of_lookup_2|by apply list_elem_of_further].
  - exists l. split; [by eapply list_elem_of_lookup_2|done].
Qed.

(** Once stray, always stray, and never chosen. *)
Lemma wp_stray s l ls p :
  sched_ok s l ls -> stray s ls p ->
  wp choose_next (fun _ s' => exists ls', sched_ok s' l ls' /\ stray s' ls' p /\ current_process s' <> p) s.
Proof.
  intros Hok Hs. pose proof (stray_next s l ls p Hs) as Hn. pose proof (stray_lists s l ls p Hs) as Hl.
  eapply wp_mono; [by apply (wp_choose_next s l ls)|]. intros r s' (Hok' & Hc & _ & Htab & _ & Ei & _).
  exists (snd (pick (ready_lists s l ls))). split; [done|]. split; [|by rewrite Hc]. destruct Hs as [Hst Hls Hi Hz].
  assert (Ht : qstrip <$> procs s' !! p = qstrip <$> procs s !! p).
  { rewrite <- !lookup_fmap, Htab. unfold chosen_table. cbv zeta.
    assert (Hr : readied (procs s) (current_process s) l (qstrip <$> procs s) !! p = (qstrip <$> procs s) !! p).
    { apply readied_other. unfold wakes. rewrite Hst. by rewrite andb_false_r. }
    assert (Hq : requeued s = true -> current_process s <> p).
    { unfold requeued. intros [Hq _]%andb_true_iff E. rewrite E, Hst in Hq. by apply bool_decide_eq_true in Hq. }
    destruct (requeued s), (_ =? _); rewrite ?lookup_alter_ne by auto; done. }
  split; [|intros l' Hl' Hp|..].
  - unfold state_of in *. destruct (procs s !! p) as [r0|], (procs s' !! p) as [r1|]; try done. cbn in *.
    apply (inj Some) in Ht. rewrite <- Hst. f_equal. exact (f_equal p_state Ht).
  - destruct (pick_subset _ _ _ Hl' Hp) as (l0 & ? & ?). by apply (Hl l0).
  - by rewrite Ei.
  - done.
Qed.

(** C40: A process that is chosen again by the call that took the processor away is
    lost: the call leaves it running, but marked ready and in no ready list, so
    that the next call of [schedule] switches away from it and no later one ever
    chooses it again. *)
Theorem schedule_loses_process s l ls :
  sched_ok s l ls -> requeued s = true -> next_proc s l ls = current_process s ->
  wp choose_next (fun r s1 => r = None /\ current_process s1 = current_process s /\
    exists ls1, sched_ok s1 l ls1 /\ stray s1 ls1 (current_process s)) s /\
  forall s2 ls2 p, sched_ok s2 l ls2 -> stray s2 ls2 p ->
    wp choose_next (fun _ s3 => current_process s3 <> p /\ exists ls3, sched_ok s3 l ls3 /\ stray s3 ls3 p) s2.
Proof.
  intros Hok Hrq Hn. split.
  - eapply wp_mono; [by apply (wp_choose_next s l ls)|]. intros r s' (Hok' & Hc & -> & Htab & Hno & Ei & _).
    rewrite Hn in *. rewrite Z.eqb_refl. split; [done|]. split; [done|]. exists (snd (pick (ready_lists s l ls))).
    split; [done|]. unfold requeued in Hrq. apply andb_true_iff in Hrq as [Hrun Hidle].
    destruct (ring_member s l _ (so_ring _ _ _ Hok) (so_current _ _ _ Hok)) as (Hz & r & Hr).
    split; [|done| |done].
    + rewrite <- state_of_qstrip, Htab. unfold chosen_table, requeued. cbv zeta. rewrite Hrun, Hidle, Hn, Z.eqb_refl. cbn [andb].
      unfold state_of. rewrite lookup_alter_eq, readied_other by apply wakes_self. by rewrite lookup_fmap, Hr.
    + rewrite Ei. intros E. rewrite E, Z.eqb_refl in Hidle. done.
  - intros s2 ls2 p Hok2 Hs2. eapply wp_mono; [by apply (wp_stray s2 l ls2 p)|]. intros r s3 (ls3 & ? & ? & ?). eauto.
Qed.

(** ** The timer tick *)

Lemma mlfq_wf_unqueued s ls g p : (forall r, queue_next (g r) = queue_next r /\ queue_prev (g r) = queue_prev r) ->
  (forall l, l ∈ ls -> p ∉ l) -> mlfq_wf s ls -> mlfq_wf (set_procs (alter g p (procs s)) s) ls.
Proof.
  intros Hg Hp (H1 & H2 & H3). split; [done|]. split; [done|]. intros j l Hj.
  destruct (H3 j l Hj) as [(q & ? & ? & ? & ? & Hl) Hm]. apply list_elem_of_lookup_2 in Hj. split.
  - exists q. split_and!; try done. apply linked_alter; [by right|done].
  - intros a Ha. destruct (Hm a Ha) as (r & Hr & ?). exists r. cbn. rewrite lookup_alter_ne; [done|].
    intros <-. by apply (Hp l).
Qed.

Lemma boosted_all_other l (m : gmap Z process) a : a ∉ l -> boosted_all l m !! a = m !! a.
Proof.
  revert m. induction l as [|b l IH]; intros m Ha; [done|]. apply not_elem_of_cons in Ha as [Hne Ha].
  unfold boosted_all in *. cbn [foldl]. rewrite IH by done. by rewrite lookup_alter_ne.
Qed.

Lemma alter_known {A} (g : A -> A) (m : gmap Z A) p r : m !! p = Some r -> alter g p m = <[p := g r]> m.
Proof.
  intros Hr. apply map_eq. intros a. destruct (decide (p = a)) as [->|].
  - by rewrite lookup_alter_eq, lookup_insert_eq, Hr.
  - by rewrite lookup_alter_ne, lookup_insert_ne.
Qed.

(** A tick charged to the running process: at the end of its quantum [q] it moves
    one queue down and starts a new quantum. *)
Definition ticked (q : Z) (r : process) : process :=
  if q <=? ticks_executed r + 1
  then set_ticks_executed 0 (if priority r <? 3 then set_priority (priority r + 1) r else r)
  else set_ticks_executed (ticks_executed r + 1) r.

Lemma wp_tick_charge s ls rc :
  let c := current_process s in
  mlfq_wf s ls -> 0 <= global_ticks s < PRIORITY_BOOST_INTERVAL - 1 -> c <> 0 ->
  procs s !! c = Some rc -> p_state rc = PROCESS_RUNNING -> 0 <= priority rc < 4 -> 0 <= ticks_executed rc < 4294967295 ->
  let q := 2 * (priority rc + 1) in
  wp tick (fun b s' => b = (q <=? ticks_executed rc + 1) /\
    s' = set_global_ticks (global_ticks s + 1) (set_procs (alter (ticked q) c (procs s)) s)) s.
Proof.
  intros c (_ & Hlen & Hq) Ht Hc Hr Hst Hpr Hn q. unfold PRIORITY_BOOST_INTERVAL in Ht.
  destruct (ready_list ls (Z.to_nat (priority rc))) as [l Hl]; [done|lia|].
  destruct (Hq _ l Hl) as [(qe & Hqe & _ & _ & Hqu & _) _].
  assert (Eq : q_quantum qe = q) by (unfold q; lia).
  assert (Et : u32 (global_ticks s + 1) = global_ticks s + 1) by (apply u32_small; lia).
  assert (En : u32 (ticks_executed rc + 1) = ticks_executed rc + 1) by (apply u32_small; lia).
  rewrite (alter_known _ _ _ rc Hr). unfold tick, PRIORITY_BOOST_INTERVAL. wp_steps. rewrite Et.
  destruct (Z.leb_spec 100 (global_ticks s + 1)); [lia|].
  cbn [current_process set_global_ticks]. fold c. destruct (Z.eqb_spec c 0); [done|]. wp_step.
  eapply wp_pget; [exact Hr|]. rewrite Hst. rewrite bool_decide_true by done. cbn [negb]. wp_step.
  eapply wp_pget; [exact Hr|]. wp_step. eapply wp_pset; [exact Hr|]. rewrite En. cbn [procs set_global_ticks].
  rewrite (alter_known _ _ _ rc Hr). wp_step.
  eapply wp_pget; [apply lookup_insert_eq|]. wp_step. cbn [priority set_ticks_executed].
  eapply wp_qget; [lia|exact Hqe|]. rewrite Eq. unfold ticked. destruct (Z.leb_spec q (ticks_executed rc + 1)) as [Hle|Hlt].
  - change (Z.of_nat NUM_QUEUES - 1) with 3. destruct (priority rc <? 3).
    all: repeat (wp_step; try (eapply wp_pset; [apply lookup_insert_eq|]; cbn [procs set_procs];
      rewrite (alter_known _ _ _ _ (lookup_insert_eq _ _ _)), insert_insert_eq)); done.
  - wp_step. done.
Qed.

Lemma wp_tick_boost s ls rc :
  let c := current_process s in
  mlfq_wf s ls -> global_ticks s = PRIORITY_BOOST_INTERVAL - 1 -> c <> 0 -> procs s !! c = Some rc -> p_state rc = PROCESS_RUNNING ->
  wp tick (fun b s' => b = true /\ global_ticks s' = 0 /\ mlfq_wf s' (boost ls) /\ current_process s' = c /\
    exists rc', procs s' !! c = Some rc' /\
      qstrip rc' = qstrip (if c =? idle_process s then rc else set_ticks_executed 0 (set_priority 0 rc))) s.
Proof.
  intros c Hwf Ht Hc Hr Hst.
  assert (Hno : forall l, l ∈ ls -> c ∉ l) by (eapply not_queued; [done|exact Hr|by rewrite Hst]).
  pose proof Hwf as (_ & Hlen & _). destruct ls as [|l0 [|l1 [|l2 [|l3 [|]]]]]; try discriminate Hlen.
  assert (Hc123 : c ∉ l1 ++ l2 ++ l3) by (rewrite !elem_of_app; intros [Hi|[Hi|Hi]]; revert Hi; apply Hno; rewrite !elem_of_cons; tauto).
  unfold tick. wp_steps. rewrite Ht. change (PRIORITY_BOOST_INTERVAL <=? u32 (PRIORITY_BOOST_INTERVAL - 1 + 1)) with true.
  cbv iota. wp_steps. eapply wp_mono; [apply (wp_mlfq_boost_all _ l0 l1 l2 l3); exact Hwf|]. intros [] s1 (Hwf1 & Ho & Hs).
  assert (Ec : exists rc1, procs s1 !! c = Some rc1 /\ qstrip rc1 = qstrip rc).
  { apply (f_equal (fun m : gmap Z process => m !! c)) in Hs. rewrite boosted_all_other, !lookup_fmap in Hs by done.
    cbn [procs set_global_ticks] in Hs. rewrite Hr in Hs. destruct (procs s1 !! c) as [rc1|]; [|done].
    exists rc1. split; [done|]. by apply (inj Some). }
  destruct Ec as (rc1 & Hr1 & E1). assert (Hg : global_ticks s1 = 0 /\ current_process s1 = c) by (rewrite Ho; done).
  cbn [current_process idle_process set_global_ticks]. fold c. destruct (Z.eqb_spec c 0); [done|]. cbn [negb andb].
  destruct (c =? idle_process s); cbn [negb]; wp_steps.
  { split_and!; try apply Hg; try done. by exists rc1. }
  eapply wp_pset; [exact Hr1|]. eapply wp_pset; [cbn; by rewrite lookup_alter_eq, Hr1|]. wp_steps.
  split; [done|]. split; [apply Hg|]. split; [|split; [apply Hg|]].
  - assert (Hno1 : forall l, l ∈ boost [l0; l1; l2; l3] -> c ∉ l).
    { eapply not_queued; [done|exact Hr1|]. change (p_state rc1) with (p_state (qstrip rc1)). rewrite E1. change (p_state rc <> PROCESS_READY). by rewrite Hst. }
    apply (mlfq_wf_unqueued (set_procs (alter (set_priority 0) c (procs s1)) s1)); [done|done|].
    by apply mlfq_wf_unqueued.
  - exists (set_ticks_executed 0 (set_priority 0 rc1)). cbn. rewrite !lookup_alter_eq, Hr1. split; [done|].
    change (set_ticks_executed 0 (set_priority 0 (qstrip rc1)) = set_ticks_executed 0 (set_priority 0 (qstrip rc))). by rewrite E1.
Qed.

(** A timer tick charges the running process: when it has used the quantum of
    its queue (2, 4, 6 or 8 ticks) it moves one queue down and the scheduler is
    called. Every hundredth tick moves all ready processes, in order, to the first
    queue and resets the running process, so no process starves in a lower queue. *)
Theorem tick_correct s ls rc :
  let c := current_process s in
  let q := 2 * (priority rc + 1) in
  mlfq_wf s ls -> 0 <= global_ticks s < PRIORITY_BOOST_INTERVAL -> c <> 0 ->
  procs s !! c = Some rc -> p_state rc = PROCESS_RUNNING -> 0 <= priority rc < 4 -> 0 <= ticks_executed rc < 4294967295 ->
  wp tick (fun b s' => current_process s' = c /\
    if global_ticks s =? PRIORITY_BOOST_INTERVAL - 1
    then b = true /\ global_ticks s' = 0 /\ mlfq_wf s' (boost ls) /\
      exists rc', procs s' !! c = Some rc' /\
        qstrip rc' = qstrip (if c =? idle_process s then rc else set_ticks_executed 0 (set_priority 0 rc))
    else b = (q <=? ticks_executed rc + 1) /\ mlfq_wf s' ls /\
      s' = set_global_ticks (global_ticks s + 1) (set_procs (alter (ticked q) c (procs s)) s)) s.
Proof.
  intros c q Hwf Ht Hc Hr Hst Hpr Hn. destruct (Z.eqb_spec (global_ticks s) (PRIORITY_BOOST_INTERVAL - 1)) as [E|E].
  - eapply wp_mono; [by apply (wp_tick_boost s ls rc)|]. intros b s' (? & ? & ? & ? & ?). by split_and!.
  - eapply wp_mono; [apply (wp_tick_charge s ls rc); try done; lia|]. intros b s' [Hb ->]. split_and!; try done.
    apply (mlfq_wf_unqueued s); [|eapply not_queued; [done|exact Hr|by rewrite Hst]|done].
    intros r. unfold ticked. by repeat case_match.
Qed.

(** ** Instances *)

(** The idle process 1, the running process 2 and the process 3, which is ready
    with the highest priority or waits for the keyboard. *)
Definition ring_proc (st : process_state) (pr next prev : Z) : process :=
  set_p_next next (set_p_prev prev (set_priority pr (set_p_state st proc_zero))).
Definition demo_third (ready : bool) : process :=
  set_kernel_stack 16384 (set_p_cr3 12288 (set_p_rsp 8192
    (ring_proc (if ready then PROCESS_READY else PROCESS_BLOCKED_KBD) 0 1 2))).
Definition demo_ring_sched (ready : bool) : sched :=
  mkSched (<[1 := ring_proc PROCESS_RUNNING 3 2 3]> (<[2 := ring_proc PROCESS_RUNNING 1 3 1]>
      (<[3 := demo_third ready]> ∅))) 1 2 1 4
    [(if ready then mkQueue 3 3 2 else mkQueue 0 0 2); mkQueue 0 0 4; mkQueue 0 0 6; mkQueue 0 0 8] 0.
Definition demo_lists (ready : bool) : list (list Z) := [(if ready then [3] else []); []; []; []].

Lemma demo_ring_ok ready : sched_ok (demo_ring_sched ready) [1; 2; 3] (demo_lists ready).
Proof.
  assert (Hn : NoDup [1; 2; 3]) by (apply (bool_decide_unpack _); vm_compute; exact I).
  assert (Hq : forall j q, q_head q = 0 -> q_tail q = 0 -> mlfq (demo_ring_sched ready) !! j = Some q ->
    q_quantum q = 2 * (Z.of_nat j + 1) -> queue_ok (demo_ring_sched ready) j [] /\ members (demo_ring_sched ready) j []).
  { intros j q H1 H2 H3 H4. split; [exists q; split_and!; try done; apply linked_nil|]. intros a Ha. by apply not_elem_of_nil in Ha. }
  split.
  - split; [done|done|done|apply (bool_decide_unpack _); vm_compute; exact I|].
    cbn. split_and!; [eexists _, _; split_and!; reflexivity..|done].
  - split; [done|]. split; [done|]. intros j l Hj. destruct j as [|[|[|[|j]]]].
    + destruct ready; cbn in Hj; injection Hj as <-; [|by apply (Hq 0%nat (mkQueue 0 0 2))]. split.
      * exists (mkQueue 3 3 2). split_and!; try done. by apply (linked_singleton _ _ _ 3 (demo_third true)).
      * intros a ->%list_elem_of_singleton. by exists (demo_third true).
    + injection Hj as <-. by apply (Hq 1%nat (mkQueue 0 0 4)).
    + injection Hj as <-. by apply (Hq 2%nat (mkQueue 0 0 6)).
    + injection Hj as <-. by apply (Hq 3%nat (mkQueue 0 0 8)).
    + discriminate Hj.
  - intros a r Ha Hr. repeat (apply elem_of_cons in Ha as [->|Ha]); [| | |by apply not_elem_of_nil in Ha];
      injection Hr as <-; (split; vm_compute; [discriminate|reflexivity]).
  - apply Forall_lookup. intros j l Hj a Ha. destruct j as [|[|[|[|j]]]]; try discriminate Hj; injection Hj as <-.
    + destruct ready; [|by apply not_elem_of_nil in Ha]. apply list_elem_of_singleton in Ha as ->. apply (bool_decide_unpack _). vm_compute. exact I.
    + by apply not_elem_of_nil in Ha.
    + by apply not_elem_of_nil in Ha.
    + by apply not_elem_of_nil in Ha.
  - apply (bool_decide_unpack _). vm_compute. exact I.
  - apply (bool_decide_unpack _). vm_compute. exact I.
  - done.
Qed.

Definition demo_mouse : mouse := mkMouse (replicate 64 (mkPkt 0 0 0)) 0 0 wq_empty [0; 0; 0] 0.
Definition demo_kernel (sc : sched) : kernel pmm bump :=
  mkK demo_vm (mkBump 64 ∅) sc ∅ ∅ ∅ 0 (demo_kbd [] 0) demo_mouse [] 0 0 None 0.
Definition demo_cpu : cpu := mkCpu (mkCallee 1 2 3 4 5 6 0x246) 4096 0.

Lemma demo_no_orphans ready : no_orphans (demo_ring_sched ready) [1; 2; 3].
Proof.
  intros a r Ha Hr _ Hd. exfalso. repeat (apply elem_of_cons in Ha as [->|Ha]); [| | |by apply not_elem_of_nil in Ha];
    injection Hr as <-; revert Hd; destruct ready; vm_compute; discriminate.
Qed.


Lemma schedule_loses_process_witness :
  wp choose_next (fun r s1 => r = None /\ current_process s1 = 2 /\
    exists ls1, sched_ok s1 [1; 2; 3] ls1 /\ stray s1 ls1 2) (demo_ring_sched false).
Proof.
  apply (schedule_loses_process (demo_ring_sched false) [1; 2; 3] (demo_lists false)).
  - apply (demo_ring_ok false).
  - vm_compute. reflexivity.
  - vm_compute. reflexivity.
Defined.

Lemma tick_correct_witness :
  wp tick (fun b s' => b = true /\ global_ticks s' = 0 /\ mlfq_wf s' [[3]; []; []; []] /\
    priority <$> procs s' !! 2 = Some 0) (set_global_ticks 99 (demo_ring_sched true)).
Proof.
  eapply wp_mono; [apply (tick_correct (set_global_ticks 99 (demo_ring_sched true)) (demo_lists true) (ring_proc PROCESS_RUNNING 1 3 1))|].
  - apply (so_queues _ _ _ (demo_ring_ok true)).
  - vm_compute. split; [discriminate|reflexivity].
  - vm_compute. discriminate.
  - vm_compute. reflexivity.
  - reflexivity.
  - vm_compute. split; [discriminate|reflexivity].
  - vm_compute. split; [discriminate|reflexivity].
  - intros b s' (_ & Hb & Hg & Hwf & rc' & Hr & E). split; [exact Hb|]. split; [exact Hg|]. split; [exact Hwf|].
    change (current_process (set_global_ticks 99 (demo_ring_sched true))) with 2 in Hr. rewrite Hr.
    change (Some (priority (qstrip rc')) = Some 0). rewrite E. reflexivity.
Defined.
