(* ===== verification/Reap.v ===== *)
(** * Reaping (process.c)

    What [wait_reap_child] gives back of a dead child: its place in the ring, its
    kernel stack, its descriptor, and its address space with the last thread in it. *)

From S2P Require Import Prelude Mem FrameAlloc Pmm Vmm PageTable AddressSpace CloneSpace DestroySpace.
From S2P Require Import Proc Queues Mlfq Wait Pipe Heap Vfs Keyboard Mouse ProcRing Kernel Process Schedule.

Section reap.
Context {S H : Type} `{FA : FrameAlloc S} `{HA : Heap H} (hh : Z) (Hhh : hhdm_ok hh).
Implicit Types (k : kernel S H).

Definition kernel_space k (r : process) : bool := p_cr3 r =? v2p hh (kernel_pml4 (k_vm k)).
Definition stack_page (r : process) : Z := v2p hh (kernel_stack r).
Definition space_root (r : process) : Z := p2v hh (p_cr3 r).
(** The threads that use the address space of [r], which is not the kernel's. *)
Definition sharers k (r : process) : option Z := if vm_refcount r =? 0 then Some 1 else k_cells k !! vm_refcount r.
Definition last_user k (r : process) : bool := negb (kernel_space k r) && bool_decide (sharers k r = Some 1).

(** A page of the address space, a table or a page that it counts. *)
Definition in_space k (r : process) (T : tables) (q : Z) : Prop :=
  (exists p, T !! p = Some q) \/
  exists va e, user_va va /\ mapping hh (k_vm k) (space_root r) va = Some e /\ has PTE_NOPMM e = false /\ pte_addr e = q.

(** What the dead process [r] at [c] holds. *)
Record holdings k (c : Z) (r : process) (T : tables) : Prop := {
  ho_heap : heap_wf (k_heap k);
  ho_frames : fa_wf (vm_pa (k_vm k));
  ho_live : c ∈ live (k_heap k);
  ho_stack : valid_frame (stack_page r) /\ exists n, frames (vm_pa (k_vm k)) (stack_page r) = Some n /\ 1 <= n;
  ho_cell : kernel_space k r = false -> exists n, sharers k r = Some n /\ 1 <= n < 18446744073709551616;
  ho_cell_live : kernel_space k r = false -> vm_refcount r <> 0 -> vm_refcount r ∈ live (k_heap k) /\ vm_refcount r <> c;
  ho_space : last_user k r = true -> space_ok hh (k_vm k) (space_root r) T /\ ~ in_space k r T (stack_page r);
}.

(** What is left of the holdings. *)
Record released k (c : Z) (r : process) (T : tables) k' : Prop := {
  re_heap : heap_wf (k_heap k');
  re_frames : fa_wf (vm_pa (k_vm k'));
  re_mem : vm_mem (k_vm k') = vm_mem (k_vm k) /\ kernel_pml4 (k_vm k') = kernel_pml4 (k_vm k);
  re_stack : forall n, frames (vm_pa (k_vm k)) (stack_page r) = Some n -> frames (vm_pa (k_vm k')) (stack_page r) = less n;
  re_tables : last_user k r = true -> forall p t, T !! p = Some t -> frames (vm_pa (k_vm k')) t = None;
  re_pages : last_user k r = true -> forall va e n, user_va va -> mapping hh (k_vm k) (space_root r) va = Some e -> has PTE_NOPMM e = false ->
    frames (vm_pa (k_vm k)) (pte_addr e) = Some n -> frames (vm_pa (k_vm k')) (pte_addr e) = less n;
  re_others : forall q, q <> stack_page r -> (last_user k r = true -> ~ in_space k r T q) -> frames (vm_pa (k_vm k')) q = frames (vm_pa (k_vm k)) q;
  re_cells : k_cells k' = if kernel_space k r || (vm_refcount r =? 0) then k_cells k
    else if last_user k r then delete (vm_refcount r) (k_cells k) else alter (fun n => n - 1) (vm_refcount r) (k_cells k);
  re_live : live (k_heap k') = live (k_heap k) ∖ (if last_user k r && negb (vm_refcount r =? 0) then {[vm_refcount r; c]} else {[c]});
}.

(** ** One resource after the other *)

Lemma wp_free_stack k c r T Q : holdings k c r T ->
  (forall x, fa_wf x -> (forall n, frames (vm_pa (k_vm k)) (stack_page r) = Some n -> frames x (stack_page r) = less n) ->
    (forall q, q <> stack_page r -> frames x q = frames (vm_pa (k_vm k)) q) ->
    Q tt (set_k_vm (mkVm (vm_mem (k_vm k)) x (kernel_pml4 (k_vm k))) k)) ->
  wp (on_vm (pa (fa_free (stack_page r)))) Q k.
Proof.
  intros Hh HQ. destruct (ho_stack _ _ _ _ Hh) as (Hv & n & Hn & Hn1). apply wp_on_vm, wp_pa.
  eapply wp_mono; [by eapply fa_free_spec; [apply Hh|..]|]. intros [] x (Hx & Hs & Ho). apply HQ; [done| |done].
  intros n' Hn'. assert (n' = n) as -> by congruence. exact Hs.
Qed.

(** Dropping the stack leaves the address space as it was. *)
Lemma space_ok_pa (v : vm S) x root T q : space_ok hh v root T -> fa_wf x -> (forall q', q' <> q -> frames x q' = frames (vm_pa v) q') ->
  (forall p, T !! p <> Some q) -> (forall va e, user_va va -> mapping hh v root va = Some e -> has PTE_NOPMM e = false -> pte_addr e <> q) ->
  space_ok hh (mkVm (vm_mem v) x (kernel_pml4 v)) root T.
Proof.
  intros [W A O N] Hx Hs Ht Hp. split; [|done| |done].
  - apply as_wf_pa_change; [done|done|]. intros p t Hpt. apply Hs. intros ->. by apply (Ht p).
  - intros va e Hva Hm Hnp. rewrite mapping_pa in Hm. destruct (O va e Hva Hm Hnp) as (n & Hv & Hnt & Hf & Hn1). exists n. split; [done|]. split; [done|]. cbn.
    rewrite Hs; [done|]. by eapply Hp.
Qed.


(** The count of threads: whether this was the last one. *)
Lemma wp_get_cell k p n (Q : Z -> kernel S H -> Prop) : k_cells k !! p = Some n -> Q n k -> wp (get_cell p) Q k.
Proof. intros E HQ. unfold wp, get_cell. by rewrite E. Qed.
Lemma wp_set_cell k p n v (Q : unit -> kernel S H -> Prop) : k_cells k !! p = Some n -> Q tt (set_k_cells (<[p := v]> (k_cells k)) k) -> wp (set_cell p v) Q k.
Proof. intros E HQ. unfold wp, set_cell. by rewrite E. Qed.
Lemma wp_drop_share k rc n Q : heap_wf (k_heap k) -> (if rc =? 0 then Some 1 else k_cells k !! rc) = Some n -> 1 <= n < 18446744073709551616 ->
  (rc <> 0 -> rc ∈ live (k_heap k)) ->
  (forall (h' : H) (cells' : gmap Z Z), heap_wf h' ->
    cells' = (if rc =? 0 then k_cells k else if bool_decide (n = 1) then delete rc (k_cells k) else alter (fun n => n - 1) rc (k_cells k)) ->
    live h' = (if bool_decide (n = 1) && negb (rc =? 0) then live (k_heap k) ∖ {[rc]} else live (k_heap k)) ->
    Q (bool_decide (n = 1)) (set_k_heap h' (set_k_cells cells' k))) ->
  wp (if rc =? 0 then ret true
      else m <- get_cell rc ;; set_cell rc (u64 (m - 1)) ;; if 0 <? u64 (m - 1) then ret false else free_cell rc ;; ret true) Q k.
Proof.
  intros Hh Hn Hr Hlv HQ. destruct (Z.eqb_spec rc 0) as [->|Hrc].
  { injection Hn as <-. wp_steps. specialize (HQ (k_heap k) (k_cells k) Hh eq_refl eq_refl). by destruct k. }
  wp_step. eapply wp_get_cell; [exact Hn|]. rewrite (u64_small (n - 1)) by lia. wp_step. eapply wp_set_cell; [exact Hn|].
  destruct (Z.ltb_spec 0 (n - 1)).
  - wp_steps. rewrite bool_decide_eq_false_2 in HQ by lia.
    assert (E : <[rc := n - 1]> (k_cells k) = alter (fun n => n - 1) rc (k_cells k)).
    { apply map_eq. intros a. destruct (decide (a = rc)) as [->|Hne]; [by rewrite lookup_alter_eq, Hn, lookup_insert_eq|by rewrite lookup_alter_ne, lookup_insert_ne]. }
    rewrite E. exact (HQ (k_heap k) _ Hh eq_refl eq_refl).
  - assert (n = 1) as -> by lia. rewrite bool_decide_eq_true_2 in HQ by done. unfold free_cell. wp_steps. apply wp_in_heap. cbn [k_heap set_k_cells].
    eapply wp_mono; [by apply kfree_spec; [|apply Hlv]|]. intros [] h' (Hh' & El). wp_steps.
    cbn [k_cells set_k_heap set_k_cells]. rewrite delete_insert_eq. exact (HQ h' _ Hh' eq_refl El).
Qed.

(** The address space: [v'], [h'] and [cells'] are what it leaves. *)
Record vm_left k (r : process) (T : tables) (v' : vm S) (h' : H) (cells' : gmap Z Z) : Prop := {
  vl_heap : heap_wf h';
  vl_frames : fa_wf (vm_pa v');
  vl_mem : vm_mem v' = vm_mem (k_vm k) /\ kernel_pml4 v' = kernel_pml4 (k_vm k);
  vl_gone : if last_user k r then gone hh (k_vm k) (space_root r) T proper 140737488355328 v' else v' = k_vm k;
  vl_cells : cells' = if kernel_space k r || (vm_refcount r =? 0) then k_cells k
    else if last_user k r then delete (vm_refcount r) (k_cells k) else alter (fun n => n - 1) (vm_refcount r) (k_cells k);
  vl_live : live h' = if last_user k r && negb (vm_refcount r =? 0) then live (k_heap k) ∖ {[vm_refcount r]} else live (k_heap k);
}.
Lemma wp_destroy_process_vm k c r T Q : procs (k_sched k) !! c = Some r -> heap_wf (k_heap k) -> fa_wf (vm_pa (k_vm k)) ->
  (kernel_space k r = false -> exists n, sharers k r = Some n /\ 1 <= n < 18446744073709551616) ->
  (kernel_space k r = false -> vm_refcount r <> 0 -> vm_refcount r ∈ live (k_heap k)) ->
  (last_user k r = true -> space_ok hh (k_vm k) (space_root r) T) ->
  (forall v' h' (cells' : gmap Z Z), vm_left k r T v' h' cells' -> Q tt (set_k_vm v' (set_k_heap h' (set_k_cells cells' k)))) ->
  wp (destroy_process_vm hh c (v2p hh (kernel_pml4 (k_vm k)))) Q k.
Proof.
  intros Hr Hhp Hfr Hcell Hlive Hsp HQ. unfold destroy_process_vm. wp_step. eapply wp_pread; [exact Hr|]. cbv beta. fold (kernel_space k r).
  destruct (kernel_space k r) eqn:Ek.
  { wp_steps. specialize (HQ (k_vm k) (k_heap k) (k_cells k)). destruct k. apply HQ. assert (Hl : last_user _ r = false) by (unfold last_user; by rewrite Ek).
    split; rewrite ?Ek, ?Hl; done. }
  destruct (Hcell eq_refl) as (n & Hn & Hn1). wp_step. eapply wp_pread; [exact Hr|]. cbv beta. wp_step.
  assert (Hlast : last_user k r = bool_decide (n = 1)) by (unfold last_user; rewrite Ek, Hn; cbn; apply bool_decide_ext; split; congruence).
  apply (wp_drop_share k _ n); [done|done|done|by apply Hlive|]. intros h' cells' Hh' Ec El. rewrite Hlast in Hsp. case_bool_decide as E1.
  - apply wp_on_vm. eapply wp_mono; [by apply (wp_vmm_destroy hh Hhh (k_vm k) (space_root r) T), Hsp|]. intros [] v' Hg.
    apply HQ. split; rewrite ?Hlast, ?Ek; cbn [orb]; [done|apply Hg|split; apply Hg|done|done|done].
  - wp_steps. specialize (HQ (k_vm k) h' cells'). apply HQ. split; rewrite ?Hlast, ?Ek; cbn [orb]; done.
Qed.

(** ** All of them *)

Definition after k (s' : sched) (v' : vm S) (h' : H) (cells' : gmap Z Z) : kernel S H := set_k_vm v' (set_k_heap h' (set_k_cells cells' (set_k_sched s' k))).

(** The stack and the space put together; [x] is the allocator between the two. *)
Lemma released_all k c r T x v' h' h2 cells' s' : holdings k c r T -> fa_wf x ->
  (forall n, frames (vm_pa (k_vm k)) (stack_page r) = Some n -> frames x (stack_page r) = less n) ->
  (forall q, q <> stack_page r -> frames x q = frames (vm_pa (k_vm k)) q) ->
  vm_left (set_k_vm (mkVm (vm_mem (k_vm k)) x (kernel_pml4 (k_vm k))) k) r T v' h' cells' ->
  heap_wf h2 -> live h2 = live h' ∖ {[c]} -> released k c r T (after k s' v' h2 cells').
Proof.
  intros Hh Hx Hst Hoth [V1 V2 V3 V4 V5 V6] Hh2 El.
  set (k1 := set_k_vm _ k) in *. assert (Elu : last_user k1 r = last_user k r) by done. assert (Eks : kernel_space k1 r = kernel_space k r) by done.
  assert (Hmap : forall va, mapping hh (k_vm k1) (space_root r) va = mapping hh (k_vm k) (space_root r) va) by done.
  rewrite Elu in *. rewrite Eks in *. split; [exact Hh2|exact V2|exact V3| | | | |exact V5|].
  - intros n Hn. cbn [after k_vm set_k_vm set_k_heap set_k_cells set_k_sched]. destruct (last_user k r) eqn:E; [|rewrite V4; by apply Hst].
    destruct (ho_space _ _ _ _ Hh E) as [_ Hno]. rewrite (go_other _ _ _ _ _ _ _ V4); [by apply Hst| |].
    + intros va e' Hva _ Hm Hnp Eq. apply Hno. right. by exists va, e'.
    + intros p _ Hp. apply Hno. left. by exists p.
  - intros E p t Hp. rewrite E in V4. apply (go_table _ _ _ _ _ _ _ V4 p); [|done]. destruct (ho_space _ _ _ _ Hh E) as [Hsp _]. by apply (as_proper _ _ _ _ (sp_wf _ _ _ _ Hsp) p t).
  - intros E va e' n Hva Hm Hnp Hn. rewrite E in V4. destruct (ho_space _ _ _ _ Hh E) as [_ Hno].
    apply (go_page _ _ _ _ _ _ _ V4 va e'); [done|by destruct Hva|done|done|]. cbn. rewrite Hoth; [done|]. intros Eq. apply Hno. right. by exists va, e'.
  - intros q Hq Hin. cbn [after k_vm set_k_vm set_k_heap set_k_cells set_k_sched]. destruct (last_user k r) eqn:E; [|rewrite V4; by apply Hoth].
    rewrite (go_other _ _ _ _ _ _ _ V4); [by apply Hoth| |].
    + intros va e' Hva _ Hm Hnp Eq. apply (Hin eq_refl). right. by exists va, e'.
    + intros p _ Hp. apply (Hin eq_refl). left. by exists p.
  - cbn [after k_heap set_k_vm set_k_heap]. rewrite El, V6. destruct (last_user k r && negb (vm_refcount r =? 0)); [|done].
    apply leibniz_equiv. intros a. cbn. rewrite !elem_of_difference, elem_of_union, !elem_of_singleton. tauto.
Qed.

Lemma wp_release_process k c r T Q : procs (k_sched k) !! c = Some r -> holdings k c r T ->
  (forall v' h' cells', let k' := after k (set_procs (delete c (procs (k_sched k))) (k_sched k)) v' h' cells' in released k c r T k' -> Q tt k') ->
  wp (release_process hh c (v2p hh (kernel_pml4 (k_vm k)))) Q k.
Proof.
  intros Hr Hh HQ. unfold release_process. wp_step. eapply wp_pread; [exact Hr|]. cbv beta. fold (stack_page r). wp_step.
  eapply wp_free_stack; [exact Hh|]. intros x Hx Hst Hoth. set (k1 := set_k_vm _ k). wp_step.
  change (v2p hh (kernel_pml4 (k_vm k))) with (v2p hh (kernel_pml4 (k_vm k1))).
  eapply (wp_destroy_process_vm k1 c r T); [exact Hr|apply Hh|exact Hx|apply Hh| | |].
  - intros Ek Hrc. by apply (ho_cell_live _ _ _ _ Hh Ek Hrc).
  - intros E. destruct (ho_space _ _ _ _ Hh E) as [Hsp Hno]. apply (space_ok_pa _ _ _ _ (stack_page r)); [done|done|done| |].
    + intros p Hp. apply Hno. left. by exists p.
    + intros va e' Hva Hm Hnp Eq. apply Hno. right. by exists va, e'.
  - intros v' h' cells' Hl. unfold free_process. wp_steps. apply wp_in_heap. cbn [k_heap set_k_vm set_k_heap].
    assert (Hc : c ∈ live h').
    { rewrite (vl_live _ _ _ _ _ _ Hl). pose proof (ho_live _ _ _ _ Hh) as Hcl. destruct (last_user k1 r && negb (vm_refcount r =? 0)) eqn:E; [|done].
      apply andb_true_iff in E as [E1 E2]. apply negb_true_iff, Z.eqb_neq in E2. apply elem_of_difference. split; [done|]. intros ->%elem_of_singleton.
      apply andb_true_iff in E1 as [E1 _]. apply negb_true_iff in E1. by apply (ho_cell_live _ _ _ _ Hh E1 E2). }
    eapply wp_mono; [apply kfree_spec; [apply Hl|exact Hc]|]. intros [] h2 (Hh2 & El). wp_steps. apply wp_in_sched. wp_steps.
    exact (HQ v' h2 cells' (released_all k c r T x v' h' h2 cells' _ Hh Hx Hst Hoth Hl Hh2 El)).
Qed.

(** Neither the scheduler nor the links of the process matter. *)
Lemma holdings_links k s c r T : holdings (set_k_sched s k) c (rstrip r) T <-> holdings k c r T.
Proof. split; intros [H2 H3 H4 H5 H6 H7 H8]; split; assumption. Qed.
Lemma released_links k s c r T k' : released (set_k_sched s k) c (rstrip r) T k' <-> released k c r T k'.
Proof. split; intros [H2 H3 H4 H5 H6 H7 H8 H9 H10]; split; assumption. Qed.

Lemma ring_delete s l c : c ∉ l -> ring s l -> ring (set_procs (delete c (procs s)) s) l.
Proof.
  intros Hc [R1 R2 R3 R4 R5]. split; try done. eapply edges_ext; [|exact R5]. intros a r Ha Hr. exists r. cbn. split; [|done].
  rewrite lookup_delete_ne; [done|]. intros <-. apply elem_of_app in Ha as [Ha|Ha%list_elem_of_singleton]; [done|]. apply Hc. rewrite Ha. destruct l; [done|]. apply list_elem_of_here.
Qed.

(** The scheduler without [c]: the others, in the same order, and nothing else changed. *)
Record without (s : sched) (l1 : list Z) (c : Z) (l2 : list Z) (s' : sched) : Prop := {
  wo_ring : if bool_decide (l1 ++ l2 = []) then process_queue s' = 0 else ring s' (l1 ++ l2);
  wo_gone : procs s' !! c = None;
  wo_procs : forall a, a <> c -> rstrip <$> procs s' !! a = rstrip <$> procs s !! a;
  wo_rest : s' = set_process_queue (process_queue s') (set_procs (procs s') s);
}.
Lemma unlinked_without s l1 c l2 s1 : NoDup (l1 ++ c :: l2) -> unlinked s s1 (l1 ++ l2) -> without s l1 c l2 (set_procs (delete c (procs s1)) s1).
Proof.
  intros Hnd (Hr & Es & Hs). assert (Hc : c ∉ l1 ++ l2) by (rewrite <- Permutation_middle in Hnd; by apply NoDup_cons in Hnd as [? _]). split.
  - case_bool_decide; [done|]. by apply ring_delete.
  - cbn. apply lookup_delete_eq.
  - intros a Ha. cbn. rewrite lookup_delete_ne by done. apply (f_equal (fun m => m !! a)) in Hs. by rewrite !lookup_fmap in Hs.
  - cbn. by rewrite Es.
Qed.

(** C9: [wait_reap_child] takes the first dead child with the number it is given, or any
    for a number that is not positive, out of the ring, and returns its number and its
    exit code.  It gives back the kernel stack, the descriptor and, with the last thread
    of the address space, its count, its tables and one reference to every page; all
    other pages, processes and heap blocks stay.  Without such a child nothing changes,
    and the result tells whether there is a child to wait for. *)
Theorem wait_reap_child_correct k l par pid T : ring (k_sched k) l ->
  (forall c r, List.find (reapable (procs (k_sched k)) par pid) l = Some c -> procs (k_sched k) !! c = Some r -> holdings k c r T) ->
  wp (wait_reap_child hh par pid) (fun res k' =>
    match List.find (reapable (procs (k_sched k)) par pid) l with
    | None => k' = k /\ res = (if existsb (is_child (procs (k_sched k)) par) l then 0 else -1, None)
    | Some c => exists r l1 l2 s' v' h' cells', procs (k_sched k) !! c = Some r /\ l = l1 ++ c :: l2 /\
        res = (s32 (p_pid r), Some (exit_code r)) /\ k' = after k s' v' h' cells' /\
        without (k_sched k) l1 c l2 s' /\ released k c r T k'
    end) k.
Proof.
  intros Hring Hhold. pose proof Hring as [Hne Hq Hnd Hz He]. unfold wait_reap_child. wp_steps. rewrite Hq.
  assert (Hh0 : hd0 l <> 0) by (intros E; apply Hz; rewrite <- E; destruct l; [done|apply list_elem_of_here]).
  destruct (Z.eqb_spec (hd0 l) 0) as [|_]; [done|]. wp_steps. apply wp_in_sched. eapply wp_mono; [by apply wp_ring_count|]. intros n s1 (-> & ->).
  replace (set_k_sched (k_sched k) k) with k by (by destruct k). wp_steps. apply wp_in_sched.
  assert (Ehd : hd0 l = hd0 (l ++ [hd0 l])) by (by destruct l). rewrite Ehd at 1.
  eapply wp_mono; [apply (wp_find_loop (k_sched k) par pid (hd0 l) l false); done|]. intros [found hc] s1 (-> & Hfound).
  replace (set_k_sched (k_sched k) k) with k by (by destruct k). destruct (List.find _ l) as [c|] eqn:Ef.
  2:{ injection Hfound as -> ->. wp_steps. done. }
  injection Hfound as -> ->. pose proof (List.find_some _ _ Ef) as [Hc%list_elem_of_In _]. destruct (ring_member _ _ _ Hring Hc) as (Hc0 & r & Hr).
  destruct (Z.eqb_spec c 0) as [|_]; [done|]. wp_step. eapply wp_pread; [exact Hr|]. cbv beta. wp_step. eapply wp_pread; [exact Hr|]. cbv beta.
  apply list_elem_of_split in Hc as (l1 & l2 & El). rewrite El in Hring, Hnd. wp_step. apply wp_in_sched.
  eapply wp_mono; [by apply wp_ring_unlink|]. intros [] s1 Hu. unfold kernel_cr3. wp_steps.
  destruct (same_lookup _ _ _ _ (proj2 (proj2 Hu)) Hr) as (r1 & Hr1 & Er). specialize (Hhold c r eq_refl Hr).
  assert (Hhold1 : holdings (set_k_sched s1 k) c r1 T) by (apply (holdings_links _ s1); rewrite Er; by apply (holdings_links k s1)).
  eapply (wp_release_process (set_k_sched s1 k) c r1 T); [exact Hr1|exact Hhold1|]. intros v' h' cells' k' Hrel. wp_steps.
  exists r, l1, l2, (set_procs (delete c (procs s1)) s1), v', h', cells'. split_and!; [done|done|done|done|by apply unlinked_without|].
  apply (released_links k s1). rewrite <- Er. by apply (released_links _ s1) in Hrel.
Qed.
End reap.

(** ** An instance: the process 3 is a dead child of the process 2 *)

Definition reap_run : Z * pmm := default (0, vm_pa fork_vm) (fa_alloc (vm_pa fork_vm)).
Definition reap_page : Z := Eval vm_compute in fst reap_run.
Definition demo_dead_child : process :=
  set_vm_refcount 0 (set_kernel_stack (reap_page + demo_hh) (set_p_cr3 (fork_root - demo_hh)
    (set_p_pid 77 (set_exit_code 7 (set_parent 2 (ring_proc PROCESS_DEAD 0 1 2)))))).
Definition demo_reap : kernel pmm bump :=
  let s := demo_ring_sched false in
  set_k_heap (mkBump 64 {[3]}) (set_k_vm (mkVm (vm_mem fork_vm) (snd reap_run) (kernel_pml4 fork_vm))
    (demo_kernel (set_procs (<[3 := demo_dead_child]> (procs s)) s))).

Lemma demo_reap_mapping root va : mapping demo_hh (k_vm demo_reap) root va = mapping demo_hh fork_vm root va.
Proof. apply mapping_pa. Qed.
#[local] Opaque fork_vm mapping.
Lemma demo_holdings : exists T, holdings demo_hh demo_reap 3 demo_dead_child T.
Proof.
  destruct fork_space as (T & Hsp & _). pose proof (as_pa _ _ _ _ (sp_wf _ _ _ _ Hsp)) as Hwf.
  assert (Hr : fst (default (0, vm_pa fork_vm) (fa_alloc (vm_pa fork_vm))) = reap_page) by (vm_compute; reflexivity).
  destruct (wp_outcome _ _ _ (0, vm_pa fork_vm) _ (fa_alloc_spec (vm_pa fork_vm) Hwf) Hr) as (Hx & [(E & _)|(Hv & Hf & Hn & Ho)]); [discriminate E|].
  fold reap_run in Hx, Hn, Ho.
  assert (Es : stack_page demo_hh demo_dead_child = reap_page) by (vm_compute; reflexivity).
  assert (Er : space_root demo_hh demo_dead_child = fork_root) by (vm_compute; reflexivity).
  assert (Hno : ~ in_space demo_hh demo_reap demo_dead_child T reap_page).
  { intros [[p Hp]|(va & e & Hva & Hm & Hnp & Eq)].
    - destruct (as_frame _ _ _ _ (sp_wf _ _ _ _ Hsp) p _ Hp). congruence.
    - rewrite Er, demo_reap_mapping in Hm. destruct (sp_owned _ _ _ _ Hsp va e Hva Hm Hnp) as (n & _ & _ & Hfe & _). congruence. }
  exists T. split.
  - split; [reflexivity|]. intros p Hp. change (p ∈ ({[3]} : gset Z)) in Hp. apply elem_of_singleton in Hp as ->. reflexivity.
  - exact Hx.
  - change (3 ∈ ({[3]} : gset Z)). by apply elem_of_singleton.
  - rewrite Es. split; [exact Hv|]. exists 1. split; [exact Hn|lia].
  - intros _. exists 1. split; [reflexivity|lia].
  - intros _ []. reflexivity.
  - intros _. rewrite Es, Er. split; [|exact Hno]. apply (space_ok_pa demo_hh fork_vm (snd reap_run) fork_root T reap_page); [exact Hsp|exact Hx|exact Ho| |].
    + intros p Hp. apply Hno. left. by exists p.
    + intros va e Hva Hm Hnp Eq. apply Hno. right. exists va, e. rewrite Er, demo_reap_mapping. split_and!; assumption.
Qed.
Lemma demo_reap_ring : ring (k_sched demo_reap) [1; 2; 3].
Proof.
  split; [done|done|apply (bool_decide_unpack _); vm_compute; exact I|apply (bool_decide_unpack _); vm_compute; exact I|].
  cbn. split_and!; [eexists _, _; split_and!; reflexivity..|done].
Qed.
Lemma wait_reap_child_correct_witness :
  wp (wait_reap_child demo_hh 2 0) (fun res k' => res = (77, Some 7) /\ procs (k_sched k') !! 3 = None /\
    frames (vm_pa (k_vm k')) reap_page = None) demo_reap.
Proof.
  destruct demo_holdings as (T & Hh). assert (Ef : List.find (reapable (procs (k_sched demo_reap)) 2 0) [1; 2; 3] = Some 3) by reflexivity.
  eapply wp_mono; [apply (wait_reap_child_correct demo_hh demo_hh_ok demo_reap [1; 2; 3] 2 0 T demo_reap_ring)|].
  - intros c r Hc Hr. assert (c = 3) as -> by (rewrite Ef in Hc; congruence). injection Hr as <-. exact Hh.
  - intros res k'. rewrite Ef. intros (r & l1 & l2 & s' & v' & h' & cells' & Hr & _ & -> & -> & Hw & Hrel). injection Hr as <-.
    split; [reflexivity|]. split; [exact (wo_gone _ _ _ _ _ Hw)|].
    destruct (ho_stack _ _ _ _ _ Hh) as (_ & n & Hn & _). assert (Es : stack_page demo_hh demo_dead_child = reap_page) by (vm_compute; reflexivity).
    pose proof (re_stack _ _ _ _ _ _ Hrel n Hn) as Hs. rewrite Es in Hs, Hn. assert (n = 1) as -> by (vm_compute in Hn; congruence). exact Hs.
Defined.
