(* ===== verification/Enlist.v ===== *)
(** * Taking a process into the scheduler (process.c)

    The steps with which fork, clone and the creation of processes end: the new process
    becomes the last of the ring and of the ready queue of the highest priority. *)

From S2P Require Import Prelude Proc Queues Mlfq ProcRing.

Definition enlist (proc : Z) : M sched unit :=
  enqueue_process proc ;;
  pset (set_priority 0) proc ;;
  pset (set_ticks_executed 0) proc ;;
  mlfq_enqueue proc.

Lemma ring_insert s l c r : c ∉ l -> ring s l -> ring (set_procs (<[c := r]> (procs s)) s) l.
Proof.
  intros Hc [R1 R2 R3 R4 R5]. split; try done. eapply edges_ext; [|exact R5]. intros a r' Ha Hr. exists r'. cbn. split; [|done].
  rewrite lookup_insert_ne; [done|]. intros <-. apply elem_of_app in Ha as [Ha|Ha%list_elem_of_singleton]; [done|]. apply Hc. rewrite Ha. destruct l; [done|]. apply list_elem_of_here.
Qed.
(** The fields that the ready queues depend on. *)
Definition qpart (r : process) : Z * Z * Z * process_state := (queue_next r, queue_prev r, priority r, p_state r).
Lemma mlfq_wf_ext s s' ls : mlfq s' = mlfq s -> (forall l a r, l ∈ ls -> a ∈ l -> procs s !! a = Some r -> exists r', procs s' !! a = Some r' /\ qpart r' = qpart r) ->
  mlfq_wf s ls -> mlfq_wf s' ls.
Proof.
  intros Em He (H1 & H2 & H3). split; [by rewrite Em|]. split; [done|]. intros j l Hj. pose proof (list_elem_of_lookup_2 _ _ _ Hj) as Hl.
  destruct (H3 j l Hj) as [(q & Hq & Hh & Ht & Hqu & Hlk) Hm]. split.
  - exists q. rewrite Em. split_and!; try done. eapply linked_ext; [|exact Hlk]. intros a r Ha Hr. destruct (He l a r Hl Ha Hr) as (r' & Hr' & E).
    exists r'. split; [done|]. by injection E as -> -> _ _.
  - intros a Ha. destruct (Hm a Ha) as (r & Hr & Hp & Hs). destruct (He l a r Hl Ha Hr) as (r' & Hr' & E). exists r'. split; [done|].
    injection E as _ _ -> ->. done.
Qed.

(** A descriptor without the links of the ring and of the ready queues. *)
Definition unlinked_part (r : process) : process := rstrip (qstrip r).


Section enlist.
Context (l : list Z) (ls : list (list Z)).

(** The scheduler [s'] with [c] behind the others, ready with the highest priority. *)
Record enlisted (s : sched) (c : Z) (rc : process) (s' : sched) : Prop := {
  ad_ring : ring s' (l ++ [c]);
  ad_queues : mlfq_wf s' (enq ls 0 c);
  ad_child : exists rc', procs s' !! c = Some rc' /\ unlinked_part rc' = unlinked_part (set_ticks_executed 0 (set_priority 0 (set_p_state PROCESS_READY rc)));
  ad_others : forall a, a <> c -> unlinked_part <$> procs s' !! a = unlinked_part <$> procs s !! a;
  ad_rest : s' = set_mlfq (mlfq s') (set_procs (procs s') s);
}.
(** The steps before the ready queue. *)
Lemma enqueued_child (s s2 s3 : sched) c rc rc2 : mlfq_wf s ls -> procs s !! c = Some rc -> (forall q, q ∈ ls -> c ∉ q) ->
  ring s2 (l ++ [c]) -> s2 = set_procs (procs s2) s -> same_but_ring (procs s) (procs s2) -> procs s2 !! c = Some rc2 -> rstrip rc2 = rstrip rc ->
  s3 = set_procs (alter (set_ticks_executed 0) c (alter (set_priority 0) c (procs s2))) s2 ->
  ring s3 (l ++ [c]) /\ mlfq_wf s3 ls /\ procs s3 !! c = Some (set_ticks_executed 0 (set_priority 0 rc2)) /\
  (forall a, a <> c -> rstrip <$> procs s3 !! a = rstrip <$> procs s !! a) /\ mlfq s3 = mlfq s /\ s3 = set_procs (procs s3) s.
Proof.
  intros Hm Hr Hq Hring2 Es2 Hs2 Hr2 E2 ->.
  assert (Hoth : forall a, a <> c -> procs (set_procs (alter (set_ticks_executed 0) c (alter (set_priority 0) c (procs s2))) s2) !! a = procs s2 !! a)
    by (intros a Ha; cbn; by rewrite !lookup_alter_ne).
  assert (Hc3 : alter (set_ticks_executed 0) c (alter (set_priority 0) c (procs s2)) !! c = Some (set_ticks_executed 0 (set_priority 0 rc2)))
    by (by rewrite !lookup_alter_eq, Hr2).
  assert (Hstr : forall a, rstrip <$> procs s2 !! a = rstrip <$> procs s !! a) by (intros a; apply (f_equal (fun m => m !! a)) in Hs2; by rewrite !lookup_fmap in Hs2).
  split_and!; [| |exact Hc3| | |]; try (by rewrite Es2).
  - destruct Hring2 as [R1 R2 R3 R4 R5]. split; try done. eapply edges_ext; [|exact R5]. intros a r _ Ha. destruct (decide (a = c)) as [->|Hne].
    + assert (r = rc2) as -> by congruence. by eexists; split; [exact Hc3|].
    + exists r. by rewrite Hoth.
  - apply (mlfq_wf_ext s); [by rewrite Es2| |done]. intros q a r Hin Ha Hra. assert (Hne : a <> c) by (intros ->; by apply (Hq q)).
    rewrite Hoth by done. specialize (Hstr a). rewrite Hra in Hstr. destruct (procs s2 !! a) as [r'|]; [|done]. exists r'. split; [done|].
    apply (inj Some) in Hstr. change (qpart (rstrip r') = qpart (rstrip r)). by rewrite Hstr.
  - intros a Ha. rewrite Hoth by done. apply Hstr.
Qed.
(** And with it. *)
Lemma queued_child (s s3 s4 : sched) c rc rc2 : mlfq_wf s4 (enq ls 0 c) -> only_queues s3 s4 -> qstrip <$> procs s4 = alter (set_p_state PROCESS_READY) c (qstrip <$> procs s3) ->
  ring s3 (l ++ [c]) -> procs s3 !! c = Some (set_ticks_executed 0 (set_priority 0 rc2)) -> rstrip rc2 = rstrip rc ->
  (forall a, a <> c -> rstrip <$> procs s3 !! a = rstrip <$> procs s !! a) -> s3 = set_procs (procs s3) s -> enlisted s c rc s4.
Proof.
  intros Hm4 Ho4 Hq4 Hring3 Hr3 E2 Ho3 Es3.
  assert (Hstr : forall a, qstrip <$> procs s4 !! a = (if decide (a = c) then set_p_state PROCESS_READY else id) <$> (qstrip <$> procs s3 !! a)).
  { intros a. apply (f_equal (fun m => m !! a)) in Hq4. rewrite lookup_fmap in Hq4. rewrite Hq4. destruct (decide (a = c)) as [->|].
    - by rewrite lookup_alter_eq, lookup_fmap.
    - by rewrite lookup_alter_ne, lookup_fmap, option_fmap_id. }
  split; [|exact Hm4| | |].
  - destruct Hring3 as [R1 R2 R3 R4 R5]. split; try done; [by rewrite Ho4|]. eapply edges_ext; [|exact R5]. intros a r _ Ha. specialize (Hstr a). rewrite Ha in Hstr.
    destruct (procs s4 !! a) as [r'|]; [|done]. exists r'. split; [done|]. apply (inj Some) in Hstr.
    change (p_next (qstrip r') = p_next (qstrip r) /\ p_prev (qstrip r') = p_prev (qstrip r)). rewrite Hstr. by destruct (decide (a = c)).
  - specialize (Hstr c). rewrite Hr3, decide_True in Hstr by done. destruct (procs s4 !! c) as [r'|]; [|done]. exists r'. split; [done|]. apply (inj Some) in Hstr.
    unfold unlinked_part. rewrite Hstr.
    change (rstrip (qstrip (set_ticks_executed 0 (set_priority 0 (set_p_state PROCESS_READY (rstrip rc2))))) = rstrip (qstrip (set_ticks_executed 0 (set_priority 0 (set_p_state PROCESS_READY (rstrip rc)))))).
    by rewrite E2.
  - intros a Ha. specialize (Hstr a). rewrite decide_False, option_fmap_id in Hstr by done. specialize (Ho3 a Ha).
    destruct (procs s4 !! a) as [r4|], (procs s3 !! a) as [r3|], (procs s !! a) as [r1|]; try done. apply (inj Some) in Hstr, Ho3. cbn. f_equal. unfold unlinked_part.
    rewrite Hstr. change (qstrip (rstrip r3) = qstrip (rstrip r1)). by rewrite Ho3.
  - rewrite Ho4, Es3. by destruct s.
Qed.
Lemma wp_enlist s c rc : ring s l -> mlfq_wf s ls -> procs s !! c = Some rc -> c <> 0 -> c ∉ l -> (forall q, q ∈ ls -> c ∉ q) -> p_state rc <> PROCESS_DEAD ->
  wp (enlist c) (fun _ s' => enlisted s c rc s') s.
Proof.
  intros Hring Hm Hr Hc0 Hcl Hcq Hst. unfold enlist. wp_step.
  eapply wp_mono; [by apply (wp_enqueue_process _ l c rc)|]. intros [] s2 (Hring2 & Es2 & Hs2). destruct (same_lookup _ _ _ _ Hs2 Hr) as (rc2 & Hr2 & E2).
  wp_step. eapply wp_pset; [exact Hr2|]. wp_step. eapply wp_pset; [cbn; by rewrite lookup_alter_eq, Hr2|]. cbn [procs set_procs].
  set (s3 := set_procs (alter (set_ticks_executed 0) c (alter (set_priority 0) c (procs s2))) s2). change (set_procs _ (set_procs _ s2)) with s3.
  destruct (enqueued_child s s2 s3 c rc rc2 Hm Hr Hcq Hring2 Es2 Hs2 Hr2 E2 eq_refl) as (Hring3 & Hm3 & Hr3 & Ho3 & Eq3 & Es3).
  destruct (ready_list ls 0) as (l0 & Hl0); [apply Hm|lia|].
  assert (Est : p_state rc2 = p_state rc) by (change (p_state (rstrip rc2) = p_state (rstrip rc)); by rewrite E2).
  eapply wp_mono; [eapply (wp_mlfq_enqueue s3 ls c _ 0 l0); [done|done|exact Hr3|cbn; congruence|done|done|done]|].
  intros [] s4 (Hm4 & Ho4 & Hq4). by eapply (queued_child _ s3 s4 c rc rc2).
Qed.
End enlist.
