(* ===== verification/Liveness.v ===== *)
(** * No process starves

    The processes, the timer and the devices drive the scheduler in any order: the
    current process blocks, exits or yields, a new process is taken in, a dead one is
    removed, a device wakes a process that waits for it, and the timer ticks.  A process
    that is ready runs after a bounded number of ticks, whatever the others do. *)

From S2P Require Import Prelude Proc Queues Mlfq ProcRing Kernel Process Schedule Reap Enlist.

(** ** Events *)

(** [Arrive c r]: fork, clone or the creation of a process has filled the descriptor [r]
    at the address [c] and takes it in.  [Reap c]: wait or [reap_zombies] removes the dead
    process [c].  An event that cannot happen in a state does nothing. *)
Inductive event := Tick | Leave (st : process_state) | Yield | Wake (q : Z) | Arrive (c : Z) (r : process) | Reap (c : Z).

(** A state in which a process waits for a device. *)
Definition waiting (st : process_state) : bool :=
  match st with PROCESS_BLOCKED_KBD | PROCESS_BLOCKED_PIPE | PROCESS_BLOCKED_MOUSE => true | _ => false end.
(** A state a process gives itself before it calls [schedule]. *)
Definition gone (st : process_state) : bool :=
  match st with PROCESS_READY | PROCESS_RUNNING => false | _ => true end.

Definition run_event (e : event) : M sched unit :=
  match e with
  | Tick => b <- tick ;; if b : bool then choose_next ;; ret tt else ret tt
  | Leave st =>
      cur <- gets current_process ;; idle <- gets idle_process ;;
      if negb (cur =? idle) && gone st then pset (set_p_state st) cur ;; choose_next ;; ret tt else ret tt
  | Yield => choose_next ;; ret tt
  | Wake q =>
      cur <- gets current_process ;; r <- gets (fun s => procs s !! q) ;;
      match r with
      | Some r => if negb (q =? cur) && waiting (p_state r) then mlfq_enqueue q else ret tt
      | None => ret tt
      end
  | Arrive c r =>
      old <- gets (fun s => procs s !! c) ;;
      match old with
      | Some _ => ret tt
      | None =>
          if c =? 0 then ret tt else
          modify (fun s => set_procs (<[c := set_p_state PROCESS_READY r]> (procs s)) s) ;; enlist c
      end
  | Reap c =>
      cur <- gets current_process ;; r <- gets (fun s => procs s !! c) ;;
      match r with
      | Some r =>
          if negb (c =? cur) && bool_decide (p_state r = PROCESS_DEAD) then
            ring_unlink c ;; modify (fun s => set_procs (delete c (procs s)) s)
          else ret tt
      | None => ret tt
      end
  end.

(** Some event of the sequence gives the processor to [p]. *)
Fixpoint runs_within (p : Z) (es : list event) (s : sched) : Prop :=
  match es with
  | [] => False
  | e :: es' => wp (run_event e) (fun _ s' => current_process s' = p \/ runs_within p es' s') s
  end.
Fixpoint ticks (es : list event) : Z :=
  match es with [] => 0 | Tick :: es' => 1 + ticks es' | _ :: es' => ticks es' end.
Fixpoint arrivals (es : list event) : Z :=
  match es with [] => 0 | Arrive _ _ :: es' => 1 + arrivals es' | _ :: es' => arrivals es' end.

(** ** The invariant *)

Definition ticks_ok (m : gmap Z process) (l : list Z) : Prop :=
  forall a r, a ∈ l -> m !! a = Some r -> 0 <= ticks_executed r < 2 * (priority r + 1).

Record alive (s : sched) (l : list Z) (ls : list (list Z)) : Prop := {
  al_ok : sched_ok s l ls;
  al_ticks : ticks_ok (procs s) l;
  al_count : 0 <= global_ticks s < PRIORITY_BOOST_INTERVAL;
  al_current : forall l', l' ∈ ls -> current_process s ∉ l';
  al_all : forall a, is_Some (procs s !! a) -> a ∈ l;
}.

Definition ptime (r : process) : Z * Z := (ticks_executed r, priority r).
Lemma ticks_ok_same (m m' : gmap Z process) l : (forall a, ptime <$> m' !! a = ptime <$> m !! a) -> ticks_ok m l -> ticks_ok m' l.
Proof.
  intros E H a r Ha Hr. specialize (E a). rewrite Hr in E. destruct (m !! a) as [r0|] eqn:H0; [|done]. injection E as E1 E2.
  rewrite E1, E2. by apply (H a r0).
Qed.

Lemma same_dom {A} (f : process -> A) (m m' : gmap Z process) (l : list Z) : (forall a, f <$> m' !! a = f <$> m !! a) ->
  (forall a, is_Some (m !! a) -> a ∈ l) -> forall a, is_Some (m' !! a) -> a ∈ l.
Proof. intros E H a Ha. apply H. specialize (E a). destruct (m !! a); [done|]. by destruct (m' !! a); [|destruct Ha]. Qed.

(** ** The choice of the next process *)

(** A process that stays in its place while others are appended. *)
Definition placed (ls : list (list Z)) (j : nat) (pre : list Z) (p : Z) : Prop := exists post, ls !! j = Some (pre ++ p :: post).

Lemma enq_placed ls j pre p i q : placed ls j pre p -> placed (enq ls i q) j pre p.
Proof.
  intros [post H]. unfold enq. destruct (decide (i = j)) as [->|].
  - exists (post ++ [q]). rewrite list_lookup_alter_eq, H. cbn. by rewrite <- app_assoc.
  - exists post. by rewrite list_lookup_alter_ne.
Qed.
Lemma awake_placed m self j pre p : forall l ls, placed ls j pre p -> placed (awake m self l ls) j pre p.
Proof.
  unfold awake. induction l as [|a l IH]; intros ls H; [done|]. cbn [foldl]. apply IH. destruct (wakes m self a); [by apply enq_placed|done].
Qed.
Lemma ready_placed s l ls j pre p : placed ls j pre p -> placed (ready_lists s l ls) j pre p.
Proof.
  intros H. unfold ready_lists. cbv zeta. destruct (requeued s); [apply enq_placed|]; by apply awake_placed.
Qed.

Lemma pick_placed ls j pre p : placed ls j pre p ->
  (fst (pick ls) = p) \/ (exists pre', placed (snd (pick ls)) j pre' p /\ (length pre' <= length pre)%nat).
Proof.
  intros [post Hj]. destruct (pick_cases ls) as [[E1 E2]|(i & q & l & Hi & E)].
  - right. exists pre. rewrite E2. split; [by exists post|done].
  - rewrite E. cbn. destruct (decide (i = j)) as [->|Hij].
    + rewrite Hj in Hi. injection Hi as Hi. destruct pre as [|a pre]; injection Hi as <- <-; [by left|right].
      exists pre. split; [|cbn; lia]. exists post. rewrite list_lookup_insert_eq; [done|by eapply lookup_lt_Some].
    + right. exists pre. split; [|done]. exists post. by rewrite list_lookup_insert_ne.
Qed.
(** In the first list one process less is ahead. *)
Lemma pick_first_placed ls pre p : placed ls 0 pre p ->
  (fst (pick ls) = p) \/ (exists a pre', pre = a :: pre' /\ fst (pick ls) = a /\ placed (snd (pick ls)) 0 pre' p).
Proof.
  intros [post H]. destruct ls as [|l0 ls]; [done|]. injection H as ->. destruct pre as [|a pre]; [by left|right].
  exists a, pre. split_and!; [done|done|]. by exists post.
Qed.

(** What every choice keeps. *)
Lemma wp_choose_alive s l ls : alive s l ls ->
  wp choose_next (fun _ s' => alive s' l (snd (pick (ready_lists s l ls))) /\ current_process s' = next_proc s l ls /\
    global_ticks s' = global_ticks s /\ (forall a, ptime <$> procs s' !! a = ptime <$> procs s !! a) /\
    (current_process s <> next_proc s l ls -> state_of (procs s') (next_proc s l ls) = Some PROCESS_RUNNING)) s.
Proof.
  intros [Hok Ht Hg Hc Ha]. eapply wp_mono; [by apply (wp_choose_next s l ls)|]. intros r s' (Hok' & Hc' & _ & Htab & Hno & _ & Eg).
  assert (Hp : forall a, ptime <$> procs s' !! a = ptime <$> procs s !! a) by (intros a; by apply (chosen_field ptime s l ls)).
  split_and!; [split|done|done|done|].
  - done.
  - by apply (ticks_ok_same (procs s)).
  - by rewrite Eg.
  - intros l' Hl'. rewrite Hc'. by apply Hno.
  - by apply (same_dom ptime (procs s)).
  - intros Hne. rewrite <- state_of_qstrip, Htab. unfold chosen_table. cbv zeta. case_bool; [done|]. unfold state_of. rewrite lookup_alter_eq.
    assert (Hx : is_Some (procs s' !! next_proc s l ls)).
    { destruct (ring_member s' l (next_proc s l ls) (so_ring _ _ _ Hok')) as (_ & r0 & ->); [|done]. rewrite <- Hc'. apply Hok'. }
    assert (Hy : is_Some ((qstrip <$> procs s') !! next_proc s l ls)) by (rewrite lookup_fmap; by apply fmap_is_Some).
    rewrite Htab in Hy. unfold chosen_table in Hy. cbv zeta in Hy. case_bool; [done|]. rewrite lookup_alter_eq in Hy.
    destruct Hy as [y Hy]. destruct (_ !! _) in Hy |- *; done.
Qed.

(** ** The tick *)

(** Time accounting of the process [c], which is in no list. *)
Definition accounts (g : process -> process) : Prop := forall r,
  queue_next (g r) = queue_next r /\ queue_prev (g r) = queue_prev r /\ p_next (g r) = p_next r /\ p_prev (g r) = p_prev r /\
  p_state (g r) = p_state r /\ (0 <= priority r < 4 -> 0 <= priority (g r) < 4 /\
    (0 <= ticks_executed r < 2 * (priority r + 1) -> 0 <= ticks_executed (g r) < 2 * (priority (g r) + 1))).

Lemma alive_account s l ls g n : alive s l ls -> accounts g -> 0 <= n < PRIORITY_BOOST_INTERVAL ->
  alive (set_global_ticks n (set_procs (alter g (current_process s) (procs s)) s)) l ls.
Proof.
  intros [Hok Ht Hg Hc Hall] Ha Hn. pose proof Hok as [Hr Hwf Hp Hm Hcl Hi His].
  assert (Hlk : forall a r', alter g (current_process s) (procs s) !! a = Some r' ->
    exists r, procs s !! a = Some r /\ (r' = g r \/ r' = r)).
  { intros a r'. destruct (decide (current_process s = a)) as [<-|]; [rewrite lookup_alter_eq|rewrite lookup_alter_ne by done; eauto].
    destruct (procs s !! _) as [r|]; [|done]. intros [= <-]. eauto. }
  split; [split|..]; cbn; try done.
  - destruct Hr as [H1 H2 H3 H4 H5]. split; try done. eapply edges_ext; [|exact H5]. intros a r _ Hra. cbn.
    destruct (decide (current_process s = a)) as [<-|]; [rewrite lookup_alter_eq, Hra|rewrite lookup_alter_ne by done; by exists r].
    exists (g r). destruct (Ha r) as (_ & _ & ? & ? & _). done.
  - apply (mlfq_wf_unqueued s); [|done|done]. intros r. destruct (Ha r) as (? & ? & _). done.
  - intros a r' Hal (r & Hra & [-> | ->])%Hlk; [apply (Ha r)|]; by apply (Hp a r).
  - unfold state_of in *. destruct (decide (current_process s = idle_process s)) as [E|]; [|by rewrite lookup_alter_ne].
    rewrite <- E in *. rewrite lookup_alter_eq. destruct (procs s !! current_process s) as [r|]; [|done]. cbn in *. destruct (Ha r) as (_ & _ & _ & _ & E' & _). congruence.
  - intros a r' Hal (r & Hra & [-> | ->])%Hlk; [|by apply (Ht a r)]. apply (Ha r); [by apply (Hp a r)|by apply (Ht a r)].
  - intros a [r' (r & Hra & _)%Hlk]. by apply Hall.
Qed.

Lemma ticked_accounts : accounts (fun r => ticked (2 * (priority r + 1)) r).
Proof.
  intros r. unfold ticked. destruct (Z.leb_spec (2 * (priority r + 1)) (ticks_executed r + 1)); [destruct (Z.ltb_spec (priority r) 3)|]; cbn; split_and!; try done; lia.
Qed.

(** A tick that is not the hundredth. *)
Lemma wp_tick_alive s l ls : alive s l ls -> global_ticks s < PRIORITY_BOOST_INTERVAL - 1 ->
  wp tick (fun b s' => alive s' l ls /\ current_process s' = current_process s /\ global_ticks s' = global_ticks s + 1 /\
    (forall rc, procs s !! current_process s = Some rc -> p_state rc = PROCESS_RUNNING ->
       if b : bool then True else procs s' !! current_process s = Some (set_ticks_executed (ticks_executed rc + 1) rc))) s.
Proof.
  intros Hal Hlt. pose proof Hal as [Hok Ht Hg Hc Hall]. destruct (ring_member s l _ (so_ring _ _ _ Hok) (so_current _ _ _ Hok)) as (Hc0 & rc & Hrc).
  pose proof (so_prio _ _ _ Hok _ _ (so_current _ _ _ Hok) Hrc) as Hpr. pose proof (Ht _ _ (so_current _ _ _ Hok) Hrc) as Hte.
  unfold PRIORITY_BOOST_INTERVAL in *. destruct (decide (p_state rc = PROCESS_RUNNING)) as [Hst|Hst].
  - eapply wp_mono; [apply (wp_tick_charge s ls rc); unfold PRIORITY_BOOST_INTERVAL; try done; [apply Hok|lia..]|]. intros b s' [Hb ->]. split_and!; [|done|done|].
    + rewrite (alter_known _ _ _ rc Hrc), <- (alter_known (fun r => ticked (2 * (priority r + 1)) r) _ _ rc Hrc).
      apply alive_account; [done|apply ticked_accounts|unfold PRIORITY_BOOST_INTERVAL; lia].
    + intros rc' Hrc' _. cbn. rewrite Hrc in Hrc'. injection Hrc' as <-. destruct b; [done|]. rewrite lookup_alter_eq, Hrc. cbn. unfold ticked. by rewrite <- Hb.
  - unfold tick, PRIORITY_BOOST_INTERVAL. wp_steps. rewrite u32_small by lia. destruct (Z.leb_spec 100 (global_ticks s + 1)); [lia|].
    cbn [current_process set_global_ticks]. destruct (Z.eqb_spec (current_process s) 0); [done|]. wp_step. eapply wp_pget; [exact Hrc|].
    rewrite bool_decide_false by done. cbn [negb]. wp_step. split_and!; [|done|done|].
    + split; [split|..]; try apply Hal; try apply Hok; cbn; [|unfold PRIORITY_BOOST_INTERVAL; lia].
      pose proof (so_ring _ _ _ Hok) as [H1 H2 H3 H4 H5]. split; done.
    + intros rc' Hrc' Hst'. rewrite Hrc in Hrc'. injection Hrc' as <-. done.
Qed.

(** The hundredth tick. *)
Definition raised (r r' : process) : Prop := p_next r' = p_next r /\ p_prev r' = p_prev r /\
  ((priority r' = priority r /\ ticks_executed r' = ticks_executed r) \/ (priority r' = 0 /\ ticks_executed r' = 0)).
Lemma boosted_all_raised l : forall (m : gmap Z process) a r', boosted_all l m !! a = Some r' -> exists r, m !! a = Some r /\ raised r r'.
Proof.
  unfold boosted_all. induction l as [|b l IH]; intros m a r' H; [exists r'; unfold raised; split_and!; [done..|by left]|].
  cbn [foldl] in H. destruct (IH _ _ _ H) as (r1 & H1 & E1 & E2 & E3). destruct (decide (b = a)) as [->|].
  - rewrite lookup_alter_eq in H1. destruct (m !! a) as [r|]; [|done]. injection H1 as <-. exists r. split; [done|]. unfold raised. cbn in *. intuition lia.
  - rewrite lookup_alter_ne in H1 by done. by exists r1.
Qed.
Lemma boosted_all_dom l a : forall m : gmap Z process, is_Some (m !! a) -> is_Some (boosted_all l m !! a).
Proof.
  unfold boosted_all. induction l as [|b l IH]; intros m Hx; [done|]. cbn [foldl]. apply IH.
  destruct (decide (b = a)) as [->|]; [rewrite lookup_alter_eq; by apply fmap_is_Some|by rewrite lookup_alter_ne].
Qed.
Lemma boost_raised l (m m' : gmap Z process) a r : qstrip <$> m' = boosted_all l (qstrip <$> m) -> m' !! a = Some r ->
  exists r0, m !! a = Some r0 /\ raised r0 r.
Proof.
  intros E Hr. apply (f_equal (fun x : gmap Z process => x !! a)) in E. rewrite lookup_fmap, Hr in E. symmetry in E.
  apply boosted_all_raised in E as (r1 & H1 & H2). rewrite lookup_fmap in H1. destruct (m !! a) as [r0|]; [|done]. injection H1 as <-.
  exists r0. split; [done|]. exact H2.
Qed.

Lemma concat_elem (ls : list (list Z)) a : a ∈ concat ls <-> exists q, q ∈ ls /\ a ∈ q.
Proof.
  induction ls as [|q ls IH]; cbn [concat]; [split; [by intros ?%not_elem_of_nil|by intros (? & ?%not_elem_of_nil & _)]|].
  rewrite elem_of_app, IH. split.
  - intros [H|(q' & ? & ?)]; [exists q|exists q']; (split; [|done]); [by left|by right].
  - intros (q' & [->|H]%elem_of_cons & ?); [by left|right; by exists q'].
Qed.

Lemma boost_alive s s1 l l0 l1 l2 l3 : alive s l [l0; l1; l2; l3] -> mlfq_wf s1 (boost [l0; l1; l2; l3]) -> only_queues (set_global_ticks 0 s) s1 ->
  qstrip <$> procs s1 = boosted_all (l1 ++ l2 ++ l3) (qstrip <$> procs s) -> alive s1 l (boost [l0; l1; l2; l3]).
Proof.
  intros [Hok Ht Hg Hc Hall] Hwf Ho Hs. pose proof Hok as [Hr Hwf0 Hp Hm Hcl Hi His].
  destruct (only_queues_fields _ _ Ho) as (Eq & Ec & Ei & _ & Eg). cbn in Eq, Ec, Ei, Eg.
  assert (Hdom : forall a r0, procs s !! a = Some r0 -> exists r, procs s1 !! a = Some r).
  { intros a r0 Ha. assert (Hx : is_Some ((qstrip <$> procs s1) !! a)) by (rewrite Hs; apply boosted_all_dom; rewrite lookup_fmap, Ha; done).
    rewrite lookup_fmap in Hx. apply fmap_is_Some in Hx as [r Hx]. by exists r. }
  assert (Hin : forall a, a ∈ concat [l0; l1; l2; l3] -> a ∈ l).
  { intros a (q & Hq & Ha)%concat_elem. rewrite Forall_forall in Hm. by apply (Hm q). }
  assert (Hlists : forall l', l' ∈ boost [l0; l1; l2; l3] -> l' = concat [l0; l1; l2; l3] \/ l' = []).
  { unfold boost. intros l'. rewrite !elem_of_cons. intros [->|[->|[->|[->|?%not_elem_of_nil]]]]; [by left|by right..|done]. }
  split; [split|..].
  - destruct Hr as [H1 H2 H3 H4 H5]. split; try done; [congruence|]. eapply edges_ext; [|exact H5]. intros a r0 _ Ha.
    destruct (Hdom a r0 Ha) as [r Hra]. exists r. split; [done|]. destruct (boost_raised _ _ _ a r Hs Hra) as (r1 & H' & E1 & E2 & _).
    rewrite Ha in H'. injection H' as <-. done.
  - done.
  - intros a r Ha Hra. destruct (boost_raised _ _ _ a r Hs Hra) as (r0 & H0 & _ & _ & E). pose proof (Hp a r0 Ha H0). destruct E; lia.
  - apply Forall_forall. intros q [->| ->]%Hlists a Ha; [by apply Hin|by apply not_elem_of_nil in Ha].
  - by rewrite Ec.
  - by rewrite Ei.
  - rewrite Ei, <- state_of_qstrip, Hs. unfold state_of. rewrite boosted_all_other; [by rewrite lookup_fmap; unfold state_of in His; destruct (procs s !! idle_process s)|].
    unfold state_of in His. destruct (procs s !! idle_process s) as [ri|] eqn:Hri; [|done]. injection His as His.
    assert (Hnot : forall q, q ∈ [l0; l1; l2; l3] -> idle_process s ∉ q) by (eapply not_queued; [exact Hwf0|exact Hri|by rewrite His]).
    rewrite !elem_of_app. intros [H|[H|H]]; revert H; apply Hnot; rewrite !elem_of_cons; tauto.
  - intros a r Ha Hra. destruct (boost_raised _ _ _ a r Hs Hra) as (r0 & H0 & _ & _ & E). pose proof (Ht a r0 Ha H0). destruct E; lia.
  - rewrite Eg. unfold PRIORITY_BOOST_INTERVAL. lia.
  - rewrite Ec. intros q [->| ->]%Hlists; [|apply not_elem_of_nil]. intros (q & Hq & Ha)%concat_elem. by apply (Hc q).
  - intros a [r Hra]. destruct (boost_raised _ _ _ a r Hs Hra) as (r0 & H0 & _). by apply Hall.
Qed.

Lemma wp_tick_hundredth s l ls : alive s l ls -> global_ticks s = PRIORITY_BOOST_INTERVAL - 1 ->
  wp tick (fun b s' => b = true /\ alive s' l (boost ls) /\ current_process s' = current_process s) s.
Proof.
  intros Hal Hg. pose proof Hal as [Hok _ _ _ _]. pose proof (so_queues _ _ _ Hok) as Hwf. pose proof Hwf as (_ & Hlen & _).
  destruct ls as [|l0 [|l1 [|l2 [|l3 [|]]]]]; try discriminate Hlen. destruct (ring_member s l _ (so_ring _ _ _ Hok) (so_current _ _ _ Hok)) as (Hc0 & _).
  unfold tick. wp_steps. rewrite Hg. change (PRIORITY_BOOST_INTERVAL <=? u32 (PRIORITY_BOOST_INTERVAL - 1 + 1)) with true. cbv iota. wp_steps.
  eapply wp_mono; [apply (wp_mlfq_boost_all _ l0 l1 l2 l3); exact Hwf|]. intros [] s1 (Hwf1 & Ho & Hs). cbn [procs set_global_ticks] in Hs.
  assert (Ho' : only_queues (set_global_ticks 0 s) s1) by (unfold only_queues in *; rewrite Ho; by destruct s).
  pose proof (boost_alive s s1 l l0 l1 l2 l3 Hal Hwf1 Ho' Hs) as Hal1. destruct (only_queues_fields _ _ Ho') as (_ & Ec & _ & _ & Eg). cbn in Ec, Eg.
  cbn [current_process idle_process set_global_ticks]. destruct (Z.eqb_spec (current_process s) 0); [done|]. cbn [negb andb].
  destruct (current_process s =? idle_process s); cbn [negb]; wp_steps; [done|].
  destruct (ring_member s1 l (current_process s) (so_ring _ _ _ (al_ok _ _ _ Hal1))) as (_ & r1 & Hr1); [apply (so_current _ _ _ Hok)|].
  eapply wp_pset; [exact Hr1|]. eapply wp_pset; [cbn; by rewrite lookup_alter_eq, Hr1|]. wp_steps. split_and!; [done| |done].
  assert (Hacc : accounts (fun r => set_ticks_executed 0 (set_priority 0 r))) by (intros r; cbn; split_and!; try done; lia).
  pose proof (alive_account s1 l _ _ 0 Hal1 Hacc ltac:(unfold PRIORITY_BOOST_INTERVAL; lia)) as H. rewrite Ec in H.
  rewrite (alter_known _ _ _ r1 Hr1) in H. rewrite (alter_known _ _ _ r1 Hr1). cbn [procs set_procs]. rewrite (alter_known _ _ _ _ (lookup_insert_eq _ _ _)), insert_insert_eq.
  destruct s1. cbn in Eg. subst. exact H.
Qed.

(** ** Leaving and waking *)

Lemma alive_leave s l ls st : alive s l ls -> current_process s <> idle_process s ->
  alive (set_procs (alter (set_p_state st) (current_process s) (procs s)) s) l ls.
Proof.
  intros [Hok Ht Hg Hc Hall] Hne. pose proof Hok as [Hr Hwf Hp Hm Hcl Hi His]. split; [split|..]; cbn; try done.
  - by apply (links_same_ring s); [apply links_same_alter|..].
  - pose proof (mlfq_wf_set_state s ls st (current_process s) (current_process s) Hwf Hc) as H. by destruct s.
  - by apply (links_same_prio (procs s)); [apply links_same_alter|].
  - unfold state_of in *. by rewrite lookup_alter_ne.
  - apply (ticks_ok_same (procs s)); [|done]. intros a. by apply alter_field.
  - apply (same_dom ptime (procs s)); [|done]. intros a. by apply alter_field.
Qed.

Lemma wp_wake_alive s l ls q r : alive s l ls -> q ∈ l -> procs s !! q = Some r -> waiting (p_state r) = true -> q <> current_process s ->
  wp (mlfq_enqueue q) (fun _ s' => alive s' l (enq ls (prio_of (procs s) q) q) /\ current_process s' = current_process s /\
    global_ticks s' = global_ticks s /\ (forall a, ptime <$> procs s' !! a = ptime <$> procs s !! a) /\ (forall a, a <> q -> state_of (procs s') a = state_of (procs s) a)) s.
Proof.
  intros [Hok Ht Hg Hc Hall] Hq Hrq Hw Hne. pose proof Hok as [Hr Hwf Hp Hm Hcl Hi His].
  destruct (ring_member s l q Hr Hq) as (Hq0 & _). pose proof (Hp q r Hq Hrq) as Hpr. pose proof Hwf as (_ & Hlen & _).
  assert (Hst : p_state r <> PROCESS_READY /\ p_state r <> PROCESS_DEAD /\ p_state r <> PROCESS_RUNNING) by (destruct (p_state r); done).
  assert (Hnq : forall l', l' ∈ ls -> q ∉ l') by (eapply not_queued; [exact Hwf|exact Hrq|apply Hst]).
  pose proof (prio_of_lookup _ q r Hrq ltac:(lia)) as Ej. destruct (ready_list ls (prio_of (procs s) q) Hlen ltac:(lia)) as [l0 Hl0].
  eapply wp_mono; [apply (wp_mlfq_enqueue s ls q r (prio_of (procs s) q) l0); try done; apply Hst|]. intros [] s' (Hwf' & Ho & E).
  destruct (only_queues_fields s s' Ho) as (Eq & Ec & Ei & _ & Eg).
  assert (Hpt : forall a, ptime <$> procs s' !! a = ptime <$> procs s !! a).
  { intros a. assert (Hm' : forall t : gmap Z process, ptime <$> (qstrip <$> t) !! a = ptime <$> t !! a) by (intros t; rewrite lookup_fmap; by destruct (t !! a)).
    rewrite <- Hm', E, alter_field by done. apply Hm'. }
  assert (Hss : forall a, a <> q -> state_of (procs s') a = state_of (procs s) a).
  { intros a Ha. rewrite <- state_of_qstrip, E. unfold state_of at 1. rewrite lookup_alter_ne by done. apply state_of_qstrip. }
  assert (Hl : links_same (procs s) (procs s')).
  { apply links_same_qstrip. rewrite E. apply links_same_alter. }
  assert (Hqi : idle_process s <> q).
  { intros <-. unfold state_of in His. rewrite Hrq in His. injection His as His. destruct Hst as (_ & _ & ?). done. }
  split_and!; try done. split; [split|..].
  - by apply (links_same_ring s).
  - done.
  - by apply (links_same_prio (procs s)).
  - by apply enq_member.
  - by rewrite Ec.
  - by rewrite Ei.
  - rewrite Ei. by rewrite Hss.
  - by apply (ticks_ok_same (procs s)).
  - by rewrite Eg.
  - rewrite Ec. intros l' Hl' Hin. destruct (enq_elem _ _ _ _ _ Hl' Hin) as [E'|(l1 & H1 & H2)]; [by apply Hne|by apply (Hc l1)].
  - by apply (same_dom ptime (procs s)).
Qed.

(** The ready lists hold each process once. *)
Lemma lists_nodup s ls : mlfq_wf s ls -> NoDup (concat ls).
Proof.
  intros (_ & _ & H).
  assert (Hgen : forall i, (forall j q, ls !! j = Some q -> NoDup q /\ members s (i + j) q) -> NoDup (concat ls)).
  { clear H. induction ls as [|q ls IH]; intros i H; cbn [concat]; [constructor|]. apply NoDup_app. split_and!.
    - apply (H 0%nat q). done.
    - intros a Ha (q' & [j Hj]%list_elem_of_lookup & Ha')%concat_elem. destruct (H 0%nat q ltac:(done)) as [_ H1]. destruct (H (S j) q' Hj) as [_ H2].
      pose proof (members_disjoint _ _ _ _ _ _ H1 H2 Ha Ha'). lia.
    - apply (IH (S i)). intros j q' Hj. replace (S i + j)%nat with (i + S j)%nat by lia. by apply (H (S j)). }
  apply (Hgen 0%nat). intros j q Hj. destruct (H j q Hj) as [(qe & _ & _ & _ & _ & (Hnd & _)) Hm]. done.
Qed.
Lemma lists_length s l ls : sched_ok s l ls -> (length (concat ls) <= length l)%nat.
Proof.
  intros [Hr Hwf _ Hm _ _ _]. apply submseteq_length, NoDup_submseteq; [by apply (lists_nodup s)|].
  intros a (q & Hq & Ha)%concat_elem. rewrite Forall_forall in Hm. by apply (Hm q).
Qed.

(** ** Waiting *)

Inductive waits (s : sched) (l : list Z) (ls : list (list Z)) (p n : Z) : Prop :=
  | far j pre : alive s l ls -> placed ls j pre p -> PRIORITY_BOOST_INTERVAL - global_ticks s + 2 * Z.of_nat (length l) <= n -> waits s l ls p n
  | near pre rc : alive s l ls -> placed ls 0 pre p -> procs s !! current_process s = Some rc -> p_state rc = PROCESS_RUNNING ->
      priority rc = 0 -> 2 - ticks_executed rc + 2 * Z.of_nat (length pre) <= n -> waits s l ls p n.

Lemma placed_in s l ls j pre p : alive s l ls -> placed ls j pre p -> p <> 0 /\ p ∈ l.
Proof.
  intros [Hok _ _ _ _] [post H]. assert (Hp : p ∈ l).
  { pose proof (so_member _ _ _ Hok) as Hm. rewrite Forall_forall in Hm. apply (Hm _ (list_elem_of_lookup_2 _ _ _ H)). set_solver. }
  split; [|done]. intros ->. by apply (rg_null _ _ (so_ring _ _ _ Hok)).
Qed.
Lemma waits_pos s l ls p n : waits s l ls p n -> 0 < n.
Proof.
  intros [j pre Hal _ Hn|pre rc Hal _ Hrc _ Hpr Hn].
  - pose proof (al_count _ _ _ Hal). lia.
  - pose proof (al_ticks _ _ _ Hal _ _ (so_current _ _ _ (al_ok _ _ _ Hal)) Hrc). lia.
Qed.

Lemma next_of s l ls p : fst (pick (ready_lists s l ls)) = p -> p <> 0 -> next_proc s l ls = p.
Proof. unfold next_proc. cbv zeta. intros -> Hp. by case_bools. Qed.

Lemma wp_choose_near s l ls pre p : alive s l ls -> placed ls 0 pre p ->
  wp choose_next (fun _ s' => current_process s' = p \/ exists ls', waits s' l ls' p (2 * Z.of_nat (length pre))) s.
Proof.
  intros Hal Hpl. destruct (placed_in _ _ _ _ _ _ Hal Hpl) as [Hp0 _]. eapply wp_mono; [by apply (wp_choose_alive s l ls)|].
  intros _ s' (Hal' & Hc & _ & Hpt & Hrun). destruct (pick_first_placed _ _ _ (ready_placed s l ls 0 pre p Hpl)) as [E|(a & pre' & -> & E & Hpl')].
  { left. rewrite Hc. by apply next_of. }
  right. exists (snd (pick (ready_lists s l ls))). destruct Hpl as [post Hls].
  pose proof (so_queues _ _ _ (al_ok _ _ _ Hal)) as (_ & _ & Hq). destruct (Hq 0%nat _ Hls) as [_ Hm].
  destruct (Hm a ltac:(by left)) as (ra & Hra & Hpa & _).
  assert (Ha : a ∈ l). { pose proof (so_member _ _ _ (al_ok _ _ _ Hal)) as Hmem. rewrite Forall_forall in Hmem. apply (Hmem _ (list_elem_of_lookup_2 _ _ _ Hls)). by left. }
  destruct (ring_member s l a (so_ring _ _ _ (al_ok _ _ _ Hal)) Ha) as (Ha0 & _). pose proof (next_of s l ls a E Ha0) as En.
  assert (Hne : current_process s <> a). { intros Hca. apply (al_current _ _ _ Hal _ (list_elem_of_lookup_2 _ _ _ Hls)). rewrite Hca. by left. }
  rewrite En in *. specialize (Hrun Hne). specialize (Hpt a). rewrite Hra in Hpt. unfold state_of in Hrun.
  destruct (procs s' !! a) as [ra'|] eqn:Hra'; [|done]. injection Hrun as Hrun. injection Hpt as Ht1 Ht2.
  pose proof (al_ticks _ _ _ Hal a ra Ha Hra). apply (near _ _ _ _ _ pre' ra'); try done; [by rewrite Hc|lia|cbn [length]; lia].
Qed.

Lemma wp_choose_far s l ls j pre p : alive s l ls -> placed ls j pre p ->
  wp choose_next (fun _ s' => current_process s' = p \/
    exists ls' pre', alive s' l ls' /\ placed ls' j pre' p /\ global_ticks s' = global_ticks s) s.
Proof.
  intros Hal Hpl. destruct (placed_in _ _ _ _ _ _ Hal Hpl) as [Hp0 _]. eapply wp_mono; [by apply (wp_choose_alive s l ls)|].
  intros _ s' (Hal' & Hc & Hg & _ & _). destruct (pick_placed _ _ _ _ (ready_placed s l ls j pre p Hpl)) as [E|(pre' & Hpl' & _)].
  - left. rewrite Hc. by apply next_of.
  - right. by exists (snd (pick (ready_lists s l ls))), pre'.
Qed.

(** What an event brings the turn of a waiting process nearer; a new process may run before. *)
Definition cost (e : event) : Z := match e with Tick => 1 | Arrive _ _ => -2 | _ => 0 end.

Lemma waits_mono s l ls p n n' : n <= n' -> waits s l ls p n -> waits s l ls p n'.
Proof. intros Hn [j pre ? ? ?|pre rc ? ? ? ? ? ?]; [by apply (far _ _ _ _ _ j pre); [..|lia]|by apply (near _ _ _ _ _ pre rc); [..|lia]]. Qed.

(** A choice between processes of which one has been waiting. *)
Lemma wp_choose_waits s l ls p j pre n : alive s l ls -> placed ls j pre p ->
  PRIORITY_BOOST_INTERVAL - global_ticks s + 2 * Z.of_nat (length l) <= n \/ (j = 0%nat /\ 2 * Z.of_nat (length pre) <= n) ->
  wp (choose_next ;; ret tt) (fun _ s' => current_process s' = p \/ exists ls', waits s' l ls' p n) s.
Proof.
  intros Hal Hpl Hn. wp_step. destruct Hn as [Hn|[-> Hn]].
  - eapply wp_mono; [by apply (wp_choose_far s l ls j pre p)|]. intros ? s' H. cbv beta in H. wp_step.
    destruct H as [H|(ls' & pre' & Hal' & Hpl' & Hg)]; [by left|right]. exists ls'. apply (far _ _ _ _ _ j pre'); [done|done|lia].
  - eapply wp_mono; [by apply (wp_choose_near s l ls pre p)|]. intros ? s' H. cbv beta in H. wp_step.
    destruct H as [H|(ls' & Hw)]; [by left|right]. exists ls'. by apply (waits_mono _ _ _ _ (2 * Z.of_nat (length pre))).
Qed.

Lemma boost_placed s l ls j pre p : alive s l ls -> placed ls j pre p ->
  exists pre', placed (boost ls) 0 pre' p /\ (length pre' < length l)%nat /\ (j = 0%nat -> pre' = pre).
Proof.
  intros Hal [post H]. pose proof (lists_length _ _ _ (al_ok _ _ _ Hal)) as Hlen.
  pose proof (take_drop_middle ls j _ H) as E. set (A := take j ls) in *. set (C := drop (S j) ls) in *.
  assert (Ec : concat ls = (concat A ++ pre) ++ p :: post ++ concat C).
  { rewrite <- E, concat_app. cbn [concat]. by rewrite <- !app_assoc. }
  exists (concat A ++ pre). split_and!.
  - exists (post ++ concat C). unfold boost. cbn. by rewrite Ec.
  - rewrite Ec, length_app in Hlen. cbn [length] in Hlen. lia.
  - intros ->. unfold A. by rewrite take_0.
Qed.

Lemma wp_tick_waits s l ls p n : waits s l ls p n ->
  wp (run_event Tick) (fun _ s' => current_process s' = p \/ exists ls', waits s' l ls' p (n - 1)) s.
Proof.
  intros Hw. cbn [run_event]. wp_step. assert (Hal : alive s l ls) by (by destruct Hw).
  pose proof (al_count _ _ _ Hal) as Hg. destruct (decide (global_ticks s = PRIORITY_BOOST_INTERVAL - 1)) as [Eg|Eg].
  - eapply wp_mono; [by apply (wp_tick_hundredth s l ls)|]. intros b s' (-> & Hal' & _). destruct Hw as [j pre _ Hpl Hn|pre rc _ Hpl Hrc _ Hpr Hn].
    + destruct (boost_placed _ _ _ _ _ _ Hal Hpl) as (pre' & Hpl' & Hlt & _). apply (wp_choose_waits s' l (boost ls) p 0 pre'); [done|done|right]. split; [done|lia].
    + destruct (boost_placed _ _ _ _ _ _ Hal Hpl) as (pre' & Hpl' & Hlt & E). specialize (E eq_refl). subst pre'. apply (wp_choose_waits s' l (boost ls) p 0 pre); [done|done|right]. split; [done|].
      pose proof (al_ticks _ _ _ Hal _ _ (so_current _ _ _ (al_ok _ _ _ Hal)) Hrc). lia.
  - eapply wp_mono; [apply (wp_tick_alive s l ls Hal); lia|]. intros b s' (Hal' & Ec & Eg' & Hrun). destruct Hw as [j pre _ Hpl Hn|pre rc _ Hpl Hrc Hst Hpr Hn].
    + destruct b; [apply (wp_choose_waits s' l ls p j pre); [done|done|left; lia]|]. wp_step. right. exists ls. apply (far _ _ _ _ _ j pre); [done|done|lia].
    + pose proof (al_ticks _ _ _ Hal _ _ (so_current _ _ _ (al_ok _ _ _ Hal)) Hrc). specialize (Hrun rc Hrc Hst).
      destruct b; [apply (wp_choose_waits s' l ls p 0 pre); [done|done|right; split; [done|lia]]|]. wp_step. right. exists ls.
      apply (near _ _ _ _ _ pre (set_ticks_executed (ticks_executed rc + 1) rc)); try done; [by rewrite Ec|cbn; lia].
Qed.

Lemma waits_choose s l ls p n : waits s l ls p n -> exists j pre, alive s l ls /\ placed ls j pre p /\
  (PRIORITY_BOOST_INTERVAL - global_ticks s + 2 * Z.of_nat (length l) <= n \/ (j = 0%nat /\ 2 * Z.of_nat (length pre) <= n)).
Proof.
  intros [j pre Hal Hpl Hn|pre rc Hal Hpl Hrc _ Hpr Hn]; [exists j, pre|exists 0%nat, pre]; split_and!; try done; [by left|right].
  pose proof (al_ticks _ _ _ Hal _ _ (so_current _ _ _ (al_ok _ _ _ Hal)) Hrc). split; [done|lia].
Qed.

(** The ring without [c]. *)
Lemma alive_reap s l1 c l2 ls r s' : alive s (l1 ++ c :: l2) ls -> procs s !! c = Some r -> p_state r = PROCESS_DEAD -> c <> current_process s ->
  without s l1 c l2 s' -> alive s' (l1 ++ l2) ls.
Proof.
  intros [Hok Ht Hg Hc Hall] Hr Hd Hne [Hring Hgone Hoth Hrest]. pose proof Hok as [Hri Hwf Hp Hm Hcl Hi His].
  assert (Hcq : forall q, q ∈ ls -> c ∉ q) by (eapply not_queued; [exact Hwf|exact Hr|by rewrite Hd]).
  assert (Hin : forall a, a ∈ l1 ++ c :: l2 -> a <> c -> a ∈ l1 ++ l2) by (intros a; rewrite !elem_of_app, elem_of_cons; tauto).
  assert (Hcur : current_process s ∈ l1 ++ l2) by (by apply Hin).
  assert (Hin' : forall a, a ∈ l1 ++ l2 -> a ∈ l1 ++ c :: l2) by (intros a; rewrite !elem_of_app, elem_of_cons; tauto).
  assert (Hlk : forall a r', procs s' !! a = Some r' -> a <> c /\ exists r0, procs s !! a = Some r0 /\ rstrip r' = rstrip r0).
  { intros a r' Ha. destruct (decide (a = c)) as [->|Hac]; [congruence|]. split; [done|]. specialize (Hoth a Hac). rewrite Ha in Hoth.
    destruct (procs s !! a) as [r0|]; [|done]. apply (inj Some) in Hoth. by exists r0. }
  assert (Hic : idle_process s <> c) by (intros E; unfold state_of in His; rewrite E, Hr in His; cbn in His; rewrite Hd in His; done).
  assert (E : mlfq s' = mlfq s /\ current_process s' = current_process s /\ idle_process s' = idle_process s /\ global_ticks s' = global_ticks s) by (by rewrite Hrest).
  destruct E as (Em & Ec & Ei & Eg). split; [split|..].
  - case_bool_decide as E; [rewrite E in Hcur; by apply not_elem_of_nil in Hcur|done].
  - apply (mlfq_wf_ext s); [done| |done]. intros q a ra Hq Ha Hra. assert (Hac : a <> c) by (intros ->; by apply (Hcq q)). specialize (Hoth a Hac).
    rewrite Hra in Hoth. destruct (procs s' !! a) as [r'|]; [|done]. exists r'. split; [done|]. apply (inj Some) in Hoth.
    change (qpart (rstrip r') = qpart (rstrip ra)). by rewrite Hoth.
  - intros a r' Ha (Hac & r0 & H0 & E0)%Hlk. change (0 <= priority (rstrip r') < 4). rewrite E0. by apply (Hp a r0); [apply Hin'|].
  - apply Forall_forall. intros q Hq a Ha. rewrite Forall_forall in Hm. apply Hin; [by apply (Hm q)|]. intros ->. by apply (Hcq q).
  - by rewrite Ec.
  - rewrite Ei. by apply Hin.
  - rewrite Ei. unfold state_of in *. specialize (Hoth _ Hic). destruct (procs s !! idle_process s) as [ri|], (procs s' !! idle_process s) as [ri'|]; try done.
    apply (inj Some) in Hoth. cbn in *. rewrite <- His. f_equal. change (p_state (rstrip ri') = p_state (rstrip ri)). by rewrite Hoth.
  - intros a r' Ha (Hac & r0 & H0 & E0)%Hlk. change (0 <= ticks_executed (rstrip r') < 2 * (priority (rstrip r') + 1)). rewrite E0. by apply (Ht a r0); [apply Hin'|].
  - by rewrite Eg.
  - by rewrite Ec.
  - intros a [r' (Hac & r0 & H0 & _)%Hlk]. apply Hin; [|done]. apply Hall. by exists r0.
Qed.
(** The ring with [c] behind the others. *)
Lemma alive_arrive s l ls c r s' : alive s l ls -> procs s !! c = None -> c <> 0 ->
  enlisted l ls (set_procs (<[c := set_p_state PROCESS_READY r]> (procs s)) s) c (set_p_state PROCESS_READY r) s' ->
  alive s' (l ++ [c]) (enq ls 0 c) /\ current_process s' = current_process s /\ global_ticks s' = global_ticks s /\
  (forall a, a <> c -> unlinked_part <$> procs s' !! a = unlinked_part <$> procs s !! a).
Proof.
  intros [Hok Ht Hg Hc Hall] Hcn Hc0 [A1 A2 (rc & Hrc & Erc) A4 A5]. pose proof Hok as [Hri Hwf Hp Hm Hcl Hi His].
  assert (Hin : forall a, a ∈ l -> a <> c) by (intros a Ha ->; destruct (ring_member _ _ _ Hri Ha) as (_ & ra & Hra); congruence).
  assert (Hoth : forall a, a <> c -> unlinked_part <$> procs s' !! a = unlinked_part <$> procs s !! a) by (intros a Ha; rewrite A4 by done; cbn; by rewrite lookup_insert_ne).
  assert (E : current_process s' = current_process s /\ idle_process s' = idle_process s /\ global_ticks s' = global_ticks s) by (by rewrite A5).
  destruct E as (Ec & Ei & Eg). split_and!; [|done|done|done].
  assert (Hlk : forall a r', procs s' !! a = Some r' -> (a = c /\ r' = rc) \/ exists r0, a <> c /\ procs s !! a = Some r0 /\ unlinked_part r' = unlinked_part r0).
  { intros a r' Ha. destruct (decide (a = c)) as [->|Hac]; [left; split; [done|congruence]|right]. specialize (Hoth a Hac). rewrite Ha in Hoth.
    destruct (procs s !! a) as [r0|]; [|done]. apply (inj Some) in Hoth. by exists r0. }
  assert (Hc4 : ptime rc = (0, 0)) by (change (ptime (unlinked_part rc) = (0, 0)); by rewrite Erc).
  injection Hc4 as Hc4 Hc5. split; [split|..]; [done|done| | |by rewrite Ec; apply elem_of_app; left|by rewrite Ei; apply elem_of_app; left| | |by rewrite Eg| |].
  - intros a r' Ha [[-> ->]|(r0 & Hac & H0 & E0)]%Hlk; [lia|]. change (0 <= priority (unlinked_part r') < 4). rewrite E0. apply (Hp a r0); [|done]. apply Hall. by exists r0.
  - apply enq_member; [by apply elem_of_app; right; left|]. eapply Forall_impl; [exact Hm|]. intros q Hq a Ha. apply elem_of_app. left. by apply Hq.
  - rewrite Ei. unfold state_of in *. specialize (Hoth _ (Hin _ Hi)). destruct (procs s !! idle_process s) as [ri|], (procs s' !! idle_process s) as [ri'|]; try done.
    apply (inj Some) in Hoth. cbn in *. rewrite <- His. f_equal. change (p_state (unlinked_part ri') = p_state (unlinked_part ri)). by rewrite Hoth.
  - intros a r' Ha [[-> ->]|(r0 & Hac & H0 & E0)]%Hlk; [lia|]. change (0 <= ticks_executed (unlinked_part r') < 2 * (priority (unlinked_part r') + 1)).
    rewrite E0. apply (Ht a r0); [|done]. apply Hall. by exists r0.
  - rewrite Ec. intros q Hq Ha. destruct (enq_elem _ _ _ _ _ Hq Ha) as [E'|(l1 & H1 & H2)]; [by apply (Hin _ Hcl)|by apply (Hc l1)].
  - intros a [r' [[-> ->]|(r0 & _ & H0 & _)]%Hlk]; apply elem_of_app; [right; by left|left]. apply Hall. by exists r0.
Qed.

(** The current process goes on, and [p] stays where it is. *)
Lemma waits_kept (f : process -> process) s l ls s' l' ls' p n m : (forall r, ptime (f r) = ptime r /\ p_state (f r) = p_state r) -> alive s' l' ls' ->
  (forall j pre, placed ls j pre p -> placed ls' j pre p) -> current_process s' = current_process s -> global_ticks s' = global_ticks s ->
  f <$> procs s' !! current_process s = f <$> procs s !! current_process s -> 0 <= m -> Z.of_nat (length l') <= Z.of_nat (length l) + m ->
  waits s l ls p n -> waits s' l' ls' p (n + 2 * m).
Proof.
  intros Hf Hal' Hpl Ec Eg Er Hm Hlen [j pre _ Hp Hn|pre rc _ Hp Hrc Hst Hpr Hn].
  - apply (far _ _ _ _ _ j pre); [done|by apply Hpl|lia].
  - rewrite Hrc in Er. destruct (procs s' !! current_process s) as [rc'|] eqn:Hrc'; [|done]. apply (inj Some) in Er.
    destruct (Hf rc) as [E1 E2], (Hf rc') as [E3 E4]. rewrite Er in E3, E4. rewrite E1 in E3. rewrite E2 in E4. injection E3 as E5 E6.
    apply (near _ _ _ _ _ pre rc'); [done|by apply Hpl|by rewrite Ec|congruence|lia|lia].
Qed.

Lemma wp_arrive_waits s l ls p n c r : waits s l ls p n ->
  wp (run_event (Arrive c r)) (fun _ s' => exists l' ls', waits s' l' ls' p (n + 2)) s.
Proof.
  intros Hw. assert (Hal : alive s l ls) by (by destruct Hw). pose proof (waits_mono _ _ _ _ n (n + 2) ltac:(lia) Hw) as Hw'.
  cbn [run_event]. wp_steps. destruct (procs s !! c) as [old|] eqn:Hcn; [wp_step; by exists l, ls|].
  destruct (Z.eqb_spec c 0) as [|Hc0]; [wp_step; by exists l, ls|]. wp_steps. pose proof (al_ok _ _ _ Hal) as [Hri Hwf _ Hm _ _ _].
  assert (Hcl : c ∉ l) by (intros Hin; destruct (ring_member _ _ _ Hri Hin) as (_ & ra & Hra); congruence).
  assert (Hcq : forall q, q ∈ ls -> c ∉ q) by (intros q Hq Hin; rewrite Forall_forall in Hm; by apply Hcl, (Hm q)).
  eapply wp_mono; [apply (wp_enlist l ls _ c (set_p_state PROCESS_READY r)); try done|].
  - by apply ring_insert.
  - apply (mlfq_wf_ext s); [done| |done]. intros q a ra Hq Ha Hra. exists ra. split; [|done]. cbn. rewrite lookup_insert_ne; [done|]. intros ->. by apply (Hcq q).
  - apply lookup_insert_eq.
  - intros u s' Had. destruct (alive_arrive s l ls c r s' Hal Hcn Hc0 Had) as (Hal' & Ec & Eg & Hoth). exists (l ++ [c]), (enq ls 0 c).
    apply (waits_kept unlinked_part s l ls s' (l ++ [c]) (enq ls 0 c) p n 1); try done; [intros; by apply enq_placed|apply Hoth|rewrite length_app; cbn; lia].
    intros E. pose proof (so_current _ _ _ (al_ok _ _ _ Hal)) as Hin. rewrite E in Hin. done.
Qed.

Lemma wp_reap_waits s l ls p n c : waits s l ls p n ->
  wp (run_event (Reap c)) (fun _ s' => exists l' ls', waits s' l' ls' p n) s.
Proof.
  intros Hw. assert (Hal : alive s l ls) by (by destruct Hw). cbn [run_event]. wp_steps.
  destruct (procs s !! c) as [r|] eqn:Hr; [|wp_step; by exists l, ls].
  destruct (Z.eqb_spec c (current_process s)) as [|Hne]; cbn [negb andb]; [wp_step; by exists l, ls|].
  case_bool_decide as Hd; [|wp_step; by exists l, ls]. pose proof (so_ring _ _ _ (al_ok _ _ _ Hal)) as Hri.
  assert (Hc : c ∈ l) by (apply (al_all _ _ _ Hal); by exists r). apply list_elem_of_split in Hc as (l1 & l2 & ->).
  wp_step. eapply wp_mono; [by apply wp_ring_unlink|]. intros [] s1 Hu. wp_steps. pose proof (unlinked_without s l1 c l2 s1 (rg_nodup _ _ Hri) Hu) as Hwo.
  exists (l1 ++ l2), ls. pose proof (alive_reap s l1 c l2 ls r _ Hal Hr Hd Hne Hwo) as Hal'. destruct Hwo as [_ _ Hoth Hrest].
  replace n with (n + 2 * 0) by lia. set (s' := set_procs _ s1) in *.
  apply (waits_kept rstrip s (l1 ++ c :: l2) ls s'); try done; [by rewrite Hrest|by rewrite Hrest|apply Hoth; congruence|rewrite !length_app; cbn; lia].
Qed.

Lemma wp_wake_waits s l ls p n q : waits s l ls p n ->
  wp (run_event (Wake q)) (fun _ s' => exists ls', waits s' l ls' p n) s.
Proof.
  intros Hw. assert (Hal : alive s l ls) by (by destruct Hw). cbn [run_event]. wp_steps. destruct (procs s !! q) as [r|] eqn:Hr; [|wp_step; by exists ls].
  destruct (Z.eqb_spec q (current_process s)) as [|Hne]; cbn [negb andb]; [wp_step; by exists ls|].
  destruct (waiting (p_state r)) eqn:Hwt; [|wp_step; by exists ls]. assert (Hq : q ∈ l) by (apply (al_all _ _ _ Hal); by exists r).
  eapply wp_mono; [by apply (wp_wake_alive s l ls q r)|]. intros ? s' (Hal' & Ec & Eg & Hpt & Hss). exists (enq ls (prio_of (procs s) q) q).
  destruct Hw as [j pre _ Hpl Hn|pre rc _ Hpl Hrc Hst Hpr Hn].
  - apply (far _ _ _ _ _ j pre); [done|by apply enq_placed|lia].
  - specialize (Hpt (current_process s)). specialize (Hss (current_process s) ltac:(done)). unfold state_of in Hss. rewrite Hrc in Hpt, Hss.
    destruct (procs s' !! current_process s) as [rc'|] eqn:Hrc'; [|done]. injection Hpt as E1 E2. injection Hss as E3.
    apply (near _ _ _ _ _ pre rc'); [done|by apply enq_placed|by rewrite Ec|congruence|lia|lia].
Qed.

Lemma wp_event s l ls p n e : waits s l ls p n ->
  wp (run_event e) (fun _ s' => current_process s' = p \/ exists l' ls', waits s' l' ls' p (n - cost e)) s.
Proof.
  intros Hw. destruct e as [|st| |q|c r|c]; cbn [cost].
  - eapply wp_mono; [by apply (wp_tick_waits s l ls)|]. intros ? s' [|(ls' & ?)]; [by left|right; by exists l, ls'].
  - rewrite Z.sub_0_r. cbn [run_event]. wp_steps. destruct (Z.eqb_spec (current_process s) (idle_process s)) as [|Hne]; cbn [negb andb]; [wp_step; right; by exists l, ls|].
    destruct (gone st); [|wp_step; right; by exists l, ls]. destruct (waits_choose _ _ _ _ _ Hw) as (j & pre & Hal & Hpl & Hn).
    destruct (ring_member s l _ (so_ring _ _ _ (al_ok _ _ _ Hal)) (so_current _ _ _ (al_ok _ _ _ Hal))) as (_ & rc & Hrc).
    wp_step. eapply wp_pset; [exact Hrc|]. eapply wp_mono; [apply (wp_choose_waits _ l ls p j pre n); [by apply alive_leave|done|done]|].
    intros ? s' [|(ls' & ?)]; [by left|right; by exists l, ls'].
  - rewrite Z.sub_0_r. destruct (waits_choose _ _ _ _ _ Hw) as (j & pre & Hal & Hpl & Hn).
    eapply wp_mono; [by apply (wp_choose_waits s l ls p j pre n)|]. intros ? s' [|(ls' & ?)]; [by left|right; by exists l, ls'].
  - rewrite Z.sub_0_r. eapply wp_mono; [by apply (wp_wake_waits s l ls p n)|]. intros ? s' (ls' & ?). right. by exists l, ls'.
  - replace (n - -2) with (n + 2) by lia. eapply wp_mono; [by apply (wp_arrive_waits s l ls p n)|]. intros ? s' ?. by right.
  - rewrite Z.sub_0_r. eapply wp_mono; [by apply (wp_reap_waits s l ls p n)|]. intros ? s' ?. by right.
Qed.

Lemma waits_runs p es : forall s l ls n, waits s l ls p n -> n + 2 * arrivals es <= ticks es -> runs_within p es s.
Proof.
  induction es as [|e es IH]; intros s l ls n Hw Hn; [apply waits_pos in Hw; cbn in Hn; lia|].
  cbn [runs_within]. eapply wp_mono; [by apply (wp_event s l ls p n e)|].
  intros ? s' [H|(l' & ls' & Hw')]; [by left|right]. apply (IH s' l' ls' _ Hw'). destruct e; cbn [ticks arrivals cost] in *; lia.
Qed.

(** C11: No process starves.  A process that is ready in any of the four queues is
    given the processor at the latest when the timer has ticked 100 times, twice for
    every process and twice for every process that is created in the meantime, whatever
    happens: the current processes run, yield, block, exit and create others, dead
    processes are removed, and devices wake waiting ones. *)
Theorem no_starvation s l ls p es : alive s l ls -> p ∈ concat ls ->
  PRIORITY_BOOST_INTERVAL + 2 * (Z.of_nat (length l) + arrivals es) <= ticks es -> runs_within p es s.
Proof.
  intros Hal (q & [j Hj]%list_elem_of_lookup & (pre & post & ->)%list_elem_of_split)%concat_elem Hn.
  apply (waits_runs p es s l ls (PRIORITY_BOOST_INTERVAL + 2 * Z.of_nat (length l))); [|lia].
  apply (far _ _ _ _ _ j pre); [done|by exists post|]. pose proof (al_count _ _ _ Hal). lia.
Qed.

(** ** An instance *)

Lemma demo_alive : alive (demo_ring_sched true) [1; 2; 3] (demo_lists true).
Proof.
  split; [apply demo_ring_ok| |vm_compute; split; [discriminate|reflexivity]| |].
  - intros a r Ha Hr. rewrite !elem_of_cons in Ha. destruct Ha as [->|[->|[->|?%not_elem_of_nil]]]; [..|done]; vm_compute in Hr; injection Hr as <-; vm_compute; split; [discriminate|reflexivity|discriminate|reflexivity|discriminate|reflexivity].
  - intros l' Hl'. unfold demo_lists in Hl'. rewrite !elem_of_cons in Hl'. apply (bool_decide_unpack _). destruct Hl' as [->|[->|[->|[->|?%not_elem_of_nil]]]]; [..|done]; vm_compute; exact I.
  - intros a [r Hr]. unfold demo_ring_sched in Hr. cbn [procs] in Hr.
    repeat (apply lookup_insert_Some in Hr as [[<- _]|[_ Hr]]; [rewrite !elem_of_cons; tauto|]). by apply lookup_empty_Some in Hr.
Qed.

(** A process is created, a dead one removed, and the timer ticks. *)
Definition demo_events : list event := Arrive 4 proc_zero :: Leave PROCESS_DEAD :: Reap 2 :: replicate 108 Tick.
Lemma no_starvation_witness : runs_within 3 demo_events (demo_ring_sched true).
Proof.
  apply (no_starvation (demo_ring_sched true) [1; 2; 3] (demo_lists true) 3 demo_events demo_alive).
  - apply concat_elem. exists [3]. split; [by left|by left].
  - vm_compute. discriminate.
Defined.
