(* ===== verification/Tty.v ===== *)
(** * The console (tty.c) and its font (font.c)

    Characters drawn into the linear frame buffer, the cursor, scrolling, and the
    search for the font among the boot modules.  The serial port that mirrors the
    output is port I/O and left out. *)

From S2P Require Import Prelude Mem CString.

Definition FG : Z := 0xffebdbb2.
Definition BG : Z := 0xff282828.

Record framebuffer := mkFb {
  base_address : Z;
  buffer_size : Z;
  fb_width : Z;
  fb_height : Z;
  pixels_per_scan_line : Z;
}.
Record renderer := mkRenderer {
  r_fb : framebuffer;
  cursor_x : Z;
  cursor_y : Z;
  color : Z;
  glyph_buffer : Z;
  charsize : Z;
}.
Definition set_cursor (x y : Z) (r : renderer) : renderer :=
  mkRenderer (r_fb r) x y (color r) (glyph_buffer r) (charsize r).

(** ** Drawing *)

(** The address of a pixel; every pixel has four bytes. *)
Definition pixel_at (fb : framebuffer) (x y : Z) : Z :=
  base_address fb + 4 * (x + y * pixels_per_scan_line fb).

Definition scroll_up (m : memory) (fb : framebuffer) : memory :=
  let stride := pixels_per_scan_line fb * 4 in
  let top := u64 (fb_height fb - 16) in
  let m := memmove m (base_address fb) (base_address fb + 16 * stride) (u64 (top * stride)) in
  for_up top (Z.to_nat (fb_height fb - top)) (fun y m =>
    for_up 0 (Z.to_nat (fb_width fb)) (fun x m => store32 m (pixel_at fb x y) BG) m) m.

(** [char] is signed, so the glyph of a character above 127 is looked for in
    front of the table. *)
Definition s8 (z : Z) : Z := let r := u8 z in if r <? 128 then r else r - 256.

(** One line of a glyph: a pixel for every bit, the high bit on the left. *)
Definition put_row (r : renderer) (bits xOff y : Z) (m : memory) : memory :=
  for_up xOff 8 (fun x m =>
    store32 m (pixel_at (r_fb r) x y) (if Z.testbit bits (7 - (x - xOff)) then color r else BG)) m.
Definition put_char (m : memory) (r : renderer) (chr xOff yOff : Z) : memory :=
  let fontPtr := glyph_buffer r + s8 chr * charsize r in
  for_up yOff 16 (fun y m => put_row r (load8 m (fontPtr + (y - yOff))) xOff y m) m.

Definition clear (m : memory) (r : renderer) (c : Z) (resetCursor : bool) : memory * renderer :=
  let fb := r_fb r in
  (for_up 0 (Z.to_nat (fb_height fb)) (fun y m =>
     for_up 0 (Z.to_nat (fb_width fb)) (fun x m => store32 m (pixel_at fb x y) c) m) m,
   if resetCursor then set_cursor 0 0 r else r).

Definition init_renderer (fb : framebuffer) (glyphs size : Z) : renderer :=
  mkRenderer fb 0 0 FG glyphs size.

(** ** Printing *)

(** The memory and the cursor behind one character. *)
Definition advance (m : memory) (r : renderer) (chr : Z) : memory * Z * Z :=
  let x := cursor_x r in
  let y := cursor_y r in
  if chr =? 10 then (m, 0, u32 (y + 16))
  else if chr =? 9 then (m, u32 (x + 8), y)
  else if chr =? 8 then
    if 8 <=? x then (m, x - 8, y)
    else if 16 <=? y then (m, u32 ((fb_width (r_fb r) / 8 - 1) * 8), y - 16)
    else (m, x, y)
  else (put_char m r chr x y, u32 (x + 8), y).

Definition print_char_locked (s : memory * renderer) (chr : Z) : memory * renderer :=
  let '(m, r) := s in
  let '(m, x, y) := advance m r chr in
  let usable_width := fb_width (r_fb r) / 8 * 8 in
  let usable_height := fb_height (r_fb r) / 16 * 16 in
  let '(x, y) := if usable_width <? u32 (x + 8) then (0, u32 (y + 16)) else (x, y) in
  if usable_height <? u32 (y + 16) then (scroll_up m (r_fb r), set_cursor x (u32 (y - 16)) r)
  else (m, set_cursor x y r).

Definition print_n (s : memory * renderer) (str : list Z) : memory * renderer :=
  foldl print_char_locked s str.

(** [print]: the string ends at the first 0. *)
Fixpoint until_nul (str : list Z) : list Z :=
  match str with
  | [] => []
  | c :: str' => if c =? 0 then [] else c :: until_nul str'
  end.
Definition print (s : memory * renderer) (str : list Z) : memory * renderer := print_n s (until_nul str).

(** ** The font module *)

(** The comparison loop, from the last characters backwards: the rests of the two
    strings in front of the characters compared, last character first. *)
Fixpoint ends_loop (str end_ : list Z) : option bool :=
  match str, end_ with
  | c :: str', d :: end' =>
      if negb (c =? d) then Some false
      else match end', str' with
           | [_], _ => Some true
           | [], _ => None
           | _, [_] => Some false
           | _, _ => ends_loop str' end'
           end
  | _, _ => None
  end.
Definition check_string_ends_with (str end_ : list Z) : option bool := ends_loop (rev str) (rev end_).
