(* ===== verification/Console.v ===== *)
(** * The console is a grid of characters

    What the frame buffer shows after printing (tty.c): a grid of glyphs that
    characters are typed into, with a cursor, line breaks, backspace and
    scrolling.  Printing writes nowhere but into the frame buffer. *)

From S2P Require Import Prelude Mem CString Tty.

(** ** The grid *)

(** [cells i j]: the character at row [i] and column [j], [None] for a blank. *)
Record grid := mkGrid { cells : Z -> Z -> option Z; g_row : Z; g_col : Z }.
Definition blank : grid := mkGrid (fun _ _ => None) 0 0.

Section grid.
Context (W H : Z).

(** The cursor behind the last column goes to the next row; behind the last row
    everything moves up by one row. *)
Definition settle (c : Z -> Z -> option Z) (row col : Z) : grid :=
  let '(row, col) := if W <=? col then (row + 1, 0) else (row, col) in
  if H <=? row then mkGrid (fun i j => if i =? H - 1 then None else c (i + 1) j) (row - 1) col
  else mkGrid c row col.
Definition type_char (g : grid) (chr : Z) : grid :=
  let c := cells g in
  let row := g_row g in
  let col := g_col g in
  if chr =? 10 then settle c (row + 1) 0
  else if chr =? 9 then settle c row (col + 1)
  else if chr =? 8 then
    if 1 <=? col then mkGrid c row (col - 1) else if 1 <=? row then mkGrid c (row - 1) (W - 1) else g
  else settle (fun i j => if (i =? row) && (j =? col) then Some chr else c i j) row (col + 1).
End grid.

(** ** Pixels *)

Definition px (m : memory) (fb : framebuffer) (x y : Z) : Z := load32 m (pixel_at fb x y).
Definition in_fb (fb : framebuffer) (a : Z) : Prop :=
  base_address fb <= a < base_address fb + 4 * (pixels_per_scan_line fb * fb_height fb).

(** A screen of at least one character. *)
Record fb_ok (fb : framebuffer) : Prop := {
  fk_width : 8 <= fb_width fb <= pixels_per_scan_line fb;
  fk_height : 16 <= fb_height fb;
  fk_small : pixels_per_scan_line fb < 1073741824 /\ fb_height fb < 1073741824;
}.

Lemma pixel_index p x y x' y' : 0 <= x < p -> 0 <= x' < p -> x + y * p = x' + y' * p -> x = x' /\ y = y'.
Proof.
  intros Hx Hx' E. assert (y = y') by nia. subst. lia.
Qed.

Section fb.
Context (fb : framebuffer) (Hfb : fb_ok fb).
Abbreviation P := (pixels_per_scan_line fb).

Lemma px_store m x y x' y' c : 0 <= x < P -> 0 <= x' < P ->
  px (store32 m (pixel_at fb x' y') c) fb x y = if (x =? x') && (y =? y') then u32 c else px m fb x y.
Proof.
  intros Hx Hx'. unfold px, load32, store32, pixel_at.
  destruct (Z.eqb_spec x x') as [->|Hne]; [destruct (Z.eqb_spec y y') as [->|Hne]|]; cbn [andb].
  - apply load_le_store_le_eq.
  - apply load_le_store_le_ne.
    assert (x' + y * P <> x' + y' * P) by (intros E; apply Hne; by apply (pixel_index P x' y x' y')). lia.
  - apply load_le_store_le_ne.
    assert (x + y * P <> x' + y' * P) by (intros E; apply Hne; by apply (pixel_index P x y x' y')). lia.
Qed.

Lemma pixel_in_fb x y k : 0 <= x < P -> 0 <= y < fb_height fb -> 0 <= k < 4 -> in_fb fb (pixel_at fb x y + k).
Proof. intros Hx Hy Hk. unfold in_fb, pixel_at. assert (y * P + P <= P * fb_height fb) by nia. nia. Qed.

Lemma store_outside m x y c a : 0 <= x < P -> 0 <= y < fb_height fb -> ~ in_fb fb a ->
  load8 (store32 m (pixel_at fb x y) c) a = load8 m a.
Proof.
  intros Hx Hy Ha. unfold store32. rewrite load8_store_le. case_bools; try done. exfalso. apply Ha.
  replace a with (pixel_at fb x y + (a - pixel_at fb x y)) by lia. apply pixel_in_fb; lia.
Qed.

(** Everything outside the frame buffer is as before. *)
Definition outside (m m' : memory) : Prop := forall a, ~ in_fb fb a -> load8 m' a = load8 m a.

(** A filled rectangle: columns [0, w), rows [lo, hi). *)
Lemma fill_row m y w c : 0 <= y < fb_height fb -> 0 <= w <= P ->
  let m' := for_up 0 (Z.to_nat w) (fun x m => store32 m (pixel_at fb x y) c) m in
  outside m m' /\ forall x y', 0 <= x < P -> px m' fb x y' = if (y' =? y) && (x <? w) then u32 c else px m fb x y'.
Proof.
  intros Hy Hw.
  pose proof (for_up_inv (fun i m' => outside m m' /\ forall x y', 0 <= x < P ->
    px m' fb x y' = if (y' =? y) && (x <? i) then u32 c else px m fb x y') 0 (Z.to_nat w)
    (fun x m => store32 m (pixel_at fb x y) c) m) as Hinv. cbv beta in Hinv.
  replace (0 + Z.of_nat (Z.to_nat w)) with w in Hinv by lia. apply Hinv.
  - split; [done|]. intros x y' Hx. case_bools; (done || by rewrite andb_false_r).
  - intros i m1 Hi [Ho Hp]. split.
    + intros a Ha. rewrite store_outside by (done || lia). by apply Ho.
    + intros x y' Hx. rewrite px_store, Hp by lia. case_bools; done.
Qed.
Lemma fill_rows m lo n w c : 0 <= lo -> lo + Z.of_nat n <= fb_height fb -> 0 <= w <= P ->
  let m' := for_up lo n (fun y m => for_up 0 (Z.to_nat w) (fun x m => store32 m (pixel_at fb x y) c) m) m in
  outside m m' /\ forall x y, 0 <= x < P ->
    px m' fb x y = if (lo <=? y) && (y <? lo + Z.of_nat n) && (x <? w) then u32 c else px m fb x y.
Proof.
  intros Hlo Hhi Hw.
  apply (for_up_inv (fun i m' => outside m m' /\ forall x y, 0 <= x < P ->
    px m' fb x y = if (lo <=? y) && (y <? i) && (x <? w) then u32 c else px m fb x y)).
  - split; [done|]. intros x y Hx. case_bools; done.
  - intros i m1 Hi [Ho Hp]. destruct (fill_row m1 i w c) as [Ho' Hp']; [lia|lia|]. split.
    + intros a Ha. rewrite Ho' by done. by apply Ho.
    + intros x y Hx. rewrite Hp', Hp by done. case_bools; done.
Qed.

(** [clear] *)
Lemma clear_spec m r c b : r_fb r = fb ->
  outside m (clear m r c b).1 /\ forall x y, 0 <= x < fb_width fb -> 0 <= y < fb_height fb -> px (clear m r c b).1 fb x y = u32 c.
Proof.
  intros Er. destruct Hfb as [[? ?] ? ?]. unfold clear. rewrite Er. cbn [fst].
  destruct (fill_rows m 0 (Z.to_nat (fb_height fb)) (fb_width fb) c) as [Ho Hp]; [lia|lia|lia|]. split; [done|].
  intros x y Hx Hy. rewrite Hp by lia. case_bools; done.
Qed.

(** [scroll_up] *)
Lemma scroll_spec m :
  outside m (scroll_up m fb) /\
  forall x y, 0 <= x < fb_width fb -> 0 <= y < fb_height fb ->
    px (scroll_up m fb) fb x y = if y <? fb_height fb - 16 then px m fb x (y + 16) else BG.
Proof.
  destruct Hfb as [[? ?] ? [? ?]]. unfold scroll_up. cbv zeta.
  set (h := fb_height fb) in *. rewrite !(u64_small (h - 16)) by lia.
  assert (Hprod : 0 <= (h - 16) * (P * 4) < 18446744073709551616) by nia. rewrite u64_small by done.
  set (m1 := memmove m _ _ _). pose proof (memmove_spec m (base_address fb) (base_address fb + 16 * (P * 4)) ((h - 16) * (P * 4)) ltac:(lia)) as Hmv.
  fold m1 in Hmv. destruct (fill_rows m1 (h - 16) (Z.to_nat (h - (h - 16))) (fb_width fb) BG) as [Ho Hp]; [lia|unfold h; lia|lia|].
  split.
  - intros a Ha. rewrite Ho by done. rewrite Hmv. case_bools; try done. exfalso. apply Ha. unfold in_fb. fold h. nia.
  - intros x y Hx Hy. rewrite Hp by lia. case_bools; try done.
    unfold px, load32, pixel_at. apply load_le_ext. intros k Hk. rewrite Hmv.
    assert (y * P + P <= (h - 16) * P) by nia. assert (0 <= y * P) by nia.
    rewrite Z.mul_add_distr_r. case_bools; try lia. f_equal. lia.
Qed.

(** *** Glyphs *)

Definition glyph_at (r : renderer) (chr : Z) : Z := glyph_buffer r + s8 chr * charsize r.
(** The font is not in the frame buffer. *)
Definition font_ok (r : renderer) : Prop := forall chr k, 0 <= k < 16 -> ~ in_fb fb (glyph_at r chr + k).

Definition glyph_pixel (m : memory) (r : renderer) (chr dx dy : Z) : Z :=
  if Z.testbit (load8 m (glyph_at r chr + dy)) (7 - dx) then u32 (color r) else BG.

Lemma put_row_spec m r bits xo y : r_fb r = fb -> 0 <= xo -> xo + 8 <= P -> 0 <= y < fb_height fb ->
  outside m (put_row r bits xo y m) /\ forall x y', 0 <= x < P ->
    px (put_row r bits xo y m) fb x y' =
    if (y' =? y) && (xo <=? x) && (x <? xo + 8) then (if Z.testbit bits (7 - (x - xo)) then u32 (color r) else BG) else px m fb x y'.
Proof.
  intros Er Hx0 Hx1 Hy. unfold put_row. rewrite Er.
  apply (for_up_inv (fun i m' => outside m m' /\ forall x y', 0 <= x < P -> px m' fb x y' =
    if (y' =? y) && (xo <=? x) && (x <? i) then (if Z.testbit bits (7 - (x - xo)) then u32 (color r) else BG) else px m fb x y')
    xo 8%nat).
  - split; [done|]. intros x y' Hx. case_bools; done.
  - intros i m1 Hi [Ho Hp]. split.
    + intros a Ha. rewrite store_outside by (done || lia). by apply Ho.
    + intros x y' Hx. rewrite px_store, Hp by lia.
      destruct (Z.eqb_spec x i) as [->|]; [|case_bools; done]. cbn [andb].
      destruct (y' =? y); cbn [andb]; [|done]. destruct (Z.leb_spec xo i); [|lia]. destruct (Z.ltb_spec i (i + 1)); [|lia]. cbn [andb].
      by destruct (Z.testbit bits (7 - (i - xo))).
Qed.

Lemma put_char_spec m r chr xo yo : r_fb r = fb -> font_ok r -> 0 <= xo -> xo + 8 <= P -> 0 <= yo -> yo + 16 <= fb_height fb ->
  outside m (put_char m r chr xo yo) /\ forall x y, 0 <= x < P ->
    px (put_char m r chr xo yo) fb x y =
    if (yo <=? y) && (y <? yo + 16) && (xo <=? x) && (x <? xo + 8) then glyph_pixel m r chr (x - xo) (y - yo) else px m fb x y.
Proof.
  intros Er Hfont Hx0 Hx1 Hy0 Hy1. unfold put_char. cbv zeta. fold (glyph_at r chr).
  apply (for_up_inv (fun i m' => outside m m' /\ forall x y, 0 <= x < P -> px m' fb x y =
    if (yo <=? y) && (y <? i) && (xo <=? x) && (x <? xo + 8) then glyph_pixel m r chr (x - xo) (y - yo) else px m fb x y) yo 16%nat).
  - split; [done|]. intros x y Hx. case_bools; done.
  - intros i m1 Hi [Ho Hp].
    destruct (put_row_spec m1 r (load8 m1 (glyph_at r chr + (i - yo))) xo i) as [Ho' Hp']; [done|lia|lia|lia|]. split.
    + intros a Ha. rewrite Ho' by done. by apply Ho.
    + intros x y Hx. rewrite Hp', Hp by done. rewrite (Ho (glyph_at r chr + (i - yo))) by (apply Hfont; lia).
      unfold glyph_pixel. destruct (Z.eqb_spec y i) as [->|]; case_bools; done.
Qed.

(** ** The frame buffer shows the grid *)

Definition cols : Z := fb_width fb / 8.
Definition rows : Z := fb_height fb / 16.
Definition cell_pixel (m : memory) (r : renderer) (c : option Z) (dx dy : Z) : Z :=
  match c with None => BG | Some chr => glyph_pixel m r chr dx dy end.

(** Pixels of the grid, and below it the rows that are too few for characters. *)
Definition drawn (m : memory) (r : renderer) (c : Z -> Z -> option Z) : Prop :=
  forall x y, 0 <= x < 8 * cols -> 0 <= y < fb_height fb ->
    px m fb x y = if y <? 16 * rows then cell_pixel m r (c (y / 16) (x / 8)) (x mod 8) (y mod 16) else BG.
Record shows (m : memory) (r : renderer) (g : grid) : Prop := {
  sw_drawn : drawn m r (cells g);
  sw_cursor : cursor_x r = 8 * g_col g /\ cursor_y r = 16 * g_row g;
  sw_range : 0 <= g_col g < cols /\ 0 <= g_row g < rows;
  sw_fb : r_fb r = fb;
  sw_font : font_ok r;
}.

Lemma geometry : 1 <= cols /\ 8 * cols <= fb_width fb /\ 1 <= rows /\ 16 * rows <= fb_height fb < 16 * rows + 16 /\
  fb_width fb <= P /\ P < 1073741824 /\ fb_height fb < 1073741824.
Proof. destruct Hfb as [[? ?] ? [? ?]]. unfold cols, rows. lia. Qed.

Lemma cell_pixel_outside m m' r c dx dy : outside m m' -> font_ok r -> 0 <= dy < 16 -> cell_pixel m' r c dx dy = cell_pixel m r c dx dy.
Proof. intros Ho Hf Hdy. destruct c as [chr|]; [|done]. cbn. unfold glyph_pixel. by rewrite Ho by (by apply Hf). Qed.

Lemma drawn_char m r c chr row col : r_fb r = fb -> font_ok r -> 0 <= col < cols -> 0 <= row < rows -> drawn m r c ->
  drawn (put_char m r chr (8 * col) (16 * row)) r (fun i j => if (i =? row) && (j =? col) then Some chr else c i j) /\
  outside m (put_char m r chr (8 * col) (16 * row)).
Proof.
  intros Er Hf Hc Hr Hd. destruct geometry as (? & ? & ? & ? & ? & _).
  destruct (put_char_spec m r chr (8 * col) (16 * row)) as [Ho Hp]; [done|done|lia|lia|lia|lia|]. split; [|done].
  intros x y Hx Hy. rewrite Hp, Hd by lia. pose proof (Z.mod_pos_bound y 16 ltac:(lia)).
  rewrite (cell_pixel_outside _ _ _ _ _ _ Ho) by done.
  destruct (Z.eqb_spec (y / 16) row) as [E1|E1]; [destruct (Z.eqb_spec (x / 8) col) as [E2|E2]|]; cbn [andb].
  - case_bools; try lia. cbn. f_equal; lia.
  - case_bools; try lia; done.
  - case_bools; try lia; done.
Qed.

Lemma drawn_scroll m r c : font_ok r -> drawn m r c ->
  drawn (scroll_up m fb) r (fun i j => if i =? rows - 1 then None else c (i + 1) j) /\ outside m (scroll_up m fb).
Proof.
  intros Hf Hd. destruct geometry as (? & ? & ? & ? & ? & _). destruct (scroll_spec m) as [Ho Hp]. split; [|done].
  intros x y Hx Hy. rewrite Hp by lia. pose proof (Z.mod_pos_bound y 16 ltac:(lia)).
  destruct (Z.eqb_spec (y / 16) (rows - 1)) as [E|E].
  - destruct (Z.ltb_spec y (fb_height fb - 16)); [rewrite Hd by lia|]; case_bools; (lia || done).
  - destruct (Z.ltb_spec y (fb_height fb - 16)); [rewrite Hd by lia|]; case_bools; try lia; try done.
    rewrite (cell_pixel_outside _ _ _ _ _ _ Ho) by done. replace ((y + 16) / 16) with (y / 16 + 1) by lia. by replace ((y + 16) mod 16) with (y mod 16) by lia.
Qed.

(** The end of [print_char_locked]: wrapping and scrolling. *)
Definition tail (m : memory) (r : renderer) (x y : Z) : memory * renderer :=
  let '(x, y) := if fb_width (r_fb r) / 8 * 8 <? u32 (x + 8) then (0, u32 (y + 16)) else (x, y) in
  if fb_height (r_fb r) / 16 * 16 <? u32 (y + 16) then (scroll_up m (r_fb r), set_cursor x (u32 (y - 16)) r)
  else (m, set_cursor x y r).
Lemma print_char_tail m r chr :
  print_char_locked (m, r) chr = let '(m', x, y) := advance m r chr in tail m' r x y.
Proof. unfold print_char_locked, tail. by destruct (advance m r chr) as [[m' x] y]. Qed.

Lemma tail_shows m r c row col :
  r_fb r = fb -> font_ok r -> drawn m r c ->
  0 <= col <= cols -> 0 <= row <= rows -> (col = cols -> row < rows) ->
  let s := tail m r (8 * col) (16 * row) in shows s.1 s.2 (settle cols rows c row col) /\ outside m s.1.
Proof.
  intros Er Hf Hd Hc Hr Hcr. destruct geometry as (? & ? & ? & ? & ? & ? & ?).
  assert (Hset : forall x y m' c', drawn m' r c' -> 0 <= x < cols -> 0 <= y < rows ->
    shows m' (set_cursor (8 * x) (16 * y) r) (mkGrid c' y x)).
  { intros x y m' c' Hd' Hx Hy. split; try done. }
  unfold tail, settle. rewrite Er. fold cols rows. rewrite !(u32_small (8 * col + 8)) by lia.
  assert (E1 : (cols * 8 <? 8 * col + 8) = (cols <=? col)) by (case_bools; lia). rewrite E1. clear E1.
  destruct (Z.leb_spec cols col).
  - rewrite (u32_small (16 * row + 16)) by lia. rewrite (u32_small (16 * row + 16 + 16)) by lia.
    assert (E2 : (rows * 16 <? 16 * row + 16 + 16) = (rows <=? row + 1)) by (case_bools; lia). rewrite E2. clear E2.
    destruct (Z.leb_spec rows (row + 1)); cbn [fst snd].
    + destruct (drawn_scroll m r c Hf Hd) as [Hd' Ho]. split; [|done]. rewrite u32_small by lia.
      replace 0 with (8 * 0) by lia. replace (16 * row + 16 - 16) with (16 * (row + 1 - 1)) by lia. by apply Hset; [|lia|lia].
    + split; [|done]. replace 0 with (8 * 0) by lia. replace (16 * row + 16) with (16 * (row + 1)) by lia. by apply Hset; [|lia|lia].
  - rewrite (u32_small (16 * row + 16)) by lia.
    assert (E2 : (rows * 16 <? 16 * row + 16) = (rows <=? row)) by (case_bools; lia). rewrite E2. clear E2.
    destruct (Z.leb_spec rows row); cbn [fst snd].
    + destruct (drawn_scroll m r c Hf Hd) as [Hd' Ho]. split; [|done]. rewrite u32_small by lia.
      replace (16 * row - 16) with (16 * (row - 1)) by lia. by apply Hset; [|lia|lia].
    + split; [|done]. by apply Hset; [|lia|lia].
Qed.

Lemma outside_trans m1 m2 m3 : outside m1 m2 -> outside m2 m3 -> outside m1 m3.
Proof. intros H1 H2 a Ha. by rewrite H2, H1. Qed.

Lemma print_char_shows m r g chr :
  shows m r g ->
  let s := print_char_locked (m, r) chr in shows s.1 s.2 (type_char cols rows g chr) /\ outside m s.1.
Proof.
  intros [Hd [Ex Ey] [Hc Hr] Er Hf]. destruct geometry as (? & ? & ? & ? & ? & ? & ?).
  rewrite print_char_tail. unfold advance, type_char. cbv zeta. rewrite Ex, Ey, Er. set (row := g_row g) in *. set (col := g_col g) in *.
  assert (Hback : forall col' row', 0 <= col' < cols -> 0 <= row' < rows ->
    settle cols rows (cells g) row' col' = mkGrid (cells g) row' col').
  { intros col' row' Hc' Hr'. unfold settle. case_bools; done. }
  destruct (chr =? 10).
  { rewrite u32_small by lia. replace (16 * row + 16) with (16 * (row + 1)) by lia.
    apply (tail_shows m r (cells g) (row + 1) 0); try done; lia. }
  destruct (chr =? 9).
  { rewrite u32_small by lia. replace (8 * col + 8) with (8 * (col + 1)) by lia. apply tail_shows; try done; lia. }
  destruct (chr =? 8).
  { assert (E1 : (8 <=? 8 * col) = (1 <=? col)) by (case_bools; lia). rewrite E1. clear E1. destruct (Z.leb_spec 1 col).
    { replace (8 * col - 8) with (8 * (col - 1)) by lia. rewrite <- (Hback (col - 1) row) by lia. apply tail_shows; try done; lia. }
    assert (E2 : (16 <=? 16 * row) = (1 <=? row)) by (case_bools; lia). rewrite E2. clear E2. destruct (Z.leb_spec 1 row).
    { fold cols. rewrite u32_small by lia. replace ((cols - 1) * 8) with (8 * (cols - 1)) by lia.
      replace (16 * row - 16) with (16 * (row - 1)) by lia. rewrite <- (Hback (cols - 1) (row - 1)) by lia. apply tail_shows; try done; lia. }
    assert (Eg : g = mkGrid (cells g) row col) by (by destruct g). rewrite Eg, <- (Hback col row) by lia. apply tail_shows; try done; lia. }
  destruct (drawn_char m r (cells g) chr row col Er Hf Hc Hr Hd) as [Hd' Ho].
  rewrite u32_small by lia. replace (8 * col + 8) with (8 * (col + 1)) by lia.
  destruct (tail_shows _ r _ row (col + 1) Er Hf Hd') as [Hs Ho']; [lia|lia|lia|]. split; [done|]. by eapply outside_trans.
Qed.

Lemma print_n_shows str : forall m r g, shows m r g ->
  let s := print_n (m, r) str in shows s.1 s.2 (foldl (type_char cols rows) g str) /\ outside m s.1.
Proof.
  unfold print_n. induction str as [|chr str IH]; intros m r g Hs; cbn [foldl]; [done|].
  destruct (print_char_shows m r g chr Hs) as [Hs1 Ho1]. destruct (print_char_locked (m, r) chr) as [m1 r1].
  destruct (IH m1 r1 _ Hs1) as [Hs2 Ho2]. split; [done|]. by eapply outside_trans.
Qed.
End fb.

(** C7: The console is a grid of characters: on a cleared screen the frame buffer
    shows, after any text was printed, exactly the glyphs of the grid that typing
    the text gives, in the cells of eight by sixteen pixels, and the cursor is
    where the grid has it.  No byte outside the frame buffer is written. *)
Theorem console_refines_grid m r str :
  fb_ok (r_fb r) -> font_ok (r_fb r) r ->
  let s := print_n (clear m r BG true) str in
  shows (r_fb r) s.1 s.2 (foldl (type_char (cols (r_fb r)) (rows (r_fb r))) blank str) /\ outside (r_fb r) m s.1.
Proof.
  intros Hfb Hf. destruct (clear_spec (r_fb r) Hfb m r BG true eq_refl) as [Ho Hp].
  destruct (geometry _ Hfb) as (? & ? & ? & ? & _).
  assert (Hs : shows (r_fb r) (clear m r BG true).1 (clear m r BG true).2 blank).
  { split; try done; [|cbn; lia]. intros x y Hx Hy. rewrite Hp by lia. by destruct (_ <? _). }
  destruct (clear m r BG true) as [m1 r1]. destruct (print_n_shows _ Hfb str m1 r1 blank Hs) as [Hs' Ho'].
  split; [done|]. by eapply outside_trans.
Qed.

(** ** An instance: three rows of four characters *)

Definition demo_renderer : renderer := init_renderer (mkFb 65536 6400 32 50 32) 4096 16.

Lemma console_refines_grid_witness :
  let s := print_n (clear ∅ demo_renderer BG true) [72; 105; 10; 33] in
  cursor_x s.2 = 8 /\ cursor_y s.2 = 16.
Proof.
  assert (Hf : font_ok (r_fb demo_renderer) demo_renderer).
  { intros chr k Hk. unfold in_fb, glyph_at, s8, u8. cbn. case_bools; lia. }
  destruct (console_refines_grid ∅ demo_renderer [72; 105; 10; 33]) as [Hs _].
  - split; cbn; lia.
  - exact Hf.
  - destruct (sw_cursor _ _ _ _ Hs) as [Ex Ey]. cbv zeta in *. rewrite Ex, Ey. split; reflexivity.
Defined.
