(* ===== verification/Syscall.v ===== *)
(** * System calls (syscall.c)

    Every case of [syscall_handler_c].  A call that blocks runs to its next call
    of [schedule]: the result then carries the local variables of its loop, and
    [resume] is the loop from there.  The kernel reaches user memory through the
    tables of the current process; a fault outside [copy_to_user] is a kernel
    panic, [None] here, as is a path that has no end within [PATH_FUEL] bytes. *)

From S2P Require Import Prelude Mem CString FrameAlloc Vmm PageTable Elf Switch Tty.
From S2P Require Import Proc Queues Mlfq Wait Pipe Heap Vfs Keyboard Mouse ProcRing Kernel Process.

(** ** Numbers of the interface (abi/) *)

Definition SYS_read : Z := 0.
Definition SYS_write : Z := 1.
Definition SYS_open : Z := 2.
Definition SYS_close : Z := 3.
Definition SYS_mmap : Z := 9.
Definition SYS_munmap : Z := 11.
Definition SYS_brk : Z := 12.
Definition SYS_pipe : Z := 22.
Definition SYS_dup : Z := 32.
Definition SYS_dup2 : Z := 33.
Definition SYS_clone : Z := 56.
Definition SYS_fork : Z := 57.
Definition SYS_execve : Z := 59.
Definition SYS_exit : Z := 60.
Definition SYS_wait : Z := 61.
Definition SYS_readdir : Z := 78.
Definition SYS_mouse_read : Z := 90.
Definition SYS_fbmap : Z := 91.
Definition SYS_get_tsc_hz : Z := 92.
Definition SYS_sleep_ms : Z := 93.

Definition ENOENT : Z := 2.
Definition EBADF : Z := 9.
Definition ECHILD : Z := 10.
Definition ENOMEM : Z := 12.
Definition EFAULT : Z := 14.
Definition EBUSY : Z := 16.
Definition ENOTDIR : Z := 20.
Definition EINVAL : Z := 22.
Definition EMFILE : Z := 24.
Definition ENOSYS : Z := 38.

Definition PROT_WRITE : Z := 2.
Definition PROT_EXEC : Z := 4.
Definition MAP_SHARED : Z := 1.
Definition MAP_PRIVATE : Z := 2.
Definition MAP_ANONYMOUS : Z := 0x20.
Definition TIMER_HZ : Z := 100.
Definition MAX_ARG_LEN : nat := 128.
Definition PATH_FUEL : nat := 4096.

Record syscall_frame := mkFrame {
  f_rax : Z; f_r9 : Z; f_r8 : Z; f_r10 : Z; f_rdx : Z; f_rsi : Z; f_rdi : Z;
  f_user_rsp : Z; f_user_rflags : Z; f_user_rip : Z;
  f_r15 : Z; f_r14 : Z; f_r13 : Z; f_r12 : Z; f_rbp : Z; f_rbx : Z;
}.

(** A blocked call: where its loop continues. *)
Inductive call :=
  | CReadPipe (p buf n count : Z)
  | CReadKeyboard (buf n count : Z)
  | CWritePipe (p buf n count : Z)
  | CWait (pid status_user : Z)
  | CMouse (buf max : Z) (nonblock : bool)
  | CSleep (wake_tick : Z).

(** [Ret v]: return to user mode with [frame->rax = v]; [Block c]: [schedule()]
    and go on with [c]; [Enter e sp]: into a new program; [Exit]: [schedule()],
    the caller never runs again. *)
Inductive sysres := Ret (v : Z) | Block (c : call) | Enter (entry stack : Z) | Exit.

(** [(uint64_t)-e] *)
Definition err (e : Z) : sysres := Ret (u64 (- e)).

Fixpoint le (n : nat) (v : Z) : list Z :=
  match n with O => [] | Datatypes.S n' => u8 v :: le n' (v / 256) end.
Fixpoint mem_bytes (m : memory) (a : Z) (n : nat) : list Z :=
  match n with O => [] | Datatypes.S n' => load8 m a :: mem_bytes m (a + 1) n' end.

(** The first free slot at or behind [i]; -1 without one. *)
Fixpoint free_slot (t : list file_descriptor) (i : Z) (fuel : nat) : Z :=
  match fuel with
  | O => -1
  | Datatypes.S fuel' =>
      match arr_get t i with
      | Some fd => if bool_decide (fd_kind fd = FD_NONE) then i else free_slot t (i + 1) fuel'
      | None => -1
      end
  end.
Definition first_free (t : list file_descriptor) (i : Z) : Z := free_slot t i (Z.to_nat (MAX_FDS - i)).

Definition set_fd_offset (v : Z) (fd : file_descriptor) : file_descriptor :=
  mkFd (fd_kind fd) (fd_node fd) (fd_pipe fd) v (fd_flags fd).
Definition set_fd_pipe (ty : fd_type) (p : Z) (fd : file_descriptor) : file_descriptor :=
  mkFd ty (fd_node fd) p (fd_offset fd) (fd_flags fd).

Section syscall.
Context {S H : Type} `{FrameOps S} `{HeapOps H} (hhdm_offset : Z) (code : stubs).
(** The mapped kernel addresses, the frame buffer and the clock rate measured at boot. *)
Context (kmapped : Z -> bool) (fb : framebuffer) (tsc_hz : Z).
Abbreviation K := (M (kernel S H)).

(** ** User memory of the current process *)

Definition cur_pml4 : K Z :=
  cur <- get_current ;;
  cr3 <- pread p_cr3 cur ;;
  ret (p2v hhdm_offset cr3).
Definition to_user (udst : Z) (src : list Z) : K bool :=
  pml4 <- cur_pml4 ;;
  on_vm (copy_to_user hhdm_offset kmapped pml4 udst src).
Definition store_user (udst : Z) (src : list Z) : K unit :=
  ok <- to_user udst src ;;
  if ok : bool then ret tt else undef.
Definition peek_user (va : Z) : K (option Z) :=
  pml4 <- cur_pml4 ;;
  on_vm (read_user hhdm_offset kmapped pml4 va).
Definition load_user (va : Z) : K Z :=
  b <- peek_user va ;;
  lift b.
Fixpoint load_user_le (va : Z) (n : nat) : K Z :=
  match n with
  | O => ret 0
  | Datatypes.S n' => b <- load_user va ;; v <- load_user_le (va + 1) n' ;; ret (b + 256 * v)
  end.
Fixpoint load_user_n (va : Z) (n : nat) : K (list Z) :=
  match n with
  | O => ret []
  | Datatypes.S n' => b <- load_user va ;; l <- load_user_n (va + 1) n' ;; ret (b :: l)
  end.
(** At most [n] bytes of a string. *)
Fixpoint load_user_str (va : Z) (n : nat) : K str :=
  match n with
  | O => ret []
  | Datatypes.S n' =>
      b <- load_user va ;;
      if b =? 0 then ret [] else l <- load_user_str (va + 1) n' ;; ret (b :: l)
  end.
(** The string a path argument points to. *)
Fixpoint user_path (va : Z) (fuel : nat) : K str :=
  match fuel with
  | O => undef
  | Datatypes.S fuel' =>
      b <- load_user va ;;
      if b =? 0 then ret [] else l <- user_path (va + 1) fuel' ;; ret (b :: l)
  end.

Definition get_node (n : Z) : K vnode := fun k =>
  match k_nodes k !! n with Some nd => Some (nd, k) | None => None end.
Definition find_path (va : Z) : K Z :=
  root <- gets (@k_root S H) ;;
  path <- user_path va PATH_FUEL ;;
  on_vfs (vfs_find_node root path).

(** ** The blocking loops *)

(** [pipe_write] with its buffer in user memory; a byte is read when there is
    room for it. *)
Fixpoint user_write_loop (p buf n : Z) (todo : nat) : K (option Z * Z) :=
  match todo with
  | O => ret (Some n, n)
  | Datatypes.S todo' =>
      b <- peek_user (buf + n) ;;
      r <- on_pipe p (write_iter (default 0 b)) ;;
      match r with
      | Put => _ <- lift b ;; user_write_loop p buf (n + 1) todo'
      | Broken => ret (Some (if 0 <? n then n else -1), n)
      | WriteYield => ret (None, n)
      end
  end.

Definition packet_bytes_le (pk : mouse_packet) : list Z :=
  le 2 (pkt_dx pk) ++ le 2 (pkt_dy pk) ++ [u8 (pkt_buttons pk)].
(** [sizeof(mouse_packet_t)] is 6. *)
Fixpoint store_packets (buf : Z) (l : list mouse_packet) : K unit :=
  match l with
  | [] => ret tt
  | pk :: l' => store_user buf (packet_bytes_le pk) ;; store_packets (buf + 6) l'
  end.

Definition resume (c : call) : K sysres :=
  match c with
  | CReadPipe p buf n count =>
      r <- on_pipe p (pipe_read (count - n)) ;;
      let '(l, over) := r in
      store_user (buf + n) l ;;
      let n' := n + Z.of_nat (length l) in
      ret (if over : bool then Ret (u64 n') else Block (CReadPipe p buf n' count))
  | CReadKeyboard buf n count =>
      r <- on_kbd (keyboard_read (count - n)) ;;
      let '(l, over) := r in
      store_user (buf + n) l ;;
      let n' := n + Z.of_nat (length l) in
      ret (if over : bool then Ret (u64 n') else Block (CReadKeyboard buf n' count))
  | CWritePipe p buf n count =>
      r <- user_write_loop p buf n (Z.to_nat (count - n)) ;;
      let '(res, n') := r in
      ret (match res with Some v => Ret (u64 v) | None => Block (CWritePipe p buf n' count) end)
  | CWait pid status_user =>
      cur <- get_current ;;
      r <- wait_reap_child hhdm_offset cur pid ;;
      let '(result, status) := r in
      if result =? 0 then pwrite (set_p_state PROCESS_BLOCKED) cur ;; ret (Block (CWait pid status_user))
      else if result <? 0 then ret (err ECHILD)
      else if status_user =? 0 then ret (Ret result)
      else
        ok <- to_user status_user (le 4 (default 0 status)) ;;
        ret (if ok : bool then Ret result else err EFAULT)
  | CMouse buf max nonblock =>
      r <- on_mouse (mouse_read max nonblock) ;;
      let '(l, over) := r in
      store_packets buf l ;;
      ret (if over : bool then Ret (Z.of_nat (length l)) else Block (CMouse buf max nonblock))
  | CSleep wake_tick =>
      t <- gets (@k_ticks S H) ;;
      if t <? wake_tick then
        cur <- get_current ;;
        pwrite (set_p_state PROCESS_BLOCKED) cur ;;
        ret (Block (CSleep wake_tick))
      else ret (Ret 0)
  end.

(** ** Files *)

Definition read_file (fd_index : Z) (buf count : Z) : K sysres :=
  cur <- get_current ;;
  fd <- get_fd cur fd_index ;;
  nd <- get_node (fd_node fd) ;;
  let n := u32 count in
  let n := if vn_size nd <? u32 (fd_offset fd + n) then u32 (vn_size nd - fd_offset fd) else n in
  if 0 <? n then
    m <- gets (fun k => vm_mem (k_vm k)) ;;
    ok <- to_user buf (mem_bytes m (vn_data nd + fd_offset fd) (Z.to_nat n)) ;;
    if ok : bool then put_fd cur fd_index (set_fd_offset (u32 (fd_offset fd + n)) fd) ;; ret (Ret n)
    else ret (err EFAULT)
  else ret (Ret n).

Definition sys_read (rdi rsi rdx : Z) : K sysres :=
  cur <- get_current ;;
  if rdi =? 0 then
    fd <- get_fd cur 0 ;;
    if bool_decide (fd_kind fd = FD_PIPE_READ) then resume (CReadPipe (fd_pipe fd) rsi 0 (s32 rdx))
    else resume (CReadKeyboard rsi 0 (s32 rdx))
  else if (3 <=? rdi) && (rdi <? MAX_FDS) then
    fd <- get_fd cur rdi ;;
    match fd_kind fd with
    | FD_PIPE_READ => resume (CReadPipe (fd_pipe fd) rsi 0 (s32 rdx))
    | FD_VFS =>
        nd <- get_node (fd_node fd) ;;
        if bool_decide (vn_type nd = VFS_FILE) then read_file rdi rsi rdx else ret (err EBADF)
    | _ => ret (err EBADF)
    end
  else ret (err EBADF).

(** [print_n] on user memory. *)
Definition print_user (buf n : Z) : K unit :=
  l <- load_user_n buf (Z.to_nat n) ;;
  modify (fun k => set_k_console (k_console k ++ l) k).

Definition sys_write (rdi rsi rdx : Z) : K sysres :=
  cur <- get_current ;;
  if rdi =? 1 then
    fd <- get_fd cur 1 ;;
    if bool_decide (fd_kind fd = FD_PIPE_WRITE) then resume (CWritePipe (fd_pipe fd) rsi 0 (s32 rdx))
    else print_user rsi rdx ;; ret (Ret rdx)
  else if (3 <=? rdi) && (rdi <? MAX_FDS) then
    fd <- get_fd cur rdi ;;
    if bool_decide (fd_kind fd = FD_PIPE_WRITE) then resume (CWritePipe (fd_pipe fd) rsi 0 (s32 rdx))
    else ret (err EBADF)
  else ret (err EBADF).

Definition sys_open (rdi rsi : Z) : K sysres :=
  file <- find_path rdi ;;
  if file =? 0 then ret (err ENOENT) else
  nd <- get_node file ;;
  if negb (bool_decide (vn_type nd = VFS_FILE)) then ret (err ENOENT) else
  cur <- get_current ;;
  t <- pread fd_table cur ;;
  let i := first_free t 3 in
  if i =? -1 then ret (err EMFILE)
  else
    fd <- get_fd cur i ;;
    put_fd cur i (mkFd FD_VFS file (fd_pipe fd) 0 (s32 rsi)) ;;
    ret (Ret i).

Definition sys_close (rdi : Z) : K sysres :=
  if (3 <=? rdi) && (rdi <? MAX_FDS) then
    cur <- get_current ;;
    fd <- get_fd cur rdi ;;
    drop_end fd ;;
    fd <- get_fd cur rdi ;;
    put_fd cur rdi (closed_fd fd) ;;
    ret (Ret 0)
  else ret (err EBADF).

Definition sys_pipe (rdi : Z) : K sysres :=
  cur <- get_current ;;
  t <- pread fd_table cur ;;
  let read_fd := first_free t 3 in
  let write_fd := first_free t (read_fd + 1) in
  if (read_fd =? -1) || (write_fd =? -1) then ret (err EMFILE) else
  p <- pipe_create ;;
  if p =? 0 then ret (err ENOMEM) else
  fd <- get_fd cur read_fd ;;
  put_fd cur read_fd (set_fd_pipe FD_PIPE_READ p fd) ;;
  fd <- get_fd cur write_fd ;;
  put_fd cur write_fd (set_fd_pipe FD_PIPE_WRITE p fd) ;;
  ok <- to_user rdi (le 4 read_fd ++ le 4 write_fd) ;;
  if ok : bool then ret (Ret 0)
  else
    close_end p true ;;
    close_end p false ;;
    fd <- get_fd cur read_fd ;;
    put_fd cur read_fd (set_fd_pipe FD_NONE 0 fd) ;;
    fd <- get_fd cur write_fd ;;
    put_fd cur write_fd (set_fd_pipe FD_NONE 0 fd) ;;
    ret (err EFAULT).

Definition sys_dup (rdi : Z) : K sysres :=
  let oldfd := s32 rdi in
  if (oldfd <? 0) || (MAX_FDS <=? oldfd) then ret (err EBADF) else
  cur <- get_current ;;
  src <- get_fd cur oldfd ;;
  if bool_decide (fd_kind src = FD_NONE) then ret (err EBADF) else
  t <- pread fd_table cur ;;
  let newfd := first_free t 3 in
  if newfd =? -1 then ret (err EMFILE)
  else
    put_fd cur newfd src ;;
    src <- get_fd cur oldfd ;;
    bump_end src ;;
    ret (Ret newfd).

Definition sys_dup2 (rdi rsi : Z) : K sysres :=
  let oldfd := s32 rdi in
  let newfd := s32 rsi in
  if (oldfd <? 0) || (MAX_FDS <=? oldfd) || (newfd <? 0) || (MAX_FDS <=? newfd) then ret (err EBADF) else
  cur <- get_current ;;
  src <- get_fd cur oldfd ;;
  if bool_decide (fd_kind src = FD_NONE) then ret (err EBADF) else
  if newfd =? oldfd then ret (Ret newfd)
  else
    dst <- get_fd cur newfd ;;
    drop_end dst ;;
    src <- get_fd cur oldfd ;;
    put_fd cur newfd src ;;
    src <- get_fd cur oldfd ;;
    bump_end src ;;
    ret (Ret newfd).

(** [kbuf] up to [written]: the children's names, directories with a slash. *)
Fixpoint dir_entries (child bufsize : Z) (acc : list Z) (fuel : nat) : K (list Z) :=
  if child =? 0 then ret acc
  else
    match fuel with
    | O => undef
    | Datatypes.S fuel' =>
        nd <- get_node child ;;
        let dir := bool_decide (vn_type nd = VFS_DIRECTORY) in
        let namelen := Z.of_nat (length (vn_name nd)) in
        let needed := namelen + 1 + (if dir then 1 else 0) in
        if bufsize <? Z.of_nat (length acc) + needed then ret acc
        else dir_entries (vn_next nd) bufsize (acc ++ vn_name nd ++ (if dir then [47] else []) ++ [10]) fuel'
    end.
Definition sys_readdir (rdi rsi rdx : Z) : K sysres :=
  let bufsize := u32 rdx in
  dir <- find_path rdi ;;
  if dir =? 0 then ret (err ENOENT) else
  nd <- get_node dir ;;
  if negb (bool_decide (vn_type nd = VFS_DIRECTORY)) then ret (err ENOTDIR) else
  let bufsize := if 512 <? bufsize then 512 else bufsize in
  fuel <- gets (fun k => size (k_nodes k)) ;;
  kbuf <- dir_entries (vn_children nd) bufsize [] fuel ;;
  let written := Z.of_nat (length kbuf) in
  if 0 <? written then
    ok <- to_user rsi kbuf ;;
    ret (if ok : bool then Ret written else err EFAULT)
  else ret (Ret written).

(** ** Memory *)

(** Fresh cleared pages at [va], [va + PAGE_SIZE], ...: the number of pages mapped
    until memory runs out. *)
Fixpoint map_fresh (pml4 va flags mapped : Z) (n : nat) : K Z :=
  match n with
  | O => ret mapped
  | Datatypes.S n' =>
      phys <- on_vm (pa fa_alloc) ;;
      if phys =? 0 then ret mapped
      else
        on_vm (mem_memset (p2v hhdm_offset phys) 0 PAGE_SIZE) ;;
        on_vm (vmm_map_page hhdm_offset pml4 va phys flags) ;;
        map_fresh pml4 (u64 (va + PAGE_SIZE)) flags (mapped + 1) n'
  end.

Definition mmap_flags (prot flags : Z) : Z :=
  let f := Z.lor PTE_PRESENT PTE_USER in
  let f := if Z.land prot PROT_WRITE =? 0 then f else Z.lor f PTE_WRITABLE in
  let f := if Z.land prot PROT_EXEC =? 0 then Z.lor f PTE_NX else f in
  if Z.land flags MAP_SHARED =? 0 then f else Z.lor f PTE_SHARED.

Definition sys_mmap (rsi rdx r10 r8 : Z) : K sysres :=
  let length := rsi in
  let prot := s32 rdx in
  let flags := s32 r10 in
  let fd := s64 r8 in
  if (length =? 0) || negb (fd =? -1) || (Z.land flags MAP_ANONYMOUS =? 0) ||
     (Z.land flags (Z.lor MAP_SHARED MAP_PRIVATE) =? 0)
  then ret (err EINVAL)
  else
    let npages := u64 (length + PAGE_SIZE - 1) / PAGE_SIZE in
    cur <- get_current ;;
    base <- pread mmap_next cur ;;
    pml4 <- cur_pml4 ;;
    mapped <- map_fresh pml4 base (mmap_flags prot flags) 0 (Z.to_nat npages) ;;
    if mapped <? npages then ret (err ENOMEM)
    else
      pwrite (set_mmap_next (u64 (base + npages * PAGE_SIZE))) cur ;;
      ret (Ret base).

Definition sys_munmap (rdi rsi : Z) : K sysres :=
  if (rsi =? 0) || negb (rdi mod PAGE_SIZE =? 0) || (rdi <? MMAP_BASE) then ret (err EINVAL)
  else
    let npages := u64 (rsi + PAGE_SIZE - 1) / PAGE_SIZE in
    pml4 <- cur_pml4 ;;
    for_range 0 (Z.to_nat npages) (fun i =>
      on_vm (vmm_unmap_page hhdm_offset pml4 (u64 (rdi + i * PAGE_SIZE)))) ;;
    ret (Ret 0).

Definition sys_brk (rdi : Z) : K sysres :=
  cur <- get_current ;;
  old <- pread brk cur ;;
  if rdi =? 0 then ret (Ret old) else
  start <- pread brk_start cur ;;
  if rdi <? start then ret (Ret old) else
  let old_top := page_align_up old in
  let new_top := page_align_up rdi in
  ok <-
    (if old_top <? new_top then
       pml4 <- cur_pml4 ;;
       let n := (new_top - old_top) / PAGE_SIZE in
       mapped <- map_fresh pml4 old_top (Z.lor (Z.lor (Z.lor PTE_PRESENT PTE_WRITABLE) PTE_USER) PTE_NX) 0
         (Z.to_nat n) ;;
       ret (negb (mapped <? n))
     else ret true) ;;
  if ok : bool then pwrite (set_brk rdi) cur ;; ret (Ret rdi) else ret (Ret old).

Definition sys_fbmap (rdi : Z) : K sysres :=
  cur <- get_current ;;
  pid <- pread p_pid cur ;;
  owner <- gets (@k_fb_owner S H) ;;
  if bool_decide (owner <> None) && negb (bool_decide (owner = Some pid)) then ret (err EBUSY) else
  modify (set_k_fb_owner (Some pid)) ;;
  let phys_base := v2p hhdm_offset (base_address fb) in
  let npages := u64 (buffer_size fb + PAGE_SIZE - 1) / PAGE_SIZE in
  base <- pread mmap_next cur ;;
  pml4 <- cur_pml4 ;;
  let flags := Z.lor (Z.lor (Z.lor (Z.lor (Z.lor PTE_PRESENT PTE_WRITABLE) PTE_USER) PTE_NX) PTE_NOPMM) PTE_PWT in
  for_range 0 (Z.to_nat npages) (fun i =>
    on_vm (vmm_map_page hhdm_offset pml4 (u64 (base + i * PAGE_SIZE)) (u64 (phys_base + i * PAGE_SIZE)) flags)) ;;
  pwrite (set_mmap_next (u64 (base + npages * PAGE_SIZE))) cur ;;
  let info := le 4 (fb_width fb) ++ le 4 (fb_height fb) ++ le 4 (u32 (pixels_per_scan_line fb * 4)) ++ le 4 32 in
  ok <- to_user rdi info ;;
  ret (if ok : bool then Ret base else err EFAULT).

Definition fbmap_release_owner (pid : Z) : K unit :=
  modify (fun k => if bool_decide (k_fb_owner k = Some pid) then set_k_fb_owner None k else k).

(** ** Processes *)

(** The registers of the caller, for the child to start with. *)
Definition trap_of (f : syscall_frame) : trapframe :=
  mkTrap (f_rdi f) (f_rsi f) (f_rdx f) (f_r10 f) (f_r8 f) (f_r9 f) (f_rbx f) (f_rbp f)
    (f_r12 f) (f_r13 f) (f_r14 f) (f_r15 f) (f_rax f) (f_user_rip f) (f_user_rflags f) (f_user_rsp f).

Definition child_pid (child : Z) : K sysres :=
  if child =? 0 then ret (err ENOMEM) else pid <- pread p_pid child ;; ret (Ret pid).
Definition sys_fork (f : syscall_frame) : K sysres :=
  cur <- get_current ;;
  child <- fork_process hhdm_offset code cur (trap_of f) ;;
  child_pid child.
Definition sys_clone (f : syscall_frame) : K sysres :=
  cur <- get_current ;;
  child <- clone_process hhdm_offset code cur (trap_of f) (f_rdi f) (f_rsi f) ;;
  child_pid child.

Fixpoint copy_argv (user_argv : Z) (n : nat) : K (list str) :=
  match n with
  | O => ret []
  | Datatypes.S n' =>
      user_str <- load_user_le user_argv 8 ;;
      if user_str =? 0 then ret []
      else
        s <- load_user_str user_str (MAX_ARG_LEN - 1) ;;
        l <- copy_argv (user_argv + 8) n' ;;
        ret (s :: l)
  end.
Definition copy_argv_from_user (user_argv : Z) : K (list str) :=
  if user_argv =? 0 then ret [] else copy_argv user_argv (Z.to_nat MAX_USER_ARGS).

Definition sys_execve (rdi rsi : Z) : K sysres :=
  if rdi =? 0 then ret (err EFAULT) else
  path <- load_user_str rdi 127 ;;
  if bool_decide (path = []) then ret (err EINVAL) else
  argv <- copy_argv_from_user rsi ;;
  if bool_decide (argv = []) then ret (err EINVAL) else
  cur <- get_current ;;
  r <- exec_process hhdm_offset cur path argv ;;
  ret (match r with Some (entry, stack) => Enter entry stack | None => err ENOENT end).

Definition sys_sleep_ms (rdi : Z) : K sysres :=
  t <- gets (@k_ticks S H) ;;
  let ms := u32 rdi in
  resume (CSleep (u64 (t + u32 (ms + 1000 / TIMER_HZ - 1) / (1000 / TIMER_HZ)))).

(** The steps of [SYS_exit], and of a fault in user mode, up to [schedule]. *)
Definition quit (exit_status : Z) : K unit :=
  cur <- get_current ;;
  process_release_fds cur ;;
  pid <- pread p_pid cur ;;
  fbmap_release_owner pid ;;
  pwrite (set_exit_code exit_status) cur ;;
  pwrite (set_p_state PROCESS_DEAD) cur.
Definition sys_exit (rdi : Z) : K sysres :=
  cur <- get_current ;;
  (if cur =? 0 then ret tt else quit (s32 rdi)) ;;
  ret Exit.

(** ** The dispatcher *)

Definition unknown_msg : list Z := [117; 110; 107; 110; 111; 119; 110; 32; 115; 121; 115; 99; 97; 108; 108].

Definition syscall_handler_c (f : syscall_frame) : K sysres :=
  let n := f_rax f in
  let rdi := f_rdi f in
  let rsi := f_rsi f in
  let rdx := f_rdx f in
  if n =? SYS_read then sys_read rdi rsi rdx
  else if n =? SYS_write then sys_write rdi rsi rdx
  else if n =? SYS_open then sys_open rdi rsi
  else if n =? SYS_fork then sys_fork f
  else if n =? SYS_clone then sys_clone f
  else if n =? SYS_execve then sys_execve rdi rsi
  else if n =? SYS_readdir then sys_readdir rdi rsi rdx
  else if n =? SYS_wait then resume (CWait (s64 rdi) rsi)
  else if n =? SYS_mmap then sys_mmap rsi rdx (f_r10 f) (f_r8 f)
  else if n =? SYS_munmap then sys_munmap rdi rsi
  else if n =? SYS_brk then sys_brk rdi
  else if n =? SYS_close then sys_close rdi
  else if n =? SYS_pipe then sys_pipe rdi
  else if n =? SYS_dup then sys_dup rdi
  else if n =? SYS_dup2 then sys_dup2 rdi rsi
  else if n =? SYS_mouse_read then resume (CMouse rdi (s32 rsi) (negb (s32 rdx =? 0)))
  else if n =? SYS_sleep_ms then sys_sleep_ms rdi
  else if n =? SYS_fbmap then sys_fbmap rdi
  else if n =? SYS_get_tsc_hz then ret (Ret tsc_hz)
  else if n =? SYS_exit then sys_exit rdi
  else
    modify (fun k => set_k_console (k_console k ++ unknown_msg) k) ;;
    ret (err ENOSYS).
End syscall.
