(* ===== verification/Entry.v ===== *)
(** * Entry to and exit from the kernel
    (idt.asm, syscall_entry.asm, resume_usermode.asm, usercopy_ctx.asm, crt0.asm)

    The assembly routines as sequences of instructions on the general registers and
    the byte memory that holds the stacks.  What the C functions they call do is a
    parameter; what the calling convention promises of it is a hypothesis. *)

From S2P Require Import Prelude Mem Proc Switch Syscall.

(** ** The processor *)

Inductive reg := RAX | RBX | RCX | RDX | RSI | RDI | RBP | RSP | R8 | R9 | R10 | R11 | R12 | R13 | R14 | R15.
#[export] Instance reg_eq_dec : EqDecision reg.
Proof. solve_decision. Defined.
Definition reg_id (r : reg) : Z :=
  match r with
  | RAX => 0 | RBX => 1 | RCX => 2 | RDX => 3 | RSI => 4 | RDI => 5 | RBP => 6 | RSP => 7
  | R8 => 8 | R9 => 9 | R10 => 10 | R11 => 11 | R12 => 12 | R13 => 13 | R14 => 14 | R15 => 15
  end.

Record core := mkCore {
  x_reg : reg -> Z; x_rip : Z; x_rflags : Z; x_cs : Z; x_ss : Z; x_mem : memory;
}.
Definition upd (r : reg) (v : Z) (f : reg -> Z) : reg -> Z := fun r' => if reg_id r =? reg_id r' then v else f r'.
Definition set_reg (r : reg) (v : Z) (s : core) : core := mkCore (upd r v (x_reg s)) (x_rip s) (x_rflags s) (x_cs s) (x_ss s) (x_mem s).
Definition set_x_mem (m : memory) (s : core) : core := mkCore (x_reg s) (x_rip s) (x_rflags s) (x_cs s) (x_ss s) m.
Definition set_x_rip (v : Z) (s : core) : core := mkCore (x_reg s) v (x_rflags s) (x_cs s) (x_ss s) (x_mem s).
Definition rd (r : reg) : M core Z := gets (fun s => x_reg s r).
Definition wr (r : reg) (v : Z) : M core unit := modify (set_reg r v).
(** [mov d, [b + off]] and [mov [b + off], v]. *)
Definition load (d b : reg) (off : Z) : M core unit := modify (fun s => set_reg d (load64 (x_mem s) (u64 (x_reg s b + off))) s).
Definition store (b : reg) (off v : Z) : M core unit := modify (fun s => set_x_mem (store64 (x_mem s) (u64 (x_reg s b + off)) v) s).
(** [mov [rel a], v] and the load from there. *)
Definition store_abs (a v : Z) : M core unit := modify (fun s => set_x_mem (store64 (x_mem s) a v) s).
Definition load_abs (a : Z) : M core Z := gets (fun s => load64 (x_mem s) a).
(** A sequence of such loads, and of stores. *)
Fixpoint loads (b : reg) (l : list (reg * Z)) : M core unit :=
  match l with [] => ret tt | (d, off) :: l' => load d b off ;; loads b l' end.
Fixpoint stores (b : reg) (l : list (reg * Z)) : M core unit :=
  match l with [] => ret tt | (r, off) :: l' => v <- rd r ;; store b off v ;; stores b l' end.
Definition push64 (v : Z) : M core unit := modify (fun s =>
  let sp := u64 (x_reg s RSP - 8) in set_reg RSP sp (set_x_mem (store64 (x_mem s) sp v) s)).
Definition pop64 : M core Z := fun s =>
  Some (load64 (x_mem s) (x_reg s RSP), set_reg RSP (u64 (x_reg s RSP + 8)) s).
Fixpoint push_regs (rs : list reg) : M core unit :=
  match rs with [] => ret tt | r :: rs' => v <- rd r ;; push64 v ;; push_regs rs' end.
Fixpoint pop_regs (rs : list reg) : M core unit :=
  match rs with [] => ret tt | r :: rs' => v <- pop64 ;; wr r v ;; pop_regs rs' end.
(** [call f], where [f] is a C function: the return address goes on the stack and is
    popped again by its [ret]. *)
Definition call (f : M core unit) (ra : Z) : M core unit := push64 ra ;; f ;; r <- pop64 ;; modify (set_x_rip r).
Definition ret_near : M core unit := r <- pop64 ;; modify (set_x_rip r).
Definition iretq : M core unit :=
  rip <- pop64 ;; cs <- pop64 ;; fl <- pop64 ;; sp <- pop64 ;; ss <- pop64 ;;
  modify (fun s => mkCore (upd RSP sp (x_reg s)) rip fl cs ss (x_mem s)).
(** [sysret] with the selectors of [init_syscalls]: rip from rcx, rflags from r11. *)
Definition sysret : M core unit :=
  modify (fun s => mkCore (x_reg s) (x_reg s RCX) (x_reg s R11) 0x23 0x1B (x_mem s)).

(** ** Interrupts *)

(** The exceptions for which the processor pushes an error code, from the manuals of the
    processors: double fault; the faults on segments, protection and pages (10 to 14);
    alignment check; control protection; and, on AMD processors, VMM communication and
    security.  Interrupts of devices have none. *)
Definition error_vectors : list Z := [8] ++ seqZ 10 5 ++ [17; 21] ++ [29; 30].
Definition pushes_error (v : Z) : bool := bool_decide (v ∈ error_vectors).

(** The processor delivers vector [v], with the error code [e] if the vector has one: on
    the stack of the TSS when it comes from user mode, aligned to 16 bytes. *)
Definition interrupt (rsp0 handler_cs handler_ss v e : Z) : M core unit :=
  s <- get ;;
  let sp := if Z.land (x_cs s) 3 =? 3 then rsp0 else x_reg s RSP in
  wr RSP (sp - sp mod 16) ;;
  push64 (x_ss s) ;; push64 (x_reg s RSP) ;; push64 (x_rflags s) ;; push64 (x_cs s) ;; push64 (x_rip s) ;;
  (if pushes_error v then push64 e else ret tt) ;;
  modify (fun s' => mkCore (x_reg s') (x_rip s') (x_rflags s') handler_cs handler_ss (x_mem s')).

(** The stubs that are written with the macro [ISR_ERR]; the others are written with
    [ISR_NOERR], which pushes a 0 in the place of the error code. *)
Definition has_error (i : Z) : bool :=
  match i with 8 | 10 | 11 | 12 | 13 | 14 | 17 | 21 | 29 | 30 => true | _ => false end.

Definition saved_regs : list reg := [RAX; RBX; RCX; RDX; RSI; RDI; RBP; R8; R9; R10; R11; R12; R13; R14; R15].

Definition isr (i : Z) : M core unit := (if has_error i then ret tt else push64 0) ;; push64 i.
Definition isr_common_stub (isr_handler : M core unit) (ra : Z) : M core unit :=
  push_regs saved_regs ;;
  sp <- rd RSP ;; wr RDI sp ;; wr RBP sp ;; wr RSP (sp - sp mod 16) ;;
  call isr_handler ra ;;
  sp <- rd RBP ;; wr RSP sp ;;
  pop_regs (reverse saved_regs) ;;
  sp <- rd RSP ;; wr RSP (u64 (sp + 16)) ;;
  iretq.

(** ** System calls *)

(** The addresses of [user_rsp_scratch] and [kernel_rsp_scratch]. *)
Definition syscall_entry (user_rsp_scratch kernel_rsp_scratch : Z) (syscall_handler_c : M core unit) (ra : Z) : M core unit :=
  sp <- rd RSP ;; store_abs user_rsp_scratch sp ;;
  ksp <- load_abs kernel_rsp_scratch ;; wr RSP ksp ;;
  push_regs [RBX; RBP; R12; R13; R14; R15; RCX; R11] ;;
  usp <- load_abs user_rsp_scratch ;; push64 usp ;;
  push_regs [RDI; RSI; RDX; R10; R8; R9; RAX] ;;
  sp <- rd RSP ;; wr RDI sp ;;
  call syscall_handler_c ra ;;
  pop_regs [RAX; R9; R8; R10; RDX; RSI; RDI] ;;
  load RCX RSP 16 ;; load R11 RSP 8 ;; load RSP RSP 0 ;;
  sysret.

(** ** The return of a new process to user mode *)

Definition resume_usermode : M core unit :=
  push64 0x1B ;;
  load RAX RDI 120 ;; v <- rd RAX ;; push64 v ;;
  load RAX RDI 112 ;; v <- rd RAX ;; push64 v ;;
  push64 0x23 ;;
  load RAX RDI 104 ;; v <- rd RAX ;; push64 v ;;
  loads RDI [(RSI, 8); (RDX, 16); (R10, 24); (R8, 32); (R9, 40); (RBX, 48); (RBP, 56); (R12, 64); (R13, 72); (R14, 80); (R15, 88); (RAX, 96)] ;;
  load RDI RDI 0 ;;
  iretq.

(** ** Jumping back into a copy *)

Definition usercopy_save_context : M core unit :=
  stores RDI [(RBX, 0); (RBP, 8); (R12, 16); (R13, 24); (R14, 32); (R15, 40)] ;;
  sp <- rd RSP ;; wr RAX (u64 (sp + 8)) ;; stores RDI [(RAX, 48)] ;;
  load RAX RSP 0 ;; stores RDI [(RAX, 56)] ;;
  wr RAX 0 ;;
  ret_near.

Definition usercopy_restore_context : M core unit :=
  loads RDI [(R11, 56); (RBX, 0); (RBP, 8); (R12, 16); (R13, 24); (R14, 32); (R15, 40); (RSP, 48)] ;;
  v <- rd RSI ;; wr RAX v ;;
  r <- rd R11 ;; modify (set_x_rip r).

(** ** The first instructions of a program *)

Definition _start (main : M core unit) (ra : Z) : M core unit :=
  wr RBP 0 ;;
  pop_regs [RDI; RSI] ;;
  wr RDX 0 ;;
  sp <- rd RSP ;; wr RSP (sp - sp mod 16) ;;
  call main ra ;;
  v <- rd RAX ;; wr RDI v.

(** ** Pushing and popping *)

#[local] Opaque load64 store64 load8.

Lemma reg_id_inj r r' : reg_id r = reg_id r' -> r = r'.
Proof. by destruct r, r'. Qed.
Lemma reg_upd_eq r v f : upd r v f r = v.
Proof. unfold upd. by rewrite Z.eqb_refl. Qed.
Lemma reg_upd_ne r r' v f : r <> r' -> upd r v f r' = f r'.
Proof. intros H. unfold upd. destruct (Z.eqb_spec (reg_id r) (reg_id r')) as [E|]; [|done]. by apply reg_id_inj in E. Qed.

Lemma wp_rd r (Q : Z -> core -> Prop) s : Q (x_reg s r) s -> wp (rd r) Q s.
Proof. done. Qed.
Lemma wp_wr r v (Q : unit -> core -> Prop) s : Q tt (set_reg r v s) -> wp (wr r v) Q s.
Proof. done. Qed.
Lemma wp_load d b off (Q : unit -> core -> Prop) s : Q tt (set_reg d (load64 (x_mem s) (u64 (x_reg s b + off))) s) -> wp (load d b off) Q s.
Proof. done. Qed.
Lemma wp_store b off v (Q : unit -> core -> Prop) s : Q tt (set_x_mem (store64 (x_mem s) (u64 (x_reg s b + off)) v) s) -> wp (store b off v) Q s.
Proof. done. Qed.
Ltac core_step :=
  lazymatch goal with
  | |- wp (rd _) _ _ => apply wp_rd
  | |- wp (wr _ _) _ _ => apply wp_wr
  | |- wp (load _ _ _) _ _ => apply wp_load
  | |- wp (store _ _ _) _ _ => apply wp_store
  | |- _ => wp_step
  end; cbv beta.
Ltac core_steps := repeat core_step.

(** [s'] is [s] with [w] in [d]. *)
Record loaded (s : core) (d : reg) (w : Z) (s' : core) : Prop := {
  ld_reg : x_reg s' d = w;
  ld_other r : r <> d -> x_reg s' r = x_reg s r;
  ld_mem : x_mem s' = x_mem s;
}.
Lemma wp_loaded d b off w (Q : unit -> core -> Prop) s : load64 (x_mem s) (x_reg s b + off) = w -> 0 <= x_reg s b + off < 18446744073709551616 ->
  (forall s', loaded s d w s' -> Q tt s') -> wp (load d b off) Q s.
Proof.
  intros Hw Hr HQ. unfold load, wp, modify. apply HQ. rewrite u64_small, Hw by lia. split; [apply reg_upd_eq| |done]. intros r Hne. by apply reg_upd_ne.
Qed.

(** Membership in a list of registers, by evaluation. *)
Ltac reg_in := apply (bool_decide_unpack _); vm_compute; exact I.

(** [s'] is [s] after the words of [l] were pushed. *)
Record pushed (s : core) (l : list Z) (s' : core) : Prop := {
  pu_reg r : r <> RSP -> x_reg s' r = x_reg s r;
  pu_rsp : x_reg s' RSP = x_reg s RSP - 8 * Z.of_nat (length l);
  pu_mem : x_mem s' = fst (push_all (x_mem s) (x_reg s RSP) l);
}.
Lemma pushed_nil s : pushed s [] s.
Proof. split; [done|cbn; lia|done]. Qed.
Lemma push_all_app l l' : forall m sp, push_all m sp (l ++ l') = push_all (fst (push_all m sp l)) (snd (push_all m sp l)) l'.
Proof. induction l as [|v l IH]; intros m sp; [done|]. cbn [app push_all]. apply IH. Qed.
Lemma push_all_sp l : forall m sp, snd (push_all m sp l) = sp - 8 * Z.of_nat (length l).
Proof. induction l as [|v l IH]; intros m sp; cbn [push_all length]; [cbn; lia|]. rewrite IH. lia. Qed.

Lemma wp_push64 s0 l s v (Q : unit -> core -> Prop) : pushed s0 l s -> 8 * Z.of_nat (length l) + 8 <= x_reg s0 RSP < 18446744073709551616 ->
  (forall s', pushed s0 (l ++ [v]) s' -> Q tt s') -> wp (push64 v) Q s.
Proof.
  intros [H1 H2 H3] Hs HQ. unfold push64, wp, modify. apply HQ. rewrite u64_small by lia. split; cbn [x_reg x_mem set_reg set_x_mem].
  - intros r Hr. rewrite reg_upd_ne by done. by apply H1.
  - rewrite reg_upd_eq, length_app, H2. cbn. lia.
  - rewrite push_all_app, push_all_sp, <- H3, H2. done.
Qed.
Lemma wp_push_regs s0 rs : RSP ∉ rs -> forall l s (Q : unit -> core -> Prop), pushed s0 l s ->
  8 * Z.of_nat (length l) + 8 * Z.of_nat (length rs) <= x_reg s0 RSP < 18446744073709551616 ->
  (forall s', pushed s0 (l ++ map (x_reg s0) rs) s' -> Q tt s') -> wp (push_regs rs) Q s.
Proof.
  induction rs as [|r rs IH]; intros Hr l s Q Hp Hs HQ; cbn [push_regs map] in *.
  - wp_step. apply HQ. by rewrite app_nil_r.
  - apply not_elem_of_cons in Hr as [Hr1 Hr]. core_steps. rewrite (pu_reg _ _ _ Hp) by done. apply (wp_push64 s0 l); [done|cbn [length] in Hs; lia|].
    intros s' Hp'. apply (IH Hr (l ++ [x_reg s0 r]) s'); [done|rewrite length_app; cbn [length] in *; lia|].
    intros s2. rewrite <- app_assoc. apply HQ.
Qed.
(** What is on the stack then. *)
Lemma pushed_words s l s' : pushed s l s' -> Forall word l -> words_at (x_mem s') (x_reg s' RSP) (rev l) /\
  forall b, ~ (x_reg s' RSP <= b < x_reg s RSP) -> load8 (x_mem s') b = load8 (x_mem s) b.
Proof.
  intros [_ H2 H3] Hl. destruct (push_all_spec l (x_mem s) (x_reg s RSP) [] Hl (words_at_nil _ _)) as (Hw & _ & Hb).
  rewrite H3, H2. rewrite app_nil_r in Hw. split; [done|]. intros b Hb'. apply Hb. lia.
Qed.

(** [s'] is [s] after [ws] was popped into [rs]. *)
Record popped (s : core) (rs : list reg) (ws : list Z) (s' : core) : Prop := {
  po_reg i r w : rs !! i = Some r -> ws !! i = Some w -> x_reg s' r = w;
  po_other r : r ∉ rs -> r <> RSP -> x_reg s' r = x_reg s r;
  po_rsp : x_reg s' RSP = x_reg s RSP + 8 * Z.of_nat (length rs);
  po_mem : x_mem s' = x_mem s;
}.
Lemma wp_pop64 s w (Q : Z -> core -> Prop) : load64 (x_mem s) (x_reg s RSP) = w -> 0 <= x_reg s RSP < 18446744073709551608 ->
  Q w (set_reg RSP (x_reg s RSP + 8) s) -> wp pop64 Q s.
Proof. intros <- Hs HQ. unfold pop64, wp. rewrite u64_small by lia. exact HQ. Qed.
Lemma wp_pop_regs rs : RSP ∉ rs -> NoDup rs -> forall ws s (Q : unit -> core -> Prop), length ws = length rs ->
  words_at (x_mem s) (x_reg s RSP) ws -> 0 <= x_reg s RSP -> x_reg s RSP + 8 * Z.of_nat (length rs) < 18446744073709551616 ->
  (forall s', popped s rs ws s' -> Q tt s') -> wp (pop_regs rs) Q s.
Proof.
  induction rs as [|r rs IH]; intros Hr Hnd ws s Q Hlen Hw H0 Hs HQ; cbn [pop_regs] in *.
  - wp_step. apply HQ. split; [done|done|cbn; lia|done].
  - destruct ws as [|w ws]; [done|]. apply not_elem_of_cons in Hr as [Hr1 Hr]. apply NoDup_cons in Hnd as [Hnr Hnd]. apply words_at_cons in Hw as [Hw1 Hw].
    cbn [length] in *. wp_step. apply (wp_pop64 s w); [done|lia|]. core_steps.
    apply (IH Hr Hnd ws); [lia|..]; cbn [x_reg x_mem set_reg]; rewrite ?(reg_upd_ne r RSP), ?reg_upd_eq by done; [done|lia|lia|].
    intros s' [P1 P2 P3 P4]. apply HQ. split.
    + intros [|i] r' w' Hi Hwi; [|by apply (P1 i)]. injection Hi as <-. injection Hwi as <-. rewrite P2 by done. cbn. by rewrite reg_upd_eq.
    + intros r' Hr' Hsp. apply not_elem_of_cons in Hr' as [Hr'1 Hr']. rewrite P2 by done. cbn. by rewrite !reg_upd_ne by done.
    + rewrite P3. cbn [length x_reg set_reg]. rewrite (reg_upd_ne r RSP), reg_upd_eq by done. lia.
    + by rewrite P4.
Qed.
Lemma words_at_app m l' : forall l a, words_at m a (l ++ l') <-> words_at m a l /\ words_at m (a + 8 * Z.of_nat (length l)) l'.
Proof.
  induction l as [|w l IH]; intros a; cbn [app length].
  - rewrite Z.mul_0_r, Z.add_0_r. split; [split; [apply words_at_nil|done]|tauto].
  - rewrite !words_at_cons, IH. replace (a + 8 + 8 * Z.of_nat (length l)) with (a + 8 * Z.of_nat (S (length l))) by lia. tauto.
Qed.
Lemma popped_map s rs f s' r : popped s rs (map f rs) s' -> r ∈ rs -> x_reg s' r = f r.
Proof. intros H [i Hi]%list_elem_of_lookup. apply (po_reg _ _ _ _ H i); [done|]. by rewrite list_lookup_fmap, Hi. Qed.

(** What the calling convention promises of a C function: it keeps the callee-saved
    registers and [n] bytes of its callers' stack. *)
Definition callee_saved : list reg := [RBX; RBP; RSP; R12; R13; R14; R15].
Definition returns (n : Z) (s s' : core) : Prop :=
  (forall r, r ∈ callee_saved -> x_reg s' r = x_reg s r) /\
  changes (x_mem s) (x_mem s') (fun a => ~ (x_reg s RSP <= a < x_reg s RSP + n)).
Lemma returns_words n s s' a l : returns n s s' -> x_reg s RSP <= a -> a + 8 * Z.of_nat (length l) <= x_reg s RSP + n ->
  words_at (x_mem s) a l -> words_at (x_mem s') a l.
Proof. intros [_ H] Ha Hn. apply words_at_ext. intros b Hb. apply H. lia. Qed.
Lemma returns_reg n s s' r : returns n s s' -> r ∈ callee_saved -> x_reg s' r = x_reg s r.
Proof. intros [H _]. apply H. Qed.

(** A call: the function runs with the return address on the stack. *)
Lemma wp_call s f ra n fp ws (Q : unit -> core -> Prop) : 8 <= x_reg s RSP < 18446744073709551616 -> word ra ->
  x_reg s RSP <= fp -> fp + 8 * Z.of_nat (length ws) <= x_reg s RSP - 8 + n -> 8 <= n -> words_at (x_mem s) fp ws ->
  (forall s1, (forall r, r <> RSP -> x_reg s1 r = x_reg s r) -> x_reg s1 RSP = x_reg s RSP - 8 -> words_at (x_mem s1) fp ws -> wp f (fun _ => returns n s1) s1) ->
  (forall s', x_reg s' RSP = x_reg s RSP -> (forall r, r ∈ callee_saved -> x_reg s' r = x_reg s r) -> words_at (x_mem s') fp ws -> x_rip s' = ra -> Q tt s') ->
  wp (call f ra) Q s.
Proof.
  intros Hs Hra Hfp Hn Hn8 Hw Hf HQ. unfold call. wp_step. apply (wp_push64 s []); [apply pushed_nil|cbn; lia|]. cbn [app]. intros s1 Hp.
  pose proof (pu_rsp _ _ _ Hp) as E1. cbn in E1. destruct (pushed_words _ _ _ Hp) as [Hw1 Hb]; [by constructor|].
  apply words_at_cons in Hw1 as [Hra1 _].
  assert (Hws : words_at (x_mem s1) fp ws) by (eapply words_at_ext; [|exact Hw]; intros b Hb'; apply Hb; lia).
  wp_step. eapply wp_mono; [apply (Hf s1); [apply Hp|lia|done]|]. intros ? s2 Hr. cbv beta in Hr |- *. pose proof (returns_reg _ _ _ RSP Hr ltac:(reg_in)) as E2.
  assert (Hra2 : load64 (x_mem s2) (x_reg s2 RSP) = ra).
  { rewrite E2. rewrite <- Hra1. apply (changes_load64 _ _ _ _ (proj2 Hr)). intros b Hb'. lia. }
  wp_step. apply (wp_pop64 s2 ra); [done|lia|]. wp_step. apply HQ; cbn [x_reg x_mem x_rip set_reg set_x_rip].
  - rewrite reg_upd_eq. lia.
  - intros r Hr'. destruct (decide (r = RSP)) as [->|Hne]; [rewrite reg_upd_eq; lia|]. rewrite reg_upd_ne by done.
    rewrite (returns_reg _ _ _ r Hr Hr'). by apply Hp.
  - apply (returns_words n s1); [done|lia|lia|done].
  - done.
Qed.

(** ** Interrupts *)

Definition interrupt_frame (s : core) (i e : Z) : list Z :=
  map (x_reg s) (reverse saved_regs) ++ [i; e; x_rip s; x_cs s; x_rflags s; x_reg s RSP; x_ss s].
Definition core_words (s : core) : Prop :=
  (forall r, word (x_reg s r)) /\ word (x_rip s) /\ word (x_rflags s) /\ word (x_cs s) /\ word (x_ss s).
Definition interrupt_stack (rsp0 : Z) (s : core) : Z :=
  let sp := if Z.land (x_cs s) 3 =? 3 then rsp0 else x_reg s RSP in sp - sp mod 16.

(** The macro of every stub is the one its vector needs. *)
Lemma stubs_match i : 0 <= i < 48 -> has_error i = pushes_error i.
Proof.
  intros Hi. assert (H : forallb (fun i => eqb (has_error i) (pushes_error i)) (seqZ 0 48) = true) by reflexivity.
  rewrite forallb_forall in H. apply eqb_prop, H, list_elem_of_In, elem_of_seqZ. lia.
Qed.
(** The error code in the frame. *)
Definition frame_error (i e : Z) : Z := if pushes_error i then e else 0.

(** Delivery and the stub leave the frame on the stack. *)
Lemma wp_isr_frame s i err rsp0 (Q : unit -> core -> Prop) : 0 <= i < 48 -> core_words s -> word err -> 256 <= interrupt_stack rsp0 s < 18446744073709551360 ->
  (forall s', (forall r, r <> RSP -> x_reg s' r = x_reg s r) -> x_reg s' RSP = interrupt_stack rsp0 s - 176 ->
     words_at (x_mem s') (x_reg s' RSP) (interrupt_frame s i (frame_error i err)) -> Q tt s') ->
  wp (interrupt rsp0 0x08 0x10 i err ;; isr i ;; push_regs saved_regs) Q s.
Proof.
  intros Hi (Hwr & Hw1 & Hw2 & Hw3 & Hw4) He Hsp HQ. unfold interrupt. core_steps. fold (interrupt_stack rsp0 s).
  set (s1 := set_reg RSP _ s). assert (Hr1 : forall r, r <> RSP -> x_reg s1 r = x_reg s r) by (intros r Hr; cbn; by apply reg_upd_ne).
  assert (E1 : x_reg s1 RSP = interrupt_stack rsp0 s) by apply reg_upd_eq. clearbody s1.
  pose proof (pushed_nil s1) as Hp. assert (Hgo : forall n, (n <= 22)%nat -> 8 * Z.of_nat n + 8 <= x_reg s1 RSP < 18446744073709551616) by (intros n ?; lia).
  do 5 (eapply (wp_push64 s1 _); [exact Hp|apply Hgo; cbn; lia|]; clear Hp; cbn [app]; intros ? Hp; core_step).
  assert (Hrest : forall s7, pushed s1 [x_ss s; x_reg s RSP; x_rflags s; x_cs s; x_rip s; frame_error i err] s7 ->
    wp (push64 i ;; push_regs saved_regs) Q s7).
  { clear Hp. intros s7 Hp. wp_step. eapply (wp_push64 s1 _); [exact Hp|apply Hgo; cbn; lia|]. clear Hp. cbn [app]. intros s8 Hp.
    eapply (wp_push_regs s1 saved_regs); [reg_in|exact Hp|cbn; lia|]. intros s9 Hp9. apply HQ.
    - intros r Hr. rewrite (pu_reg _ _ _ Hp9) by done. by apply Hr1.
    - rewrite (pu_rsp _ _ _ Hp9), E1. cbn. lia.
    - destruct (pushed_words _ _ _ Hp9) as [Hw _].
      + apply Forall_app. split; [rewrite !Forall_cons; split_and!; try done; unfold frame_error; [case_match; [done|]|]; unfold word in *; lia|]. apply Forall_map, Forall_forall. intros r Hr. cbn.
        destruct (decide (r = RSP)) as [->|Hne]; [rewrite E1; unfold word; lia|]. rewrite Hr1 by done. apply Hwr.
      + unfold interrupt_frame. rewrite rev_app_distr in Hw. cbn in Hw |- *. rewrite !Hr1 in Hw by done. exact Hw. }
  unfold isr. rewrite (stubs_match i Hi). unfold frame_error in *. destruct (pushes_error i).
  - eapply (wp_push64 s1 _); [exact Hp|apply Hgo; cbn; lia|]. clear Hp. cbn [app]. intros s7 [P1 P2 P3].
    core_steps. apply wp_bind_inv. apply Hrest. by split.
  - core_steps.
    eapply (wp_push64 s1 _); [destruct Hp as [P1 P2 P3]; by split|apply Hgo; cbn; lia|]. clear Hp. cbn [app]. intros s7 Hp. apply wp_bind_inv. by apply Hrest.
Qed.

(** Restoring: from the frame back to the interrupted program. *)
Lemma wp_isr_exit s0 s i e (Q : unit -> core -> Prop) : words_at (x_mem s) (x_reg s RSP) (interrupt_frame s0 i e) ->
  0 <= x_reg s RSP -> x_reg s RSP + 176 < 18446744073709551616 ->
  (forall s', (forall r, x_reg s' r = x_reg s0 r) -> x_rip s' = x_rip s0 -> x_rflags s' = x_rflags s0 -> x_cs s' = x_cs s0 -> x_ss s' = x_ss s0 ->
     x_mem s' = x_mem s -> Q tt s') ->
  wp (pop_regs (reverse saved_regs) ;; sp <- rd RSP ;; wr RSP (u64 (sp + 16)) ;; iretq) Q s.
Proof.
  intros Hw H0 Hs HQ. unfold interrupt_frame in Hw. apply words_at_app in Hw as [Hw1 Hw2].
  wp_step. eapply (wp_pop_regs (reverse saved_regs)); [reg_in|reg_in|by rewrite length_map|exact Hw1|done|cbn; lia|].
  intros s1 Hp. pose proof (po_rsp _ _ _ _ Hp) as E1. cbn in E1. rewrite length_map in Hw2. cbn in Hw2.
  rewrite <- (po_mem _ _ _ _ Hp) in Hw2. rewrite <- E1 in Hw2. apply words_at_cons in Hw2 as [_ Hw2]. apply words_at_cons in Hw2 as [_ Hw2].
  assert (E2 : x_reg s1 RSP + 16 = x_reg s1 RSP + 8 + 8) by lia. rewrite <- E2 in Hw2.
  core_steps. rewrite u64_small by lia. set (s2 := set_reg RSP _ s1).
  assert (Hs2 : x_mem s2 = x_mem s1 /\ x_reg s2 RSP = x_reg s1 RSP + 16 /\ forall r, r <> RSP -> x_reg s2 r = x_reg s1 r).
  { split_and!; [done|apply reg_upd_eq|]. intros r Hr. by apply reg_upd_ne. }
  clearbody s2. destruct Hs2 as (Em & Er & Eo). rewrite <- Em, <- Er in Hw2.
  rewrite !words_at_cons in Hw2. destruct Hw2 as (W1 & W2 & W3 & W4 & W5 & _). unfold iretq.
  do 5 (wp_step; eapply wp_pop64; [cbn [x_mem x_reg set_reg]; rewrite ?reg_upd_eq; eassumption|cbn [x_reg set_reg]; rewrite ?reg_upd_eq; lia|]).
  wp_steps. apply HQ; cbn [x_reg x_rip x_rflags x_cs x_ss x_mem]; try done; [|by rewrite <- (po_mem _ _ _ _ Hp)].
  intros r. destruct (decide (r = RSP)) as [->|Hne]; [apply reg_upd_eq|]. rewrite reg_upd_ne by done. cbn [x_reg set_reg]. rewrite !reg_upd_ne by done.
  rewrite Eo by done. apply (popped_map _ _ _ _ r Hp). destruct r; try done; reg_in.
Qed.

(** C12: An interrupt is transparent: for each of the 48 vectors, those for which the
    processor pushes an error code and the others, [isr_handler] is called on an aligned
    stack with a pointer to an [interrupt_frame] that holds the vector, the error code (0
    where there is none) and the registers of the interrupted program, and when it returns
    that program continues with all its registers, flags, segments and its stack pointer
    as they were.  The stack lies within the address space, and the handler keeps the
    callee-saved registers and writes nothing above its own stack. *)
Theorem interrupt_transparent s i err rsp0 isr_handler ra :
  0 <= i < 48 -> core_words s -> word err -> word ra ->
  256 <= interrupt_stack rsp0 s < 18446744073709551360 ->
  (forall sh, words_at (x_mem sh) (x_reg sh RDI) (interrupt_frame s i (frame_error i err)) -> x_reg sh RSP mod 16 = 8 ->
     wp isr_handler (fun _ => returns 200 sh) sh) ->
  wp (interrupt rsp0 0x08 0x10 i err ;; isr i ;; isr_common_stub isr_handler ra) (fun _ s' =>
    (forall r, x_reg s' r = x_reg s r) /\ x_rip s' = x_rip s /\ x_rflags s' = x_rflags s /\ x_cs s' = x_cs s /\ x_ss s' = x_ss s) s.
Proof.
  intros Hi Hc He Hra Hsp Hh. set (Q := fun (_ : unit) s' => _).
  assert (H : wp (interrupt rsp0 0x08 0x10 i err ;; isr i ;; push_regs saved_regs) (fun _ s1 =>
    wp (sp <- rd RSP ;; wr RDI sp ;; wr RBP sp ;; wr RSP (sp - sp mod 16) ;; call isr_handler ra ;; sp <- rd RBP ;; wr RSP sp ;;
        pop_regs (reverse saved_regs) ;; sp <- rd RSP ;; wr RSP (u64 (sp + 16)) ;; iretq) Q s1) s).
  2:{ wp_follow H. wp_follow H. unfold isr_common_stub. wp_step. exact H. }
  apply (wp_isr_frame s i err rsp0 _ Hi Hc He Hsp). intros s1 Hr1 E1 Hw. core_steps.
  set (fp := x_reg s1 RSP) in *. set (s2 := set_reg RSP _ _).
  assert (Hs2 : x_reg s2 RSP = fp - fp mod 16 /\ x_reg s2 RDI = fp /\ x_reg s2 RBP = fp /\ x_mem s2 = x_mem s1) by (split_and!; reflexivity).
  clearbody s2 fp. destruct Hs2 as (E2 & E3 & E4 & E5). rewrite <- E5 in Hw. assert (Hlen : length (interrupt_frame s i (frame_error i err)) = 22%nat) by reflexivity.
  apply (wp_call s2 isr_handler ra 200 fp (interrupt_frame s i (frame_error i err))); [lia|exact Hra|lia|rewrite Hlen; lia|lia|exact Hw| |].
  - intros s3 Hr3 E6 Hw3. apply Hh; [rewrite Hr3, E3 by discriminate; exact Hw3|lia].
  - intros s3 E6 Hcs Hw3 _. core_steps. rewrite (Hcs RBP), E4 by reg_in. set (s4 := set_reg RSP fp s3).
    assert (Hs4 : x_reg s4 RSP = fp /\ x_mem s4 = x_mem s3) by (split; reflexivity). clearbody s4. destruct Hs4 as [E7 E8]. rewrite <- E8 in Hw3. rewrite <- E7 in Hw3.
    apply wp_bind_inv. apply (wp_isr_exit s s4 i (frame_error i err)); [exact Hw3|lia|lia|]. intros s5 ? ? ? ? ? _. unfold Q. split_and!; assumption.
Qed.

(** ** System calls *)

(** The frame in the order of [struct syscall_frame]. *)
Definition sysframe_words (f : syscall_frame) : list Z :=
  [f_rax f; f_r9 f; f_r8 f; f_r10 f; f_rdx f; f_rsi f; f_rdi f; f_user_rsp f; f_user_rflags f; f_user_rip f;
   f_r15 f; f_r14 f; f_r13 f; f_r12 f; f_rbp f; f_rbx f].
(** The registers of the program at the [syscall] instruction, which leaves the
    address behind it in rcx and the flags in r11. *)
Definition entry_frame (s : core) : syscall_frame :=
  mkFrame (x_reg s RAX) (x_reg s R9) (x_reg s R8) (x_reg s R10) (x_reg s RDX) (x_reg s RSI) (x_reg s RDI)
    (x_reg s RSP) (x_reg s R11) (x_reg s RCX)
    (x_reg s R15) (x_reg s R14) (x_reg s R13) (x_reg s R12) (x_reg s RBP) (x_reg s RBX).

(** What [syscall_handler_c] may do: it keeps the callee-saved registers, the return
    address and the frame but for [rax], where it leaves [v]. *)
Definition handled (v : Z) (s s' : core) : Prop :=
  (forall r, r ∈ callee_saved -> x_reg s' r = x_reg s r) /\
  changes (x_mem s) (x_mem s') (fun a => ~ (x_reg s RSP <= a < x_reg s RSP + 8 \/ x_reg s RDI + 8 <= a < x_reg s RDI + 128)) /\
  load64 (x_mem s') (x_reg s RDI) = v.

Record scratch_ok (us ks : Z) (s : core) : Prop := {
  sk_top : 256 <= load64 (x_mem s) ks < 18446744073709551360;
  sk_align : load64 (x_mem s) ks mod 16 = 0;
  sk_user : us + 8 <= load64 (x_mem s) ks - 256 \/ load64 (x_mem s) ks <= us;
  sk_apart : us + 8 <= ks \/ ks + 8 <= us;
}.

Lemma wp_syscall_frame s us ks (Q : unit -> core -> Prop) : core_words s -> scratch_ok us ks s ->
  (forall s', (forall r, r <> RSP -> x_reg s' r = x_reg s r) -> x_reg s' RSP = load64 (x_mem s) ks - 128 ->
     words_at (x_mem s') (x_reg s' RSP) (sysframe_words (entry_frame s)) -> Q tt s') ->
  wp (sp <- rd RSP ;; store_abs us sp ;; ksp <- load_abs ks ;; wr RSP ksp ;;
      push_regs [RBX; RBP; R12; R13; R14; R15; RCX; R11] ;; usp <- load_abs us ;; push64 usp ;;
      push_regs [RDI; RSI; RDX; R10; R8; R9; RAX]) Q s.
Proof.
  intros (Hwr & _) [Ht Hal Hu Ha] HQ. core_step. core_step. unfold store_abs, load_abs. core_steps.
  cbn [x_mem set_x_mem x_reg]. rewrite (load64_store64_ne _ us ks) by lia. set (k := load64 (x_mem s) ks) in *. set (s1 := set_reg RSP k _).
  assert (Hs1 : (forall r, r <> RSP -> x_reg s1 r = x_reg s r) /\ x_reg s1 RSP = k /\ load64 (x_mem s1) us = x_reg s RSP).
  { split_and!; [intros r Hr; cbn; by apply reg_upd_ne|apply reg_upd_eq|]. apply load64_store64_eq. apply Hwr. }
  clearbody s1 k. destruct Hs1 as (Hr1 & E1 & Eu).
  eapply (wp_push_regs s1 [RBX; RBP; R12; R13; R14; R15; RCX; R11]); [reg_in|apply pushed_nil|cbn; lia|]. cbn [app]. intros s2 Hp.
  core_steps. assert (Hu2 : load64 (x_mem s2) us = x_reg s RSP).
  { rewrite <- Eu. apply (changes_load64 _ _ (fun b => k - 64 <= b < k)); [|lia]. intros b Hb. 
    apply (pushed_words _ _ _ Hp); [|rewrite (pu_rsp _ _ _ Hp), E1; cbn; lia]. apply Forall_map, Forall_forall. intros r _. cbn.
    destruct (decide (r = RSP)) as [->|Hne]; [rewrite E1; unfold word; lia|]. rewrite Hr1 by done. apply Hwr. }
  rewrite Hu2. eapply (wp_push64 s1 _); [exact Hp|cbn; lia|]. clear Hp. intros s3 Hp.
  eapply (wp_push_regs s1 [RDI; RSI; RDX; R10; R8; R9; RAX]); [reg_in|exact Hp|cbn; lia|]. intros s4 Hp4. apply HQ.
  - intros r Hr. rewrite (pu_reg _ _ _ Hp4) by done. by apply Hr1.
  - rewrite (pu_rsp _ _ _ Hp4), E1. cbn. lia.
  - destruct (pushed_words _ _ _ Hp4) as [Hw _].
    + rewrite !Forall_app. split_and!; [..|by repeat constructor; apply Hwr|]; apply Forall_map, Forall_forall; intros r _; cbn;
        (destruct (decide (r = RSP)) as [->|Hne]; [rewrite E1; unfold word; lia|rewrite Hr1 by done; apply Hwr]).
    + cbn in Hw. rewrite !Hr1 in Hw by done. exact Hw.
Qed.

(** The way back, from the frame whose [rax] is [v]. *)
Lemma wp_syscall_exit s0 s v (Q : unit -> core -> Prop) : let fp := x_reg s RSP in
  load64 (x_mem s) fp = v -> words_at (x_mem s) (fp + 8) (tail (sysframe_words (entry_frame s0))) -> 0 <= fp < 18446744073709551360 ->
  (forall r, r ∈ [RBX; RBP; R12; R13; R14; R15] -> x_reg s r = x_reg s0 r) ->
  (forall s', x_reg s' RAX = v -> (forall r, r ∉ [RAX; RCX; R11] -> x_reg s' r = x_reg s0 r) -> x_rip s' = x_reg s0 RCX ->
     x_rflags s' = x_reg s0 R11 -> x_cs s' = 0x23 -> x_ss s' = 0x1B -> Q tt s') ->
  wp (pop_regs [RAX; R9; R8; R10; RDX; RSI; RDI] ;; load RCX RSP 16 ;; load R11 RSP 8 ;; load RSP RSP 0 ;; sysret) Q s.
Proof.
  intros fp Hv Hw Hfp Hcs HQ.
  assert (Hw' : words_at (x_mem s) fp ([v; x_reg s0 R9; x_reg s0 R8; x_reg s0 R10; x_reg s0 RDX; x_reg s0 RSI; x_reg s0 RDI] ++
    [x_reg s0 RSP; x_reg s0 R11; x_reg s0 RCX] ++ [x_reg s0 R15; x_reg s0 R14; x_reg s0 R13; x_reg s0 R12; x_reg s0 RBP; x_reg s0 RBX])).
  { cbn [app]. apply words_at_cons. split; [exact Hv|exact Hw]. }
  apply words_at_app in Hw' as [W1 W2]. cbn in W2. apply (words_at_app _ _ [_; _; _]) in W2 as [W2 _].
  wp_step. apply (wp_pop_regs [RAX; R9; R8; R10; RDX; RSI; RDI] ltac:(reg_in) ltac:(reg_in)
    [v; x_reg s0 R9; x_reg s0 R8; x_reg s0 R10; x_reg s0 RDX; x_reg s0 RSI; x_reg s0 RDI] s _ eq_refl W1); [lia|cbn; lia|].
  intros s1 Hp. pose proof (po_rsp _ _ _ _ Hp) as E1. cbn in E1. fold fp in E1. rewrite <- (po_mem _ _ _ _ Hp) in W2. replace (fp + 8 * Z.of_nat 7) with (x_reg s1 RSP) in W2 by lia.
  rewrite !words_at_cons in W2. destruct W2 as (L1 & L2 & L3 & _). replace (x_reg s1 RSP + 8 + 8) with (x_reg s1 RSP + 16) in L3 by lia.
  wp_step. apply (wp_loaded _ _ _ (x_reg s0 RCX)); [exact L3|lia|]. intros s2 [A1 A2 A3].
  wp_step. apply (wp_loaded _ _ _ (x_reg s0 R11)); [by rewrite A2, A3|rewrite A2 by done; lia|]. intros s3 [B1 B2 B3].
  wp_step. apply (wp_loaded _ _ _ (x_reg s0 RSP)); [by rewrite B2, A2, B3, A3, Z.add_0_r|rewrite B2, A2 by done; lia|]. intros s4 [C1 C2 C3].
  unfold sysret. wp_step. apply HQ; cbn [x_reg x_rip x_rflags x_cs x_ss]; [| |by rewrite C2, B2|by rewrite C2|reflexivity|reflexivity].
  - rewrite C2, B2, A2 by done. apply (po_reg _ _ _ _ Hp 0%nat RAX v); reflexivity.
  - intros r Hr. destruct (decide (r = RSP)) as [->|Hne]; [done|]. rewrite !not_elem_of_cons in Hr. destruct Hr as (Hr1 & Hr2 & Hr3 & _).
    rewrite C2, B2, A2 by done. destruct r; try done.
    all: first [rewrite (po_other _ _ _ _ Hp) by (discriminate || reg_in); apply Hcs; reg_in | idtac].
    + apply (po_reg _ _ _ _ Hp 4%nat); reflexivity.
    + apply (po_reg _ _ _ _ Hp 5%nat); reflexivity.
    + apply (po_reg _ _ _ _ Hp 6%nat); reflexivity.
    + apply (po_reg _ _ _ _ Hp 2%nat); reflexivity.
    + apply (po_reg _ _ _ _ Hp 1%nat); reflexivity.
    + apply (po_reg _ _ _ _ Hp 3%nat); reflexivity.
Qed.

(** C13: A system call changes only the result: [syscall_handler_c] is called on the
    process's kernel stack, aligned, with a [syscall_frame] that holds the registers
    of the program, and after [sysret] the program continues behind its [syscall]
    instruction in user mode with the value the handler left for rax, its flags, its
    stack pointer and all other registers but rcx and r11 as they were. *)
Theorem syscall_entry_correct s us ks syscall_handler_c ra v : core_words s -> scratch_ok us ks s -> word ra ->
  (forall sh, words_at (x_mem sh) (x_reg sh RDI) (sysframe_words (entry_frame s)) ->
     x_reg sh RDI = load64 (x_mem s) ks - 128 -> x_reg sh RSP = load64 (x_mem s) ks - 136 ->
     wp syscall_handler_c (fun _ => handled v sh) sh) ->
  wp (syscall_entry us ks syscall_handler_c ra) (fun _ s' =>
    x_reg s' RAX = v /\ (forall r, r ∉ [RAX; RCX; R11] -> x_reg s' r = x_reg s r) /\ x_rip s' = x_reg s RCX /\
    x_rflags s' = x_reg s R11 /\ x_cs s' = 0x23 /\ x_ss s' = 0x1B) s.
Proof.
  intros Hc Hk Hra Hh. set (Q := fun (_ : unit) s' => _).
  assert (H : wp (sp <- rd RSP ;; store_abs us sp ;; ksp <- load_abs ks ;; wr RSP ksp ;;
      push_regs [RBX; RBP; R12; R13; R14; R15; RCX; R11] ;; usp <- load_abs us ;; push64 usp ;;
      push_regs [RDI; RSI; RDX; R10; R8; R9; RAX]) (fun _ s1 =>
    wp (sp <- rd RSP ;; wr RDI sp ;; call syscall_handler_c ra ;; pop_regs [RAX; R9; R8; R10; RDX; RSI; RDI] ;;
        load RCX RSP 16 ;; load R11 RSP 8 ;; load RSP RSP 0 ;; sysret) Q s1) s).
  2:{ unfold syscall_entry. do 7 wp_follow H. wp_step. exact H. }
  apply (wp_syscall_frame s us ks _ Hc Hk). intros s1 Hr1 E1 Hw. pose proof Hk as [Ht Hal _ _]. core_steps.
  set (s2 := set_reg RDI _ s1). assert (Hs2 : (forall r, r <> RSP -> r <> RDI -> x_reg s2 r = x_reg s r) /\ x_reg s2 RSP = x_reg s1 RSP /\ x_reg s2 RDI = x_reg s1 RSP /\ x_mem s2 = x_mem s1).
  { split_and!; [|reflexivity|reflexivity|reflexivity]. intros r Ha Hb. cbn. rewrite reg_upd_ne by done. by apply Hr1. }
  clearbody s2. destruct Hs2 as (Hr2 & E2 & E3 & E4). rewrite <- E4, <- E3 in Hw. rewrite <- E3 in E2, E1. clear E3 E4.
  unfold call. wp_step. apply (wp_push64 s2 []); [apply pushed_nil|cbn; lia|]. cbn [app]. intros s3 Hp. pose proof (pu_rsp _ _ _ Hp) as E5. cbn in E5.
  destruct (pushed_words _ _ _ Hp) as [Hra3 Hb3]; [by constructor|]. cbn in Hra3. apply words_at_cons in Hra3 as [Hra3 _].
  assert (Hw3 : words_at (x_mem s3) (x_reg s2 RDI) (sysframe_words (entry_frame s))) by (eapply words_at_ext; [|exact Hw]; intros b Hb; apply Hb3; lia).
  assert (Hrdi : x_reg s3 RDI = x_reg s2 RDI) by (by apply Hp). wp_step.
  eapply wp_mono; [apply (Hh s3); [rewrite Hrdi; exact Hw3|lia|lia]|]. intros ? s4 (Hcs & Hch & Hv). cbv beta.
  pose proof (Hcs RSP ltac:(reg_in)) as E6. wp_step.
  apply (wp_pop64 s4 ra); [rewrite E6, <- Hra3; apply (changes_load64 _ _ _ _ Hch); intros b Hb; lia|lia|].
  core_steps. set (s5 := set_x_rip _ _). assert (Hs5 : x_reg s5 RSP = x_reg s2 RDI /\ x_mem s5 = x_mem s4 /\ forall r, r <> RSP -> x_reg s5 r = x_reg s4 r).
  { split_and!; [transitivity (x_reg s4 RSP + 8); [reflexivity|lia]|reflexivity|]. intros r Hr. unfold s5. cbn [x_reg set_x_rip set_reg]. by rewrite reg_upd_ne. }
  clearbody s5. destruct Hs5 as (E7 & E8 & Hr5). apply wp_bind_inv. apply (wp_syscall_exit s s5 v); rewrite ?E7, ?E8.
  - rewrite <- Hrdi. exact Hv.
  - apply words_at_cons in Hw3 as [_ Hw3]. eapply words_at_ext; [|exact Hw3]. intros b Hb. apply Hch. rewrite Hrdi. cbn in Hb. lia.
  - lia.
  - intros r Hr. assert (Hne : r <> RSP /\ r <> RDI) by (split; intros ->; revert Hr; reg_in). destruct Hne as [Ha Hb].
    rewrite Hr5 by done. rewrite Hcs; [rewrite (pu_reg _ _ _ Hp) by done; by apply Hr2|]. clear -Hr.
    rewrite !elem_of_cons in Hr. destruct Hr as [->|[->|[->|[->|[->|[->|Hr]]]]]]; [reg_in..|by apply not_elem_of_nil in Hr].
  - intros s' H1 H2 H3 H4 H5 H6. unfold Q. split_and!; assumption.
Qed.

(** ** The return to user mode *)

(** A trap frame in the order of [trapframe_t]. *)
Definition trap_words (t : trapframe) : list Z :=
  [tf_rdi t; tf_rsi t; tf_rdx t; tf_r10 t; tf_r8 t; tf_r9 t; tf_rbx t; tf_rbp t; tf_r12 t; tf_r13 t; tf_r14 t; tf_r15 t;
   tf_rax t; tf_rip t; tf_rflags t; tf_rsp t].
Definition trap_reg (t : trapframe) (r : reg) : option Z :=
  match r with
  | RAX => Some (tf_rax t) | RBX => Some (tf_rbx t) | RDX => Some (tf_rdx t) | RSI => Some (tf_rsi t) | RDI => Some (tf_rdi t)
  | RBP => Some (tf_rbp t) | RSP => Some (tf_rsp t) | R8 => Some (tf_r8 t) | R9 => Some (tf_r9 t) | R10 => Some (tf_r10 t)
  | R12 => Some (tf_r12 t) | R13 => Some (tf_r13 t) | R14 => Some (tf_r14 t) | R15 => Some (tf_r15 t) | RCX | R11 => None
  end.

Lemma wp_loads b a words : forall l s (Q : unit -> core -> Prop), words_at (x_mem s) a words -> x_reg s b = a -> 0 <= a < 18446744073709551360 ->
  Forall (fun p => p.1 <> b /\ exists i, p.2 = 8 * Z.of_nat i /\ (i < length words)%nat /\ (i < 30)%nat) l -> NoDup l.*1 ->
  (forall s', (forall d i w, (d, 8 * Z.of_nat i) ∈ l -> words !! i = Some w -> x_reg s' d = w) -> (forall r, r ∉ l.*1 -> x_reg s' r = x_reg s r) ->
     x_mem s' = x_mem s -> Q tt s') -> wp (loads b l) Q s.
Proof.
  induction l as [|[d off] l IH]; intros s Q Hw Hb Ha Hl Hnd HQ; cbn [loads].
  - wp_step. apply HQ; [by intros ??? ?%not_elem_of_nil|done|done].
  - apply Forall_cons in Hl as [(Hd & i & Hi & Hlt & Hi2) Hl]. cbn [fmap list_fmap fst snd] in *. apply NoDup_cons in Hnd as [Hnin Hnd]. subst off.
    destruct (lookup_lt_is_Some_2 words i Hlt) as [w Hwi]. wp_step. apply (wp_loaded _ _ _ w); [rewrite Hb; by apply Hw|lia|]. intros s1 [L1 L2 L3].
    apply (IH s1); [by rewrite L3|by rewrite L2|done|done|done|]. intros s' S1 S2 S3. apply HQ.
    + intros d' j w' [[= -> Hj]|Hin]%elem_of_cons Hwj; [|by apply (S1 d' j)]. assert (j = i) as -> by lia. rewrite Hwi in Hwj. injection Hwj as <-.
      by rewrite S2.
    + intros r Hr. apply not_elem_of_cons in Hr as [Hr1 Hr2]. rewrite S2 by done. by apply L2.
    + by rewrite S3.
Qed.

Lemma wp_stores b a : forall l s (Q : unit -> core -> Prop), x_reg s b = a -> (forall r, word (x_reg s r)) ->
  (forall s', (forall r, x_reg s' r = x_reg s r) -> x_mem s' = foldl (fun m p => store64 m (u64 (a + p.2)) (x_reg s p.1)) (x_mem s) l -> Q tt s') ->
  wp (stores b l) Q s.
Proof.
  induction l as [|[r off] l IH]; intros s Q Hb Hr HQ; cbn [stores].
  - wp_step. by apply HQ.
  - core_steps. apply IH; [done|done|]. intros s' H1 H2. apply HQ; [done|]. rewrite H2, Hb. done.
Qed.

(** Pushing fields of the structure at rdi. *)
Definition built (s0 : core) (l : list Z) (s : core) : Prop :=
  x_reg s RDI = x_reg s0 RDI /\ x_reg s RSP = x_reg s0 RSP - 8 * Z.of_nat (length l) /\ x_mem s = fst (push_all (x_mem s0) (x_reg s0 RSP) l) /\
  x_reg s RCX = x_reg s0 RCX /\ x_reg s R11 = x_reg s0 R11.
Definition frame_apart (s : core) (n k : Z) : Prop :=
  0 <= x_reg s RDI < 18446744073709551360 /\ n <= x_reg s RSP < 18446744073709551360 /\
  (x_reg s RDI + k <= x_reg s RSP - n \/ x_reg s RSP <= x_reg s RDI).

Lemma built_push s0 l s v (Q : unit -> core -> Prop) : built s0 l s -> 8 * Z.of_nat (length l) + 8 <= x_reg s0 RSP < 18446744073709551616 ->
  (forall s', built s0 (l ++ [v]) s' -> Q tt s') -> wp (push64 v) Q s.
Proof.
  intros (H1 & H2 & H3 & H4 & H5) Hs HQ. unfold push64, wp, modify. apply HQ. rewrite u64_small by lia. unfold built.
  cbn [x_reg x_mem set_reg set_x_mem]. rewrite !reg_upd_ne, reg_upd_eq, length_app by done. split_and!; try done; [rewrite H2; cbn; lia|].
  rewrite push_all_app, push_all_sp, <- H3, H2. done.
Qed.
Lemma built_words s0 l s ws : built s0 l s -> Forall word l -> words_at (x_mem s0) (x_reg s0 RDI) ws ->
  frame_apart s0 (8 * Z.of_nat (length l)) (8 * Z.of_nat (length ws)) ->
  words_at (x_mem s) (x_reg s0 RDI) ws /\ words_at (x_mem s) (x_reg s RSP) (rev l).
Proof.
  intros (_ & H2 & H3 & _) Hl Hw (_ & _ & Ha). destruct (push_all_spec l (x_mem s0) (x_reg s0 RSP) [] Hl (words_at_nil _ _)) as (P1 & _ & P2).
  rewrite H3, H2. rewrite app_nil_r in P1. split; [|done]. eapply words_at_ext; [|exact Hw]. intros b Hb. apply P2. lia.
Qed.
Lemma built_field s0 l s ws i w off (k : M core unit) (Q : unit -> core -> Prop) : built s0 l s -> Forall word l -> words_at (x_mem s0) (x_reg s0 RDI) ws ->
  ws !! i = Some w -> (i < 30)%nat -> off = 8 * Z.of_nat i ->
  frame_apart s0 (8 * Z.of_nat (length l) + 8) (8 * Z.of_nat (length ws)) -> (forall s', built s0 (l ++ [w]) s' -> wp k Q s') ->
  wp (load RAX RDI off ;; v <- rd RAX ;; push64 v ;; k) Q s.
Proof.
  intros Hb Hl Hw Hi Hi30 -> Ha HQ. pose proof Ha as (A1 & A2 & A3). destruct (built_words _ _ _ _ Hb Hl Hw) as [Hw' _]; [split_and!; lia|].
  pose proof Hb as (H1 & H2 & H3 & H4 & H5). wp_step. apply (wp_loaded _ _ _ w); [rewrite H1; by apply Hw'|rewrite H1; lia|]. intros s' [L1 L2 L3].
  core_steps. rewrite L1. apply (built_push s0 l); [unfold built; rewrite !L2, L3 by done; done|lia|done].
Qed.

(** The last instructions: the registers from the structure, then [iretq]. *)
Lemma wp_resume_tail s t (Q : unit -> core -> Prop) : words_at (x_mem s) (x_reg s RDI) (trap_words t) ->
  words_at (x_mem s) (x_reg s RSP) [tf_rip t; 0x23; tf_rflags t; tf_rsp t; 0x1B] ->
  0 <= x_reg s RDI < 18446744073709551360 -> 0 <= x_reg s RSP < 18446744073709551360 ->
  (forall s', (forall r v, trap_reg t r = Some v -> x_reg s' r = v) -> x_rip s' = tf_rip t -> x_rflags s' = tf_rflags t ->
    x_cs s' = 0x23 -> x_ss s' = 0x1B -> Q tt s') ->
  wp (loads RDI [(RSI, 8); (RDX, 16); (R10, 24); (R8, 32); (R9, 40); (RBX, 48); (RBP, 56); (R12, 64); (R13, 72); (R14, 80); (R15, 88); (RAX, 96)] ;;
      load RDI RDI 0 ;; iretq) Q s.
Proof.
  intros Hw Hst Hd Hs HQ. wp_step. eapply (wp_loads RDI (x_reg s RDI) (trap_words t)); [exact Hw|done|done| |reg_in|].
  - rewrite !Forall_cons. split_and!; try done; cbn [snd]; [exists 1%nat|exists 2%nat|exists 3%nat|exists 4%nat|exists 5%nat|exists 6%nat|exists 7%nat|exists 8%nat|exists 9%nat|exists 10%nat|exists 11%nat|exists 12%nat]; cbn; split_and!; lia.
  - intros s1 S1 S2 S3. wp_step. apply (wp_loaded _ _ _ (tf_rdi t)).
    { rewrite S3, (S2 RDI) by reg_in. rewrite Z.add_0_r. by apply words_at_cons in Hw as [Hw _]. }
    { rewrite (S2 RDI) by reg_in. lia. }
    intros s2 [L1 L2 L3]. assert (Ersp : x_reg s2 RSP = x_reg s RSP) by (rewrite L2 by done; apply S2; reg_in).
    rewrite <- Ersp in Hst, Hs. rewrite <- S3, <- L3 in Hst. rewrite !words_at_cons in Hst. destruct Hst as (W1 & W2 & W3 & W4 & W5 & _). unfold iretq.
    do 5 (wp_step; eapply wp_pop64; [cbn [x_mem x_reg set_reg]; rewrite ?reg_upd_eq; eassumption|cbn [x_reg set_reg]; rewrite ?reg_upd_eq; lia|]).
    wp_steps. apply HQ; cbn [x_rip x_rflags x_cs x_ss x_reg]; try reflexivity. intros r v Hr.
    assert (Hg : forall i, (r, 8 * Z.of_nat i) ∈ [(RSI, 8); (RDX, 16); (R10, 24); (R8, 32); (R9, 40); (RBX, 48); (RBP, 56); (R12, 64); (R13, 72); (R14, 80); (R15, 88); (RAX, 96)] ->
      trap_words t !! i = Some v -> r <> RDI -> x_reg s2 r = v).
    { intros i Hin Hi Hne. rewrite L2 by done. by apply (S1 r i). }
    destruct (decide (r = RSP)) as [->|Hne]; [rewrite reg_upd_eq; injection Hr as <-; done|]. rewrite reg_upd_ne by done. cbn [x_reg set_reg]. rewrite !reg_upd_ne by done.
    destruct r; try discriminate Hr; injection Hr as <-; try done.
    + apply (Hg 12%nat); [reg_in|done|done].
    + apply (Hg 6%nat); [reg_in|done|done].
    + apply (Hg 2%nat); [reg_in|done|done].
    + apply (Hg 1%nat); [reg_in|done|done].
    + apply (Hg 7%nat); [reg_in|done|done].
    + apply (Hg 4%nat); [reg_in|done|done].
    + apply (Hg 5%nat); [reg_in|done|done].
    + apply (Hg 3%nat); [reg_in|done|done].
    + apply (Hg 8%nat); [reg_in|done|done].
    + apply (Hg 9%nat); [reg_in|done|done].
    + apply (Hg 10%nat); [reg_in|done|done].
    + apply (Hg 11%nat); [reg_in|done|done].
Qed.

Lemma wp_resume s t : words_at (x_mem s) (x_reg s RDI) (trap_words t) -> Forall word (trap_words t) -> frame_apart s 40 128 ->
  wp resume_usermode (fun _ s' => (forall r v, trap_reg t r = Some v -> x_reg s' r = v) /\ x_rip s' = tf_rip t /\ x_rflags s' = tf_rflags t /\
    x_cs s' = 0x23 /\ x_ss s' = 0x1B) s.
Proof.
  intros Hw Hwt Ha. pose proof Ha as (A1 & A2 & A3). unfold resume_usermode.
  assert (Hi : forall i w, trap_words t !! i = Some w -> word w) by (intros i w; apply (Forall_lookup_1 _ _ _ _ Hwt)).
  assert (Hap : forall n, n <= 40 -> frame_apart s n 128) by (intros n Hn; split_and!; lia).
  assert (H0 : built s [] s) by (split_and!; try done; cbn; lia).
  assert (W27 : word 27) by (by compute). assert (W35 : word 35) by (by compute).
  pose proof (Hi 15%nat _ eq_refl) as Wsp. pose proof (Hi 14%nat _ eq_refl) as Wfl. pose proof (Hi 13%nat _ eq_refl) as Wip.
  wp_step. apply (built_push s [] s _ _ H0); [cbn; lia|]. clear H0. cbn [app]. intros s1 H1.
  eapply (built_field s [27] s1 (trap_words t) 15 (tf_rsp t)); [exact H1|by repeat constructor|exact Hw|done|lia|done|by apply Hap|]. clear H1 s1. cbn [app]. intros s1 H1.
  eapply (built_field s _ s1 (trap_words t) 14 (tf_rflags t)); [exact H1|by rewrite !Forall_cons|exact Hw|done|lia|done|by apply Hap|]. clear H1 s1. cbn [app]. intros s1 H1.
  wp_step. eapply (built_push s _ s1); [exact H1|cbn; lia|]. clear H1 s1. cbn [app]. intros s1 H1.
  eapply (built_field s _ s1 (trap_words t) 13 (tf_rip t)); [exact H1|by rewrite !Forall_cons|exact Hw|done|lia|done|by apply Hap|]. clear H1 s1. cbn [app]. intros s1 H1.
  destruct (built_words _ _ _ _ H1 ltac:(by rewrite !Forall_cons) Hw) as [Hw1 Hst]; [by apply Hap|]. cbn in Hst. destruct H1 as (E1 & E2 & _). cbn in E2.
  apply (wp_resume_tail s1 t); [by rewrite E1|done|lia|lia|]. intros s' ? ? ? ? ?. split_and!; assumption.
Qed.

(** C32: The child of a fork continues like its parent: resumed from the trap frame
    that [sys_fork] took from the parent's system call and in which [clone_process]
    put 0 for rax, it runs in user mode behind the parent's [syscall] instruction with
    the parent's flags, stack pointer and registers, but 0 as the result (rcx and r11
    are not kept by a system call). *)
Theorem fork_child_resumes p s : core_words p ->
  words_at (x_mem s) (x_reg s RDI) (trap_words (set_tf_rax 0 (trap_of (entry_frame p)))) -> frame_apart s 40 128 ->
  wp resume_usermode (fun _ s' => x_reg s' RAX = 0 /\ (forall r, r ∉ [RAX; RCX; R11] -> x_reg s' r = x_reg p r) /\
    x_rip s' = x_reg p RCX /\ x_rflags s' = x_reg p R11 /\ x_cs s' = 0x23 /\ x_ss s' = 0x1B) s.
Proof.
  intros (Hp & _) Hw Ha. eapply wp_mono; [apply (wp_resume s _ Hw); [|done]|].
  - unfold trap_words. rewrite !Forall_cons. split_and!; try apply Hp; [|by apply Forall_nil]. by compute.
  - intros ? s' (H1 & H2 & H3 & H4 & H5). split_and!; try done.
    + by apply (H1 RAX).
    + intros r Hr. rewrite !not_elem_of_cons in Hr. apply (H1 r). destruct r; try done; naive_solver.
Qed.

(** ** Jumping back into a copy *)

Definition context_words (s : core) (ra : Z) : list Z :=
  [x_reg s RBX; x_reg s RBP; x_reg s R12; x_reg s R13; x_reg s R14; x_reg s R15; x_reg s RSP + 8; ra].

Lemma wp_save s ra : load64 (x_mem s) (x_reg s RSP) = ra -> (forall r, word (x_reg s r)) -> frame_apart s 0 64 ->
  x_reg s RDI + 64 <= x_reg s RSP \/ x_reg s RSP + 8 <= x_reg s RDI ->
  wp usercopy_save_context (fun _ s' => x_reg s' RAX = 0 /\ x_rip s' = ra /\ x_reg s' RSP = x_reg s RSP + 8 /\
    (forall r, r <> RAX -> r <> RSP -> x_reg s' r = x_reg s r) /\ words_at (x_mem s') (x_reg s RDI) (context_words s ra)) s.
Proof.
  intros Hra Hr Ha Hst. pose proof Ha as (A1 & A2 & _). unfold usercopy_save_context.
  wp_step. eapply (wp_stores RDI (x_reg s RDI)); [done|done|]. intros s1 R1 M1. cbn [foldl fst snd] in M1. rewrite !u64_small in M1 by lia.
  core_steps. rewrite R1, u64_small by lia. set (s2 := set_reg RAX _ s1).
  assert (Hs2 : x_reg s2 RAX = x_reg s RSP + 8 /\ (forall r, r <> RAX -> x_reg s2 r = x_reg s r) /\ x_mem s2 = x_mem s1).
  { split_and!; [reflexivity| |reflexivity]. intros r Hne. transitivity (x_reg s1 r); [by apply reg_upd_ne|apply R1]. }
  clearbody s2. destruct Hs2 as (E1 & E2 & E3).
  assert (W2 : forall r, word (x_reg s2 r)).
  { intros r. destruct (decide (r = RAX)) as [->|]; [rewrite E1; unfold word; lia|]. rewrite E2 by done. apply Hr. }
  eapply (wp_stores RDI (x_reg s RDI)); [by apply E2|done|]. intros s3 R3 M3. cbn [foldl fst snd] in M3. rewrite u64_small, E1, E3 in M3 by lia.
  wp_step. apply (wp_loaded _ _ _ ra).
  { rewrite R3, E2, Z.add_0_r, M3, M1 by done. rewrite !load64_store64_ne by lia. done. }
  { rewrite R3, E2 by done. lia. }
  intros s4 [L1 L2 L3]. assert (Wra : word ra) by (rewrite <- Hra; apply load64_range).
  wp_step. eapply (wp_stores RDI (x_reg s RDI)).
  { rewrite L2, R3 by done. by apply E2. }
  { intros r. destruct (decide (r = RAX)) as [->|]; [by rewrite L1|]. rewrite L2, R3 by done. apply W2. }
  intros s5 R5 M5. cbn [foldl fst snd] in M5. rewrite u64_small, L1, L3, M3 in M5 by lia. core_steps. unfold ret_near. wp_step.
  assert (Hrsp : x_reg s5 RSP = x_reg s RSP) by (rewrite R5, L2, R3 by done; by apply E2).
  set (s6 := set_reg RAX 0 s5). assert (Hs6 : x_reg s6 RAX = 0 /\ (forall r, r <> RAX -> x_reg s6 r = x_reg s5 r) /\ x_mem s6 = x_mem s5).
  { split_and!; [reflexivity| |reflexivity]. intros r Hne. by apply reg_upd_ne. }
  clearbody s6. destruct Hs6 as (F1 & F2 & F3).
  apply (wp_pop64 s6 ra).
  { rewrite F3, F2, Hrsp, M5, M1 by done. rewrite !load64_store64_ne by lia. done. }
  { rewrite F2, Hrsp by done. lia. }
  wp_step. cbn [x_reg x_rip x_mem set_x_rip set_reg]. split_and!.
  - by rewrite reg_upd_ne.
  - done.
  - rewrite reg_upd_eq, F2, Hrsp by done. done.
  - intros r H1 H2. rewrite reg_upd_ne, F2, R5, L2, R3 by done. by apply E2.
  - rewrite F3, M5, M1. unfold context_words. repeat (apply words_at_cons; split); [..|apply words_at_nil].
    all: rewrite ?Z.add_0_r, ?load64_store64_ne by lia; rewrite <- ?Z.add_assoc; cbn [Z.add Pos.add Pos.succ]; rewrite ?load64_store64_ne by lia; apply load64_store64_eq; (apply Hr || lia || apply Wra).
Qed.

Lemma wp_restore s1 ra s : words_at (x_mem s) (x_reg s RDI) (context_words s1 ra) -> 0 <= x_reg s RDI < 18446744073709551360 ->
  wp usercopy_restore_context (fun _ s' => x_reg s' RAX = x_reg s RSI /\ x_rip s' = ra /\ x_reg s' RSP = x_reg s1 RSP + 8 /\
    (forall r, r ∈ [RBX; RBP; R12; R13; R14; R15] -> x_reg s' r = x_reg s1 r) /\ x_mem s' = x_mem s) s.
Proof.
  intros Hw Hd. unfold usercopy_restore_context. wp_step.
  eapply (wp_loads RDI (x_reg s RDI) (context_words s1 ra)); [exact Hw|done|done| |reg_in|].
  - rewrite !Forall_cons. split_and!; try done; cbn [snd]; [exists 7%nat|exists 0%nat|exists 1%nat|exists 2%nat|exists 3%nat|exists 4%nat|exists 5%nat|exists 6%nat]; cbn; split_and!; lia.
  - intros s2 S1 S2 S3. core_steps. cbn [x_reg x_rip x_mem set_x_rip set_reg]. rewrite reg_upd_eq, (reg_upd_ne RAX R11), (reg_upd_ne RAX RSP) by done. split_and!.
    + apply S2. reg_in.
    + apply (S1 R11 7%nat); [reg_in|done].
    + apply (S1 RSP 6%nat); [reg_in|done].
    + intros r Hr. rewrite reg_upd_ne by (intros <-; revert Hr; reg_in). rewrite !elem_of_cons in Hr.
      destruct Hr as [->|[->|[->|[->|[->|[->|Hr]]]]]]; [..|by apply not_elem_of_nil in Hr].
      * apply (S1 RBX 0%nat); [reg_in|done].
      * apply (S1 RBP 1%nat); [reg_in|done].
      * apply (S1 R12 2%nat); [reg_in|done].
      * apply (S1 R13 3%nat); [reg_in|done].
      * apply (S1 R14 4%nat); [reg_in|done].
      * apply (S1 R15 5%nat); [reg_in|done].
    + done.
Qed.

(** The recovery of a copy: [usercopy_save_context] returns 0, and a later
    [usercopy_restore_context] on the same buffer, called from anywhere with any
    value, returns that value from the same call again, with the stack pointer and
    the callee-saved registers of then. *)
Theorem usercopy_context_roundtrip s ra : load64 (x_mem s) (x_reg s RSP) = ra -> (forall r, word (x_reg s r)) -> frame_apart s 0 64 ->
  x_reg s RDI + 64 <= x_reg s RSP \/ x_reg s RSP + 8 <= x_reg s RDI ->
  wp usercopy_save_context (fun _ s1 => x_reg s1 RAX = 0 /\ x_rip s1 = ra /\ x_reg s1 RSP = x_reg s RSP + 8 /\
    (forall r, r <> RAX -> r <> RSP -> x_reg s1 r = x_reg s r) /\
    forall s2, x_reg s2 RDI = x_reg s RDI -> changes (x_mem s1) (x_mem s2) (fun a => ~ (x_reg s RDI <= a < x_reg s RDI + 64)) ->
      wp usercopy_restore_context (fun _ s3 => x_reg s3 RAX = x_reg s2 RSI /\ x_rip s3 = x_rip s1 /\
        (forall r, r ∈ callee_saved -> x_reg s3 r = x_reg s1 r) /\ x_mem s3 = x_mem s2) s2) s.
Proof.
  intros Hra Hr Ha Hst. eapply wp_mono; [by apply (wp_save s ra)|]. intros ? s1 (H1 & H2 & H3 & H4 & H5). split_and!; [exact H1|exact H2|exact H3|exact H4|].
  intros s2 Hd Hch. eapply wp_mono; [apply (wp_restore s ra s2)|].
  - rewrite Hd. eapply words_at_ext; [|exact H5]. intros b Hb. apply Hch. cbn in Hb. lia.
  - rewrite Hd. apply Ha.
  - intros ? s3 (R1 & R2 & R3 & R4 & R5). split_and!; [done|by rewrite H2|intros r Hcs|done].
    unfold callee_saved in Hcs. rewrite !elem_of_cons in Hcs.
    destruct Hcs as [->|[->|[->|[->|[->|[->|[->|Hcs]]]]]]]; [..|by apply not_elem_of_nil in Hcs].
    3: by rewrite R3, H3.
    all: rewrite H4 by discriminate; apply R4; reg_in.
Qed.

(** ** The start of a program *)

(** A program starts in [main] with argc and argv from its stack, no environment,
    the end of the chain of frames in rbp and an aligned stack; what [main] returns is
    the argument of [exit]. *)
Theorem start_correct s argc argv main ra n : words_at (x_mem s) (x_reg s RSP) [argc; argv] -> 64 <= x_reg s RSP < 18446744073709551360 -> word ra ->
  (forall sm, x_reg sm RDI = argc -> x_reg sm RSI = argv -> x_reg sm RDX = 0 -> x_reg sm RBP = 0 -> x_reg sm RSP mod 16 = 8 ->
     wp main (fun _ s' => returns 8 sm s' /\ x_reg s' RAX = n) sm) ->
  wp (_start main ra) (fun _ s' => x_reg s' RDI = n) s.
Proof.
  intros Hw Hs Hra Hm. unfold _start. core_steps. set (s1 := set_reg RBP 0 s). assert (Hs1 : x_reg s1 RSP = x_reg s RSP /\ x_mem s1 = x_mem s /\ x_reg s1 RBP = 0) by (split_and!; reflexivity).
  clearbody s1. destruct Hs1 as (E1 & E2 & E3). rewrite <- E1, <- E2 in Hw.
  eapply (wp_pop_regs [RDI; RSI] ltac:(reg_in) ltac:(reg_in) [argc; argv] s1); [reflexivity|exact Hw|lia|cbn; lia|]. intros s2 Hp.
  pose proof (po_rsp _ _ _ _ Hp) as E4. cbn in E4. core_steps. set (s3 := set_reg RSP _ _).
  assert (Hs3 : x_reg s3 RDI = argc /\ x_reg s3 RSI = argv /\ x_reg s3 RDX = 0 /\ x_reg s3 RBP = 0 /\ x_reg s3 RSP = x_reg s2 RSP - x_reg s2 RSP mod 16).
  { unfold s3. cbn [x_reg set_reg]. rewrite reg_upd_eq, !(reg_upd_ne RSP), !(reg_upd_ne RDX RDI), !(reg_upd_ne RDX RSI), !(reg_upd_ne RDX RBP), (reg_upd_ne RDX RSP), reg_upd_eq by done. split_and!; try done.
    - apply (po_reg _ _ _ _ Hp 0%nat RDI); reflexivity.
    - apply (po_reg _ _ _ _ Hp 1%nat RSI); reflexivity.
    - rewrite (po_other _ _ _ _ Hp) by (discriminate || reg_in). done. }
  clearbody s3. destruct Hs3 as (A1 & A2 & A3 & A4 & A5). unfold call. wp_step. apply (wp_push64 s3 []); [apply pushed_nil|cbn; lia|].
  cbn [app]. intros s4 Hp4. pose proof (pu_rsp _ _ _ Hp4) as E5. cbn in E5. destruct (pushed_words _ _ _ Hp4) as [Hra4 _]; [by constructor|].
  apply words_at_cons in Hra4 as [Hra4 _]. wp_step. eapply wp_mono; [apply Hm; rewrite ?(pu_reg _ _ _ Hp4) by done; try done; lia|].
  intros ? s5 [[Hcs Hch] Hax]. cbv beta. wp_step. pose proof (Hcs RSP ltac:(reg_in)) as E6.
  apply (wp_pop64 s5 ra); [rewrite E6, <- Hra4; apply (changes_load64 _ _ _ _ Hch); intros b Hb; lia|lia|]. core_steps.
  cbn [x_reg set_reg set_x_rip]. rewrite reg_upd_eq, reg_upd_ne by done. done.
Qed.

(** ** Instances *)

(** A program in user mode whose registers hold their numbers; its kernel stack ends
    at 0x8000, which is also what [kernel_rsp_scratch] at 0x108 holds. *)
Definition demo_core : core :=
  mkCore (upd RSP 0x20000 (fun r => 100 + reg_id r)) 0x400000 0x202 0x23 0x1B (store64 ∅ 0x108 0x8000).
Lemma demo_core_words : core_words demo_core.
Proof. split; [|by compute]. intros r. destruct r; by compute. Qed.
Lemma returns_refl n s : returns n s s.
Proof. split; [done|apply changes_refl]. Qed.

Lemma interrupt_transparent_witness :
  wp (interrupt 0x8000 0x08 0x10 14 6 ;; isr 14 ;; isr_common_stub (ret tt) 0) (fun _ s' => x_reg s' RAX = 100 /\ x_rip s' = 0x400000) demo_core.
Proof.
  eapply wp_mono; [apply (interrupt_transparent demo_core 14 6 0x8000 (ret tt) 0)|].
  - lia.
  - exact demo_core_words.
  - by compute.
  - by compute.
  - vm_compute. split; [discriminate|reflexivity].
  - intros sh _ _. apply returns_refl.
  - intros ? s' (H & Hr & _). split; [apply (H RAX)|exact Hr].
Defined.

Lemma syscall_entry_correct_witness :
  wp (syscall_entry 0x100 0x108 (store RDI 0 7) 0) (fun _ s' => x_reg s' RAX = 7 /\ x_reg s' RBX = 101 /\ x_rip s' = 102) demo_core.
Proof.
  eapply wp_mono; [apply (syscall_entry_correct demo_core 0x100 0x108 (store RDI 0 7) 0 7)|].
  - exact demo_core_words.
  - assert (E : load64 (x_mem demo_core) 0x108 = 0x8000) by reflexivity. split; rewrite ?E; lia.
  - by compute.
  - intros sh Hw Hd Hsp. assert (E : load64 (x_mem demo_core) 0x108 = 0x8000) by reflexivity. rewrite E in Hd, Hsp. apply wp_store.
    rewrite Z.add_0_r, u64_small by lia. unfold handled. split_and!; [done|apply changes_store; cbn [x_mem set_x_mem]; intros b Hb; lia|].
    apply load64_store64_eq. lia.
  - intros ? s' (H1 & H2 & H3 & _). split_and!; [exact H1|apply (H2 RBX); reg_in|exact H3].
Defined.

(** A child with this trap frame at 0x3000 and a kernel stack that ends at 0x8000. *)
Definition demo_child : core :=
  mkCore (upd RSP 0x8000 (upd RDI 0x3000 (fun _ => 0))) 0 0 8 16
    (store_words ∅ 0x3000 (trap_words (set_tf_rax 0 (trap_of (entry_frame demo_core))))).
Lemma fork_child_resumes_witness :
  wp resume_usermode (fun _ s' => x_reg s' RAX = 0 /\ x_reg s' RBX = 101 /\ x_rip s' = 102) demo_child.
Proof.
  eapply wp_mono; [apply (fork_child_resumes demo_core demo_child demo_core_words)|].
  - apply store_words_spec. apply (bool_decide_unpack _). vm_compute. exact I.
  - vm_compute. intuition discriminate.
  - intros ? s' (H1 & H2 & H3 & _). split_and!; [exact H1|apply (H2 RBX); reg_in|exact H3].
Defined.

Lemma usercopy_context_roundtrip_witness :
  wp usercopy_save_context (fun _ s1 => wp usercopy_restore_context (fun _ s2 => x_rip s2 = 0x55 /\ x_reg s2 RAX = x_reg s1 RSI) (set_reg RDI (x_reg demo_child RDI) s1))
    (set_x_mem (store64 ∅ 0x8000 0x55) demo_child).
Proof.
  eapply wp_mono; [apply (usercopy_context_roundtrip (set_x_mem (store64 ∅ 0x8000 0x55) demo_child) 0x55)|].
  - reflexivity.
  - intros r. destruct r; by compute.
  - vm_compute. intuition discriminate.
  - left. vm_compute. discriminate.
  - intros ? s1 (_ & Hrip & _ & _ & H). rewrite <- Hrip. eapply wp_mono; [apply H; [reflexivity|apply changes_refl]|].
    intros ? s2 (H1 & H2 & _). split; [exact H2|exact H1].
Defined.

Lemma start_correct_witness :
  wp (_start (wr RAX 3) 0) (fun _ s' => x_reg s' RDI = 3) (set_x_mem (store_words ∅ 0x8000 [2; 0x9000]) demo_child).
Proof.
  apply (start_correct (set_x_mem (store_words ∅ 0x8000 [2; 0x9000]) demo_child) 2 0x9000 (wr RAX 3) 0 3).
  - apply store_words_spec. apply (bool_decide_unpack _). vm_compute. exact I.
  - vm_compute. split; [discriminate|reflexivity].
  - by compute.
  - intros sm _ _ _ _ _. apply wp_wr. split; [|reflexivity]. split; [|apply changes_refl]. intros r Hr. apply reg_upd_ne. intros <-. revert Hr. reg_in.
Defined.
