(* ===== verification/Files.v ===== *)
(** * File descriptors and the ends of pipes

    Which descriptors name which pipe, across all processes, and the counts of
    open ends kept in the pipes (syscall.c, process.c, pipe.c): the counts are
    always right, so that no descriptor names a pipe that was freed and no pipe
    is left behind. *)

From S2P Require Import Prelude Mem CString FrameAlloc Pmm Vmm PageTable AddressSpace CloneSpace.
From S2P Require Import Proc Queues Mlfq Wait Pipe Heap Vfs Keyboard Mouse ProcRing Kernel UserMem Process Schedule Tty Syscall.

(** ** Counting descriptors *)

(** 1 if [fd] names the reading (writing) end of [p]. *)
Definition fd_end (rd : bool) (p : Z) (fd : file_descriptor) : Z :=
  if bool_decide (fd_kind fd = (if rd then FD_PIPE_READ else FD_PIPE_WRITE)) && (fd_pipe fd =? p) then 1 else 0.
Fixpoint table_ends (rd : bool) (p : Z) (t : list file_descriptor) : Z :=
  match t with [] => 0 | fd :: t => fd_end rd p fd + table_ends rd p t end.
Definition ends (rd : bool) (p : Z) (m : gmap Z process) : Z :=
  map_fold (fun _ t n => table_ends rd p t + n) 0 (fd_table <$> m).

Lemma fd_end_range rd p fd : 0 <= fd_end rd p fd <= 1.
Proof. unfold fd_end. destruct (_ && _); lia. Qed.
Lemma fd_end_none rd p fd : fd_kind fd = FD_NONE -> fd_end rd p fd = 0.
Proof. unfold fd_end. intros ->. by destruct rd. Qed.
Lemma fd_end_pipe rd x (rd' : bool) p fd :
  fd_end rd x (set_fd_pipe (if rd' then FD_PIPE_READ else FD_PIPE_WRITE) p fd) = if Bool.eqb rd rd' && (p =? x) then 1 else 0.
Proof. unfold fd_end. by destruct rd, rd'. Qed.
Lemma table_ends_nonneg rd p t : 0 <= table_ends rd p t.
Proof. induction t as [|fd t IH]; cbn; [lia|]. pose proof (fd_end_range rd p fd). lia. Qed.

Lemma table_ends_insert rd p t i fd fd' :
  t !! i = Some fd -> table_ends rd p (<[i := fd']> t) = table_ends rd p t - fd_end rd p fd + fd_end rd p fd'.
Proof.
  revert i. induction t as [|x t IH]; intros [|i] Hi; cbn in *; try done.
  - injection Hi as ->. lia.
  - rewrite IH by done. lia.
Qed.
Lemma table_ends_elem rd p t i fd : t !! i = Some fd -> fd_end rd p fd <= table_ends rd p t.
Proof.
  revert i. induction t as [|x t IH]; intros [|i] Hi; cbn in *; try done.
  - injection Hi as ->. pose proof (table_ends_nonneg rd p t). lia.
  - pose proof (fd_end_range rd p x). specialize (IH i Hi). lia.
Qed.
Lemma table_ends_two rd p t i j fd fd' :
  t !! i = Some fd -> t !! j = Some fd' -> i <> j -> fd_end rd p fd + fd_end rd p fd' <= table_ends rd p t.
Proof.
  revert i j. induction t as [|x t IH]; intros [|i] [|j] Hi Hj Hne; cbn in *; try done.
  - injection Hi as ->. pose proof (table_ends_elem rd p t j fd' Hj). lia.
  - injection Hj as ->. pose proof (table_ends_elem rd p t i fd Hi). lia.
  - pose proof (fd_end_range rd p x). assert (i <> j) by congruence. specialize (IH i j Hi Hj). lia.
Qed.

Lemma table_ends_app rd p t t' : table_ends rd p (t ++ t') = table_ends rd p t + table_ends rd p t'.
Proof. induction t as [|fd t IH]; cbn; lia. Qed.

(** The search for a free descriptor. *)
Lemma free_slot_spec t : forall fuel i, 0 <= i -> i + Z.of_nat fuel <= Z.of_nat (length t) ->
  let j := free_slot t i fuel in
  j = -1 \/ (i <= j < i + Z.of_nat fuel /\ exists fd, arr_get t j = Some fd /\ fd_kind fd = FD_NONE).
Proof.
  induction fuel as [|fuel IH]; intros i H0 Hl; cbn [free_slot]; [by left|].
  destruct (arr_get_Some t i) as [fd Hfd]; [lia|]. rewrite Hfd. destruct (bool_decide_reflect (fd_kind fd = FD_NONE)) as [E|E].
  - right. split; [lia|eauto].
  - destruct (IH (i + 1)) as [->|[? ?]]; [lia|lia|by left|right]. split; [lia|done].
Qed.
Lemma first_free_spec t i : length t = 32%nat -> 0 <= i <= 32 ->
  first_free t i = -1 \/ (i <= first_free t i < 32 /\ exists fd, arr_get t (first_free t i) = Some fd /\ fd_kind fd = FD_NONE).
Proof.
  intros Ht Hi. unfold first_free, MAX_FDS. destruct (free_slot_spec t (Z.to_nat (32 - i)) i) as [?|[? ?]]; [lia|lia|by left|right].
  split; [lia|done].
Qed.

(** ** What the calls do to a table

    The slots of one process, without the pipes behind them: what a program sees of
    close, dup2 and pipe, with the value the C library returns. *)

Definition kind_at (t : list file_descriptor) (i : Z) : option fd_type := fd_kind <$> arr_get t i.
Definition is_free (t : list file_descriptor) (i : Z) : Prop := kind_at t i = Some FD_NONE.
Definition names (t : list file_descriptor) (i : Z) (ty : fd_type) (p : Z) : Prop :=
  exists fd, arr_get t i = Some fd /\ fd_kind fd = ty /\ fd_pipe fd = p.
(** The same slots are open, on the same things. *)
Definition slot_same (t t' : list file_descriptor) (i : Z) : Prop := arr_get t' i = arr_get t i \/ (is_free t i /\ is_free t' i).
Definition same_open (t t' : list file_descriptor) : Prop := length t' = length t /\ forall i, slot_same t t' i.
Definition slot_set (t : list file_descriptor) (i : Z) (fd : file_descriptor) : list file_descriptor := <[Z.to_nat i := fd]> t.

Definition close_table (t : list file_descriptor) (fd : Z) : Z * list file_descriptor :=
  if (3 <=? fd) && (fd <? 32) then (0, match arr_get t fd with Some d => slot_set t fd (closed_fd d) | None => t end) else (-1, t).
Definition dup2_table (t : list file_descriptor) (o n : Z) : Z * list file_descriptor :=
  if (o <? 0) || (32 <=? o) || (n <? 0) || (32 <=? n) then (-1, t) else
  match arr_get t o with
  | None => (-1, t)
  | Some d => if bool_decide (fd_kind d = FD_NONE) then (-1, t) else if n =? o then (n, t) else (n, slot_set t n d)
  end.
(** A pipe that no descriptor of the table names, in the two first free slots. *)
Definition pipe_table (t : list file_descriptor) (p : Z) (r w : Z) (t' : list file_descriptor) : Prop :=
  r = first_free t 3 /\ w = first_free t (r + 1) /\ r <> -1 /\ w <> -1 /\
  (forall i, ~ names t i FD_PIPE_READ p /\ ~ names t i FD_PIPE_WRITE p) /\
  exists dr dw, arr_get t r = Some dr /\ arr_get t w = Some dw /\
    t' = slot_set (slot_set t r (set_fd_pipe FD_PIPE_READ p dr)) w (set_fd_pipe FD_PIPE_WRITE p dw).

(** What the C library returns for the value in rax. *)
Definition c_value (res : sysres) : Z :=
  match res with Ret v => if (s64 v <? 0) && (-4096 <? s64 v) then -1 else s64 v | _ => 0 end.

(** Sums over the process table. *)
Section sums.
Context (rd : bool) (p : Z).
Abbreviation total := (map_fold (fun (_ : Z) t n => table_ends rd p t + n) 0).

Lemma total_insert (m : gmap Z (list file_descriptor)) q t :
  m !! q = None -> total (<[q := t]> m) = table_ends rd p t + total m.
Proof. intros Hq. rewrite map_fold_insert_L; [done| |done]. intros. lia. Qed.
Lemma total_replace (m : gmap Z (list file_descriptor)) q t t' :
  m !! q = Some t -> total (<[q := t']> m) = total m - table_ends rd p t + table_ends rd p t'.
Proof.
  intros Hq. rewrite <- insert_delete_eq, total_insert by apply lookup_delete_eq.
  assert (E : total m = table_ends rd p t + total (delete q m)).
  { rewrite <- (insert_delete_id m q t Hq) at 1. rewrite total_insert; [done|apply lookup_delete_eq]. }
  lia.
Qed.
Lemma total_ge (m : gmap Z (list file_descriptor)) : 0 <= total m /\ forall q t, m !! q = Some t -> table_ends rd p t <= total m.
Proof.
  induction m as [|q t m Hq IH] using map_ind; [split; [by rewrite map_fold_empty|by intros q t Hq%lookup_empty_Some]|].
  destruct IH as [H0 IH]. rewrite total_insert by done. pose proof (table_ends_nonneg rd p t). split; [lia|].
  intros q' t' [[-> ->]|[_ Hq']]%lookup_insert_Some; [lia|]. specialize (IH q' t' Hq'). lia.
Qed.
End sums.

Lemma ends_same rd p m m' : (forall a, fd_table <$> m' !! a = fd_table <$> m !! a) -> ends rd p m' = ends rd p m.
Proof. intros E. unfold ends. f_equal. apply map_eq. intros a. by rewrite !lookup_fmap. Qed.
Lemma ends_set rd p m q r t :
  m !! q = Some r -> ends rd p (alter (set_fd_table t) q m) = ends rd p m - table_ends rd p (fd_table r) + table_ends rd p t.
Proof.
  intros Hq. unfold ends.
  assert (E : fd_table <$> alter (set_fd_table t) q m = <[q := t]> (fd_table <$> m)).
  { apply map_eq. intros a. rewrite lookup_fmap. destruct (decide (q = a)) as [->|].
    - by rewrite lookup_alter_eq, lookup_insert_eq, Hq.
    - by rewrite lookup_alter_ne, lookup_insert_ne, lookup_fmap. }
  rewrite E. apply total_replace. by rewrite lookup_fmap, Hq.
Qed.
Lemma ends_ge rd p m q r : m !! q = Some r -> table_ends rd p (fd_table r) <= ends rd p m.
Proof. intros Hq. apply (proj2 (total_ge rd p _) q). by rewrite lookup_fmap, Hq. Qed.
Lemma ends_nonneg rd p m : 0 <= ends rd p m.
Proof. apply total_ge. Qed.

(** ** The invariant *)

Section files.
Context {S H : Type} `{FO : FrameOps S, FA : !FrameAlloc S} `{HO : HeapOps H, HP : !Heap H} (hh : Z) (Hhh : hhdm_ok hh) (kmapped : Z -> bool).
Implicit Types (k : kernel S H) (W : gmap Z (list Z * list Z)).

(** [E]: the number of open ends of each pipe; [W]: who waits on it. *)
Definition pipe_ok (E : bool -> Z -> Z) k W ls (p : Z) : Prop :=
  match k_pipes k !! p with
  | Some pi => p_readers pi = E true p /\ p_writers pi = E false p /\ 0 < E true p + E false p /\
      p ∈ live (k_heap k) /\
      exists rl wl, W !! p = Some (rl, wl) /\ waiters_ok (mkPs pi (k_sched k)) rl wl ls
  | None => E true p = 0 /\ E false p = 0 /\ W !! p = None
  end.
Record files_inv (E : bool -> Z -> Z) k W ls : Prop := {
  fi_nonneg : forall rd p, 0 <= E rd p;
  fi_tables : forall q r, procs (k_sched k) !! q = Some r -> length (fd_table r) = 32%nat;
  fi_mlfq : mlfq_wf (k_sched k) ls;
  fi_heap : heap_wf (k_heap k);
  fi_pipes : forall p, pipe_ok E k W ls p;
  fi_apart : forall p p' l l', W !! p = Some l -> W !! p' = Some l' -> p <> p' ->
    forall a, a ∈ l.1 ++ l.2 -> a ∉ l'.1 ++ l'.2;
}.

Lemma files_inv_ext E E' k W ls : (forall rd p, E rd p = E' rd p) -> files_inv E k W ls -> files_inv E' k W ls.
Proof.
  intros HE [H1 H2 H3 H4 H5 H6]. split; try done; [intros rd p; by rewrite <- HE|].
  intros p. specialize (H5 p). unfold pipe_ok in *. by rewrite <- !HE.
Qed.

(** What the operations on pipes leave alone. *)
Definition framed k k' : Prop :=
  same_core (procs (k_sched k)) (procs (k_sched k')) /\
  current_process (k_sched k') = current_process (k_sched k) /\ k_vm k' = k_vm k.
Lemma framed_refl k : framed k k.
Proof. done. Qed.
Lemma framed_trans k1 k2 k3 : framed k1 k2 -> framed k2 k3 -> framed k1 k3.
Proof. intros (A1 & A2 & A3) (B1 & B2 & B3). split; [by eapply same_core_trans|]. split; congruence. Qed.
Lemma framed_field {A} (f : process -> A) k k' q : (forall r, f (core r) = f r) -> framed k k' ->
  f <$> procs (k_sched k') !! q = f <$> procs (k_sched k) !! q.
Proof. intros Hf (Hc & _). by apply core_field. Qed.
Lemma framed_lookup {A} (f : process -> A) k k' q r : (forall r, f (core r) = f r) -> framed k k' ->
  procs (k_sched k) !! q = Some r -> exists r', procs (k_sched k') !! q = Some r' /\ f r' = f r.
Proof.
  intros Hf Hk Hq. pose proof (framed_field f k k' q Hf Hk) as E. rewrite Hq in E.
  destruct (procs (k_sched k') !! q) as [r'|]; [|done]. exists r'. split; [done|]. by injection E.
Qed.
Lemma framed_tables k k' : framed k k' ->
  (forall q r, procs (k_sched k) !! q = Some r -> length (fd_table r) = 32%nat) ->
  forall q r, procs (k_sched k') !! q = Some r -> length (fd_table r) = 32%nat.
Proof.
  intros Hk Ht q r' Hq. pose proof (framed_field fd_table k k' q ltac:(done) Hk) as E. rewrite Hq in E. cbn in E.
  destruct (procs (k_sched k) !! q) as [r|] eqn:Er; [|done]. injection E as ->. by apply (Ht q).
Qed.
Lemma framed_ends k k' rd p : framed k k' -> ends rd p (procs (k_sched k')) = ends rd p (procs (k_sched k)).
Proof. intros Hk. apply ends_same. intros a. by apply framed_field. Qed.

(** What closing ends does to the scheduler: processes that wait on a pipe may become
    ready, nothing else changes but the descriptor tables. *)
Definition waits W (a : Z) : Prop := exists p l, W !! p = Some l /\ a ∈ l.1 ++ l.2.
Definition base (r : process) : process := set_fd_table [] (core r).
Record woke W (ls : list (list Z)) k W' (ls' : list (list Z)) k' : Prop := {
  wo_lists : forall q a, q ∈ ls' -> a ∈ q -> waits W a \/ exists q0, q0 ∈ ls /\ a ∈ q0;
  wo_waits : forall a, waits W' a -> waits W a;
  wo_state : forall a, ~ waits W a -> state_of (procs (k_sched k')) a = state_of (procs (k_sched k)) a;
  wo_dead : forall a, state_of (procs (k_sched k')) a = Some PROCESS_DEAD -> state_of (procs (k_sched k)) a = Some PROCESS_DEAD;
  wo_base : forall a, base <$> procs (k_sched k') !! a = base <$> procs (k_sched k) !! a;
  wo_only : only_queues (k_sched k) (k_sched k');
}.
Lemma woke_refl W ls k : woke W ls k W ls k.
Proof. split; [eauto|done|done|done|done|apply only_queues_refl]. Qed.
Lemma woke_trans W ls k W' ls' k' W2 ls2 k2 : woke W ls k W' ls' k' -> woke W' ls' k' W2 ls2 k2 -> woke W ls k W2 ls2 k2.
Proof.
  intros [A1 A2 A3 A6 A4 A5] [B1 B2 B3 B6 B4 B5]. split.
  - intros q a Hq Ha. destruct (B1 q a Hq Ha) as [Hw|(q0 & Hq0 & Ha0)]; [left; by apply A2|by apply (A1 q0)].
  - intros a Ha. by apply A2, B2.
  - intros a Ha. rewrite B3; [by apply A3|]. intros Hw. by apply Ha, A2.
  - intros a Ha. by apply A6, B6.
  - intros a. by rewrite B4.
  - by eapply only_queues_trans.
Qed.
Lemma woken_elem m a : forall l ls q, q ∈ woken m ls l -> a ∈ q -> a ∈ l \/ exists q0, q0 ∈ ls /\ a ∈ q0.
Proof.
  unfold woken. induction l as [|b l IH]; intros ls q Hq Ha; cbn [foldl] in Hq; [eauto|].
  destruct (IH _ _ Hq Ha) as [?|(q0 & Hq0 & Ha0)]; [left; by apply list_elem_of_further|].
  destruct (enq_elem _ _ _ _ _ Hq0 Ha0) as [->|?]; [left; apply list_elem_of_here|by right].
Qed.
Lemma enq_in (ls : list (list Z)) j q a : (a = q /\ (j < length ls)%nat) \/ (exists l, l ∈ ls /\ a ∈ l) -> exists l, l ∈ enq ls j q /\ a ∈ l.
Proof.
  unfold enq. intros [[-> Hj]|(l & [i Hi]%list_elem_of_lookup & Ha)].
  - destruct (lookup_lt_is_Some_2 ls j Hj) as [l Hl]. exists (l ++ [q]). split; [|apply elem_of_app; right; apply list_elem_of_here].
    apply (list_elem_of_lookup_2 _ j). by rewrite list_lookup_alter_eq, Hl.
  - destruct (decide (i = j)) as [->|].
    + exists (l ++ [q]). split; [|apply elem_of_app; by left]. apply (list_elem_of_lookup_2 _ j). by rewrite list_lookup_alter_eq, Hi.
    + exists l. split; [|done]. apply (list_elem_of_lookup_2 _ i). by rewrite list_lookup_alter_ne.
Qed.
Lemma woken_in m a : forall l ls, (a ∈ l /\ (forall b, b ∈ l -> (prio m b < length ls)%nat)) \/ (exists q, q ∈ ls /\ a ∈ q) -> exists q, q ∈ woken m ls l /\ a ∈ q.
Proof.
  unfold woken. induction l as [|b l IH]; intros ls Ha; cbn [foldl].
  - destruct Ha as [[Ha _]|?]; [by apply not_elem_of_nil in Ha|done].
  - apply IH. destruct Ha as [[[->|Hal]%elem_of_cons Hp]|Hq].
    + right. apply enq_in. left. split; [done|]. apply Hp, list_elem_of_here.
    + left. split; [done|]. intros c Hc. unfold enq. rewrite length_alter. by apply Hp, list_elem_of_further.
    + right. apply enq_in. by right.
Qed.
Lemma woken_ready (s s' : sched) pi rl wl ls a : waiters_ok (mkPs pi s) rl wl ls -> mlfq_wf s' (woken (procs s) ls (wl ++ rl)) -> a ∈ rl ++ wl ->
  state_of (procs s') a = Some PROCESS_READY.
Proof.
  intros [_ _ _ Hr Hw (_ & Hlen & _)] (_ & _ & Hm) Ha. cbn in *.
  destruct (woken_in (procs s) a (wl ++ rl) ls) as (q & [j Hj]%list_elem_of_lookup & Haq).
  - left. split; [apply elem_of_app in Ha as [?|?]; apply elem_of_app; auto|]. intros b Hb. rewrite Hlen. unfold prio, NUM_QUEUES.
    apply elem_of_app in Hb as [Hb|Hb]; [destruct (Hw b Hb) as (r & -> & _ & ?)|destruct (Hr b Hb) as (r & -> & _ & ?)]; lia.
  - destruct (Hm j q Hj) as [_ Hmem]. destruct (Hmem a Haq) as (r & Hr' & _ & Hst). unfold state_of. rewrite Hr'. cbn. by rewrite Hst.
Qed.
Lemma woke_close W ls k W' k' p rl wl : W !! p = Some (rl, wl) -> (forall a, waits W' a -> waits W a) ->
  only_queues (k_sched k) (k_sched k') -> same_core (procs (k_sched k)) (procs (k_sched k')) ->
  (forall a, a ∉ rl ++ wl -> same_but_queue (procs (k_sched k)) (procs (k_sched k')) a) ->
  (forall a, a ∈ rl ++ wl -> state_of (procs (k_sched k')) a = Some PROCESS_READY) ->
  woke W ls k W' (woken (procs (k_sched k)) ls (wl ++ rl)) k'.
Proof.
  intros HW Hw Ho Hc Hs Hrdy.
  assert (Hst : forall a, a ∉ rl ++ wl -> state_of (procs (k_sched k')) a = state_of (procs (k_sched k)) a).
  { intros a Hn. specialize (Hs a Hn). unfold same_but_queue in Hs. unfold state_of.
    destruct (procs (k_sched k) !! a), (procs (k_sched k') !! a); try done. cbn in *. apply (inj Some) in Hs. f_equal. exact (f_equal p_state Hs). }
  split; [|done| | | |done].
  - intros q a Hq Ha. destruct (woken_elem _ _ _ _ _ Hq Ha) as [Hin|?]; [left|by right]. exists p, (rl, wl). split; [done|]. cbn.
    apply elem_of_app in Hin as [?|?]; apply elem_of_app; [by right|by left].
  - intros a Ha. apply Hst. intros Hin. apply Ha. by exists p, (rl, wl).
  - intros a Ha. destruct (decide (a ∈ rl ++ wl)) as [Hin|Hin]; [by rewrite Hrdy in Ha|by rewrite <- Hst].
  - intros a. specialize (Hc a). destruct (procs (k_sched k) !! a), (procs (k_sched k') !! a); try done. cbn in *. apply (inj Some) in Hc. f_equal. unfold base. by rewrite Hc.
Qed.

Lemma waiters_frame pi (s s' : sched) rl wl ls ls' :
  waiters_ok (mkPs pi s) rl wl ls -> (forall a, a ∈ rl ++ wl -> same_but_queue (procs s) (procs s') a) ->
  mlfq_wf s' ls' -> waiters_ok (mkPs pi s') rl wl ls'.
Proof.
  intros [H1 H2 H3 H4 H5 _] Hf Hm. cbn in *.
  assert (Hr : forall a, a ∈ rl -> same_but_queue (procs s) (procs s') a) by (intros a Ha; apply Hf, elem_of_app; by left).
  assert (Hw : forall a, a ∈ wl -> same_but_queue (procs s) (procs s') a) by (intros a Ha; apply Hf, elem_of_app; by right).
  split; cbn; try done; [by eapply wq_rep_frame|by eapply wq_rep_frame|by eapply parked_frame|by eapply parked_frame].
Qed.

(** A step on the pipe [p] is one for the others. *)
Lemma other_pipe E E' k k' W W' ls ls' p rl wl p' :
  files_inv E k W ls -> W !! p = Some (rl, wl) -> p' <> p ->
  (forall a, a ∉ rl ++ wl -> same_but_queue (procs (k_sched k)) (procs (k_sched k')) a) ->
  mlfq_wf (k_sched k') ls' ->
  k_pipes k' !! p' = k_pipes k !! p' -> W' !! p' = W !! p' -> (forall rd, E' rd p' = E rd p') ->
  (p' ∈ live (k_heap k) -> p' ∈ live (k_heap k')) ->
  pipe_ok E' k' W' ls' p'.
Proof.
  intros Hi HW Hne Hf Hm Hp HW' HE Hl. pose proof (fi_pipes _ _ _ _ Hi p') as Hok. unfold pipe_ok in *. rewrite Hp, !HE, HW'.
  destruct (k_pipes k !! p') as [pi'|]; [|done]. destruct Hok as (H1 & H2 & H3 & H4 & rl' & wl' & Hw & Hwt).
  split_and!; auto. exists rl', wl'. split; [done|]. eapply waiters_frame; [exact Hwt| |done].
  intros a Ha. apply Hf. intros Ha'. by apply (fi_apart _ _ _ _ Hi p p' _ _ HW Hw ltac:(done) a).
Qed.

(** ** Closing and opening an end *)

Definition less (E : bool -> Z -> Z) (rd : bool) (p : Z) (rd' : bool) (p' : Z) : Z :=
  E rd' p' - (if Bool.eqb rd rd' && (p' =? p) then 1 else 0).
Definition more (E : bool -> Z -> Z) (rd : bool) (p : Z) (rd' : bool) (p' : Z) : Z :=
  E rd' p' + (if Bool.eqb rd rd' && (p' =? p) then 1 else 0).
Lemma less_other E rd p rd' p' : p' <> p -> less E rd p rd' p' = E rd' p'.
Proof. intros Hne. unfold less. destruct (Z.eqb_spec p' p); [done|]. rewrite andb_false_r. lia. Qed.
Lemma more_other E rd p rd' p' : p' <> p -> more E rd p rd' p' = E rd' p'.
Proof. intros Hne. unfold more. destruct (Z.eqb_spec p' p); [done|]. rewrite andb_false_r. lia. Qed.

Lemma inv_pipe E k W ls rd p : files_inv E k W ls -> 0 < E rd p -> exists pi rl wl,
  k_pipes k !! p = Some pi /\ W !! p = Some (rl, wl) /\ waiters_ok (mkPs pi (k_sched k)) rl wl ls /\
  p_readers pi = E true p /\ p_writers pi = E false p /\ p ∈ live (k_heap k).
Proof.
  intros Hi Hp. pose proof (fi_pipes _ _ _ _ Hi p) as Hok. unfold pipe_ok in Hok.
  destruct (k_pipes k !! p) as [pi|]; [|destruct rd; lia]. destruct Hok as (H1 & H2 & _ & H4 & rl & wl & ? & ?).
  exists pi, rl, wl. done.
Qed.

Lemma wp_close_end E k W ls p rd :
  files_inv E k W ls -> 0 < E rd p ->
  wp (close_end p rd) (fun _ k' => framed k k' /\ exists W' ls', files_inv (less E rd p) k' W' ls' /\ woke W ls k W' ls' k') k.
Proof.
  intros Hi Hp. destruct (inv_pipe _ _ _ _ _ _ Hi Hp) as (pi & rl & wl & Hpi & HW & Hwt & Hr & Hw & Hl).
  pose proof (fi_nonneg _ _ _ _ Hi true p). pose proof (fi_nonneg _ _ _ _ Hi false p).
  unfold close_end. wp_step. eapply wp_on_pipe; [exact Hpi|].
  eapply wp_mono; [apply (wp_pipe_close_end (mkPs pi (k_sched k)) rd rl wl ls Hwt); cbn; lia|].
  intros free [pi' s'] (Epi & Hwt' & Hfree & Ho & Hfr & Hcore). cbn [ps_pipe ps_sched] in *.
  set (k1 := set_k_pipes _ _). set (ls' := woken (procs (k_sched k)) ls (wl ++ rl)) in *.
  assert (Hm' : mlfq_wf s' ls') by apply Hwt'.
  assert (Hrdy : forall a, a ∈ rl ++ wl -> state_of (procs s') a = Some PROCESS_READY) by (intros a; by apply (woken_ready (k_sched k) s' pi rl wl ls)).
  assert (Hfr' : forall a, a ∉ rl ++ wl -> same_but_queue (procs (k_sched k)) (procs s') a).
  { intros a Ha. apply not_elem_of_app in Ha as [? ?]. by apply Hfr. }
  assert (Hf1 : framed k k1) by (split; [done|]; split; [exact (f_equal current_process Ho)|done]).
  assert (Hc : p_readers pi' = less E rd p true p /\ p_writers pi' = less E rd p false p).
  { rewrite Epi. unfold less. cbn. rewrite Z.eqb_refl. destruct rd; cbn; lia. }
  assert (Hn : forall rd' p', 0 <= less E rd p rd' p').
  { intros rd' p'. destruct (decide (p' = p)) as [->|D]; [|rewrite less_other by done; apply Hi].
    unfold less. pose proof (fi_nonneg _ _ _ _ Hi rd' p). destruct rd, rd'; cbn; case_bools; lia. }
  destruct free.
  - destruct Hfree as [Hfree _]. destruct (Hfree eq_refl) as [Hz1 Hz2]. unfold free_pipe. wp_step. apply wp_in_heap.
    eapply wp_mono; [apply (kfree_spec _ p); [apply Hi|exact Hl]|]. intros [] h' [Hh Hlive]. wp_steps.
    split; [done|]. exists (delete p W), ls'. split; [|apply (woke_close _ _ _ _ _ p rl wl); try done; intros a (p' & x & [_ Hx]%lookup_delete_Some & Ha); by exists p', x]. split; try done.
    + by apply (framed_tables k k1), Hi.
    + intros p'. destruct (decide (p' = p)) as [->|D].
      * unfold pipe_ok. cbn. rewrite lookup_delete_eq, lookup_delete_eq. destruct Hc. split_and!; congruence || done.
      * apply (other_pipe E _ k _ W _ ls _ p rl wl); try done; cbn.
        -- by rewrite lookup_delete_ne, lookup_insert_ne by done.
        -- by rewrite lookup_delete_ne.
        -- intros rd'. by apply less_other.
        -- intros Hl'. rewrite Hlive. apply elem_of_difference. split; [done|]. by rewrite elem_of_singleton.
    + intros p1 p2 l1 l2 [_ Hp1]%lookup_delete_Some [_ Hp2]%lookup_delete_Some. by apply (fi_apart _ _ _ _ Hi).
  - wp_steps. split; [done|]. exists (<[p := ([], [])]> W), ls'. split; [|apply (woke_close _ _ _ _ _ p rl wl); try done].
    2: { intros a (p' & x & Hx & Ha). apply lookup_insert_Some in Hx as [[_ <-]|[_ Hx]]; [by apply not_elem_of_nil in Ha|by exists p', x]. }
    split; try done.
    + by apply (framed_tables k k1), Hi.
    + apply Hi.
    + intros p'. destruct (decide (p' = p)) as [->|D].
      * unfold pipe_ok. cbn. rewrite lookup_insert_eq, lookup_insert_eq. destruct Hc as [Hc1 Hc2]. split_and!; try done; [|eauto].
        pose proof (Hn true p). pose proof (Hn false p). destruct Hfree as [_ Hfree].
        destruct (decide (less E rd p true p + less E rd p false p = 0)); [|lia]. discriminate Hfree. split; lia.
      * apply (other_pipe E _ k _ W _ ls _ p rl wl); try done; cbn.
        -- by rewrite lookup_insert_ne.
        -- by rewrite lookup_insert_ne.
        -- intros rd'. by apply less_other.
    + intros p1 p2 l1 l2 Hp1 Hp2 Hne a Ha. apply lookup_insert_Some in Hp1 as [[-> <-]|[D1 Hp1]]; [by apply not_elem_of_nil in Ha|].
      apply lookup_insert_Some in Hp2 as [[-> <-]|[D2 Hp2]]; [by apply not_elem_of_nil|]. by apply (fi_apart _ _ _ _ Hi p1 p2 l1).
Qed.

Definition minus_fd (E : bool -> Z -> Z) (fd : file_descriptor) (rd : bool) (p : Z) : Z := E rd p - fd_end rd p fd.
Definition plus_fd (E : bool -> Z -> Z) (fd : file_descriptor) (rd : bool) (p : Z) : Z := E rd p + fd_end rd p fd.

Lemma wp_drop_end E k W ls fd :
  files_inv E k W ls -> (forall rd p, fd_end rd p fd <= E rd p) ->
  wp (drop_end fd) (fun _ k' => framed k k' /\
    exists W' ls', files_inv (minus_fd E fd) k' W' ls' /\ woke W ls k W' ls' k') k.
Proof.
  intros Hi Hle.
  assert (Hclose : forall rd : bool, fd_kind fd = (if rd then FD_PIPE_READ else FD_PIPE_WRITE) ->
    wp (close_end (fd_pipe fd) rd) (fun _ k' => framed k k' /\
      exists W' ls', files_inv (minus_fd E fd) k' W' ls' /\ woke W ls k W' ls' k') k).
  { intros rd Hk. eapply wp_mono; [apply (wp_close_end E k W ls); [done|]|].
    - specialize (Hle rd (fd_pipe fd)). unfold fd_end in Hle. rewrite Z.eqb_refl, bool_decide_true in Hle by done. cbn in Hle. lia.
    - intros [] k' (Hf & W' & ls' & Hi' & Hwo). split; [done|]. exists W', ls'. split; [|done]. eapply files_inv_ext; [|exact Hi'].
      intros rd' p'. unfold less, minus_fd, fd_end. rewrite Hk, (Z.eqb_sym p'). destruct rd, rd'; cbn; reflexivity. }
  assert (Hnone : (forall rd : bool, fd_kind fd <> (if rd then FD_PIPE_READ else FD_PIPE_WRITE)) ->
    files_inv (minus_fd E fd) k W ls).
  { intros Hk. eapply files_inv_ext; [|exact Hi]. intros rd p. unfold minus_fd, plus_fd, fd_end. rewrite bool_decide_false by done. cbn. lia. }
  unfold drop_end. destruct (fd_kind fd) eqn:Hk; [| |by apply (Hclose true)|by apply (Hclose false)];
    wp_steps; (split; [apply framed_refl|]; exists W, ls; split; [apply Hnone; by intros []|apply woke_refl]).
Qed.

Lemma wp_bump_end E k W ls fd :
  files_inv E k W ls -> (forall rd p, fd_end rd p fd <= E rd p) ->
  wp (bump_end fd) (fun _ k' => framed k k' /\ files_inv (plus_fd E fd) k' W ls) k.
Proof.
  intros Hi Hle.
  assert (Hbump : forall rd : bool, fd_kind fd = (if rd then FD_PIPE_READ else FD_PIPE_WRITE) ->
    wp (on_pipe (fd_pipe fd) (upd_pipe (if rd then add_ends 1 0 else add_ends 0 1))) (fun _ k' => framed k k' /\
      files_inv (plus_fd E fd) k' W ls) k).
  { intros rd Hk. set (p := fd_pipe fd). assert (Hp : 0 < E rd p).
    { specialize (Hle rd p). unfold fd_end in Hle. unfold p in *. rewrite Z.eqb_refl, bool_decide_true in Hle by done. cbn in Hle. lia. }
    destruct (inv_pipe _ _ _ _ _ _ Hi Hp) as (pi & rl & wl & Hpi & HW & Hwt & Hr & Hw & Hl).
    eapply wp_on_pipe; [exact Hpi|]. unfold upd_pipe. wp_steps. cbn [ps_pipe ps_sched].
    split; [done|]. split; try apply Hi; [intros rd' p'; pose proof (fi_nonneg _ _ _ _ Hi rd' p'); pose proof (fd_end_range rd' p' fd); unfold plus_fd; lia|].
    assert (Er : forall rd', fd_end rd' p fd = if Bool.eqb rd rd' then 1 else 0).
    { intros rd'. unfold fd_end, p. rewrite Hk, Z.eqb_refl. by destruct rd, rd'. }
    intros p'. pose proof (fi_pipes _ _ _ _ Hi p') as Hok. unfold pipe_ok in *. cbn. unfold plus_fd.
    destruct (decide (p = p')) as [<-|D].
    - rewrite lookup_insert_eq, Hpi, !Er in *. destruct Hok as (? & ? & ? & ? & Hwx).
      split_and!; [destruct rd; cbn; lia|destruct rd; cbn; lia|destruct rd; cbn; lia|done|].
      exists rl, wl. split; [done|]. destruct Hwt, rd; by split.
    - rewrite lookup_insert_ne by done.
      assert (Ez : forall rd', fd_end rd' p' fd = 0).
      { intros rd'. unfold fd_end. fold p. destruct (Z.eqb_spec p p'); [done|]. by rewrite andb_false_r. }
      rewrite !Ez, !Z.add_0_r. done. }
  assert (Hnone : (forall rd : bool, fd_kind fd <> (if rd then FD_PIPE_READ else FD_PIPE_WRITE)) ->
    files_inv (plus_fd E fd) k W ls).
  { intros Hk. eapply files_inv_ext; [|exact Hi]. intros rd p. unfold minus_fd, plus_fd, fd_end. rewrite bool_decide_false by done. cbn. lia. }
  unfold bump_end. destruct (fd_kind fd) eqn:Hk; [| |by apply (Hbump true)|by apply (Hbump false)];
    wp_steps; (split; [apply framed_refl|]; apply Hnone; by intros []).
Qed.

(** ** Descriptor tables *)

(** A new descriptor table for [q]. *)
Definition with_table k (q : Z) (t : list file_descriptor) : kernel S H :=
  set_k_sched (set_procs (alter (set_fd_table t) q (procs (k_sched k))) (k_sched k)) k.

Lemma with_table_inv E k W ls q t :
  files_inv E k W ls -> length t = 32%nat -> files_inv E (with_table k q t) W ls.
Proof.
  intros Hi Ht.
  assert (Hl : forall gn gp sn sp `{!Links gn gp sn sp} l, (forall r, gn (set_fd_table t r) = gn r /\ gp (set_fd_table t r) = gp r) ->
    linked gn gp (procs (k_sched k)) l -> linked gn gp (alter (set_fd_table t) q (procs (k_sched k))) l).
  { intros gn gp sn sp HL l Hg Hlk. apply linked_alter; [by right|done]. }
  assert (Hm : mlfq_wf (k_sched (with_table k q t)) ls) by (apply neutral_mlfq; [done|apply Hi]).
  split; try apply Hi; [|done|].
  - intros q' r'. cbn. destruct (decide (q = q')) as [->|]; [|rewrite lookup_alter_ne by done; apply Hi].
    rewrite lookup_alter_eq. destruct (procs (k_sched k) !! q'); [|done]. cbn. by intros [= <-].
  - intros p. pose proof (fi_pipes _ _ _ _ Hi p) as Hok. unfold pipe_ok in *. cbn [with_table k_pipes set_k_sched k_heap k_sched].
    destruct (k_pipes k !! p) as [pi|]; [|done]. destruct Hok as (? & ? & ? & ? & rl & wl & ? & [W1 W2 W3 W4 W5 W6]).
    split_and!; try done. exists rl, wl. split; [done|]. cbn in *.
    assert (Hp : forall l, parked (procs (k_sched k)) PROCESS_BLOCKED_PIPE l ->
      parked (alter (set_fd_table t) q (procs (k_sched k))) PROCESS_BLOCKED_PIPE l).
    { intros l Hpk a Ha. destruct (Hpk a Ha) as (r & Hr & ? & ?). destruct (decide (q = a)) as [->|].
      - exists (set_fd_table t r). by rewrite lookup_alter_eq, Hr.
      - exists r. by rewrite lookup_alter_ne. }
    split; cbn; try done; auto.
    + destruct W1 as (? & ? & ?). split; [|done]. by apply (Hl wait_next wait_prev set_wait_next set_wait_prev).
    + destruct W2 as (? & ? & ?). split; [|done]. by apply (Hl wait_next wait_prev set_wait_next set_wait_prev).
Qed.

Lemma wp_get_fd (Q : file_descriptor -> kernel S H -> Prop) k q i r fd :
  procs (k_sched k) !! q = Some r -> arr_get (fd_table r) i = Some fd -> Q fd k -> wp (get_fd q i) Q k.
Proof. intros Hr Hf HQ. unfold get_fd. wp_step. eapply wp_pread; [exact Hr|]. cbv beta. by eapply wp_lift. Qed.
Lemma wp_put_fd (Q : unit -> kernel S H -> Prop) k q i r fd0 fd :
  procs (k_sched k) !! q = Some r -> arr_get (fd_table r) i = Some fd0 ->
  Q tt (with_table k q (<[Z.to_nat i := fd]> (fd_table r))) -> wp (put_fd q i fd) Q k.
Proof.
  intros Hr Hf HQ. unfold put_fd. wp_step. eapply wp_pread; [exact Hr|]. cbv beta. wp_step.
  eapply wp_lift; [apply arr_set_Some; by eapply arr_get_range|]. cbv beta. by eapply wp_pwrite.
Qed.

(** The ends that are named by descriptors. *)
Definition named k (rd : bool) (p : Z) : Z := ends rd p (procs (k_sched k)).

Lemma named_put k q i r fd0 fd rd p :
  procs (k_sched k) !! q = Some r -> arr_get (fd_table r) i = Some fd0 ->
  named (with_table k q (<[Z.to_nat i := fd]> (fd_table r))) rd p = named k rd p - fd_end rd p fd0 + fd_end rd p fd.
Proof.
  intros Hr Hf. unfold named. cbn. rewrite (ends_set _ _ _ q r) by done.
  rewrite (table_ends_insert _ _ _ _ fd0); [lia|]. unfold arr_get in Hf. by destruct (0 <=? i).
Qed.
Lemma named_ge k q i r fd rd p :
  procs (k_sched k) !! q = Some r -> arr_get (fd_table r) i = Some fd -> fd_end rd p fd <= named k rd p.
Proof.
  intros Hr Hf. etransitivity; [|by eapply ends_ge]. eapply table_ends_elem. unfold arr_get in Hf.
  destruct (0 <=? i); [exact Hf|done].
Qed.
Lemma named_two k q i j r fd fd' rd p :
  procs (k_sched k) !! q = Some r -> arr_get (fd_table r) i = Some fd -> arr_get (fd_table r) j = Some fd' -> i <> j ->
  fd_end rd p fd + fd_end rd p fd' <= named k rd p.
Proof.
  intros Hr Hf Hf' Hne. etransitivity; [|by eapply ends_ge]. unfold arr_get in *.
  destruct (Z.leb_spec 0 i); [|done]. destruct (Z.leb_spec 0 j); [|done].
  apply (table_ends_two _ _ _ (Z.to_nat i) (Z.to_nat j)); try done. lia.
Qed.
Lemma table_length E k W ls q r i : files_inv E k W ls -> procs (k_sched k) !! q = Some r -> 0 <= i < 32 ->
  exists fd, arr_get (fd_table r) i = Some fd.
Proof. intros Hi Hr Hb. apply arr_get_Some. rewrite (fi_tables _ _ _ _ Hi q r Hr). lia. Qed.

(** *** What the calls leave alone *)

Definition kept k k' : Prop :=
  k_vm k' = k_vm k /\ current_process (k_sched k') = current_process (k_sched k) /\
  forall a, p_cr3 <$> procs (k_sched k') !! a = p_cr3 <$> procs (k_sched k) !! a.
Lemma kept_trans k1 k2 k3 : kept k1 k2 -> kept k2 k3 -> kept k1 k3.
Proof. intros (A1 & A2 & A3) (B1 & B2 & B3). split; [congruence|]. split; [congruence|]. intros a. by rewrite B3. Qed.
Lemma framed_kept k k' : framed k k' -> kept k k'.
Proof. intros Hf. pose proof Hf as (_ & ? & ?). split; [done|]. split; [done|]. intros a. by apply framed_field. Qed.
Lemma with_table_kept k q t : kept k (with_table k q t).
Proof.
  split; [done|]. split; [done|]. intros a. cbn. destruct (decide (q = a)) as [->|].
  - rewrite lookup_alter_eq. by destruct (_ !! a).
  - by rewrite lookup_alter_ne.
Qed.

(** The invariant of the whole: the counts are the numbers of descriptors. *)
Definition counted k : Prop := exists W ls, files_inv (named k) k W ls.

Lemma woke_table W ls k q t : woke W ls k W ls (with_table k q t).
Proof.
  split; [eauto|done|..]; [| | |unfold only_queues, with_table; cbn [k_sched set_k_sched]; by destruct (k_sched k)]; intros a; [intros _; unfold state_of| |]; cbn; [by apply alter_field| |by apply alter_field].
  unfold state_of. cbn. by rewrite alter_field.
Qed.

(** The descriptors of [q] before slot [i] are closed; nobody else's are touched. *)
Definition closed_below (q i : Z) k k' : Prop :=
  (forall a, a <> q -> fd_table <$> procs (k_sched k') !! a = fd_table <$> procs (k_sched k) !! a) /\
  forall r, procs (k_sched k) !! q = Some r -> exists r', procs (k_sched k') !! q = Some r' /\
    forall j, fd_table r' !! j = (if Z.of_nat j <? i then closed_fd else id) <$> fd_table r !! j.
Lemma closed_below_step q i k k1 k2 r1 r2 fd :
  closed_below q i k k1 -> procs (k_sched k1) !! q = Some r1 -> arr_get (fd_table r1) i = Some fd -> 0 <= i ->
  (forall a, a <> q -> fd_table <$> procs (k_sched k2) !! a = fd_table <$> procs (k_sched k1) !! a) ->
  procs (k_sched k2) !! q = Some r2 -> fd_table r2 = <[Z.to_nat i := closed_fd fd]> (fd_table r1) -> closed_below q (i + 1) k k2.
Proof.
  intros [A1 A2] Hr1 Hfd Hi B1 Hr2 E. split; [intros a Ha; by rewrite B1, A1|]. intros r Hr. destruct (A2 r Hr) as (r1' & Hr1' & Ht).
  rewrite Hr1 in Hr1'. injection Hr1' as <-. exists r2. split; [done|]. intros j. rewrite E. unfold arr_get in Hfd. replace (0 <=? i) with true in Hfd by lia.
  destruct (decide (j = Z.to_nat i)) as [->|Hne].
  - rewrite list_lookup_insert_eq by (by eapply lookup_lt_Some). rewrite (Ht (Z.to_nat i)) in Hfd.
    rewrite Z2Nat.id, Z.ltb_irrefl, option_fmap_id in Hfd by done. rewrite Z2Nat.id, Hfd by done. by rewrite (proj2 (Z.ltb_lt i (i + 1))) by lia.
  - rewrite list_lookup_insert_ne, Ht by done. by replace (Z.of_nat j <? i + 1) with (Z.of_nat j <? i) by lia.
Qed.
Lemma closed_below_all q k k' r : closed_below q 32 k k' -> procs (k_sched k) !! q = Some r -> length (fd_table r) = 32%nat ->
  exists r', procs (k_sched k') !! q = Some r' /\ fd_table r' = closed_fd <$> fd_table r.
Proof.
  intros [_ C] Hr Hl. destruct (C r Hr) as (r' & Hr' & Ht). exists r'. split; [done|]. apply list_eq. intros j. rewrite Ht, list_lookup_fmap.
  destruct (fd_table r !! j) eqn:E; [|done]. apply lookup_lt_Some in E. by replace (Z.of_nat j <? 32) with true by lia.
Qed.

(** The table of [q] is [t] now; nobody else's has changed. *)
Definition tabled (q : Z) (t : list file_descriptor) k k' : Prop :=
  (forall a, a <> q -> fd_table <$> procs (k_sched k') !! a = fd_table <$> procs (k_sched k) !! a) /\ fd_table <$> procs (k_sched k') !! q = Some t.
Lemma framed_table k k' a : framed k k' -> fd_table <$> procs (k_sched k') !! a = fd_table <$> procs (k_sched k) !! a.
Proof. intros Hf. by apply framed_field. Qed.
Lemma tabled_same k k' q r : framed k k' -> procs (k_sched k) !! q = Some r -> tabled q (fd_table r) k k'.
Proof. intros Hf Hr. split; [intros a _|]; rewrite (framed_table k k') by done; [done|by rewrite Hr]. Qed.
Lemma tabled_put k q r t : procs (k_sched k) !! q = Some r -> tabled q t k (with_table k q t).
Proof. intros Hr. split; [intros a Ha|]; cbn; [by rewrite lookup_alter_ne|by rewrite lookup_alter_eq, Hr]. Qed.
Lemma tabled_trans q t t' k k1 k2 : tabled q t k k1 -> tabled q t' k1 k2 -> tabled q t' k k2.
Proof. intros [A1 A2] [B1 B2]. split; [intros a Ha; by rewrite B1, A1|done]. Qed.
Lemma tabled_lookup q t k k' : tabled q t k k' -> exists r', procs (k_sched k') !! q = Some r' /\ fd_table r' = t.
Proof. intros [_ E]. destruct (procs (k_sched k') !! q) as [r'|]; [|done]. injection E as E. eauto. Qed.

(** A slot is closed. *)
Lemma wp_close_slot_inv k q i r W ls :
  files_inv (named k) k W ls -> procs (k_sched k) !! q = Some r -> 0 <= i < 32 ->
  wp (fd <- get_fd q i ;; drop_end fd ;; fd <- get_fd q i ;; put_fd q i (closed_fd fd))
    (fun _ k' => (kept k k' /\ exists W' ls', files_inv (named k') k' W' ls' /\ woke W ls k W' ls' k') /\
       exists fd, arr_get (fd_table r) i = Some fd /\ tabled q (<[Z.to_nat i := closed_fd fd]> (fd_table r)) k k') k.
Proof.
  intros Hi Hr Hb. destruct (table_length _ _ _ _ q r i Hi Hr Hb) as [fd Hfd].
  wp_step. eapply wp_get_fd; [exact Hr|exact Hfd|]. wp_step.
  eapply wp_mono; [apply (wp_drop_end _ k W ls fd Hi); intros; by eapply named_ge|].
  intros [] k1 (Hf & W1 & ls1 & Hi1 & Hwo). destruct (framed_lookup fd_table _ _ q r ltac:(done) Hf Hr) as (r1 & Hr1 & Et). wp_step.
  eapply wp_get_fd; [exact Hr1|by rewrite Et|]. cbv beta. eapply wp_put_fd; [exact Hr1|by rewrite Et|].
  split; [|exists fd; split; [done|]; eapply tabled_trans; [by apply tabled_same|]; rewrite <- Et; by eapply tabled_put].
  split; [eapply kept_trans; [by apply framed_kept|apply with_table_kept]|]. exists W1, ls1. split; [|by eapply woke_trans; [|apply woke_table]].
  eapply files_inv_ext; [|apply with_table_inv; [exact Hi1|]].
  - intros rd p. rewrite (named_put k1 q i r1 fd) by (by rewrite ?Et). unfold minus_fd, named. rewrite (framed_ends k k1) by done.
    rewrite (fd_end_none _ _ (closed_fd fd)) by done. by rewrite Z.add_0_r.
  - rewrite length_insert. apply (fi_tables _ _ _ _ Hi1 q r1 Hr1).
Qed.
Lemma wp_close_slot k q i r :
  counted k -> procs (k_sched k) !! q = Some r -> 0 <= i < 32 ->
  wp (fd <- get_fd q i ;; drop_end fd ;; fd <- get_fd q i ;; put_fd q i (closed_fd fd)) (fun _ k' => kept k k' /\ counted k') k.
Proof.
  intros (W & ls & Hi) Hr Hb. eapply wp_mono; [by apply (wp_close_slot_inv k q i r W ls)|].
  intros [] k' [(Hk & W' & ls' & Hi' & _) _]. split; [done|]. by exists W', ls'.
Qed.

Lemma kept_lookup k k' q r : kept k k' -> procs (k_sched k) !! q = Some r ->
  exists r', procs (k_sched k') !! q = Some r' /\ p_cr3 r' = p_cr3 r.
Proof.
  intros (_ & _ & E) Hr. specialize (E q). rewrite Hr in E. destruct (procs (k_sched k') !! q) as [r'|]; [|done].
  injection E as E. eauto.
Qed.

Lemma wp_release_fds_inv k q r W ls :
  files_inv (named k) k W ls -> procs (k_sched k) !! q = Some r ->
  wp (process_release_fds q) (fun _ k' => (kept k k' /\ exists W' ls', files_inv (named k') k' W' ls' /\ woke W ls k W' ls' k') /\ closed_below q 32 k k') k.
Proof.
  intros Hc Hr. unfold process_release_fds.
  apply (wp_for_range (fun i k' => (kept k k' /\ exists W' ls', files_inv (named k') k' W' ls' /\ woke W ls k W' ls' k') /\ closed_below q i k k')).
  { split; [split; [done|]; exists W, ls; split; [done|apply woke_refl]|]. split; [done|]. intros r0 Hr0. exists r0. split; [done|].
    intros j. rewrite (proj2 (Z.ltb_ge (Z.of_nat j) 0)) by lia. by rewrite option_fmap_id. }
  intros i k1 Hb [(Hk & W1 & ls1 & Hi1 & Hwo) Hcl]. destruct (kept_lookup _ _ q r Hk Hr) as (r1 & Hr1 & _).
  eapply wp_mono; [apply (wp_close_slot_inv k1 q i r1 W1 ls1); [done|done|lia]|].
  intros [] k2 [(Hk2 & W2 & ls2 & Hi2 & Hwo2) (fd & Hfd & Htab)]. destruct (tabled_lookup _ _ _ _ Htab) as (r2 & Hr2 & Et2).
  split; [|by apply (closed_below_step q i k k1 k2 r1 r2 fd); try done; [lia|apply Htab]]. split; [by eapply kept_trans|]. exists W2, ls2. split; [done|by eapply woke_trans].
Qed.
Lemma wp_process_release_fds k q r :
  counted k -> procs (k_sched k) !! q = Some r ->
  wp (process_release_fds q) (fun _ k' => kept k k' /\ counted k') k.
Proof.
  intros (W & ls & Hi) Hr. eapply wp_mono; [by apply (wp_release_fds_inv k q r W ls)|].
  intros [] k' [(Hk & W' & ls' & Hi' & _) _]. split; [done|]. by exists W', ls'.
Qed.

(** ** The calls *)

Lemma put_length E k W ls q r i fd : files_inv E k W ls -> procs (k_sched k) !! q = Some r ->
  length (<[i := fd]> (fd_table r)) = 32%nat.
Proof. intros Hi Hr. rewrite length_insert. by apply (fi_tables _ _ _ _ Hi q). Qed.
Lemma put_lookup k q r t : procs (k_sched k) !! q = Some r ->
  procs (k_sched (with_table k q t)) !! q = Some (set_fd_table t r).
Proof. intros Hr. cbn. by rewrite lookup_alter_eq, Hr. Qed.
Lemma arr_get_other {A} (l : list A) i j x : 0 <= i -> i <> j -> arr_get (<[Z.to_nat i := x]> l) j = arr_get l j.
Proof. intros Hi Hne. unfold arr_get. destruct (Z.leb_spec 0 j); [|done]. apply list_lookup_insert_ne. lia. Qed.

(** A descriptor is copied to a slot that names no pipe any more. *)
Lemma wp_alias E k W ls q r i j fd0 src :
  files_inv E k W ls -> procs (k_sched k) !! q = Some r ->
  arr_get (fd_table r) i = Some src -> arr_get (fd_table r) j = Some fd0 -> i <> j ->
  (forall rd p, fd_end rd p src <= E rd p) -> (forall rd p, E rd p = named k rd p - fd_end rd p fd0) ->
  wp (put_fd q j src ;; src' <- get_fd q i ;; bump_end src') (fun _ k' => (kept k k' /\ counted k') /\ tabled q (<[Z.to_nat j := src]> (fd_table r)) k k') k.
Proof.
  intros Hi Hr Hs Hd Hne Hle HE. wp_step. eapply wp_put_fd; [exact Hr|exact Hd|]. set (k1 := with_table _ _ _).
  pose proof (with_table_inv E k W ls q _ Hi (put_length _ _ _ _ q r (Z.to_nat j) src Hi Hr)) as Hi1. fold k1 in Hi1.
  wp_step. eapply wp_get_fd; [by apply put_lookup|cbn; rewrite arr_get_other; [exact Hs|apply arr_get_range in Hd; lia|done]|].
  cbv beta. eapply wp_mono; [by apply (wp_bump_end E k1 W ls src)|]. intros [] k2 [Hf Hi2].
  split; [|eapply tabled_trans; [by eapply tabled_put|]; by apply (tabled_same _ _ q (set_fd_table _ r) Hf), put_lookup].
  split; [eapply kept_trans; [apply with_table_kept|by apply framed_kept]|]. exists W, ls. eapply files_inv_ext; [|exact Hi2].
  intros rd p. unfold plus_fd, named. rewrite HE, (framed_ends k1 k2) by done.
  fold (named k1 rd p). unfold k1. rewrite (named_put k q j r fd0) by done. lia.
Qed.

Lemma c_value_small v : 0 <= v < 9223372036854775808 -> c_value (Ret v) = v.
Proof. intros Hv. unfold c_value, s64. rewrite u64_small by lia. cbv zeta. case_bools; lia. Qed.

(** The call leaves [t'] and a value that the C library turns into [v]. *)
Definition tables_to (k : kernel S H) (vt : Z * list file_descriptor) (res : sysres) k' : Prop :=
  (kept k k' /\ counted k') /\ c_value res = fst vt /\ tabled (current_process (k_sched k)) (snd vt) k k'.
Lemma tables_same k r v res : counted k -> procs (k_sched k) !! current_process (k_sched k) = Some r -> c_value res = v -> tables_to k (v, fd_table r) res k.
Proof. intros Hc Hr Hv. split; [done|]. split; [done|]. apply tabled_same; [apply framed_refl|done]. Qed.

Lemma wp_sys_close rdi k r :
  counted k -> procs (k_sched k) !! current_process (k_sched k) = Some r ->
  wp (sys_close rdi) (tables_to k (close_table (fd_table r) rdi)) k.
Proof.
  intros Hc Hr. pose proof Hc as (W & ls & Hi). unfold sys_close, close_table, get_current, MAX_FDS.
  destruct ((3 <=? rdi) && (rdi <? 32)) eqn:E; [|wp_steps; by apply tables_same].
  wp_step. wp_step. pose proof (wp_close_slot_inv k _ rdi r W ls Hi Hr) as Hw. specialize (Hw ltac:(case_bools; lia)).
  do 3 wp_follow Hw. wp_step. eapply wp_mono; [exact Hw|]. intros [] k4 [(Hk & W4 & ls4 & Hi4 & _) (fd & Hfd & Ht)]. wp_steps.
  rewrite Hfd. split; [split; [done|by exists W4, ls4]|]. split; [by apply c_value_small|exact Ht].
Qed.

Lemma wp_sys_dup rdi k r :
  counted k -> procs (k_sched k) !! current_process (k_sched k) = Some r ->
  wp (sys_dup rdi) (fun _ k' => kept k k' /\ counted k') k.
Proof.
  intros (W & ls & Hi) Hr. unfold sys_dup, get_current. set (oldfd := s32 rdi).
  assert (Hsame : kept k k /\ counted k) by (split; [done|by exists W, ls]).
  destruct ((oldfd <? 0) || (MAX_FDS <=? oldfd)) eqn:Eb; [by wp_steps|]. unfold MAX_FDS in Eb. wp_steps.
  destruct (table_length _ _ _ _ _ r oldfd Hi Hr) as [src Hs]; [case_bools; lia|].
  eapply wp_get_fd; [exact Hr|exact Hs|]. cbv beta. destruct (bool_decide_reflect (fd_kind src = FD_NONE)) as [|Hk]; [by wp_steps|].
  wp_step. eapply wp_pread; [exact Hr|]. cbv beta zeta.
  destruct (first_free_spec (fd_table r) 3) as [->|(Hb & fd0 & Hf & Hn)]; [by eapply fi_tables|lia|by wp_steps|].
  destruct (Z.eqb_spec (first_free (fd_table r) 3) (-1)); [lia|]. set (newfd := first_free _ _) in *.
  assert (Hne : oldfd <> newfd) by congruence.
  pose proof (wp_alias (named k) k W ls _ r oldfd newfd fd0 src Hi Hr Hs Hf Hne) as Hw.
  specialize (Hw ltac:(intros; by eapply named_ge) ltac:(intros; rewrite (fd_end_none _ _ fd0) by done; lia)).
  do 2 wp_follow Hw. wp_step. eapply wp_mono; [exact Hw|]. intros [] k3 [H3 _]. by wp_steps.
Qed.

Lemma wp_sys_dup2 rdi rsi k r :
  counted k -> procs (k_sched k) !! current_process (k_sched k) = Some r ->
  wp (sys_dup2 rdi rsi) (tables_to k (dup2_table (fd_table r) (s32 rdi) (s32 rsi))) k.
Proof.
  intros Hc Hr. pose proof Hc as (W & ls & Hi). unfold sys_dup2, dup2_table, get_current, MAX_FDS. set (oldfd := s32 rdi). set (newfd := s32 rsi). cbv zeta.
  destruct (_ || (32 <=? newfd)) eqn:Eb; [wp_steps; by apply tables_same|].
  assert (Hb : 0 <= oldfd < 32 /\ 0 <= newfd < 32) by (case_bools; lia). clear Eb. wp_steps.
  destruct (table_length _ _ _ _ _ r oldfd Hi Hr) as [src Hs]; [lia|]. destruct (table_length _ _ _ _ _ r newfd Hi Hr) as [dst Hd]; [lia|].
  eapply wp_get_fd; [exact Hr|exact Hs|]. cbv beta. rewrite Hs. destruct (bool_decide (fd_kind src = FD_NONE)); [wp_steps; by apply tables_same|].
  destruct (Z.eqb_spec newfd oldfd) as [|Hne]; [wp_steps; apply tables_same; [done|done|apply c_value_small; lia]|]. wp_step. eapply wp_get_fd; [exact Hr|exact Hd|]. wp_step.
  eapply wp_mono; [apply (wp_drop_end _ k W ls dst Hi); intros; by eapply named_ge|].
  intros [] k1 (Hf & W1 & ls1 & Hi1 & _). destruct (framed_lookup fd_table _ _ _ r ltac:(done) Hf Hr) as (r1 & Hr1 & Et). wp_step.
  eapply wp_get_fd; [exact Hr1|rewrite Et; exact Hs|]. cbv beta.
  pose proof (wp_alias (minus_fd (named k) dst) k1 W1 ls1 _ r1 oldfd newfd dst src Hi1 Hr1) as Hw. rewrite Et in Hw.
  specialize (Hw Hs Hd ltac:(done)).
  assert (Hle : forall rd p, fd_end rd p src <= minus_fd (named k) dst rd p).
  { intros rd p. pose proof (named_two k _ oldfd newfd r src dst rd p Hr Hs Hd ltac:(done)). unfold minus_fd. lia. }
  assert (HE : forall rd p, minus_fd (named k) dst rd p = named k1 rd p - fd_end rd p dst).
  { intros rd p. unfold minus_fd, named. by rewrite (framed_ends k k1). }
  specialize (Hw Hle HE). pose proof (framed_kept _ _ Hf) as Hk1.
  do 2 wp_follow Hw. wp_step. eapply wp_mono; [exact Hw|]. intros [] k4 [[Hk4 Hc4] Ht4]. wp_steps.
  split; [split; [by eapply kept_trans|done]|]. split; [apply (c_value_small newfd); lia|]. eapply tabled_trans; [by apply tabled_same|exact Ht4].
Qed.

(** The child of a fork gets a copy of every descriptor. *)
Lemma wp_copy_fds k par child rp rc :
  counted k -> procs (k_sched k) !! par = Some rp -> procs (k_sched k) !! child = Some rc ->
  (forall rd p, table_ends rd p (fd_table rc) = 0) ->
  wp (copy_fds par child) (fun _ k' => (kept k k' /\ counted k') /\ tabled child (fd_table rp) k k') k.
Proof.
  intros (W & ls & Hi) Hp Hc Hz. set (t := fd_table rp).
  assert (Ht : length t = 32%nat) by (by apply (fi_tables _ _ _ _ Hi par)).
  unfold copy_fds. wp_step. eapply wp_pread; [exact Hp|]. wp_step. eapply wp_pwrite; [exact Hc|]. fold t.
  change (set_k_sched _ k) with (with_table k child t). set (k1 := with_table k child t).
  assert (Hn1 : forall rd p, named k1 rd p = named k rd p + table_ends rd p t).
  { intros rd p. unfold named, k1. cbn. rewrite (ends_set _ _ _ child rc), Hz by done. lia. }
  eapply wp_mono; [apply (wp_for_range (fun i k' => framed k1 k' /\
    files_inv (fun rd p => named k rd p + table_ends rd p (take (Z.to_nat i) t)) k' W ls))|].
  - split; [apply framed_refl|]. eapply files_inv_ext; [|by apply (with_table_inv (named k) k W ls child t)].
    intros rd p. cbv beta. change (take (Z.to_nat 0) t) with (@nil file_descriptor). change (table_ends rd p []) with 0. lia.
  - intros i k2 Hb [Hf Hi2]. destruct (framed_lookup fd_table k1 k2 child _ ltac:(done) Hf (put_lookup k child rc t Hc)) as (r2 & Hr2 & Et).
    cbn in Et. destruct (arr_get_Some t i) as [fd Hfd]; [lia|]. wp_step. eapply wp_get_fd; [exact Hr2|by rewrite Et|]. cbv beta.
    assert (Hle : forall rd p, fd_end rd p fd <= named k rd p + table_ends rd p (take (Z.to_nat i) t)).
    { intros rd p. pose proof (named_ge k par i rp fd rd p Hp Hfd). pose proof (table_ends_nonneg rd p (take (Z.to_nat i) t)). lia. }
    eapply wp_mono; [exact (wp_bump_end _ k2 W ls fd Hi2 Hle)|]. intros [] k3 [Hf3 Hi3]. split; [by eapply framed_trans|].
    eapply files_inv_ext; [|exact Hi3]. intros rd p. unfold plus_fd. unfold arr_get in Hfd. destruct (0 <=? i); [|done].
    replace (Z.to_nat (i + 1)) with (Datatypes.S (Z.to_nat i)) by lia.
    rewrite (take_S_r t _ fd), table_ends_app by done. cbn. lia.
  - intros [] k2 [Hf Hi2]. split; [|eapply tabled_trans; [by apply (tabled_put k child rc t)|]; by apply (tabled_same _ _ child (set_fd_table t rc) Hf), put_lookup].
    split; [eapply kept_trans; [apply with_table_kept|by apply framed_kept]|]. exists W, ls.
    eapply files_inv_ext; [|exact Hi2]. intros rd p. unfold named. rewrite (framed_ends k1 k2) by done. fold (named k1 rd p). rewrite Hn1.
    by rewrite take_ge by (rewrite Ht; cbn; lia).
Qed.

(** *** A new pipe *)

Lemma wp_pipe_create k :
  counted k -> wp pipe_create (fun p k' => k_sched k' = k_sched k /\ k_vm k' = k_vm k /\
    if p =? 0 then counted k'
    else (forall rd, named k rd p = 0) /\ exists W ls, files_inv (fun rd q => named k rd q + (if q =? p then 1 else 0)) k' W ls) k.
Proof.
  intros (W & ls & Hi). unfold pipe_create. wp_step. apply wp_in_heap.
  eapply wp_mono; [apply (kmalloc_spec _ PIPE_SIZE); [apply Hi|unfold PIPE_SIZE; lia]|].
  intros p h' [Hh Hcase]. destruct (Z.eqb_spec p 0) as [->|Hp].
  - wp_steps. split; [done|]. split; [done|]. destruct Hcase as [[_ Hl]|[? _]]; [|done]. exists W, ls.
    split; try apply Hi; [done|]. intros q. pose proof (fi_pipes _ _ _ _ Hi q) as Hq. unfold pipe_ok in *. cbn. by rewrite Hl.
  - destruct Hcase as [[? _]|(_ & Hnew & Hl)]; [done|]. wp_steps. split; [done|]. split; [done|].
    destruct (Z.eqb_spec p 0) as [|_]; [done|].
    assert (Hno : k_pipes k !! p = None).
    { destruct (k_pipes k !! p) as [pi|] eqn:E; [|done]. pose proof (fi_pipes _ _ _ _ Hi p) as Hq. unfold pipe_ok in Hq. rewrite E in Hq.
      destruct Hq as (_ & _ & _ & Hq & _). done. }
    pose proof (fi_pipes _ _ _ _ Hi p) as Hz. unfold pipe_ok in Hz. rewrite Hno in Hz. destruct Hz as (Z1 & Z2 & Z3).
    assert (Hnil : forall m, wq_rep m wq_empty [] /\ parked m PROCESS_BLOCKED_PIPE []).
    { intros m. split; [by split; [apply linked_nil|]|by intros a Ha%not_elem_of_nil]. }
    split; [by intros []|]. exists (<[p := ([], [])]> W), ls. split; try apply Hi; [|done| |].
    + intros rd q. pose proof (fi_nonneg _ _ _ _ Hi rd q). destruct (q =? p); lia.
    + intros q. unfold pipe_ok. cbn. destruct (decide (p = q)) as [<-|D].
      * rewrite !lookup_insert_eq, Z.eqb_refl, Z1, Z2, Hl. split_and!; try done; [apply elem_of_union; left; by apply elem_of_singleton|].
        exists [], []. split; [done|]. split; cbn; try apply Hnil; [by intros a Ha%not_elem_of_nil|apply Hi].
      * rewrite !lookup_insert_ne by done. destruct (Z.eqb_spec q p); [done|]. rewrite !Z.add_0_r, Hl.
        pose proof (fi_pipes _ _ _ _ Hi q) as Hq. unfold pipe_ok in Hq. destruct (k_pipes k !! q); [|done].
        destruct Hq as (? & ? & ? & ? & ?). split_and!; try done. apply elem_of_union. by right.
    + intros p1 p2 l1 l2 Hp1 Hp2 Hne a Ha. apply lookup_insert_Some in Hp1 as [[-> <-]|[D1 Hp1]]; [by apply not_elem_of_nil in Ha|].
      apply lookup_insert_Some in Hp2 as [[-> <-]|[D2 Hp2]]; [by apply not_elem_of_nil|]. by apply (fi_apart _ _ _ _ Hi p1 p2 l1).
Qed.

(** The current process has an address space of its own. *)
Definition user_ok k : Prop := exists r T, procs (k_sched k) !! current_process (k_sched k) = Some r /\
  space hh (k_vm k) (p2v hh (p_cr3 r)) T.
Definition files_ok k : Prop := user_ok k /\ counted k.

Lemma kept_user_ok k k' : kept k k' -> user_ok k -> user_ok k'.
Proof.
  intros Hk (r & T & Hr & Hsp). destruct (kept_lookup k k' _ r Hk Hr) as (r' & Hr' & E). pose proof Hk as (Ev & Ec & _).
  exists r', T. rewrite Ec, Ev, E. done.
Qed.
Lemma inv_set_vm E k W ls v : files_inv E k W ls -> files_inv E (set_k_vm v k) W ls.
Proof. intros [? ? ? ? ? ?]. by split. Qed.
Lemma arr_get_put {A} (l : list A) i x0 x : arr_get l i = Some x0 -> arr_get (<[Z.to_nat i := x]> l) i = Some x.
Proof.
  intros Hi. pose proof (arr_get_range _ _ _ Hi). unfold arr_get in *. destruct (0 <=? i); [|done].
  apply list_lookup_insert_eq. lia.
Qed.

(** The bytes are in the user memory at [udst]. *)
Definition stored (v : vm S) (root udst : Z) (src : list Z) : Prop :=
  forall i c, src !! i = Some c -> user_byte hh v root (udst + Z.of_nat i) = Some (u8 c).
Lemma wp_to_user k udst src r T :
  procs (k_sched k) !! current_process (k_sched k) = Some r -> space hh (k_vm k) (p2v hh (p_cr3 r)) T ->
  0 <= udst -> udst + Z.of_nat (length src) <= 140737488355328 ->
  wp (to_user hh kmapped udst src) (fun ok k' => exists v, k' = set_k_vm v k /\ space hh v (p2v hh (p_cr3 r)) T /\
    (ok = true -> stored v (p2v hh (p_cr3 r)) udst src)) k.
Proof.
  intros Hr Hsp H0 Hmax. unfold to_user, cur_pml4, get_current. wp_steps. eapply wp_pread; [exact Hr|]. wp_steps. apply wp_on_vm.
  eapply wp_mono; [by apply (wp_copy_to_user hh Hhh kmapped _ T)|]. intros ok v (Hv & _ & n & Hn & Hok & Hb). cbv beta. exists v. split; [done|]. split; [done|].
  intros ->. subst n. intros i c Hi. pose proof (lookup_lt_Some _ _ _ Hi). rewrite Hb by (unfold user_va; lia).
  rewrite (proj2 (Z.leb_le udst _)), (proj2 (Z.ltb_lt _ (udst + Z.of_nat (length src)))) by lia. cbn [andb].
  replace (Z.to_nat (udst + Z.of_nat i - udst)) with i by lia. by rewrite Hi.
Qed.

Lemma set_table_twice k q t t' : with_table (with_table k q t) q t' = with_table k q t'.
Proof.
  assert (E : alter (set_fd_table t') q (alter (set_fd_table t) q (procs (k_sched k))) = alter (set_fd_table t') q (procs (k_sched k))).
  { apply map_eq. intros a. destruct (decide (q = a)) as [->|]; [|by rewrite !lookup_alter_ne].
    rewrite !lookup_alter_eq. by destruct (_ !! a). }
  unfold with_table. cbn [k_sched set_k_sched procs set_procs]. by rewrite E.
Qed.

(** The two new descriptors. *)
Section pipe.
Context (k : kernel S H) (q : Z) (r : process) (rfd wfd p : Z) (fd0 fd1 : file_descriptor).
Hypothesis Hr : procs (k_sched k) !! q = Some r.
Hypothesis Hf0 : arr_get (fd_table r) rfd = Some fd0.
Hypothesis Hf1 : arr_get (fd_table r) wfd = Some fd1.
Hypothesis Hne : rfd <> wfd.
Let t1 := <[Z.to_nat rfd := set_fd_pipe FD_PIPE_READ p fd0]> (fd_table r).
Let t2 := <[Z.to_nat wfd := set_fd_pipe FD_PIPE_WRITE p fd1]> t1.

Lemma wp_put_ends (Q : unit -> kernel S H -> Prop) :
  Q tt (with_table (with_table k q t1) q t2) ->
  wp (fd <- get_fd q rfd ;; put_fd q rfd (set_fd_pipe FD_PIPE_READ p fd) ;;
      fd <- get_fd q wfd ;; put_fd q wfd (set_fd_pipe FD_PIPE_WRITE p fd)) Q k.
Proof.
  intros HQ. wp_step. eapply wp_get_fd; [exact Hr|exact Hf0|]. wp_step. eapply wp_put_fd; [exact Hr|exact Hf0|]. fold t1. wp_step.
  assert (Hg : arr_get t1 wfd = Some fd1) by (unfold t1; rewrite arr_get_other; [done|apply arr_get_range in Hf0; lia|done]).
  eapply wp_get_fd; [by apply put_lookup|exact Hg|]. cbv beta. eapply wp_put_fd; [by apply put_lookup|exact Hg|]. exact HQ.
Qed.

Lemma new_ends rd x :
  fd_kind fd0 = FD_NONE -> fd_kind fd1 = FD_NONE ->
  table_ends rd x t2 = table_ends rd x (fd_table r) + (if x =? p then 1 else 0).
Proof.
  intros Hn0 Hn1. pose proof (arr_get_range _ _ _ Hf0). pose proof (arr_get_range _ _ _ Hf1).
  assert (Hg : arr_get t1 wfd = Some fd1) by (unfold t1; rewrite arr_get_other; [done|lia|done]).
  unfold t2, t1, arr_get in *. destruct (Z.leb_spec 0 rfd); [|lia]. destruct (Z.leb_spec 0 wfd); [|lia].
  rewrite (table_ends_insert _ _ _ _ fd1), (table_ends_insert _ _ _ _ fd0) by done.
  rewrite (fd_end_none _ _ fd0), (fd_end_none _ _ fd1) by done. rewrite (fd_end_pipe _ _ true), (fd_end_pipe _ _ false), (Z.eqb_sym x).
  destruct (p =? x), rd; cbn; lia.
Qed.
End pipe.

(** The pipe is given up again. *)
Lemma wp_undo_pipe k q r rfd wfd p fd0 fd1 W ls :
  files_inv (named k) k W ls -> procs (k_sched k) !! q = Some r -> rfd <> wfd ->
  arr_get (fd_table r) rfd = Some (set_fd_pipe FD_PIPE_READ p fd0) ->
  arr_get (fd_table r) wfd = Some (set_fd_pipe FD_PIPE_WRITE p fd1) ->
  wp (close_end p true ;; close_end p false ;;
      fd <- get_fd q rfd ;; put_fd q rfd (set_fd_pipe FD_NONE 0 fd) ;;
      fd <- get_fd q wfd ;; put_fd q wfd (set_fd_pipe FD_NONE 0 fd)) (fun _ k' => (kept k k' /\ counted k') /\
        tabled q (<[Z.to_nat wfd := set_fd_pipe FD_NONE 0 (set_fd_pipe FD_PIPE_WRITE p fd1)]> (<[Z.to_nat rfd := set_fd_pipe FD_NONE 0 (set_fd_pipe FD_PIPE_READ p fd0)]> (fd_table r))) k k') k.
Proof.
  intros Hi Hr Hne Hf0 Hf1. pose proof (arr_get_range _ _ _ Hf0). pose proof (arr_get_range _ _ _ Hf1).
  pose proof (named_ge k q rfd r _ true p Hr Hf0) as Hg0. pose proof (named_ge k q wfd r _ false p Hr Hf1) as Hg1.
  rewrite (fd_end_pipe _ _ true) in Hg0. rewrite (fd_end_pipe _ _ false) in Hg1. rewrite Z.eqb_refl in Hg0, Hg1. cbn [Bool.eqb andb] in Hg0, Hg1.
  wp_step. eapply wp_mono; [apply (wp_close_end _ k W ls p true Hi); lia|]. intros [] k1 (Hk1 & W1 & ls1 & Hi1 & _). wp_step.
  eapply wp_mono; [apply (wp_close_end _ k1 W1 ls1 p false Hi1); unfold less; cbn [Bool.eqb andb]; lia|].
  intros [] k2 (Hk2 & W2 & ls2 & Hi2 & _). pose proof (framed_trans _ _ _ Hk1 Hk2) as Hk.
  destruct (framed_lookup fd_table k k2 q r ltac:(done) Hk Hr) as (r2 & Hr2 & Et). rewrite <- Et in Hf0, Hf1.
  wp_step. eapply wp_get_fd; [exact Hr2|exact Hf0|]. wp_step. eapply wp_put_fd; [exact Hr2|exact Hf0|].
  set (t1 := <[Z.to_nat rfd := _]> (fd_table r2)) in *. set (k3 := with_table k2 q t1).
  assert (Hg : arr_get t1 wfd = Some (set_fd_pipe FD_PIPE_WRITE p fd1)) by (unfold t1; rewrite arr_get_other; [done|lia|done]).
  assert (Hr3 : procs (k_sched k3) !! q = Some (set_fd_table t1 r2)) by (by apply put_lookup).
  wp_step. eapply wp_get_fd; [exact Hr3|exact Hg|]. cbv beta. eapply wp_put_fd; [exact Hr3|exact Hg|].
  split; [|rewrite <- Et; eapply tabled_trans; [by apply (tabled_same _ _ q r Hk Hr)|]; eapply tabled_trans; by eapply tabled_put].
  split; [eapply kept_trans; [by apply framed_kept|]; eapply kept_trans; apply with_table_kept|].
  exists W2, ls2. eapply files_inv_ext; [|apply with_table_inv; [apply with_table_inv; [exact Hi2|]|]].
  - intros rd x. rewrite (named_put k3 q wfd (set_fd_table t1 r2) (set_fd_pipe FD_PIPE_WRITE p fd1)) by done.
    unfold k3, t1. rewrite (named_put k2 q rfd r2 (set_fd_pipe FD_PIPE_READ p fd0)) by done.
    rewrite (fd_end_pipe _ _ true), (fd_end_pipe _ _ false), !(fd_end_none _ _ (set_fd_pipe FD_NONE 0 _)) by done.
    unfold named at 2. rewrite (framed_ends k k2) by done. fold (named k rd x). unfold less. rewrite (Z.eqb_sym x).
    destruct (p =? x), rd; cbn; lia.
  - unfold t1. by apply (put_length _ _ _ _ q r2 _ _ Hi2).
  - cbn. rewrite length_insert. unfold t1. by apply (put_length _ _ _ _ q r2 _ _ Hi2).
Qed.

(** The numbers of the new descriptors are handed to the user, or the pipe given up. *)
Lemma wp_publish k q r T rfd wfd p fd0 fd1 W ls udst src :
  files_inv (named k) k W ls -> current_process (k_sched k) = q -> procs (k_sched k) !! q = Some r -> rfd <> wfd ->
  space hh (k_vm k) (p2v hh (p_cr3 r)) T -> 0 <= udst -> udst + Z.of_nat (length src) <= 140737488355328 ->
  arr_get (fd_table r) rfd = Some (set_fd_pipe FD_PIPE_READ p fd0) ->
  arr_get (fd_table r) wfd = Some (set_fd_pipe FD_PIPE_WRITE p fd1) ->
  wp (ok <- to_user hh kmapped udst src ;;
      if ok : bool then ret (Ret 0)
      else
        close_end p true ;;
        close_end p false ;;
        fd <- get_fd q rfd ;;
        put_fd q rfd (set_fd_pipe FD_NONE 0 fd) ;;
        fd <- get_fd q wfd ;;
        put_fd q wfd (set_fd_pipe FD_NONE 0 fd) ;;
        ret (err EFAULT)) (fun res k' => files_ok k' /\
          ((res = Ret 0 /\ tabled q (fd_table r) k k' /\ stored (k_vm k') (p2v hh (p_cr3 r)) udst src) \/
           (res = err EFAULT /\ tabled q (<[Z.to_nat wfd := set_fd_pipe FD_NONE 0 (set_fd_pipe FD_PIPE_WRITE p fd1)]>
             (<[Z.to_nat rfd := set_fd_pipe FD_NONE 0 (set_fd_pipe FD_PIPE_READ p fd0)]> (fd_table r))) k k'))) k.
Proof.
  intros Hi Hq Hr Hne Hsp H0 Hmax Hf0 Hf1. rewrite <- Hq in Hr. wp_step.
  eapply wp_mono; [by apply (wp_to_user k udst src r T)|]. intros ok k3 (v & -> & Hspv & Hst). rewrite Hq in Hr.
  assert (Hu3 : user_ok (set_k_vm v k)) by (exists r, T; cbn; rewrite Hq; done).
  pose proof (inv_set_vm _ _ _ _ v Hi) as Hi3. destruct ok.
  { wp_steps. split; [split; [done|by exists W, ls]|]. left. split; [done|]. split; [split; [done|by cbn; rewrite Hr]|by apply Hst]. }
  pose proof (wp_undo_pipe (set_k_vm v k) q r rfd wfd p fd0 fd1 W ls Hi3 Hr Hne Hf0 Hf1) as Hw.
  do 5 wp_follow Hw. wp_step. eapply wp_mono; [exact Hw|]. intros [] k4 [[Hk4 Hc4] Ht4]. wp_steps.
  split; [split; [by eapply kept_user_ok|done]|]. by right.
Qed.

(** A new pipe in the table, its numbers in the user's array; or nothing. *)
Definition piped_to (k : kernel S H) (r : process) (udst : Z) (res : sysres) k' : Prop :=
  files_ok k' /\ exists t', tabled (current_process (k_sched k)) t' k k' /\
    ((c_value res <> 0 /\ same_open (fd_table r) t') \/
     exists p rfd wfd, c_value res = 0 /\ pipe_table (fd_table r) p rfd wfd t' /\ stored (k_vm k') (p2v hh (p_cr3 r)) udst (le 4 rfd ++ le 4 wfd)).
Lemma piped_nothing k r udst res k' : files_ok k' -> procs (k_sched k) !! current_process (k_sched k) = Some r -> k_sched k' = k_sched k -> c_value res <> 0 ->
  piped_to k r udst res k'.
Proof. intros Hok Hr Es Hv. split; [done|]. exists (fd_table r). split; [|left; split; [done|split; [done|by left]]]. unfold tabled. rewrite Es. split; [done|by rewrite Hr]. Qed.
Lemma undone_same t rfd wfd p fd0 fd1 :
  arr_get t rfd = Some fd0 -> fd_kind fd0 = FD_NONE -> arr_get t wfd = Some fd1 -> fd_kind fd1 = FD_NONE -> rfd <> wfd ->
  same_open t (<[Z.to_nat wfd := set_fd_pipe FD_NONE 0 (set_fd_pipe FD_PIPE_WRITE p fd1)]> (<[Z.to_nat rfd := set_fd_pipe FD_NONE 0 (set_fd_pipe FD_PIPE_READ p fd0)]>
    (<[Z.to_nat wfd := set_fd_pipe FD_PIPE_WRITE p fd1]> (<[Z.to_nat rfd := set_fd_pipe FD_PIPE_READ p fd0]> t)))).
Proof.
  intros H0 K0 H1 K1 Hne. pose proof (arr_get_range _ _ _ H0). pose proof (arr_get_range _ _ _ H1). split; [by rewrite !length_insert|]. intros j. unfold slot_same, is_free, kind_at.
  destruct (decide (j = wfd)) as [->|]; [right; rewrite H1; split; [cbn; congruence|]; by erewrite arr_get_put by (rewrite !arr_get_other by lia; eapply arr_get_put; rewrite arr_get_other by lia; exact H1)|].
  destruct (decide (j = rfd)) as [->|]; [right; rewrite H0; split; [cbn; congruence|]; rewrite arr_get_other by lia; by erewrite arr_get_put by (rewrite arr_get_other by lia; by eapply arr_get_put)|].
  left. by rewrite !arr_get_other by lia.
Qed.
Lemma fresh_table k r p : (forall rd, named k rd p = 0) -> procs (k_sched k) !! current_process (k_sched k) = Some r ->
  forall i, ~ names (fd_table r) i FD_PIPE_READ p /\ ~ names (fd_table r) i FD_PIPE_WRITE p.
Proof.
  intros Hz Hr i. split; intros (fd & Hfd & Hk & Hp).
  - pose proof (named_ge k _ i r fd true p Hr Hfd) as Hg. rewrite Hz in Hg. unfold fd_end in Hg. rewrite Hp, Z.eqb_refl, bool_decide_true in Hg by done. cbn in Hg. lia.
  - pose proof (named_ge k _ i r fd false p Hr Hfd) as Hg. rewrite Hz in Hg. unfold fd_end in Hg. rewrite Hp, Z.eqb_refl, bool_decide_true in Hg by done. cbn in Hg. lia.
Qed.

Lemma wp_sys_pipe rdi k r T :
  procs (k_sched k) !! current_process (k_sched k) = Some r -> space hh (k_vm k) (p2v hh (p_cr3 r)) T -> counted k -> 0 <= rdi -> rdi + 8 <= 140737488355328 ->
  wp (sys_pipe hh kmapped rdi) (piped_to k r rdi) k.
Proof.
  intros Hr Hsp Hc H0 Hmax. pose proof Hc as (W0 & ls0 & Hi0).
  assert (Hsame : files_ok k) by (split; [by exists r, T|done]). set (q := current_process (k_sched k)) in *.
  assert (Hlen : length (fd_table r) = 32%nat) by (by apply (fi_tables _ _ _ _ Hi0 q)).
  unfold sys_pipe, get_current. wp_steps. fold q. eapply wp_pread; [exact Hr|]. cbv beta zeta.
  destruct (first_free_spec (fd_table r) 3) as [->|(Hb0 & fd0 & Hf0 & Hn0)]; [done|lia|wp_steps; by apply piped_nothing|].
  set (rfd := first_free (fd_table r) 3) in *. destruct (Z.eqb_spec rfd (-1)) as [|_]; [lia|]. cbn [orb].
  destruct (first_free_spec (fd_table r) (rfd + 1)) as [->|(Hb1 & fd1 & Hf1 & Hn1)]; [done|lia|wp_steps; by apply piped_nothing|].
  set (wfd := first_free (fd_table r) (rfd + 1)) in *. destruct (Z.eqb_spec wfd (-1)) as [|_]; [lia|]. wp_step.
  eapply wp_mono; [by apply (wp_pipe_create k)|]. intros p k1 (Es & Ev & Hp).
  assert (Hr1 : procs (k_sched k1) !! q = Some r) by (by rewrite Es). assert (Hne : rfd <> wfd) by lia.
  destruct (p =? 0). { wp_steps. apply piped_nothing; try done. split; [|done]. exists r, T. rewrite Es, Ev. done. }
  destruct Hp as (Hfresh & W & ls & Hi1).
  set (t2 := <[Z.to_nat wfd := set_fd_pipe FD_PIPE_WRITE p fd1]> (<[Z.to_nat rfd := set_fd_pipe FD_PIPE_READ p fd0]> (fd_table r))).
  set (k2 := with_table k1 q t2).
  assert (Hi2 : files_inv (named k2) k2 W ls).
  { eapply files_inv_ext; [|apply with_table_inv; [exact Hi1|]]; [|by unfold t2; rewrite !length_insert].
    intros rd x. unfold named, k2. cbn [k_sched with_table set_k_sched procs set_procs]. rewrite (ends_set _ _ _ q r), Es by done. unfold t2.
    rewrite (new_ends r rfd wfd p fd0 fd1) by done. lia. }
  assert (Hk2 : forall t' k', tabled q t' k2 k' -> tabled q t' k k').
  { intros t' k' Ht'. eapply tabled_trans; [|exact Ht']. pose proof (tabled_put k1 q r t2 Hr1) as [A1 A2]. split; [|exact A2]. intros a Ha. rewrite A1, Es by done. done. }
  pose proof (wp_put_ends k1 q r rfd wfd p fd0 fd1 Hr1 Hf0 Hf1 Hne (fun _ k' => k' = k2) (set_table_twice k1 q _ _)) as Hw.
  do 3 wp_follow Hw. wp_step. eapply wp_mono; [exact Hw|]. intros [] k2' ->. clear Hw.
  eapply wp_mono; [apply (wp_publish k2 q (set_fd_table t2 r) T rfd wfd p fd0 fd1 W ls); try done|].
  - cbn. by rewrite Es.
  - by apply put_lookup.
  - cbn. by rewrite Ev.
  - cbn. unfold t2. rewrite arr_get_other by lia. by eapply arr_get_put.
  - cbn. unfold t2. eapply arr_get_put. rewrite arr_get_other by lia. exact Hf1.
  - intros res k' [Hok [(-> & Ht & Hst)|(-> & Ht)]]; (split; [exact Hok|]); eexists; (split; [by apply Hk2|]).
    + right. exists p, rfd, wfd. split; [done|]. split; [|exact Hst]. split_and!; try done; [lia|lia|by apply (fresh_table k)|by exists fd0, fd1].
    + left. split; [done|]. by apply undone_same.
Qed.

(** ** The theorem *)

Inductive fd_op :=
  | FClose (fd : Z) | FDup (fd : Z) | FDup2 (oldfd newfd : Z) | FPipe (udst : Z)
  | FInherit (child : Z) | FRelease.
Definition run_fd (o : fd_op) : M (kernel S H) unit :=
  match o with
  | FClose fd => _ <- sys_close fd ;; ret tt
  | FDup fd => _ <- sys_dup fd ;; ret tt
  | FDup2 oldfd newfd => _ <- sys_dup2 oldfd newfd ;; ret tt
  | FPipe udst => _ <- sys_pipe hh kmapped udst ;; ret tt
  | FInherit child => cur <- get_current ;; copy_fds cur child
  | FRelease => cur <- get_current ;; process_release_fds cur
  end.
(** The array for the descriptors is in the user half; the child is new. *)
Definition legal_fd k (o : fd_op) : Prop :=
  match o with
  | FPipe udst => 0 <= udst /\ udst + 8 <= 140737488355328
  | FInherit child => exists rc, procs (k_sched k) !! child = Some rc /\ Forall (fun fd => fd_kind fd = FD_NONE) (fd_table rc)
  | _ => True
  end.

(** The pipe behind every descriptor exists. *)
Definition no_dangling k : Prop := forall q r fd, procs (k_sched k) !! q = Some r -> fd ∈ fd_table r ->
  fd_kind fd = FD_PIPE_READ \/ fd_kind fd = FD_PIPE_WRITE -> exists pi, k_pipes k !! fd_pipe fd = Some pi.

Lemma counted_no_dangling k : counted k -> no_dangling k.
Proof.
  intros (W & ls & Hi) q r fd Hr [i Hfd]%list_elem_of_lookup Hk.
  assert (Hk' : exists rd : bool, fd_kind fd = if rd then FD_PIPE_READ else FD_PIPE_WRITE)
    by (destruct Hk as [?|?]; [by exists true|by exists false]). destruct Hk' as [rd Hrd].
  pose proof (ends_ge rd (fd_pipe fd) _ q r Hr) as Hge. pose proof (table_ends_elem rd (fd_pipe fd) _ i fd Hfd) as He.
  unfold fd_end in He. rewrite Z.eqb_refl, bool_decide_true in He by done. cbn in He.
  destruct (inv_pipe _ _ _ _ rd (fd_pipe fd) Hi) as (pi & _ & _ & ? & _); [unfold named; lia|eauto].
Qed.

Lemma none_table rd p t : Forall (fun fd => fd_kind fd = FD_NONE) t -> table_ends rd p t = 0.
Proof. induction 1 as [|fd t Hfd _ IH]; [done|]. cbn. by rewrite (fd_end_none _ _ fd), IH. Qed.

Lemma kept_files_ok (c : M (kernel S H) unit) k :
  files_ok k -> wp c (fun _ k' => kept k k' /\ counted k') k -> wp c (fun _ k' => files_ok k' /\ no_dangling k') k.
Proof.
  intros [Hu _] Hw. eapply wp_mono; [exact Hw|]. intros [] k' [Hk Hc]. split; [split; [by eapply kept_user_ok|done]|].
  by apply counted_no_dangling.
Qed.

(** C6: The counts of open ends are right: every pipe that exists has as many
    readers and writers as there are descriptors, of all processes, that name its
    ends, and at least one, and every descriptor names a pipe that exists.
    Closing, duplicating and creating descriptors, a fork's copy of them and an
    exit keep it so; none of them uses a pipe that was freed. *)
Theorem descriptors_counted k o :
  files_ok k -> legal_fd k o -> wp (run_fd o) (fun _ k' => files_ok k' /\ no_dangling k') k.
Proof.
  intros Hok Hl. pose proof Hok as [(r & T & Hr & Hsp) Hc]. destruct o as [fd|fd|oldfd newfd|udst|child|]; cbn [run_fd].
  - apply kept_files_ok; [done|]. wp_step. eapply wp_mono; [by apply (wp_sys_close fd k r)|]. intros ? k' [Hk _]. by wp_steps.
  - apply kept_files_ok; [done|]. wp_step. eapply wp_mono; [by apply (wp_sys_dup fd k r)|]. intros ? k' Hk. by wp_steps.
  - apply kept_files_ok; [done|]. wp_step. eapply wp_mono; [by apply (wp_sys_dup2 oldfd newfd k r)|]. intros ? k' [Hk _]. by wp_steps.
  - destruct Hl as [H0 Hm]. wp_step. eapply wp_mono; [by apply (wp_sys_pipe udst k r T)|]. intros ? k' [Hk _]. wp_steps.
    split; [done|]. apply counted_no_dangling, Hk.
  - apply kept_files_ok; [done|]. unfold get_current. wp_steps. destruct Hl as (rc & Hrc & Hn).
    eapply wp_mono; [apply (wp_copy_fds k _ child r rc); try done; intros rd p; by apply none_table|]. by intros ? ? [? _].
  - apply kept_files_ok; [done|]. unfold get_current. wp_steps. by apply (wp_process_release_fds k _ r).
Qed.
End files.

(** ** An instance: no pipes yet *)

Definition demo_files : kernel pmm bump :=
  let s := demo_ring_sched true in
  set_k_vm fork_vm (demo_kernel (set_procs (alter (set_p_cr3 (fork_root - demo_hh)) 2 (procs s)) s)).

Lemma ends_none rd p (m : gmap Z process) :
  (forall q r, m !! q = Some r -> table_ends rd p (fd_table r) = 0) -> ends rd p m = 0.
Proof.
  unfold ends. induction m as [|q r m Hq IH] using map_ind; intros Hz; [done|].
  rewrite fmap_insert, total_insert by (by rewrite lookup_fmap, Hq). rewrite (Hz q r), IH; [done| |apply lookup_insert_eq].
  intros q' r' Hq'. apply (Hz q'). rewrite lookup_insert_ne; [done|]. intros ->. congruence.
Qed.

Lemma demo_tables q r : procs (k_sched demo_files) !! q = Some r -> fd_table r = replicate 32 fd_empty.
Proof.
  cbn [demo_files k_sched set_k_vm demo_kernel set_procs procs]. intros Hr.
  destruct (decide (2 = q)) as [<-|]; [by injection Hr as <-|]. rewrite lookup_alter_ne in Hr by done.
  unfold demo_ring_sched in Hr. cbn [procs] in Hr.
  repeat (apply lookup_insert_Some in Hr as [[_ <-]|[_ Hr]]; [reflexivity|]). by apply lookup_empty_Some in Hr.
Qed.

Lemma demo_files_inv : files_inv (named demo_files) demo_files ∅ (demo_lists true).
Proof.
  assert (Hz : forall rd p, named demo_files rd p = 0).
  { intros rd p. apply ends_none. intros q r Hr. rewrite (demo_tables q r Hr). apply none_table. by repeat constructor. }
  split.
  - intros rd p. by rewrite Hz.
  - intros q r Hr. by rewrite (demo_tables q r Hr).
  - cbn [demo_files k_sched set_k_vm demo_kernel]. apply neutral_mlfq; [done|]. apply (so_queues _ _ _ (demo_ring_ok true)).
  - split; [done|]. intros p Hp. by apply not_elem_of_empty in Hp.
  - intros p. unfold pipe_ok. cbn [demo_files set_k_vm demo_kernel k_pipes]. by rewrite lookup_empty, !Hz.
  - intros p p' l l' Hl. by apply lookup_empty_Some in Hl.
Qed.
Lemma demo_files_ok : files_ok demo_hh demo_files.
Proof.
  split; [|exists ∅, (demo_lists true); apply demo_files_inv].
  destruct fork_user_space as (T & Hsp & _). eexists _, T. split; [vm_compute; reflexivity|]. exact Hsp.
Qed.
#[local] Opaque sys_pipe demo_files.

Lemma descriptors_counted_witness :
  wp (run_fd demo_hh (fun _ => false) (FPipe 0x400010)) (fun _ k' => no_dangling k') demo_files.
Proof.
  eapply wp_mono; [exact (descriptors_counted demo_hh demo_hh_ok (fun _ => false) demo_files (FPipe 0x400010) demo_files_ok
    ltac:(split; lia))|].
  intros [] k' [_ Hd]. exact Hd.
Defined.
