(* ===== verification/Fork.v ===== *)
(** * Fork (process.c)

    [fork_process] on the state of the whole kernel: the child's address space, its
    descriptor, its stack, its place in the ring and in the ready queue, and what is
    given back when memory runs out. *)

From S2P Require Import Prelude Mem FrameAlloc Pmm Vmm PageTable AddressSpace CloneSpace DestroySpace UserMem.
From S2P Require Import Proc Queues Mlfq Wait Pipe Heap Vfs Keyboard Mouse Switch ProcRing Kernel Process Schedule Reap Enlist Syscall Files.

(** ** Memory *)

Section memory.
Context {S : Type} `{FA : FrameAlloc S} (hh : Z) (Hhh : hhdm_ok hh).
Implicit Types (s : vm S) (T : tables).

(** A space does not notice that a free page is taken and written to. *)
Lemma space_new_page s s' root T q : as_wf hh s root T -> valid_frame q -> frames (vm_pa s) q = None -> fa_wf (vm_pa s') ->
  (forall q', q' <> q -> frames (vm_pa s') q' = frames (vm_pa s) q') -> (forall a, ~ in_page hh q a -> load8 (vm_mem s') a = load8 (vm_mem s) a) ->
  as_wf hh s' root T /\ forall va, user_va va -> mapping hh s' root va = mapping hh s root va.
Proof.
  intros Hwf Hq Hf Hpa Hfr Hm.
  assert (HT : forall p t, T !! p = Some t -> valid_frame t /\ t <> q) by (intros p t Hp; destruct (as_frame _ _ _ _ Hwf p t Hp); split; [done|congruence]).
  destruct (other_space hh Hhh s s' root T) as (H1 & H2 & _); [done|done| | |done].
  - intros p t Hp. by apply Hfr, (HT p).
  - intros p t a Hp Ha. destruct (HT p t Hp). by apply Hm, (in_page_apart hh t q).
Qed.

(** The copy is an address space, also when pages are missing in it. *)
Lemma cloned_child_space s root T child s1 T1 :
  space_ok hh s root T -> cloned hh s root T child 140737488355328 s1 T1 -> space_ok hh s1 child T1.
Proof.
  intros Hok Hc.
  assert (Hm : forall va e', user_va va -> mapping hh s1 child va = Some e' -> exists e, mapping hh s root va = Some e /\ e' = share e).
  { intros va e' Hva. destruct (cl_child _ _ _ _ _ _ _ _ Hc va Hva) as [->|[-> _]]; [|done].
    unfold user_va in Hva. destruct (Z.ltb_spec va 140737488355328); [|lia]. destruct (mapping hh s root va) as [e|]; [|done]. intros [= <-]. eauto. }
  assert (Hsh := fun va e => mapped_share hh s root T va e Hok). split.
  - apply (cl_child_wf _ _ _ _ _ _ _ _ Hc).
  - intros va e' Hva (e & He & ->)%Hm; [|done]. destruct (Hsh va e Hva He) as (-> & _ & ?). done.
  - intros va e' Hva (e & He & ->)%Hm; [|done]. destruct (Hsh va e Hva He) as (_ & -> & _). intros Hnp.
    destruct (sp_owned _ _ _ _ Hok va e Hva He Hnp) as (n & _ & _ & Hf & Hn). exists (n + 1).
    by apply (cloned_owned hh s root T child s1 T1 va e n).
  - intros va va' e1 e2 Hva Hva' (e & He & ->)%Hm (e' & He' & ->)%Hm; try done.
    destruct (Hsh va e Hva He) as (-> & -> & _). destruct (Hsh va' e' Hva' He') as (-> & -> & _).
    by apply (sp_once _ _ _ _ Hok).
Qed.
(** Nor do the bytes of the pages it maps change. *)
Lemma bytes_new_page s s' root T q va : as_wf hh s root T -> valid_frame q -> frames (vm_pa s) q = None -> fa_wf (vm_pa s') ->
  (forall q', q' <> q -> frames (vm_pa s') q' = frames (vm_pa s) q') -> (forall a, ~ in_page hh q a -> load8 (vm_mem s') a = load8 (vm_mem s) a) ->
  user_va va -> (forall e, mapping hh s root va = Some e -> valid_frame (pte_addr e) /\ frames (vm_pa s) (pte_addr e) <> None) ->
  user_byte hh s' root va = user_byte hh s root va.
Proof.
  intros Hwf Hq Hf Hpa Hfr Hm Hva He. destruct (space_new_page s s' root T q Hwf Hq Hf Hpa Hfr Hm) as [_ Hmap].
  unfold user_byte. rewrite Hmap by done. destruct (mapping hh s root va) as [e|] eqn:E; [|done]. cbn. f_equal. unfold byte_of. apply Hm.
  destruct (He e eq_refl) as [Hv Hn]. apply (in_page_apart hh (pte_addr e) q); [done|done|congruence|]. unfold in_page, p2v.
  destruct Hv as [_ Hv]. pose proof Hhh as (? & _ & ?). rewrite u64_small by lia. lia.
Qed.

(** The spaces of the parent, at [root], and of the child, at [croot], after the fork:
    the same pages with the same contents, shared until one of them writes. *)
Record twins s root T s' croot T' : Prop := {
  tw_parent : as_wf hh s' root T;
  tw_child : as_wf hh s' croot T';
  tw_maps : forall va, user_va va -> mapping hh s' root va = share <$> mapping hh s root va /\ mapping hh s' croot va = share <$> mapping hh s root va;
  tw_bytes : forall va, user_va va -> user_byte hh s' root va = user_byte hh s root va /\ user_byte hh s' croot va = user_byte hh s root va;
  tw_counts : forall va e n, user_va va -> mapping hh s root va = Some e -> frames (vm_pa s) (pte_addr e) = Some n -> frames (vm_pa s') (pte_addr e) = Some (n + 1);
}.
Lemma cloned_twins s root T c s1 T1 s' q : space hh s root T -> cloned hh s root T c 140737488355328 s1 T1 ->
  valid_frame q -> frames (vm_pa s1) q = None -> fa_wf (vm_pa s') ->
  (forall q', q' <> q -> frames (vm_pa s') q' = frames (vm_pa s1) q') -> (forall a, ~ in_page hh q a -> load8 (vm_mem s') a = load8 (vm_mem s1) a) ->
  twins s root T s' c T1.
Proof.
  intros Hsp Hc Hq Hf Hpa Hfr Hm. pose proof (us_ok _ _ _ _ Hsp) as Hok.
  destruct (space_new_page s1 s' root T q (cl_parent_wf _ _ _ _ _ _ _ _ Hc) Hq Hf Hpa Hfr Hm) as [Hwf Hmap].
  destruct (space_new_page s1 s' c T1 q (cl_child_wf _ _ _ _ _ _ _ _ Hc) Hq Hf Hpa Hfr Hm) as [Hwfc Hmapc].
  assert (Hmaps : forall va, user_va va -> mapping hh s1 root va = share <$> mapping hh s root va /\ mapping hh s1 c va = share <$> mapping hh s root va).
  { intros va Hva. pose proof (cl_parent _ _ _ _ _ _ _ _ Hc va Hva) as E1. pose proof (cl_child _ _ _ _ _ _ _ _ Hc va Hva) as E2. pose proof Hva as Hlt. unfold user_va in Hlt.
    destruct (Z.ltb_spec va 140737488355328); [|lia]. split; [exact E1|]. destruct E2 as [E2|[_ Hex]]; [exact E2|]. by destruct (Hex q). }
  assert (Hcnt : forall va e n, user_va va -> mapping hh s root va = Some e -> frames (vm_pa s) (pte_addr e) = Some n -> frames (vm_pa s1) (pte_addr e) = Some (n + 1)).
  { intros va e n Hva He Hn. eapply (cl_counted _ _ _ _ _ _ _ _ Hc va); [done|by destruct Hva|done|by apply (us_managed _ _ _ _ Hsp va)|done]. }
  assert (Hpg : forall va e', user_va va -> share <$> mapping hh s root va = Some e' -> valid_frame (pte_addr e') /\ frames (vm_pa s1) (pte_addr e') <> None).
  { intros va e' Hva. destruct (mapping hh s root va) as [e|] eqn:E; [|done]. cbn. intros [= <-]. destruct (mapped_share hh s root T va e Hok Hva E) as (-> & _ & _).
    destruct (space_page _ _ _ _ _ _ Hsp Hva E) as (n & Hv & _ & Hn & _). split; [done|]. by rewrite (Hcnt va e n Hva E Hn). }
  split; [done|done| | |].
  - intros va Hva. rewrite Hmap, Hmapc by done. by apply Hmaps.
  - intros va Hva. destruct (Hmaps va Hva) as [M1 M2]. destruct (cloned_user_bytes hh Hhh (fun _ => false) s root T c s1 T1 Hsp Hc va Hva) as [B1 _].
    rewrite (bytes_new_page s1 s' root T q va), (bytes_new_page s1 s' c T1 q va); try done; try apply Hc.
    + split; [done|]. rewrite <- B1. unfold user_byte. by rewrite M1, M2.
    + intros e He. rewrite M2 in He. by apply (Hpg va).
    + intros e He. rewrite M1 in He. by apply (Hpg va).
  - intros va e n Hva He Hn. pose proof (Hcnt va e n Hva He Hn) as Hn1. rewrite Hfr; [done|congruence].
Qed.
End memory.

Section files.
Context {S H : Type} `{FO : FrameOps S, FA : !FrameAlloc S} `{HO : HeapOps H, HP : !Heap H}.
Implicit Types (k : kernel S H) (W : gmap Z (list Z * list Z)).

(** The fields that the wait queues depend on. *)
Definition wpart (r : process) : Z * Z * Z * process_state := (wait_next r, wait_prev r, priority r, p_state r).
Lemma files_inv_moved E k W ls k' ls' : files_inv E k W ls -> k_pipes k' = k_pipes k -> heap_wf (k_heap k') -> live (k_heap k) ⊆ live (k_heap k') ->
  mlfq_wf (k_sched k') ls' -> (forall q r, procs (k_sched k') !! q = Some r -> length (fd_table r) = 32%nat) ->
  (forall a r, procs (k_sched k) !! a = Some r -> exists r', procs (k_sched k') !! a = Some r' /\ wpart r' = wpart r) -> files_inv E k' W ls'.
Proof.
  intros [I1 I2 I3 I4 I5 I6] Ep Hh Hl Hm Ht Hw. split; try done. intros p. specialize (I5 p). unfold pipe_ok in *. rewrite Ep.
  destruct (k_pipes k !! p) as [pi|]; [|done]. destruct I5 as (? & ? & ? & Hlv & rl & wl & ? & [W1 W2 W3 W4 W5 W6]). split_and!; try done; [by apply Hl|].
  exists rl, wl. split; [done|]. cbn in *.
  assert (Hpk : forall st l, parked (procs (k_sched k)) st l -> parked (procs (k_sched k')) st l).
  { intros st l Hpk a Ha. destruct (Hpk a Ha) as (r & Hr & Hs & Hp). destruct (Hw a r Hr) as (r' & Hr' & E'). exists r'. injection E' as _ _ -> ->. done. }
  assert (Hq : forall wq l, wq_rep (procs (k_sched k)) wq l -> wq_rep (procs (k_sched k')) wq l).
  { intros wq l (Hlk & Hq1 & Hq2). split; [|done]. eapply linked_ext; [|exact Hlk]. intros a r _ Hr. destruct (Hw a r Hr) as (r' & Hr' & E').
    exists r'. split; [done|]. by injection E' as -> -> _ _. }
  split; cbn; auto.
Qed.
Lemma files_inv_heap k W ls h : files_inv (named k) k W ls -> heap_wf h -> live (k_heap k) ⊆ live h -> files_inv (named (set_k_heap h k)) (set_k_heap h k) W ls.
Proof.
  intros Hi Hh Hl. apply (files_inv_moved _ k _ ls); try done; [apply Hi|apply Hi|]. intros a r Ha. by exists r.
Qed.

Lemma empty_table rd p : table_ends rd p (replicate 32 fd_empty) = 0.
Proof. apply none_table. by apply Forall_replicate. Qed.
(** Copying descriptors changes nothing but the counts of the pipes. *)
Definition only_pipes k k' : Prop := exists P, k' = set_k_pipes P k.
Lemma only_pipes_trans k1 k2 k3 : only_pipes k1 k2 -> only_pipes k2 k3 -> only_pipes k1 k3.
Proof. intros (P1 & ->) (P2 & ->). by exists P2. Qed.
Lemma bump_end_only fd k u k' : bump_end fd k = Some (u, k') -> only_pipes k k'.
Proof.
  assert (Hp : forall p f, on_pipe p (upd_pipe f) k = Some (u, k') -> only_pipes k k').
  { intros p f. unfold on_pipe. destruct (k_pipes k !! p) as [pi|]; [|done]. cbn. intros [= <- <-]. eexists. destruct k. reflexivity. }
  unfold bump_end. destruct (fd_kind fd); [| |by apply Hp|by apply Hp]; intros [= <- <-]; exists (k_pipes k); by destruct k.
Qed.
Lemma for_range_only (body : Z -> M (kernel S H) unit) : (forall i k u k', body i k = Some (u, k') -> only_pipes k k') ->
  forall n i k u k', for_range i n body k = Some (u, k') -> only_pipes k k'.
Proof.
  intros Hb. induction n as [|n IH]; intros i k u k'; cbn [for_range].
  - intros [= <- <-]. exists (k_pipes k). by destruct k.
  - unfold bind. destruct (body i k) as [[u1 k1]|] eqn:E; [|done]. intros Hf. eapply only_pipes_trans; [by eapply Hb|by eapply IH].
Qed.
Lemma copy_fds_only k par child rp rc u k' : procs (k_sched k) !! par = Some rp -> procs (k_sched k) !! child = Some rc ->
  copy_fds par child k = Some (u, k') -> only_pipes (with_table k child (fd_table rp)) k'.
Proof.
  intros Hp Hc. unfold copy_fds, bind, pread, pwrite, in_sched, pget, pset. rewrite Hp. cbn [k_sched set_k_sched]. rewrite Hc.
  intros Hf. apply for_range_only in Hf; [by destruct k|]. intros i k1 u1 k2. unfold get_fd, bind, pread, in_sched, pget, lift.
  destruct (procs (k_sched k1) !! child) as [r1|]; [|done]. destruct (arr_get (fd_table r1) i) as [fd|]; [|done].
  intros Hb%bump_end_only. destruct k1. exact Hb.
Qed.
Lemma wp_copy_all (kmapped : Z -> bool) k par child rp rc Q : counted k -> procs (k_sched k) !! par = Some rp -> procs (k_sched k) !! child = Some rc ->
  (forall rd p, table_ends rd p (fd_table rc) = 0) ->
  (forall P, counted (set_k_pipes P (with_table k child (fd_table rp))) -> Q tt (set_k_pipes P (with_table k child (fd_table rp)))) ->
  wp (copy_fds par child) Q k.
Proof.
  intros Hk Hp Hc Hz HQ. pose proof (wp_copy_fds kmapped k par child rp rc Hk Hp Hc Hz) as Hw. unfold wp in *.
  destruct (copy_fds par child k) as [[u k']|] eqn:E; [|done]. destruct Hw as [[_ Hk'] _].
  destruct (copy_fds_only _ _ _ _ _ _ _ Hp Hc E) as (P & ->). destruct u. by apply HQ.
Qed.
End files.

(** ** The child *)

(** The descriptor of the child but for its links. *)
Definition forked_record (rp : process) (par pid base cr3 sp : Z) (regs : trapframe) : process :=
  mkProc pid sp cr3 0 PROCESS_READY base 0 0 0 0 0 0 0 0 0 (elf_entry rp) (user_stack_top rp) (brk_start rp) (brk rp) (mmap_next rp)
    (fd_table rp) (set_tf_rax 0 regs) par 0.
(** The result of a computation is what its rule says. *)
Lemma wp_result {S A} (c : M S A) (Q : A -> S -> Prop) s : wp c Q s -> wp c (fun a s' => c s = Some (a, s') /\ Q a s') s.
Proof. unfold wp. destruct (c s) as [[a s']|]; [|done]. by split. Qed.

Section fork.
Context {S H : Type} `{FO : FrameOps S, FA : !FrameAlloc S} `{HO : HeapOps H, HP : !Heap H} (hh : Z) (Hhh : hhdm_ok hh) (code : stubs).
Context (k : kernel S H) (par : Z) (rp : process) (regs : trapframe) (l : list Z) (ls : list (list Z)) (W : gmap Z (list Z * list Z)).
Implicit Types (Q : Z -> kernel S H -> Prop).

(** The kernel while the child [c] is being made. *)
Definition made (v : vm S) (h : H) (P : gmap Z pipe) (c : Z) (rc : process) (n : Z) : kernel S H :=
  set_k_vm v (set_k_heap h (set_k_pipes P (set_k_sched (set_next_pid n (set_procs (<[c := rc]> (procs (k_sched k))) (k_sched k))) k))).

Lemma wp_made_write v h P c rc n g (Q : unit -> kernel S H -> Prop) : Q tt (made v h P c (g rc) n) -> wp (pwrite g c) Q (made v h P c rc n).
Proof.
  intros HQ. eapply (wp_pwrite _ _ _ _ rc); [apply lookup_insert_eq|]. unfold made in *. cbn [k_sched set_k_vm set_k_heap set_k_pipes set_k_sched set_next_pid procs set_procs].
  rewrite alter_insert_eq. exact HQ.
Qed.
Lemma wp_made_read {A} (f : process -> A) v h P c rc n (Q : A -> kernel S H -> Prop) : procs (k_sched k) !! par = Some rp -> c <> par ->
  Q (f rp) (made v h P c rc n) -> wp (pread f par) Q (made v h P c rc n).
Proof. intros Hp Hc HQ. eapply wp_pread; [|exact HQ]. cbn. by rewrite lookup_insert_ne. Qed.
Lemma wp_made_pid v h P c rc n Q : Q n (made v h P c rc (u64 (n + 1))) -> wp take_pid Q (made v h P c rc n).
Proof. intros HQ. exact HQ. Qed.
Lemma wp_made_copy v h P c rc n (Q : unit -> kernel S H -> Prop) : counted (made v h P c rc n) -> procs (k_sched k) !! par = Some rp -> c <> par -> fd_table rc = replicate 32 fd_empty ->
  (forall P', counted (made v h P' c (set_fd_table (fd_table rp) rc) n) -> Q tt (made v h P' c (set_fd_table (fd_table rp) rc) n)) -> wp (copy_fds par c) Q (made v h P c rc n).
Proof.
  intros Hk Hp Hc Ht HQ. eapply (wp_copy_all (fun _ => false) _ par c rp rc); [done|cbn; by rewrite lookup_insert_ne|apply lookup_insert_eq|intros; rewrite Ht; apply empty_table|].
  intros P'. specialize (HQ P'). unfold made, with_table in *. cbn [k_sched set_k_vm set_k_heap set_k_pipes set_k_sched set_next_pid procs set_procs] in *.
  rewrite alter_insert_eq. exact HQ.
Qed.

Context (Hfiles : files_inv (named k) k W ls) (Hring : ring (k_sched k) l) (Hpar : procs (k_sched k) !! par = Some rp).
Context (Hlive : forall a r, procs (k_sched k) !! a = Some r -> a ∈ live (k_heap k)).

(** A process that is new in the tables, in no queue, without descriptors. *)
Lemma made_counted v h c rc n : procs (k_sched k) !! c = None -> heap_wf h -> live (k_heap k) ⊆ live h -> fd_table rc = replicate 32 fd_empty ->
  counted (made v h (k_pipes k) c rc n) /\ mlfq_wf (k_sched (made v h (k_pipes k) c rc n)) ls.
Proof.
  intros Hc Hh Hl Ht. set (k' := made _ _ _ _ _ _).
  assert (Hsome : forall a r, procs (k_sched k) !! a = Some r -> procs (k_sched k') !! a = Some r) by (intros a r Ha; cbn; rewrite lookup_insert_ne; [done|congruence]).
  assert (Hm : mlfq_wf (k_sched k') ls) by (apply (mlfq_wf_ext (k_sched k)); [done| |apply Hfiles]; intros q a r _ _ Ha; exists r; auto).
  split; [|done]. exists W, ls. apply (files_inv_ext (named k)).
  - intros rd p. unfold named, ends. cbn. rewrite fmap_insert, total_insert by (by rewrite lookup_fmap, Hc). by rewrite Ht, empty_table.
  - apply (files_inv_moved _ k _ ls); try done.
    + intros q r. cbn. intros [[-> <-]|[_ Hq]]%lookup_insert_Some; [by rewrite Ht|by apply (fi_tables _ _ _ _ Hfiles q)].
    + intros a r Ha. exists r. auto.
Qed.

Lemma queued_procs q a : q ∈ ls -> a ∈ q -> exists r, procs (k_sched k) !! a = Some r.
Proof.
  intros [j Hj]%list_elem_of_lookup Ha. destruct (fi_mlfq _ _ _ _ Hfiles) as (_ & _ & Hm). destruct (Hm j q Hj) as [_ Hmem].
  destruct (Hmem a Ha) as (r & Hr & _). eauto.
Qed.
Lemma wp_made_enlist v h P c rc n (Q : Z -> kernel S H -> Prop) : procs (k_sched k) !! c = None -> c <> 0 -> p_state rc <> PROCESS_DEAD ->
  mlfq_wf (k_sched (made v h P c rc n)) ls ->
  (forall s', enlisted l ls (k_sched (made v h P c rc n)) c rc s' -> Q c (set_k_sched s' (made v h P c rc n))) ->
  wp (in_sched (enqueue_process c) ;; pwrite (set_priority 0) c ;; pwrite (set_ticks_executed 0) c ;; in_sched (mlfq_enqueue c) ;; ret c) Q (made v h P c rc n).
Proof.
  intros Hc Hc0 Hst Hm HQ. set (k1 := made v h P c rc n) in *. assert (Hr1 : procs (k_sched k1) !! c = Some rc) by apply lookup_insert_eq.
  assert (Hcl : c ∉ l) by (intros Hin; destruct (ring_member _ _ _ Hring Hin) as (_ & r & Hr); congruence).
  assert (Hring1 : ring (k_sched k1) l) by (destruct (ring_insert (k_sched k) l c rc Hcl Hring); by split).
  assert (Hcq : forall q, q ∈ ls -> c ∉ q) by (intros q Hq Hin; destruct (queued_procs q c Hq Hin); congruence).
  pose proof (wp_enlist l ls (k_sched k1) c rc Hring1 Hm Hr1 Hc0 Hcl Hcq Hst) as Hw. clearbody k1.
  unfold enlist, wp, pwrite, bind, in_sched, ret in *. cbn [k_sched set_k_sched] in *.
  destruct (enqueue_process c (k_sched k1)) as [[? s2]|]; [|done]. cbn [k_sched set_k_sched] in *.
  destruct (pset (set_priority 0) c s2) as [[? s3]|]; [|done]. cbn [k_sched set_k_sched] in *.
  destruct (pset (set_ticks_executed 0) c s3) as [[? s4]|]; [|done]. cbn [k_sched set_k_sched] in *.
  destruct (mlfq_enqueue c s4) as [[? s5]|]; [|done]. cbn [k_sched set_k_sched] in *.
  by apply HQ.
Qed.

(** ** All of it *)

Context (T : tables) (kp : Z).
Let root := p2v hh (p_cr3 rp).
Context (Hspace : space hh (k_vm k) root T) (Hroom : room hh (k_vm k) root).
Context (Hkv : valid_frame kp) (Hkf : frames (vm_pa (k_vm k)) kp <> None) (Hkp : kernel_pml4 (k_vm k) = kp + hh).
Context (Hstub : word (fork_trampoline code)).

(** The reasons for which a fork fails: the heap has no block for the descriptor, or
    every physical page is in use, before or after the copy of the address space. *)
Definition no_memory : Prop :=
  (exists h, kmalloc PROCESS_SIZE (k_heap k) = Some (0, h)) \/ exhausted (k_vm k) \/
  exists c v1 T1, cloned hh (k_vm k) root T c 140737488355328 v1 T1 /\ exhausted v1.
(** A fork that fails leaves the tables and the blocks of the heap as they were, and
    the parent reads the memory it read before. *)
Definition fork_failed (k' : kernel S H) : Prop :=
  no_memory /\ exists v' h', k' = set_k_vm v' (set_k_heap h' k) /\ heap_wf h' /\ live h' = live (k_heap k) /\
    forall va, user_va va -> user_byte hh v' root va = user_byte hh (k_vm k) root va.

Lemma wp_clone_vm (Q : option (Z * Z) -> kernel S H -> Prop) : (forall v', exhausted (k_vm k) -> vm_mem v' = vm_mem (k_vm k) -> Q None (set_k_vm v' k)) ->
  (forall c v1 T1, cloned hh (k_vm k) root T c 140737488355328 v1 T1 -> Q (Some (c, 0)) (set_k_vm v1 k)) ->
  wp (clone_vm hh par 0) Q k.
Proof.
  intros H0 H1. unfold clone_vm. wp_step. eapply wp_pread; [exact Hpar|]. cbv beta. change (negb (Z.land 0 CLONE_VM =? 0)) with false. cbv iota.
  wp_step. apply wp_on_vm. fold root. eapply wp_mono; [by apply (wp_vmm_clone hh Hhh _ root T kp (us_ok _ _ _ _ Hspace))|].
  intros c v1 [(-> & Hex & Em)|[T1 Hc]]; wp_steps; [by apply H0|]. pose proof (cloned_root_ne hh Hhh _ _ _ _ _ _ _ Hc).
  destruct (Z.eqb_spec c 0); [done|]. by eapply H1.
Qed.

(** The copy is given back. *)
Lemma wp_drop_copy c v1 T1 x h' (k1 : kernel S H) (Q : unit -> kernel S H -> Prop) : cloned hh (k_vm k) root T c 140737488355328 v1 T1 ->
  fa_wf x -> (forall q, frames x q = frames (vm_pa v1) q) -> k1 = set_k_vm (mkVm (vm_mem v1) x (kernel_pml4 v1)) (set_k_heap h' k) ->
  heap_wf h' -> live h' = live (k_heap k) -> no_memory -> (forall k', fork_failed k' -> Q tt k') -> wp (on_vm (vmm_destroy_user_pagetable hh c)) Q k1.
Proof.
  intros Hc Hx Hfr -> Hh Hl Hno HQ. pose proof (us_ok _ _ _ _ Hspace) as Hok. pose proof (cloned_child_space hh _ _ _ _ _ _ Hok Hc) as Hok1.
  assert (Hok2 : space_ok hh (mkVm (vm_mem v1) x (kernel_pml4 v1)) c T1).
  { apply (space_ok_pa hh v1 x c T1 0); [done|done|by intros|intros p Hp|intros va e Hva He Hnp E].
    - destruct (as_frame _ _ _ _ (sp_wf _ _ _ _ Hok1) p 0 Hp) as [[_ ?] _]. lia.
    - destruct (sp_owned _ _ _ _ Hok1 va e Hva He Hnp) as (n & [_ Hv] & _). lia. }
  apply wp_on_vm. eapply wp_mono; [by apply (wp_vmm_destroy hh Hhh _ c T1)|]. intros [] v2 Hg. apply HQ. split; [done|]. exists v2, h'. split; [done|]. split; [done|]. split; [done|].
  intros va Hva. rewrite (user_byte_mem hh v1 v2) by apply Hg. by apply (cloned_user_bytes hh Hhh (fun _ => false) (k_vm k) root T c v1 T1).
Qed.

(** What there is when the fork succeeds. *)
Record fork_done (c : Z) (k' : kernel S H) : Prop := {
  fo_new : c <> 0 /\ procs (k_sched k) !! c = None /\ (c ∉ live (k_heap k)) /\ live (k_heap k') = {[c]} ∪ live (k_heap k);
  fo_child : exists rc q croot T', procs (k_sched k') !! c = Some rc /\
    unlinked_part rc = forked_record rp par (next_pid (k_sched k)) (q + hh) (v2p hh croot) (q + hh + 4032) regs /\
    p2v hh (v2p hh croot) = croot /\ twins hh (k_vm k) root T (k_vm k') croot T' /\ valid_frame q /\ frames (vm_pa (k_vm k')) q = Some 1 /\
    words_at (vm_mem (k_vm k')) (q + hh + 4032) (frame_words (mkCallee 0 0 0 0 0 0 0x202) (fork_trampoline code));
  fo_ring : ring (k_sched k') (l ++ [c]);
  fo_queues : mlfq_wf (k_sched k') (enq ls 0 c);
  fo_others : forall a, a <> c -> unlinked_part <$> procs (k_sched k') !! a = unlinked_part <$> procs (k_sched k) !! a;
  fo_pid : next_pid (k_sched k') = u64 (next_pid (k_sched k) + 1);
  fo_counted : counted k';
}.

(** The first frame of the child's kernel stack. *)
Lemma wp_prepare_child q v h P c rc n (Q : Z -> kernel S H -> Prop) : valid_frame q ->
  (forall m', (forall a, ~ in_page hh q a -> load8 m' a = load8 (vm_mem v) a) ->
    words_at m' (q + hh + 4032) (frame_words (mkCallee 0 0 0 0 0 0 0x202) (fork_trampoline code)) ->
    Q (q + hh + 4032) (made (set_mem m' v) h P c rc n)) ->
  wp (prepare_stack (q + hh) (fork_trampoline code)) Q (made v h P c rc n).
Proof.
  intros Hq HQ. unfold prepare_stack, setup_kernel_stack. apply wp_on_vm. unfold wp. cbn [k_vm made set_k_vm].
  destruct (push_all_spec [fork_trampoline code; 0x202; 0; 0; 0; 0; 0; 0] (vm_mem v) (q + hh + 4096) []) as (Hw & Hsp & Hm).
  - unfold word in *. repeat constructor; lia.
  - intros i w. by rewrite lookup_nil.
  - destruct (push_all _ _ _) as [m' sp]. cbn [fst snd length rev app] in *. change (8 * Z.of_nat 8) with 64 in *.
    assert (sp = q + hh + 4032) as -> by lia. apply HQ.
    + intros a Ha. apply Hm. unfold in_page in Ha. lia.
    + replace (q + hh + 4032) with (q + hh + 4096 - 64) by lia. exact Hw.
Qed.

Lemma p2v_frame q : valid_frame q -> p2v hh q = q + hh.
Proof. intros [_ Hq]. destruct Hhh as (? & _ & ?). unfold p2v. rewrite u64_small by lia. lia. Qed.
Lemma root_back v c T1 : as_wf hh v c T1 -> p2v hh (v2p hh c) = c.
Proof.
  intros Hwf. destruct (as_root _ _ _ _ Hwf) as (t & Ht & ->). destruct (as_frame _ _ _ _ Hwf _ _ Ht) as [[_ Hv] _]. destruct Hhh as (? & _ & ?).
  unfold p2v, v2p. rewrite (u64_small (t + hh - hh)) by lia. rewrite u64_small by lia. lia.
Qed.

(** From the finished descriptor to the ready queue. *)
Lemma admitted_done c cp v1 T1 q v0 v' h P rc0 rc n s' : cloned hh (k_vm k) root T cp 140737488355328 v1 T1 -> c <> 0 -> procs (k_sched k) !! c = None -> (c ∉ live (k_heap k)) ->
  heap_wf h -> live h = {[c]} ∪ live (k_heap k) -> valid_frame q -> frames (vm_pa v1) q = None -> fa_wf (vm_pa v') -> frames (vm_pa v') q = Some 1 ->
  (forall q', q' <> q -> frames (vm_pa v') q' = frames (vm_pa v1) q') -> (forall a, ~ in_page hh q a -> load8 (vm_mem v') a = load8 (vm_mem v1) a) ->
  words_at (vm_mem v') (q + hh + 4032) (frame_words (mkCallee 0 0 0 0 0 0 0x202) (fork_trampoline code)) ->
  p_state rc = PROCESS_READY -> priority rc = 0 -> unlinked_part (set_ticks_executed 0 (set_priority 0 (set_p_state PROCESS_READY rc))) = forked_record rp par (next_pid (k_sched k)) (q + hh) (v2p hh cp) (q + hh + 4032) regs ->
  let k1 := made v' h P c rc (u64 (next_pid (k_sched k) + 1)) in
  counted (made v0 h P c rc0 n) -> fd_table rc0 = fd_table rc -> wpart rc0 = wpart rc -> enlisted l ls (k_sched k1) c rc s' -> fork_done c (set_k_sched s' k1).
Proof.
  intros Hc Hc0 Hcn Hcl Hh El Hq Hf Hpa Hq1 Hfr Hm Hw Est Epr Er k1 Hcnt Et Ew [A1 A2 (rc' & Hrc' & Erc) A4 A5].
  assert (Hoth : forall a, unlinked_part <$> procs s' !! a = (if decide (a = c) then Some (unlinked_part rc') else unlinked_part <$> procs (k_sched k) !! a)).
  { intros a. destruct (decide (a = c)) as [->|]; [by rewrite Hrc'|]. rewrite A4 by done. cbn. by rewrite lookup_insert_ne. }
  split; [done| |done|done| |by rewrite A5|].
  - exists rc', q, cp, T1. split_and!; try done; [by rewrite Erc|by eapply root_back, Hc|by eapply cloned_twins].
  - intros a Ha. cbn [k_sched set_k_sched]. rewrite Hoth. by rewrite decide_False.
  - set (k0 := made v0 h P c rc0 n) in *. destruct Hcnt as (W' & ls' & Hi).
    assert (Htab : forall a, fd_table <$> procs s' !! a = fd_table <$> procs (k_sched k0) !! a).
    { intros a. destruct (decide (a = c)) as [->|Hne].
      - rewrite Hrc'. cbn. rewrite lookup_insert_eq. cbn. f_equal. change (fd_table (unlinked_part rc') = fd_table rc0). by rewrite Erc, Et.
      - specialize (A4 a Hne). destruct (procs s' !! a) as [r1|], (procs (k_sched k0) !! a) as [r2|] eqn:E2; cbn in A4, E2; rewrite lookup_insert_ne in A4, E2 by done; rewrite E2 in A4; try done. apply (inj Some) in A4. cbn. f_equal.
        change (fd_table (unlinked_part r1) = fd_table (unlinked_part r2)). by rewrite A4. }
    exists W', (enq ls 0 c). apply (files_inv_ext (named k0)); [intros rd p; symmetry; by apply ends_same|].
    eapply (files_inv_moved _ k0 _ ls'); [done|done|done|done|done| |].
    + intros a r Ha. specialize (Htab a). cbn in Ha. rewrite Ha in Htab. destruct (procs (k_sched k0) !! a) as [r1|] eqn:E1; [|done].
      injection Htab as ->. by apply (fi_tables _ _ _ _ Hi a).
    + intros a r Ha. destruct (decide (a = c)) as [->|Hne].
      * exists rc'. split; [done|]. assert (r = rc0) as -> by (apply (inj Some); rewrite <- Ha; apply lookup_insert_eq).
        change (wpart (unlinked_part rc') = wpart rc0). rewrite Ew, Erc. unfold wpart. by rewrite Est, Epr.
      * specialize (A4 a Hne). cbn in A4, Ha. rewrite lookup_insert_ne in A4, Ha by done. rewrite Ha in A4. destruct (procs s' !! a) as [r'|] eqn:E'; [|done]. exists r'. split; [done|]. apply (inj Some) in A4.
        change (wpart (unlinked_part r') = wpart (unlinked_part r)). by rewrite A4.
Qed.

(** What follows the two allocations. *)
Lemma wp_fill_child c cp v1 T1 q x h (Q : Z -> kernel S H -> Prop) : cloned hh (k_vm k) root T cp 140737488355328 v1 T1 -> c <> 0 -> procs (k_sched k) !! c = None -> (c ∉ live (k_heap k)) ->
  heap_wf h -> live h = {[c]} ∪ live (k_heap k) -> valid_frame q -> frames (vm_pa v1) q = None -> fa_wf x -> frames x q = Some 1 ->
  (forall q', q' <> q -> frames x q' = frames (vm_pa v1) q') -> (forall k', fork_done c k' -> Q c k') ->
  wp (pwrite (set_kernel_stack (p2v hh q)) c ;;
      pid <- take_pid ;;
      pwrite (set_p_pid pid) c ;;
      pwrite (set_p_state PROCESS_READY) c ;;
      entry <- pread elf_entry par ;;
      pwrite (set_elf_entry entry) c ;;
      top <- pread user_stack_top par ;;
      pwrite (set_user_stack_top top) c ;;
      b <- pread brk_start par ;;
      pwrite (set_brk_start b) c ;;
      b <- pread brk par ;;
      pwrite (set_brk b) c ;;
      b <- pread mmap_next par ;;
      pwrite (set_mmap_next b) c ;;
      pwrite (set_p_cr3 (v2p hh cp)) c ;;
      pwrite (set_vm_refcount 0) c ;;
      ret tt ;;
      pwrite (set_parent par) c ;;
      copy_fds par c ;;
      pwrite (set_fork_frame (set_tf_rax 0 regs)) c ;;
      sp <- prepare_stack (p2v hh q) (fork_trampoline code) ;;
      pwrite (set_p_rsp sp) c ;;
      in_sched (enqueue_process c) ;;
      pwrite (set_priority 0) c ;;
      pwrite (set_ticks_executed 0) c ;;
      in_sched (mlfq_enqueue c) ;;
      ret c) Q (made (mkVm (vm_mem v1) x (kernel_pml4 v1)) h (k_pipes k) c proc_zero (next_pid (k_sched k))).
Proof.
  intros Hc Hc0 Hcn Hcl Hh El Hq Hf Hx Hq1 Hfr HQ. rewrite (p2v_frame q Hq). assert (Hcp : c <> par) by congruence.
  wp_step. apply wp_made_write. wp_step. apply wp_made_pid.
  do 2 (wp_step; apply wp_made_write). do 5 (wp_step; apply wp_made_read; [done|done|]; wp_step; apply wp_made_write).
  do 2 (wp_step; apply wp_made_write). wp_step. apply wp_ret. wp_step. apply wp_made_write. wp_step.
  match goal with |- wp _ _ (made ?v ?h ?P c ?r ?n) => destruct (made_counted v h c r n Hcn Hh) as [Hk Hm]; [rewrite El; apply union_subseteq_r|done|] end.
  apply wp_made_copy; [done|done|done|done|]. clear Hk. intros P Hk. wp_step. apply wp_made_write. wp_step. apply wp_prepare_child; [done|]. intros m' Hm' Hw.
  wp_step. apply wp_made_write. apply wp_made_enlist; [done|done|done| |].
  - eapply mlfq_wf_ext; [| |exact Hm]; [done|]. intros q' a r Hin Ha Hr. destruct (decide (a = c)) as [->|Hne].
    + destruct (queued_procs q' c Hin Ha). congruence.
    + exists r. split; [|done]. cbn in Hr |- *. by rewrite lookup_insert_ne in Hr |- *.
  - intros s' Ha. apply HQ.
    match type of Hk with counted (made _ _ _ _ ?r _) => set (rc0 := r) in * end.
    set (rc := set_p_rsp (q + hh + 4032) (set_fork_frame (set_tf_rax 0 regs) rc0)) in *.
    assert (E1 : p_state rc = PROCESS_READY /\ priority rc = 0) by (vm_compute; by split).
    assert (E2 : unlinked_part (set_ticks_executed 0 (set_priority 0 (set_p_state PROCESS_READY rc))) = forked_record rp par (next_pid (k_sched k)) (q + hh) (v2p hh cp) (q + hh + 4032) regs)
      by (subst rc rc0; clear; generalize (q + hh + 4032); generalize (q + hh), (v2p hh cp), (next_pid (k_sched k)); intros; vm_compute; reflexivity).
    assert (E3 : fd_table rc0 = fd_table rc /\ wpart rc0 = wpart rc) by (subst rc rc0; clear; generalize (q + hh + 4032); generalize (q + hh), (v2p hh cp), (next_pid (k_sched k)); intros; vm_compute; by split).
    destruct E1 as [E1 E1'], E3 as [E3 E3']. clearbody rc. clearbody rc0.
    exact (admitted_done c cp v1 T1 q _ (set_mem m' (mkVm (vm_mem v1) x (kernel_pml4 v1))) h P _ rc _ s' Hc Hc0 Hcn Hcl Hh El Hq Hf Hx Hq1 Hfr Hm' Hw E1 E1' E2 Hk E3 E3' Ha).
Qed.

(** C4: fork gives the parent a child of its own or fails for want of memory. The
    child has a new descriptor and the next process number; it is the last of the ring
    and of the ready queue of the highest priority; it starts in [fork_trampoline] on a
    kernel stack of its own, with the registers of the parent but for a 0 in rax; it
    has the break, the mappings and the descriptors of the parent, every pipe counting
    them; both address spaces show the memory the parent had, with one more reference
    for every page; no other process changes. A fork that fails leaves no trace in the
    tables, the heap or the memory of the parent. *)
Theorem fork_process_correct : wp (fork_process hh code par regs) (fun c k' => (c = 0 /\ fork_failed k') \/ fork_done c k') k.
Proof.
  unfold fork_process, clone_process. wp_step. apply wp_clone_vm.
  - intros v' Hex Em. wp_steps. left. split; [done|]. split; [by right; left|]. exists v', (k_heap k). split_and!; [by destruct k|apply Hfiles|done|].
    intros va Hva. by apply user_byte_mem.
  - intros cp v1 T1 Hc. cbv beta iota zeta. change (0 =? 0) with true. cbv iota. wp_step. apply wp_in_heap.
    eapply wp_mono; [apply wp_result, (kmalloc_spec _ PROCESS_SIZE); [apply Hfiles|unfold PROCESS_SIZE; lia]|].
    intros c h [Ek (Hh & [(-> & El)|(Hc0 & Hcl & El)])].
    + cbv beta. change (0 =? 0) with true. cbv iota. wp_step. eapply (wp_drop_copy cp v1 T1 (vm_pa v1) h); [done| |done|by destruct v1|done|done|left; by exists h|].
      * apply (as_pa _ _ _ _ (cl_child_wf _ _ _ _ _ _ _ _ Hc)).
      * intros k' Hk. wp_steps. by left.
    + destruct (Z.eqb_spec c 0) as [|_]; [done|].
      assert (Hcn : procs (k_sched k) !! c = None) by (destruct (procs (k_sched k) !! c) eqn:E; [by destruct Hcl; eapply Hlive|done]).
      wp_step. unfold new_process. apply wp_in_sched. wp_steps. apply wp_on_vm, wp_pa.
      eapply wp_mono; [apply fa_alloc_spec, (as_pa _ _ _ _ (cl_child_wf _ _ _ _ _ _ _ _ Hc))|].
      intros q x (Hx & [(-> & Hex & Hfr)|(Hq & Hf & Hq1 & Hfr)]).
      * change (0 =? 0) with true. cbv iota. wp_step. unfold free_process. wp_step. apply wp_in_heap.
        eapply wp_mono; [apply (kfree_spec _ c); [done|cbn; rewrite El; apply elem_of_union_l, elem_of_singleton_2; done]|]. intros [] h2 (Hh2 & El2). apply wp_in_sched. wp_steps.
        eapply (wp_drop_copy cp v1 T1 x h2); [done|done|done| |done|rewrite El2; cbn; rewrite El; clear - Hcl; set_solver|right; right; by exists cp, v1, T1|].
        -- clear - Hcn. cbn. rewrite delete_insert_id by done. by destruct k as [? ? []].
        -- intros k' Hk. wp_steps. by left.
      * destruct (Z.eqb_spec q 0) as [->|_]; [destruct Hq; lia|].
        pose proof (wp_fill_child c cp v1 T1 q x h (fun c k' => c = 0 /\ fork_failed k' \/ fork_done c k') Hc Hc0 Hcn Hcl Hh El Hq Hf Hx Hq1 Hfr) as Hw.
        exact (Hw (fun k' Hk => or_intror Hk)).
Qed.
End fork.

(** ** An instance *)

Definition demo_fork : kernel pmm bump := set_k_heap (mkBump 4096 {[1; 2; 3]}) demo_files.
Definition demo_stubs : stubs := mkStubs 0x100 0x200 0x300 0x400.
Definition demo_parent : process := default proc_zero (procs (k_sched demo_fork) !! 2).
Definition demo_regs : trapframe := set_tf_rax 7 trap_zero.

Lemma demo_forked : fst (default (0, demo_fork) (fork_process demo_hh demo_stubs 2 demo_regs demo_fork)) = 4096.
Proof. vm_compute. reflexivity. Qed.
#[local] Opaque fork_vm demo_ring_sched.
Lemma demo_fork_inv : files_inv (named demo_fork) demo_fork ∅ (demo_lists true).
Proof.
  apply files_inv_heap; [exact demo_files_inv| |apply empty_subseteq].
  split; [done|]. intros p. cbn. rewrite !elem_of_union, !elem_of_singleton. lia.
Qed.
Lemma demo_fork_procs a r : procs (k_sched demo_fork) !! a = Some r -> a ∈ live (k_heap demo_fork).
Proof.
  cbn [demo_fork demo_files k_sched set_k_heap set_k_vm demo_kernel set_procs procs]. rewrite lookup_alter_Some. intros [(<- & _)|(_ & Hr)]; [cbn; set_solver|].
  Transparent demo_ring_sched. unfold demo_ring_sched in Hr. cbn [procs] in Hr.
  repeat (apply lookup_insert_Some in Hr as [[<- _]|[_ Hr]]; [cbn; set_solver|]). by apply lookup_empty_Some in Hr.
Qed.
#[local] Opaque demo_ring_sched.
Lemma demo_fork_ring : ring (k_sched demo_fork) [1; 2; 3].
Proof.
  destruct (so_ring _ _ _ (demo_ring_ok true)) as [R1 R2 R3 R4 R5]. split; try done. eapply edges_ext; [|exact R5]. intros a r _ Ha.
  destruct (decide (2 = a)) as [<-|Hne].
  - exists (set_p_cr3 (fork_root - demo_hh) r). split; [|done]. cbn [demo_fork demo_files k_sched set_k_heap set_k_vm demo_kernel set_procs procs].
    by rewrite lookup_alter_eq, Ha.
  - exists r. split; [|done]. cbn [demo_fork demo_files k_sched set_k_heap set_k_vm demo_kernel set_procs procs]. by rewrite lookup_alter_ne.
Qed.
#[local] Opaque fork_process.

Lemma fork_process_correct_witness :
  let r := default (0, demo_fork) (fork_process demo_hh demo_stubs 2 demo_regs demo_fork) in
  fst r = 4096 /\ exists rc, procs (k_sched (snd r)) !! 4096 = Some rc /\ fork_frame rc = trap_zero /\ parent rc = 2 /\
    user_byte demo_hh (k_vm (snd r)) (p2v demo_hh (p_cr3 rc)) 0x400000 = user_byte demo_hh fork_vm fork_root 0x400000.
Proof.
  intros r. split; [exact demo_forked|]. destruct fork_user_space as (T & Hsp & _ & Hroom).
  assert (Hroot : p2v demo_hh (p_cr3 demo_parent) = fork_root) by (vm_compute; reflexivity). rewrite <- Hroot in Hsp, Hroom.
  pose proof (wp_outcome _ _ _ (0, demo_fork) 4096 (fork_process_correct demo_hh demo_hh_ok demo_stubs demo_fork 2 demo_parent demo_regs [1; 2; 3] (demo_lists true) ∅
    demo_fork_inv demo_fork_ring ltac:(vm_compute; reflexivity) demo_fork_procs T 4096 Hsp Hroom demo_kernel_frame fork_kernel_used fork_kernel
    ltac:(vm_compute; split; [discriminate|reflexivity])) demo_forked) as [[? _]|Hd]; [discriminate|].
  destruct (fo_child _ _ _ _ _ _ _ _ _ _ _ Hd) as (rc & q & croot & T' & Hrc & Er & Ecr & Htw & _).
  exists rc. split; [exact Hrc|]. pose proof (f_equal fork_frame Er) as Ef. pose proof (f_equal parent Er) as Ep. pose proof (f_equal p_cr3 Er) as Ec. cbn in Ef, Ep, Ec.
  split; [exact Ef|]. split; [exact Ep|]. rewrite Ec, Ecr, <- Hroot. apply (tw_bytes _ _ _ _ _ _ _ Htw). split; lia.
Defined.
