(* ===== verification/Tables.v ===== *)
(** * Descriptor tables and model-specific registers (gdt.c, idt.c, utils.c, init_syscalls)

    The tables as the code fills them, and what the processor reads in them: a
    descriptor is a number whose bits the processor takes apart. *)

From S2P Require Import Prelude Mem FrameAlloc Vmm.

(** ** The tables *)

Record idt_entry_struct := mkGate {
  g_base_low : Z; g_set : Z; g_ist : Z; g_type_attributes : Z; g_base_middle : Z; g_base_high : Z; g_reserved : Z;
}.
Record gdt_entry_struct := mkDesc {
  d_limit_low : Z; d_base_low : Z; d_base_middle : Z; d_access : Z; d_flags : Z; d_base_high : Z;
}.
(** The fields of [struct tss_entry_struct] that are ever set; the others are 0. *)
Record tss_entry_struct := mkTss { t_rsp0 : Z; t_iomap_base : Z }.

Definition IDT_SIZE : Z := 256.
Definition GDT_SIZE : Z := 7.
Definition IRQ_COUNT : Z := 16.
(** sizeof of the packed structures. *)
Definition GATE_SIZE : Z := 16.
Definition DESC_SIZE : Z := 8.
Definition TSS_SIZE : Z := 104.

(** ** Segment registers

    [gdtr], [idtr]: the table registers, limit and base; [tr] is the task register. *)
Inductive sreg := CS | DS | ES | FS | GS | SS | TR.
#[global] Instance sreg_eq_dec : EqDecision sreg.
Proof. solve_decision. Defined.
Record segcpu := mkSegcpu { gdtr : Z * Z; idtr : Z * Z; sr : sreg -> Z }.

(** [idt_ptr], [gdt_ptr]: limit and base; [irq_handlers]: addresses, 0 for none;
    [msrs]: the model-specific registers. *)
Record tables := mkTables {
  idt_entries : list idt_entry_struct;
  idt_ptr : Z * Z;
  gdt_entries : list gdt_entry_struct;
  gdt_ptr : Z * Z;
  tss_entry : tss_entry_struct;
  irq_handlers : list Z;
  msrs : gmap Z Z;
  segs : segcpu;
}.
Definition set_idt_entries v s := mkTables v (idt_ptr s) (gdt_entries s) (gdt_ptr s) (tss_entry s) (irq_handlers s) (msrs s) (segs s).
Definition set_idt_ptr v s := mkTables (idt_entries s) v (gdt_entries s) (gdt_ptr s) (tss_entry s) (irq_handlers s) (msrs s) (segs s).
Definition set_gdt_entries v s := mkTables (idt_entries s) (idt_ptr s) v (gdt_ptr s) (tss_entry s) (irq_handlers s) (msrs s) (segs s).
Definition set_gdt_ptr v s := mkTables (idt_entries s) (idt_ptr s) (gdt_entries s) v (tss_entry s) (irq_handlers s) (msrs s) (segs s).
Definition set_tss_entry v s := mkTables (idt_entries s) (idt_ptr s) (gdt_entries s) (gdt_ptr s) v (irq_handlers s) (msrs s) (segs s).
Definition set_irq_handlers v s := mkTables (idt_entries s) (idt_ptr s) (gdt_entries s) (gdt_ptr s) (tss_entry s) v (msrs s) (segs s).
Definition set_msrs v s := mkTables (idt_entries s) (idt_ptr s) (gdt_entries s) (gdt_ptr s) (tss_entry s) (irq_handlers s) v (segs s).
Definition set_segs v s := mkTables (idt_entries s) (idt_ptr s) (gdt_entries s) (gdt_ptr s) (tss_entry s) (irq_handlers s) (msrs s) v.

(** ** What the processor reads *)

Definition bits (x lo n : Z) : Z := (x / 2 ^ lo) mod 2 ^ n.

(** The structures in memory, little-endian and packed. *)
Definition gate_image (g : idt_entry_struct) : Z :=
  g_base_low g + g_set g * 2 ^ 16 + g_ist g * 2 ^ 32 + g_type_attributes g * 2 ^ 40 + g_base_middle g * 2 ^ 48 +
  g_base_high g * 2 ^ 64 + g_reserved g * 2 ^ 96.
Definition desc_image (d : gdt_entry_struct) : Z :=
  d_limit_low d + d_base_low d * 2 ^ 16 + d_base_middle d * 2 ^ 32 + d_access d * 2 ^ 40 + d_flags d * 2 ^ 48 + d_base_high d * 2 ^ 56.

(** A gate: where it leads, through which code segment, on which stack, its type,
    the privilege it asks for and whether it is present. *)
Record gate := mkIgate { ig_offset : Z; ig_selector : Z; ig_ist : Z; ig_type : Z; ig_dpl : Z; ig_present : bool }.
Definition decode_gate (x : Z) : gate :=
  mkIgate (bits x 0 16 + bits x 48 16 * 2 ^ 16 + bits x 64 32 * 2 ^ 32) (bits x 16 16) (bits x 32 3) (bits x 40 4) (bits x 45 2) (bits x 47 1 =? 1).

(** The type of a 64-bit interrupt gate, which clears the interrupt flag. *)
Definition INTERRUPT_GATE : Z := 14.

(** A segment: base, limit in bytes, type, whether it is an ordinary segment, its
    privilege, whether it is present and whether it is 64-bit code. *)
Record segment := mkSeg { sg_base : Z; sg_limit : Z; sg_type : Z; sg_user : bool; sg_dpl : Z; sg_present : bool; sg_long : bool }.
Definition decode_segment (x : Z) : segment :=
  let limit := bits x 0 16 + bits x 48 4 * 2 ^ 16 in
  mkSeg (bits x 16 16 + bits x 32 8 * 2 ^ 16 + bits x 56 8 * 2 ^ 24)
    (if bits x 55 1 =? 1 then limit * 2 ^ 12 + 0xFFF else limit)
    (bits x 40 4) (bits x 44 1 =? 1) (bits x 45 2) (bits x 47 1 =? 1) (bits x 53 1 =? 1).
(** A system segment takes two entries, the second with the upper half of its base. *)
Definition decode_system (x y : Z) : segment :=
  let d := decode_segment x in
  mkSeg (sg_base d + bits y 0 32 * 2 ^ 32) (sg_limit d) (sg_type d) (sg_user d) (sg_dpl d) (sg_present d) (sg_long d).

Definition seg_at (s : tables) (sel : Z) : option segment :=
  match arr_get (gdt_entries s) (sel / 8) with Some d => Some (decode_segment (desc_image d)) | None => None end.
Definition tss_at (s : tables) (sel : Z) : option segment :=
  match arr_get (gdt_entries s) (sel / 8), arr_get (gdt_entries s) (sel / 8 + 1) with
  | Some d, Some d' => Some (decode_system (desc_image d) (desc_image d'))
  | _, _ => None
  end.

(** Loading a selector: the processor reads the descriptor, which must lie within the
    limit of the table, be present and be of the right kind; anything else is a fault,
    here [None]. *)
Definition load_sreg (r : sreg) (sel : Z) (ok : segment -> bool) : M tables unit :=
  o <- gets (fun s => if sel + 7 <=? fst (gdtr (segs s)) then seg_at s sel else None) ;;
  d <- lift o ;;
  lift (if sg_present d && ok d then Some tt else None) ;;
  modify (fun s => set_segs (mkSegcpu (gdtr (segs s)) (idtr (segs s)) (fun r' => if decide (r' = r) then sel else sr (segs s) r')) s).
Definition is_code64 (d : segment) : bool := sg_user d && Z.testbit (sg_type d) 3 && sg_long d && (sg_dpl d =? 0).
Definition is_data (d : segment) : bool := sg_user d && negb (Z.testbit (sg_type d) 3) && Z.testbit (sg_type d) 1 && (sg_dpl d =? 0).
Definition is_free_tss (d : segment) : bool := negb (sg_user d) && (sg_type d =? 9).

(** ** The code *)

Definition set_idt_gate (num handler set ist type_attributes : Z) : M tables unit :=
  l <- gets idt_entries ;;
  l' <- lift (arr_set l num (mkGate (Z.land handler 0xFFFF) set (Z.land ist 0x07) type_attributes
    (Z.land (Z.shiftr handler 16) 0xFFFF) (Z.land (Z.shiftr handler 32) 0xFFFFFFFF) 0)) ;;
  modify (set_idt_entries l').

Definition gate_zero : idt_entry_struct := mkGate 0 0 0 0 0 0 0.

(** [addr]: the address of [idt_entries]; [isr i]: the address of the stub [isr<i>]. *)
Definition init_idt (addr : Z) (isr : Z -> Z) : M tables unit :=
  modify (set_idt_ptr (u16 (GATE_SIZE * IDT_SIZE - 1), addr)) ;;
  modify (set_idt_entries (replicate (Z.to_nat IDT_SIZE) gate_zero)) ;;
  for_range 0 48 (fun i => set_idt_gate i (isr i) 0x08 0 0x8E) ;;
  modify (fun s => set_segs (mkSegcpu (gdtr (segs s)) (idt_ptr s) (sr (segs s))) s).

Definition irq_install_handler (irq handler : Z) : M tables unit :=
  l <- gets irq_handlers ;; l' <- lift (arr_set l irq handler) ;; modify (set_irq_handlers l').
Definition irq_uninstall_handler (irq : Z) : M tables unit :=
  l <- gets irq_handlers ;; l' <- lift (arr_set l irq 0) ;; modify (set_irq_handlers l').

Definition set_gdt_gate (num base limit access gran : Z) : M tables unit :=
  l <- gets gdt_entries ;;
  l' <- lift (arr_set l num (mkDesc (Z.land limit 0xFFFF) (Z.land base 0xFFFF) (Z.land (Z.shiftr base 16) 0xFF) access
    (Z.lor (Z.land (Z.shiftr limit 16) 0x0F) (Z.land gran 0xF0)) (Z.land (Z.shiftr base 24) 0xFF))) ;;
  modify (set_gdt_entries l').

(** [lgdt], the far return that loads the code segment, and the data segments. *)
Definition gdt_flush : M tables unit :=
  modify (fun s => set_segs (mkSegcpu (gdt_ptr s) (idtr (segs s)) (sr (segs s))) s) ;;
  load_sreg CS 0x08 is_code64 ;;
  load_sreg DS 0x10 is_data ;; load_sreg ES 0x10 is_data ;; load_sreg FS 0x10 is_data ;; load_sreg GS 0x10 is_data ;;
  load_sreg SS 0x10 is_data.
(** [ltr] also marks the descriptor as busy. *)
Definition tss_flush : M tables unit :=
  load_sreg TR 0x28 is_free_tss ;;
  l <- gets gdt_entries ;;
  d <- lift (arr_get l 5) ;;
  l' <- lift (arr_set l 5 (mkDesc (d_limit_low d) (d_base_low d) (d_base_middle d) (Z.lor (d_access d) 2) (d_flags d) (d_base_high d))) ;;
  modify (set_gdt_entries l').

(** [tss]: the address of [tss_entry]. *)
Definition write_tss (tss num rsp0 : Z) : M tables unit :=
  set_gdt_gate num (Z.land tss 0xFFFFFFFF) (TSS_SIZE - 1) 0x89 0x00 ;;
  l <- gets gdt_entries ;;
  l' <- lift (arr_set l (num + 1) (mkDesc (Z.land (Z.shiftr tss 32) 0xFFFF) (Z.land (Z.shiftr tss 48) 0xFFFF) 0 0 0 0)) ;;
  modify (set_gdt_entries l') ;;
  modify (set_tss_entry (mkTss rsp0 TSS_SIZE)).
Definition tss_set_kernel_stack (rsp0 : Z) : M tables unit :=
  modify (fun s => set_tss_entry (mkTss rsp0 (t_iomap_base (tss_entry s))) s).

Definition init_gdt (addr tss : Z) : M tables unit :=
  modify (set_gdt_ptr (u16 (DESC_SIZE * GDT_SIZE - 1), addr)) ;;
  set_gdt_gate 0 0 0 0x00 0x00 ;;
  set_gdt_gate 1 0 0xFFFFFFFF 0x9A 0xAF ;;
  set_gdt_gate 2 0 0xFFFFFFFF 0x92 0xCF ;;
  set_gdt_gate 3 0 0xFFFFFFFF 0xF2 0xCF ;;
  set_gdt_gate 4 0 0xFFFFFFFF 0xFA 0xAF ;;
  write_tss tss 5 0x0 ;;
  gdt_flush ;;
  tss_flush.

(** The instructions [wrmsr] and [rdmsr] take and give two halves. *)
Definition wrmsr (msr val : Z) : M tables unit :=
  let low := u32 val in
  let high := u32 (Z.shiftr val 32) in
  modify (fun s => set_msrs (<[msr := high * 2 ^ 32 + low]> (msrs s)) s).
Definition rdmsr (msr : Z) : M tables Z :=
  v <- gets (fun s => default 0 (msrs s !! msr)) ;;
  let low := v mod 2 ^ 32 in
  let high := (v / 2 ^ 32) mod 2 ^ 32 in
  ret (Z.lor (Z.shiftl high 32) low).

Definition MSR_EFER : Z := 0xC0000080.
Definition MSR_STAR : Z := 0xC0000081.
Definition MSR_LSTAR : Z := 0xC0000082.
Definition MSR_FMASK : Z := 0xC0000084.

Definition init_syscalls (syscall_entry : Z) : M tables unit :=
  efer <- rdmsr MSR_EFER ;;
  wrmsr MSR_EFER (Z.lor efer 1) ;;
  wrmsr MSR_STAR (Z.lor (Z.shiftl 0x08 32) (Z.shiftl 0x10 48)) ;;
  wrmsr MSR_LSTAR syscall_entry ;;
  wrmsr MSR_FMASK 0x47700.

(** The memory types of the pages: [vmm_init_pat], and [init_vmm], which also takes the
    table CR3 points at as the kernel's. *)
Definition MSR_PAT : Z := 0x277.
Definition vmm_init_pat : M tables unit := wrmsr MSR_PAT 0x0007040600070106.
Definition init_vmm {S} (hhdm_offset cr3 : Z) : M (vm S * tables) unit := fun '(v, t) =>
  match vmm_init_pat t with
  | Some (_, t') => Some (tt, (mkVm (vm_mem v) (vm_pa v) (p2v hhdm_offset (pte_addr cr3)), t'))
  | None => None
  end.

(** ** Fields *)

Lemma bits_field x lo n l v h : 0 <= lo -> 0 <= n -> x = l + v * 2 ^ lo + h * 2 ^ (lo + n) -> 0 <= l < 2 ^ lo -> 0 <= v < 2 ^ n -> bits x lo n = v.
Proof.
  intros H1 H2 -> Hl Hv. unfold bits. rewrite Z.pow_add_r by lia.
  replace (l + v * 2 ^ lo + h * (2 ^ lo * 2 ^ n)) with (l + (v + h * 2 ^ n) * 2 ^ lo) by ring.
  rewrite Z.div_add by lia. rewrite (Z.div_small l) by lia. rewrite Z.add_0_l, Z.add_comm, Z.mul_comm, Z.add_comm, (Z.mul_comm _ h), Z_mod_plus_full. by apply Z.mod_small.
Qed.
Lemma land_bits v n m : 0 <= n -> m = Z.ones n -> Z.land v m = v mod 2 ^ n.
Proof. intros Hn ->. by apply Z.land_ones. Qed.

Lemma decode_encode_gate handler set ist ty : 0 <= handler < 2 ^ 64 -> 0 <= set < 65536 -> 0 <= ist < 8 -> 0 <= ty < 256 ->
  decode_gate (gate_image (mkGate (Z.land handler 0xFFFF) set (Z.land ist 0x07) ty
    (Z.land (Z.shiftr handler 16) 0xFFFF) (Z.land (Z.shiftr handler 32) 0xFFFFFFFF) 0)) =
  mkIgate handler set ist (ty mod 16) ((ty / 32) mod 4) (ty / 128 =? 1).
Proof.
  intros Hh Hs Hi Ht. rewrite !Z.shiftr_div_pow2 by lia.
  rewrite (land_bits handler 16), (land_bits ist 3), (land_bits (handler / 2 ^ 16) 16), (land_bits (handler / 2 ^ 32) 32) by (lia || reflexivity).
  set (a := handler mod 2 ^ 16). set (b := (handler / 2 ^ 16) mod 2 ^ 16). set (c := (handler / 2 ^ 32) mod 2 ^ 32).
  assert (Hd : handler = a + b * 2 ^ 16 + c * 2 ^ 32 /\ 0 <= a < 65536 /\ 0 <= b < 65536 /\ 0 <= c < 4294967296) by (unfold a, b, c; lia).
  clearbody a b c. destruct Hd as (Hd & Ha & Hb & Hc). rewrite (Z.mod_small ist) by lia.
  set (x := gate_image _). assert (Ex : x = a + set * 2 ^ 16 + ist * 2 ^ 32 + ty * 2 ^ 40 + b * 2 ^ 48 + c * 2 ^ 64) by (unfold x, gate_image; cbn [g_base_low g_set g_ist g_type_attributes g_base_middle g_base_high g_reserved]; lia).
  clearbody x. unfold decode_gate.
  rewrite (bits_field x 0 16 0 a (set + ist * 2 ^ 16 + ty * 2 ^ 24 + b * 2 ^ 32 + c * 2 ^ 48)) by lia.
  rewrite (bits_field x 48 16 (a + set * 2 ^ 16 + ist * 2 ^ 32 + ty * 2 ^ 40) b c) by lia.
  rewrite (bits_field x 64 32 (a + set * 2 ^ 16 + ist * 2 ^ 32 + ty * 2 ^ 40 + b * 2 ^ 48) c 0) by lia.
  rewrite (bits_field x 16 16 a set (ist + ty * 2 ^ 8 + b * 2 ^ 16 + c * 2 ^ 32)) by lia.
  rewrite (bits_field x 32 3 (a + set * 2 ^ 16) ist (ty * 2 ^ 5 + b * 2 ^ 13 + c * 2 ^ 29)) by lia.
  rewrite (bits_field x 40 4 (a + set * 2 ^ 16 + ist * 2 ^ 32) (ty mod 16) (ty / 16 + b * 2 ^ 4 + c * 2 ^ 20)) by lia.
  rewrite (bits_field x 45 2 (a + set * 2 ^ 16 + ist * 2 ^ 32 + (ty mod 32) * 2 ^ 40) ((ty / 32) mod 4) (ty / 128 + b * 2 + c * 2 ^ 17)) by lia.
  rewrite (bits_field x 47 1 (a + set * 2 ^ 16 + ist * 2 ^ 32 + (ty mod 128) * 2 ^ 40) (ty / 128) (b + c * 2 ^ 16)) by lia.
  f_equal. lia.
Qed.

(** ** The interrupt table *)

Definition gates_below (isr : Z -> Z) (n : Z) (l : list idt_entry_struct) : Prop :=
  length l = 256%nat /\ forall i, 0 <= i < 256 -> exists g, arr_get l i = Some g /\
    decode_gate (gate_image g) = if i <? n then mkIgate (isr i) 0x08 0 0xE 0 true else mkIgate 0 0 0 0 0 false.

Lemma wp_init_idt s addr isr : (forall i, 0 <= i < 48 -> 0 <= isr i < 18446744073709551616) ->
  wp (init_idt addr isr) (fun _ s' => gates_below isr 48 (idt_entries s') /\ idtr (segs s') = (256 * 16 - 1, addr) /\
    gdt_entries s' = gdt_entries s /\ tss_entry s' = tss_entry s /\ irq_handlers s' = irq_handlers s /\ msrs s' = msrs s /\ gdtr (segs s') = gdtr (segs s) /\ sr (segs s') = sr (segs s)) s.
Proof.
  intros Hisr. unfold init_idt. wp_steps. set (I := fun (i : Z) s' => gates_below isr i (idt_entries s') /\ idt_ptr s' = (256 * 16 - 1, addr) /\
    gdt_entries s' = gdt_entries s /\ tss_entry s' = tss_entry s /\ irq_handlers s' = irq_handlers s /\ msrs s' = msrs s /\ gdtr (segs s') = gdtr (segs s) /\ sr (segs s') = sr (segs s)).
  eapply (wp_mono _ (fun _ => I 48)); [|intros ? s' (Hg & Hp & H1 & H2 & H3 & H4 & H5 & H6); wp_steps; by split_and!].
  apply (wp_for_range I 0 48).
  - split_and!; try done. split; [done|]. intros i Hi. exists gate_zero. split.
    + unfold arr_get. case_bools. apply lookup_replicate_2. change (Z.to_nat IDT_SIZE) with 256%nat. lia.
    + case_bools. done.
  - intros i s' Hi ([Hlen Hg] & Hp & H1 & H2 & H3 & H4 & H5 & H6). unfold set_idt_gate. wp_steps.
    eapply wp_lift; [apply arr_set_Some; rewrite Hlen; lia|]. wp_steps. split_and!; try done. cbn [idt_entries set_idt_entries]. split; [by rewrite length_insert|].
    intros j Hj. destruct (decide (i = j)) as [<-|Hne].
    + eexists. split; [unfold arr_get; case_bools; apply list_lookup_insert_eq; lia|]. rewrite decode_encode_gate by (try lia; by apply Hisr; lia).
      case_bools. done.
    + destruct (Hg j Hj) as (g & Hgj & Hd). exists g. split.
      * unfold arr_get in *. destruct (0 <=? j); [|done]. rewrite list_lookup_insert_ne by lia. done.
      * rewrite Hd. destruct (Z.ltb_spec j i), (Z.ltb_spec j (i + 1)); [done|lia|lia|done].
Qed.

(** ** The segment table *)

(** The segments the kernel needs: flat, present, and for code 64-bit. *)
Definition kernel_code : segment := mkSeg 0 0xFFFFFFFF 0xA true 0 true true.
Definition kernel_data : segment := mkSeg 0 0xFFFFFFFF 0x2 true 0 true false.
Definition user_code : segment := mkSeg 0 0xFFFFFFFF 0xA true 3 true true.
Definition user_data : segment := mkSeg 0 0xFFFFFFFF 0x2 true 3 true false.
(** A 64-bit task state segment: type 9 when it is free, 11 when it is in use. *)
Definition task_state (ty tss : Z) : segment := mkSeg tss 103 ty false 0 true false.

(** The two entries [write_tss] makes, with the access byte [ac]. *)
Definition tss_low (ac tss : Z) : gdt_entry_struct :=
  let base := Z.land tss 0xFFFFFFFF in
  mkDesc (Z.land (TSS_SIZE - 1) 0xFFFF) (Z.land base 0xFFFF) (Z.land (Z.shiftr base 16) 0xFF) ac
    (Z.lor (Z.land (Z.shiftr (TSS_SIZE - 1) 16) 0x0F) (Z.land 0x00 0xF0)) (Z.land (Z.shiftr base 24) 0xFF).
Definition tss_high (tss : Z) : gdt_entry_struct :=
  mkDesc (Z.land (Z.shiftr tss 32) 0xFFFF) (Z.land (Z.shiftr tss 48) 0xFFFF) 0 0 0 0.

Lemma decode_tss ty tss : 0 <= tss < 18446744073709551616 -> 0 <= ty < 16 ->
  decode_system (desc_image (tss_low (128 + ty) tss)) (desc_image (tss_high tss)) = task_state ty tss.
Proof.
  intros Ht Hy. unfold tss_low, tss_high. cbv zeta. change (Z.land (TSS_SIZE - 1) 0xFFFF) with 103. change (Z.lor (Z.land (Z.shiftr (TSS_SIZE - 1) 16) 0x0F) (Z.land 0x00 0xF0)) with 0.
  rewrite !Z.shiftr_div_pow2 by lia. rewrite (land_bits tss 32) by (lia || reflexivity). set (lo := tss mod 2 ^ 32).
  rewrite (land_bits lo 16), (land_bits (lo / 2 ^ 16) 8), (land_bits (lo / 2 ^ 24) 8), (land_bits (tss / 2 ^ 32) 16), (land_bits (tss / 2 ^ 48) 16) by (lia || reflexivity).
  set (a := lo mod 2 ^ 16). set (b := (lo / 2 ^ 16) mod 2 ^ 8). set (c := (lo / 2 ^ 24) mod 2 ^ 8). set (d := (tss / 2 ^ 32) mod 2 ^ 16). set (e := (tss / 2 ^ 48) mod 2 ^ 16).
  assert (Hr : tss = a + b * 2 ^ 16 + c * 2 ^ 24 + d * 2 ^ 32 + e * 2 ^ 48 /\ 0 <= a < 65536 /\ 0 <= b < 256 /\ 0 <= c < 256 /\ 0 <= d < 65536 /\ 0 <= e < 65536).
  { unfold a, b, c, d, e, lo. lia. }
  clearbody a b c d e. clear lo. destruct Hr as (Hr & Ha & Hb & Hc & Hd & He).
  unfold desc_image. cbn [d_limit_low d_base_low d_base_middle d_access d_flags d_base_high].
  set (x := 103 + _ + _ + _ + _ + _). assert (Ex : x = 103 + a * 2 ^ 16 + b * 2 ^ 32 + (128 + ty) * 2 ^ 40 + c * 2 ^ 56) by (unfold x; lia). clearbody x.
  set (y := d + _ + _ + _ + _ + _). assert (Ey : y = d + e * 2 ^ 16) by (unfold y; lia). clearbody y.
  unfold decode_system, decode_segment. cbn [sg_base sg_limit sg_type sg_user sg_dpl sg_present sg_long].
  set (below := 103 + a * 2 ^ 16 + b * 2 ^ 32) in *.
  rewrite (bits_field x 0 16 0 103 (a + b * 2 ^ 16 + (128 + ty) * 2 ^ 24 + c * 2 ^ 40)), (bits_field x 48 4 (below + (128 + ty) * 2 ^ 40) 0 (c * 2 ^ 4)) by lia.
  rewrite (bits_field x 16 16 103 a (b + (128 + ty) * 2 ^ 8 + c * 2 ^ 24)), (bits_field x 32 8 (103 + a * 2 ^ 16) b (128 + ty + c * 2 ^ 16)) by lia.
  rewrite (bits_field x 56 8 (below + (128 + ty) * 2 ^ 40) c 0), (bits_field x 55 1 (below + (128 + ty) * 2 ^ 40) 0 c) by lia.
  rewrite (bits_field x 40 4 below ty (8 + c * 2 ^ 12)), (bits_field x 44 1 (below + ty * 2 ^ 40) 0 (4 + c * 2 ^ 11)) by lia.
  rewrite (bits_field x 45 2 (below + ty * 2 ^ 40) 0 (1 + c * 2 ^ 9)), (bits_field x 47 1 (below + ty * 2 ^ 40) 1 (c * 2 ^ 8)) by lia.
  rewrite (bits_field x 53 1 (below + (128 + ty) * 2 ^ 40) 0 (c * 2 ^ 2)) by lia.
  rewrite (bits_field y 0 32 0 (d + e * 2 ^ 16) 0) by lia. cbn [Z.eqb Pos.eqb]. unfold task_state. f_equal. lia.
Qed.

Lemma wp_load_sreg r sel ok d s Q : sel + 7 <= fst (gdtr (segs s)) -> seg_at s sel = Some d -> sg_present d && ok d = true ->
  Q tt (set_segs (mkSegcpu (gdtr (segs s)) (idtr (segs s)) (fun r' => if decide (r' = r) then sel else sr (segs s) r')) s) -> wp (load_sreg r sel ok) Q s.
Proof.
  intros Hl Hd Hok HQ. unfold load_sreg. wp_steps. case_bools. eapply wp_lift; [exact Hd|]. wp_step. rewrite Hok. eapply wp_lift; [reflexivity|]. wp_steps. exact HQ.
Qed.

(** The table that [init_gdt] leaves. *)
Definition gdt_built (s : tables) (addr tss : Z) : Prop :=
  seg_at s 0x08 = Some kernel_code /\ seg_at s 0x10 = Some kernel_data /\ seg_at s 0x18 = Some user_data /\ seg_at s 0x20 = Some user_code /\
  tss_at s 0x28 = Some (task_state 11 tss) /\ (exists d, arr_get (gdt_entries s) 0 = Some d /\ desc_image d = 0) /\ tss_entry s = mkTss 0 104.
(** The registers: the kernel's code and data segments, and the task. *)
Definition segments_loaded (s : tables) (addr : Z) : Prop :=
  gdtr (segs s) = (7 * 8 - 1, addr) /\ sr (segs s) CS = 0x08 /\ sr (segs s) TR = 0x28 /\ Forall (fun r => sr (segs s) r = 0x10) [DS; ES; FS; GS; SS].

Lemma wp_gdt_flush s addr : gdt_ptr s = (55, addr) -> seg_at s 0x08 = Some kernel_code -> seg_at s 0x10 = Some kernel_data ->
  wp gdt_flush (fun _ s' => exists c, s' = set_segs c s /\ gdtr c = (55, addr) /\ idtr c = idtr (segs s) /\ sr c CS = 0x08 /\ Forall (fun r => sr c r = 0x10) [DS; ES; FS; GS; SS]) s.
Proof.
  intros Hp Hc Hd. unfold gdt_flush. wp_steps. rewrite Hp.
  eapply wp_load_sreg; [done|exact Hc|done|]. wp_steps.
  do 5 (eapply wp_load_sreg; [done|exact Hd|done|]; wp_steps).
  eexists. split; [done|]. split_and!; try done. by repeat constructor.
Qed.

(** The segment table after [write_tss]. *)
Definition gdt_table (ac tss : Z) : list gdt_entry_struct :=
  [mkDesc 0 0 0 0 0 0; mkDesc 0xFFFF 0 0 0x9A 0xAF 0; mkDesc 0xFFFF 0 0 0x92 0xCF 0; mkDesc 0xFFFF 0 0 0xF2 0xCF 0; mkDesc 0xFFFF 0 0 0xFA 0xAF 0;
   tss_low ac tss; tss_high tss].

Lemma wp_tss_flush s tss : fst (gdtr (segs s)) = 55 -> gdt_entries s = gdt_table 0x89 tss -> 0 <= tss < 18446744073709551616 ->
  wp tss_flush (fun _ s' => exists c, s' = set_gdt_entries (gdt_table 0x8B tss) (set_segs c s) /\ gdtr c = gdtr (segs s) /\ idtr c = idtr (segs s) /\
    sr c TR = 0x28 /\ forall r, r <> TR -> sr c r = sr (segs s) r) s.
Proof.
  intros Hl Hg Ht. unfold tss_flush. wp_step. pose proof (decode_tss 9 tss Ht ltac:(lia)) as Hd. change (128 + 9) with 0x89 in Hd.
  pose proof (f_equal sg_type Hd) as H1. pose proof (f_equal sg_user Hd) as H2. pose proof (f_equal sg_present Hd) as H3. clear Hd.
  cbn [decode_system sg_type sg_user sg_present task_state] in H1, H2, H3.
  eapply wp_load_sreg; [by rewrite Hl|unfold seg_at; rewrite Hg; reflexivity|unfold is_free_tss; by rewrite H1, H2, H3|].
  clear H1 H2 H3. do 2 wp_step. cbn [gdt_entries set_segs]. rewrite Hg.
  eexists. split; [refine (f_equal (fun l => set_gdt_entries l (set_segs _ s)) _); reflexivity|]. cbn [gdtr idtr sr]. split_and!; try done. intros r Hr. by rewrite decide_False.
Qed.

Lemma wp_gdt_writes s addr tss Q : length (gdt_entries s) = 7%nat ->
  wp (gdt_flush ;; tss_flush) Q (set_tss_entry (mkTss 0 104) (set_gdt_entries (gdt_table 0x89 tss) (set_gdt_ptr (55, addr) s))) ->
  wp (init_gdt addr tss) Q s.
Proof.
  intros Hlen HQ. destruct (gdt_entries s) as [|e0 [|e1 [|e2 [|e3 [|e4 [|e5 [|e6 [|]]]]]]]] eqn:E; try discriminate Hlen.
  unfold init_gdt, write_tss, set_gdt_gate. repeat wp_step. cbn [gdt_entries set_gdt_ptr].
  do 7 (repeat (wp_step; cbn [gdt_entries set_gdt_ptr set_gdt_entries]); rewrite ?E; eapply wp_lift; [reflexivity|]).
  do 3 (wp_step; cbn [gdt_entries set_gdt_ptr set_gdt_entries]). exact HQ.
Qed.

Lemma wp_init_gdt s addr tss : length (gdt_entries s) = 7%nat -> 0 <= tss < 18446744073709551616 ->
  wp (init_gdt addr tss) (fun _ s' => gdt_built s' addr tss /\ segments_loaded s' addr /\ idt_entries s' = idt_entries s /\ msrs s' = msrs s) s.
Proof.
  intros Hlen Ht. apply wp_gdt_writes; [done|]. wp_step. eapply wp_mono; [apply (wp_gdt_flush _ addr); reflexivity|].
  intros ? s' (c & -> & Hg & Hi & Hcs & Hds). cbv beta. eapply wp_mono; [apply (wp_tss_flush _ tss); [cbn; by rewrite Hg|reflexivity|done]|].
  intros ? s'' (c' & -> & Hg' & Hi' & Htr & Hsr). cbv beta. cbn [segs set_segs] in Hg', Hi', Hsr. split; [|split; [|done]].
  - pose proof (decode_tss 11 tss Ht ltac:(lia)) as Hd. split_and!; try reflexivity; [|eexists; split; reflexivity].
    unfold tss_at. cbn [gdt_entries set_gdt_entries]. change (0x28 / 8) with 5. cbn. f_equal. exact Hd.
  - unfold segments_loaded. cbn [segs set_gdt_entries set_segs]. rewrite Hg', Hg, Hsr, Hcs by done. split_and!; try done.
    rewrite Forall_forall in Hds |- *. intros r Hr. rewrite Hsr; [by apply Hds|]. intros ->. apply (bool_decide_pack _) in Hr. exact Hr.
Qed.

(** ** Model-specific registers *)

Lemma wp_wrmsr msr val Q s : 0 <= val < 18446744073709551616 -> Q tt (set_msrs (<[msr := val]> (msrs s)) s) -> wp (wrmsr msr val) Q s.
Proof.
  intros Hv HQ. unfold wrmsr. wp_steps. rewrite Z.shiftr_div_pow2 by lia.
  assert (E : u32 (val / 2 ^ 32) * 2 ^ 32 + u32 val = val) by (unfold u32; lia). rewrite E. exact HQ.
Qed.
(** Memory type of slot [i] in a value of the register. *)
Definition pat_slot (pat i : Z) : Z := bits pat (8 * i) 3.
(** [init_vmm] makes slot 1 write-combining (1), where it is write-through at power-on, and
    keeps the types of the other slots. *)
Lemma init_vmm_correct {S} (v : vm S) (t : tables) hhdm_offset cr3 :
  wp (init_vmm hhdm_offset cr3) (fun _ '(v', t') => kernel_pml4 v' = p2v hhdm_offset (pte_addr cr3) /\
    vm_mem v' = vm_mem v /\ vm_pa v' = vm_pa v /\
    exists pat, msrs t' !! MSR_PAT = Some pat /\ pat_slot pat 1 = 1 /\
      forall i, 0 <= i < 8 -> i <> 1 -> pat_slot pat i = pat_slot 0x0007040600070406 i) (v, t).
Proof.
  cbn [wp init_vmm vmm_init_pat]. split_and!; [done..|]. eexists. split; [apply lookup_insert_eq|]. split; [vm_compute; reflexivity|].
  intros i Hi Hne. assert (Hc : i = 0 \/ i = 2 \/ i = 3 \/ i = 4 \/ i = 5 \/ i = 6 \/ i = 7) by lia.
  repeat (destruct Hc as [->|Hc]; [vm_compute; reflexivity|]). subst i. vm_compute. reflexivity.
Qed.
Lemma wp_rdmsr msr v Q s : msrs s !! msr = Some v -> 0 <= v < 18446744073709551616 -> Q v s -> wp (rdmsr msr) Q s.
Proof.
  intros Hm Hv HQ. unfold rdmsr. wp_steps. rewrite Hm. cbn [from_option id].
  assert (E : Z.lor (Z.shiftl ((v / 2 ^ 32) mod 2 ^ 32) 32) (v mod 2 ^ 32) = v); [|by rewrite E].
  rewrite Z.mod_small by lia. apply Z.bits_inj'. intros n Hn. rewrite Z.lor_spec, Z.shiftl_spec by lia.
  destruct (Z.ltb_spec n 32).
  - rewrite Z.testbit_neg_r, Z.mod_pow2_bits_low by lia. done.
  - rewrite Z.div_pow2_bits, Z.mod_pow2_bits_high by lia. rewrite orb_false_r. f_equal. lia.
Qed.

(** What [syscall] and [sysret] load from STAR. *)
Definition syscall_cs (star : Z) : Z := Z.land (bits star 32 16) 0xFFFC.
Definition syscall_ss (star : Z) : Z := bits star 32 16 + 8.
Definition sysret_cs (star : Z) : Z := Z.lor (bits star 48 16 + 16) 3.
Definition sysret_ss (star : Z) : Z := Z.lor (bits star 48 16 + 8) 3.
(** The flags [syscall] clears: TF, IF, DF, IOPL, NT and AC, and no other. *)
Definition masked_flags : list Z := [8; 9; 10; 12; 13; 14; 18].

Lemma fmask_bits n : 0 <= n -> Z.testbit 0x47700 n = bool_decide (n ∈ masked_flags).
Proof.
  intros Hn. destruct (Z.ltb_spec n 19) as [H|H].
  - assert (Hall : forallb (fun n => eqb (Z.testbit 0x47700 n) (bool_decide (n ∈ masked_flags))) (seqZ 0 19) = true) by (vm_compute; reflexivity).
    rewrite forallb_forall in Hall. apply eqb_prop. apply Hall. apply list_elem_of_In, elem_of_seqZ. lia.
  - rewrite Z.bits_above_log2 by (change (Z.log2 0x47700) with 18; lia). symmetry. apply bool_decide_eq_false. unfold masked_flags. rewrite !elem_of_cons, elem_of_nil. lia.
Qed.

(** C22: after [init_gdt], [init_idt] and [init_syscalls], as [kmain] runs them, the
    processor's view is consistent. Each of the 48 vectors with a stub has a present
    64-bit interrupt gate to that stub, through the kernel's 64-bit code segment, on the
    current stack of the kernel and not open to [int] from user mode, and the other
    vectors have none; [syscall] enters at the entry stub in that segment,
    with the kernel's data segment and with exactly the flags TF, IF, DF, IOPL, NT and AC
    cleared; [sysret] leaves to 64-bit user code (0x23) with user data (0x1B); the system
    call bit of EFER is set and its other bits are kept; the task register names the
    task state segment, which says where it is. *)
Theorem boot_tables_correct s gaddr iaddr tss isr entry efer :
  length (gdt_entries s) = 7%nat -> 0 <= tss < 18446744073709551616 -> (forall i, 0 <= i < 48 -> 0 <= isr i < 18446744073709551616) ->
  0 <= entry < 18446744073709551616 -> msrs s !! MSR_EFER = Some efer -> 0 <= efer < 18446744073709551616 ->
  wp (init_gdt gaddr tss ;; init_idt iaddr isr ;; init_syscalls entry) (fun _ s' =>
    (forall v, 0 <= v < 48 -> exists g sel, arr_get (idt_entries s') v = Some g /\
      decode_gate (gate_image g) = mkIgate (isr v) sel 0 INTERRUPT_GATE 0 true /\ seg_at s' sel = Some kernel_code) /\
    (forall v, 48 <= v < 256 -> exists g, arr_get (idt_entries s') v = Some g /\ ig_present (decode_gate (gate_image g)) = false) /\
    idtr (segs s') = (4095, iaddr) /\ gdtr (segs s') = (55, gaddr) /\
    (exists star, msrs s' !! MSR_STAR = Some star /\ seg_at s' (syscall_cs star) = Some kernel_code /\ seg_at s' (syscall_ss star) = Some kernel_data /\
      sysret_cs star = 0x23 /\ seg_at s' 0x20 = Some user_code /\ sysret_ss star = 0x1B /\ seg_at s' 0x18 = Some user_data) /\
    msrs s' !! MSR_LSTAR = Some entry /\
    (exists mask, msrs s' !! MSR_FMASK = Some mask /\ forall n, 0 <= n -> Z.testbit mask n = bool_decide (n ∈ masked_flags)) /\
    (exists efer', msrs s' !! MSR_EFER = Some efer' /\ Z.testbit efer' 0 = true /\ forall n, 0 < n -> Z.testbit efer' n = Z.testbit efer n) /\
    tss_at s' (sr (segs s') TR) = Some (task_state 11 tss)) s.
Proof.
  intros Hlen Ht Hisr He Hef Hefb. wp_step. eapply wp_mono; [by apply wp_init_gdt|]. intros ? s1 (Hb & Hl & Hi & Hm). cbv beta.
  wp_step. eapply wp_mono; [by apply wp_init_idt|]. intros ? s2 ((_ & Hg) & Hip & H1 & H2 & H3 & H4 & H5 & H6). cbv beta.
  unfold init_syscalls. wp_step. rewrite Hm in H4. eapply (wp_rdmsr _ efer); [by rewrite H4|done|]. cbv beta. wp_step.
  assert (Hor : 0 <= Z.lor efer 1 < 18446744073709551616).
  { split; [apply Z.lor_nonneg; lia|]. apply (Z.log2_lt_cancel _ (2 ^ 64)). rewrite Z.log2_lor by lia. change (Z.log2 1) with 0. change (Z.log2 (2 ^ 64)) with 64.
    apply Z.max_lub_lt; [|lia]. destruct (decide (efer = 0)) as [->|]; [done|]. apply Z.log2_lt_pow2; lia. }
  apply wp_wrmsr; [done|]. cbv beta. wp_step. apply wp_wrmsr; [done|]. cbv beta. wp_step. apply wp_wrmsr; [done|]. cbv beta. apply wp_wrmsr; [done|].
  destruct Hb as (B1 & B2 & B3 & B4 & B5 & _ & B7). destruct Hl as (L1 & L2 & L3 & L4). cbn [msrs set_msrs idt_entries segs].
  assert (Hseg : forall sel, seg_at s2 sel = seg_at s1 sel) by (intros sel; unfold seg_at; by rewrite H1).
  split_and!.
  - intros v Hv. destruct (Hg v ltac:(lia)) as (g & Hgv & Hd). exists g, 8. rewrite Hd. case_bools. split_and!; [done|done|].
    change (seg_at s2 8 = Some kernel_code). by rewrite Hseg.
  - intros v Hv. destruct (Hg v ltac:(lia)) as (g & Hgv & Hd). exists g. rewrite Hd. by case_bools.
  - done.
  - by rewrite H5.
  - eexists. split; [rewrite !lookup_insert_ne, lookup_insert_eq by done; reflexivity|]. split_and!; try done; rewrite <-?Hseg in *; done.
  - by rewrite lookup_insert_ne, lookup_insert_eq.
  - eexists. split; [by rewrite lookup_insert_eq|]. apply fmask_bits.
  - eexists. split; [rewrite !lookup_insert_ne, lookup_insert_eq by done; reflexivity|]. split; [by rewrite Z.lor_spec, orb_true_r|].
    intros n Hn. rewrite Z.lor_spec. change 1 with (Z.ones 1). rewrite Z.ones_spec_high by lia. apply orb_false_r.
  - rewrite H6, L3. unfold tss_at in *. cbn [gdt_entries set_msrs]. by rewrite H1.
Qed.

(** Tables as they are before the boot: the segment table is zeroed memory. *)
Definition tables0 : tables :=
  mkTables [] (0, 0) (replicate 7 (mkDesc 0 0 0 0 0 0)) (0, 0) (mkTss 0 0) (replicate 16 0) {[MSR_EFER := 0x500]} (mkSegcpu (0, 0) (0, 0) (fun _ => 0)).
Lemma boot_tables_correct_witness : exists s', snd <$> (init_gdt 0xFFFFFFFF80010000 0xFFFFFFFF80020000 ;;
    init_idt 0xFFFFFFFF80030000 (fun i => 0xFFFFFFFF80000000 + 16 * i) ;; init_syscalls 0xFFFFFFFF80001000) tables0 = Some s' /\
  gdtr (segs s') = (55, 0xFFFFFFFF80010000) /\ msrs s' !! MSR_LSTAR = Some 0xFFFFFFFF80001000.
Proof.
  pose proof (boot_tables_correct tables0 0xFFFFFFFF80010000 0xFFFFFFFF80030000 0xFFFFFFFF80020000 (fun i => 0xFFFFFFFF80000000 + 16 * i)
    0xFFFFFFFF80001000 0x500 eq_refl ltac:(lia) ltac:(intros; lia) ltac:(lia) eq_refl ltac:(lia)) as H.
  destruct (proj1 (wp_run _ _ _) H) as ([] & s' & E & _ & _ & _ & Hg & _ & Hl & _). exists s'. rewrite E. split_and!; [reflexivity|exact Hg|exact Hl].
Defined.
