(* ===== verification/Devices.v ===== *)
(** * Devices (utils.c, serial.c, apic.c, timer.c, and the set-up of keyboard.c and mouse.c)

    The drivers reach the hardware through ports, memory-mapped registers and the
    time-stamp counter.  The hardware is a parameter [D] with these accesses (class
    [Ports]); what a driver relies on is what the data sheet of its chip says, stated
    as a class over the accesses ([Uart], [Ps2], [ApicTimer]).  A loop that polls a
    status register has a bound on the number of its turns; the classes say that the
    chips answer within [latency] polls, and the theorems show that [latency] turns
    and one are enough. *)

From S2P Require Import Prelude Tables.

Class Ports (D : Type) := {
  inb : Z -> D -> Z * D;
  outb : Z -> Z -> D -> D;
  mmio_rd : Z -> D -> Z * D;
  mmio_wr : Z -> Z -> D -> D;
  tsc_rd : D -> Z * D;
}.

(** The drivers' variables beside the hardware and the processor's tables. *)
Record board (D : Type) := mkBoard { b_dev : D; b_tables : tables; serial_ready : Z; ticks : Z; tsc_hz : Z }.
Arguments mkBoard {D}. Arguments b_dev {D}. Arguments b_tables {D}. Arguments serial_ready {D}. Arguments ticks {D}. Arguments tsc_hz {D}.

Definition COM1 : Z := 0x3F8.
Definition PS2DATA_PORT : Z := 0x60.
Definition PS2STATUS_PORT : Z := 0x64.
Definition PS2CMD_PORT : Z := 0x64.
Definition LAPIC_BASE : Z := 0xFEE00000.
Definition IOAPIC_BASE : Z := 0xFEC00000.
Definition LAPIC_TPR : Z := 0x080.
Definition LAPIC_EOI : Z := 0x0B0.
Definition LAPIC_SVR : Z := 0x0F0.
Definition LAPIC_TIMER_LVT : Z := 0x320.
Definition LAPIC_TIMER_INITCNT : Z := 0x380.
Definition LAPIC_TIMER_CURCNT : Z := 0x390.
Definition LAPIC_TIMER_DIV : Z := 0x3E0.
Definition PIT_CMD : Z := 0x43.
Definition PIT_CHANNEL0 : Z := 0x40.
Definition PIT_10MS : Z := 11931.
Definition freq : Z := 100.

Section drivers.
Context {D : Type} `{Ports D} (polls : nat).
Abbreviation B := (M (board D)).

Definition set_dev (d : D) (b : board D) : board D := mkBoard d (b_tables b) (serial_ready b) (ticks b) (tsc_hz b).
Definition set_tables (t : tables) (b : board D) : board D := mkBoard (b_dev b) t (serial_ready b) (ticks b) (tsc_hz b).
Definition set_ready (v : Z) (b : board D) : board D := mkBoard (b_dev b) (b_tables b) v (ticks b) (tsc_hz b).
Definition set_ticks (v : Z) (b : board D) : board D := mkBoard (b_dev b) (b_tables b) (serial_ready b) v (tsc_hz b).
Definition set_tsc_hz (v : Z) (b : board D) : board D := mkBoard (b_dev b) (b_tables b) (serial_ready b) (ticks b) v.
Definition on_tables {A} (c : M tables A) : B A := fun b =>
  match c (b_tables b) with Some (a, t) => Some (a, set_tables t b) | None => None end.

(** ** Accesses (utils.c) *)

Definition out_portb (port value : Z) : B unit := modify (fun b => set_dev (outb port (u8 value) (b_dev b)) b).
Definition in_portb (port : Z) : B Z := fun b =>
  let '(v, d) := inb port (b_dev b) in Some (u8 v, set_dev d b).
Definition rdtsc : B Z := fun b =>
  let '(v, d) := tsc_rd (b_dev b) in
  let lo := v mod 2 ^ 32 in let hi := (v / 2 ^ 32) mod 2 ^ 32 in
  Some (Z.lor (Z.shiftl hi 32) lo, set_dev d b).

(** [while (!c);] with at most [n] turns. *)
Fixpoint poll (n : nat) (c : B bool) : B unit :=
  match n with
  | O => undef
  | S n' => b <- c ;; if b : bool then ret tt else poll n' c
  end.

(** ** The serial port (serial.c) *)

Definition init_serial : B Z :=
  out_portb (COM1 + 1) 0x00 ;;
  out_portb (COM1 + 3) 0x80 ;;
  out_portb (COM1 + 0) 0x03 ;;
  out_portb (COM1 + 1) 0x00 ;;
  out_portb (COM1 + 3) 0x03 ;;
  out_portb (COM1 + 2) 0xC7 ;;
  out_portb (COM1 + 4) 0x0B ;;
  out_portb (COM1 + 4) 0x1E ;;
  out_portb (COM1 + 0) 0xAE ;;
  v <- in_portb (COM1 + 0) ;;
  if negb (v =? 0xAE) then modify (set_ready 0) ;; ret (-1) else
  out_portb (COM1 + 4) 0x0F ;;
  modify (set_ready 1) ;;
  ret 0.
Definition serial_is_ready : B Z := gets serial_ready.
Definition is_transmit_empty (port : Z) : B Z := v <- in_portb (port + 5) ;; ret (Z.land v 0x20).
Definition serial_putchar (c : Z) : B unit :=
  r <- gets serial_ready ;;
  if r =? 0 then ret tt else
  poll polls (v <- is_transmit_empty COM1 ;; ret (negb (v =? 0))) ;;
  out_portb COM1 c.
(** The argument is the memory from [c] on, up to and including the first NUL at least. *)
Fixpoint serial_print (c : list Z) : B unit :=
  match c with
  | [] => undef
  | b :: c' => if b =? 0 then ret tt else serial_putchar b ;; serial_print c'
  end.

(** [serial_print_hex] of idt.c: "0x", 16 digits and NUL in a local buffer. *)
Definition hex_digit (value i : Z) : Z :=
  let nibble := Z.land (Z.shiftr value ((15 - i) * 4)) 0xF in
  if nibble <? 10 then 48 + nibble else 97 + nibble - 10.
Definition serial_print_hex (value : Z) : B unit :=
  serial_print ([48; 120] ++ (hex_digit value <$> seqZ 0 16) ++ [0]).

(** ** The interrupt controllers (apic.c) *)

Definition lapic_write (reg value : Z) : B unit := modify (fun b => set_dev (mmio_wr (LAPIC_BASE + reg) (u32 value) (b_dev b)) b).
Definition lapic_read (reg : Z) : B Z := fun b =>
  let '(v, d) := mmio_rd (LAPIC_BASE + reg) (b_dev b) in Some (u32 v, set_dev d b).
Definition lapic_eoi : B unit := lapic_write LAPIC_EOI 0.
Definition ioapic_write (reg value : Z) : B unit :=
  modify (fun b => set_dev (mmio_wr IOAPIC_BASE (u32 reg) (b_dev b)) b) ;;
  modify (fun b => set_dev (mmio_wr (IOAPIC_BASE + 16) (u32 value) (b_dev b)) b).
Definition ioapic_set_irq (irq apic_id vector : Z) : B unit :=
  let low_index := 0x10 + irq * 2 in
  let high_index := 0x11 + irq * 2 in
  ioapic_write low_index vector ;;
  ioapic_write high_index (u64 (Z.shiftl apic_id 24)).
(** [init_apic] after the two pages of registers are mapped. *)
Definition apic_enable : B unit :=
  out_portb 0x21 0xFF ;;
  out_portb 0xA1 0xFF ;;
  svr <- lapic_read LAPIC_SVR ;;
  lapic_write LAPIC_SVR (Z.lor svr 0x1FF) ;;
  lapic_write LAPIC_TPR 0.

(** ** The timer (timer.c) *)

Definition pit_one_shot : B unit :=
  out_portb PIT_CMD 0x30 ;;
  out_portb PIT_CHANNEL0 (Z.land PIT_10MS 0xFF) ;;
  out_portb PIT_CHANNEL0 (Z.shiftr PIT_10MS 8).
Definition pit_wait : B unit :=
  poll polls (out_portb PIT_CMD 0xE2 ;; status <- in_portb PIT_CHANNEL0 ;; ret (negb (Z.land status 0x80 =? 0))).
Definition lapic_calibrate : B Z :=
  lapic_write LAPIC_TIMER_LVT 0x10000 ;;
  lapic_write LAPIC_TIMER_INITCNT 0xFFFFFFFF ;;
  pit_one_shot ;;
  pit_wait ;;
  v <- lapic_read LAPIC_TIMER_CURCNT ;;
  ret (u32 (0xFFFFFFFF - v)).
Definition calibrate_tsc : B unit :=
  pit_one_shot ;;
  start <- rdtsc ;;
  pit_wait ;;
  stop <- rdtsc ;;
  modify (set_tsc_hz (u64 (u64 (stop - start) * 100))).
Definition init_timer (on_irq0 : Z) : B unit :=
  modify (set_ticks 0) ;;
  calibrate_tsc ;;
  lapic_write LAPIC_TIMER_DIV 0x03 ;;
  ticks_per_10ms <- lapic_calibrate ;;
  lapic_write LAPIC_TIMER_LVT (Z.lor 32 0x20000) ;;
  lapic_write LAPIC_TIMER_INITCNT (u32 (u64 (ticks_per_10ms * 100) / freq)) ;;
  on_tables (irq_install_handler 0 on_irq0).

(** ** The keyboard controller (keyboard.c, mouse.c) *)

Definition ps2_wait_write : B unit := poll polls (v <- in_portb PS2STATUS_PORT ;; ret (Z.land v 0x02 =? 0)).
Definition ps2_wait_read : B unit := poll polls (v <- in_portb PS2STATUS_PORT ;; ret (negb (Z.land v 0x01 =? 0))).
Definition mouse_write (data : Z) : B unit :=
  ps2_wait_write ;;
  out_portb PS2CMD_PORT 0xD4 ;;
  ps2_wait_write ;;
  out_portb PS2DATA_PORT data ;;
  ps2_wait_read ;;
  in_portb PS2DATA_PORT ;; ret tt.
Definition init_keyboard (on_irq1 : Z) : B unit :=
  ps2_wait_write ;;
  out_portb PS2CMD_PORT 0x20 ;;
  ps2_wait_read ;;
  cmd <- in_portb PS2DATA_PORT ;;
  let cmd := u8 (Z.lor cmd (Z.lor 0x01 0x40)) in
  let cmd := u8 (Z.land cmd (Z.lnot 0x10)) in
  ps2_wait_write ;;
  out_portb PS2CMD_PORT 0x60 ;;
  ps2_wait_write ;;
  out_portb PS2DATA_PORT cmd ;;
  on_tables (irq_install_handler 1 on_irq1).
Definition init_mouse (on_irq12 : Z) : B unit :=
  ps2_wait_write ;;
  out_portb PS2CMD_PORT 0xA8 ;;
  ps2_wait_write ;;
  out_portb PS2CMD_PORT 0x20 ;;
  ps2_wait_read ;;
  cmd <- in_portb PS2DATA_PORT ;;
  let cmd := u8 (Z.lor cmd 0x02) in
  let cmd := u8 (Z.land cmd (Z.lnot 0x20)) in
  ps2_wait_write ;;
  out_portb PS2CMD_PORT 0x60 ;;
  ps2_wait_write ;;
  out_portb PS2DATA_PORT cmd ;;
  mouse_write 0xF6 ;;
  mouse_write 0xF4 ;;
  on_tables (irq_install_handler 12 on_irq12).
End drivers.

(** ** The chips *)

(** A 16550: [u_dlab] the divisor latch access bit, [u_loop] loopback mode, [u_rx] the
    byte received last, [u_busy] the polls until the transmitter is empty, [u_line] what
    went out on the line. *)
Record uart := mkUart { u_dlab : bool; u_loop : bool; u_rx : Z; u_busy : nat; u_line : list Z }.
Definition uart_out (latency : nat) (port v : Z) (u u' : uart) : Prop :=
  if port =? COM1 then
    if u_dlab u then u' = u
    else if u_loop u then u' = mkUart false true v (u_busy u) (u_line u)
    else u_busy u = 0%nat -> exists n, (n <= latency)%nat /\ u' = mkUart false false (u_rx u) n (u_line u ++ [v])
  else if port =? COM1 + 3 then u' = mkUart (Z.testbit v 7) (u_loop u) (u_rx u) (u_busy u) (u_line u)
  else if port =? COM1 + 4 then u' = mkUart (u_dlab u) (Z.testbit v 4) (u_rx u) (u_busy u) (u_line u)
  else u' = u.
Class Uart (D : Type) `{Ports D} (latency : nat) := {
  uart_of : D -> uart;
  uart_busy d : (u_busy (uart_of d) <= latency)%nat;
  uart_write port v d : COM1 <= port < COM1 + 8 -> uart_out latency port v (uart_of d) (uart_of (outb port v d));
  uart_data d : u_dlab (uart_of d) = false -> u_loop (uart_of d) = true ->
    fst (inb COM1 d) = u_rx (uart_of d) /\ uart_of (snd (inb COM1 d)) = uart_of d;
  uart_status d : Z.testbit (fst (inb (COM1 + 5) d)) 5 = (u_busy (uart_of d) =? 0)%nat /\
    uart_of (snd (inb (COM1 + 5) d)) = mkUart (u_dlab (uart_of d)) (u_loop (uart_of d)) (u_rx (uart_of d)) (pred (u_busy (uart_of d))) (u_line (uart_of d));
}.

(** An 8042 with a keyboard and a mouse that are silent: [p_cmd] the command byte,
    [p_next] what a byte written to the data port is for, [p_reply] the bytes to read,
    [p_aux] whether the second port is enabled, [p_mouse] the bytes the mouse got,
    [p_wait] the polls until the last byte is processed. *)
Inductive p_target := ToKeyboard | ToCommand | ToMouse.
Record ps2 := mkPs2 { p_cmd : Z; p_next : p_target; p_reply : list Z; p_aux : bool; p_mouse : list Z; p_wait : nat }.
Definition ps2_out (port v : Z) (u : ps2) : ps2 :=
  if port =? PS2CMD_PORT then
    if v =? 0x20 then mkPs2 (p_cmd u) (p_next u) (p_reply u ++ [p_cmd u]) (p_aux u) (p_mouse u) 0
    else if v =? 0x60 then mkPs2 (p_cmd u) ToCommand (p_reply u) (p_aux u) (p_mouse u) 0
    else if v =? 0xD4 then mkPs2 (p_cmd u) ToMouse (p_reply u) (p_aux u) (p_mouse u) 0
    else if v =? 0xA8 then mkPs2 (p_cmd u) (p_next u) (p_reply u) true (p_mouse u) 0
    else u
  else
    match p_next u with
    | ToCommand => mkPs2 v ToKeyboard (p_reply u) (p_aux u) (p_mouse u) 0
    | ToMouse => mkPs2 (p_cmd u) ToKeyboard (p_reply u ++ [0xFA]) (p_aux u) (p_mouse u ++ [v]) 0
    | ToKeyboard => u
    end.
Definition set_wait (n : nat) (u : ps2) : ps2 := mkPs2 (p_cmd u) (p_next u) (p_reply u) (p_aux u) (p_mouse u) n.
Class Ps2 (D : Type) `{Ports D} (latency : nat) := {
  ps2_of : D -> ps2;
  ps2_cmd d : 0 <= p_cmd (ps2_of d) < 256;
  ps2_busy d : (p_wait (ps2_of d) <= latency)%nat;
  ps2_write port v d : port = PS2CMD_PORT \/ port = PS2DATA_PORT -> 0 <= v < 256 -> p_wait (ps2_of d) = 0%nat ->
    set_wait 0 (ps2_of (outb port v d)) = ps2_out port v (ps2_of d);
  ps2_status d : Z.testbit (fst (inb PS2STATUS_PORT d)) 1 = negb (p_wait (ps2_of d) =? 0)%nat /\
    Z.testbit (fst (inb PS2STATUS_PORT d)) 0 = (p_wait (ps2_of d) =? 0)%nat && negb (bool_decide (p_reply (ps2_of d) = [])) /\
    ps2_of (snd (inb PS2STATUS_PORT d)) = set_wait (pred (p_wait (ps2_of d))) (ps2_of d);
  ps2_read d b l : p_reply (ps2_of d) = b :: l -> fst (inb PS2DATA_PORT d) = b /\
    ps2_of (snd (inb PS2DATA_PORT d)) = mkPs2 (p_cmd (ps2_of d)) (p_next (ps2_of d)) l (p_aux (ps2_of d)) (p_mouse (ps2_of d)) (p_wait (ps2_of d));
}.

(** ** Polling *)

Section polling.
Context {D : Type} `{Ports D}.

(** The loop ends if each turn either ends it or lowers a measure. *)
Lemma wp_poll (I : board D -> Prop) (P : board D -> Prop) (left : board D -> nat) (c : M (board D) bool) :
  (forall b, I b -> wp c (fun r b' => if r : bool then P b' else I b' /\ (left b' < left b)%nat) b) ->
  forall n b, I b -> (left b < n)%nat -> wp (poll n c) (fun _ => P) b.
Proof.
  intros Hc n. induction n as [|n IH]; intros b HI Hl; [lia|]. cbn [poll]. wp_step.
  eapply wp_mono; [by apply Hc|]. intros [] b' Hb; cbv beta in Hb; [by wp_step|]. destruct Hb as [HI' Hl']. apply IH; [done|lia].
Qed.

Lemma wp_out_portb port v (Q : unit -> board D -> Prop) b : 0 <= v < 256 ->
  Q tt (set_dev (outb port v (b_dev b)) b) -> wp (out_portb port v) Q b.
Proof. intros Hv HQ. unfold out_portb. wp_step. unfold u8. by rewrite Z.mod_small by lia. Qed.
Lemma wp_in_portb port (Q : Z -> board D -> Prop) b :
  Q (u8 (fst (inb port (b_dev b)))) (set_dev (snd (inb port (b_dev b))) b) -> wp (in_portb port) Q b.
Proof. intros HQ. unfold in_portb, wp. destruct (inb port (b_dev b)) as [v d]. exact HQ. Qed.
Lemma land_u8_bit v n : 0 <= n < 8 -> (Z.land (u8 v) (Z.shiftl 1 n) =? 0) = negb (Z.testbit v n).
Proof.
  intros Hn. unfold u8. assert (E : Z.testbit (v mod 256) n = Z.testbit v n) by (change 256 with (2 ^ 8); apply Z.mod_pow2_bits_low; lia).
  rewrite <- E. destruct (Z.testbit (v mod 256) n) eqn:Hb; cbn [negb].
  - apply Z.eqb_neq. intros H0. apply (f_equal (fun x => Z.testbit x n)) in H0.
    rewrite Z.land_spec, Z.shiftl_spec, Z.sub_diag, Hb, Z.bits_0 in H0 by lia. done.
  - apply Z.eqb_eq. apply Z.bits_inj'. intros m Hm. rewrite Z.land_spec, Z.bits_0, Z.shiftl_1_l, Z.pow2_bits_eqb by lia.
    destruct (Z.eqb_spec n m) as [<-|]; [by rewrite Hb|apply andb_false_r].
Qed.
End polling.

(** ** The serial port *)

Section serial.
Context {D : Type} `{U : Uart D latency}.
Abbreviation serial_line b := (u_line (uart_of (b_dev b))).

(** Ready: the chip is initialised and in normal operation. *)
Definition serial_up (b : board D) : Prop :=
  serial_ready b = 1 /\ u_dlab (uart_of (b_dev b)) = false /\ u_loop (uart_of (b_dev b)) = false.

Lemma wp_init_serial b :
  wp init_serial (fun r b' => r = 0 /\ serial_up b' /\ serial_line b' = serial_line b /\ b_tables b' = b_tables b) b.
Proof.
  unfold init_serial. set (u0 := uart_of (b_dev b)).
  assert (Hstep : forall port v (c : M (board D) Z) Q b0, COM1 <= port < COM1 + 8 -> 0 <= v < 256 ->
    (forall d, uart_out latency port v (uart_of (b_dev b0)) (uart_of d) -> wp c Q (set_dev d b0)) -> wp (out_portb port v ;; c) Q b0).
  { intros port v c Q b0 Hp Hv HQ. wp_step. apply wp_out_portb; [done|]. apply HQ. by apply uart_write. }
  assert (Hset : forall d d' (b0 : board D), set_dev d (set_dev d' b0) = set_dev d b0) by done.
  do 9 (apply Hstep; [unfold COM1; lia|lia|]; intros ?d ?Hd; cbn [b_dev set_dev] in *; rewrite ?Hset).
  cbn in Hd, Hd0, Hd1, Hd2, Hd3, Hd4, Hd5, Hd6, Hd7. rewrite Hd in *. rewrite Hd0 in *. cbn in Hd1. rewrite Hd1 in *. rewrite Hd2 in *. rewrite Hd3 in *. cbn in *.
  rewrite Hd4 in *. cbn in *. rewrite Hd5 in *. cbn in *. rewrite Hd6 in *. cbn in *. wp_step. apply wp_in_portb. cbn [b_dev set_dev].
  destruct (uart_data d7) as [Hr Hk]; [by rewrite Hd7|by rewrite Hd7|]. change (COM1 + 0) with COM1. rewrite Hr, Hd7. cbn [u_rx]. change (negb _) with false. cbn iota.
  apply Hstep; [unfold COM1; lia|lia|]. cbn [b_dev set_dev]. rewrite Hk, Hd7. intros d8 Hd8. cbn in Hd8. wp_steps.
  unfold serial_up. cbn [b_dev set_dev set_ready serial_ready b_tables]. rewrite Hd8. done.
Qed.

(** The wait for the transmitter. *)
Lemma wp_transmit_wait b : serial_up b ->
  wp (poll (Datatypes.S latency) (v <- is_transmit_empty COM1 ;; ret (negb (v =? 0))))
    (fun _ b' => serial_up b' /\ u_busy (uart_of (b_dev b')) = 0%nat /\ serial_line b' = serial_line b /\ b_tables b' = b_tables b) b.
Proof.
  intros Hb. apply (wp_poll (fun b' => serial_up b' /\ serial_line b' = serial_line b /\ b_tables b' = b_tables b) _ (fun b' => u_busy (uart_of (b_dev b')))).
  - clear Hb. intros b0 ((Hr & Hdl & Hlo) & Hln & Ht). unfold is_transmit_empty. do 2 wp_step. apply wp_in_portb.
    destruct (uart_status (b_dev b0)) as [Hs Hk]. wp_steps. change 32 with (Z.shiftl 1 5). rewrite land_u8_bit, Hs by lia.
    unfold serial_up. cbn [b_dev set_dev serial_ready b_tables]. rewrite Hk. cbn [u_dlab u_loop u_line u_busy].
    destruct (u_busy (uart_of (b_dev b0))) as [|n] eqn:E; cbn; [done|]. split_and!; try done; lia.
  - done.
  - pose proof (uart_busy (b_dev b)). lia.
Qed.

Lemma wp_serial_putchar b c : serial_up b -> 0 <= c < 256 ->
  wp (serial_putchar (Datatypes.S latency) c) (fun _ b' => serial_up b' /\ serial_line b' = serial_line b ++ [c] /\ b_tables b' = b_tables b) b.
Proof.
  intros Hb Hc. unfold serial_putchar. wp_step. wp_step. destruct Hb as (Hr & Hdl & Hlo). rewrite Hr. cbn [Z.eqb]. wp_step.
  eapply wp_mono; [by apply wp_transmit_wait|]. intros ? b1 ((Hr1 & Hd1 & Hl1) & Hz & Hline & Ht). cbv beta.
  apply wp_out_portb; [done|]. pose proof (uart_write COM1 c (b_dev b1) ltac:(unfold COM1; lia)) as Hw. unfold uart_out in Hw.
  rewrite Z.eqb_refl, Hd1, Hl1 in Hw. destruct (Hw Hz) as (n & _ & Hu). unfold serial_up. cbn [b_dev set_dev serial_ready b_tables]. rewrite Hu. cbn. by rewrite Hline.
Qed.

Lemma wp_serial_print c rest : forall b, serial_up b -> Forall (fun x => 0 < x < 256) c ->
  wp (serial_print (Datatypes.S latency) (c ++ 0 :: rest)) (fun _ b' => serial_up b' /\ serial_line b' = serial_line b ++ c /\ b_tables b' = b_tables b) b.
Proof.
  induction c as [|x c IH]; intros b Hb Hc; cbn [serial_print app]; [rewrite Z.eqb_refl; wp_step; by rewrite app_nil_r|].
  apply Forall_cons in Hc as [Hx Hc]. case_bools. wp_step. eapply wp_mono; [apply wp_serial_putchar; [done|lia]|].
  intros ? b1 (Hb1 & Hl1 & Ht1). cbv beta. eapply wp_mono; [by apply IH|]. intros ? b2 (Hb2 & Hl2 & Ht2). rewrite Hl2, Hl1, Ht2, Ht1, <- app_assoc. done.
Qed.

(** On a working chip the self-test of [init_serial] succeeds and leaves nothing on
    the line, and a string printed afterwards goes out on the line byte by byte, complete
    and in order; every wait for the transmitter ends. *)
Theorem serial_line_correct b c rest : Forall (fun x => 0 < x < 256) c ->
  wp (r <- init_serial ;; serial_print (Datatypes.S latency) (c ++ 0 :: rest) ;; ret r)
    (fun r b' => r = 0 /\ serial_line b' = serial_line b ++ c) b.
Proof.
  intros Hc. wp_step. eapply wp_mono; [apply wp_init_serial|]. intros r b1 (-> & Hb1 & Hl1 & _). cbv beta. wp_step.
  eapply wp_mono; [by apply wp_serial_print|]. intros ? b2 (_ & Hl2 & _). wp_step. by rewrite Hl2, Hl1.
Qed.
End serial.

(** ** The keyboard controller *)

Section ps2.
Context {D : Type} `{P : Ps2 D latency}.
Abbreviation chip b := (ps2_of (b_dev b)).
Abbreviation polls := (Datatypes.S latency).

(** Between two accesses: the chip is in a given state up to the polls it takes. *)
Definition at_state (u : ps2) (b0 b : board D) : Prop := set_wait 0 (chip b) = u /\ exists d, b = set_dev d b0.
Lemma at_state_refl b : at_state (set_wait 0 (chip b)) b b.
Proof. split; [done|]. exists (b_dev b). by destruct b. Qed.

Lemma ps2_turn u b0 b : at_state u b0 b -> at_state u b0 (set_dev (snd (inb PS2STATUS_PORT (b_dev b))) b).
Proof.
  intros [Hu [d ->]]. destruct (ps2_status d) as (_ & _ & Hk). split; [|by eexists]. cbn [b_dev set_dev] in *. rewrite Hk. exact Hu.
Qed.
Lemma wp_ps2_wait_write u b0 b : at_state u b0 b -> wp (ps2_wait_write polls) (fun _ b' => at_state u b0 b' /\ p_wait (chip b') = 0%nat) b.
Proof.
  intros Hb. apply (wp_poll (at_state u b0) _ (fun b' => p_wait (chip b'))); [|done|pose proof (ps2_busy (b_dev b)); lia].
  clear b Hb. intros b Hb. wp_step. apply wp_in_portb. wp_step. destruct (ps2_status (b_dev b)) as (H1 & _ & Hk).
  change 2 with (Z.shiftl 1 1). rewrite land_u8_bit, H1 by lia. pose proof (ps2_turn _ _ _ Hb) as Ht.
  cbn [b_dev set_dev]. rewrite Hk. destruct (p_wait (chip b)) as [|n] eqn:E; cbn; split; try done; lia.
Qed.
Lemma wp_ps2_wait_read u b0 b : at_state u b0 b -> p_reply u <> [] ->
  wp (ps2_wait_read polls) (fun _ b' => at_state u b0 b' /\ p_wait (chip b') = 0%nat) b.
Proof.
  intros Hb Hr. apply (wp_poll (at_state u b0) _ (fun b' => p_wait (chip b'))); [|done|pose proof (ps2_busy (b_dev b)); lia].
  clear b Hb. intros b Hb. wp_step. apply wp_in_portb. wp_step. destruct (ps2_status (b_dev b)) as (_ & H1 & Hk).
  change 1 with (Z.shiftl 1 0) at 1. rewrite land_u8_bit, H1 by lia. pose proof (ps2_turn _ _ _ Hb) as Ht.
  assert (Hne : p_reply (chip b) <> []) by (destruct Hb as [<- _]; exact Hr). rewrite (bool_decide_eq_false_2 _ Hne). cbn [negb]. rewrite andb_true_r, negb_involutive.
  cbn [b_dev set_dev]. rewrite Hk. destruct (p_wait (chip b)) as [|n] eqn:E; cbn; split; try done; lia.
Qed.

(** [ps2_wait_write] followed by a write. *)
Lemma wp_ps2_out u b0 b port v : at_state u b0 b -> port = PS2CMD_PORT \/ port = PS2DATA_PORT -> 0 <= v < 256 ->
  wp (ps2_wait_write polls ;; out_portb port v) (fun _ b' => at_state (ps2_out port v u) b0 b') b.
Proof.
  intros Hb Hp Hv. wp_step. eapply wp_mono; [by apply (wp_ps2_wait_write u b0)|]. intros ? b' [[Hu [d ->]] Hw]. cbv beta. apply wp_out_portb; [done|].
  split; [|by eexists]. cbn [b_dev set_dev] in *. rewrite (ps2_write _ _ _ Hp Hv Hw). f_equal. rewrite <- Hu. destruct (ps2_of d). cbn in *. by subst.
Qed.
(** [ps2_wait_read] followed by a read. *)
Lemma wp_ps2_in u b0 b r : at_state u b0 b -> p_reply u = [r] -> 0 <= r < 256 ->
  wp (ps2_wait_read polls ;; in_portb PS2DATA_PORT) (fun v b' => v = r /\ at_state (mkPs2 (p_cmd u) (p_next u) [] (p_aux u) (p_mouse u) 0) b0 b') b.
Proof.
  intros Hb Hr Hv. wp_step. eapply wp_mono; [apply (wp_ps2_wait_read u b0); [done|by rewrite Hr]|]. intros ? b' [[Hu [d ->]] Hw]. cbv beta. apply wp_in_portb.
  cbn [b_dev set_dev] in *. assert (Hr' : p_reply (ps2_of d) = [r]) by (rewrite <- Hr, <- Hu; done). destruct (ps2_read d r [] Hr') as [E1 E2].
  rewrite E1. unfold u8. rewrite Z.mod_small by lia. split; [done|]. split; [|by eexists]. cbn [b_dev set_dev]. rewrite E2, <- Hu. done.
Qed.

(** The same, in front of the rest of a routine. *)
Lemma wp_ps2_cmd {A} u b0 b port v (c : M (board D) A) Q : at_state u b0 b -> port = PS2CMD_PORT \/ port = PS2DATA_PORT -> 0 <= v < 256 ->
  (forall b', at_state (ps2_out port v u) b0 b' -> wp c Q b') -> wp (ps2_wait_write polls ;; out_portb port v ;; c) Q b.
Proof.
  intros Hb Hp Hv HQ. pose proof (wp_ps2_out u b0 b port v Hb Hp Hv) as Hw. wp_follow Hw. wp_step.
  eapply wp_mono; [exact Hw|]. intros ? b' Hb'. by apply HQ.
Qed.
Lemma wp_ps2_get {A} u b0 b r (c : Z -> M (board D) A) Q : at_state u b0 b -> p_reply u = [r] -> 0 <= r < 256 ->
  (forall b', at_state (mkPs2 (p_cmd u) (p_next u) [] (p_aux u) (p_mouse u) 0) b0 b' -> wp (c r) Q b') ->
  wp (ps2_wait_read polls ;; v <- in_portb PS2DATA_PORT ;; c v) Q b.
Proof.
  intros Hb Hr Hv HQ. pose proof (wp_ps2_in u b0 b r Hb Hr Hv) as Hw. wp_follow Hw. wp_step.
  eapply wp_mono; [exact Hw|]. intros v b' [-> Hb']. by apply HQ.
Qed.
Lemma wp_mouse_write cmd aux ms b0 b v : at_state (mkPs2 cmd ToKeyboard [] aux ms 0) b0 b -> 0 <= v < 256 ->
  wp (mouse_write polls v) (fun _ b' => at_state (mkPs2 cmd ToKeyboard [] aux (ms ++ [v]) 0) b0 b') b.
Proof.
  intros Hb Hv. unfold mouse_write. eapply wp_ps2_cmd; [exact Hb|by left|lia|]. intros b1 H1. eapply wp_ps2_cmd; [exact H1|by right|done|]. intros b2 H2.
  eapply wp_ps2_get; [exact H2|reflexivity|lia|]. intros b3 H3. wp_step. exact H3.
Qed.
Lemma wp_install {T} irq h (b : board T) : 0 <= irq < 16 -> length (irq_handlers (b_tables b)) = 16%nat ->
  wp (on_tables (irq_install_handler irq h)) (fun _ b' => b' = set_tables (set_irq_handlers (<[Z.to_nat irq := h]> (irq_handlers (b_tables b))) (b_tables b)) b) b.
Proof.
  intros Hi Hl. unfold on_tables, wp, irq_install_handler, bind, gets, lift. rewrite arr_set_Some by lia. done.
Qed.

(** The command byte the two routines leave. *)
Definition ps2_enabled (cmd : Z) : Z :=
  u8 (Z.land (u8 (Z.lor (u8 (Z.land (u8 (Z.lor cmd (Z.lor 0x01 0x40))) (Z.lnot 0x10))) 0x02)) (Z.lnot 0x20)).
Lemma ps2_enabled_bits cmd n : 0 <= cmd < 256 -> 0 <= n < 8 ->
  Z.testbit (ps2_enabled cmd) n = (n =? 0) || (n =? 1) || (n =? 6) || (negb (n =? 4) && negb (n =? 5) && Z.testbit cmd n).
Proof.
  intros Hc Hn. unfold ps2_enabled, u8. change 256 with (2 ^ 8).
  repeat (rewrite Z.mod_pow2_bits_low by lia; rewrite ?Z.land_spec, ?Z.lor_spec, ?Z.lnot_spec by lia).
  generalize (Z.testbit cmd n). intros t.
  assert (Hcase : n = 0 \/ n = 1 \/ n = 2 \/ n = 3 \/ n = 4 \/ n = 5 \/ n = 6 \/ n = 7) by lia.
  destruct Hcase as [->|[->|[->|[->|[->|[->|[->| ->]]]]]]]; destruct t; reflexivity.
Qed.

(** A routine that leaves the chip in the state [u] and installs one handler. *)
Definition installs (u : ps2) (irq h : Z) (b b' : board D) : Prop :=
  exists d, set_wait 0 (ps2_of d) = u /\ b' = set_tables (set_irq_handlers (<[Z.to_nat irq := h]> (irq_handlers (b_tables b))) (b_tables b)) (set_dev d b).

Lemma wp_init_keyboard b irq1 : length (irq_handlers (b_tables b)) = 16%nat -> p_reply (chip b) = [] ->
  wp (init_keyboard polls irq1) (fun _ => installs (mkPs2 (u8 (Z.land (u8 (Z.lor (p_cmd (chip b)) (Z.lor 0x01 0x40))) (Z.lnot 0x10)))
    ToKeyboard [] (p_aux (chip b)) (p_mouse (chip b)) 0) 1 irq1 b) b.
Proof.
  intros Hl Hr. pose proof (ps2_cmd (b_dev b)) as Hc. pose proof (at_state_refl b) as Hb. unfold init_keyboard.
  eapply wp_ps2_cmd; [exact Hb|by left|lia|]. intros b1 H1. cbn in H1. rewrite Hr in H1. clear Hb.
  eapply wp_ps2_get; [exact H1|reflexivity|done|]. clear b1 H1. intros b1 H1. cbv zeta. cbn in H1.
  eapply wp_ps2_cmd; [exact H1|by left|lia|]. clear b1 H1. intros b1 H1.
  eapply wp_ps2_cmd; [exact H1|by right|unfold u8; lia|]. clear b1 H1. intros b1 [H1 [d ->]].
  eapply wp_mono; [apply wp_install; [lia|done]|]. intros ? b2 ->. by exists d.
Qed.
Lemma wp_init_mouse b irq12 : length (irq_handlers (b_tables b)) = 16%nat -> p_reply (chip b) = [] ->
  wp (init_mouse polls irq12) (fun _ => installs (mkPs2 (u8 (Z.land (u8 (Z.lor (p_cmd (chip b)) 0x02)) (Z.lnot 0x20)))
    ToKeyboard [] true (p_mouse (chip b) ++ [0xF6; 0xF4]) 0) 12 irq12 b) b.
Proof.
  intros Hl Hr. pose proof (ps2_cmd (b_dev b)) as Hc. pose proof (at_state_refl b) as Hb. unfold init_mouse.
  eapply wp_ps2_cmd; [exact Hb|by left|lia|]. intros b1 H1. cbn in H1. rewrite Hr in H1. clear Hb.
  eapply wp_ps2_cmd; [exact H1|by left|lia|]. clear b1 H1. intros b1 H1. cbn in H1.
  eapply wp_ps2_get; [exact H1|reflexivity|done|]. clear b1 H1. intros b1 H1. cbv zeta. cbn in H1.
  eapply wp_ps2_cmd; [exact H1|by left|lia|]. clear b1 H1. intros b1 H1.
  eapply wp_ps2_cmd; [exact H1|by right|unfold u8; lia|]. clear b1 H1. intros b1 H1.
  do 2 (wp_step; eapply wp_mono; [apply wp_mouse_write; [exact H1|lia]|]; clear b1 H1; intros ? b1 H1; cbv beta).
  destruct H1 as [H1 [d ->]]. rewrite <- app_assoc in H1. eapply wp_mono; [apply wp_install; [lia|done]|]. intros ? b2 ->. by exists d.
Qed.

(** [init_keyboard] and [init_mouse], as [kmain] runs them, end, enable the
    interrupts of both ports of the controller (bits 0 and 1 of its command byte) and
    scancode translation (bit 6), start both clocks (bits 4 and 5 clear) and keep the
    other bits; the mouse gets the commands for defaults and for reporting; no answer is
    left unread, and the two handlers are installed and no other is changed. *)
Theorem ps2_init_correct b irq1 irq12 : length (irq_handlers (b_tables b)) = 16%nat -> p_reply (chip b) = [] ->
  wp (init_keyboard polls irq1 ;; init_mouse polls irq12) (fun _ b' =>
    (forall n, 0 <= n < 8 -> Z.testbit (p_cmd (chip b')) n =
      (n =? 0) || (n =? 1) || (n =? 6) || (negb (n =? 4) && negb (n =? 5) && Z.testbit (p_cmd (chip b)) n)) /\
    p_aux (chip b') = true /\ p_mouse (chip b') = p_mouse (chip b) ++ [0xF6; 0xF4] /\ p_reply (chip b') = [] /\
    irq_handlers (b_tables b') = <[12%nat := irq12]> (<[1%nat := irq1]> (irq_handlers (b_tables b)))) b.
Proof.
  intros Hl Hr. wp_step. eapply wp_mono; [by apply wp_init_keyboard|]. intros ? b1 (d & Hd & ->). cbv beta.
  assert (Hf : forall {A} (f : ps2 -> A) u, (forall u n, f (set_wait n u) = f u) -> set_wait 0 (ps2_of d) = u -> f (ps2_of d) = f u) by (intros A f u Hn <-; by rewrite Hn).
  eapply wp_mono; [apply wp_init_mouse|].
  { cbn [b_tables set_tables irq_handlers set_irq_handlers]. by rewrite length_insert. }
  { cbn [b_dev set_tables set_dev]. by rewrite (Hf _ p_reply _ ltac:(done) Hd). }
  intros ? b2 (d2 & Hd2 & ->). cbn [b_dev b_tables set_tables set_dev] in *.
  rewrite (Hf _ p_cmd _ ltac:(done) Hd), (Hf _ p_mouse _ ltac:(done) Hd) in Hd2. clear Hf. cbn [p_cmd p_mouse] in Hd2.
  assert (E : forall {A} (f : ps2 -> A), (forall u n, f (set_wait n u) = f u) -> f (ps2_of d2) = f (set_wait 0 (ps2_of d2))) by (intros A f Hn; by rewrite Hn).
  rewrite (E _ p_cmd), (E _ p_aux), (E _ p_mouse), (E _ p_reply), Hd2 by done. cbn [p_cmd p_aux p_mouse p_reply]. split_and!; try done.
  intros n Hn. by apply ps2_enabled_bits; [apply ps2_cmd|].
Qed.
End ps2.

(** ** Example chips *)

(** Both chips on one board, each of which takes two polls for a byte. *)
Record chips := mkChips { ch_uart : uart; ch_ps2 : ps2 }.
Definition uart_view (c : chips) : uart :=
  let u := ch_uart c in mkUart (u_dlab u) (u_loop u) (u_rx u) (u_busy u `min` 2) (u_line u).
Definition ps2_view (c : chips) : ps2 :=
  let u := ch_ps2 c in mkPs2 (u8 (p_cmd u)) (p_next u) (p_reply u) (p_aux u) (p_mouse u) (p_wait u `min` 2).
Definition uart_step (port v : Z) (u : uart) : uart :=
  if port =? COM1 then
    if u_dlab u then u else if u_loop u then mkUart false true v (u_busy u) (u_line u) else mkUart false false (u_rx u) 2 (u_line u ++ [v])
  else if port =? COM1 + 3 then mkUart (Z.testbit v 7) (u_loop u) (u_rx u) (u_busy u) (u_line u)
  else if port =? COM1 + 4 then mkUart (u_dlab u) (Z.testbit v 4) (u_rx u) (u_busy u) (u_line u)
  else u.
#[global] Instance chips_ports : Ports chips := {
  inb port c :=
    let u := uart_view c in let p := ps2_view c in
    if port =? COM1 then (u_rx u, c)
    else if port =? COM1 + 5 then
      (if (u_busy u =? 0)%nat then 32 else 0, mkChips (mkUart (u_dlab u) (u_loop u) (u_rx u) (pred (u_busy u)) (u_line u)) (ch_ps2 c))
    else if port =? PS2STATUS_PORT then
      (if (p_wait p =? 0)%nat then (if bool_decide (p_reply p = []) then 0 else 1) else 2, mkChips (ch_uart c) (set_wait (pred (p_wait p)) p))
    else if port =? PS2DATA_PORT then
      match p_reply p with
      | b :: l => (b, mkChips (ch_uart c) (mkPs2 (p_cmd p) (p_next p) l (p_aux p) (p_mouse p) (p_wait p)))
      | [] => (0, c)
      end
    else (0, c);
  outb port v c :=
    if (COM1 <=? port) && (port <? COM1 + 8) then mkChips (uart_step port v (uart_view c)) (ch_ps2 c)
    else mkChips (ch_uart c) (set_wait 2 (ps2_out port v (ps2_view c)));
  mmio_rd _ c := (0, c);
  mmio_wr _ _ c := c;
  tsc_rd c := (0, c);
}.

Lemma chips_status c : uart_view (snd (inb (COM1 + 5) c)) = mkUart (u_dlab (uart_view c)) (u_loop (uart_view c)) (u_rx (uart_view c)) (pred (u_busy (uart_view c))) (u_line (uart_view c)).
Proof. cbn [inb chips_ports]. change (COM1 + 5 =? COM1) with false. rewrite Z.eqb_refl. unfold uart_view. cbn [snd ch_uart u_dlab u_loop u_rx u_busy u_line]. f_equal. lia. Qed.
#[global] Instance chips_uart : Uart chips 2.
Proof.
  refine {| uart_of := uart_view |}.
  - intros c. apply Nat.le_min_r.
  - intros port v c Hp. unfold uart_out. cbn [outb chips_ports].
    replace ((COM1 <=? port) && (port <? COM1 + 8)) with true by lia. set (u := uart_view c).
    assert (Hb : (u_busy u `min` 2)%nat = u_busy u) by (unfold u, uart_view; cbn [u_busy]; lia). unfold uart_step. destruct (port =? COM1).
    + destruct u as [[] [] r n l]; unfold uart_view; cbn [u_dlab u_loop u_rx u_busy u_line ch_uart] in *; rewrite ?Hb; [done..|]. intros ->. by exists 2%nat.
    + destruct (port =? COM1 + 3), (port =? COM1 + 4); destruct u; unfold uart_view; cbn [u_dlab u_loop u_rx u_busy u_line ch_uart] in *; by rewrite Hb.
  - intros c Hd Hl. done.
  - intros c. split; [|apply chips_status]. cbn. by destruct (u_busy (ch_uart c)).
Defined.
#[global] Instance chips_ps2_inst : Ps2 chips 2.
Proof.
  refine {| ps2_of := ps2_view |}.
  - intros c. cbn. unfold u8. lia.
  - intros c. apply Nat.le_min_r.
  - intros port v c Hp Hv Hw. cbn [outb chips_ports]. set (u := ps2_view c) in *.
    assert (Hu : u8 (p_cmd u) = p_cmd u) by (unfold u, ps2_view, u8; cbn [p_cmd]; lia). assert (Hv' : u8 v = v) by (unfold u8; lia). clearbody u.
    destruct u as [cmd nx rp aux ms w]. cbn [p_wait p_cmd] in *. subst w.
    destruct Hp as [-> | ->]; unfold ps2_out; cbn.
    + destruct (v =? 32), (v =? 96), (v =? 212), (v =? 168); cbn; unfold set_wait, ps2_view; cbn; by rewrite Hu.
    + destruct nx; unfold set_wait, ps2_view; cbn; by rewrite ?Hu, ?Hv'.
  - intros c. cbn [inb chips_ports]. set (u := ps2_view c) in *.
    assert (Hu : u8 (p_cmd u) = p_cmd u) by (unfold u, ps2_view, u8; cbn [p_cmd]; lia). assert (Hw : (p_wait u <= 2)%nat) by apply Nat.le_min_r. clearbody u.
    cbv zeta. change (PS2STATUS_PORT =? COM1) with false. change (PS2STATUS_PORT =? COM1 + 5) with false. rewrite Z.eqb_refl. cbn [fst snd]. destruct u as [cmd nx rp aux ms w]. cbn [p_wait p_cmd p_reply] in *. split_and!.
    + destruct w; cbn; [|done]. by case_bool_decide.
    + destruct w; cbn; [|done]. by case_bool_decide.
    + unfold set_wait, ps2_view. cbn [ch_ps2 p_cmd p_next p_reply p_aux p_mouse p_wait]. rewrite Hu. f_equal. lia.
  - intros c b l Hr. cbn [inb chips_ports]. set (u := ps2_view c) in *.
    assert (Hu : u8 (p_cmd u) = p_cmd u) by (unfold u, ps2_view, u8; cbn [p_cmd]; lia). assert (Hw : (p_wait u <= 2)%nat) by apply Nat.le_min_r. clearbody u.
    cbv zeta. change (PS2DATA_PORT =? COM1) with false. change (PS2DATA_PORT =? COM1 + 5) with false.
    change (PS2DATA_PORT =? PS2STATUS_PORT) with false. rewrite Z.eqb_refl, Hr. cbn [fst snd]. split; [done|]. unfold ps2_view. cbn [ch_ps2 p_cmd p_next p_reply p_aux p_mouse p_wait]. rewrite Hu. f_equal. lia.
Defined.

Definition board0 : board chips := mkBoard (mkChips (mkUart true true 0 1 []) (mkPs2 0x30 ToKeyboard [] false [] 1)) tables0 0 0 0.
Lemma serial_line_correct_witness :
  wp (r <- init_serial ;; serial_print (Datatypes.S 2) ([79; 75; 10] ++ 0 :: [55]) ;; ret r)
    (fun r b' => r = 0 /\ u_line (uart_of (b_dev b')) = u_line (uart_of (b_dev board0)) ++ [79; 75; 10]) board0.
Proof. apply (serial_line_correct (latency := 2) board0 [79; 75; 10] [55]). repeat constructor. Defined.
Lemma ps2_init_correct_witness :
  wp (init_keyboard (Datatypes.S 2) 100 ;; init_mouse (Datatypes.S 2) 200) (fun _ b' =>
    (forall n, 0 <= n < 8 -> Z.testbit (p_cmd (ps2_of (b_dev b'))) n =
      (n =? 0) || (n =? 1) || (n =? 6) || (negb (n =? 4) && negb (n =? 5) && Z.testbit (p_cmd (ps2_of (b_dev board0))) n)) /\
    p_aux (ps2_of (b_dev b')) = true /\ p_mouse (ps2_of (b_dev b')) = p_mouse (ps2_of (b_dev board0)) ++ [0xF6; 0xF4] /\ p_reply (ps2_of (b_dev b')) = [] /\
    irq_handlers (b_tables b') = <[12%nat := 200]> (<[1%nat := 100]> (irq_handlers (b_tables board0)))) board0.
Proof. exact (ps2_init_correct (latency := 2) board0 100 200 eq_refl eq_refl). Defined.
