(* ===== verification/Interrupt.v ===== *)
(** * Interrupts and exceptions (idt.c, usercopy.c)

    [isr_handler] over the whole kernel: copy-on-write faults, faults inside a copy
    from or to user memory, faults of user programs, kernel panics, and the dispatch
    of the devices' interrupts. *)

From Stdlib Require Import Ascii String.
From S2P Require Import Prelude Mem FrameAlloc Pmm Vmm PageTable AddressSpace CloneSpace DestroySpace UserMem Proc Queues Mlfq Wait Pipe Keyboard Mouse Heap Vfs.
From S2P Require Import ProcRing Kernel Switch Process Schedule Syscall Tables Devices Files.

(** The bytes of a string constant, with its NUL. *)
Fixpoint chars (s : string) : list Z :=
  match s with
  | EmptyString => [0]
  | String c s' => Z.of_N (N_of_ascii c) :: chars s'
  end.

(** The fields of [struct interrupt_frame] the handler reads. *)
Record interrupt_frame := mkIframe { int_no : Z; err_code : Z; i_rip : Z; i_cs : Z; i_rflags : Z }.

Definition PF_ERR_WRITE : Z := 2.
Definition exception_messages : list string :=
  ["Division By Zero"; "Debug"; "Non-Maskable Interrupt"; "Breakpoint"; "Overflow"; "Bound Range Exceeded"; "Invalid Opcode";
   "Device Not Available"; "Double Fault"; "Coprocessor Segment Overrun"; "Invalid TSS"; "Segment Not Present";
   "Stack-Segment Fault"; "General Protection Fault"; "Page Fault"; "Reserved"; "x87 Floating-Point Exception";
   "Alignment Check"; "Machine Check"; "SIMD Floating-Point Exception"; "Virtualization Exception";
   "Control Protection Exception"; "Reserved"; "Reserved"; "Reserved"; "Reserved"; "Reserved"; "Reserved";
   "Hypervisor Injection Exception"; "VMM Communication Exception"; "Security Exception"; "Reserved"]%string.

(** Where the processor goes on: where it was interrupted, or on the stack of another
    process ([Resume]); behind the [usercopy_save_context] of the copy in flight
    ([Recover]); nowhere ([Halt]). *)
Inductive outcome := Resume (c : cpu) | Recover | Halt.

(** [user_copy_in_flight] is the variable of usercopy.c. *)
Record isys (S H D : Type) := mkIsys { i_k : kernel S H; i_b : board D; user_copy_in_flight : bool }.
Arguments mkIsys {S H D}. Arguments i_k {S H D}. Arguments i_b {S H D}. Arguments user_copy_in_flight {S H D}.

Section interrupt.
Context {S H D : Type} `{FrameOps S} `{HeapOps H} `{Ports D} (hhdm_offset : Z) (polls : nat).
(** The addresses of the handlers that the drivers install. *)
Context (irq0 irq1 irq12 : Z).
Abbreviation I := (M (isys S H D)).

Definition on_k {A} (c : M (kernel S H) A) : I A := fun s =>
  match c (i_k s) with Some (a, k) => Some (a, mkIsys k (i_b s) (user_copy_in_flight s)) | None => None end.
Definition on_b {A} (c : M (board D) A) : I A := fun s =>
  match c (i_b s) with Some (a, b) => Some (a, mkIsys (i_k s) b (user_copy_in_flight s)) | None => None end.
Definition set_in_flight (v : bool) : I unit := modify (fun s => mkIsys (i_k s) (i_b s) v).
Definition say (m : string) : I unit := on_b (serial_print polls (chars m)).
Definition say_hex (v : Z) : I unit := on_b (serial_print_hex polls v).
Definition say_exception (n : Z) : I unit := m <- lift (arr_get exception_messages n) ;; say m.

(** [true] when the processor has left for the copy in flight. *)
Definition usercopy_recover_or_return : I bool :=
  f <- gets user_copy_in_flight ;;
  if f : bool then set_in_flight false ;; ret true else ret false.

(** The last part of the handling of an exception. *)
Definition panic (f : interrupt_frame) (cr2 cur : Z) : I outcome :=
  say ("
 KERNEL PANIC **
") ;;
  say "EXCEPTION:" ;;
  say_exception (int_no f) ;;
  say ("
RIP: ") ;;
  say_hex (i_rip f) ;;
  say "  CS: " ;;
  say_hex (i_cs f) ;;
  say ("
err_code: ") ;;
  say_hex (err_code f) ;;
  say ("
RFLAGS: ") ;;
  say_hex (i_rflags f) ;;
  (if int_no f =? 14 then
     say ("
CR2 (fault addr): ") ;;
     say_hex cr2
   else ret tt) ;;
  say ("
current_process: ") ;;
  say_hex cur ;;
  (if cur =? 0 then ret tt else
     say "  pid: " ;;
     pid <- on_k (pread p_pid cur) ;;
     say_hex pid) ;;
  say ("
") ;;
  ret Halt.

Definition run_irq (h : Z) (c : cpu) : I cpu :=
  if h =? irq0 then on_k (on_irq0 hhdm_offset c)
  else if h =? irq1 then v <- on_b (in_portb PS2DATA_PORT) ;; on_k (on_kbd (on_irq1 v)) ;; ret c
  else if h =? irq12 then v <- on_b (in_portb PS2DATA_PORT) ;; on_k (on_mouse (on_irq12 v)) ;; ret c
  else undef.

(** [cr2]: the address of a page fault; [c]: the processor inside the handler. *)
Definition isr_handler (f : interrupt_frame) (cr2 : Z) (c : cpu) : I outcome :=
  cur <- on_k get_current ;;
  resolved <- (if (int_no f =? 14) && negb (Z.land (err_code f) PF_ERR_WRITE =? 0) && negb (cur =? 0) then
      cr3 <- on_k (pread p_cr3 cur) ;;
      on_k (on_vm (vmm_handle_cow_fault hhdm_offset (p2v hhdm_offset cr3) cr2))
    else ret false) ;;
  if resolved : bool then ret (Resume c) else
  recovered <- (if (int_no f =? 14) || (int_no f =? 13) then usercopy_recover_or_return else ret false) ;;
  if recovered : bool then ret Recover else
  if int_no f <? 32 then
    let from_userland := negb (cur =? 0) && (Z.land (i_cs f) 3 =? 3) in
    switched <- (if from_userland then
        say ("
[Fault] Killing user process due to exception: ") ;;
        say_exception (int_no f) ;;
        say ("
") ;;
        on_k (quit (-1)) ;;
        on_k (schedule_locked hhdm_offset (cli c))
      else ret None) ;;
    match switched with
    | Some c' => ret (Resume c')
    | None => panic f cr2 cur
    end
  else
    let irq := s32 (int_no f) - 32 in
    on_b lapic_eoi ;;
    h <- (if (0 <=? irq) && (irq <? IRQ_COUNT) then
        t <- gets (fun s => irq_handlers (b_tables (i_b s))) ;; lift (arr_get t irq)
      else ret 0) ;;
    if h =? 0 then ret (Resume c) else
    c' <- run_irq h c ;;
    ret (Resume c').
End interrupt.

(** ** Ending a process *)

Section ending.
Context {S H : Type} `{FO : FrameOps S, FA : !FrameAlloc S} `{HO : HeapOps H, HP : !Heap H} (hh : Z).
Implicit Types (k : kernel S H) (W : gmap Z (list Z * list Z)).

Lemma base_field {A} (f : process -> A) k k' a : (forall r, f (base r) = f r) ->
  base <$> procs (k_sched k') !! a = base <$> procs (k_sched k) !! a ->
  f <$> procs (k_sched k') !! a = f <$> procs (k_sched k) !! a.
Proof.
  intros Hf E. destruct (procs (k_sched k) !! a) as [r|], (procs (k_sched k') !! a) as [r'|]; cbn in *; try done.
  apply (inj Some) in E. by rewrite <- (Hf r'), E, Hf.
Qed.

(** Whoever waits on a pipe is a process of the ring other than the idle process. *)
Definition waiters_in W (s : sched) (l : list Z) : Prop := forall a, waits W a -> a ∈ l /\ a <> idle_process s.

Lemma woke_sched_ok W ls k W' ls' k' l :
  sched_ok (k_sched k) l ls -> mlfq_wf (k_sched k') ls' -> woke W ls k W' ls' k' -> waiters_in W (k_sched k) l ->
  sched_ok (k_sched k') l ls'.
Proof.
  intros [H1 H2 H3 H4 H5 H6 H7] Hm [W1 W2 W3 _ W4 W5] Hw. destruct (only_queues_fields _ _ W5) as (Eq & Ec & Ei & _).
  assert (E : links_same (procs (k_sched k)) (procs (k_sched k'))).
  { unfold links_same. apply map_eq. intros c. rewrite !lookup_fmap. by apply base_field. }
  split.
  - rewrite W5. by eapply links_same_ring.
  - done.
  - by eapply links_same_prio.
  - apply Forall_forall. intros q Hq a Ha. destruct (W1 q a Hq Ha) as [Hwa|(q0 & Hq0 & Ha0)]; [by apply Hw|].
    rewrite Forall_forall in H4. by apply (H4 q0).
  - by rewrite Ec.
  - by rewrite Ei.
  - rewrite Ei, W3; [done|]. intros Hwa. by apply Hw in Hwa as [_ ?].
Qed.

(** The process that executes: it is in no ready list and waits for nothing. *)
Record executing k W (ls : list (list Z)) (r : process) : Prop := {
  ex_proc : procs (k_sched k) !! current_process (k_sched k) = Some r;
  ex_idle : current_process (k_sched k) <> idle_process (k_sched k);
  ex_null : current_process (k_sched k) <> 0;
  ex_ready : forall q, q ∈ ls -> current_process (k_sched k) ∉ q;
  ex_waits : ~ waits W (current_process (k_sched k));
}.

(** What [quit] leaves: the ring and the queues are well formed, the process is dead
    with its exit code and its descriptors closed and is in no queue, and no other process
    has died. *)
Record ended k l (code : Z) k' (ls' : list (list Z)) : Prop := {
  en_table : exists r r', procs (k_sched k) !! current_process (k_sched k) = Some r /\ procs (k_sched k') !! current_process (k_sched k) = Some r' /\
    fd_table r' = closed_fd <$> fd_table r;
  en_tables : forall a, a <> current_process (k_sched k) -> fd_table <$> procs (k_sched k') !! a = fd_table <$> procs (k_sched k) !! a;
  en_ok : sched_ok (k_sched k') l ls';
  en_dead : exists r', procs (k_sched k') !! current_process (k_sched k) = Some r' /\ p_state r' = PROCESS_DEAD /\ exit_code r' = code;
  en_out : forall q, q ∈ ls' -> current_process (k_sched k) ∉ q;
  en_current : current_process (k_sched k') = current_process (k_sched k);
  en_idle : idle_process (k_sched k') = idle_process (k_sched k);
  en_vm : k_vm k' = k_vm k;
  en_others : forall a, a <> current_process (k_sched k) -> base <$> procs (k_sched k') !! a = base <$> procs (k_sched k) !! a;
  en_alive : forall a, a <> current_process (k_sched k) -> state_of (procs (k_sched k')) a = Some PROCESS_DEAD -> state_of (procs (k_sched k)) a = Some PROCESS_DEAD;
}.

Lemma sched_ok_alter s l ls g p : sched_ok s l ls -> p <> idle_process s -> (forall q, q ∈ ls -> p ∉ q) ->
  (forall r, queue_next (g r) = queue_next r /\ queue_prev (g r) = queue_prev r /\ plinks (g r) = plinks r) ->
  sched_ok (set_procs (alter g p (procs s)) s) l ls.
Proof.
  intros [H1 H2 H3 H4 H5 H6 H7] Hp Hq Hg.
  assert (E : links_same (procs s) (alter g p (procs s))).
  { unfold links_same. apply map_eq. intros c. rewrite !lookup_fmap. apply alter_field. apply Hg. }
  split; try done.
  - by eapply links_same_ring.
  - apply mlfq_wf_unqueued; [|done|done]. intros r. split; apply Hg.
  - by eapply links_same_prio.
  - cbn. unfold state_of in *. by rewrite lookup_alter_ne.
Qed.

Lemma wp_quit code k l ls W r :
  sched_ok (k_sched k) l ls -> files_inv (named k) k W ls -> waiters_in W (k_sched k) l -> executing k W ls r ->
  wp (quit code) (fun _ k' => exists ls', ended k l code k' ls' /\ k_fb_owner k' <> Some (p_pid r)) k.
Proof.
  intros Hok Hf Hw [Hr Hi H0 Hq Hn]. unfold quit, get_current. do 3 wp_step.
  eapply wp_mono; [by apply (wp_release_fds_inv 0 (fun _ => false) k _ r W ls)|]. intros [] k1 [(Hk & W1 & ls1 & Hf1 & Hwo) Hcl]. destruct (closed_below_all (fun _ => false) _ k k1 r Hcl Hr (fi_tables _ _ _ _ Hf _ r Hr)) as (rt & Hrt & Et).
  destruct Hcl as [Hcl _]. set (cur := current_process (k_sched k)) in *.
  pose proof (woke_sched_ok _ _ _ _ _ _ l Hok (fi_mlfq _ _ _ _ Hf1) Hwo Hw) as Hok1. destruct Hwo as [V1 V2 V3 V6 V4 V5].
  destruct (only_queues_fields _ _ V5) as (_ & Ec & Ei & _).
  assert (Hq1 : forall q, q ∈ ls1 -> cur ∉ q) by (intros q Hq1 Hc; destruct (V1 q cur Hq1 Hc) as [?|(q0 & Hq0 & Hc0)]; [done|by apply (Hq q0)]).
  pose proof (base_field p_pid k k1 cur ltac:(done) (V4 cur)) as Ep. rewrite Hr in Ep.
  destruct (procs (k_sched k1) !! cur) as [r1|] eqn:Hr1; [|done]. injection Ep as Ep. wp_step. eapply wp_pread; [exact Hr1|]. cbv beta.
  unfold fbmap_release_owner. do 2 wp_step. rewrite Ep. set (k2 := if bool_decide (k_fb_owner k1 = Some (p_pid r)) then set_k_fb_owner None k1 else k1).
  assert (E2 : k_sched k2 = k_sched k1 /\ k_vm k2 = k_vm k1 /\ k_fb_owner k2 <> Some (p_pid r)).
  { unfold k2. case_bool_decide; done. }
  clearbody k2. destruct E2 as (Es & Ev & Ef). wp_step.
  eapply wp_pwrite; [by rewrite Es|]. cbv beta. eapply wp_pwrite; [cbn; by rewrite Es, lookup_alter_eq, Hr1|].
  exists ls1. split; [|done].
  assert (Hg : forall g s, sched_ok s l ls1 -> idle_process s = idle_process (k_sched k1) ->
    (forall r, queue_next (g r) = queue_next r /\ queue_prev (g r) = queue_prev r /\ plinks (g r) = plinks r) -> sched_ok (set_procs (alter g cur (procs s)) s) l ls1).
  { intros g s Hs Es' Hg. apply sched_ok_alter; try done. by rewrite Es', Ei. }
  split; cbn [k_sched set_k_sched k_vm procs set_procs current_process idle_process]; rewrite ?Es; try done.
  - rewrite !lookup_alter_eq, Hr1. exists r. eexists. split; [done|]. split; [reflexivity|]. injection Hrt as <-. exact Et.
  - intros a Ha. rewrite !lookup_alter_ne by done. by apply Hcl.
  - pose proof (Hg (set_exit_code code) (k_sched k1) Hok1 eq_refl ltac:(done)) as Hs1.
    pose proof (Hg (set_p_state PROCESS_DEAD) _ Hs1 eq_refl ltac:(done)) as Hs2. cbn [procs set_procs] in Hs2. exact Hs2.
  - rewrite !lookup_alter_eq, Hr1. by eexists.
  - rewrite Ev. apply Hk.
  - intros a Ha. by rewrite !lookup_alter_ne.
  - intros a Ha. unfold state_of. rewrite !lookup_alter_ne by done. apply V6.
Qed.
End ending.

(** ** Messages *)

(** A string constant without NUL. *)
Fixpoint plain (m : string) : bool :=
  match m with EmptyString => true | String c m' => negb (Z.of_N (N_of_ascii c) =? 0) && plain m' end.
Lemma chars_plain m : plain m = true -> exists c, chars m = c ++ [0] /\ Forall (fun x => 0 < x < 256) c.
Proof.
  induction m as [|a m IH]; cbn [plain chars]; [by exists []|]. intros [Ha Hm]%andb_true_iff. destruct (IH Hm) as (c & -> & Hc).
  exists (Z.of_N (N_of_ascii a) :: c). split; [done|]. apply Forall_cons. split; [|done]. pose proof (N_ascii_bounded a). case_bools.
Qed.
Lemma hex_digit_range v i : 0 < hex_digit v i < 256.
Proof.
  unfold hex_digit. cbv zeta. assert (E : Z.land (Z.shiftr v ((15 - i) * 4)) 0xF = Z.shiftr v ((15 - i) * 4) mod 16) by (change 0xF with (Z.ones 4); by rewrite Z.land_ones by lia).
  rewrite E. case_bools.
Qed.

Section handler.
Context {S H D : Type} `{FO : FrameOps S, FA : !FrameAlloc S} `{HO : HeapOps H, HP : !Heap H} `{U : Uart D latency} (hh : Z) (Hhh : hhdm_ok hh).
Context (irq0 irq1 irq12 : Z).
Implicit Types (s : isys S H D).
Abbreviation polls := (Datatypes.S latency).

(** The port is switched off, or initialised and working. *)
Definition serial_ok (b : board D) : Prop := serial_ready b = 0 \/ serial_up b.
(** What printing leaves alone. *)
Definition printed s s' : Prop :=
  i_k s' = i_k s /\ user_copy_in_flight s' = user_copy_in_flight s /\ serial_ok (i_b s') /\ b_tables (i_b s') = b_tables (i_b s).
Lemma printed_trans s s1 s2 : printed s s1 -> printed s1 s2 -> printed s s2.
Proof. intros (A1 & A2 & A3 & A4) (B1 & B2 & B3 & B4). split_and!; congruence || done. Qed.

Lemma wp_serial_off c rest b : serial_ready b = 0 -> Forall (fun x => 0 < x < 256) c -> wp (serial_print polls (c ++ 0 :: rest)) (fun _ b' => b' = b) b.
Proof.
  intros Hb. induction c as [|x c IH]; intros Hc; cbn [serial_print app]; [by rewrite Z.eqb_refl; wp_step|].
  apply Forall_cons in Hc as [Hx Hc]. case_bools. wp_step. unfold serial_putchar. wp_steps. rewrite Hb. cbn. wp_steps. by apply IH.
Qed.
Lemma wp_print c s : serial_ok (i_b s) -> Forall (fun x => 0 < x < 256) c -> wp (on_b (serial_print polls (c ++ [0]))) (fun _ => printed s) s.
Proof.
  intros Hs Hc. assert (Hw : wp (serial_print polls (c ++ [0])) (fun _ b' => serial_ok b' /\ b_tables b' = b_tables (i_b s)) (i_b s)).
  { destruct Hs as [Hoff|Hup].
    - eapply wp_mono; [by apply wp_serial_off|]. intros ? b' ->. split; [by left|done].
    - eapply wp_mono; [by apply wp_serial_print|]. intros ? b' (Hb & _ & Ht). split; [by right|done]. }
  unfold on_b, wp in *. destruct (serial_print _ _ _) as [[[] b']|]; [|done]. by destruct Hw.
Qed.
Lemma wp_say m s : serial_ok (i_b s) -> plain m = true -> wp (say polls m) (fun _ => printed s) s.
Proof. intros Hs Hm. unfold say. destruct (chars_plain m Hm) as (c & -> & Hc). by apply wp_print. Qed.
Lemma wp_say_hex v s : serial_ok (i_b s) -> wp (say_hex polls v) (fun _ => printed s) s.
Proof.
  intros Hs. unfold say_hex, serial_print_hex. rewrite app_assoc. apply wp_print; [done|]. repeat (apply Forall_cons; split; [lia|]).
  apply Forall_fmap, Forall_forall. intros i _. apply hex_digit_range.
Qed.
Lemma wp_say_exception n s : serial_ok (i_b s) -> 0 <= n < 32 -> wp (say_exception polls n) (fun _ => printed s) s.
Proof.
  intros Hs Hn. unfold say_exception. destruct (arr_get_Some exception_messages n) as [m Hm]; [cbn; lia|]. wp_step.
  eapply wp_lift; [exact Hm|]. apply wp_say; [done|].
  assert (Hall : forallb plain exception_messages = true) by (vm_compute; reflexivity). rewrite forallb_forall in Hall. apply Hall.
  unfold arr_get in Hm. destruct (0 <=? n); [|done]. apply list_elem_of_In. by eapply list_elem_of_lookup_2.
Qed.

Lemma wp_on_k {A} (c : M (kernel S H) A) (Q : A -> isys S H D -> Prop) s :
  wp c (fun a k => Q a (mkIsys k (i_b s) (user_copy_in_flight s))) (i_k s) -> wp (on_k c) Q s.
Proof. unfold wp, on_k. by destruct (c (i_k s)) as [[? ?]|]. Qed.

(** What the handler relies on at the faulting address: in the user half the process has
    a well-formed address space in which copy-on-write pages are counted, and behind the
    other addresses the walk finds no entry that is marked copy-on-write. *)
Definition fault_ok (k : kernel S H) (r : process) (cr2 : Z) : Prop :=
  let root := p2v hh (p_cr3 r) in
  (user_va cr2 -> exists T, as_wf hh (k_vm k) root T /\
    forall e, mapping hh (k_vm k) root cr2 = Some e -> has PTE_COW e = true -> exists n, owned (k_vm k) T e n) /\
  (~ user_va cr2 -> forall e, mapping hh (k_vm k) root cr2 = Some e -> has PTE_COW e = false).
(** A write to a page that is marked copy-on-write. *)
Definition cow_fault (k : kernel S H) (r : process) (f : interrupt_frame) (cr2 : Z) : Prop :=
  int_no f = 14 /\ Z.land (err_code f) PF_ERR_WRITE <> 0 /\ current_process (k_sched k) <> 0 /\
  exists e, mapping hh (k_vm k) (p2v hh (p_cr3 r)) cr2 = Some e /\ has PTE_COW e = true.
(** The fault is resolved: the page is the process's own and writable, with the contents
    it had, and nothing else changes but the table that maps it and the counts. *)
Definition resolved s (r : process) (cr2 : Z) s' : Prop :=
  exists v T e n fp, s' = mkIsys (set_k_vm v (i_k s)) (i_b s) (user_copy_in_flight s) /\
    as_wf hh (k_vm (i_k s)) (p2v hh (p_cr3 r)) T /\ as_wf hh v (p2v hh (p_cr3 r)) T /\
    mapping hh (k_vm (i_k s)) (p2v hh (p_cr3 r)) cr2 = Some e /\ frames (vm_pa (k_vm (i_k s))) (pte_addr e) = Some n /\
    cow_resolved hh (k_vm (i_k s)) (p2v hh (p_cr3 r)) T cr2 e n v fp /\
    forall va, user_va va -> va / 4096 <> cr2 / 4096 -> mapping hh v (p2v hh (p_cr3 r)) va = mapping hh (k_vm (i_k s)) (p2v hh (p_cr3 r)) va.

(** A fault outside the user half is never resolved. *)
Lemma wp_cow_kernel_half v root va : (forall e, mapping hh v root va = Some e -> has PTE_COW e = false) ->
  wp (vmm_handle_cow_fault hh root va) (fun b v' => b = false /\ v' = v) v.
Proof.
  intros Hm. unfold vmm_handle_cow_fault, cow_leaf, pt_load. unfold mapping in Hm. cbv zeta in *.
  do 3 (wp_steps; destruct (present _); cbn [negb] in *; [|by wp_steps]).
  wp_steps. destruct (present _); cbn [negb orb]; [|by wp_steps]. rewrite (Hm _ eq_refl). by wp_steps.
Qed.

(** The first test of the handler: the fault is resolved, or left to what follows. *)
Lemma wp_resolve s f cr2 r (Q : bool -> isys S H D -> Prop) :
  (current_process (k_sched (i_k s)) <> 0 -> procs (k_sched (i_k s)) !! current_process (k_sched (i_k s)) = Some r) ->
  (int_no f = 14 -> current_process (k_sched (i_k s)) <> 0 -> fault_ok (i_k s) r cr2) ->
  (forall s', cow_fault (i_k s) r f cr2 -> resolved s r cr2 s' -> Q true s') ->
  (forall v, vm_mem v = vm_mem (k_vm (i_k s)) -> (cow_fault (i_k s) r f cr2 -> exhausted (k_vm (i_k s))) ->
    Q false (mkIsys (set_k_vm v (i_k s)) (i_b s) (user_copy_in_flight s))) ->
  wp (if (int_no f =? 14) && negb (Z.land (err_code f) PF_ERR_WRITE =? 0) && negb (current_process (k_sched (i_k s)) =? 0) then
      cr3 <- on_k (pread p_cr3 (current_process (k_sched (i_k s)))) ;;
      on_k (on_vm (vmm_handle_cow_fault hh (p2v hh cr3) cr2))
    else ret false) Q s.
Proof.
  intros Hr Hc HT HF. destruct (_ && _ && _) eqn:E.
  - apply andb_true_iff in E as [[En%Z.eqb_eq Ew%negb_true_iff%Z.eqb_neq]%andb_true_iff Ez%negb_true_iff%Z.eqb_neq].
    destruct (Hc En Ez) as [Huser Hkern]. wp_step. apply wp_on_k. eapply wp_pread; [by apply Hr|]. apply wp_on_k, wp_on_vm.
    assert (Es : mkIsys (i_k s) (i_b s) (user_copy_in_flight s) = s) by (by destruct s). cbv beta. rewrite Es. cbn [i_k].
    destruct (decide (user_va cr2)) as [Hva|Hva].
    + destruct (Huser Hva) as (T & Hwf & Hown). eapply wp_mono; [by apply (wp_vmm_handle_cow_fault hh Hhh _ _ T)|]. intros [] v (Hwf' & Hoth & Hb).
      * destruct Hb as (e & n & fp & He & Hce & Hn & Hres). apply HT; [split_and!; try done; by exists e|].
        exists v, T, e, n, fp. by split_and!.
      * destruct Hb as (Em & _ & Hex). apply HF; [done|]. intros (_ & _ & _ & e & He & Hce). intros q. by apply (Hex e).
    + specialize (Hkern Hva). eapply wp_mono; [by apply wp_cow_kernel_half|]. intros b v [-> ->]. apply HF; [done|].
      intros (_ & _ & _ & e & He & Hce). by rewrite (Hkern e He) in Hce.
  - wp_step. assert (Ek : s = mkIsys (set_k_vm (k_vm (i_k s)) (i_k s)) (i_b s) (user_copy_in_flight s)) by (by destruct s as [[] ? ?]).
    rewrite Ek. apply HF; [done|]. intros (En & Ew & Ez & _). exfalso. revert E.
    rewrite (proj2 (Z.eqb_eq _ _) En), (proj2 (Z.eqb_neq _ _) Ew), (proj2 (Z.eqb_neq _ _) Ez). done.
Qed.

(** A kernel in which the process [r] executes on the stack of [c], and every other
    process of the ring waits on its own stack for [switch_task] to continue it. *)
Record healthy (k : kernel S H) (c : cpu) l ls W (r : process) : Prop := {
  he_sched : sched_ok (k_sched k) l ls;
  he_files : files_inv (named k) k W ls;
  he_waiters : waiters_in W (k_sched k) l;
  he_orphans : no_orphans (k_sched k) l;
  he_exec : executing k W ls r;
  he_stack : 56 <= cpu_rsp c < 18446744073709551608;
  he_regs : regs_ok (cpu_regs (cli c));
  he_others : forall a ra, a ∈ l -> a <> current_process (k_sched k) -> procs (k_sched k) !! a = Some ra ->
    exists regs ret, suspended (vm_mem (k_vm k)) c ra regs ret;
}.
(** A process but for its state, its saved stack pointer and its links in the ready and
    wait queues. *)
Definition steady (r : process) : process := set_p_rsp 0 (core r).

Lemma steady_keeps : switch_keeps steady.
Proof. split_and!; intros; match goal with r : process |- _ => destruct r end; vm_compute; reflexivity. Qed.
Lemma table_keeps : switch_keeps fd_table.
Proof. split_and!; intros; match goal with r : process |- _ => destruct r end; vm_compute; reflexivity. Qed.
Lemma steady_base (x y : option process) : base <$> x = base <$> y -> fd_table <$> x = fd_table <$> y -> steady <$> x = steady <$> y.
Proof.
  assert (E : forall r, steady r = set_p_rsp 0 (set_fd_table (fd_table r) (base r))) by (intros r; destruct r; vm_compute; reflexivity).
  destruct x as [x|], y as [y|]; try done. cbn. intros E1 E2. apply (inj Some) in E1, E2. by rewrite !E, E1, E2.
Qed.

(** Another process takes over from one that has ended. *)
Lemma wp_schedule_ended k k1 c l ls ls1 W r code :
  healthy k c l ls W r -> ended k l code k1 ls1 ->
  wp (schedule_locked hh (cli c)) (fun o k' => exists ls' next rn regs ret r',
    next <> current_process (k_sched k) /\ procs (k_sched k) !! next = Some rn /\
    words_at (vm_mem (k_vm k)) (p_rsp rn) (frame_words regs ret) /\ o = Some (mkCpu regs (p_rsp rn + 64) ret) /\
    current_process (k_sched k') = next /\ k_cr3 k' = p_cr3 rn /\ sched_ok (k_sched k') l ls' /\
    procs (k_sched k') !! current_process (k_sched k) = Some r' /\ p_state r' = PROCESS_DEAD /\ exit_code r' = code /\ fd_table r' = closed_fd <$> fd_table r /\
    k_fb_owner k' = k_fb_owner k1 /\
    forall a, a <> current_process (k_sched k) -> steady <$> procs (k_sched k') !! a = steady <$> procs (k_sched k) !! a) k1.
Proof.
  intros [G1 G2 G3 G4 G5 G6 G7 G8] [(r0 & r1' & Hr0 & Hr1' & Et) Ets E1 (r1 & Hr1 & Hd1 & Hx1) E3 E4 E5 E6 E7 E8]. set (cur := current_process (k_sched k)) in *.
  pose proof G5 as [Hr Hi Hz _ _]. fold cur in Hr, Hi, Hz. rewrite Hr in Hr0. injection Hr0 as <-. rewrite Hr1 in Hr1'. injection Hr1' as <-.
  assert (Hst : state_of (procs (k_sched k1)) cur = Some PROCESS_DEAD) by (unfold state_of; rewrite Hr1; cbn; by rewrite Hd1).
  assert (Hnext : next_proc (k_sched k1) l ls1 <> cur).
  { apply out_next; [|by rewrite E5]. apply out_lists; [by rewrite Hst|by rewrite Hst|done]. }
  set (next := next_proc (k_sched k1) l ls1) in *.
  assert (Hin : next ∈ l).
  { unfold next, next_proc. cbv zeta. destruct (pick (ready_lists (k_sched k1) l ls1)) as [p ls'] eqn:Ep.
    destruct (pick_member l _ p ls' (ready_lists_member _ _ _ E1) Ep) as [_ Hp]. cbn [fst]. destruct (Z.eqb_spec p 0); [apply E1|by apply Hp]. }
  destruct (ring_member _ _ _ (so_ring _ _ _ E1) Hin) as (_ & rn1 & Hrn1).
  pose proof (E7 next Hnext) as Eb. rewrite Hrn1 in Eb. destruct (procs (k_sched k) !! next) as [rn|] eqn:Hrn; [|done]. cbn in Eb. apply (inj Some) in Eb.
  assert (Ersp : p_rsp rn1 = p_rsp rn) by exact (f_equal p_rsp Eb). assert (Ecr3 : p_cr3 rn1 = p_cr3 rn) by exact (f_equal p_cr3 Eb).
  destruct (G8 next rn Hin Hnext Hrn) as (regs & ret & Hsus).
  assert (Hno : no_orphans (k_sched k1) l).
  { intros a ra Ha Hra Hne Hdead. rewrite E4 in Hne. pose proof (E7 a Hne) as Ea. rewrite Hra in Ea. destruct (procs (k_sched k) !! a) as [ra0|] eqn:Hra0; [|done].
    cbn in Ea. apply (inj Some) in Ea. assert (Epar : parent ra = parent ra0) by exact (f_equal parent Ea). rewrite Epar. apply (G4 a ra0); try done.
    specialize (E8 a Hne). unfold state_of in E8. rewrite Hra, Hra0 in E8. cbn in E8. rewrite Hdead in E8. by injection (E8 eq_refl). }
  eapply wp_mono; [apply (wp_schedule_locked hh k1 l ls1 (cli c) rn1 regs ret)|].
  1-6: try done; by rewrite E4.
  - intros _. destruct Hsus as (S1 & S2 & S3). unfold suspended. rewrite Ersp, E6. done.
  - intros o k' (Q1 & Q2 & Q3 & Q4 & Q5 & Q6). fold next in Q2, Q4, Q6. rewrite E4 in Q6. destruct (Z.eqb_spec next cur) as [|_]; [done|].
    destruct Q6 as (-> & Qc & _). pose proof (Q4 cur Hst ltac:(done)) as Hst'. unfold state_of in Hst'.
    destruct (procs (k_sched k') !! cur) as [r'|] eqn:Hr'; [|done]. injection Hst' as Hst'.
    pose proof (Q3 _ exit_code ltac:(done) cur) as Hx. rewrite Hr', Hr1 in Hx. injection Hx as Hx.
    pose proof (Q3 _ fd_table table_keeps cur) as Ht. rewrite Hr', Hr1 in Ht. apply (inj Some) in Ht. rewrite Et in Ht.
    exists (snd (pick (ready_lists (k_sched k1) l ls1))), next, rn, regs, ret, r'. rewrite Qc, Ersp, Ecr3, Hx.
    split_and!; try done; [apply Hsus|]. intros a Ha. rewrite (Q3 _ steady steady_keeps a).
    apply steady_base; [by apply E7|by apply Ets].
Qed.

Lemma healthy_vm k v c l ls W r : healthy k c l ls W r -> vm_mem v = vm_mem (k_vm k) -> healthy (set_k_vm v k) c l ls W r.
Proof.
  intros [G1 G2 G3 G4 [X1 X2 X3 X4 X5] G6 G7 G8] Hv. split; try done; [by apply inv_set_vm|]. cbn [k_vm set_k_vm k_sched]. rewrite Hv. exact G8.
Qed.

(** The process that executes is dead with exit code -1, its descriptors closed and the
    frame buffer released; another process of the ring, or the idle process, continues
    exactly where it gave up the processor, in its address space; no other process is
    changed but for waiters on its pipes becoming ready; the ring and the ready queues
    are well formed. *)
Definition killed s l (r : process) (o : outcome) s' : Prop :=
  let cur := current_process (k_sched (i_k s)) in
  exists ls' next rn regs ret r',
    next <> cur /\ procs (k_sched (i_k s)) !! next = Some rn /\
    words_at (vm_mem (k_vm (i_k s))) (p_rsp rn) (frame_words regs ret) /\ o = Resume (mkCpu regs (p_rsp rn + 64) ret) /\
    current_process (k_sched (i_k s')) = next /\ k_cr3 (i_k s') = p_cr3 rn /\ sched_ok (k_sched (i_k s')) l ls' /\
    procs (k_sched (i_k s')) !! cur = Some r' /\ p_state r' = PROCESS_DEAD /\ exit_code r' = -1 /\ fd_table r' = closed_fd <$> fd_table r /\
    k_fb_owner (i_k s') <> Some (p_pid r) /\
    forall a, a <> cur -> steady <$> procs (k_sched (i_k s')) !! a = steady <$> procs (k_sched (i_k s)) !! a.

(** C10: an exception raised by user code is either a write to a copy-on-write page that
    the handler resolves, and the program goes on; or it ends the process that raised it
    and nothing else, as [killed] says, and the kernel does not halt.  The second happens
    to a write to a copy-on-write page only when no page is free. *)
Theorem user_fault_kills_process s f cr2 c l ls W r :
  healthy (i_k s) c l ls W r -> serial_ok (i_b s) -> user_copy_in_flight s = false ->
  0 <= int_no f < 32 -> Z.land (i_cs f) 3 = 3 -> (int_no f = 14 -> fault_ok (i_k s) r cr2) ->
  wp (isr_handler hh polls irq0 irq1 irq12 f cr2 c) (fun o s' =>
    (cow_fault (i_k s) r f cr2 /\ o = Resume c /\ resolved s r cr2 s') \/
    ((cow_fault (i_k s) r f cr2 -> exhausted (k_vm (i_k s))) /\ killed s l r o s')) s.
Proof.
  intros Hh Hser Hfl Hn Hcs Hok. pose proof (he_exec _ _ _ _ _ _ Hh) as [Hr Hi Hz _ _]. unfold isr_handler.
  wp_step. apply wp_on_k. unfold get_current. do 2 wp_step. destruct s as [k b fl]. cbn [i_k i_b user_copy_in_flight] in *. subst fl.
  apply (wp_resolve (mkIsys k b false) f cr2 r); [exact (fun _ => Hr)|exact (fun E _ => Hok E)|intros s1 Hc Hs1; wp_step; left; by split_and!|]. intros v Hv Hex. cbv iota beta. cbn [i_k i_b user_copy_in_flight] in *.
  assert (Hrec : forall Q : bool -> isys S H D -> Prop, Q false (mkIsys (set_k_vm v k) b false) ->
    wp (if (int_no f =? 14) || (int_no f =? 13) then usercopy_recover_or_return else ret false) Q (mkIsys (set_k_vm v k) b false)).
  { intros Q HQ. destruct (_ || _); [|by wp_step]. unfold usercopy_recover_or_return. wp_steps. exact HQ. }
  wp_step. apply Hrec. cbv iota beta. destruct (Z.ltb_spec (int_no f) 32) as [_|?]; [|lia]. cbv zeta.
  destruct (Z.eqb_spec (current_process (k_sched k)) 0) as [|_]; [done|]. rewrite Hcs. cbn [negb andb Z.eqb Pos.eqb]. do 2 wp_step.
  eapply wp_mono; [apply wp_say; [exact Hser|vm_compute; reflexivity]|]. intros ? s2 P2. cbv beta. wp_step.
  eapply wp_mono; [apply wp_say_exception; [apply P2|done]|]. intros ? s3 P3. cbv beta. wp_step.
  eapply wp_mono; [apply wp_say; [apply P3|vm_compute; reflexivity]|]. intros ? s4 P4. cbv beta.
  pose proof (printed_trans _ _ _ (printed_trans _ _ _ P2 P3) P4) as (Ek & _ & _ & _). cbn [i_k] in Ek. clear P2 P3 P4. wp_step. apply wp_on_k. rewrite Ek.
  pose proof (healthy_vm k v c l ls W r Hh Hv) as Hh'.
  eapply wp_mono; [apply (wp_quit (-1) (set_k_vm v k) l ls W r); apply Hh'|]. intros ? k1 (ls1 & He & Hfb). cbv beta. apply wp_on_k. cbn [i_k].
  eapply wp_mono; [apply (wp_schedule_ended _ _ c l ls ls1 W r (-1) Hh' He)|].
  intros o k' (ls' & next & rn & regs & ret & r' & Q1 & Q2 & Q3 & -> & Q5 & Q6 & Q7 & Q8 & Q9 & Q10 & Qt & Q11 & Q12). cbv beta iota. wp_step.
  right. split; [exact Hex|]. exists ls', next, rn, regs, ret, r'. cbn [k_sched k_vm set_k_vm i_k] in *. rewrite Hv in Q3. rewrite Q11. split_and!; done.
Qed.

Lemma wp_panic f cr2 cur s r : serial_ok (i_b s) -> 0 <= int_no f < 32 -> (cur <> 0 -> procs (k_sched (i_k s)) !! cur = Some r) ->
  wp (panic polls f cr2 cur) (fun o s' => o = Halt /\ printed s s') s.
Proof.
  intros Hs Hn Hr. unfold panic. set (Q := fun o s' => o = Halt /\ printed s s').
  assert (Hseq : forall (c : M (isys S H D) unit) (k : M (isys S H D) outcome) s0, printed s s0 ->
    (forall s1, printed s s1 -> wp c (fun _ => printed s1) s1) -> (forall s1, printed s s1 -> wp k Q s1) -> wp (c ;; k) Q s0).
  { intros c k s0 Hp0 Hc Hk. wp_step. eapply wp_mono; [by apply Hc|]. intros ? s1 Hp1. apply Hk. exact (printed_trans _ _ _ Hp0 Hp1). }
  assert (Hsay : forall m s1, plain m = true -> printed s s1 -> wp (say polls m) (fun _ => printed s1) s1) by (intros m s1 Hm Hs1; apply wp_say; [apply Hs1|done]).
  assert (Hhex : forall v s1, printed s s1 -> wp (say_hex polls v) (fun _ => printed s1) s1) by (intros v s1 Hs1; apply wp_say_hex, Hs1).
  assert (Hp : printed s s) by done. revert Hp. generalize s at 2 3. intros s0 Hp0.
  do 11 (apply Hseq; [done|intros s1 Hp1; first [by apply Hsay|by apply Hhex|apply wp_say_exception; [apply Hp1|done]]|clear s0 Hp0; intros s0 Hp0]).
  apply Hseq; [done| |clear s0 Hp0; intros s0 Hp0].
  { intros s1 Hp1. destruct (_ =? 14); [|wp_step; repeat split; apply Hp1]. wp_step. eapply wp_mono; [by apply Hsay|].
    intros ? s2 Hp2. eapply wp_mono; [apply Hhex; exact (printed_trans _ _ _ Hp1 Hp2)|]. intros ? s3 Hp3. exact (printed_trans _ _ _ Hp2 Hp3). }
  do 2 (apply Hseq; [done|intros s1 Hp1; first [by apply Hsay|by apply Hhex]|clear s0 Hp0; intros s0 Hp0]).
  apply Hseq; [done| |clear s0 Hp0; intros s0 Hp0].
  { intros s1 Hp1. destruct (Z.eqb_spec cur 0) as [|Hc]; [wp_step; repeat split; apply Hp1|]. wp_step. eapply wp_mono; [by apply Hsay|].
    intros ? s2 Hp2. cbv beta. wp_step. apply wp_on_k. eapply wp_pread.
    { destruct Hp1 as [E1 _], Hp2 as [E2 _]. rewrite E2, E1. by apply Hr. }
    eapply wp_mono; [apply Hhex|]. { apply (printed_trans _ _ _ Hp1). destruct s2. exact Hp2. }
    intros ? s3 Hp3. apply (printed_trans _ _ _ Hp2). destruct s2. exact Hp3. }
  apply Hseq; [done|intros s1 Hp1; by apply Hsay|]. intros s1 Hp1. by wp_step.
Qed.

(** C31: an exception in kernel mode is either a write to a copy-on-write page of the
    current process, as a copy to user memory may cause, that the handler resolves, and
    the kernel goes on; or it touches no process and no memory.  Then a page or protection
    fault inside a copy from or to user memory sends the processor back into the copy,
    which reports the failure, and the copy is no longer in flight; every other one stops
    the machine after the report on the serial port. *)
Theorem kernel_fault_contained s f cr2 c r :
  (current_process (k_sched (i_k s)) <> 0 -> procs (k_sched (i_k s)) !! current_process (k_sched (i_k s)) = Some r) ->
  serial_ok (i_b s) -> 0 <= int_no f < 32 -> Z.land (i_cs f) 3 <> 3 ->
  (int_no f = 14 -> current_process (k_sched (i_k s)) <> 0 -> fault_ok (i_k s) r cr2) ->
  wp (isr_handler hh polls irq0 irq1 irq12 f cr2 c) (fun o s' =>
    (cow_fault (i_k s) r f cr2 /\ o = Resume c /\ resolved s r cr2 s') \/
    ((cow_fault (i_k s) r f cr2 -> exhausted (k_vm (i_k s))) /\
     let copying := ((int_no f =? 14) || (int_no f =? 13)) && user_copy_in_flight s in
     o = (if copying then Recover else Halt) /\ user_copy_in_flight s' = user_copy_in_flight s && negb copying /\
     exists v, i_k s' = set_k_vm v (i_k s) /\ vm_mem v = vm_mem (k_vm (i_k s)))) s.
Proof.
  intros Hr Hser Hn Hcs Hok. unfold isr_handler. wp_step. apply wp_on_k. unfold get_current. do 2 wp_step.
  destruct s as [k b fl]. cbn [i_k i_b user_copy_in_flight] in *. set (cur := current_process (k_sched k)) in *.
  apply (wp_resolve (mkIsys k b fl) f cr2 r); [exact Hr|done|intros s1 Hc Hs1; wp_step; left; by split_and!|]. intros v Hv Hex. cbv iota beta. cbn [i_k i_b user_copy_in_flight] in *. wp_step.
  set (s1 := mkIsys (set_k_vm v k) b fl). set (copying := ((int_no f =? 14) || (int_no f =? 13)) && fl).
  assert (Hrec : wp (if (int_no f =? 14) || (int_no f =? 13) then usercopy_recover_or_return else ret false)
    (fun b' s' => b' = copying /\ s' = mkIsys (set_k_vm v k) b (fl && negb copying)) s1).
  { unfold copying. destruct (_ || _); cbn [andb]; [|wp_step; by rewrite andb_true_r]. unfold usercopy_recover_or_return, set_in_flight. do 2 wp_step.
    cbn [user_copy_in_flight s1]. destruct fl; by wp_steps. }
  eapply wp_mono; [exact Hrec|]. intros b' s2 [-> ->]. cbv beta. destruct copying eqn:Ec; [wp_step; right; split; [exact Hex|]; split; [done|]; split; [done|]; by exists v|].
  destruct (Z.ltb_spec (int_no f) 32) as [_|?]; [|lia]. cbv zeta. destruct (Z.eqb_spec (Z.land (i_cs f) 3) 3) as [|_]; [done|]. rewrite andb_false_r. do 2 wp_step.
  eapply wp_mono; [apply (wp_panic f cr2 cur _ r); [exact Hser|done|exact Hr]|]. intros o s3 (-> & E1 & E2 & _). cbn [i_k user_copy_in_flight] in *.
  right. split; [exact Hex|]. split; [done|]. rewrite E2. split; [done|]. exists v. by rewrite E1.
Qed.
End handler.

(** ** Examples *)

Lemma demo_healthy : healthy demo_files demo_cpu [1; 2; 3] (demo_lists true) ∅ (set_p_cr3 (fork_root - demo_hh) (ring_proc PROCESS_RUNNING 1 3 1)).
Proof.
  assert (Hw : forall a, ~ waits ∅ a) by (intros a (p & x & Hx & _); by apply lookup_empty_Some in Hx). split.
  - apply neutral_sched_ok; [done|]. apply (demo_ring_ok true).
  - apply demo_files_inv.
  - intros a Ha. by destruct (Hw a).
  - intros a r Ha Hr _ Hd. exfalso. repeat (apply elem_of_cons in Ha as [->|Ha]); [| | |by apply not_elem_of_nil in Ha];
      injection Hr as <-; revert Hd; vm_compute; discriminate.
  - split; [vm_compute; reflexivity|vm_compute; discriminate|vm_compute; discriminate| |apply Hw].
    intros q Hq Hc. repeat (apply elem_of_cons in Hq as [->|Hq]); [| | | |by apply not_elem_of_nil in Hq]; try (by apply not_elem_of_nil in Hc).
    apply list_elem_of_singleton in Hc. revert Hc. vm_compute. discriminate.
  - vm_compute. split; [discriminate|reflexivity].
  - unfold regs_ok, word. do 7 (constructor; [vm_compute; split; [discriminate|reflexivity]|]). constructor.
  - intros a ra Ha Hne Hra. exists (mkCallee 0 0 0 0 0 0 0), 0.
    repeat (apply elem_of_cons in Ha as [->|Ha]); [|by destruct Hne| |by apply not_elem_of_nil in Ha]; injection Hra as <-.
    + split; [vm_compute; split; [discriminate|reflexivity]|]. split; [|left; vm_compute; discriminate].
      intros i w Hi. do 8 (destruct i as [|i]; [injection Hi as <-; vm_compute; reflexivity|]). discriminate.
    + split; [vm_compute; split; [discriminate|reflexivity]|]. split; [|right; vm_compute; discriminate].
      intros i w Hi. do 8 (destruct i as [|i]; [injection Hi as <-; vm_compute; reflexivity|]). discriminate.
Qed.
#[local] Opaque demo_files.
Definition demo_isys : isys pmm bump chips := mkIsys demo_files board0 false.

Lemma user_fault_kills_process_witness :
  wp (isr_handler demo_hh 3 100 200 300 (mkIframe 13 0 0x400000 0x23 0x202) 0 demo_cpu) (fun o s' => exists ls r',
    sched_ok (k_sched (i_k s')) [1; 2; 3] ls /\ procs (k_sched (i_k s')) !! current_process (k_sched demo_files) = Some r' /\
    p_state r' = PROCESS_DEAD /\ exit_code r' = -1) demo_isys.
Proof.
  eapply wp_mono; [apply (user_fault_kills_process (latency := 2) demo_hh demo_hh_ok 100 200 300 demo_isys (mkIframe 13 0 0x400000 0x23 0x202) 0 demo_cpu
    [1; 2; 3] (demo_lists true) ∅ _ demo_healthy)|].
  - left. reflexivity.
  - reflexivity.
  - split; [discriminate|reflexivity].
  - reflexivity.
  - discriminate.
  - intros o s' [[[[=] _] _]|[_ (ls' & next & rn & regs & ret & r' & _ & _ & _ & _ & _ & _ & Hok & Hr & Hd & Hx & _)]]. exists ls', r'. split_and!; [exact Hok|exact Hr|exact Hd|exact Hx].
Defined.
Lemma kernel_fault_contained_witness :
  wp (isr_handler demo_hh 3 100 200 300 (mkIframe 13 0 0xFFFFFFFF80000000 0x08 0x2) 0 demo_cpu) (fun o s' => o = Recover /\ user_copy_in_flight s' = false)
    (mkIsys demo_files board0 true).
Proof.
  eapply wp_mono; [apply (kernel_fault_contained (latency := 2) demo_hh demo_hh_ok 100 200 300 (mkIsys demo_files board0 true) (mkIframe 13 0 0xFFFFFFFF80000000 0x08 0x2) 0 demo_cpu
    (set_p_cr3 (fork_root - demo_hh) (ring_proc PROCESS_RUNNING 1 3 1)))|].
  - intros _. apply (ex_proc _ _ _ _ (he_exec _ _ _ _ _ _ demo_healthy)).
  - left. reflexivity.
  - split; [discriminate|reflexivity].
  - discriminate.
  - discriminate.
  - intros o s' [[[[=] _] _]|(_ & Ho & Hf & _)]. split; [exact Ho|exact Hf].
Defined.
