(* ===== verification/Unistd.v ===== *)
(** * System calls from a program (libc/unistd.c, libc/stdlib/exit.c)

    The wrappers of the C library put the arguments of a call into registers, execute
    [syscall] and turn the value left in rax into the convention of C: -1 and [errno].
    They are defined over any operating system ([Os]); the kernel's dispatcher is one.
    The operands of the assembly that are 32 bits wide define the low half of their
    register; what the whole register holds is a parameter [reg]. *)

From S2P Require Import Prelude Mem CString FrameAlloc Pmm Vmm PageTable AddressSpace CloneSpace Elf Switch Tty UserMem.
From S2P Require Import Proc Queues Mlfq Wait Pipe Heap Vfs Keyboard Mouse ProcRing Kernel Process Syscall Files.

(** The registers a system call reads. *)
Record regs := mkRegs { c_rax : Z; c_rdi : Z; c_rsi : Z; c_rdx : Z; c_r10 : Z; c_r8 : Z; c_r9 : Z }.

(** What executing [syscall] does, and the value it leaves in rax. *)
Class Os (S : Type) := os_call : regs -> M S Z.

(** A program: the system under it and its variable [errno]. *)
Record user (S : Type) := mkUser { u_os : S; errno : Z }.
Arguments mkUser {S}. Arguments u_os {S}. Arguments errno {S}.

Definition MAP_FAILED : Z := 18446744073709551615.

(** ** The wrappers *)

Section wrappers.
Context {S : Type} `{Os S}.
(** What the registers hold that a wrapper does not set, and the register of an operand
    of type [int] or [uint32_t]. *)
Context (g : regs) (reg : Z -> Z).
Abbreviation U := (M (user S)).

Definition set_errno (e : Z) : U unit := modify (fun u => mkUser (u_os u) e).
Definition trap (r : regs) : U Z := fun u =>
  match os_call r (u_os u) with Some (v, s) => Some (s64 v, mkUser s (errno u)) | None => None end.
Definition syscall0 (n : Z) : U Z := trap (mkRegs n (c_rdi g) (c_rsi g) (c_rdx g) (c_r10 g) (c_r8 g) (c_r9 g)).
Definition syscall1 (n a : Z) : U Z := trap (mkRegs n a (c_rsi g) (c_rdx g) (c_r10 g) (c_r8 g) (c_r9 g)).
Definition syscall2 (n a b : Z) : U Z := trap (mkRegs n a b (c_rdx g) (c_r10 g) (c_r8 g) (c_r9 g)).
Definition syscall3 (n a b c : Z) : U Z := trap (mkRegs n a b c (c_r10 g) (c_r8 g) (c_r9 g)).

Definition syscall_ret (r : Z) : U Z :=
  if (r <? 0) && (-4096 <? r) then set_errno (s32 (- r)) ;; ret (-1) else ret r.
Definition int_ret (r : Z) : U Z := r <- syscall_ret r ;; ret (s32 r).

Definition open (path : Z) : U Z := r <- syscall1 SYS_open path ;; int_ret r.
Definition read (fd buf count : Z) : U Z := r <- syscall3 SYS_read (reg fd) buf count ;; syscall_ret r.
Definition write (fd buf count : Z) : U Z := r <- syscall3 SYS_write (reg fd) buf count ;; syscall_ret r.
Definition close (fd : Z) : U Z := r <- syscall1 SYS_close (reg fd) ;; int_ret r.
Definition pipe (fds : Z) : U Z := r <- syscall1 SYS_pipe fds ;; int_ret r.
Definition dup (oldfd : Z) : U Z := r <- syscall1 SYS_dup (reg oldfd) ;; int_ret r.
Definition dup2 (oldfd newfd : Z) : U Z := r <- syscall2 SYS_dup2 (reg oldfd) (reg newfd) ;; int_ret r.
Definition fork : U Z := r <- syscall0 SYS_fork ;; int_ret r.
Definition clone (flags stack : Z) : U Z := r <- syscall2 SYS_clone flags stack ;; int_ret r.
Definition execve (path argv : Z) : U Z := r <- syscall2 SYS_execve path argv ;; int_ret r.
Definition wait (pid status : Z) : U Z := r <- syscall2 SYS_wait (reg pid) status ;; int_ret r.
Definition brk (addr : Z) : U Z := r <- syscall1 SYS_brk addr ;; ret (u64 r).
Definition listdir (path buf size : Z) : U Z := r <- syscall3 SYS_readdir path buf size ;; syscall_ret r.
Definition mmap (addr length prot flags fd offset : Z) : U Z :=
  r <- trap (mkRegs SYS_mmap (reg 0) length (reg prot) (u64 flags) (u64 fd) (u64 offset)) ;;
  r <- syscall_ret r ;;
  ret (if r <? 0 then MAP_FAILED else r).
Definition munmap (addr length : Z) : U Z := r <- syscall2 SYS_munmap addr length ;; int_ret r.
Definition mouse_read (buf max_packets nonblock : Z) : U Z :=
  r <- syscall3 SYS_mouse_read buf (reg max_packets) (reg nonblock) ;; int_ret r.
Definition get_tsc_hz : U Z := r <- syscall0 SYS_get_tsc_hz ;; r <- syscall_ret r ;; ret (u64 r).
Definition sleep_ms (ms : Z) : U Z := r <- syscall1 SYS_sleep_ms (reg ms) ;; int_ret r.
Definition fbmap (info : Z) : U Z :=
  r <- syscall1 SYS_fbmap info ;;
  r <- syscall_ret r ;;
  ret (if r <? 0 then MAP_FAILED else r).
(** [exit] does not return. *)
Definition exit (status : Z) : U unit := syscall1 SYS_exit (u64 status) ;; undef.

Definition sbrk (increment : Z) : U Z :=
  old_brk <- brk 0 ;;
  if increment =? 0 then ret old_brk
  else if increment <? 0 then ret (u64 (-1))
  else
    new_brk <- brk (u64 (old_brk + increment)) ;;
    ret (if negb (new_brk =? u64 (old_brk + increment)) then u64 (-1) else old_brk).

(** [inr n]: the thread has ended with [exit(n)]. *)
Definition thread_create (fn : Z -> U Z) (stack stack_size arg : Z) : U (Z + Z) :=
  let top := Z.land (u64 (stack + stack_size)) (Z.lnot 0xF) in
  pid <- clone CLONE_VM top ;;
  if pid =? 0 then n <- fn arg ;; ret (inr n) else ret (inl pid).
End wrappers.

(** ** The calls as data *)

Inductive libcall :=
  | Lopen (path : Z) | Lread (fd buf count : Z) | Lwrite (fd buf count : Z) | Lclose (fd : Z)
  | Lpipe (fds : Z) | Ldup (oldfd : Z) | Ldup2 (oldfd newfd : Z)
  | Lfork | Lclone (flags stack : Z) | Lexecve (path argv : Z) | Lwait (pid status : Z) | Lbrk (addr : Z)
  | Llistdir (path buf size : Z) | Lmmap (addr length prot flags fd offset : Z) | Lmunmap (addr length : Z)
  | Lmouse_read (buf max_packets nonblock : Z) | Lget_tsc_hz | Lsleep_ms (ms : Z) | Lfbmap (info : Z).

Definition run_libcall {S} `{Os S} (g : regs) (reg : Z -> Z) (c : libcall) : M (user S) Z :=
  match c with
  | Lopen p => open g p
  | Lread fd b n => read g reg fd b n
  | Lwrite fd b n => write g reg fd b n
  | Lclose fd => close g reg fd
  | Lpipe p => pipe g p
  | Ldup fd => dup g reg fd
  | Ldup2 a b => dup2 g reg a b
  | Lfork => fork g
  | Lclone fl st => clone g fl st
  | Lexecve p a => execve g p a
  | Lwait pid st => wait g reg pid st
  | Lbrk a => brk g a
  | Llistdir p b n => listdir g p b n
  | Lmmap a l pr fl fd off => mmap reg a l pr fl fd off
  | Lmunmap a l => munmap g a l
  | Lmouse_read b n nb => mouse_read g reg b n nb
  | Lget_tsc_hz => get_tsc_hz g
  | Lsleep_ms ms => sleep_ms g reg ms
  | Lfbmap p => fbmap g p
  end.

Definition int (x : Z) : Prop := -2147483648 <= x < 2147483648.
(** The arguments have their C types. *)
Definition typed_call (c : libcall) : Prop :=
  match c with
  | Lread fd _ _ | Lwrite fd _ _ | Lclose fd | Ldup fd => int fd
  | Ldup2 a b => int a /\ int b
  | Lwait pid _ => int pid
  | Lmmap _ _ pr fl fd _ => int pr /\ int fl /\ int fd
  | Lmouse_read _ n nb => int n /\ int nb
  | Lsleep_ms ms => 0 <= ms < 4294967296
  | _ => True
  end.
(** A compiler loads a 32-bit operand with zeros or with copies of its sign above it. *)
Definition extends (reg : Z -> Z) : Prop :=
  forall x, -2147483648 <= x < 4294967296 -> reg x = u64 x \/ reg x = u32 x.

(** What a wrapper returns for the value [v] of the kernel when that is no error: the
    value, in the type of the wrapper. *)
Definition result (c : libcall) (v : Z) : Z :=
  match c with
  | Lread _ _ _ | Lwrite _ _ _ | Llistdir _ _ _ => s64 v
  | Lmmap _ _ _ _ _ _ | Lfbmap _ => if v <? 9223372036854775808 then v else MAP_FAILED
  | Lget_tsc_hz | Lbrk _ => v
  | _ => s32 v
  end.
Definition failure (c : libcall) : Z :=
  match c with Lmmap _ _ _ _ _ _ | Lfbmap _ | Lget_tsc_hz => MAP_FAILED | _ => -1 end.
(** The result of a wrapper and [errno] after it, given [errno] before it and the value
    the kernel left in rax: the last 4095 values are negated error numbers, which all
    wrappers but [brk] look for. *)
Definition outcome (c : libcall) (v e : Z) : Z * Z :=
  match c with
  | Lbrk _ => (result c v, e)
  | _ => if 18446744073709551616 - 4096 <? v then (failure c, 18446744073709551616 - v) else (result c v, e)
  end.

(** ** The kernel *)

Section kernel.
Context {S H : Type} `{FO : FrameOps S} `{HO : HeapOps H} (hhdm_offset : Z) (code : stubs) (kmapped : Z -> bool) (fb : framebuffer) (tsc_hz : Z).
Abbreviation K := (M (kernel S H)).
(** What happens from the moment a call blocks until it returns with a value; the
    registers of the caller that no argument is passed in. *)
Context (blocked : call -> K Z) (rest : syscall_frame) (g : regs) (reg : Z -> Z).

Definition frame_of (r : regs) : syscall_frame :=
  mkFrame (c_rax r) (c_r9 r) (c_r8 r) (c_r10 r) (c_rdx r) (c_rsi r) (c_rdi r) (f_user_rsp rest) (f_user_rflags rest) (f_user_rip rest)
    (f_r15 rest) (f_r14 rest) (f_r13 rest) (f_r12 rest) (f_rbp rest) (f_rbx rest).
Definition finish (r : sysres) : K Z :=
  match r with Ret v => ret v | Block c => blocked c | Enter _ _ | Exit => undef end.
#[local] Instance kernel_os : Os (kernel S H) := fun r =>
  x <- syscall_handler_c hhdm_offset code kmapped fb tsc_hz (frame_of r) ;; finish x.

(** The number the kernel is asked to wait for: the one given, or, for a negative one,
    which stands for any child, what its register reads as. *)
Definition waited (pid : Z) : Z := if 0 <=? pid then pid else s64 (reg pid).
(** The operation of the kernel that a call stands for, on the values of C. *)
Definition kernel_op (c : libcall) : K sysres :=
  match c with
  | Lopen p => sys_open hhdm_offset kmapped p (c_rsi g)
  | Lread fd b n => sys_read hhdm_offset kmapped (u64 fd) b n
  | Lwrite fd b n => sys_write hhdm_offset kmapped (u64 fd) b n
  | Lclose fd => sys_close (u64 fd)
  | Lpipe p => sys_pipe hhdm_offset kmapped p
  | Ldup fd => sys_dup (u64 fd)
  | Ldup2 a b => sys_dup2 (u64 a) (u64 b)
  | Lfork => sys_fork hhdm_offset code (frame_of (mkRegs SYS_fork (c_rdi g) (c_rsi g) (c_rdx g) (c_r10 g) (c_r8 g) (c_r9 g)))
  | Lclone fl st => sys_clone hhdm_offset code (frame_of (mkRegs SYS_clone fl st (c_rdx g) (c_r10 g) (c_r8 g) (c_r9 g)))
  | Lexecve p a => sys_execve hhdm_offset kmapped p a
  | Lwait pid st => resume hhdm_offset kmapped (CWait (waited pid) st)
  | Lbrk a => sys_brk hhdm_offset a
  | Llistdir p b n => sys_readdir hhdm_offset kmapped p b n
  | Lmmap _ l pr fl fd _ => sys_mmap hhdm_offset l (u64 pr) (u64 fl) (u64 fd)
  | Lmunmap a l => sys_munmap hhdm_offset a l
  | Lmouse_read b n nb => resume hhdm_offset kmapped (CMouse b n (negb (nb =? 0)))
  | Lget_tsc_hz => ret (Ret tsc_hz)
  | Lsleep_ms ms => sys_sleep_ms hhdm_offset kmapped ms
  | Lfbmap p => sys_fbmap hhdm_offset kmapped fb p
  end.

Hypothesis Hreg : extends reg.
Lemma int_signed x : int x -> s32 (reg x) = x /\ s32 (u64 x) = x.
Proof. unfold int. intros Hx. destruct (Hreg x) as [->| ->]; [lia|..]; unfold s32, u32, u64; split; cbv zeta; case_bools; lia. Qed.
(** The two ways to put an [int] into a register differ only for negative values, and
    then neither is a descriptor. *)
Lemma int_fd x : int x -> reg x = u64 x \/ (32 <= reg x /\ 32 <= u64 x).
Proof. unfold int. intros Hx. destruct (Hreg x) as [->| ->]; [lia|by left|]. unfold u32, u64. lia. Qed.

Lemma sys_read_int fd b n : int fd -> sys_read hhdm_offset kmapped (reg fd) b n = sys_read (S := S) (H := H) hhdm_offset kmapped (u64 fd) b n.
Proof. intros [->|[H1 H2]]%int_fd; [done|]. unfold sys_read, MAX_FDS. by repeat (case_bool; try lia). Qed.
Lemma sys_write_int fd b n : int fd -> sys_write hhdm_offset kmapped (reg fd) b n = sys_write (S := S) (H := H) hhdm_offset kmapped (u64 fd) b n.
Proof. intros [->|[H1 H2]]%int_fd; [done|]. unfold sys_write, MAX_FDS. by repeat (case_bool; try lia). Qed.
Lemma sys_close_int fd : int fd -> sys_close (reg fd) = sys_close (S := S) (H := H) (u64 fd).
Proof. intros [->|[H1 H2]]%int_fd; [done|]. unfold sys_close, MAX_FDS. by repeat (case_bool; try lia). Qed.
Lemma sys_dup_int fd : int fd -> sys_dup (reg fd) = sys_dup (S := S) (H := H) (u64 fd).
Proof. intros [E1 E2]%int_signed. unfold sys_dup. by rewrite E1, E2. Qed.
Lemma sys_dup2_int a b : int a -> int b -> sys_dup2 (reg a) (reg b) = sys_dup2 (S := S) (H := H) (u64 a) (u64 b).
Proof. intros [E1 E2]%int_signed [E3 E4]%int_signed. unfold sys_dup2. by rewrite E1, E2, E3, E4. Qed.
Lemma sys_mmap_int l pr fl fd : int pr -> sys_mmap hhdm_offset l (reg pr) fl fd = sys_mmap (S := S) (H := H) hhdm_offset l (u64 pr) fl fd.
Proof. intros [E1 E2]%int_signed. unfold sys_mmap. by rewrite E1, E2. Qed.
Lemma sys_sleep_int ms : 0 <= ms < 4294967296 -> sys_sleep_ms hhdm_offset kmapped (reg ms) = sys_sleep_ms (S := S) (H := H) hhdm_offset kmapped ms.
Proof.
  intros Hm. assert (E : reg ms = ms) by (destruct (Hreg ms) as [->| ->]; [lia|unfold u64; lia|unfold u32; lia]). by rewrite E.
Qed.
Lemma wait_int pid : int pid -> s64 (reg pid) = waited pid.
Proof.
  unfold waited, int. intros Hp. destruct (Z.leb_spec 0 pid); [|done].
  destruct (Hreg pid) as [->| ->]; [lia|..]; unfold s64, u64, u32; cbv zeta; case_bools; lia.
Qed.

(** The registers of a call reach the operation it stands for. *)
Definition translate (c : libcall) (r : Z) : M (user (kernel S H)) Z :=
  match c with
  | Lread _ _ _ | Lwrite _ _ _ | Llistdir _ _ _ => syscall_ret r
  | Lmmap _ _ _ _ _ _ | Lfbmap _ => r <- syscall_ret r ;; ret (if r <? 0 then MAP_FAILED else r)
  | Lget_tsc_hz => r <- syscall_ret r ;; ret (u64 r)
  | Lbrk _ => ret (u64 r)
  | _ => int_ret r
  end.
Definition answer (c : libcall) : K Z := x <- kernel_op c ;; finish x.
Definition through (op : K Z) : M (user (kernel S H)) Z := fun u =>
  match op (u_os u) with Some (v, k) => Some (s64 v, mkUser k (errno u)) | None => None end.

#[local] Opaque sys_read sys_write sys_open sys_close sys_pipe sys_dup sys_dup2 sys_fork sys_clone sys_execve sys_readdir
  sys_mmap sys_munmap sys_brk sys_sleep_ms sys_fbmap resume.
Lemma libcall_dispatch c : typed_call c -> run_libcall g reg c = (r <- through (answer c) ;; translate c r).
Proof.
  unfold answer. intros Hc. destruct c; cbn [typed_call kernel_op] in *.
  all: rewrite <- ?sys_read_int, <- ?sys_write_int, <- ?sys_close_int, <- ?sys_dup_int, <- ?sys_dup2_int, <- ?sys_mmap_int, <- ?sys_sleep_int by tauto.
  all: try reflexivity.
  - by rewrite <- wait_int.
  - destruct Hc as [[E1 _]%int_signed [E2 _]%int_signed]. by rewrite <- E1, <- E2 at 2.
Qed.

Lemma s64_back v : word v -> u64 (s64 v) = v.
Proof. unfold word, s64, u64. intros Hv. cbv zeta. case_bools; lia. Qed.
Lemma s32_s64 v : word v -> s32 (s64 v) = s32 v.
Proof. unfold word, s32, s64, u32, u64. intros Hv. cbv zeta. case_bools; lia. Qed.

Lemma syscall_ret_outcome (u : user (kernel S H)) v : word v ->
  syscall_ret (s64 v) u = if 18446744073709551616 - 4096 <? v then Some (-1, mkUser (u_os u) (18446744073709551616 - v)) else Some (s64 v, u).
Proof.
  unfold word, syscall_ret. intros Hv. assert (E : (s64 v <? 0) && (-4096 <? s64 v) = (18446744073709551616 - 4096 <? v)).
  { unfold s64, u64. cbv zeta. case_bools; lia || done. }
  rewrite E. destruct (Z.ltb_spec (18446744073709551616 - 4096) v); [|done].
  assert (Es : s64 v = v - 18446744073709551616) by (unfold s64, u64; cbv zeta; case_bools; lia).
  rewrite Es. replace (- (v - 18446744073709551616)) with (18446744073709551616 - v) by lia. by rewrite s32_small by lia.
Qed.
Lemma translate_outcome c v (u : user (kernel S H)) : word v ->
  translate c (s64 v) u = Some (fst (outcome c v (errno u)), mkUser (u_os u) (snd (outcome c v (errno u)))).
Proof.
  intros Hv. pose proof (syscall_ret_outcome u v Hv) as E. destruct u as [k e]. cbn [u_os errno] in *.
  destruct c; unfold translate, outcome, int_ret; unfold bind; rewrite ?E; cbn [result]; rewrite ?s64_back by done; try reflexivity.
  all: case_bool; cbn [failure fst snd]; rewrite ?s32_s64, ?s64_back by done; try reflexivity.
  all: unfold ret; do 2 f_equal; unfold word, s64, u64 in *; cbv zeta; case_bools; lia || done.
Qed.

(** C16: The wrappers and the dispatcher agree.  For every wrapper of the C library
    that makes one call and returns, with arguments of their C types in registers extended
    with zeros or with the sign, the kernel runs the operation the wrapper stands for on the
    values the program gave, except that a negative number to wait for is what its
    register reads as.  When the value of the kernel is one of the last 4095, a negated
    error number, the wrapper returns -1 (or [MAP_FAILED]) and [errno] is that number;
    otherwise it returns the value in its own type and [errno] is unchanged; [brk]
    always returns the value. *)
Theorem libcall_correct c k e v k' : typed_call c -> answer c k = Some (v, k') -> word v ->
  run_libcall g reg c (mkUser k e) = Some (fst (outcome c v e), mkUser k' (snd (outcome c v e))).
Proof.
  intros Hc Ha Hv. rewrite libcall_dispatch by done. unfold bind at 1. unfold through. cbn [u_os errno]. rewrite Ha.
  by apply (translate_outcome c v (mkUser k' e)).
Qed.

(** Where the compiler extends with zeros, a negative number of a process loses its sign:
    the kernel, for which a number that is not positive means any child, is asked for
    a process that does not exist. *)
Lemma wait_any_lost st : wait g u32 (-1) st = (r <- through (x <- resume hhdm_offset kmapped (CWait 4294967295 st) ;; finish x) ;; int_ret r).
Proof. reflexivity. Qed.
(** The status of [exit] arrives whole. *)
Lemma exit_status n : int n ->
  syscall_handler_c hhdm_offset code kmapped fb tsc_hz (frame_of (mkRegs SYS_exit (u64 n) (c_rsi g) (c_rdx g) (c_r10 g) (c_r8 g) (c_r9 g))) =
    (cur <- get_current ;; (if cur =? 0 then ret tt else quit n) ;; ret Exit).
Proof. intros [_ E]%int_signed. transitivity (sys_exit (S := S) (H := H) (u64 n)); [reflexivity|]. unfold sys_exit. by rewrite E. Qed.
End kernel.

(** The stack of a new thread starts inside its region, aligned as calls need it. *)
Lemma thread_stack_top stack size : 0 <= stack -> 16 <= size -> stack + size < 18446744073709551616 ->
  let top := Z.land (u64 (stack + size)) (Z.lnot 0xF) in stack < top <= stack + size /\ top mod 16 = 0.
Proof.
  intros H0 H1 H2. cbv zeta. rewrite u64_small by lia. set (x := stack + size).
  assert (E : Z.land x (Z.lnot 15) = x - x mod 16).
  { change 15 with (Z.ones 4). rewrite <- Z.ldiff_land, Z.ldiff_ones_r, Z.shiftl_mul_pow2, Z.shiftr_div_pow2 by lia. pose proof (Z.div_mod x 16). lia. }
  rewrite E. lia.
Qed.

(** ** A call on a concrete kernel *)

#[local] Opaque demo_files.
Definition demo_os : Os (kernel pmm bump) :=
  kernel_os demo_hh (mkStubs 1 2 3 4) (fun _ => false) (mkFb 0 0 0 0 0) 1000 (fun _ => undef) (mkFrame 0 0 0 0 0 0 0 0 0 0 0 0 0 0 0 0).
Lemma libcall_correct_witness :
  run_libcall (H := demo_os) (mkRegs 0 0 0 0 0 0 0) u32 (Lclose (-1)) (mkUser demo_files 0) = Some (-1, mkUser demo_files EBADF).
Proof.
  assert (Eo : outcome (Lclose (-1)) (u64 (- EBADF)) 0 = (-1, EBADF)) by reflexivity.
  assert (E : run_libcall (H := demo_os) (mkRegs 0 0 0 0 0 0 0) u32 (Lclose (-1)) (mkUser demo_files 0) =
    Some (fst (outcome (Lclose (-1)) (u64 (- EBADF)) 0), mkUser demo_files (snd (outcome (Lclose (-1)) (u64 (- EBADF)) 0)))).
  { refine (libcall_correct demo_hh (mkStubs 1 2 3 4) (fun _ => false) (mkFb 0 0 0 0 0) 1000 (fun _ => undef) (mkFrame 0 0 0 0 0 0 0 0 0 0 0 0 0 0 0 0)
      (mkRegs 0 0 0 0 0 0 0) u32 (fun x _ => or_intror eq_refl) (Lclose (-1)) demo_files 0 (u64 (- EBADF)) demo_files _ _ _).
    - split; [discriminate|reflexivity].
    - reflexivity.
    - split; [discriminate|reflexivity]. }
  rewrite Eo in E. exact E.
Defined.
