(* ===== verification/Userland.v ===== *)
(** * Programs (src/userland/)

    A program of src/userland/ is a tree of the calls it makes to the C library: each
    node is a call and what the program does with every answer.  [exec] says what all
    runs of a program satisfy, for answers that an environment allows: a class that
    each program instantiates with what it depends on. *)

From Stdlib Require Import Ascii String.
From S2P Require Import Prelude.

(** A line break. *)
Definition newline : list Z := [10].

(** The calls: what they are given by value, and their results with the bytes or the
    descriptors that the library stores for the caller.  [SReadInto] reads into memory
    that other processes share, and [SStore] is a store of a word there. *)
Inductive sysc : Type -> Type :=
  | SOpen (path : list Z) : sysc Z
  | SRead (fd n : Z) : sysc (Z * list Z)
  | SWrite (fd : Z) (b : list Z) : sysc Z
  | SPrint (b : list Z) : sysc unit
  | SClose (fd : Z) : sysc Z
  | SPipe : sysc (Z * (Z * Z))
  | SDup2 (oldfd newfd : Z) : sysc Z
  | SListdir (path : list Z) (n : Z) : sysc (Z * list Z)
  | SWait (pid : Z) : sysc Z
  | SReadInto (fd addr n : Z) : sysc Z
  | SStore (addr v : Z) : sysc unit
  | SFork : sysc Z
  | SExecve (path : list Z) (argv : list (list Z)) : sysc Z.

(** [Stop n] is [exit(n)]; [Crash] is undefined behaviour. *)
Inductive prog (A : Type) : Type :=
  | Done (a : A)
  | Ask {X : Type} (e : sysc X) (k : X -> prog A)
  | Stop (status : Z)
  | Crash.
Arguments Done {A}. Arguments Ask {A X}. Arguments Stop {A}. Arguments Crash {A}.

Fixpoint pbind {A B} (p : prog A) (f : A -> prog B) : prog B :=
  match p with
  | Done a => f a
  | Ask e k => Ask e (fun x => pbind (k x) f)
  | Stop n => Stop n
  | Crash => Crash
  end.
Definition ask {X} (e : sysc X) : prog X := Ask e Done.
Definition plift {A} (o : option A) : prog A := match o with Some a => Done a | None => Crash end.

Declare Scope prog_scope.
Delimit Scope prog_scope with prog.
Notation "'let*' x := p 'in' q" := (pbind p (fun x => q)) (at level 200, x pattern, p at level 100, q at level 200) : prog_scope.
Notation "p ;;; q" := (pbind p (fun _ => q)) (at level 100, q at level 200, right associativity) : prog_scope.

(** ** Runs *)

(** How a process ends: it exits or it becomes another program. *)
Inductive fate := Exited (n : Z) | Became (path : list Z) (argv : list (list Z)).
(** How a piece of a program ends. *)
Inductive ending (A : Type) := Returned (a : A) | Ended (f : fate).
Arguments Returned {A}. Arguments Ended {A}.

(** What a program sees of the system: the answers a call may get, the state after a
    refused [fork], the state of a new child, and the parent's state when the child with
    this number has met its fate. *)
Class Env (St : Type) := {
  reply : forall {X}, sysc X -> St -> X -> St -> Prop;
  refused : St -> St;
  child_of : St -> St;
  forked : St -> Z -> fate -> St -> St;
}.

Section runs.
Context {St : Type} `{Env St}.

(** Every run of [p] from [s] ends as [Q] says.  A failed call of [fork] or [execve]
    returns a negative number.  A child runs on its own, with 0 from [fork], and has to
    end before it gets behind [p]. *)
Fixpoint exec {A} (p : prog A) (s : St) (Q : ending A -> St -> Prop) {struct p} : Prop :=
  match p with
  | Done a => Q (Returned a) s
  | Stop n => Q (Ended (Exited n)) s
  | Crash => False
  | Ask e k =>
      match e in sysc X return (X -> prog A) -> Prop with
      | SFork => fun k =>
          (forall r, r < 0 -> exec (k r) (refused s) Q) /\
          forall pid, 0 < pid -> exec (k 0) (child_of s) (fun o sc =>
            match o with Returned _ => False | Ended f => exec (k pid) (forked s pid f sc) Q end)
      | SExecve path argv => fun k => Q (Ended (Became path argv)) s /\ forall r, r < 0 -> exec (k r) s Q
      | e => fun k => forall x s', reply e s x s' -> exec (k x) s' Q
      end k
  end.

Lemma exec_mono {A} (p : prog A) : forall s (Q Q' : ending A -> St -> Prop), (forall o s', Q o s' -> Q' o s') -> exec p s Q -> exec p s Q'.
Proof.
  induction p as [a|X e k IH|n|]; intros s Q Q' HQ; cbn [exec]; auto.
  destruct e; try (intros Hx x s' Hr; eapply IH; [exact HQ|by apply Hx]).
  - intros [H1 H2]. split; [intros r Hr; eapply IH; [exact HQ|by apply H1]|].
    intros pid Hp. eapply IH; [|by apply H2]. intros [|f] sc Ho; [done|]. by eapply IH.
  - intros [H1 H2]. split; [by apply HQ|]. intros r Hr. eapply IH; [exact HQ|by apply H2].
Qed.

Definition continue {A B} (f : A -> prog B) (Q : ending B -> St -> Prop) (o : ending A) (s : St) : Prop :=
  match o with Returned a => exec (f a) s Q | Ended x => Q (Ended x) s end.
Lemma exec_bind {A B} (p : prog A) (f : A -> prog B) : forall s Q, exec p s (continue f Q) -> exec (pbind p f) s Q.
Proof.
  induction p as [a|X e k IH|n|]; intros s Q; cbn [exec pbind]; auto.
  destruct e; try (intros Hx x s' Hr; apply IH; by apply Hx).
  - intros [H1 H2]. split; [intros r Hr; by apply IH, H1|]. intros pid Hp. apply IH. eapply exec_mono; [|by apply H2].
    intros [a|y] sc; [done|]. cbn. intros Ho. by apply IH.
  - intros [H1 H2]. split; [done|]. intros r Hr. by apply IH, H2.
Qed.
Lemma exec_ask {X A} (e : sysc X) (f : X -> prog A) s Q : exec (Ask e f) s Q -> exec (pbind (ask e) f) s Q.
Proof. by cbn. Qed.
(** A sequence of steps, each for one element of a list. *)
Lemma exec_plift {A B} (o : option A) a (f : A -> prog B) s Q : o = Some a -> exec (f a) s Q -> exec (pbind (plift o) f) s Q.
Proof. by intros ->. Qed.
End runs.
