(* ===== verification/Shell.v ===== *)
(** * The shell (src/userland/sh.c)

    A line is split in place into the stages of a pipeline and their words; each stage
    runs in a child whose standard input and output are the pipes to its neighbours. *)

From Stdlib Require Import Ascii String.
From S2P Require Import Prelude Mem FrameAlloc Pmm Vmm PageTable AddressSpace CloneSpace UserMem Proc Heap Kernel Process Syscall Files Userland.

Definition LINE_MAX : Z := 128.
Definition BIN_PREFIX : list Z := text "/bin/".
Definition MAX_ARGS : nat := 8.
Definition MAX_STAGES : nat := 8.
(** More steps than a line has bytes. *)
Definition LINE_FUEL : nat := 129.

(** ** The line *)

(** The state is the array [line]; a pointer into it is an index. *)
Abbreviation L := (M (list Z)).
Definition char_at (p : Z) : L Z := l <- get ;; lift (arr_get l p).
Definition put_char_at (p c : Z) : L unit := l <- get ;; l' <- lift (arr_set l p c) ;; put l'.

Fixpoint skip_spaces (fuel : nat) (s : Z) : L Z :=
  match fuel with
  | O => undef
  | S fuel' => c <- char_at s ;; if c =? 32 then skip_spaces fuel' (s + 1) else ret s
  end.
Fixpoint skip_word (fuel : nat) (s : Z) : L Z :=
  match fuel with
  | O => undef
  | S fuel' => c <- char_at s ;; if negb (c =? 0) && negb (c =? 32) then skip_word fuel' (s + 1) else ret s
  end.
Fixpoint tokens (fuel : nat) (s : Z) (argv : list Z) : L (list Z) :=
  match fuel with
  | O => undef
  | S fuel' =>
      c <- char_at s ;;
      if negb (c =? 0) && (length argv <? MAX_ARGS)%nat then
        e <- skip_word LINE_FUEL s ;;
        c <- char_at e ;;
        e <- (if negb (c =? 0) then put_char_at e 0 ;; ret (e + 1) else ret e) ;;
        next <- skip_spaces LINE_FUEL e ;;
        tokens fuel' next (argv ++ [s])
      else ret argv
  end.
Definition tokenize (s : Z) : L (list Z) :=
  s <- skip_spaces LINE_FUEL s ;;
  tokens LINE_FUEL s [].
Fixpoint tokenize_all (stages : list Z) : L (list (list Z)) :=
  match stages with
  | [] => ret []
  | s :: stages' => argv <- tokenize s ;; argvs <- tokenize_all stages' ;; ret (argv :: argvs)
  end.

Fixpoint split_stages (fuel : nat) (p : Z) (stages : list Z) : L (list Z) :=
  match fuel with
  | O => undef
  | S fuel' =>
      c <- char_at p ;;
      if c =? 0 then ret stages
      else if c =? 124 then
        put_char_at p 0 ;;
        split_stages fuel' (p + 1) (if (length stages <? MAX_STAGES)%nat then stages ++ [p + 1] else stages)
      else split_stages fuel' (p + 1) stages
  end.

(** The string that starts at [p], as [strlen], [strcmp], [memcpy] and [execve] see it. *)
Fixpoint string_at (fuel : nat) (p : Z) : L (list Z) :=
  match fuel with
  | O => undef
  | S fuel' => c <- char_at p ;; if c =? 0 then ret [] else l <- string_at fuel' (p + 1) ;; ret (c :: l)
  end.
Fixpoint strings_at (ps : list Z) : L (list (list Z)) :=
  match ps with
  | [] => ret []
  | p :: ps' => s <- string_at LINE_FUEL p ;; l <- strings_at ps' ;; ret (s :: l)
  end.

(** A stage: the path of its program and its arguments. *)
Definition stage_of (argv : list Z) : L (list Z * list (list Z)) :=
  l <- strings_at argv ;;
  cmd <- lift (head l) ;;
  if 5 + LINE_MAX <? Z.of_nat (length BIN_PREFIX) + Z.of_nat (length cmd) + 1 then undef
  else ret (BIN_PREFIX ++ cmd, l).
Fixpoint stages_of (argvs : list (list Z)) : L (list (list Z * list (list Z))) :=
  match argvs with
  | [] => ret []
  | a :: argvs' => s <- stage_of a ;; l <- stages_of argvs' ;; ret (s :: l)
  end.

Inductive command := SyntaxError | QuitShell | Pipeline (stages : list (list Z * list (list Z))).

Definition parse : L command :=
  stages <- split_stages LINE_FUEL 0 [0] ;;
  argvs <- tokenize_all stages ;;
  if existsb (fun argv => (length argv =? 0)%nat) argvs then ret SyntaxError
  else
    first <- lift (head argvs ≫= head) ;;
    cmd <- string_at LINE_FUEL first ;;
    if (length stages =? 1)%nat && bool_decide (cmd = text "exit") then ret QuitShell
    else l <- stages_of argvs ;; ret (Pipeline l).

(** ** The program *)

#[local] Open Scope prog_scope.

Definition read_line (buf : list Z) (size : Z) : prog (Z * list Z) :=
  let* r := ask (SRead 0 (size - 1)) in
  let '(n, b) := r in
  let buf := b ++ drop (length b) buf in
  let n := if n <? 0 then 0 else n in
  let* n := (if 0 <? n then let* c := plift (arr_get buf (n - 1)) in Done (if c =? 10 then n - 1 else n) else Done n) in
  let* buf := plift (arr_set buf n 0) in
  Done (n, buf).

Fixpoint close_pipes (fds : list (Z * Z)) : prog unit :=
  match fds with
  | [] => Done tt
  | (r, w) :: fds' => ask (SClose r) ;;; ask (SClose w) ;;; close_pipes fds'
  end.

(** [pipefds] has the [nstages - 1] pipes. *)
Definition run_stage {A} (argv : list (list Z)) (path : list Z) (pipefds : list (Z * Z)) (nstages i : Z) : prog A :=
  (if 0 <? i then let* p := plift (arr_get pipefds (i - 1)) in ask (SDup2 (fst p) 0) ;;; Done tt else Done tt) ;;;
  (if i <? nstages - 1 then let* p := plift (arr_get pipefds i) in ask (SDup2 (snd p) 1) ;;; Done tt else Done tt) ;;;
  close_pipes pipefds ;;;
  ask (SExecve path argv) ;;;
  let* cmd := plift (head argv) in
  ask (SPrint (text "sh: " ++ cmd ++ text ": not found" ++ newline)) ;;;
  Stop 1.

(** [false]: a pipe could not be made. *)
Fixpoint make_pipes (n : nat) (pipefds : list (Z * Z)) : prog (bool * list (Z * Z)) :=
  match n with
  | O => Done (true, pipefds)
  | S n' =>
      let* r := ask SPipe in
      if negb (fst r =? 0) then ask (SPrint (text "sh: pipe failed" ++ newline)) ;;; Done (false, pipefds)
      else make_pipes n' (pipefds ++ [snd r])
  end.
Fixpoint start_stages (stages : list (list Z * list (list Z))) (pipefds : list (Z * Z)) (nstages i : Z) : prog (list Z) :=
  match stages with
  | [] => Done []
  | (path, argv) :: stages' =>
      let* pid := ask SFork in
      let* pid := (if pid <? 0 then ask (SPrint (text "sh: fork failed" ++ newline)) ;;; Done (-1)
                   else if pid =? 0 then run_stage argv path pipefds nstages i
                   else Done pid) in
      let* pids := start_stages stages' pipefds nstages (i + 1) in
      Done (pid :: pids)
  end.
Fixpoint wait_all (pids : list Z) : prog unit :=
  match pids with
  | [] => Done tt
  | pid :: pids' => (if pid <? 0 then Done tt else ask (SWait pid) ;;; Done tt) ;;; wait_all pids'
  end.
Definition run_pipeline (stages : list (list Z * list (list Z))) : prog unit :=
  let* r := make_pipes (length stages - 1) [] in
  let '(ok, pipefds) := r in
  if negb ok then close_pipes pipefds
  else
    let* pids := start_stages stages pipefds (Z.of_nat (length stages)) 0 in
    close_pipes pipefds ;;;
    wait_all pids.

(** One round of the loop of [main]. *)
Definition main_round (line : list Z) : prog (list Z) :=
  ask (SPrint (text "> ")) ;;;
  let* r := read_line line LINE_MAX in
  let '(len, line) := r in
  if len =? 0 then Done line
  else
    match parse line with
    | None => Crash
    | Some (SyntaxError, line) => ask (SPrint (text "sh: syntax error" ++ newline)) ;;; Done line
    | Some (QuitShell, _) => Stop 0
    | Some (Pipeline stages, line) => run_pipeline stages ;;; Done line
    end.

(** ** What a line means *)

#[local] Close Scope prog_scope.

Fixpoint split_on (d : Z) (s : list Z) : list (list Z) :=
  match s with
  | [] => [[]]
  | c :: s' =>
      if c =? d then [] :: split_on d s'
      else match split_on d s' with [] => [[c]] | w :: l => (c :: w) :: l end
  end.
Definition words (s : list Z) : list (list Z) := filter (fun w => w <> []) (split_on 32 s).
(** At most eight stages with at most eight words each; what is beyond is ignored. *)
Definition stage_words (s : list Z) : list (list (list Z)) := (fun seg => take 8 (words seg)) <$> take 8 (split_on 124 s).
Definition meaning (s : list Z) : command :=
  let argvs := stage_words s in
  if existsb (fun argv => (length argv =? 0)%nat) argvs then SyntaxError
  else if (length argvs =? 1)%nat && bool_decide (head argvs ≫= head = Some (text "exit")) then QuitShell
  else Pipeline ((fun argv => (BIN_PREFIX ++ default [] (head argv), argv)) <$> argvs).

Lemma split_on_none d v : Forall (fun c => c <> d) v -> split_on d v = [v].
Proof. induction 1 as [|c v Hc Hv IH]; [done|]. cbn. destruct (Z.eqb_spec c d); [done|]. by rewrite IH. Qed.
Lemma split_on_app d v rest : Forall (fun c => c <> d) v -> split_on d (v ++ d :: rest) = v :: split_on d rest.
Proof.
  induction 1 as [|c v Hc Hv IH]; cbn [app split_on]; [by rewrite Z.eqb_refl|].
  destruct (Z.eqb_spec c d); [done|]. by rewrite IH.
Qed.
Lemma split_on_not_nil d s : split_on d s <> [].
Proof. destruct s as [|c s]; cbn; [done|]. destruct (c =? d); [done|]. by destruct (split_on d s). Qed.
Lemma words_space rest : words (32 :: rest) = words rest.
Proof. unfold words. cbn [split_on]. rewrite Z.eqb_refl. by rewrite filter_cons_False by (intros Hn; by apply Hn). Qed.
Lemma words_last v : Forall (fun c => c <> 32) v -> v <> [] -> words v = [v].
Proof. intros Hv Hn. unfold words. rewrite split_on_none by done. by rewrite filter_cons_True. Qed.
Lemma words_cons v rest : Forall (fun c => c <> 32) v -> v <> [] -> words (v ++ 32 :: rest) = v :: words rest.
Proof. intros Hv Hn. unfold words. rewrite split_on_app by done. by rewrite filter_cons_True. Qed.

(** ** Strings in the line *)

Fixpoint str_at (l : list Z) (p : Z) (w : list Z) : Prop :=
  match w with
  | [] => arr_get l p = Some 0
  | c :: w' => c <> 0 /\ arr_get l p = Some c /\ str_at l (p + 1) w'
  end.
(** [l'] differs from [l] only from [a] up to [b]. *)
Definition edited (a b : Z) (l l' : list Z) : Prop := length l' = length l /\ forall q, q < a \/ b <= q -> arr_get l' q = arr_get l q.

Lemma edited_refl a b l : edited a b l l.
Proof. done. Qed.
Lemma edited_trans a b l1 l2 l3 : edited a b l1 l2 -> edited a b l2 l3 -> edited a b l1 l3.
Proof. intros [A1 A2] [B1 B2]. split; [congruence|]. intros q Hq. by rewrite B2, A2. Qed.
Lemma edited_weaken a b a' b' l l' : edited a b l l' -> a' <= a -> b <= b' -> edited a' b' l l'.
Proof. intros [A1 A2] Ha Hb. split; [done|]. intros q Hq. apply A2. lia. Qed.
Lemma str_at_frame l l' w : forall p, str_at l p w -> (forall q, p <= q <= p + Z.of_nat (length w) -> arr_get l' q = arr_get l q) -> str_at l' p w.
Proof.
  induction w as [|c w IH]; intros p; cbn [str_at length].
  - intros Hp Hq. by rewrite Hq by lia.
  - intros (H0 & Hc & Hw) Hq. split; [done|]. rewrite Hq by lia. split; [done|]. apply IH; [done|]. intros q Hr. apply Hq. lia.
Qed.
Lemma str_at_edited a b l l' p w : edited a b l l' -> str_at l p w -> p + Z.of_nat (length w) < a \/ b <= p -> str_at l' p w.
Proof. intros [_ E] Hs Hd. apply (str_at_frame l); [done|]. intros q Hq. apply E. lia. Qed.
Lemma str_at_app l v w : forall p, str_at l p (v ++ w) -> str_at l (p + Z.of_nat (length v)) w.
Proof.
  induction v as [|c v IH]; intros p; cbn [app str_at length]; [by rewrite Z.add_0_r|].
  intros (_ & _ & Hw). apply IH in Hw. by replace (p + Z.of_nat (S (length v))) with (p + 1 + Z.of_nat (length v)) by lia.
Qed.
(** A character of a string becomes its end. *)
Lemma str_at_cut l l' v w p : str_at l p (v ++ w) -> arr_get l' (p + Z.of_nat (length v)) = Some 0 ->
  (forall q, q <> p + Z.of_nat (length v) -> arr_get l' q = arr_get l q) -> str_at l' p v.
Proof.
  revert p. induction v as [|c v IH]; intros p; cbn [app str_at length].
  - by rewrite Z.add_0_r.
  - intros (H0 & Hc & Hw) Hz Hq. split; [done|]. split; [by rewrite Hq by lia|]. apply IH; [done| |].
    + by replace (p + 1 + Z.of_nat (length v)) with (p + Z.of_nat (S (length v))) by lia.
    + intros q Hne. apply Hq. lia.
Qed.
Lemma str_at_range l w : forall p, str_at l p w -> 0 <= p /\ p + Z.of_nat (length w) < Z.of_nat (length l).
Proof.
  induction w as [|c w IH]; intros p; cbn [str_at length]; [intros H%arr_get_range; lia|].
  intros (_ & Hc%arr_get_range & Hw%IH). lia.
Qed.

Lemma wp_char_at p c Q l : arr_get l p = Some c -> Q c l -> wp (char_at p) Q l.
Proof. intros E HQ. unfold char_at. wp_step. wp_step. by eapply wp_lift. Qed.
Lemma wp_put_char_at p c Q l : 0 <= p < Z.of_nat (length l) -> Q tt (<[Z.to_nat p := c]> l) -> wp (put_char_at p c) Q l.
Proof. intros Hp HQ. unfold put_char_at. wp_step. wp_step. wp_step. eapply wp_lift; [by apply arr_set_Some|]. by wp_step. Qed.

(** ** The tokenizer *)

Lemma wp_skip_spaces l w : forall fuel s, str_at l s w -> (length w < fuel)%nat ->
  wp (skip_spaces fuel s) (fun r l' => l' = l /\ exists v, str_at l r v /\ words v = words w /\ head v <> Some 32 /\
    r + Z.of_nat (length v) = s + Z.of_nat (length w) /\ s <= r) l.
Proof.
  induction w as [|c w IH]; intros [|fuel] s Hs Hf; cbn [length] in Hf; try lia; cbn [skip_spaces str_at] in *; wp_step.
  - eapply wp_char_at; [exact Hs|]. cbv beta. cbn [Z.eqb negb andb]. wp_step. split; [done|]. exists []. cbn. split_and!; [done|done|done|lia|lia].
  - destruct Hs as (H0 & Hc & Hw). eapply wp_char_at; [exact Hc|]. cbv beta. destruct (Z.eqb_spec c 32) as [->|Hne].
    + eapply wp_mono; [apply (IH fuel); [exact Hw|lia]|]. intros r l' (-> & v & Hv & Ew & Hh & El & Hr). split; [done|].
      exists v. rewrite words_space. cbn [length]. split_and!; [done|done|done|lia|lia].
    + wp_step. split; [done|]. exists (c :: w). split_and!; [by cbn|done|cbn; congruence|lia|lia].
Qed.
Lemma wp_skip_word l w : forall fuel s, str_at l s w -> (length w < fuel)%nat ->
  wp (skip_word fuel s) (fun r l' => l' = l /\ exists v w', w = v ++ w' /\ r = s + Z.of_nat (length v) /\ Forall (fun c => c <> 32) v /\
    (w' = [] \/ exists w'', w' = 32 :: w'')) l.
Proof.
  induction w as [|c w IH]; intros [|fuel] s Hs Hf; cbn [length] in Hf; try lia; cbn [skip_word str_at] in *; wp_step.
  - eapply wp_char_at; [exact Hs|]. cbv beta. cbn [Z.eqb negb andb]. wp_step. split; [done|]. exists [], []. split_and!; [done|cbn; lia|done|by left].
  - destruct Hs as (H0 & Hc & Hw). eapply wp_char_at; [exact Hc|]. cbv beta. destruct (Z.eqb_spec c 0); [done|].
    destruct (Z.eqb_spec c 32) as [->|Hne]; cbn [negb andb].
    + wp_step. split; [done|]. exists [], (32 :: w). split_and!; [done|cbn; lia|done|right; by exists w].
    + eapply wp_mono; [apply (IH fuel); [exact Hw|lia]|]. intros r l' (-> & v & w' & -> & -> & Hv & Hw'). split; [done|].
      exists (c :: v), w'. split_and!; [done|cbn [length]; lia|by constructor|done].
Qed.

(** One word is cut off; [next] is where the following one starts. *)
Lemma wp_cut_word l w s : str_at l s w -> w <> [] -> head w <> Some 32 -> (length w < LINE_FUEL)%nat ->
  wp (e <- skip_word LINE_FUEL s ;;
      c <- char_at e ;;
      e <- (if negb (c =? 0) then put_char_at e 0 ;; ret (e + 1) else ret e) ;;
      skip_spaces LINE_FUEL e) (fun next l' => edited s (s + Z.of_nat (length w)) l l' /\
        exists v w', words w = v :: words w' /\ str_at l' s v /\ str_at l' next w' /\ head w' <> Some 32 /\
          s + Z.of_nat (length v) < next + (if decide (w' = []) then 1 else 0) /\ next + Z.of_nat (length w') = s + Z.of_nat (length w) /\ v <> []) l.
Proof.
  intros Hs Hn Hh Hf. wp_step. eapply wp_mono; [by apply (wp_skip_word l w)|]. intros e l0 (-> & v & w' & -> & -> & Hv & Hw').
  assert (Hvn : v <> []) by (intros ->; destruct Hw' as [->|[w'' ->]]; [done|by cbn in Hh]).
  pose proof (str_at_app _ _ _ _ Hs) as Hs'. destruct Hw' as [->|[w ->]]; wp_step.
  - rewrite app_nil_r in *. eapply wp_char_at; [exact Hs'|]. cbn [Z.eqb negb]. wp_step. wp_step.
    eapply wp_mono; [apply (wp_skip_spaces l []); [exact Hs'|unfold LINE_FUEL; cbn; lia]|]. intros next l' (-> & x & Hx & Ex & _ & El & Hr). split; [done|].
    destruct x as [|? ?]; [|cbn in El; lia]. cbn in El. exists v, []. rewrite words_last by done.
    split_and!; [done|done|done|done|rewrite decide_True by done; lia|cbn; lia|done].
  - destruct Hs' as (_ & Hc & Hw). eapply wp_char_at; [exact Hc|]. change (negb (32 =? 0)) with true. cbv iota. wp_step. wp_step.
    pose proof (str_at_range _ _ _ Hs) as [Hs0 Hs1]. rewrite length_app in *. cbn [length] in *.
    apply wp_put_char_at; [lia|]. wp_step. set (l1 := <[_ := 0]> l).
    assert (Ein : forall q, q <> s + Z.of_nat (length v) -> arr_get l1 q = arr_get l q).
    { intros q Hq. unfold l1, arr_get. destruct (Z.leb_spec 0 q); [|done]. apply list_lookup_insert_ne. lia. }
    assert (Ez : arr_get l1 (s + Z.of_nat (length v)) = Some 0).
    { unfold l1, arr_get. replace (0 <=? s + Z.of_nat (length v)) with true by lia. apply list_lookup_insert_eq. lia. }
    assert (Hw1 : str_at l1 (s + Z.of_nat (length v) + 1) w) by (apply (str_at_frame l); [done|]; intros q Hq; apply Ein; lia).
    eapply wp_mono; [apply (wp_skip_spaces l1 w); [exact Hw1|lia]|]. intros next l' (-> & x & Hx & Ex & Hhx & El & Hr).
    split; [split; [apply length_insert|intros q Hq; apply Ein; lia]|].
    exists v, x. rewrite words_cons by done. split_and!; [by rewrite Ex|by eapply str_at_cut|done|done|case_decide; lia|lia|done].
Qed.

Lemma wp_tokens : forall fuel l w s argv, str_at l s w -> head w <> Some 32 -> (length w < fuel)%nat -> (length w < LINE_FUEL)%nat -> (length argv <= 8)%nat ->
  wp (tokens fuel s argv) (fun r l' => edited s (s + Z.of_nat (length w)) l l' /\
    exists ps, r = argv ++ ps /\ Forall2 (fun p v => str_at l' p v /\ s <= p /\ p + Z.of_nat (length v) <= s + Z.of_nat (length w)) ps (take (8 - length argv) (words w))) l.
Proof.
  induction fuel as [|fuel IH]; intros l w s argv Hs Hh Hf Hf' Ha; [lia|]. cbn [tokens]. wp_step.
  assert (Hend : forall l', take (8 - length argv) (words w) = [] -> l' = l -> edited s (s + Z.of_nat (length w)) l l' /\
    exists ps, argv = argv ++ ps /\ Forall2 (fun p v => str_at l' p v /\ s <= p /\ p + Z.of_nat (length v) <= s + Z.of_nat (length w)) ps (take (8 - length argv) (words w))).
  { intros l' E ->. split; [done|]. exists []. rewrite E, app_nil_r. done. }
  destruct w as [|c w].
  - eapply wp_char_at; [exact Hs|]. cbn [Z.eqb negb andb]. wp_step. apply Hend; [by destruct (8 - length argv)%nat|done].
  - destruct (Hs) as (H0 & Hc & _). eapply wp_char_at; [exact Hc|]. cbv beta. destruct (Z.eqb_spec c 0); [done|]. cbn [negb andb]. unfold MAX_ARGS.
    destruct (Nat.ltb_spec (length argv) 8) as [Hlt|Hge]; [|wp_step; apply Hend; [by replace (8 - length argv)%nat with O by lia|done]].
    pose proof (wp_cut_word l (c :: w) s Hs ltac:(done) Hh Hf') as Hcut. wp_follow Hcut. wp_follow Hcut. wp_follow Hcut.
    wp_step. eapply wp_mono; [exact Hcut|]. intros next l1 (He & v & w' & Ew & Hv & Hw' & Hh' & Hlt' & El & Hvn). cbv beta.
    assert (Hvl : (0 < length v)%nat) by (destruct v; [done|cbn; lia]). assert (Hgap : s + Z.of_nat (length v) <= next) by (case_decide; lia).
    eapply wp_mono; [apply (IH l1 w' next (argv ++ [s])); try done|].
    + cbn [length] in *. lia.
    + lia.
    + rewrite length_app. cbn. lia.
    + intros r l2 (He2 & ps & -> & Hps). split; [eapply edited_trans; [exact He|]; eapply edited_weaken; [exact He2|lia|lia]|].
      exists (s :: ps). rewrite <- app_assoc. split; [done|]. rewrite Ew. replace (8 - length argv)%nat with (S (8 - length (argv ++ [s])))%nat by (rewrite length_app; cbn; lia).
      cbn [take]. constructor; [split; [|lia]|].
      * apply (str_at_frame l1); [exact Hv|]. intros q Hq. apply (proj2 He2). destruct (decide (w' = [])) as [->|]; [cbn; lia|lia].
      * eapply Forall2_impl; [exact Hps|]. intros p x (Hx & Hx1 & Hx2). split; [done|lia].
Qed.

Lemma wp_tokenize l w s : str_at l s w -> (length w < LINE_FUEL)%nat ->
  wp (tokenize s) (fun r l' => edited s (s + Z.of_nat (length w)) l l' /\
    Forall2 (fun p v => str_at l' p v /\ s <= p /\ p + Z.of_nat (length v) <= s + Z.of_nat (length w)) r (take 8 (words w))) l.
Proof.
  intros Hs Hf. unfold tokenize. wp_step. eapply wp_mono; [by apply (wp_skip_spaces l w)|]. intros r l0 (-> & v & Hv & Ew & Hh & El & Hr). cbv beta.
  eapply wp_mono; [apply (wp_tokens LINE_FUEL l v r []); try done; try lia; cbn; lia|]. intros ps l' (He & ps' & -> & Hps). rewrite <- Ew.
  split; [eapply edited_weaken; [exact He|lia|lia]|]. eapply Forall2_impl; [exact Hps|]. intros p x (Hx & H1 & H2). split; [done|lia].
Qed.

(** Where segments start that follow each other from [p], with one byte between them. *)
Fixpoint positions (p : Z) (segs : list (list Z)) : list Z :=
  match segs with [] => [] | w :: segs' => p :: positions (p + Z.of_nat (length w) + 1) segs' end.
Lemma positions_ge segs : forall p, Forall (fun q => p <= q) (positions p segs).
Proof.
  induction segs as [|w segs IH]; intros p; cbn [positions]; [done|]. constructor; [lia|]. eapply Forall_impl; [apply IH|]. cbn. intros; lia.
Qed.
Lemma take_positions n segs : forall p, take n (positions p segs) = positions p (take n segs).
Proof. revert n. induction segs as [|w segs IH]; intros [|n] p; cbn; [done..|]. by rewrite IH. Qed.

Lemma wp_tokenize_all segs : forall l p, Forall2 (str_at l) (positions p segs) segs -> Forall (fun w => (length w < LINE_FUEL)%nat) segs ->
  wp (tokenize_all (positions p segs)) (fun r l' => length l' = length l /\ (forall q, q < p -> arr_get l' q = arr_get l q) /\
    Forall2 (fun argv seg => Forall2 (str_at l') argv (take 8 (words seg))) r segs) l.
Proof.
  induction segs as [|w segs IH]; intros l p Hs Hf; cbn [positions tokenize_all]; [by wp_step|].
  cbn [positions] in Hs. apply Forall2_cons in Hs as [Hw Hs]. apply Forall_cons in Hf as [Hfw Hf]. wp_step.
  eapply wp_mono; [by apply (wp_tokenize l w p)|]. intros argv l1 (He & Hv). cbv beta. wp_step.
  eapply wp_mono; [apply (IH l1 (p + Z.of_nat (length w) + 1))|].
  - assert (Hge := positions_ge segs (p + Z.of_nat (length w) + 1)). revert Hs Hge. generalize (positions (p + Z.of_nat (length w) + 1) segs). clear -He.
    intros ps Hs. induction Hs as [|q x ps xs Hq Hs IH]; intros Hge; [done|]. apply Forall_cons in Hge as [Hge1 Hge]. constructor; [|by apply IH].
    eapply str_at_edited; [exact He|exact Hq|lia].
  - done.
  - intros argvs l2 (El & Eq & Ha). cbv beta. wp_step. destruct He as [El1 Eq1]. split; [congruence|]. split.
    + intros q Hq. rewrite Eq by lia. apply Eq1. lia.
    + constructor; [|done]. eapply Forall2_impl; [exact Hv|]. intros q x (Hx & H1 & H2). apply (str_at_frame l1); [done|]. intros r Hr. apply Eq. lia.
Qed.

Lemma wp_split_stages s : forall fuel l p stages, str_at l p s -> (length s < fuel)%nat -> (length stages <= 8)%nat ->
  wp (split_stages fuel p stages) (fun r l' => r = take 8 (stages ++ tail (positions p (split_on 124 s))) /\ length l' = length l /\
    (forall q, q < p -> arr_get l' q = arr_get l q) /\ Forall2 (str_at l') (positions p (split_on 124 s)) (split_on 124 s)) l.
Proof.
  induction s as [|c s IH]; intros [|fuel] l p stages Hs Hf Hst; cbn [length] in Hf; try lia; cbn [split_stages split_on str_at] in *; wp_step.
  - eapply wp_char_at; [exact Hs|]. cbv beta. cbn [Z.eqb]. wp_step. cbn [positions tail]. rewrite app_nil_r, take_ge by lia.
    split_and!; [done|done|done|]. by repeat constructor.
  - destruct Hs as (H0 & Hc & Hs). pose proof (arr_get_range _ _ _ Hc) as Hr. eapply wp_char_at; [exact Hc|]. cbv beta. destruct (Z.eqb_spec c 0); [done|].
    destruct (Z.eqb_spec c 124) as [->|Hne].
    + wp_step. apply wp_put_char_at; [done|]. set (l1 := <[_ := 0]> l).
      assert (Ein : forall q, q <> p -> arr_get l1 q = arr_get l q).
      { intros q Hq. unfold l1, arr_get. destruct (Z.leb_spec 0 q); [|done]. apply list_lookup_insert_ne. lia. }
      assert (Ez : arr_get l1 p = Some 0) by (unfold l1, arr_get; replace (0 <=? p) with true by lia; apply list_lookup_insert_eq; lia).
      eapply wp_mono; [apply (IH fuel l1 (p + 1))|].
      * apply (str_at_frame l); [done|]. intros q Hq. apply Ein. lia.
      * lia.
      * unfold MAX_STAGES. destruct (Nat.ltb_spec (length stages) 8); [rewrite length_app; cbn; lia|done].
      * intros r l' (-> & El & Eq & Hl). cbn [positions tail length Z.of_nat]. rewrite Z.add_0_r. split_and!.
        -- destruct (split_on 124 s) as [|w segs] eqn:E; [by apply split_on_not_nil in E|]. cbn [positions tail]. unfold MAX_STAGES.
           destruct (Nat.ltb_spec (length stages) 8); [by rewrite <- app_assoc|]. by rewrite !take_app_le by lia.
        -- rewrite El. apply length_insert.
        -- intros q Hq. rewrite Eq by lia. apply Ein. lia.
        -- constructor; [|done]. cbn. by rewrite Eq by lia.
    + eapply wp_mono; [apply (IH fuel l (p + 1) stages); [done|lia|done]|]. intros r l' (-> & El & Eq & Hl).
      destruct (split_on 124 s) as [|w segs] eqn:E; [by apply split_on_not_nil in E|]. cbn [positions tail length] in *.
      apply Forall2_cons in Hl as [Hw Hl]. replace (p + 1 + Z.of_nat (length w) + 1) with (p + Z.of_nat (S (length w)) + 1) in * by lia.
      split_and!; [done|done|intros q Hq; apply Eq; lia|]. constructor; [|done]. cbn. split_and!; [done| |done]. by rewrite Eq by lia.
Qed.

Lemma wp_string_at l w : forall fuel p, str_at l p w -> (length w < fuel)%nat -> wp (string_at fuel p) (fun r l' => r = w /\ l' = l) l.
Proof.
  induction w as [|c w IH]; intros [|fuel] p Hs Hf; cbn [length] in Hf; try lia; cbn [string_at str_at] in *; wp_step.
  - eapply wp_char_at; [exact Hs|]. cbv beta. cbn [Z.eqb]. by wp_step.
  - destruct Hs as (H0 & Hc & Hs). eapply wp_char_at; [exact Hc|]. cbv beta. destruct (Z.eqb_spec c 0); [done|]. wp_step.
    eapply wp_mono; [apply (IH fuel); [exact Hs|lia]|]. intros r l' [-> ->]. by wp_step.
Qed.
Lemma wp_strings_at l ps ws : length l = 128%nat -> Forall2 (str_at l) ps ws -> wp (strings_at ps) (fun r l' => r = ws /\ l' = l) l.
Proof.
  intros Hl. induction 1 as [|p w ps ws Hw Hs IH]; cbn [strings_at]; [by wp_step|]. pose proof (str_at_range _ _ _ Hw). wp_step.
  eapply wp_mono; [apply (wp_string_at l w); [done|unfold LINE_FUEL; lia]|]. intros r l' [-> ->]. cbv beta. wp_step. eapply wp_mono; [exact IH|]. intros r l' [-> ->]. by wp_step.
Qed.
Lemma wp_stages_of l argvs wss : length l = 128%nat -> Forall2 (Forall2 (str_at l)) argvs wss -> Forall (fun ws => ws <> []) wss ->
  wp (stages_of argvs) (fun r l' => r = ((fun argv => (BIN_PREFIX ++ default [] (head argv), argv)) <$> wss) /\ l' = l) l.
Proof.
  intros Hl. induction 1 as [|argv ws argvs wss Hw Hs IH]; intros Hne; cbn [stages_of]; [by wp_step|]. apply Forall_cons in Hne as [Hn Hne].
  wp_step. unfold stage_of. wp_step. eapply wp_mono; [by apply (wp_strings_at l argv ws)|]. intros r l' [-> ->]. cbv beta. wp_step.
  destruct ws as [|cmd ws]; [done|]. eapply wp_lift; [reflexivity|]. apply Forall2_cons_inv_r in Hw as (p & ps & Hp & _ & _).
  apply str_at_range in Hp. change (length BIN_PREFIX) with 5%nat. unfold LINE_MAX. case_bool; [lia|]. wp_step. wp_step.
  eapply wp_mono; [by apply IH|]. intros r l' [-> ->]. by wp_step.
Qed.

Lemma wp_parse l s : length l = 128%nat -> str_at l 0 s -> wp parse (fun c l' => c = meaning s /\ length l' = 128%nat) l.
Proof.
  intros Hl Hs. pose proof (str_at_range _ _ _ Hs) as Hr. unfold parse. wp_step.
  eapply wp_mono; [apply (wp_split_stages s LINE_FUEL l 0 [0]); [done|unfold LINE_FUEL; lia|cbn; lia]|]. intros st l1 (-> & El1 & _ & Hst). cbv beta.
  set (segs := split_on 124 s) in *.
  assert (Est : take 8 ([0] ++ tail (positions 0 segs)) = positions 0 (take 8 segs)).
  { rewrite <- take_positions. unfold segs. destruct (split_on 124 s) as [|w l2] eqn:E; [by apply split_on_not_nil in E|done]. }
  rewrite Est. clear Est. assert (Hst8 : Forall2 (str_at l1) (positions 0 (take 8 segs)) (take 8 segs)) by (rewrite <- take_positions; by apply Forall2_take).
  wp_step. eapply wp_mono; [apply (wp_tokenize_all (take 8 segs) l1 0 Hst8)|].
  { clear -Hst8 El1 Hl. induction Hst8 as [|p w ps ws Hw _ IH]; constructor; [|exact IH]. apply str_at_range in Hw. unfold LINE_FUEL. lia. }
  intros argvs l2 (El2 & _ & Ha). cbv beta.
  assert (Ha' : Forall2 (Forall2 (str_at l2)) argvs (stage_words s)) by (unfold stage_words; by apply Forall2_fmap_r).
  assert (Hempty : existsb (fun argv => (length argv =? 0)%nat) argvs = existsb (fun argv => (length argv =? 0)%nat) (stage_words s)).
  { clear -Ha'. induction Ha' as [|a ws argvs wss Hw Ha IH]; [done|]. cbn. by rewrite IH, (Forall2_length _ _ _ Hw). }
  unfold meaning. cbv zeta. rewrite Hempty. destruct (existsb _ (stage_words s)) eqn:Ee; [wp_step; split; [done|congruence]|].
  assert (Hne : Forall (fun ws => ws <> []) (stage_words s)).
  { apply Forall_forall. intros ws Hws ->. apply not_true_iff_false in Ee. apply Ee, existsb_exists. exists []. split; [by apply list_elem_of_In|done]. }
  assert (Hnn : stage_words s <> []) by (unfold stage_words; destruct (split_on 124 s) eqn:E; [by apply split_on_not_nil in E|done]).
  destruct (stage_words s) as [|[|cmd ws] wss] eqn:Ew; [done|by apply Forall_cons in Hne as [? _]|].
  pose proof Ha' as Hb. apply Forall2_cons_inv_r in Hb as (argv & argvs' & Hb & _ & ->). apply Forall2_cons_inv_r in Hb as (p & ps & Hp & _ & ->).
  wp_step. eapply wp_lift; [reflexivity|]. pose proof (str_at_range _ _ _ Hp) as Hpr. wp_step.
  eapply wp_mono; [apply (wp_string_at l2 cmd); [exact Hp|unfold LINE_FUEL; lia]|]. intros r l3 [-> ->]. cbv beta.
  assert (Elen : length (positions 0 (take 8 segs)) = length ((cmd :: ws) :: wss)).
  { rewrite (Forall2_length _ _ _ Hst8), <- Ew. unfold stage_words. by rewrite length_fmap. }
  rewrite Elen. replace (bool_decide (head ((cmd :: ws) :: wss) ≫= head = Some (text "exit"))) with (bool_decide (cmd = text "exit"))
    by (cbn; apply bool_decide_ext; split; congruence).
  destruct (_ && _); [wp_step; split; [done|congruence]|]. wp_step.
  eapply wp_mono; [apply (wp_stages_of l2 _ ((cmd :: ws) :: wss)); [congruence|done|done]|]. intros r l3 [-> ->]. wp_step. split; [done|congruence].
Qed.

(** [parse] understands a line as it is meant: the stages are what [|] separates,
    the arguments are the words between spaces, at most eight of each, the program is
    looked up in /bin, a stage without a word is an error, and [exit] alone ends the
    shell.  It does so without leaving the array, for every text that fits in it. *)
Theorem parse_correct l s : length l = 128%nat -> str_at l 0 s -> wp parse (fun c l' => c = meaning s /\ length l' = 128%nat) l.
Proof. apply wp_parse. Qed.

(** ** The shell's view of the kernel

    Its descriptor table, and a log of what it reads, prints and starts. *)

Inductive event :=
  | Said (b : list Z)
  | Input (b : list Z)
  | Forked (pid : Z) (f : fate) (table : list file_descriptor)
  | Waited (pid : Z).
Record shell := mkShell { s_table : list file_descriptor; s_log : list event }.

Definition note (e : event) (s : shell) : shell := mkShell (s_table s) (s_log s ++ [e]).
Definition shell_reply {X} (e : sysc X) (s : shell) : X -> shell -> Prop :=
  match e in sysc X return X -> shell -> Prop with
  | SRead _ n => fun x s' => (fst x < 0 /\ snd x = [] \/ 0 <= fst x <= n /\ Z.of_nat (length (snd x)) = fst x) /\ s' = note (Input (snd x)) s
  | SPrint b => fun _ s' => s' = note (Said b) s
  | SClose fd => fun x s' => x = fst (close_table (s_table s) fd) /\ s' = mkShell (snd (close_table (s_table s) fd)) (s_log s)
  | SDup2 o n => fun x s' => x = fst (dup2_table (s_table s) o n) /\ s' = mkShell (snd (dup2_table (s_table s) o n)) (s_log s)
  | SPipe => fun x s' => (fst x <> 0 /\ exists t', same_open (s_table s) t' /\ s' = mkShell t' (s_log s)) \/
      exists p t', fst x = 0 /\ pipe_table (s_table s) p (fst (snd x)) (snd (snd x)) t' /\ s' = mkShell t' (s_log s)
  | SWait pid => fun _ s' => s' = note (Waited pid) s
  | _ => fun _ _ => True
  end.
#[export] Instance shell_env : Env shell := {
  reply X e := shell_reply e;
  refused s := s;
  child_of s := mkShell (s_table s) [];
  forked s pid f sc := note (Forked pid f (s_table sc)) s;
}.

(** *** What a command does *)

(** The table of stage [i] of [n]: its input is the pipe before it, its output the pipe
    behind it, and it has no other end of a pipe of the command. *)
Record wired (t : list file_descriptor) (ps : list Z) (n i : Z) (tc : list file_descriptor) : Prop := {
  wi_in : if 0 <? i then exists p, arr_get ps (i - 1) = Some p /\ names tc 0 FD_PIPE_READ p else slot_same t tc 0;
  wi_out : if i <? n - 1 then exists p, arr_get ps i = Some p /\ names tc 1 FD_PIPE_WRITE p else slot_same t tc 1;
  wi_rest : forall j, 2 <= j -> slot_same t tc j;
}.
Inductive started (t : list file_descriptor) (ps : list Z) (n : Z) : Z -> list (list Z * list (list Z)) -> list Z -> list event -> Prop :=
  | started_nil i : started t ps n i [] [] []
  | started_fail i path argv stages pids evs : started t ps n (i + 1) stages pids evs ->
      started t ps n i ((path, argv) :: stages) (-1 :: pids) (Said (text "sh: fork failed" ++ newline) :: evs)
  | started_ok i path argv stages pid f tc pids evs : 0 < pid -> f = Became path argv \/ f = Exited 1 -> wired t ps n i tc ->
      started t ps n (i + 1) stages pids evs -> started t ps n i ((path, argv) :: stages) (pid :: pids) (Forked pid f tc :: evs).
Definition ran (t : list file_descriptor) (stages : list (list Z * list (list Z))) (evs : list event) : Prop :=
  exists ps pids starts, length ps = (length stages - 1)%nat /\ NoDup ps /\
    started t ps (Z.of_nat (length stages)) 0 stages pids starts /\ evs = starts ++ (Waited <$> filter (fun pid => 0 <= pid) pids).

(** The line in the bytes that were read, and the string it is for C. *)
Definition line_of (b : list Z) : list Z := match last b with Some 10 => take (length b - 1) b | _ => b end.
Fixpoint c_string (b : list Z) : list Z := match b with [] => [] | c :: b' => if c =? 0 then [] else c :: c_string b' end.
Definition reaction (t : list file_descriptor) (line : list Z) (o : ending (list Z)) (evs : list event) : Prop :=
  if decide (line = []) then (exists l, o = Returned l) /\ evs = []
  else match meaning (c_string line) with
    | SyntaxError => (exists l, o = Returned l) /\ evs = [Said (text "sh: syntax error" ++ newline)]
    | QuitShell => o = Ended (Exited 0) /\ evs = []
    | Pipeline stages => (exists l, o = Returned l) /\ (evs = [Said (text "sh: pipe failed" ++ newline)] \/ ran t stages evs)
    end.

(** ** Tables *)

Definition slots (fds : list (Z * Z)) : list Z := fds ≫= (fun x => [fst x; snd x]).
Lemma slots_snoc fds r w : slots (fds ++ [(r, w)]) = slots fds ++ [r; w].
Proof. unfold slots. rewrite bind_app. done. Qed.
Lemma elem_of_slots fds j : j ∈ slots fds <-> exists i x, arr_get fds i = Some x /\ (j = fst x \/ j = snd x).
Proof.
  unfold slots. rewrite list_elem_of_bind. split.
  - intros (x & Hj & [i Hi]%list_elem_of_lookup). exists (Z.of_nat i), x. unfold arr_get. rewrite (proj2 (Z.leb_le 0 _)), Nat2Z.id by lia.
    split; [done|]. by rewrite !elem_of_cons, elem_of_nil in Hj; destruct Hj as [|[|[]]]; [left|right].
  - intros (i & x & Hi & Hj). unfold arr_get in Hi. case_bool; [|done]. exists x. split; [rewrite !elem_of_cons; destruct Hj as [|]; [by left|by right; left]|]. by eapply list_elem_of_lookup_2.
Qed.

Lemma get_set_eq t i d : 0 <= i < Z.of_nat (length t) -> arr_get (slot_set t i d) i = Some d.
Proof. intros Hi. unfold arr_get, slot_set. case_bool; [|lia]. apply list_lookup_insert_eq. lia. Qed.
Lemma get_set_ne t i j d : 0 <= i -> j <> i -> arr_get (slot_set t i d) j = arr_get t j.
Proof. intros Hi Hj. unfold arr_get, slot_set. case_bool; [|done]. apply list_lookup_insert_ne. lia. Qed.
Lemma length_set t i d : length (slot_set t i d) = length t.
Proof. apply length_insert. Qed.

Definition in_table (j : Z) : Prop := 3 <= j < 32.
Lemma close_table_get t fd : in_table fd -> length t = 32%nat ->
  length (snd (close_table t fd)) = 32%nat /\ forall j, arr_get (snd (close_table t fd)) j = if decide (j = fd) then closed_fd <$> arr_get t j else arr_get t j.
Proof.
  intros Hf Ht. unfold close_table, in_table in *. replace (3 <=? fd) with true by lia. replace (fd <? 32) with true by lia. cbn [andb snd].
  destruct (arr_get_Some t fd) as [d Hd]; [lia|]. rewrite Hd. split; [by rewrite length_set|]. intros j. case_decide as E.
  - subst j. rewrite get_set_eq by lia. by rewrite Hd.
  - apply get_set_ne; [lia|done].
Qed.

Fixpoint closed_all (fds : list (Z * Z)) (t : list file_descriptor) : list file_descriptor :=
  match fds with
  | [] => t
  | (r, w) :: fds' => closed_all fds' (snd (close_table (snd (close_table t r)) w))
  end.
Lemma exec_close_pipes fds : forall t log Q, Q (Returned tt) (mkShell (closed_all fds t) log) -> exec (close_pipes fds) (mkShell t log) Q.
Proof.
  induction fds as [|[r w] fds IH]; intros t log Q HQ; [exact HQ|]. cbn [close_pipes ask pbind exec reply shell_env shell_reply s_table s_log].
  intros x s' (_ & ->). cbn [s_table s_log]. intros y s2 (_ & ->). by apply IH.
Qed.
Lemma closed_all_get fds : forall t, Forall in_table (slots fds) -> length t = 32%nat ->
  length (closed_all fds t) = 32%nat /\ forall j, arr_get (closed_all fds t) j = if decide (j ∈ slots fds) then closed_fd <$> arr_get t j else arr_get t j.
Proof.
  induction fds as [|[r w] fds IH]; intros t Hf Ht; cbn [closed_all].
  - split; [done|]. intros j. by rewrite decide_False by (cbn; by intros ?%elem_of_nil).
  - change (slots ((r, w) :: fds)) with (r :: w :: slots fds) in *. apply Forall_cons in Hf as [Hr [Hw Hf]%Forall_cons].
    destruct (close_table_get t r Hr Ht) as [L1 E1]. destruct (close_table_get _ w Hw L1) as [L2 E2]. destruct (IH _ Hf L2) as [L3 E3].
    split; [done|]. intros j. rewrite E3, E2, E1.
    assert (Hidem : closed_fd <$> (closed_fd <$> arr_get t j) = closed_fd <$> arr_get t j) by (by destruct (arr_get t j)).
    destruct (decide (j ∈ slots fds)), (decide (j = w)), (decide (j = r)), (decide (j ∈ r :: w :: slots fds)) as [Hin|Hin]; rewrite !elem_of_cons in Hin; rewrite ?Hidem; first [done|exfalso; tauto].
Qed.

(** [t'] is [t] with the pipes [ps] in the free slots [fds]. *)
Record piped (t : list file_descriptor) (fds : list (Z * Z)) (ps : list Z) (t' : list file_descriptor) : Prop := {
  pp_length : length t' = 32%nat;
  pp_lengths : length ps = length fds;
  pp_range : Forall in_table (slots fds);
  pp_free : Forall (is_free t) (slots fds);
  pp_ends : forall i x p, arr_get fds i = Some x -> arr_get ps i = Some p -> names t' (fst x) FD_PIPE_READ p /\ names t' (snd x) FD_PIPE_WRITE p;
  pp_other : forall j, j ∉ slots fds -> slot_same t t' j;
  pp_distinct : NoDup ps;
}.
Lemma piped_nil t : length t = 32%nat -> piped t [] [] t.
Proof. intros Ht. split; [done|done|constructor|constructor|intros i x p Hi%arr_get_range; cbn in Hi; lia|by left|constructor]. Qed.
Lemma slot_same_free t t' j : slot_same t t' j -> is_free t' j -> is_free t j.
Proof. intros [E|[? _]] Hf; [|done]. unfold is_free, kind_at in *. by rewrite <- E. Qed.
Lemma slot_same_eq t t1 t2 j : arr_get t2 j = arr_get t1 j -> slot_same t t1 j -> slot_same t t2 j.
Proof. unfold slot_same, is_free, kind_at. by intros ->. Qed.
Lemma slot_same_trans t t1 t2 j : slot_same t t1 j -> slot_same t1 t2 j -> slot_same t t2 j.
Proof. intros H [E|[H1 H2]]; [by eapply slot_same_eq|right]. split; [by eapply slot_same_free|done]. Qed.
Lemma names_set_ne t i j d ty p : 0 <= i -> j <> i -> names t j ty p -> names (slot_set t i d) j ty p.
Proof. intros Hi Hj (fd & E & Hfd). exists fd. by rewrite get_set_ne. Qed.
Lemma names_set_eq t i d ty p : 0 <= i < Z.of_nat (length t) -> names (slot_set t i (set_fd_pipe ty p d)) i ty p.
Proof. intros Hi. exists (set_fd_pipe ty p d). by rewrite get_set_eq. Qed.
Lemma names_not_free t i ty p : names t i ty p -> ty <> FD_NONE -> ~ is_free t i.
Proof. intros (fd & E & Hk & _) Hty. unfold is_free, kind_at. rewrite E. cbn. congruence. Qed.

Lemma piped_used t fds ps t' j : piped t fds ps t' -> j ∈ slots fds -> ~ is_free t' j.
Proof.
  intros Hp (i & x & Hi & Hj)%elem_of_slots. pose proof (arr_get_range _ _ _ Hi) as Hr.
  destruct (arr_get_Some ps i) as [p Hpi]; [rewrite (pp_lengths _ _ _ _ Hp); lia|].
  destruct (pp_ends _ _ _ _ Hp i x p Hi Hpi) as [H1 H2]. destruct Hj as [->| ->]; by eapply names_not_free.
Qed.

Lemma elem_ne (l : list Z) a b : a ∈ l -> b ∉ l -> a <> b.
Proof. by intros Ha Hb ->. Qed.
Lemma arr_get_snoc {A} (l : list A) x i y : arr_get (l ++ [x]) i = Some y -> arr_get l i = Some y \/ (i = Z.of_nat (length l) /\ y = x).
Proof.
  intros Hi. pose proof (arr_get_range _ _ _ Hi) as Hr. rewrite length_app in Hr. cbn in Hr. unfold arr_get in *. rewrite (proj2 (Z.leb_le 0 i)) in * by lia.
  destruct (decide (i < Z.of_nat (length l))) as [Hlt|Hge]; [left; by rewrite lookup_app_l in Hi by lia|right].
  assert (i = Z.of_nat (length l)) as -> by lia. rewrite Nat2Z.id, list_lookup_middle in Hi by done. split; [done|congruence].
Qed.

(** Where [pipe_table] puts the ends. *)
Lemma pipe_table_slots t fds ps t1 p r w t2 : piped t fds ps t1 -> pipe_table t1 p r w t2 ->
  in_table r /\ in_table w /\ r <> w /\ (r ∉ slots fds) /\ (w ∉ slots fds) /\ is_free t r /\ is_free t w /\ length t2 = 32%nat /\
  names t2 r FD_PIPE_READ p /\ names t2 w FD_PIPE_WRITE p /\ forall j, j <> r -> j <> w -> arr_get t2 j = arr_get t1 j.
Proof.
  intros Hp (Er & Ew & Hr & Hw & _ & dr & dw & Hdr & Hdw & ->). pose proof (pp_length _ _ _ _ Hp) as Ht1.
  destruct (first_free_spec t1 3 Ht1 ltac:(lia)) as [?|(Rr & fr & Efr & Kr)]; [congruence|]. rewrite <- Er in *.
  destruct (first_free_spec t1 (r + 1) Ht1 ltac:(lia)) as [?|(Rw & fw & Efw & Kw)]; [congruence|]. rewrite <- Ew in *.
  assert (Fr : is_free t1 r) by (unfold is_free, kind_at; rewrite Efr; cbn; congruence). assert (Fw : is_free t1 w) by (unfold is_free, kind_at; rewrite Efw; cbn; congruence).
  assert (Nr : r ∉ slots fds) by (intros Hin; by apply (piped_used _ _ _ _ _ Hp Hin)). assert (Nw : w ∉ slots fds) by (intros Hin; by apply (piped_used _ _ _ _ _ Hp Hin)).
  unfold in_table, is_free, kind_at in *. split_and!; try lia; try done.
  - by apply (slot_same_free t t1); [apply Hp|].
  - by apply (slot_same_free t t1); [apply Hp|].
  - by rewrite !length_set.
  - apply names_set_ne; [lia|lia|]. apply names_set_eq. lia.
  - apply names_set_eq. rewrite length_set. lia.
  - intros j H1 H2. by rewrite !get_set_ne by lia.
Qed.

(** One pipe more. *)
Lemma piped_more t fds ps t1 p r w t2 : piped t fds ps t1 -> pipe_table t1 p r w t2 -> piped t (fds ++ [(r, w)]) (ps ++ [p]) t2.
Proof.
  intros Hp Ht. destruct (pipe_table_slots _ _ _ _ _ _ _ _ Hp Ht) as (Rr & Rw & Hrw & Nr & Nw & Fr & Fw & L2 & Hr & Hw & Eo).
  pose proof (pp_lengths _ _ _ _ Hp) as El. split; rewrite ?slots_snoc.
  - done.
  - rewrite !length_app. cbn. lia.
  - apply Forall_app. split; [apply Hp|by repeat (apply Forall_cons; split)].
  - apply Forall_app. split; [apply Hp|by repeat (apply Forall_cons; split)].
  - intros i x q Hi Hq. apply arr_get_snoc in Hi as [Hi|[-> ->]]; apply arr_get_snoc in Hq as [Hq|[E ->]].
    + destruct (pp_ends _ _ _ _ Hp i x q Hi Hq) as [(d1 & H1 & K1) (d2 & H2 & K2)].
      assert (Hx : fst x ∈ slots fds /\ snd x ∈ slots fds) by (split; apply elem_of_slots; exists i, x; auto).
      split; [exists d1|exists d2]; rewrite Eo by (eapply elem_ne; [apply Hx|done]); done.
    + apply arr_get_range in Hi. lia.
    + apply arr_get_range in Hq. lia.
    + done.
  - intros j [Hj1 Hj2]%not_elem_of_app. rewrite !not_elem_of_cons in Hj2. eapply slot_same_eq; [apply Eo; tauto|by apply (pp_other _ _ _ _ Hp)].
  - apply NoDup_app. split; [apply Hp|]. split; [|apply NoDup_singleton].
    intros q Hq ->%list_elem_of_singleton. apply list_elem_of_lookup in Hq as [i Hi].
    assert (Hgi : arr_get ps (Z.of_nat i) = Some p) by (unfold arr_get; by rewrite (proj2 (Z.leb_le 0 _)), Nat2Z.id by lia).
    destruct (arr_get_Some fds (Z.of_nat i)) as [x Hx]; [apply lookup_lt_Some in Hi; lia|].
    destruct (pp_ends _ _ _ _ Hp _ _ _ Hx Hgi) as [H1 _]. destruct Ht as (_ & _ & _ & _ & Hfresh & _). by apply (proj1 (Hfresh (fst x))).
Qed.

Lemma piped_same t fds ps t1 t2 : piped t fds ps t1 -> same_open t1 t2 -> piped t fds ps t2.
Proof.
  intros Hp [L E]. split; try apply Hp; [by rewrite L; apply Hp| |].
  - intros i x p Hx Hpi. destruct (pp_ends _ _ _ _ Hp i x p Hx Hpi) as [H1 H2]. unfold names in *. split.
    + destruct (E (fst x)) as [->|[F _]]; [done|]. by apply (names_not_free _ _ _ _ H1) in F.
    + destruct (E (snd x)) as [->|[F _]]; [done|]. by apply (names_not_free _ _ _ _ H2) in F.
  - intros j Hj. eapply slot_same_trans; [by apply (pp_other _ _ _ _ Hp)|apply E].
Qed.

(** All pipes are closed. *)
Lemma piped_closed t fds ps t' : length t = 32%nat -> piped t fds ps t' -> same_open t (closed_all fds t').
Proof.
  intros Ht Hp. destruct (closed_all_get fds t' (pp_range _ _ _ _ Hp) (pp_length _ _ _ _ Hp)) as [L E]. split; [congruence|].
  intros j. specialize (E j). case_decide as Hj; [right|by eapply slot_same_eq; [|apply (pp_other _ _ _ _ Hp)]]. split; [apply (Forall_forall (is_free t) (slots fds)); [apply Hp|done]|].
  unfold is_free, kind_at. rewrite E. pose proof (pp_range _ _ _ _ Hp) as Hr. rewrite Forall_forall in Hr. specialize (Hr j Hj). unfold in_table in Hr.
  destruct (arr_get_Some t' j) as [d ->]; [rewrite (pp_length _ _ _ _ Hp); lia|]. done.
Qed.

(** ** The stages *)

Lemma dup2_end t o n ty p : names t o ty p -> ty <> FD_NONE -> in_table o -> (0 <= n < 32 /\ n <> o) -> length t = 32%nat ->
  length (snd (dup2_table t o n)) = 32%nat /\ names (snd (dup2_table t o n)) n ty p /\
  forall j, j <> n -> arr_get (snd (dup2_table t o n)) j = arr_get t j.
Proof.
  intros (d & Hd & Hk & Hp) Hty Ho Hn Ht. unfold dup2_table, in_table in *.
  replace ((o <? 0) || (32 <=? o) || (n <? 0) || (32 <=? n)) with false by lia. rewrite Hd, bool_decide_eq_false_2 by congruence.
  replace (n =? o) with false by lia. cbn [snd]. rewrite length_set. split; [done|]. split.
  - exists d. rewrite get_set_eq by lia. done.
  - intros j Hj. apply get_set_ne; [lia|done].
Qed.

(** The descriptors of a stage before the pipes are closed. *)
Definition plugged (t1 : list file_descriptor) (ps : list Z) (n i : Z) (t3 : list file_descriptor) : Prop :=
  length t3 = 32%nat /\
  (if 0 <? i then exists p, arr_get ps (i - 1) = Some p /\ names t3 0 FD_PIPE_READ p else arr_get t3 0 = arr_get t1 0) /\
  (if i <? n - 1 then exists p, arr_get ps i = Some p /\ names t3 1 FD_PIPE_WRITE p else arr_get t3 1 = arr_get t1 1) /\
  forall j, 2 <= j -> arr_get t3 j = arr_get t1 j.

Lemma plugged_wired t fds ps t1 n i t3 : length t = 32%nat -> piped t fds ps t1 -> plugged t1 ps n i t3 -> wired t ps n i (closed_all fds t3).
Proof.
  intros Ht Hp (L3 & H0 & H1 & H2). pose proof (pp_range _ _ _ _ Hp) as Hr. destruct (closed_all_get fds t3 Hr L3) as [_ E]. rewrite Forall_forall in Hr.
  assert (Elow : forall j, j < 3 -> arr_get (closed_all fds t3) j = arr_get t3 j) by (intros j Hj; rewrite E, decide_False; [done|]; intros Hin; specialize (Hr j Hin); unfold in_table in Hr; lia).
  assert (Eold : forall j, j < 3 -> slot_same t t1 j) by (intros j Hj; apply (pp_other _ _ _ _ Hp); intros Hin; specialize (Hr j Hin); unfold in_table in Hr; lia).
  split.
  - unfold names in *. rewrite (Elow 0) by lia. destruct (0 <? i); [done|]. apply (slot_same_eq t t1); [by rewrite Elow, H0 by lia|apply Eold; lia].
  - unfold names in *. rewrite (Elow 1) by lia. destruct (i <? n - 1); [done|]. apply (slot_same_eq t t1); [by rewrite Elow, H1 by lia|apply Eold; lia].
  - intros j Hj. eapply slot_same_eq; [|apply (proj2 (piped_closed _ _ _ _ Ht Hp))].
    destruct (closed_all_get fds t1 (pp_range _ _ _ _ Hp) (pp_length _ _ _ _ Hp)) as [_ E1]. rewrite E, E1. case_decide; by rewrite H2.
Qed.

Section stage.
Context (t : list file_descriptor) (fds : list (Z * Z)) (ps : list Z) (t1 : list file_descriptor) (n : Z).
Hypothesis Ht : length t = 32%nat.
Hypothesis Hp : piped t fds ps t1.
Hypothesis Hn : Z.of_nat (length fds) = n - 1.

Lemma exec_plug_in i log Q : 0 <= i < n ->
  (forall t2, length t2 = 32%nat -> (if 0 <? i then exists p, arr_get ps (i - 1) = Some p /\ names t2 0 FD_PIPE_READ p else arr_get t2 0 = arr_get t1 0) ->
    (forall j, j <> 0 -> arr_get t2 j = arr_get t1 j) -> Q (Returned tt) (mkShell t2 log)) ->
  exec (if 0 <? i then let* p := plift (arr_get fds (i - 1)) in ask (SDup2 (fst p) 0) ;;; Done tt else Done tt)%prog (mkShell t1 log) Q.
Proof.
  intros Hi HQ. pose proof (pp_length _ _ _ _ Hp) as L1. pose proof (pp_lengths _ _ _ _ Hp) as El. destruct (Z.ltb_spec 0 i); [|by apply HQ].
  destruct (arr_get_Some fds (i - 1)) as [x Hx]; [lia|]. destruct (arr_get_Some ps (i - 1)) as [p Hpi]; [lia|]. destruct (pp_ends _ _ _ _ Hp _ _ _ Hx Hpi) as [Hrd _].
  assert (Hin : in_table (fst x)) by (apply (Forall_forall in_table (slots fds)); [apply Hp|apply elem_of_slots; eauto]). rewrite Hx.
  cbn [plift pbind exec ask reply shell_env shell_reply s_table s_log]. intros y s' (_ & ->). cbn [pbind exec].
  destruct (dup2_end _ _ 0 _ _ Hrd ltac:(done) Hin ltac:(unfold in_table in Hin; lia) L1) as (L2 & N2 & E2). apply HQ; [done|by exists p|done].
Qed.
Lemma exec_plug_out i t2 log Q : 0 <= i < n -> length t2 = 32%nat -> (forall j, j <> 0 -> arr_get t2 j = arr_get t1 j) ->
  (forall t3, length t3 = 32%nat -> (if i <? n - 1 then exists p, arr_get ps i = Some p /\ names t3 1 FD_PIPE_WRITE p else arr_get t3 1 = arr_get t2 1) ->
    (forall j, j <> 1 -> arr_get t3 j = arr_get t2 j) -> Q (Returned tt) (mkShell t3 log)) ->
  exec (if i <? n - 1 then let* p := plift (arr_get fds i) in ask (SDup2 (snd p) 1) ;;; Done tt else Done tt)%prog (mkShell t2 log) Q.
Proof.
  intros Hi L2 E2 HQ. pose proof (pp_lengths _ _ _ _ Hp) as El. destruct (Z.ltb_spec i (n - 1)); [|by apply HQ].
  destruct (arr_get_Some fds i) as [x Hx]; [lia|]. destruct (arr_get_Some ps i) as [p Hpi]; [lia|]. destruct (pp_ends _ _ _ _ Hp _ _ _ Hx Hpi) as [_ (d & Hd & Hwr)].
  assert (Hin : in_table (snd x)) by (apply (Forall_forall in_table (slots fds)); [apply Hp|apply elem_of_slots; eauto]). rewrite Hx.
  assert (Hwr2 : names t2 (snd x) FD_PIPE_WRITE p) by (exists d; rewrite E2 by (unfold in_table in Hin; lia); done).
  cbn [plift pbind exec ask reply shell_env shell_reply s_table s_log]. intros y s' (_ & ->). cbn [pbind exec].
  destruct (dup2_end _ _ 1 _ _ Hwr2 ltac:(done) Hin ltac:(unfold in_table in Hin; lia) L2) as (L3 & N3 & E3). apply HQ; [done|by exists p|done].
Qed.

Lemma exec_run_stage {A} argv path i log : 0 <= i < n -> argv <> [] ->
  exec (run_stage (A := A) argv path fds n i) (mkShell t1 log) (fun o s => exists f, o = Ended f /\ (f = Became path argv \/ f = Exited 1) /\ wired t ps n i (s_table s)).
Proof.
  intros Hi Hargv. destruct argv as [|cmd argv]; [done|]. unfold run_stage. apply exec_bind, exec_plug_in; [done|]. intros t2 L2 N2 E2. cbn [continue].
  apply exec_bind, exec_plug_out; [done|done|done|]. intros t3 L3 N3 E3. cbn [continue]. apply exec_bind, exec_close_pipes. cbn [continue].
  assert (Hw : wired t ps n i (closed_all fds t3)).
  { apply (plugged_wired _ _ _ t1); [done|done|]. split; [done|]. split; [|split].
    - unfold names in *. by rewrite (E3 0) by lia.
    - destruct (i <? n - 1); [done|]. by rewrite N3, E2 by lia.
    - intros j Hj. by rewrite E3, E2 by lia. }
  cbn [ask pbind exec plift head]. split; [eexists; split; [done|]; split; [by left|done]|]. intros r _. cbn [reply shell_env shell_reply].
  intros [] s' ->. exists (Exited 1). split; [done|]. split; [by right|done].
Qed.

Lemma exec_start_stages stages : forall i log, 0 <= i -> i + Z.of_nat (length stages) = n -> Forall (fun x => snd x <> []) stages ->
  exec (start_stages stages fds n i) (mkShell t1 log) (fun o s => exists pids evs, o = Returned pids /\ s = mkShell t1 (log ++ evs) /\ started t ps n i stages pids evs).
Proof.
  induction stages as [|[path argv] stages IH]; intros i log Hi Hl Hne; cbn [start_stages].
  { cbn [exec]. exists [], []. rewrite app_nil_r. split; [done|]. split; [done|constructor]. }
  cbn [length] in Hl. apply Forall_cons in Hne as [Ha Hne]. cbn [snd] in Ha.
  assert (Hnext : forall pid e log', log' = log ++ [e] ->
    (forall pids evs, started t ps n (i + 1) stages pids evs -> started t ps n i ((path, argv) :: stages) (pid :: pids) (e :: evs)) ->
    exec (let* pids := start_stages stages fds n (i + 1) in Done (pid :: pids))%prog (mkShell t1 log') (fun o s => exists pids evs, o = Returned pids /\
      s = mkShell t1 (log ++ evs) /\ started t ps n i ((path, argv) :: stages) pids evs)).
  { intros pid e log' -> Hst. apply exec_bind. eapply exec_mono; [|apply (IH (i + 1)); [lia|lia|done]]. intros o s (pids & evs & -> & -> & Hs).
    cbn [continue exec]. exists (pid :: pids), (e :: evs). rewrite <- app_assoc. split; [done|]. split; [done|]. by apply Hst. }
  apply exec_ask. cbn [exec]. split.
  - intros r Hr. replace (r <? 0) with true by lia. cbn [pbind ask exec reply shell_env shell_reply]. intros [] s' ->. eapply Hnext; [reflexivity|]. intros. by constructor.
  - intros pid Hpid. cbn [Z.ltb Z.eqb Z.compare]. replace (pid <? 0) with false by lia. replace (pid =? 0) with false by lia.
    apply exec_bind. eapply exec_mono; [|apply exec_run_stage; [lia|done]]. intros o sc (f & -> & Hf & Hw). cbn [continue pbind forked shell_env note s_table s_log].
    eapply Hnext; [reflexivity|]. intros pids evs Hs. by constructor.
Qed.
End stage.

Lemma exec_wait_all pids : forall t log Q, Q (Returned tt) (mkShell t (log ++ (Waited <$> filter (fun pid => 0 <= pid) pids))) -> exec (wait_all pids) (mkShell t log) Q.
Proof.
  induction pids as [|pid pids IH]; intros t log Q HQ; cbn [wait_all]; [cbn in HQ; by rewrite app_nil_r in HQ|].
  destruct (Z.ltb_spec pid 0).
  - rewrite filter_cons_False in HQ by lia. cbn [pbind]. by apply IH.
  - rewrite filter_cons_True in HQ by lia. cbn [pbind ask exec reply shell_env shell_reply]. intros x s' ->. apply IH. cbn [s_log note s_table].
    by rewrite <- app_assoc.
Qed.

Lemma exec_make_pipes t m : forall fds ps t1 log, piped t fds ps t1 ->
  exec (make_pipes m fds) (mkShell t1 log) (fun o s => exists ok fds' ps' t2, o = Returned (ok, fds') /\ piped t fds' ps' t2 /\
    (if ok : bool then s = mkShell t2 log /\ length fds' = (length fds + m)%nat else s = mkShell t2 (log ++ [Said (text "sh: pipe failed" ++ newline)]))).
Proof.
  induction m as [|m IH]; intros fds ps t1 log Hp; cbn [make_pipes].
  { cbn [exec]. exists true, fds, ps, t1. split_and!; [done|done|done|lia]. }
  cbn [pbind ask exec reply shell_env shell_reply s_table]. intros [r [a b]] s' [(Hr & t' & Hsame & ->)|(p & t' & Hr & Hpipe & ->)]; cbn [fst snd] in *.
  - replace (r =? 0) with false by lia. cbn [negb pbind ask exec reply shell_env shell_reply]. intros [] s' ->. exists false, fds, ps, t'. split_and!; [done|by eapply piped_same|done].
  - subst r. cbn [Z.eqb negb]. eapply exec_mono; [|apply (IH (fds ++ [(a, b)]) (ps ++ [p])); by eapply piped_more].
    intros o s (ok & fds' & ps' & t2 & -> & Hp' & Hs). exists ok, fds', ps', t2. split; [done|]. split; [done|]. rewrite length_app in Hs. cbn [length] in Hs.
    destruct ok; [|done]. destruct Hs as [-> ->]. split; [done|lia].
Qed.

Lemma exec_run_pipeline stages t log : length t = 32%nat -> stages <> [] -> Forall (fun x => snd x <> []) stages ->
  exec (run_pipeline stages) (mkShell t log) (fun o s => o = Returned tt /\ exists t' evs, s = mkShell t' (log ++ evs) /\ same_open t t' /\
    (evs = [Said (text "sh: pipe failed" ++ newline)] \/ ran t stages evs)).
Proof.
  intros Ht Hn Hne. assert (Hlen : (0 < length stages)%nat) by (destruct stages; [done|cbn; lia]). unfold run_pipeline. apply exec_bind.
  eapply exec_mono; [|apply (exec_make_pipes t _ [] [] t log); by apply piped_nil]. intros o s (ok & fds & ps & t1 & -> & Hp & Hs). cbn [continue]. destruct ok; cbn [negb].
  - destruct Hs as [-> Hl]. cbn [length] in Hl. apply exec_bind.
    eapply exec_mono; [|apply (exec_start_stages t fds ps t1 (Z.of_nat (length stages))); [done|done|lia|lia|lia|done]].
    intros o s (pids & evs & -> & -> & Hst). cbn [continue]. apply exec_bind, exec_close_pipes. cbn [continue]. apply exec_wait_all. split; [done|].
    exists (closed_all fds t1), (evs ++ (Waited <$> filter (fun pid => 0 <= pid) pids)). rewrite app_assoc. split; [done|]. split; [by eapply piped_closed|]. right.
    exists ps, pids, evs. split; [rewrite (pp_lengths _ _ _ _ Hp); lia|]. split; [apply Hp|done].
  - subst s. apply exec_close_pipes. split; [done|]. eexists _, _. split; [reflexivity|]. split; [by eapply piped_closed|by left].
Qed.

(** ** Reading a line *)

Lemma str_at_prefix x rest : forall pre, str_at (pre ++ x ++ 0 :: rest) (Z.of_nat (length pre)) (c_string x).
Proof.
  assert (Hget : forall (pre : list Z) c l, arr_get (pre ++ c :: l) (Z.of_nat (length pre)) = Some c).
  { intros pre c l. unfold arr_get. rewrite (proj2 (Z.leb_le 0 _)), Nat2Z.id by lia. by apply list_lookup_middle. }
  induction x as [|c x IH]; intros pre; cbn [c_string app].
  - apply Hget.
  - destruct (Z.eqb_spec c 0) as [->|Hc]; cbn [str_at]; [apply Hget|]. split; [done|]. split; [apply Hget|].
    specialize (IH (pre ++ [c])). rewrite <- app_assoc, length_app in IH. cbn [app length] in IH. by replace (Z.of_nat (length pre) + 1) with (Z.of_nat (length pre + 1)) by lia.
Qed.
Lemma line_of_take b : line_of b = take (length (line_of b)) b.
Proof.
  assert (E : line_of b = b \/ line_of b = take (length b - 1) b) by (unfold line_of; destruct (last b) as [z|]; [|by left]; repeat (case_match; try by left); by right).
  destruct E as [->| ->]; [by rewrite firstn_all|]. rewrite length_take. by rewrite Nat.min_l by lia.
Qed.
Lemma line_of_length b : (length (line_of b) <= length b)%nat.
Proof. rewrite line_of_take, length_take. lia. Qed.

Lemma put_end b buf : length buf = 128%nat -> (length b <= 127)%nat ->
  exists l, arr_set (b ++ drop (length b) buf) (Z.of_nat (length (line_of b))) 0 = Some l /\ length l = 128%nat /\ str_at l 0 (c_string (line_of b)).
Proof.
  intros Hbuf Hb. pose proof (line_of_length b) as Hl. assert (Hlen : length (b ++ drop (length b) buf) = 128%nat) by (rewrite length_app, length_drop; lia).
  rewrite arr_set_Some by lia. eexists. split; [reflexivity|]. split; [by rewrite length_insert|]. rewrite Nat2Z.id.
  rewrite insert_take_drop by lia. rewrite take_app_le, <- line_of_take by done. exact (str_at_prefix (line_of b) _ []).
Qed.
Lemma last_arr_get (b r : list Z) : b <> [] -> arr_get (b ++ r) (Z.of_nat (length b) - 1) = last b.
Proof.
  intros Hb. destruct b as [|x b] using rev_ind; [done|]. rewrite last_snoc, length_app. cbn [length]. unfold arr_get. rewrite (proj2 (Z.leb_le 0 _)) by lia.
  replace (Z.to_nat (Z.of_nat (length b + 1) - 1)) with (length b) by lia. rewrite <- app_assoc. by apply list_lookup_middle.
Qed.

Lemma exec_read_line buf t log : length buf = 128%nat ->
  exec (read_line buf LINE_MAX) (mkShell t log) (fun o s => exists b l, o = Returned (Z.of_nat (length (line_of b)), l) /\ s = mkShell t (log ++ [Input b]) /\
    length l = 128%nat /\ str_at l 0 (c_string (line_of b))).
Proof.
  intros Hbuf. unfold read_line. apply exec_ask. cbn [exec reply shell_env shell_reply s_table s_log]. intros [n b] s' [Hn ->]. cbn [fst snd] in Hn. unfold LINE_MAX in Hn.
  assert (Hb : (length b <= 127)%nat) by (destruct Hn as [[_ ->]|?]; [cbn; lia|lia]). destruct (put_end b buf Hbuf Hb) as (l & El & Ll & Hs).
  assert (Hend : exec (let* buf := plift (arr_set (b ++ drop (length b) buf) (Z.of_nat (length (line_of b))) 0) in Done (Z.of_nat (length (line_of b)), buf))%prog (note (Input b) (mkShell t log))
    (fun o s => exists b l, o = Returned (Z.of_nat (length (line_of b)), l) /\ s = mkShell t (log ++ [Input b]) /\ length l = 128%nat /\ str_at l 0 (c_string (line_of b)))).
  { rewrite El. cbn [plift pbind exec]. by exists b, l. }
  assert (En : (if n <? 0 then 0 else n) = Z.of_nat (length b)) by (destruct Hn as [[H0 ->]|[H0 H1]]; case_bool; cbn; lia). rewrite En. clear En.
  destruct (decide (b = [])) as [->|Hne]; [exact Hend|]. assert (Hpos : (0 < length b)%nat) by (destruct b; [done|cbn; lia]).
  destruct (Z.ltb_spec 0 (Z.of_nat (length b))); [|lia]. rewrite last_arr_get by done. unfold line_of in *.
  destruct (last b) as [c|] eqn:Elast; [|by apply last_None in Elast]. cbn [plift pbind]. destruct (Z.eqb_spec c 10) as [->|Hc].
  - rewrite length_take, Nat.min_l in Hend by lia. rewrite Nat2Z.inj_sub in Hend by lia. exact Hend.
  - replace (match c with 10 => take (length b - 1) b | _ => b end) with b in Hend; [exact Hend|]. repeat (case_match; try done).
Qed.

Lemma meaning_stages s stages : meaning s = Pipeline stages -> stages <> [] /\ Forall (fun x => snd x <> []) stages.
Proof.
  unfold meaning. cbv zeta. destruct (existsb _ _) eqn:Ee; [done|]. destruct (_ && _); [done|]. intros [= <-]. split.
  - unfold stage_words. destruct (split_on 124 s) eqn:E; [by apply split_on_not_nil in E|done].
  - apply Forall_fmap, Forall_forall. intros ws Hws. cbn [compose snd]. intros ->. apply not_true_iff_false in Ee.
    apply Ee, existsb_exists. exists []. split; [by apply list_elem_of_In|done].
Qed.

#[local] Opaque parse meaning run_pipeline read_line.


(** ** The kernel answers as the shell's view says *)

Section kernel.
Context {S H : Type} `{FO : FrameOps S, FA : !FrameAlloc S} `{HO : HeapOps H, HP : !Heap H} (hh : Z) (Hhh : hhdm_ok hh) (kmapped : Z -> bool).
Implicit Types (k : kernel S H).

Lemma close_table_int t fd : -2147483648 <= fd < 2147483648 -> close_table t (u64 fd) = close_table t fd.
Proof. intros Hf. unfold close_table. destruct (Z.ltb_spec fd 0); [|by rewrite u64_small by lia]. assert (32 <= u64 fd) by (unfold u64; lia). case_bools. done. Qed.
Lemma int_arg x : -2147483648 <= x < 2147483648 -> s32 (u64 x) = x.
Proof. unfold s32, u32, u64. intros Hx. cbv zeta. case_bools; lia. Qed.

(** C15: The shell sees the kernel as it is: [close], [dup2] and [pipe] of the kernel
    change the descriptors of the caller, and answer, as [shell_reply] says, a new pipe
    is none that the caller has, its numbers are in the caller's memory, and the child
    of a fork gets the table of its parent. *)
Theorem kernel_answers k r T : procs (k_sched k) !! current_process (k_sched k) = Some r -> space hh (k_vm k) (p2v hh (p_cr3 r)) T -> counted k ->
  let cur := current_process (k_sched k) in
  let s := mkShell (fd_table r) [] in
  (forall fd, -2147483648 <= fd < 2147483648 -> wp (sys_close (u64 fd)) (fun res k' => exists t', tabled cur t' k k' /\
     shell_reply (SClose fd) s (c_value res) (mkShell t' [])) k) /\
  (forall o n, -2147483648 <= o < 2147483648 -> -2147483648 <= n < 2147483648 -> wp (sys_dup2 (u64 o) (u64 n)) (fun res k' => exists t', tabled cur t' k k' /\
     shell_reply (SDup2 o n) s (c_value res) (mkShell t' [])) k) /\
  (forall fds, 0 <= fds -> fds + 8 <= 140737488355328 -> wp (sys_pipe hh kmapped fds) (fun res k' => exists t' rfd wfd, tabled cur t' k k' /\
     shell_reply SPipe s (c_value res, (rfd, wfd)) (mkShell t' []) /\
     (c_value res = 0 -> stored hh (k_vm k') (p2v hh (p_cr3 r)) fds (le 4 rfd ++ le 4 wfd))) k) /\
  (forall child rc, procs (k_sched k) !! child = Some rc -> Forall (fun fd => fd_kind fd = FD_NONE) (fd_table rc) ->
     wp (copy_fds cur child) (fun _ k' => tabled child (s_table (child_of s)) k k') k).
Proof.
  intros Hr Hsp Hc cur s. split_and!.
  - intros fd Hf. eapply wp_mono; [by apply (wp_sys_close hh kmapped (u64 fd) k r)|]. intros res k' (_ & Hv & Ht). rewrite close_table_int in * by done. eexists. split; [exact Ht|]. done.
  - intros o n Ho Hn. eapply wp_mono; [by apply (wp_sys_dup2 hh kmapped (u64 o) (u64 n) k r)|]. intros res k' (_ & Hv & Ht). rewrite !int_arg in * by done. eexists. split; [exact Ht|]. done.
  - intros fds H0 H1. eapply wp_mono; [by apply (wp_sys_pipe hh Hhh kmapped fds k r T)|]. intros res k' (_ & t' & Ht & [(Hv & Hs)|(p & rfd & wfd & Hv & Hp & Hst)]).
    + exists t', 0, 0. split; [done|]. split; [left; split; [done|]; by exists t'|done].
    + exists t', rfd, wfd. split; [done|]. split; [right; by exists p, t'|done].
  - intros child rc Hrc Hn. eapply wp_mono; [apply (wp_copy_fds kmapped k cur child r rc); try done; intros rd p; by apply none_table|]. by intros ? k' [_ Ht].
Qed.
End kernel.

(** ** A line, a round and a kernel *)

Definition demo_line : list Z := text "ls -l /bin | cat" ++ replicate 112 0.
Lemma parse_correct_witness :
  wp parse (fun c _ => c = Pipeline [(text "/bin/ls", [text "ls"; text "-l"; text "/bin"]); (text "/bin/cat", [text "cat"])]) demo_line.
Proof.
  eapply wp_mono; [apply (parse_correct demo_line (text "ls -l /bin | cat")); [reflexivity|repeat (split; [discriminate|split; [reflexivity|]]); reflexivity]|].
  intros c l [-> _]. vm_compute. reflexivity.
Defined.
#[local] Opaque demo_files sys_close.
Lemma kernel_answers_witness : exists r T, space demo_hh (k_vm demo_files) (p2v demo_hh (p_cr3 r)) T /\
  wp (sys_close (u64 5)) (fun res k' => exists t', tabled (current_process (k_sched demo_files)) t' demo_files k' /\
    shell_reply (SClose 5) (mkShell (fd_table r) []) (c_value res) (mkShell t' [])) demo_files.
Proof.
  destruct demo_files_ok as [(r & T & Hr & Hsp) Hc]. exists r, T. split; [exact Hsp|].
  apply (proj1 (kernel_answers demo_hh demo_hh_ok (fun _ => false) demo_files r T Hr Hsp Hc) 5). split; [discriminate|reflexivity].
Defined.
