(* ===== verification/Programs.v ===== *)
(** * Programs on files (src/userland/cat.c, src/userland/tree.c)

    [cat] copies a file to its output.  [tree] lists the directories of the kernel's
    file tree one by one, takes the entries of each listing apart and builds the paths
    of the directories in it. *)

From Stdlib Require Import Ascii String.
From S2P Require Import Prelude Mem FrameAlloc Pmm Vmm PageTable AddressSpace CloneSpace UserMem Proc Heap Vfs Kernel Process Syscall Files Userland Shell.

(** ** The code *)

Definition MAX_NAME : Z := 64.
Definition MAX_PATH : Z := 128.
Definition MAX_DEPTH : nat := 16.
(** The size of the buffers of [cat] and [tree]. *)
Definition CAT_BUF : Z := 128.
Definition LIST_BUF : Z := 512.

Section code.
#[local] Open Scope prog_scope.

Fixpoint cat_loop (fuel : nat) (fd : Z) : prog unit :=
  match fuel with
  | O => Crash
  | S fuel' =>
      let* r := ask (SRead fd CAT_BUF) in
      if 0 <? fst r then ask (SWrite 1 (snd r)) ;;; cat_loop fuel' fd else Done tt
  end.
Definition cat_main (fuel : nat) (argv : list (list Z)) : prog Z :=
  let copy (fd : Z) : prog Z :=
    cat_loop fuel fd ;;;
    (if negb (fd =? 0) then ask (SClose fd) ;;; Done tt else Done tt) ;;;
    Done 0 in
  match argv with
  | _ :: file :: _ =>
      let* fd := ask (SOpen file) in
      if fd <? 0 then ask (SPrint (text "cat: " ++ file ++ text ": No such file" ++ newline)) ;;; Done 1
      else copy fd
  | _ => copy 0
  end.

Fixpoint print_indent (depth : nat) : prog unit :=
  match depth with
  | O => Done tt
  | S depth' => ask (SPrint (text "  ")) ;;; print_indent depth'
  end.
End code.

(** The state is the array [out] of [size] bytes: the characters of [s] from [i] on. *)
Fixpoint copy_in (s : list Z) (i size : Z) : M (list Z) Z :=
  match s with
  | [] => ret i
  | c :: s' =>
      if i <? size - 1 then
        out <- get ;; out <- lift (arr_set out i c) ;; put out ;;
        copy_in s' (i + 1) size
      else ret i
  end.
Definition build_child_path (parent name : list Z) (size : Z) : M (list Z) unit :=
  i <- copy_in parent 0 size ;;
  more <- (if i =? 0 then ret true else out <- get ;; c <- lift (arr_get out (i - 1)) ;; ret (negb (c =? 47))) ;;
  i <- (if (more : bool) && (i <? size - 1) then out <- get ;; out <- lift (arr_set out i 47) ;; put out ;; ret (i + 1) else ret i) ;;
  i <- copy_in name i size ;;
  out <- get ;; out <- lift (arr_set out i 0) ;; put out.
(** An array whose contents no program depends on. *)
Definition child_path (parent name : list Z) : option (list Z) :=
  match build_child_path parent name MAX_PATH (replicate 128 0) with Some (_, out) => Some (c_string out) | None => None end.

Fixpoint find_newline (fuel : nat) (buf : list Z) (n i : Z) : option Z :=
  if i <? n then
    match fuel with
    | O => None
    | S fuel' => match arr_get buf i with
                 | None => None
                 | Some c => if c =? 10 then Some i else find_newline fuel' buf n (i + 1)
                 end
    end
  else Some i.

(** The name of an entry of [len] bytes at [start] in [name], as a string. *)
Definition entry_name (buf : list Z) (start len : Z) : option (list Z) :=
  let len := if MAX_NAME <=? len then MAX_NAME - 1 else len in
  if start + len <=? Z.of_nat (length buf) then Some (c_string (take (Z.to_nat len) (drop (Z.to_nat start) buf))) else None.

Section tree.
#[local] Open Scope prog_scope.

(** The entries in [buf] from [i] on; [rec] is [tree] one level below. *)
Fixpoint entries (fuel : nat) (rec : list Z -> prog unit) (path : list Z) (depth : nat) (buf : list Z) (n i : Z) : prog unit :=
  if i <? n then
    match fuel with
    | O => Crash
    | S fuel' =>
        let* e := plift (find_newline 512 buf n i) in
        let next := if e <? n then e + 1 else e in
        let* is_dir := (if 0 <? e - i then let* c := plift (arr_get buf (e - 1)) in Done (c =? 47) else Done false) in
        let len := if is_dir : bool then e - i - 1 else e - i in
        (if len =? 0 then Done tt
         else
           let* name := plift (entry_name buf i len) in
           print_indent depth ;;;
           ask (SPrint (name ++ (if is_dir : bool then text "/" else []) ++ newline)) ;;;
           if is_dir : bool then let* child := plift (child_path path name) in rec child else Done tt) ;;;
        entries fuel' rec path depth buf n next
    end
  else Done tt.
Fixpoint tree (fuel : nat) (path : list Z) (depth : nat) : prog unit :=
  match fuel with
  | O => Crash
  | S fuel' =>
      if (MAX_DEPTH <? depth)%nat then Done tt
      else
        let* r := ask (SListdir path LIST_BUF) in
        if fst r <? 0 then Done tt
        else entries 512 (fun child => tree fuel' child (S depth)) path depth (snd r) (fst r) 0
  end.
Definition tree_main (argv : list (list Z)) : prog Z :=
  let path := match argv with _ :: p :: _ => p | _ => text "/" end in
  ask (SPrint (path ++ newline)) ;;;
  tree 17 path 1 ;;;
  Done 0.
End tree.

(** ** Paths *)

(** The path of an entry of the directory at [path]. *)
Definition join (path name : list Z) : list Z :=
  path ++ (if bool_decide (last path = Some 47) then [] else [47]) ++ name.

Lemma c_string_app s rest : Forall (fun c => c <> 0) s -> c_string (s ++ 0 :: rest) = s.
Proof. induction 1 as [|c s Hc _ IH]; [done|]. cbn. destruct (Z.eqb_spec c 0); [done|]. by rewrite IH. Qed.
Lemma c_string_id s : Forall (fun c => c <> 0) s -> c_string s = s.
Proof. induction 1 as [|c s Hc _ IH]; [done|]. cbn. destruct (Z.eqb_spec c 0); [done|]. by rewrite IH. Qed.

(** [out] starts with [s]. *)
Definition holds (s out : list Z) (size : Z) : Prop := exists rest, out = s ++ rest /\ Z.of_nat (length out) = size.
Lemma arr_set_holds s c out size : holds s out size -> Z.of_nat (length s) < size ->
  exists out', arr_set out (Z.of_nat (length s)) c = Some out' /\ holds (s ++ [c]) out' size.
Proof.
  intros (rest & -> & Hl) Hs. rewrite length_app in Hl. destruct rest as [|d rest]; [cbn in Hl; lia|]. exists (s ++ c :: rest). split.
  - unfold arr_set. rewrite length_app. cbn [length]. rewrite (proj2 (Z.leb_le 0 _)), (proj2 (Z.ltb_lt _ _)), Nat2Z.id by lia. cbn [andb].
    by rewrite insert_app_r_alt, Nat.sub_diag by lia.
  - exists rest. rewrite <- app_assoc. split; [done|]. rewrite length_app. cbn in *. lia.
Qed.
Lemma wp_copy_in size s : forall pre Q out, holds pre out size -> Z.of_nat (length pre) < size ->
  (forall s' out', s' = take (Z.to_nat (size - 1)) (pre ++ s) -> holds s' out' size -> Q (Z.of_nat (length s')) out') ->
  wp (copy_in s (Z.of_nat (length pre)) size) Q out.
Proof.
  induction s as [|c s IH]; intros pre Q out Hh Hl HQ; cbn [copy_in].
  - wp_steps. apply HQ; [|done]. rewrite app_nil_r, take_ge by lia. done.
  - destruct (Z.ltb_spec (Z.of_nat (length pre)) (size - 1)).
    + destruct (arr_set_holds _ c _ _ Hh ltac:(lia)) as (out' & E & Hh'). wp_steps. eapply wp_lift; [exact E|]. wp_steps.
      replace (Z.of_nat (length pre) + 1) with (Z.of_nat (length (pre ++ [c]))) by (rewrite length_app; cbn; lia).
      apply IH; [done|rewrite length_app; cbn; lia|]. intros s' o' Es. apply HQ. by rewrite <- app_assoc in Es.
    + wp_steps. apply HQ; [|done]. rewrite take_app_le, take_ge by lia. done.
Qed.

Lemma take_take_app {A} n (a b : list A) : take n (take n a ++ b) = take n (a ++ b).
Proof.
  destruct (decide (n <= length a)%nat); [|by rewrite (take_ge a) by lia]. rewrite (take_app_le a) by done.
  rewrite take_app_le, take_take by (rewrite length_take; lia). by rewrite Nat.min_id.
Qed.

(** The last byte so far. *)
Lemma wp_ends_slash s out size Q : holds s out size -> Q (negb (bool_decide (last s = Some 47))) out ->
  wp (if Z.of_nat (length s) =? 0 then ret true else out <- get ;; c <- lift (arr_get out (Z.of_nat (length s) - 1)) ;; ret (negb (c =? 47))) Q out.
Proof.
  intros (rest & -> & _) HQ. destruct (Z.eqb_spec (Z.of_nat (length s)) 0) as [E|E].
  - destruct s; [|cbn in E; lia]. by wp_steps.
  - wp_steps. destruct (last s) as [c|] eqn:Hlast; [|by apply last_None in Hlast; subst s]. apply (wp_lift _ _ _ c).
    + unfold arr_get. rewrite (proj2 (Z.leb_le 0 _)) by lia. rewrite lookup_app_l by lia. rewrite <- Hlast, last_lookup. f_equal. lia.
    + wp_steps. destruct (Z.eqb_spec c 47) as [->|]; [by rewrite bool_decide_eq_true_2 in HQ|by rewrite bool_decide_eq_false_2 in HQ by congruence].
Qed.
Lemma wp_add_slash (more : bool) s out size Q : holds s out size -> Z.of_nat (length s) < size ->
  (forall t out', t = take (Z.to_nat (size - 1)) (s ++ if more then [47] else []) -> holds t out' size -> Q (Z.of_nat (length t)) out') ->
  wp (if more && (Z.of_nat (length s) <? size - 1) then out <- get ;; out <- lift (arr_set out (Z.of_nat (length s)) 47) ;; put out ;; ret (Z.of_nat (length s) + 1)
      else ret (Z.of_nat (length s))) Q out.
Proof.
  intros Hh Hl HQ. destruct more; cbn [andb]; [destruct (Z.ltb_spec (Z.of_nat (length s)) (size - 1))|].
  - destruct (arr_set_holds _ 47 _ _ Hh Hl) as (out' & E & Hh'). wp_steps. eapply wp_lift; [exact E|]. wp_steps.
    replace (Z.of_nat (length s) + 1) with (Z.of_nat (length (s ++ [47]))) by (rewrite length_app; cbn; lia).
    apply HQ; [|done]. rewrite take_ge by (rewrite length_app; cbn; lia). done.
  - wp_steps. apply HQ; [|done]. rewrite take_app_le, take_ge by lia. done.
  - wp_steps. apply HQ; [|done]. rewrite app_nil_r, take_ge by lia. done.
Qed.
Lemma join_cut path name :
  take 127 (take 127 (take 127 path ++ if negb (bool_decide (last (take 127 path) = Some 47)) then [47] else []) ++ name) = take 127 (join path name).
Proof.
  unfold join. destruct (decide (length path <= 127)%nat).
  - rewrite !(take_ge path) by done. rewrite take_take_app, <- app_assoc. by case_bool_decide.
  - rewrite take_take_app, <- app_assoc. rewrite !(take_app_le _ _ 127), take_take by (rewrite ?length_take; lia). done.
Qed.
Lemma join_nz path name : Forall (fun c => c <> 0) path -> Forall (fun c => c <> 0) name -> Forall (fun c => c <> 0) (join path name).
Proof. intros Hp Hn. unfold join. apply Forall_app. split; [done|]. apply Forall_app. split; [|done]. case_bool_decide; [constructor|by apply Forall_singleton]. Qed.
(** The path is cut off where the array ends. *)
Lemma child_path_eq path name : Forall (fun c => c <> 0) path -> Forall (fun c => c <> 0) name -> child_path path name = Some (take 127 (join path name)).
Proof.
  intros Hp Hn. assert (Hwp : wp (build_child_path path name MAX_PATH) (fun _ out => c_string out = take 127 (join path name)) (replicate 128 0)).
  2:{ unfold child_path. unfold wp in Hwp. destruct (build_child_path _ _ _ _) as [[u out]|]; [by rewrite Hwp|done]. }
  unfold build_child_path. wp_step. apply (wp_copy_in MAX_PATH path []); [by exists (replicate 128 0)|done|]. cbn [app]. intros s out Es Hh.
  assert (Hl : Z.of_nat (length s) < MAX_PATH) by (rewrite Es, length_take; unfold MAX_PATH; lia).
  wp_step. eapply wp_ends_slash; [done|]. wp_step. eapply wp_add_slash; [done|done|]. intros t out1 Et Hh1.
  assert (Hl1 : Z.of_nat (length t) < MAX_PATH) by (rewrite Et, length_take; unfold MAX_PATH; lia).
  wp_step. apply wp_copy_in; [done|done|]. intros r out2 Er Hh2.
  assert (Hl2 : Z.of_nat (length r) < MAX_PATH) by (rewrite Er, length_take; unfold MAX_PATH; lia).
  destruct (arr_set_holds _ 0 _ _ Hh2 Hl2) as (out3 & E3 & rest & -> & _). wp_steps. eapply wp_lift; [exact E3|]. wp_steps.
  change (Z.to_nat (MAX_PATH - 1)) with 127%nat in *. subst t s. rewrite join_cut in Er. rewrite <- app_assoc. cbn [app]. rewrite c_string_app; [done|]. rewrite Er.
  by apply Forall_take, join_nz.
Qed.

(** ** Directories *)

Section fs.
(** The nodes of the file tree and the children of each. *)
Context (m : gmap Z vnode) (kids : Z -> list Z) (root : Z).

Definition dirp (c : Z) : bool := match m !! c with Some n => bool_decide (vn_type n = VFS_DIRECTORY) | None => false end.
Definition entry (c : Z) : list Z := name_of m c ++ (if dirp c then [47] else []) ++ [10].
(** The children whose entries fit. *)
Fixpoint fit (room : Z) (l : list Z) : list Z :=
  match l with
  | [] => []
  | c :: l' => if room <? Z.of_nat (length (entry c)) then [] else c :: fit (room - Z.of_nat (length (entry c))) l'
  end.
(** What [listdir] answers. *)
Definition listing (path : list Z) (n : Z) : Z * list Z :=
  match resolve m kids root (segments path) with
  | Some d => if dirp d then let b := concat (entry <$> fit (Z.min n 512) (kids d)) in (Z.of_nat (length b), b) else (-1, [])
  | None => (-1, [])
  end.

(** The state of a run is what has been printed. *)
Definition tree_reply {X} (e : sysc X) (out : list Z) : X -> list Z -> Prop :=
  match e in sysc X return X -> list Z -> Prop with
  | SListdir path n => fun x out' => x = listing path n /\ out' = out
  | SPrint b => fun _ out' => out' = out ++ b
  | _ => fun _ _ => True
  end.
#[local] Instance tree_env : Env (list Z) := { reply X e := tree_reply e; refused out := out; child_of out := out; forked out _ _ _ := out }.

(** *** What is to be printed *)

Fixpoint indent (depth : nat) : list Z := match depth with O => [] | S d => text "  " ++ indent d end.
Definition line (depth : nat) (c : Z) : list Z := indent depth ++ name_of m c ++ (if dirp c then text "/" else []) ++ newline.
(** [levels] directories deep. *)
Fixpoint shown (levels : nat) (depth : nat) (p : Z) : list Z :=
  match levels with
  | O => []
  | S levels' => concat ((fun c => line depth c ++ if dirp c then shown levels' (S depth) c else []) <$> fit LIST_BUF (kids p))
  end.

(** The directories below the one at [path0], with the paths that are built for them. *)
Inductive walk (path0 : list Z) (p0 : Z) : list Z -> Z -> Prop :=
  | walk_here : walk path0 p0 path0 p0
  | walk_down path p c : walk path0 p0 path p -> c ∈ kids p -> dirp c = true -> walk path0 p0 (join path (name_of m c)) c.

(** Names that fit and can be told apart, in a listing and in a path. *)
Definition plain (name : list Z) : Prop := name <> [] /\ Z.of_nat (length name) < MAX_NAME /\ Forall (fun c => c <> 0 /\ c <> 10 /\ c <> 47) name.
Record listable : Prop := {
  li_names : forall p c, c ∈ kids p -> plain (name_of m c);
  li_distinct : forall p c d, c ∈ kids p -> d ∈ kids p -> name_of m c = name_of m d -> c = d;
}.

(** *** Listings *)

Lemma fit_elem l : forall room c, c ∈ fit room l -> c ∈ l.
Proof.
  induction l as [|d l IH]; intros room c; cbn [fit]; [done|]. case_bool; [by intros ?%not_elem_of_nil|].
  intros [->|Hc]%elem_of_cons; [by left|right; by eapply IH].
Qed.
Lemma fit_length l : forall room, 0 <= room -> Z.of_nat (length (concat (entry <$> fit room l))) <= room.
Proof.
  induction l as [|d l IH]; intros room Hr; cbn [fit]; [done|]. case_bool; [done|]. cbn [fmap list_fmap concat]. rewrite length_app.
  specialize (IH (room - Z.of_nat (length (entry d))) ltac:(lia)). lia.
Qed.

Lemma concat_entries_length l : (length l <= length (concat (entry <$> l)))%nat.
Proof. induction l as [|c l IH]; cbn [fmap list_fmap concat length]; [done|]. unfold entry at 1. rewrite !length_app. cbn. lia. Qed.

Lemma find_newline_spec w rest : Forall (fun c => c <> 10) w -> forall pre fuel, (length w < fuel)%nat ->
  find_newline fuel (pre ++ w ++ 10 :: rest) (Z.of_nat (length (pre ++ w ++ 10 :: rest))) (Z.of_nat (length pre)) = Some (Z.of_nat (length pre + length w)).
Proof.
  induction 1 as [|c w Hc Hw IH]; intros pre fuel Hf; (destruct fuel as [|fuel]; [cbn in Hf; lia|]); cbn [find_newline].
  - rewrite (proj2 (Z.ltb_lt _ _)) by (rewrite !length_app; cbn; lia). unfold arr_get. rewrite (proj2 (Z.leb_le 0 _)), Nat2Z.id by lia.
    cbn [app]. rewrite list_lookup_middle by done. cbn. f_equal. lia.
  - rewrite (proj2 (Z.ltb_lt _ _)) by (rewrite !length_app; cbn; lia). unfold arr_get. rewrite (proj2 (Z.leb_le 0 _)), Nat2Z.id by lia.
    cbn [app]. rewrite list_lookup_middle by done. rewrite (proj2 (Z.eqb_neq c 10)) by done.
    specialize (IH (pre ++ [c]) fuel ltac:(cbn in Hf; lia)). rewrite <- !app_assoc in IH. cbn [app] in IH.
    replace (Z.of_nat (length pre) + 1) with (Z.of_nat (length (pre ++ [c]))) by (rewrite length_app; cbn; lia). rewrite IH. f_equal. rewrite length_app. cbn. lia.
Qed.
Lemma exec_print_indent d : forall out (Q : ending unit -> list Z -> Prop), Q (Returned tt) (out ++ indent d) -> exec (print_indent d) out Q.
Proof.
  induction d as [|d IH]; intros out Q HQ; cbn [print_indent indent] in *; [by rewrite app_nil_r in HQ|]. cbn [ask pbind exec]. intros _ s ->.
  apply IH. by rewrite <- app_assoc.
Qed.

Lemma plain_nz name : plain name -> Forall (fun c => c <> 0) name.
Proof. intros (_ & _ & H). eapply Forall_impl; [exact H|]. cbn. tauto. Qed.
(** An entry in front of the others is taken apart. *)
Lemma listing_parts pre c rest : plain (name_of m c) ->
  let buf := pre ++ entry c ++ rest in
  let e := Z.of_nat (length pre + length (name_of m c) + (if dirp c then 1 else 0)) in
  Z.of_nat (length buf) <= 512 ->
  find_newline 512 buf (Z.of_nat (length buf)) (Z.of_nat (length pre)) = Some e /\
  (exists x, arr_get buf (e - 1) = Some x /\ (x =? 47) = dirp c) /\
  entry_name buf (Z.of_nat (length pre)) (Z.of_nat (length (name_of m c))) = Some (name_of m c).
Proof.
  intros Hpl buf e Hlen. pose proof Hpl as (Hne & Hl & Hch). set (nm := name_of m c) in *.
  set (w := nm ++ (if dirp c then [47] else [])).
  assert (Eb : buf = pre ++ w ++ 10 :: rest) by (unfold buf, entry, w, nm; by rewrite <- !app_assoc).
  assert (Lw : length w = (length nm + (if dirp c then 1 else 0))%nat) by (unfold w; rewrite length_app; by destruct (dirp c)).
  assert (Hlb : length buf = (length pre + (length w + S (length rest)))%nat) by (rewrite Eb, !length_app; done).
  split_and!.
  - rewrite Eb. rewrite find_newline_spec; [f_equal; unfold e; lia| |lia].
    unfold w. apply Forall_app. split; [eapply Forall_impl; [exact Hch|cbn; tauto]|]. destruct (dirp c); [by apply Forall_singleton|constructor].
  - assert (Hw : exists w' x, w = w' ++ [x] /\ (x =? 47) = dirp c).
    { unfold w. destruct (dirp c); [by exists nm, 47|]. destruct (exists_last Hne) as (w' & x & E). exists w', x. rewrite app_nil_r. split; [done|].
      rewrite E in Hch. apply Forall_app in Hch as [_ [(_ & _ & Hx) _]%Forall_cons]. by apply Z.eqb_neq. }
    destruct Hw as (w' & x & E & Hx). exists x. split; [|done]. rewrite Eb, E, <- app_assoc, app_assoc. unfold arr_get.
    assert (e - 1 = Z.of_nat (length (pre ++ w'))) as -> by (unfold e; rewrite E, length_app in Lw; cbn in Lw; rewrite length_app; lia).
    rewrite (proj2 (Z.leb_le 0 _)), Nat2Z.id by lia. cbn [app]. by rewrite list_lookup_middle.
  - unfold entry_name. rewrite (proj2 (Z.leb_gt MAX_NAME (Z.of_nat (length nm)))) by lia. rewrite (proj2 (Z.leb_le _ _)) by lia. rewrite !Nat2Z.id, Eb, drop_app_length. unfold w.
    rewrite <- app_assoc, take_app_length. f_equal. by apply c_string_id, plain_nz.
Qed.

Lemma exec_entries (rec : list Z -> prog unit) path depth (below : Z -> list Z) : Forall (fun c => c <> 0) path -> forall l fuel pre out,
  (length l <= fuel)%nat -> Forall (fun c => plain (name_of m c)) l ->
  Z.of_nat (length (pre ++ concat (entry <$> l))) <= 512 ->
  (forall c out, c ∈ l -> dirp c = true -> exec (rec (take 127 (join path (name_of m c)))) out (fun o s => o = Returned tt /\ s = out ++ below c)) ->
  exec (entries fuel rec path depth (pre ++ concat (entry <$> l)) (Z.of_nat (length (pre ++ concat (entry <$> l)))) (Z.of_nat (length pre))) out
    (fun o s => o = Returned tt /\ s = out ++ concat ((fun c => line depth c ++ if dirp c then below c else []) <$> l)).
Proof.
  intros Hpath. induction l as [|c l IH]; intros fuel pre out Hf Hpl Hlen Hrec.
  - cbn [fmap list_fmap concat] in *. rewrite app_nil_r in *. destruct fuel; cbn [entries]; rewrite Z.ltb_irrefl; by rewrite app_nil_r.
  - destruct fuel as [|fuel]; [cbn in Hf; lia|]. cbn [fmap list_fmap concat] in *. apply Forall_cons in Hpl as [Hc Hpl].
    destruct (listing_parts pre c (concat (entry <$> l)) Hc Hlen) as (E1 & (x & E2 & Hx) & E3). set (buf := pre ++ entry c ++ concat (entry <$> l)) in *.
    assert (Hle : length (entry c) = (length (name_of m c) + (if dirp c then 1 else 0) + 1)%nat) by (unfold entry; rewrite !length_app; destruct (dirp c); cbn; lia).
    assert (Hlb : length buf = (length pre + (length (entry c) + length (concat (entry <$> l))))%nat) by (unfold buf; by rewrite !length_app).
    assert (Hn0 : (0 < length (name_of m c))%nat) by (destruct Hc as [Hne _]; destruct (name_of m c); [done|cbn; lia]).
    set (i := Z.of_nat (length pre)) in *. set (e := Z.of_nat (length pre + length (name_of m c) + (if dirp c then 1 else 0))) in *.
    assert (Elen : (if dirp c then e - i - 1 else e - i) = Z.of_nat (length (name_of m c))) by (unfold e, i; destruct (dirp c); lia).
    cbn [entries]. rewrite (proj2 (Z.ltb_lt i _)) by (unfold i; lia). rewrite E1. cbn [plift pbind]. rewrite (proj2 (Z.ltb_lt 0 _)) by (unfold e, i; lia).
    rewrite E2. cbn [plift pbind]. rewrite Hx, Elen, (proj2 (Z.eqb_neq _ 0)), (proj2 (Z.ltb_lt e _)) by (unfold e; lia). rewrite E3. cbn [plift pbind].
    apply exec_bind. apply exec_bind. apply exec_print_indent. cbn [continue ask pbind exec]. intros _ s1 ->.
    assert (Hnext : forall o, exec (entries fuel rec path depth buf (Z.of_nat (length buf)) (e + 1)) o
      (fun r s => r = Returned tt /\ s = o ++ concat ((fun c => line depth c ++ if dirp c then below c else []) <$> l))).
    { intros o. specialize (IH fuel (pre ++ entry c) o). rewrite <- app_assoc in IH. fold buf in IH.
      replace (e + 1) with (Z.of_nat (length (pre ++ entry c))) by (unfold e; rewrite length_app, Hle; lia).
      apply IH; [cbn in Hf; lia|done|done|]. intros d o' Hd. apply Hrec. by right. }
    unfold line. destruct (dirp c) eqn:Hd.
    + rewrite child_path_eq by (done || by apply plain_nz). cbn [plift pbind]. eapply exec_mono; [|apply Hrec; [by left|done]].
      intros o s (-> & ->). eapply exec_mono; [|apply Hnext]. intros o s (-> & ->). split; [done|]. by rewrite !app_assoc.
    + cbn [exec continue]. eapply exec_mono; [|apply Hnext]. intros o s (-> & ->). split; [done|]. cbn [app]. by rewrite app_nil_r, <- !app_assoc.
Qed.

(** *** Paths that are built lead to the directories *)

Lemma split_path_app a b : split_path (a ++ 47 :: b) = split_path a ++ split_path b.
Proof.
  induction a as [|c a IH]; [done|]. cbn [app split_path]. destruct (c =? slash); [by rewrite IH|]. rewrite IH. by destruct (split_path a) eqn:E; [destruct (split_path_ne a)|].
Qed.
Lemma segments_app a b : segments (a ++ 47 :: b) = segments a ++ segments b.
Proof. unfold segments. by rewrite split_path_app, filter_app. Qed.
Lemma segments_join path name : plain name -> segments (join path name) = segments path ++ [name].
Proof.
  intros (Hne & _ & Hch). assert (Es : segments name = [name]).
  { rewrite segments_self by (eapply Forall_impl; [exact Hch|cbn; tauto]). destruct name; [done|]. reflexivity. }
  unfold join. case_bool_decide as Hl; [|cbn [app]; by rewrite segments_app, Es].
  apply last_Some in Hl as [p' ->]. rewrite <- app_assoc. cbn [app]. rewrite !segments_app, Es. change (segments []) with (@nil (list Z)). by rewrite app_nil_r.
Qed.
Lemma resolve_app a : forall p b, resolve m kids p (a ++ b) = match resolve m kids p a with Some q => resolve m kids q b | None => None end.
Proof. induction a as [|s a IH]; intros p b; [done|]. cbn. by destruct (child_named m (kids p) s). Qed.
Lemma child_named_self (Hli : listable) p c : c ∈ kids p -> child_named m (kids p) (name_of m c) = Some c.
Proof.
  intros Hc. unfold child_named. destruct (List.find _ (kids p)) as [d|] eqn:E.
  - apply List.find_some in E as [Hd Hn%bool_decide_eq_true]. f_equal. by apply (li_distinct Hli p); [apply list_elem_of_In|..].
  - apply (List.find_none _ _) with (x := c) in E; [|by apply list_elem_of_In]. by rewrite bool_decide_eq_true_2 in E.
Qed.

Section walks.
Context (Hli : listable) (path0 : list Z) (p0 : Z).
Context (Hnz : Forall (fun c => c <> 0) path0) (Hp0 : resolve m kids root (segments path0) = Some p0).
Context (Hshort : forall path p, walk path0 p0 path p -> (length path <= 127)%nat).

Lemma walk_resolves path p : walk path0 p0 path p -> Forall (fun c => c <> 0) path /\ resolve m kids root (segments path) = Some p.
Proof.
  induction 1 as [|path p c _ [IH1 IH2] Hc _]; [done|]. pose proof (li_names Hli _ _ Hc) as Hpl. split; [by apply join_nz; [|apply plain_nz]|].
  rewrite segments_join, resolve_app, IH2 by done. cbn. by rewrite child_named_self.
Qed.
Lemma exec_tree : forall fuel depth path p out, (depth + fuel = 18)%nat -> (depth <= 17)%nat -> dirp p = true -> walk path0 p0 path p ->
  exec (tree fuel path depth) out (fun o s => o = Returned tt /\ s = out ++ shown (17 - depth) depth p).
Proof.
  induction fuel as [|fuel IH]; intros depth path p out Hd Hd17 Hdir Hw; [lia|]. cbn [tree]. unfold MAX_DEPTH.
  destruct (Nat.ltb_spec 16 depth) as [Hgt|Hle].
  { cbn [exec]. assert (depth = 17%nat) as -> by lia. cbn. by rewrite app_nil_r. }
  destruct (walk_resolves _ _ Hw) as [Hz Hr]. cbn [ask pbind exec]. intros x s1 (-> & ->). unfold listing. rewrite Hr, Hdir. cbn [fst snd].
  change (Z.min LIST_BUF 512) with LIST_BUF. set (l := fit LIST_BUF (kids p)).
  rewrite (proj2 (Z.ltb_ge _ 0)) by lia. replace (17 - depth)%nat with (S (16 - depth)) by lia. cbn [shown]. fold l.
  pose proof (fit_length (kids p) LIST_BUF ltac:(done)) as Hlen. fold l in Hlen.
  assert (Hin : forall c, c ∈ l -> c ∈ kids p) by (intros c; apply fit_elem).
  apply (exec_entries (fun child => tree fuel child (S depth)) path depth (shown (16 - depth) (S depth)) Hz l 512 []); [| |done|].
  - pose proof (concat_entries_length l). unfold LIST_BUF in Hlen. lia.
  - apply Forall_forall. intros c Hc. by apply (li_names Hli p), Hin.
  - intros c o Hc Hcd. assert (Hw' : walk path0 p0 (join path (name_of m c)) c) by (apply (walk_down _ _ path p); auto).
    rewrite take_ge by (by eapply Hshort). eapply exec_mono; [|apply (IH (S depth) _ c); [lia|lia|done|done]]. by intros r s.
Qed.
End walks.

(** C19: tree prints the directory it is given and the tree below it: every entry that
    the kernel lists on a line of its own, two blanks for each level, a slash behind the
    name of a directory and then its entries, down to 16 levels.  The names have at
    most 63 bytes, without newlines and slashes, and differ within a directory, and the
    paths have at most 127 bytes. *)
Theorem tree_correct argv path p out :
  path = match argv with _ :: a :: _ => a | _ => text "/" end ->
  listable -> Forall (fun c => c <> 0) path -> resolve m kids root (segments path) = Some p -> dirp p = true ->
  (forall q d, walk path p q d -> (length q <= 127)%nat) ->
  exec (tree_main argv) out (fun o s => o = Returned 0 /\ s = out ++ path ++ newline ++ shown 16 1 p).
Proof.
  intros -> Hli Hnz Hp Hdir Hshort. unfold tree_main. cbn [ask pbind exec]. intros _ s1 ->. apply exec_bind.
  eapply exec_mono; [|eapply exec_tree; [exact Hli|exact Hnz|exact Hp|exact Hshort|done|lia|exact Hdir|constructor]].
  intros o s (-> & ->). cbn [continue exec]. by rewrite <- !app_assoc.
Qed.

(** The listing of a directory is what the kernel collects from its children. *)
Lemma kernel_lists {S H : Type} (k : kernel S H) bufsize l : k_nodes k = m -> forall a acc fuel, chain m a l -> (length l <= fuel)%nat ->
  wp (dir_entries a bufsize acc fuel) (fun b k' => k' = k /\ b = acc ++ concat (entry <$> fit (bufsize - Z.of_nat (length acc)) l)) k.
Proof.
  intros Hm. induction l as [|c l IH]; intros a acc fuel Hch Hf.
  - cbn in Hch. subst a. destruct fuel; cbn; by rewrite app_nil_r.
  - destruct fuel as [|fuel]; [cbn in Hf; lia|]. destruct Hch as (-> & Hc0 & n & Hn & Hch). cbn [dir_entries]. rewrite (proj2 (Z.eqb_neq c 0)) by done.
    wp_step. unfold wp at 1, get_node. rewrite Hm, Hn. cbn [fit].
    assert (Ee : entry c = vn_name n ++ (if bool_decide (vn_type n = VFS_DIRECTORY) then [47] else []) ++ [10]) by (unfold entry, name_of, dirp; by rewrite Hn).
    assert (El : Z.of_nat (length (entry c)) = Z.of_nat (length (vn_name n)) + 1 + (if bool_decide (vn_type n = VFS_DIRECTORY) then 1 else 0)).
    { rewrite Ee, !length_app. case_bool_decide; cbn; lia. }
    rewrite <- El, <- Ee. destruct (Z.ltb_spec bufsize (Z.of_nat (length acc) + Z.of_nat (length (entry c)))).
    + rewrite (proj2 (Z.ltb_lt _ _)) by lia. wp_steps. by rewrite app_nil_r.
    + rewrite (proj2 (Z.ltb_ge _ _)) by lia. eapply wp_mono; [apply IH; [done|cbn in Hf; lia]|]. intros b k' (-> & ->). split; [done|].
      cbn [fmap list_fmap concat]. rewrite length_app, <- app_assoc, Nat2Z.inj_add. by rewrite Z.sub_add_distr.
Qed.
End fs.

(** "/" with the directory "d", which has the file "f". *)
Lemma demo_walk q d : walk demo_nodes demo_kids (text "/") 16 q d -> (q = text "/" /\ d = 16) \/ (q = text "/d" /\ d = 32).
Proof.
  induction 1 as [|path p c _ IH [[-> ->]|[-> ->]]%demo_kids_inv Hd]; [by left| |by vm_compute in Hd].
  destruct IH as [[-> _]|[_ ?]]; [right|done]. split; [by vm_compute|done].
Qed.
Lemma demo_listable : listable demo_nodes demo_kids.
Proof.
  split.
  - intros p c [[-> ->]|[-> ->]]%demo_kids_inv; (split; [done|]; split; [done|]; by apply Forall_singleton).
  - intros p c d Hc%demo_kids_inv Hd%demo_kids_inv _. lia.
Qed.
Lemma tree_correct_witness :
  @exec _ (tree_env demo_nodes demo_kids 16) _ (tree_main []) [] (fun o s => o = Returned 0 /\ s = text "/" ++ newline ++ text "  d/" ++ newline ++ text "    f" ++ newline).
Proof.
  eapply exec_mono; [|apply (tree_correct demo_nodes demo_kids 16 [] (text "/") 16 [] eq_refl demo_listable)].
  - intros o s (-> & ->). split; [reflexivity|]. vm_compute. reflexivity.
  - apply Forall_singleton. discriminate.
  - reflexivity.
  - reflexivity.
  - intros q d [[-> _]|[-> _]]%demo_walk; cbn; lia.
Defined.

(** ** cat *)

(** What is left of the input, and the output. *)
Record cat_io := mkCat { i_rest : list Z; i_out : list Z }.
Definition cat_reply {X} (e : sysc X) (s : cat_io) : X -> cat_io -> Prop :=
  match e in sysc X return X -> cat_io -> Prop with
  | SOpen _ => fun _ s' => s' = s
  | SRead _ n => fun x s' => fst x = Z.of_nat (length (snd x)) /\ fst x <= n /\ (fst x = 0 -> i_rest s = []) /\
      exists rest, i_rest s = snd x ++ rest /\ s' = mkCat rest (i_out s)
  | SWrite _ b => fun _ s' => s' = mkCat (i_rest s) (i_out s ++ b)
  | SPrint b => fun _ s' => s' = mkCat (i_rest s) (i_out s ++ b)
  | SClose _ => fun _ s' => s' = s
  | _ => fun _ _ => True
  end.
#[export] Instance cat_env : Env cat_io := { reply X e := cat_reply e; refused s := s; child_of s := s; forked s _ _ _ := s }.

Lemma exec_cat_loop fd : forall fuel rest out, (length rest < fuel)%nat ->
  exec (cat_loop fuel fd) (mkCat rest out) (fun o s => o = Returned tt /\ s = mkCat [] (out ++ rest)).
Proof.
  induction fuel as [|fuel IH]; intros rest out Hf; [lia|]. cbn [cat_loop ask pbind exec]. intros [n b] s1 (Hn & _ & H0 & rest' & E & ->). cbn in *. subst n rest.
  destruct (Z.ltb_spec 0 (Z.of_nat (length b))) as [Hb|Hb].
  - cbn [ask pbind exec]. intros _ s2 ->. cbn. eapply exec_mono; [|apply IH; rewrite length_app in Hf; lia]. intros o s (-> & ->). by rewrite <- app_assoc.
  - destruct b; [|cbn in Hb; lia]. cbn. specialize (H0 eq_refl). cbn in H0. subst rest'. by rewrite app_nil_r.
Qed.
(** cat copies all of its input, however it arrives, or says that there is no such file. *)
Lemma cat_copies fuel argv rest : (length rest < fuel)%nat ->
  exec (cat_main fuel argv) (mkCat rest []) (fun o s =>
    (o = Returned 0 /\ s = mkCat [] rest) \/
    exists prog file args, argv = prog :: file :: args /\ o = Returned 1 /\ s = mkCat rest (text "cat: " ++ file ++ text ": No such file" ++ newline)).
Proof.
  intros Hf. assert (Hcopy : forall fd, exec (cat_loop fuel fd ;;; (if negb (fd =? 0) then ask (SClose fd) ;;; Done tt else Done tt) ;;; Done 0)%prog (mkCat rest [])
    (fun o s => o = Returned 0 /\ s = mkCat [] rest)).
  { intros fd. apply exec_bind. eapply exec_mono; [|by apply exec_cat_loop]. intros o s (-> & ->). cbn [continue]. destruct (negb _); cbn; [intros _ s ->|]; done. }
  destruct argv as [|a [|file args]]; cbn [cat_main].
  1,2: eapply exec_mono; [|apply Hcopy]; intros o s Hs; by left.
  cbn [ask pbind exec]. intros fd s1 ->. destruct (fd <? 0).
  - cbn. intros _ s ->. right. by exists a, file, args.
  - eapply exec_mono; [|apply Hcopy]. intros o s Hs. by left.
Qed.
