(* ===== verification/Compositor.v ===== *)
(** * The compositor (src/crates/userland/compositor)

    Drawing the screen from the background, the windows of the clients and the pointer,
    in a frame buffer that is an array of pixels: an access outside it, an index outside
    a window's pixels and an overflow of [i32] are undefined.  The windows do not change
    while they are drawn. *)

From S2P Require Import Prelude.

Definition BG_COLOR : Z := 0xff282828.
Definition CURSOR_COLOR : Z := 0xffebdbb2.
Definition CURSOR_W : Z := 8.
Definition CURSOR_H : Z := 8.
Definition CURSOR_BITMAP : list Z := [0x80; 0xC0; 0xE0; 0xF0; 0xF8; 0xE0; 0xB0; 0x18].
Definition MAX_WINDOWS : nat := 2.
Definition MAX_WIN_W : Z := 320.
Definition MAX_WIN_H : Z := 240.

Record WindowSlot := mkSlot { active : Z; win_x : Z; win_y : Z; win_w : Z; win_h : Z; pixels : list Z }.

(** ** The code *)

Abbreviation F := (M (list Z)).
Definition write_pixel (i v : Z) : F unit := l <- get ;; l' <- lift (arr_set l i v) ;; put l'.
(** [a + b] on [i32]. *)
Definition add_i32 (a b : Z) : F Z := if (-2147483648 <=? a + b) && (a + b <? 2147483648) then ret (a + b) else undef.

Definition clamp (v lo hi : Z) : Z := if v <? lo then lo else if hi <? v then hi else v.

Definition paint_background (stride width height : Z) : F unit :=
  for_range 0 (Z.to_nat height) (fun y => for_range 0 (Z.to_nat width) (fun x => write_pixel (x + y * stride) BG_COLOR)).

Definition blit_window (stride fb_w fb_h : Z) (slot : WindowSlot) : F unit :=
  if active slot =? 0 then ret tt
  else
    let w := win_w slot in
    let h := win_h slot in
    for_range 0 (Z.to_nat h) (fun row => for_range 0 (Z.to_nat w) (fun col =>
      px <- add_i32 (win_x slot) (s32 col) ;;
      py <- add_i32 (win_y slot) (s32 row) ;;
      if (0 <=? px) && (0 <=? py) && (px <? fb_w) && (py <? fb_h) then
        pixel <- lift (arr_get (pixels slot) (row * w + col)) ;;
        write_pixel (px + py * stride) pixel
      else ret tt)).

Definition draw_cursor (stride width height x y : Z) : F unit :=
  for_range 0 (Z.to_nat CURSOR_H) (fun row =>
    bits <- lift (arr_get CURSOR_BITMAP row) ;;
    for_range 0 (Z.to_nat CURSOR_W) (fun col =>
      if Z.land bits (Z.shiftr 0x80 col) =? 0 then ret tt
      else
        px <- add_i32 x (s32 col) ;;
        py <- add_i32 y (s32 row) ;;
        if (0 <=? px) && (0 <=? py) && (px <? width) && (py <? height) then write_pixel (px + py * stride) CURSOR_COLOR
        else ret tt)).

Definition redraw (stride width height : Z) (slots : list WindowSlot) (cx cy : Z) : F unit :=
  paint_background stride width height ;;
  for_range 0 MAX_WINDOWS (fun i => slot <- lift (arr_get slots i) ;; blit_window stride width height slot) ;;
  draw_cursor stride width height cx cy.

(** The pointer after the packets (dx, dy) that were waiting. *)
Fixpoint drain (width height : Z) (packets : list (Z * Z)) (cx cy : Z) : F (Z * Z) :=
  match packets with
  | [] => ret (cx, cy)
  | (dx, dy) :: packets' =>
      x <- add_i32 cx dx ;;
      y <- add_i32 cy (- dy) ;;
      drain width height packets' (clamp x 0 (width - 1)) (clamp y 0 (height - 1))
  end.

(** One round of the loop of [main]. *)
Definition frame (stride width height : Z) (slots : list WindowSlot) (packets : list (Z * Z)) (cx cy : Z) : F (Z * Z) :=
  c <- drain width height packets cx cy ;;
  redraw stride width height slots (fst c) (snd c) ;;
  ret c.

(** ** What the screen shows *)

Definition cursor_pixel (cx cy X Y : Z) : option Z :=
  if (cx <=? X) && (X <? cx + 8) && (cy <=? Y) && (Y <? cy + 8) then
    match arr_get CURSOR_BITMAP (Y - cy) with
    | Some bits => if Z.testbit bits (7 - (X - cx)) then Some CURSOR_COLOR else None
    | None => None
    end
  else None.
Definition window_pixel (s : WindowSlot) (X Y : Z) : option Z :=
  if negb (active s =? 0) && (win_x s <=? X) && (X <? win_x s + win_w s) && (win_y s <=? Y) && (Y <? win_y s + win_h s)
  then arr_get (pixels s) ((Y - win_y s) * win_w s + (X - win_x s)) else None.
Definition over (f g : Z -> Z -> option Z) (X Y : Z) : option Z := match f X Y with Some v => Some v | None => g X Y end.
(** The pointer over the later windows over the earlier ones over the background. *)
Definition picture (slots : list WindowSlot) (cx cy : Z) : Z -> Z -> option Z :=
  over (cursor_pixel cx cy) (foldl (fun f s => over (window_pixel s) f) (fun _ _ => Some BG_COLOR) slots).

(** A window that a client has asked for, clipped to the largest size. *)
Record slot_ok (s : WindowSlot) : Prop := {
  so_w : 0 <= win_w s <= MAX_WIN_W;
  so_h : 0 <= win_h s <= MAX_WIN_H;
  so_pixels : length (pixels s) = Z.to_nat (MAX_WIN_W * MAX_WIN_H);
  so_x : -2147483648 <= win_x s < 2147483648 - 320;
  so_y : -2147483648 <= win_y s < 2147483648 - 240;
}.

Section screen.
Context (stride W H : Z).
Hypothesis HW : 0 < W <= stride.
Hypothesis HH : 0 < H.
Hypothesis Hmax : W < 1073741824 /\ H < 1073741824.

Definition on_screen (X Y : Z) : Prop := 0 <= X < W /\ 0 <= Y < H.
(** [f] has been drawn over [fb], and nothing beside the visible pixels is changed. *)
Record drawn (f : Z -> Z -> option Z) (fb fb' : list Z) : Prop := {
  dr_length : length fb' = length fb;
  dr_pixels : forall X Y, on_screen X Y -> arr_get fb' (X + Y * stride) = match f X Y with Some v => Some v | None => arr_get fb (X + Y * stride) end;
  dr_hidden : forall i, (forall X Y, on_screen X Y -> i <> X + Y * stride) -> arr_get fb' i = arr_get fb i;
}.

Lemma pixel_inj X Y X' Y' : on_screen X Y -> on_screen X' Y' -> X + Y * stride = X' + Y' * stride -> X = X' /\ Y = Y'.
Proof. unfold on_screen. intros [H1 H2] [H3 H4] E. assert (Y = Y') by nia. subst Y'. split; [lia|done]. Qed.
Lemma pixel_range X Y : on_screen X Y -> 0 <= X + Y * stride < stride * H.
Proof. unfold on_screen. intros [H1 H2]. nia. Qed.
Lemma drawn_none fb f : (forall X Y, on_screen X Y -> f X Y = None) -> drawn f fb fb.
Proof. intros Hf. split; [done| |done]. intros X Y Hp. by rewrite Hf. Qed.
Lemma drawn_trans f g fb fb1 fb2 : drawn f fb fb1 -> drawn g fb1 fb2 -> drawn (over g f) fb fb2.
Proof.
  intros [A1 A2 A3] [B1 B2 B3]. split; [congruence| |intros i Hi; by rewrite B3, A3].
  intros X Y Hp. rewrite B2 by done. unfold over. destruct (g X Y); [done|by apply A2].
Qed.
Lemma drawn_ext f g fb fb' : drawn f fb fb' -> (forall X Y, on_screen X Y -> f X Y = g X Y) -> drawn g fb fb'.
Proof. intros [A1 A2 A3] E. split; [done| |done]. intros X Y Hp. by rewrite <- E, A2. Qed.
Lemma wp_write_pixel X Y v fb : on_screen X Y -> Z.of_nat (length fb) = stride * H ->
  wp (write_pixel (X + Y * stride) v) (fun _ => drawn (fun X' Y' => if (X' =? X) && (Y' =? Y) then Some v else None) fb) fb.
Proof.
  intros Hp Hl. pose proof (pixel_range X Y Hp) as Hr. unfold write_pixel. wp_step. wp_step. wp_step. eapply wp_lift; [apply arr_set_Some; lia|]. wp_step.
  assert (E : forall i, arr_get (<[Z.to_nat (X + Y * stride) := v]> fb) i = if i =? X + Y * stride then Some v else arr_get fb i).
  { intros i. unfold arr_get. destruct (Z.leb_spec 0 i); [|by destruct (Z.eqb_spec i (X + Y * stride)); [lia|]].
    destruct (Z.eqb_spec i (X + Y * stride)) as [->|]; [apply list_lookup_insert_eq; lia|apply list_lookup_insert_ne; lia]. }
  split; [apply length_insert| |].
  - intros X' Y' Hp'. rewrite E. destruct (Z.eqb_spec (X' + Y' * stride) (X + Y * stride)) as [Ei|Ni].
    + destruct (pixel_inj _ _ _ _ Hp' Hp Ei) as [-> ->]. by rewrite !Z.eqb_refl.
    + destruct (Z.eqb_spec X' X) as [->|]; [|done]. destruct (Z.eqb_spec Y' Y) as [->|]; [|done]. done.
  - intros i Hi. rewrite E. destruct (Z.eqb_spec i (X + Y * stride)); [|done]. by apply Hi in Hp.
Qed.

(** ** Rows and rectangles *)

Abbreviation whole fb := (Z.of_nat (length fb) = stride * H).

Lemma wp_row x yy w (c : Z -> option Z) body fb : 0 <= w -> whole fb ->
  (forall col fb1, 0 <= col < w -> whole fb1 -> wp (body col) (fun _ => drawn (fun X Y => if (X =? x + col) && (Y =? yy) then c col else None) fb1) fb1) ->
  wp (for_range 0 (Z.to_nat w) body) (fun _ => drawn (fun X Y => if (x <=? X) && (X <? x + w) && (Y =? yy) then c (X - x) else None) fb) fb.
Proof.
  intros Hw Hl Hb. eapply wp_mono; [apply (wp_for_range (fun i => drawn (fun X Y => if (x <=? X) && (X <? x + i) && (Y =? yy) then c (X - x) else None) fb))|].
  - apply drawn_none. intros X Y _. by case_bools.
  - intros i fb1 Hi Hd. eapply wp_mono; [apply Hb; [lia|rewrite (dr_length _ _ _ Hd); exact Hl]|]. intros [] fb2 Hd2.
    eapply drawn_ext; [by eapply drawn_trans|]. intros X Y _. unfold over. destruct (Z.eqb_spec X (x + i)) as [->|Hne]; destruct (Z.eqb_spec Y yy) as [->|]; cbn [andb].
    + replace (x + i - x) with i by lia. case_bools. by destruct (c i).
    + by rewrite !andb_false_r.
    + case_bools; done.
    + by rewrite !andb_false_r.
  - intros [] fb' Hd. eapply drawn_ext; [exact Hd|]. intros X Y _. by replace (x + (0 + Z.of_nat (Z.to_nat w))) with (x + w) by lia.
Qed.
Lemma wp_rows y h (r : Z -> Z -> option Z) body fb : 0 <= h -> whole fb ->
  (forall row fb1, 0 <= row < h -> whole fb1 -> wp (body row) (fun _ => drawn (fun X Y => if Y =? y + row then r row X else None) fb1) fb1) ->
  wp (for_range 0 (Z.to_nat h) body) (fun _ => drawn (fun X Y => if (y <=? Y) && (Y <? y + h) then r (Y - y) X else None) fb) fb.
Proof.
  intros Hh Hl Hb. eapply wp_mono; [apply (wp_for_range (fun i => drawn (fun X Y => if (y <=? Y) && (Y <? y + i) then r (Y - y) X else None) fb))|].
  - apply drawn_none. intros X Y _. by case_bools.
  - intros i fb1 Hi Hd. eapply wp_mono; [apply Hb; [lia|rewrite (dr_length _ _ _ Hd); exact Hl]|]. intros [] fb2 Hd2.
    eapply drawn_ext; [by eapply drawn_trans|]. intros X Y _. unfold over. destruct (Z.eqb_spec Y (y + i)) as [->|Hne].
    + replace (y + i - y) with i by lia. case_bools. by destruct (r i X).
    + case_bools; done.
  - intros [] fb' Hd. eapply drawn_ext; [exact Hd|]. intros X Y _. by replace (y + (0 + Z.of_nat (Z.to_nat h))) with (y + h) by lia.
Qed.

(** A pixel of a window or of the pointer that may lie outside the screen. *)
Lemma wp_clipped px py v fb : whole fb ->
  wp (if (0 <=? px) && (0 <=? py) && (px <? W) && (py <? H) then write_pixel (px + py * stride) v else ret tt)
    (fun _ => drawn (fun X Y => if (X =? px) && (Y =? py) then Some v else None) fb) fb.
Proof.
  intros Hl. destruct ((0 <=? px) && (0 <=? py) && (px <? W) && (py <? H)) eqn:E.
  - apply wp_write_pixel; [unfold on_screen; case_bools; lia|done].
  - wp_step. apply drawn_none. intros X Y [H1 H2]. destruct (Z.eqb_spec X px) as [->|]; [|done]. destruct (Z.eqb_spec Y py) as [->|]; [|done]. case_bools.
Qed.
Lemma wp_add_i32 a b Q s : -2147483648 <= a + b < 2147483648 -> Q (a + b) s -> wp (add_i32 a b) Q s.
Proof. intros Hr HQ. unfold add_i32. replace ((-2147483648 <=? a + b) && (a + b <? 2147483648)) with true by lia. by wp_step. Qed.

Lemma wp_paint_background fb : whole fb -> wp (paint_background stride W H) (fun _ => drawn (fun _ _ => Some BG_COLOR) fb) fb.
Proof.
  intros Hl. eapply wp_mono; [apply (wp_rows 0 H (fun _ X => if (0 <=? X) && (X <? 0 + W) then Some BG_COLOR else None)); [lia|done|]|].
  - intros row fb1 Hr Hl1. eapply wp_mono; [apply (wp_row 0 row W (fun _ => Some BG_COLOR)); [lia|done|]|].
    + intros col fb2 Hc Hl2. eapply wp_mono; [apply wp_write_pixel; [by split|done]|]. intros [] fb3 Hd. by eapply drawn_ext.
    + intros [] fb2 Hd. eapply drawn_ext; [exact Hd|]. intros X Y _. rewrite !Z.add_0_l. by destruct (Y =? row); rewrite ?andb_true_r, ?andb_false_r.
  - intros [] fb1 Hd. eapply drawn_ext; [exact Hd|]. intros X Y [HX HY]. by case_bools.
Qed.

Lemma wp_blit_window s fb : whole fb -> (active s <> 0 -> slot_ok s) -> wp (blit_window stride W H s) (fun _ => drawn (window_pixel s) fb) fb.
Proof.
  intros Hl Hok. unfold blit_window. destruct (Z.eqb_spec (active s) 0) as [E|Hact]; [wp_step; apply drawn_none; intros X Y _; unfold window_pixel; by rewrite E|].
  destruct (Hok Hact) as [Hw Hh Hpx Hx Hy]. unfold MAX_WIN_W, MAX_WIN_H in *. cbv zeta.
  eapply wp_mono; [apply (wp_rows (win_y s) (win_h s) (fun row X => if (win_x s <=? X) && (X <? win_x s + win_w s) then arr_get (pixels s) (row * win_w s + (X - win_x s)) else None)); [lia|done|]|].
  - intros row fb1 Hr Hl1. eapply wp_mono; [apply (wp_row (win_x s) (win_y s + row) (win_w s) (fun col => arr_get (pixels s) (row * win_w s + col))); [lia|done|]|].
    + intros col fb2 Hc Hl2. wp_step. rewrite (s32_small col) by lia. apply wp_add_i32; [lia|]. wp_step. rewrite (s32_small row) by lia. apply wp_add_i32; [lia|].
      destruct (arr_get_Some (pixels s) (row * win_w s + col)) as [v Hv]; [rewrite Hpx; nia|]. rewrite Hv.
      pose proof (wp_clipped (win_x s + col) (win_y s + row) v fb2 Hl2) as Hc2. destruct (_ && _); [|exact Hc2]. wp_step. by eapply wp_lift.
    + intros [] fb2 Hd. eapply drawn_ext; [exact Hd|]. intros X Y _. cbv beta. by destruct (Y =? win_y s + row); rewrite ?andb_true_r, ?andb_false_r.
  - intros [] fb1 Hd. eapply drawn_ext; [exact Hd|]. intros X Y _. unfold window_pixel. destruct (Z.eqb_spec (active s) 0); [done|]. cbn [negb andb].
    case_bools; done.
Qed.

Lemma cursor_bit bits col : 0 <= col < 8 -> (Z.land bits (Z.shiftr 0x80 col) =? 0) = negb (Z.testbit bits (7 - col)).
Proof.
  intros Hc. assert (E : Z.shiftr 128 col = 2 ^ (7 - col)).
  { rewrite Z.shiftr_div_pow2 by lia. change 128 with (2 ^ 7). rewrite <- Z.pow_sub_r by lia. done. }
  rewrite E. destruct (Z.testbit bits (7 - col)) eqn:Et; cbn [negb].
  - apply Z.eqb_neq. intros Hz. apply (f_equal (fun n => Z.testbit n (7 - col))) in Hz. rewrite Z.land_spec, Et, Z.pow2_bits_true, Z.bits_0 in Hz by lia. done.
  - apply Z.eqb_eq, Z.bits_inj'. intros n Hn. rewrite Z.land_spec, Z.bits_0, Z.pow2_bits_eqb by lia. destruct (Z.eqb_spec (7 - col) n) as [<-|]; [by rewrite Et|apply andb_false_r].
Qed.
Lemma wp_draw_cursor x y fb : whole fb -> 0 <= x < W -> 0 <= y < H -> wp (draw_cursor stride W H x y) (fun _ => drawn (cursor_pixel x y) fb) fb.
Proof.
  intros Hl Hx Hy. unfold draw_cursor, CURSOR_H, CURSOR_W.
  set (row_pixel := fun row X => match arr_get CURSOR_BITMAP row with Some bits => if (x <=? X) && (X <? x + 8) then if Z.testbit bits (7 - (X - x)) then Some CURSOR_COLOR else None else None | None => None end).
  eapply wp_mono; [apply (wp_rows y 8 row_pixel); [lia|done|]|].
  - intros row fb1 Hr Hl1. unfold row_pixel. destruct (arr_get_Some CURSOR_BITMAP row) as [bits Hb]; [cbn; lia|]. rewrite Hb. wp_step. eapply wp_lift; [reflexivity|].
    eapply wp_mono; [apply (wp_row x (y + row) 8 (fun col => if Z.testbit bits (7 - col) then Some CURSOR_COLOR else None)); [lia|done|]|].
    + intros col fb2 Hc Hl2. rewrite cursor_bit by done. destruct (Z.testbit bits (7 - col)); cbn [negb].
      * wp_step. rewrite (s32_small col) by lia. apply wp_add_i32; [lia|]. wp_step. rewrite (s32_small row) by lia. apply wp_add_i32; [lia|]. by apply wp_clipped.
      * wp_step. apply drawn_none. intros X Y _. by destruct (_ && _).
    + intros [] fb2 Hd. eapply drawn_ext; [exact Hd|]. intros X Y _. cbv beta. by destruct (Y =? y + row); rewrite ?andb_true_r, ?andb_false_r.
  - intros [] fb1 Hd. eapply drawn_ext; [exact Hd|]. intros X Y _. unfold row_pixel, cursor_pixel. destruct (arr_get CURSOR_BITMAP (Y - y)); case_bools; done.
Qed.

Lemma wp_redraw slots cx cy fb : whole fb -> length slots = 2%nat -> Forall (fun s => active s <> 0 -> slot_ok s) slots -> 0 <= cx < W -> 0 <= cy < H ->
  wp (redraw stride W H slots cx cy) (fun _ => drawn (picture slots cx cy) fb) fb.
Proof.
  intros Hl Hn Hs Hx Hy. destruct slots as [|s0 [|s1 [|? ?]]]; try done. apply Forall_cons in Hs as [Hs0 [Hs1 _]%Forall_cons].
  unfold redraw, MAX_WINDOWS. wp_step. eapply wp_mono; [by apply wp_paint_background|]. intros [] fb1 H1. cbv beta. cbn [for_range].
  assert (Hkeep : forall f a b, drawn f a b -> whole a -> whole b) by (intros f a b Hd Ha; by rewrite (dr_length _ _ _ Hd)).
  wp_step. wp_step. wp_step. eapply wp_lift; [reflexivity|]. eapply wp_mono; [by apply wp_blit_window; [eapply Hkeep|]|]. intros [] fb2 H2. cbv beta.
  wp_step. wp_step. eapply wp_lift; [reflexivity|]. pose proof (drawn_trans _ _ _ _ _ H1 H2) as H12.
  eapply wp_mono; [by apply wp_blit_window; [eapply Hkeep|]|]. intros [] fb3 H3. cbv beta. wp_step. pose proof (drawn_trans _ _ _ _ _ H12 H3) as H13.
  eapply wp_mono; [by apply wp_draw_cursor; [eapply Hkeep| |]|]. intros [] fb4 H4. exact (drawn_trans _ _ _ _ _ H13 H4).
Qed.

Lemma clamp_range v hi : 0 <= hi -> 0 <= clamp v 0 hi <= hi.
Proof. intros Hh. unfold clamp. case_bools. Qed.
Lemma wp_drain packets : forall cx cy fb, Forall (fun p => -32768 <= fst p < 32768 /\ -32768 <= snd p < 32768) packets -> 0 <= cx < W -> 0 <= cy < H ->
  wp (drain W H packets cx cy) (fun c fb' => fb' = fb /\ 0 <= fst c < W /\ 0 <= snd c < H) fb.
Proof.
  induction packets as [|[dx dy] packets IH]; intros cx cy fb Hp Hx Hy; cbn [drain]; [by wp_step|]. apply Forall_cons in Hp as [[H1 H2] Hp]. cbn [fst snd] in *.
  wp_step. apply wp_add_i32; [lia|]. wp_step. apply wp_add_i32; [lia|]. pose proof (clamp_range (cx + dx) (W - 1)). pose proof (clamp_range (cy + - dy) (H - 1)).
  apply IH; [done|lia|lia].
Qed.

(** C18: A frame of the compositor shows what it should: whatever the mouse did, the
    pointer stays on the screen, and afterwards every visible pixel is the pointer's
    where the pointer is, else the pixel of the last window that covers it, clipped to
    the screen, else the background; nothing beside the visible pixels is written, and no
    index and no sum leaves its range. *)
Theorem frame_correct slots packets cx cy fb : whole fb -> length slots = 2%nat -> Forall (fun s => active s <> 0 -> slot_ok s) slots ->
  Forall (fun p => -32768 <= fst p < 32768 /\ -32768 <= snd p < 32768) packets -> 0 <= cx < W -> 0 <= cy < H ->
  wp (frame stride W H slots packets cx cy) (fun c fb' => on_screen (fst c) (snd c) /\
    (forall X Y, on_screen X Y -> arr_get fb' (X + Y * stride) = picture slots (fst c) (snd c) X Y) /\
    forall i, (forall X Y, on_screen X Y -> i <> X + Y * stride) -> arr_get fb' i = arr_get fb i) fb.
Proof.
  intros Hl Hn Hs Hp Hx Hy. unfold frame. wp_step. eapply wp_mono; [by apply wp_drain|]. intros [x y] fb0 (-> & Hx' & Hy'). cbn [fst snd] in *. wp_step.
  eapply wp_mono; [by apply wp_redraw|]. intros [] fb' Hd. wp_step. split; [done|]. split; [|apply Hd]. intros X Y HXY. rewrite (dr_pixels _ _ _ Hd) by done.
  assert (Hbg : forall l f, (forall X Y, exists v, f X Y = Some v) -> exists v, foldl (fun f s => over (window_pixel s) f) f l X Y = Some v).
  { intros l. induction l as [|s l IH]; intros f Hf; [apply Hf|]. cbn [foldl]. apply IH. intros X' Y'. unfold over. destruct (window_pixel s X' Y'); [by eexists|apply Hf]. }
  assert (Hv : exists v, picture slots x y X Y = Some v).
  { unfold picture, over at 1. destruct (cursor_pixel x y X Y); [by eexists|]. apply Hbg. by eexists. }
  destruct Hv as [v Hv]. cbn [fst snd]. by rewrite Hv.
Qed.
End screen.

(** ** A window and the pointer on a small screen *)

Definition demo_window : WindowSlot := mkSlot 1 1 1 2 2 ([1; 2; 3; 4] ++ replicate (Z.to_nat 76796) 0).
Lemma demo_window_ok : slot_ok demo_window.
Proof. split; cbn [win_w win_h win_x win_y demo_window pixels]; unfold MAX_WIN_W, MAX_WIN_H; try lia. rewrite length_app, length_replicate. reflexivity. Qed.
Lemma frame_correct_witness :
  wp (frame 16 16 16 [demo_window; mkSlot 0 0 0 0 0 []] [(5, -3)] 0 0) (fun c fb' => on_screen 16 16 (fst c) (snd c) /\ arr_get fb' (2 + 2 * 16) = picture [demo_window; mkSlot 0 0 0 0 0 []] (fst c) (snd c) 2 2) (replicate 256 0).
Proof.
  eapply wp_mono; [apply (frame_correct 16 16 16)|].
  - split; reflexivity || discriminate.
  - reflexivity.
  - split; reflexivity.
  - rewrite length_replicate. reflexivity.
  - reflexivity.
  - apply Forall_cons. split; [intros _; exact demo_window_ok|]. apply Forall_cons. split; [intros Hn; by destruct Hn|constructor].
  - apply Forall_cons. split; [cbn; lia|constructor].
  - lia.
  - lia.
  - intros c fb' (Hc & Hp & _). split; [exact Hc|]. apply Hp. unfold on_screen. lia.
Defined.
