(* ===== verification/Proxy.v ===== *)
(** * The clients of the compositor (src/crates/userland/compositor)

    Each client runs behind a proxy, a child of the compositor that reads the request
    and the frames of the client from a pipe and stores them in the client's slot, in
    memory that it shares with the compositor. *)

From Stdlib Require Import Ascii String.
From S2P Require Import Prelude Mem FrameAlloc Pmm Vmm PageTable AddressSpace CloneSpace UserMem Proc Heap Kernel Process Syscall Files Userland Shell Compositor.

(** ** The code *)

(** The fields of a slot in the memory that the proxies share with the compositor. *)
Definition slot_active (slot : Z) : Z := slot.
Definition slot_x (slot : Z) : Z := slot + 4.
Definition slot_y (slot : Z) : Z := slot + 8.
Definition slot_w (slot : Z) : Z := slot + 12.
Definition slot_h (slot : Z) : Z := slot + 16.
Definition slot_pixels (slot : Z) : Z := slot + 20.
Definition SLOT_SIZE : Z := 20 + 4 * (MAX_WIN_W * MAX_WIN_H).

(** A [WindowRequest]: width and height. *)
Definition REQUEST_SIZE : Z := 8.
Fixpoint of_le (b : list Z) : Z := match b with [] => 0 | c :: b' => c + 256 * of_le b' end.

Section proxy.
#[local] Open Scope prog_scope.

Definition log (msg : string) : prog unit := ask (SPrint (take 127 (text msg) ++ newline)).

(** [false]: the client has closed its end. *)
Fixpoint read_frame (fuel : nat) (fd buf frame_bytes got : Z) : prog bool :=
  if got <? frame_bytes then
    match fuel with
    | O => Crash
    | Datatypes.S fuel' =>
        let* n := ask (SReadInto fd (buf + got) (frame_bytes - got)) in
        if n <=? 0 then Done false else read_frame fuel' fd buf frame_bytes (got + n)
    end
  else Done true.
Fixpoint read_frames (fuel : nat) (fd buf frame_bytes : Z) : prog unit :=
  match fuel with
  | O => Crash
  | Datatypes.S fuel' =>
      let* ok := read_frame fuel fd buf frame_bytes 0 in
      if ok : bool then read_frames fuel' fd buf frame_bytes else Done tt
  end.

(** The child that becomes the client. *)
Definition run_client {A} (fds : Z * Z) (path arg : list Z) : prog A :=
  ask (SClose (fst fds)) ;;; ask (SDup2 (snd fds) 3) ;;; ask (SClose (snd fds)) ;;;
  ask (SExecve path [path; arg]) ;;;
  Stop 1.
(** The proxy when it has made the client. *)
Definition serve {A} (fuel : nat) (fds : Z * Z) (client_pid x y slot : Z) : prog A :=
  ask (SClose (snd fds)) ;;;
  let* r := ask (SRead (fst fds) REQUEST_SIZE) in
  let '(n, req) := r in
  if negb (n =? REQUEST_SIZE) then log "compositor: client proxy: handshake failed" ;;; Stop 1
  else
    let w := Z.min (of_le (take 4 req)) MAX_WIN_W in
    let h := Z.min (of_le (drop 4 req)) MAX_WIN_H in
    ask (SStore (slot_x slot) x) ;;; ask (SStore (slot_y slot) y) ;;;
    ask (SStore (slot_w slot) w) ;;; ask (SStore (slot_h slot) h) ;;;
    ask (SStore (slot_active slot) 1) ;;;
    read_frames fuel (fst fds) (slot_pixels slot) (w * h * 4) ;;;
    ask (SStore (slot_active slot) 0) ;;;
    ask (SClose (fst fds)) ;;;
    ask (SWait client_pid) ;;;
    Stop 0.
Definition run_proxy {A} (fuel : nat) (fds : Z * Z) (path arg : list Z) (x y slot : Z) : prog A :=
  let* client_pid := ask SFork in
  (if client_pid =? 0 then run_client fds path arg else Done tt) ;;;
  serve fuel fds client_pid x y slot.

Definition spawn_client (fuel : nat) (path arg : list Z) (x y slot : Z) : prog unit :=
  let* r := ask SPipe in
  if negb (fst r =? 0) then log "compositor: pipe() failed, skipping client"
  else
    let* proxy_pid := ask SFork in
    if proxy_pid <? 0 then log "compositor: fork() failed, skipping client"
    else
      (if proxy_pid =? 0 then run_proxy fuel (snd r) path arg x y slot else Done tt) ;;;
      ask (SClose (fst (snd r))) ;;; ask (SClose (snd (snd r))) ;;; Done tt.
End proxy.

(** ** What a client gets *)

(** The stores to the shared memory, in their order. *)
Inductive store := Word (addr v : Z) | Bytes (addr : Z) (b : list Z).
Definition in_slot (slot : Z) (st : store) : Prop :=
  match st with
  | Word a _ => slot <= a /\ a + 4 <= slot_pixels slot
  | Bytes a b => slot_pixels slot <= a /\ a + Z.of_nat (length b) <= slot + SLOT_SIZE
  end.

(** A process: its descriptors, and what it shares with the others: the pipe of the
    client, the bytes of the client that are still to be read (then the client closes
    its end), the memory, the processes that have ended, with their descriptors, and
    whether one of them waits for itself: it reads an empty pipe that it could write; and
    whether the kernel has refused a pipe or a process. *)
Record proxy := mkProxy {
  x_table : list file_descriptor;
  x_pipe : Z;
  x_in : list Z;
  x_stores : list store;
  x_ended : list (fate * list file_descriptor);
  x_hung : bool;
  x_refused : bool;
}.
Definition with_table (t : list file_descriptor) (s : proxy) : proxy := mkProxy t (x_pipe s) (x_in s) (x_stores s) (x_ended s) (x_hung s) (x_refused s).
Definition stored (l : list store) (s : proxy) : proxy := mkProxy (x_table s) (x_pipe s) (x_in s) (x_stores s ++ l) (x_ended s) (x_hung s) (x_refused s).
Definition took (b : list Z) (s s' : proxy) : Prop :=
  exists rest, x_in s = b ++ rest /\ s' = mkProxy (x_table s) (x_pipe s) rest (x_stores s) (x_ended s) (x_hung s) (x_refused s).
Definition refuse (s : proxy) : proxy := mkProxy (x_table s) (x_pipe s) (x_in s) (x_stores s) (x_ended s) (x_hung s) true.
Definition hangs (s : proxy) : proxy := mkProxy (x_table s) (x_pipe s) (x_in s) (x_stores s) (x_ended s) true (x_refused s).

(** A read of [n] bytes of the client's pipe: pipe_read waits until it has as many bytes
    as it was asked for, or there is no writer. *)
Definition pipe_gives (n : Z) (s : proxy) (r : Z) (b : list Z) (s' : proxy) : Prop :=
  if decide (x_in s = []) then
    b = [] /\ (r = 0 /\ s' = s /\ (forall i, ~ names (x_table s) i FD_PIPE_WRITE (x_pipe s)) \/
               s' = hangs s /\ exists i, names (x_table s) i FD_PIPE_WRITE (x_pipe s))
  else b = take (Z.to_nat n) (x_in s) /\ r = Z.of_nat (length b) /\ took b s s'.
Definition read_gives (fd n : Z) (s : proxy) (r : Z) (b : list Z) (s' : proxy) : Prop :=
  (names (x_table s) fd FD_PIPE_READ (x_pipe s) /\ pipe_gives n s r b s') \/
  (~ names (x_table s) fd FD_PIPE_READ (x_pipe s) /\ r < 0 /\ b = [] /\ s' = s).

Definition proxy_reply {X} (e : sysc X) (s : proxy) : X -> proxy -> Prop :=
  match e in sysc X return X -> proxy -> Prop with
  | SRead fd n => fun x s' => read_gives fd n s (fst x) (snd x) s'
  | SReadInto fd a n => fun x s' => exists b s1, read_gives fd n s x b s1 /\ s' = stored (if decide (b = []) then [] else [Bytes a b]) s1
  | SStore a v => fun _ s' => s' = stored [Word a v] s
  | SClose fd => fun x s' => x = fst (close_table (x_table s) fd) /\ s' = with_table (snd (close_table (x_table s) fd)) s
  | SDup2 o n => fun x s' => x = fst (dup2_table (x_table s) o n) /\ s' = with_table (snd (dup2_table (x_table s) o n)) s
  | SPipe => fun x s' => (fst x <> 0 /\ exists t', same_open (x_table s) t' /\ s' = refuse (with_table t' s)) \/
      exists t', fst x = 0 /\ pipe_table (x_table s) (x_pipe s) (fst (snd x)) (snd (snd x)) t' /\ s' = with_table t' s
  | SPrint _ => fun _ s' => s' = s
  | SWait _ => fun _ s' => s' = s
  | _ => fun _ _ => True
  end.
(** Nothing comes from a client that was not made, or that did not become its program. *)
Definition silent (s : proxy) : proxy := mkProxy (x_table s) (x_pipe s) [] (x_stores s) (x_ended s) (x_hung s) (x_refused s).
Definition became (f : fate) : bool := match f with Became _ _ => true | Exited _ => false end.
#[export] Instance proxy_env : Env proxy := {
  reply X e := proxy_reply e;
  refused s := silent (refuse s);
  child_of s := s;
  forked s pid f sc := mkProxy (x_table s) (x_pipe sc) (if became f then x_in sc else []) (x_stores sc) (x_ended sc ++ [(f, x_table sc)]) (x_hung sc) (x_refused sc);
}.

(** Byte [k] of the frames, which are [fb] bytes each, is stored at the place of the
    pixels that it is for. *)
Inductive copied (fb buf : Z) : Z -> list Z -> list store -> Prop :=
  | copied_nil k : copied fb buf k [] []
  | copied_cons k b rest sts : b <> [] -> k mod fb + Z.of_nat (length b) <= fb -> copied fb buf (k + Z.of_nat (length b)) rest sts ->
      copied fb buf k (b ++ rest) (Bytes (buf + k mod fb) b :: sts).

Definition req_w (bytes : list Z) : Z := Z.min (of_le (take 4 bytes)) MAX_WIN_W.
Definition req_h (bytes : list Z) : Z := Z.min (of_le (take 4 (drop 4 bytes))) MAX_WIN_H.

(** The stores of a proxy whose client sends [bytes]. *)
Definition published (x y slot : Z) (bytes : list Z) (sts : list store) : Prop :=
  exists px, copied (req_w bytes * req_h bytes * 4) (slot_pixels slot) 0 (drop 8 bytes) px /\
    sts = [Word (slot_x slot) x; Word (slot_y slot) y; Word (slot_w slot) (req_w bytes); Word (slot_h slot) (req_h bytes); Word (slot_active slot) 1] ++ px ++ [Word (slot_active slot) 0].

(** The processes of a client: the client has the pipe's other end at descriptor 3. *)
Definition client_ran (p : Z) (path arg : list Z) (e : fate * list file_descriptor) : Prop :=
  (fst e = Became path [path; arg] \/ fst e = Exited 1) /\ names (snd e) 3 FD_PIPE_WRITE p /\
  (forall i, ~ names (snd e) i FD_PIPE_READ p) /\ forall i, i <> 3 -> ~ names (snd e) i FD_PIPE_WRITE p.

(** *** Frames *)

Lemma copied_app fb buf k a s1 : copied fb buf k a s1 -> forall b s2, copied fb buf (k + Z.of_nat (length a)) b s2 -> copied fb buf k (a ++ b) (s1 ++ s2).
Proof.
  induction 1 as [k|k c rest sts Hc Hf _ IH]; intros b s2 Hb; [by rewrite Z.add_0_r in Hb|].
  rewrite <- app_assoc. cbn [app]. constructor; [done|done|]. apply IH. rewrite length_app, Nat2Z.inj_add in Hb. by rewrite <- Z.add_assoc.
Qed.
Lemma copied_in_slot fb slot k a sts : 0 < fb <= 4 * (MAX_WIN_W * MAX_WIN_H) -> copied fb (slot_pixels slot) k a sts -> Forall (in_slot slot) sts.
Proof.
  intros Hfb. induction 1 as [|k b rest sts _ Hf _ IH]; constructor; [|done]. cbn. unfold slot_pixels, SLOT_SIZE in *.
  pose proof (Z.mod_pos_bound k fb). lia.
Qed.

(** No pixel is ever drawn of a client that asked for an empty window, and its proxy
    neither reads nor ends. *)
Lemma empty_window_spins fuel fd buf : read_frames fuel fd buf 0 = Crash.
Proof. induction fuel as [|fuel IH]; [done|exact IH]. Qed.

Section frames.
Context (fd fb buf : Z) (Hfb : 0 < fb).

(** The reader's end is open, and the process does not keep the writer's. *)
Definition reader (s : proxy) : Prop :=
  names (x_table s) fd FD_PIPE_READ (x_pipe s) /\ forall i, ~ names (x_table s) i FD_PIPE_WRITE (x_pipe s).
(** [s'] is [s] when [b] has been read and stored with [sts]. *)
Definition advanced (s : proxy) (b : list Z) (sts : list store) (s' : proxy) : Prop :=
  exists rest, x_in s = b ++ rest /\ s' = mkProxy (x_table s) (x_pipe s) rest (x_stores s ++ sts) (x_ended s) (x_hung s) (x_refused s).

Lemma advanced_refl s : advanced s [] [] s.
Proof. exists (x_in s). destruct s. by rewrite app_nil_r. Qed.
Lemma advanced_trans s b1 st1 s1 b2 st2 s2 : advanced s b1 st1 s1 -> advanced s1 b2 st2 s2 -> advanced s (b1 ++ b2) (st1 ++ st2) s2.
Proof. intros (r1 & E1 & ->) (r2 & E2 & ->). cbn in *. exists r2. by rewrite E1, E2, !app_assoc. Qed.
Lemma advanced_reader s b sts s' : advanced s b sts s' -> reader s -> reader s'.
Proof. by intros (r & _ & ->). Qed.
Lemma advanced_length s b sts s' : advanced s b sts s' -> length (x_in s) = (length b + length (x_in s'))%nat.
Proof. intros (r & -> & ->). by rewrite length_app. Qed.

(** A read at the reader's end. *)
Lemma read_advances a n s x s' : reader s -> 0 < n -> reply (SReadInto fd a n) s x s' ->
  (x = 0 /\ s' = s /\ x_in s = []) \/ exists b, b <> [] /\ x = Z.of_nat (length b) /\ x <= n /\ advanced s b [Bytes a b] s'.
Proof.
  intros [Hrd Hwr] Hn (b & s1 & [[_ Hg]|[? _]] & ->); [|done]. unfold pipe_gives in Hg. case_decide as Hin.
  - destruct Hg as (-> & [(-> & -> & _)|(_ & i & Hi)]); [|by apply Hwr in Hi]. left. rewrite decide_True by done.
    split; [done|]. split; [|done]. destruct s. unfold stored. cbn. by rewrite app_nil_r.
  - right. destruct Hg as (Eb & -> & rest & Ein & ->). exists b. assert (b <> []) by (rewrite Eb; destruct (x_in s); [done|]; destruct (Z.to_nat n) eqn:E; [lia|done]).
    rewrite decide_False by done. split_and!; [done|done| |exists rest; done]. rewrite Eb, length_take. lia.
Qed.

Definition frame_read (k got : Z) (s : proxy) (o : ending bool) (s' : proxy) : Prop :=
  exists ok b sts, o = Returned ok /\ advanced s b sts s' /\ copied fb buf k b sts /\
    if ok : bool then got + Z.of_nat (length b) = fb else x_in s' = [].
Lemma exec_read_frame : forall fuel s got k, reader s -> (length (x_in s) < fuel)%nat -> 0 <= got <= fb -> k mod fb = got mod fb ->
  exec (read_frame fuel fd buf fb got) s (frame_read k got s).
Proof.
  induction fuel as [|fuel IH]; intros s got k Hrd Hfuel Hgot Hk; [lia|]. cbn [read_frame]. destruct (Z.ltb_spec got fb) as [Hlt|Hge].
  - cbn [ask pbind exec]. intros x s' Hx. rewrite (Z.mod_small got fb) in Hk by lia.
    apply read_advances in Hx as [(-> & -> & Hin)|(b & Hb & -> & Hle & Ha)]; [| |done|lia].
    + cbn. exists false, [], []. split_and!; [done|apply advanced_refl|constructor|done].
    + assert (Hl : (0 < length b)%nat) by (destruct b; [done|cbn; lia]). destruct (Z.leb_spec (Z.of_nat (length b)) 0); [lia|].
      pose proof (advanced_length _ _ _ _ Ha). eapply exec_mono; [|apply (IH _ _ (k + Z.of_nat (length b))); [by eapply advanced_reader|lia|lia|]].
      * intros o s2 (ok & b2 & sts & -> & Ha2 & Hc & Hok). exists ok, (b ++ b2), (Bytes (buf + got) b :: sts).
        split_and!; [done|by apply (advanced_trans _ _ _ _ _ _ _ Ha Ha2)| |].
        { rewrite <- Hk. constructor; [done|lia|done]. }
        destruct ok; [rewrite length_app; lia|done].
      * rewrite <- (Z.add_mod_idemp_l k), Hk by lia. done.
  - exists true, [], []. split_and!; [done|apply advanced_refl|constructor|]. cbn. lia.
Qed.

(** All that the client sends is stored. *)
Definition frames_read (k : Z) (s : proxy) (o : ending unit) (s' : proxy) : Prop :=
  exists sts, o = Returned tt /\ advanced s (x_in s) sts s' /\ copied fb buf k (x_in s) sts.
Lemma exec_read_frames : forall fuel s k, reader s -> (length (x_in s) < fuel)%nat -> k mod fb = 0 ->
  exec (read_frames fuel fd buf fb) s (frames_read k s).
Proof.
  induction fuel as [|fuel IH]; intros s k Hrd Hfuel Hk; [lia|]. cbn [read_frames]. apply exec_bind.
  eapply exec_mono; [|apply (exec_read_frame _ _ _ k); [done|done|lia|by rewrite Zmod_0_l]].
  intros o s1 (ok & b & sts & -> & Ha & Hc & Hok). pose proof (advanced_length _ _ _ _ Ha) as Hl. cbn [continue]. destruct ok.
  - eapply exec_mono; [|apply (IH _ (k + Z.of_nat (length b))); [by eapply advanced_reader|lia|]].
    + intros o s2 (sts2 & -> & Ha2 & Hc2). exists (sts ++ sts2). destruct Ha as (rest & Ein & E1).
      assert (Er : x_in s = b ++ x_in s1) by (by rewrite Ein, E1). rewrite Er. split_and!; [done| |by apply copied_app].
      apply (advanced_trans _ _ _ s1); [|done]. exists rest. done.
    + replace (Z.of_nat (length b)) with (1 * fb) by lia. by rewrite Z.mod_add by lia.
  - cbn [exec]. exists sts. destruct Ha as (rest & Ein & ->). cbn in Hok. subst rest. rewrite app_nil_r in Ein. rewrite Ein.
    split_and!; [done| |done]. exists []. by rewrite app_nil_r.
Qed.
End frames.

(** *** Processes *)

Section client.
Context (t : list file_descriptor) (p r w : Z) (t2 : list file_descriptor).
Context (Ht : length t = 32%nat) (Hpipe : pipe_table t p r w t2).

(** The ends of the pipe, and that there are no others. *)
Record ends : Prop := {
  en_read : 3 <= r < 32; en_write : 4 <= w < 32; en_ne : r <> w; en_length : length t2 = 32%nat;
  en_reads : forall j, names t2 j FD_PIPE_READ p <-> j = r;
  en_writes : forall j, names t2 j FD_PIPE_WRITE p <-> j = w;
}.
Lemma pipe_ends : ends.
Proof.
  destruct (pipe_table_slots t [] [] t p r w t2 (piped_nil _ Ht) Hpipe) as (Rr & Rw & Hrw & _ & _ & _ & _ & L2 & (dr & Er & Kr & Pr) & (dw & Ew & Kw & Pw) & Eo).
  destruct Hpipe as (Hr & Hw & N1 & N2 & Hfresh & _). unfold in_table in *.
  destruct (first_free_spec t (r + 1) Ht ltac:(lia)) as [?|[? _]]; [congruence|]. split; [lia|lia|done|done| |].
  - intros j. split; [|intros ->; by exists dr]. intros (d & Hd & Hk). destruct (decide (j = r)) as [|Nr]; [done|]. destruct (decide (j = w)) as [->|Nw]; [destruct Hk; congruence|].
    exfalso. apply (proj1 (Hfresh j)). exists d. by rewrite <- Eo.
  - intros j. split; [|intros ->; by exists dw]. intros (d & Hd & Hk). destruct (decide (j = w)) as [|Nw]; [done|]. destruct (decide (j = r)) as [->|Nr]; [destruct Hk; congruence|].
    exfalso. apply (proj2 (Hfresh j)). exists d. by rewrite <- Eo.
Qed.

Definition client_table : list file_descriptor := snd (close_table (snd (dup2_table (snd (close_table t2 r)) w 3)) w).
Lemma client_wired path arg f : f = Became path [path; arg] \/ f = Exited 1 -> client_ran p path arg (f, client_table).
Proof.
  intros Hf. destruct pipe_ends as [Hr Hw Hrw L2 Rd Wr]. unfold client_ran, client_table. cbn [fst snd].
  destruct (close_table_get t2 r ltac:(unfold in_table; lia) L2) as [L3 E3].
  assert (Hn : names (snd (close_table t2 r)) w FD_PIPE_WRITE p) by (destruct (proj2 (Wr w) eq_refl) as (d & Hd & ?); exists d; rewrite E3, decide_False by lia; done).
  destruct (dup2_end _ w 3 _ _ Hn ltac:(done) ltac:(unfold in_table; lia) ltac:(lia) L3) as (L4 & (d4 & Hd4 & K4) & E4).
  destruct (close_table_get _ w ltac:(unfold in_table; lia) L4) as [L5 E5]. unfold names. split_and!; [done| | |].
  - exists d4. rewrite E5, decide_False by lia. done.
  - intros i (d & Hd & Kd & Pd). rewrite E5 in Hd. case_decide as Ei; [destruct (arr_get _ i); [|done]; injection Hd as <-; done|].
    destruct (decide (i = 3)) as [->|N3]; [destruct K4; congruence|]. rewrite E4, E3 in Hd by done. case_decide; [destruct (arr_get t2 i); [|done]; injection Hd as <-; done|].
    assert (i = r) by (apply Rd; by exists d). done.
  - intros i N3 (d & Hd & Kd & Pd). rewrite E5 in Hd. case_decide as Ei; [destruct (arr_get _ i); [|done]; injection Hd as <-; done|].
    rewrite E4, E3 in Hd by done. case_decide; [destruct (arr_get t2 i); [|done]; injection Hd as <-; done|].
    assert (i = w) by (apply Wr; by exists d). done.
Qed.
Lemma exec_run_client {A} path arg s (Q : ending A -> proxy -> Prop) : x_table s = t2 ->
  (forall f tc, client_ran p path arg (f, tc) -> Q (Ended f) (with_table tc s)) -> exec (run_client (r, w) path arg) s Q.
Proof.
  intros Es HQ. cbn [run_client ask pbind exec fst snd]. intros _ s1 (_ & ->) _ s2 (_ & ->) _ s3 (_ & ->). cbn [x_table with_table]. rewrite Es.
  change (snd (close_table (snd (dup2_table (snd (close_table t2 r)) w 3)) w)) with client_table.
  split; [|intros ? _]; apply (HQ _ client_table); apply client_wired; auto.
Qed.

(** What a proxy does with what the client sends. *)
Definition served (x y slot : Z) (bytes : list Z) (ended : list (fate * list file_descriptor)) (refusal : bool) {A} (o : ending A) (s' : proxy) : Prop :=
  x_hung s' = false /\ x_ended s' = ended /\ x_refused s' = refusal /\
  if (8 <=? length bytes)%nat then o = Ended (Exited 0) /\ published x y slot bytes (x_stores s')
  else o = Ended (Exited 1) /\ x_stores s' = [].

Lemma exec_serve {A} fuel pid x y slot bytes ended refusal : ((8 <= length bytes)%nat -> 0 < req_w bytes /\ 0 < req_h bytes) -> (length bytes < fuel)%nat ->
  exec (serve (A := A) fuel (r, w) pid x y slot) (mkProxy t2 p bytes [] ended false refusal) (served x y slot bytes ended refusal).
Proof.
  intros Hne Hfuel. destruct pipe_ends as [Hr Hw Hrw L2 Rd Wr]. cbn [serve ask pbind exec fst snd]. intros _ s1 (_ & ->). unfold with_table. cbn [x_table x_pipe x_in x_stores x_ended x_hung].
  set (t3 := snd (close_table t2 w)). destruct (close_table_get t2 w ltac:(unfold in_table; lia) L2) as [L3 E3]. fold t3 in L3, E3.
  assert (Hrd : names t3 r FD_PIPE_READ p) by (destruct (proj2 (Rd r) eq_refl) as (d & Hd & ?); exists d; rewrite E3, decide_False by lia; done).
  assert (Hwr : forall i, ~ names t3 i FD_PIPE_WRITE p).
  { intros i (d & Hd & Hk & Hp). rewrite E3 in Hd. case_decide as Ei; [destruct (arr_get t2 i); [|done]; injection Hd as <-; done|]. apply Ei, Wr. by exists d. }
  intros [n req] s1 [[_ Hg]|[? _]]; [|done]. unfold pipe_gives in Hg. cbn [x_table x_pipe x_in x_stores x_ended x_hung fst snd] in Hg. case_decide as Hin.
  { destruct Hg as (-> & [(-> & -> & _)|(_ & i & Hi)]); [|by apply Hwr in Hi]. cbn. intros _ s' ->. subst bytes. by split_and!. }
  destruct Hg as (Er & -> & rest & Eb & ->). cbn in Eb. assert (Hl : length req = (8 `min` length bytes)%nat) by (rewrite Er, length_take; done).
  unfold served. destruct (Nat.leb_spec 8 (length bytes)) as [H8|H8]; unfold REQUEST_SIZE in *.
  2:{ destruct (Z.eqb_spec (Z.of_nat (length req)) 8); [lia|]. cbn. intros _ s' ->. by split_and!. }
  clear Er. destruct (Z.eqb_spec (Z.of_nat (length req)) 8) as [E8|]; [|lia]. subst bytes. cbn [negb].
  assert (Ew : Z.min (of_le (take 4 req)) MAX_WIN_W = req_w (req ++ rest)) by (unfold req_w; by rewrite take_app_le by lia).
  assert (Eh : Z.min (of_le (drop 4 req)) MAX_WIN_H = req_h (req ++ rest)) by (unfold req_h; rewrite drop_app_le, take_app_le, (take_ge (drop 4 req)) by (rewrite ?length_drop; lia); done).
  rewrite Ew, Eh. rewrite length_app in Hne, Hfuel. destruct (Hne ltac:(lia)) as [Pw Ph].
  assert (Pfb : 0 < req_w (req ++ rest) * req_h (req ++ rest) * 4) by nia. cbn [pbind exec ask].
  intros _ s1 -> _ s2 -> _ s3 -> _ s4 -> _ s5 ->. unfold stored. cbn [x_table x_pipe x_in x_stores x_ended x_hung app].
  apply exec_bind. eapply exec_mono; [|apply (exec_read_frames r _ _ Pfb _ _ 0); [done|cbn; lia|by rewrite Zmod_0_l]].
  intros o s' (sts & -> & (rest' & Er & ->) & Hc). cbn [x_in] in Hc. cbn [continue pbind exec ask x_table x_pipe x_in x_stores x_ended x_hung].
  intros _ s6 -> _ s7 (_ & ->) _ s8 ->. split_and!; [done..|].
  exists sts. rewrite drop_app_le, (drop_ge req) by lia. split; [done|]. cbn. done.
Qed.
End client.

(** How [spawn_client] leaves the compositor and the client's slot.  Where the kernel
    refuses the pipe or the proxy, nothing was made; where it refuses the client, the
    proxy fails.  Otherwise there are the client and the proxy, and a client that runs its
    program and sends a whole request has its window. *)
Definition spawned (t : list file_descriptor) (p : Z) (path arg : list Z) (x y slot : Z) (bytes : list Z) (o : ending unit) (s' : proxy) : Prop :=
  o = Returned tt /\ x_hung s' = false /\ Forall (in_slot slot) (x_stores s') /\
  if x_refused s' then x_stores s' = [] /\
    (x_ended s' = [] /\ (same_open t (x_table s') \/ exists r w, pipe_table t p r w (x_table s')) \/
     same_open t (x_table s') /\ exists tp, x_ended s' = [(Exited 1, tp)])
  else same_open t (x_table s') /\ exists f tc tp, client_ran p path arg (f, tc) /\
    if became f && (8 <=? length bytes)%nat then x_ended s' = [(f, tc); (Exited 0, tp)] /\ published x y slot bytes (x_stores s')
    else x_ended s' = [(f, tc); (Exited 1, tp)] /\ x_stores s' = [].

Lemma published_in_slot x y slot bytes sts : 0 < req_w bytes /\ 0 < req_h bytes -> published x y slot bytes sts -> Forall (in_slot slot) sts.
Proof.
  intros [Hw Hh] (px & Hc & ->). apply Forall_app. split.
  - repeat apply Forall_cons_2; [..|done]; cbn; unfold slot_x, slot_y, slot_w, slot_h, slot_active, slot_pixels; lia.
  - apply Forall_app. split; [|repeat constructor; cbn; unfold slot_active, slot_pixels; lia]. eapply copied_in_slot; [|done].
    assert (req_w bytes <= MAX_WIN_W /\ req_h bytes <= MAX_WIN_H) by (unfold req_w, req_h; lia). nia.
Qed.

(** The proxy with its client. *)
Definition proxied (p : Z) (path arg : list Z) (x y slot : Z) (bytes : list Z) {A} (o : ending A) (s' : proxy) : Prop :=
  served x y slot [] [] true o s' \/
  exists f tc, client_ran p path arg (f, tc) /\ served x y slot (if became f then bytes else []) [(f, tc)] false o s'.
Lemma exec_run_proxy {A} fuel t p r w t2 path arg x y slot bytes : length t = 32%nat -> pipe_table t p r w t2 ->
  ((8 <= length bytes)%nat -> 0 < req_w bytes /\ 0 < req_h bytes) -> (length bytes < fuel)%nat ->
  exec (run_proxy (A := A) fuel (r, w) path arg x y slot) (mkProxy t2 p bytes [] [] false false) (proxied p path arg x y slot bytes).
Proof.
  intros Ht Hpipe Hne Hfuel. cbn [run_proxy ask pbind exec child_of proxy_env]. split.
  - intros n Hn. destruct (Z.eqb_spec n 0); [lia|]. cbn [pbind refused proxy_env silent refuse x_table x_pipe x_in x_stores x_ended x_hung x_refused].
    eapply exec_mono; [|eapply exec_serve; [exact Ht|exact Hpipe|cbn; lia|cbn; lia]]. intros o s' Hs. by left.
  - intros pid Hpid. cbn [Z.eqb]. apply exec_bind. eapply exec_run_client; [done|done|done|]. intros f tc Hran. cbn [continue].
    destruct (Z.eqb_spec pid 0); [lia|]. cbn [pbind forked proxy_env with_table x_table x_pipe x_in x_stores x_ended x_hung x_refused app].
    eapply exec_mono; [|eapply exec_serve; [exact Ht|exact Hpipe|..]]; [intros o s' Hs; right; eauto|..]; destruct (became f); [done|cbn; lia|done|cbn; lia].
Qed.

(** The proxy has ended, and the compositor closes its ends of the pipe. *)
Lemma spawned_proxied t p r w t2 path arg x y slot bytes f (s : proxy) t' : length t = 32%nat -> pipe_table t p r w t2 ->
  ((8 <= length bytes)%nat -> 0 < req_w bytes /\ 0 < req_h bytes) -> same_open t t' -> proxied (A := unit) p path arg x y slot bytes (Ended f) s ->
  spawned t p path arg x y slot bytes (Returned tt) (mkProxy t' (x_pipe s) (if became f then x_in s else []) (x_stores s) (x_ended s ++ [(f, x_table s)]) (x_hung s) (x_refused s)).
Proof.
  intros Ht Hpipe Hne Hso [(Hh & He & Hr & Ho)|(fc & tc & Hran & Hh & He & Hr & Ho)]; unfold spawned; cbn [x_table x_stores x_ended x_hung x_refused]; rewrite He, Hr, Hh.
  - cbn in Ho. destruct Ho as [[= ->] ->]. split_and!; [done|done|constructor|done|]. right. split; [done|]. by exists (x_table s).
  - split; [done|]. split; [done|]. assert (E : (8 <=? length (if became fc then bytes else []))%nat = became fc && (8 <=? length bytes)%nat) by (by destruct (became fc)).
    rewrite E in Ho. destruct (became fc && (8 <=? length bytes)%nat) eqn:Eb.
    + apply andb_prop in Eb as [Efc H8%Nat.leb_le]. rewrite Efc in Ho. destruct Ho as [[= ->] Hp]. split; [eapply published_in_slot; [by apply Hne|done]|].
      split; [done|]. exists fc, tc, (x_table s). split; [done|]. rewrite Efc. destruct (Nat.leb_spec 8 (length bytes)); [done|lia].
    + destruct Ho as [[= ->] ->]. split; [constructor|]. split; [done|]. exists fc, tc, (x_table s). by rewrite Eb.
Qed.

(** C17: spawn_client gives a client a window, whatever the client sends, as long as it
    does not ask for an empty one.  Unless the kernel refuses a pipe or a process, there
    are the client and its proxy, and the compositor has the descriptors it had; the
    client has the write end of the pipe at descriptor 3 and no other end of it.  When
    the client runs its program and sends at least the eight bytes of a request, the
    proxy publishes the window and exits with 0: position and size, at most 320 by 240,
    are stored before the slot becomes active, then each byte of each frame at its
    place, and in the end the slot is inactive.  When the client ends before that, the proxy stores
    nothing and exits with 1.  The proxy reads no pipe that it could write itself, so that
    it sees the client's end, and all its stores stay in the slot. *)
Theorem spawn_client_correct fuel t p path arg x y slot bytes : length t = 32%nat ->
  ((8 <= length bytes)%nat -> 0 < req_w bytes /\ 0 < req_h bytes) -> (length bytes < fuel)%nat ->
  exec (spawn_client fuel path arg x y slot) (mkProxy t p bytes [] [] false false) (spawned t p path arg x y slot bytes).
Proof.
  intros Ht Hne Hfuel. cbn [spawn_client ask pbind exec]. intros [e [r w]] s1 [(He & t1 & Hsame & ->)|(t2 & He & Hpipe & ->)]; cbn [fst snd] in *.
  { destruct (Z.eqb_spec e 0); [done|]. cbn. intros [] s' ->. split_and!; [done|done|constructor|]. cbn. auto. }
  subst e. cbn [Z.eqb negb]. cbn [x_table x_pipe] in Hpipe. split.
  - intros n Hn. destruct (Z.ltb_spec n 0); [|lia]. cbn. intros [] s' ->. split_and!; [done|done|constructor|]. cbn. split; [done|]. left. split; [done|]. right. eauto.
  - intros pid Hpid. cbn [Z.ltb Z.compare Z.eqb child_of proxy_env with_table x_table x_pipe x_in x_stores x_ended x_hung]. apply exec_bind.
    eapply exec_mono; [|by eapply exec_run_proxy]. intros o sc Hsc.
    assert (exists f, o = Ended f) as [f ->] by (destruct Hsc as [(_ & _ & _ & Ho)|(? & ? & _ & _ & _ & _ & Ho)]; case_match; destruct Ho as [-> _]; eauto).
    cbn [continue]. destruct (Z.ltb_spec pid 0); [lia|]. destruct (Z.eqb_spec pid 0); [lia|]. cbn [pbind exec ask forked proxy_env with_table x_table].
    intros _ s1 (_ & ->) _ s2 (_ & ->). cbn [with_table x_table x_pipe x_in x_stores x_ended x_hung x_refused].
    refine (spawned_proxied t p r w t2 path arg x y slot bytes f sc _ Ht Hpipe Hne _ Hsc).
    exact (piped_closed t [(r, w)] [p] t2 Ht (piped_more t [] [] t p r w t2 (piped_nil t Ht) Hpipe)).
Qed.

(** A client with a window of one pixel that it draws twice. *)
Definition demo_bytes : list Z := [1; 0; 0; 0; 1; 0; 0; 0; 10; 20; 30; 40; 50; 60; 70; 80].
Lemma spawn_client_correct_witness :
  exec (spawn_client 17 (text "/bin/testclient") (text "1") 40 40 4096) (mkProxy (replicate 32 fd_empty) 7 demo_bytes [] [] false false)
    (fun o s => o = Returned tt /\ Forall (in_slot 4096) (x_stores s)).
Proof.
  eapply exec_mono; [|apply (spawn_client_correct 17 (replicate 32 fd_empty) 7 _ _ 40 40 4096 demo_bytes); [reflexivity|intros _; split; reflexivity|cbn; lia]].
  intros o s (Ho & _ & Hs & _). split; [exact Ho|exact Hs].
Defined.
