(* ===== verification/Grow.v ===== *)
(** * Growing and shrinking an address space

    The calls [mmap], [brk] and [munmap] (syscall.c), as the process sees them:
    which addresses can be read afterwards, and with what contents. *)

From S2P Require Import Prelude Mem CString FrameAlloc Pmm Vmm PageTable AddressSpace CloneSpace Elf.
From S2P Require Import Proc Queues Mlfq Wait Pipe Heap Vfs Keyboard Mouse ProcRing Kernel UserMem Process Schedule Tty Syscall.

Section grow.
Context {S : Type} `{FO : FrameOps S, FA : !FrameAlloc S} (hh : Z) (Hhh : hhdm_ok hh).
Implicit Types (s : vm S) (T : tables).

(** ** One cleared page *)

(** The entry at [va] is a page that was free before and is all zero. *)
Definition cleared s s' (root va flags : Z) : Prop :=
  (exists f, frames (vm_pa s) f = None /\ mapping hh s' root va = Some (Z.lor f flags) /\ pte_addr (Z.lor f flags) = f) /\
  forall va', user_va va' -> va' / 4096 = va / 4096 -> user_byte hh s' root va' = Some 0.

(** What happens to the rest of the address space: nothing. *)
Definition same_at s s' (root va : Z) : Prop :=
  mapping hh s' root va = mapping hh s root va /\ user_byte hh s' root va = user_byte hh s root va.

Section page.
Context (s : vm S) (root : Z) (T : tables) (va flags f : Z) (x : S) (s' : vm S) (T' : tables).
Let s1 := mkVm (memset (vm_mem s) (f + hh) 0 4096) x (kernel_pml4 s).
Hypothesis Hsp : space hh s root T.
Hypothesis Hf : valid_frame f.
Hypothesis Hfree : frames (vm_pa s) f = None.
Hypothesis Hx : fa_wf x.
Hypothesis Hx1 : frames x f = Some 1.
Hypothesis Hxo : forall q, q <> f -> frames x q = frames (vm_pa s) q.

Lemma used_ne q n : frames (vm_pa s) q = Some n -> q <> f.
Proof. congruence. Qed.
Lemma clear_outside a : ~ in_page hh f a -> load8 (vm_mem s1) a = load8 (vm_mem s) a.
Proof. intros Ha. cbn. rewrite memset_spec by lia. unfold in_page in Ha. case_bools; done. Qed.

(** The page is taken and cleared. *)
Lemma take_space : space hh s1 root T /\ forall va', user_va va' -> same_at s s1 root va'.
Proof.
  destruct (other_space hh Hhh s s1 root T) as (Hwf & Hmap & _).
  - apply Hsp.
  - done.
  - intros p t Hp. destruct (as_frame _ _ _ _ (sp_wf _ _ _ _ (us_ok _ _ _ _ Hsp)) _ _ Hp) as [_ Ht]. apply Hxo. by eapply used_ne.
  - intros p t a Hp Ha. destruct (as_frame _ _ _ _ (sp_wf _ _ _ _ (us_ok _ _ _ _ Hsp)) _ _ Hp) as [Hv Ht].
    apply clear_outside. apply (in_page_apart hh t f); try done. by eapply used_ne.
  - split.
    + apply (space_same hh s); try done. intros va' e n Hva' He Hn. exists n. cbn. rewrite Hxo by (by eapply used_ne).
      split; [done|]. destruct (space_page _ _ _ _ _ _ Hsp Hva' He) as (m & _ & _ & ? & ?). congruence.
    + intros va' Hva'. split; [by apply Hmap|]. unfold user_byte, byte_of. rewrite Hmap by done.
      destruct (mapping hh s root va') as [e|] eqn:He; [|done]. cbn [fmap option_fmap option_map]. f_equal.
      destruct (space_page _ _ _ _ _ _ Hsp Hva' He) as (n & Hv & _ & Hn & _). pose proof (Z.mod_pos_bound va' 4096 ltac:(lia)).
      apply clear_outside. rewrite (valid_frame_p2v hh Hhh) by done. apply (in_page_apart hh (pte_addr e) f); try done; [by eapply used_ne|].
      unfold in_page. lia.
Qed.

Hypothesis Hwf' : as_wf hh s' root T'.
Hypothesis Hmf : map_frame hh s1 root T s' T'.

(** A page in use is no table afterwards. *)
Lemma used_no_table q n : frames x q = Some n -> (forall p, T !! p <> Some q) -> forall p, T' !! p <> Some q.
Proof. intros Hq Hnt p Hp. destruct (mf_tabs _ _ _ _ _ _ Hmf p q Hp) as [Ht|Ht]; [by apply (Hnt p)|]. cbn in Ht. congruence. Qed.
Lemma used_bytes q n k : valid_frame q -> frames x q = Some n -> (forall p, T !! p <> Some q) -> 0 <= k < 4096 ->
  load8 (vm_mem s') (q + hh + k) = load8 (vm_mem s1) (q + hh + k).
Proof.
  intros Hv Hq Hnt Hk. apply (mf_mem _ _ _ _ _ _ Hmf). intros p t Hp.
  destruct (as_frame _ _ _ _ Hwf' _ _ Hp) as [Ht _]. apply (in_page_apart hh q t); try done; [|unfold in_page; lia].
  intros ->. by apply (used_no_table t n Hq Hnt p).
Qed.
Lemma new_no_table p : T !! p <> Some f.
Proof. intros Hp. destruct (as_frame _ _ _ _ (sp_wf _ _ _ _ (us_ok _ _ _ _ Hsp)) _ _ Hp). congruence. Qed.

Lemma mapped_same va' : user_va va' -> mapping hh s' root va' = mapping hh s1 root va' -> same_at s s' root va'.
Proof.
  intros Hva' E'. destruct take_space as [Hsp1 Hs1]. destruct (Hs1 va' Hva') as [Em Eb]. unfold same_at. rewrite <- Em, <- Eb.
  split; [done|]. unfold user_byte, byte_of. rewrite E'.
  destruct (mapping hh s1 root va') as [e|] eqn:He; [|done]. cbn [fmap option_fmap option_map]. f_equal.
  destruct (space_page _ _ _ _ _ _ Hsp1 Hva' He) as (n & Hv & Hnt & Hn & _). rewrite (valid_frame_p2v hh Hhh) by done.
  apply (used_bytes _ n); [exact Hv|exact Hn|exact Hnt|apply Z.mod_pos_bound; lia].
Qed.

Hypothesis Hva : user_va va.
Hypothesis Hother : forall va', user_va va' -> va' / 4096 <> va / 4096 -> mapping hh s' root va' = mapping hh s1 root va'.
Hypothesis Hfl : flag_bits flags /\ present flags = true /\ has PTE_NOPMM flags = false.

(** The address space with the page, or without it when there is no table for it. *)
Lemma mapped_space :
  mapping hh s' root va = Some (Z.lor f flags) \/ mapping hh s' root va = mapping hh s1 root va -> space hh s' root T'.
Proof.
  intros Hnew. destruct take_space as [Hsp1 _]. destruct Hfl as (Hfb & Hp & Hnop). pose proof Hf as [Hal Hr].
  assert (Ea : pte_addr (Z.lor f flags) = f) by (by apply pte_addr_lor; [|lia|]).
  assert (Hcase : forall va' e', user_va va' -> mapping hh s' root va' = Some e' ->
    (va' / 4096 = va / 4096 /\ e' = Z.lor f flags) \/ mapping hh s1 root va' = Some e').
  { intros va' e' Hva' He'. destruct (decide (va' / 4096 = va / 4096)) as [E|E]; [|right; by rewrite <- Hother].
    rewrite (mapping_page hh s' root va' va) in He' by done. destruct Hnew as [Hn|Hn]; rewrite Hn in He'.
    - left. split; [done|congruence].
    - right. by rewrite (mapping_page hh s1 root va' va). }
  assert (Hold : forall va' e', user_va va' -> mapping hh s1 root va' = Some e' -> exists n, owned s' T' e' n /\ pte_addr e' <> f).
  { intros va' e' Hva' He'. destruct (space_page _ _ _ _ _ _ Hsp1 Hva' He') as (n & Hv & Hnt & Hn & Hn1). exists n. split.
    - split_and!; try assumption; [exact (used_no_table _ n Hn Hnt)|exact (mf_used _ _ _ _ _ _ Hmf _ _ Hn)].
    - destruct take_space as [_ Hs1]. destruct (Hs1 va' Hva') as [Em _]. rewrite Em in He'.
      destruct (space_page _ _ _ _ _ _ Hsp Hva' He') as (m & _ & _ & Hm & _). by eapply used_ne. }
  assert (Howned : forall va' e', user_va va' -> mapping hh s' root va' = Some e' -> exists n, owned s' T' e' n).
  { intros va' e' Hva' He'. destruct (Hcase va' e' Hva' He') as [[_ ->]|He0].
    - exists 1. unfold owned. rewrite Ea. split_and!; [done|by apply (used_no_table f 1 Hx1), new_no_table|by apply (mf_used _ _ _ _ _ _ Hmf)|lia].
    - destruct (Hold va' e' Hva' He0) as (n & ? & _). eauto. }
  split; [split|]; [done|..].
  - intros va' e' Hva' He'. destruct (Howned va' e' Hva' He') as (_ & [_ ?] & _). lia.
  - intros va' e' Hva' He' _. by apply (Howned va').
  - intros va1 va2 e1 e2 H1 H2 M1 M2 _ _ E.
    destruct (Hcase _ _ H1 M1) as [[D1 ->]|N1], (Hcase _ _ H2 M2) as [[D2 ->]|N2].
    + congruence.
    + exfalso. destruct (Hold va2 e2 H2 N2) as (_ & _ & Hne). congruence.
    + exfalso. destruct (Hold va1 e1 H1 N1) as (_ & _ & Hne). congruence.
    + by apply (space_once hh s1 root T va1 va2 e1 e2).
  - intros va' e' Hva' He'. destruct (Hcase va' e' Hva' He') as [[_ ->]|He0].
    + by rewrite has_lor by (done || lia).
    + by apply (us_managed _ _ _ _ Hsp1 va').
Qed.

Lemma mapped_cleared : mapping hh s' root va = Some (Z.lor f flags) -> cleared s s' root va flags.
Proof.
  intros Hm. destruct Hfl as (Hfb & _ & _). pose proof Hf as [Hal Hr].
  assert (Ea : pte_addr (Z.lor f flags) = f) by (by apply pte_addr_lor; [|lia|]).
  split; [eauto|]. intros va' Hva' E. unfold user_byte, byte_of. rewrite (mapping_page hh s' root va' va), Hm by done.
  cbn [fmap option_fmap option_map]. f_equal. rewrite Ea, (valid_frame_p2v hh Hhh) by done.
  pose proof (Z.mod_pos_bound va' 4096 ltac:(lia)). rewrite (used_bytes f 1) by (done || apply new_no_table). cbn.
  rewrite memset_spec by lia. case_bools; done.
Qed.
End page.

(** The page at [va] is cleared, or as it was for want of memory for a page table. *)
Definition page_grown s s' (root flags va : Z) : Prop :=
  cleared s s' root va flags \/
  ((forall va', user_va va' -> va' / 4096 = va / 4096 -> same_at s s' root va') /\ exhausted s').
Record grown s root va flags (n : nat) s' : Prop := {
  gr_space : exists T', space hh s' root T';
  gr_pages : forall j, 0 <= j < Z.of_nat n -> page_grown s s' root flags (va + 4096 * j);
  gr_other : forall va', user_va va' -> ~ (va <= va' < va + 4096 * Z.of_nat n) -> same_at s s' root va';
  gr_used : forall q m, frames (vm_pa s) q = Some m -> frames (vm_pa s') q = Some m;
}.

Lemma used_exhausted s s' : (forall q m, frames (vm_pa s) q = Some m -> frames (vm_pa s') q = Some m) -> exhausted s -> exhausted s'.
Proof. intros Hu He q. specialize (He q). destruct (frames (vm_pa s) q) as [m|] eqn:E; [|done]. by rewrite (Hu q m E). Qed.

Lemma same_at_trans s1 s2 s3 root va : same_at s1 s2 root va -> same_at s2 s3 root va -> same_at s1 s3 root va.
Proof. intros [A1 A2] [B1 B2]. split; congruence. Qed.
Lemma page_grown_before s1 s2 s3 root flags va :
  (forall va', user_va va' -> va' / 4096 = va / 4096 -> same_at s1 s2 root va') ->
  (forall q m, frames (vm_pa s1) q = Some m -> frames (vm_pa s2) q = Some m) ->
  page_grown s2 s3 root flags va -> page_grown s1 s3 root flags va.
Proof.
  intros Hsame Hu [[(f & Hf & Hm) Hb]|[Hp He]]; [left|right].
  { split; [|done]. exists f. split; [|done]. destruct (frames (vm_pa s1) f) as [m|] eqn:E; [|done]. by rewrite (Hu f m E) in Hf. } split; [|done]. intros va' Hva' E.
  apply (same_at_trans _ s2); [by apply Hsame|by apply Hp].
Qed.
Lemma page_grown_after s1 s2 s3 root flags va : user_va va ->
  (forall va', user_va va' -> va' / 4096 = va / 4096 -> same_at s2 s3 root va') -> (exhausted s2 -> exhausted s3) ->
  page_grown s1 s2 root flags va -> page_grown s1 s3 root flags va.
Proof.
  intros Hva Hsame Hex [[(f & Hf & Hm & Ea) Hb]|[Hp He]].
  - left. split; [exists f; by rewrite (proj1 (Hsame va Hva eq_refl))|]. intros va' Hva' E. rewrite (proj2 (Hsame va' Hva' E)). by apply Hb.
  - right. split; [|by apply Hex]. intros va' Hva' E. apply (same_at_trans _ s2); [by apply Hp|by apply Hsame].
Qed.
End grow.

Section calls.
Context {S H : Type} `{FO : FrameOps S, FA : !FrameAlloc S} `{HO : HeapOps H} (hh : Z) (Hhh : hhdm_ok hh).
Implicit Types (k : kernel S H).

(** A page that was just taken is cleared and mapped. *)
Lemma wp_fresh_page k root T va flags f x :
  space hh (k_vm k) root T -> user_va va -> valid_frame f -> frames (vm_pa (k_vm k)) f = None ->
  fa_wf x -> frames x f = Some 1 -> (forall q, q <> f -> frames x q = frames (vm_pa (k_vm k)) q) ->
  flag_bits flags /\ present flags = true /\ has PTE_NOPMM flags = false ->
  wp (on_vm (mem_memset (p2v hh f) 0 PAGE_SIZE) ;; on_vm (vmm_map_page hh root va f flags)) (fun _ k' => exists s2 T2,
    k' = set_k_vm s2 k /\ space hh s2 root T2 /\ page_grown hh (k_vm k) s2 root flags va /\
    (forall va', user_va va' -> va' / 4096 <> va / 4096 -> same_at hh (k_vm k) s2 root va') /\
    (forall q m, frames (vm_pa (k_vm k)) q = Some m -> frames (vm_pa s2) q = Some m) /\ frames (vm_pa s2) f <> None)
    (set_k_vm (mkVm (vm_mem (k_vm k)) x (kernel_pml4 (k_vm k))) k).
Proof.
  intros Hsp Hva Hf Hfree Hx Hx1 Hxo Hfl. rewrite (valid_frame_p2v hh Hhh f Hf). wp_step. apply wp_on_vm.
  unfold mem_memset, set_mem. wp_step. cbn [k_vm set_k_vm vm_mem vm_pa kernel_pml4]. apply wp_on_vm. cbn [k_vm set_k_vm].
  change PAGE_SIZE with 4096. set (s1 := mkVm _ x _).
  destruct (take_space hh Hhh (k_vm k) root T f x Hsp Hf Hfree Hx Hxo) as [Hsp1 Hs1]. fold s1 in Hsp1, Hs1.
  eapply wp_mono; [apply (wp_vmm_map_page hh Hhh s1 root T va f flags); try done; try (destruct Hf; lia || done); [apply Hsp1|apply Hfl|apply Hfl]|].
  intros [] s2 (T2 & Hwf2 & Hmf & Hoth & Hnew). exists s2, T2. split; [done|].
  assert (Hsame : forall va', user_va va' -> mapping hh s2 root va' = mapping hh s1 root va' -> same_at hh (k_vm k) s2 root va').
  { intros va' Hva' E. by apply (mapped_same hh Hhh (k_vm k) root T f x s2 T2). }
  split; [|split; [|split; [|split]]].
  - apply (mapped_space hh Hhh (k_vm k) root T va flags f x s2 T2); try done. destruct Hnew as [?|[? _]]; [by left|by right].
  - destruct Hnew as [Hnew|[Hnew Hex]]; [left; by apply (mapped_cleared hh Hhh (k_vm k) root T va flags f x s2 T2)|right].
    split; [|exact Hex]. intros va' Hva' E. apply Hsame; [done|].
    by rewrite (mapping_page hh s2 root va' va), (mapping_page hh s1 root va' va).
  - intros va' Hva' Hne. apply Hsame; [done|by apply Hoth].
  - intros q m Hq. apply (mf_used _ _ _ _ _ _ Hmf). cbn. rewrite Hxo; [done|]. congruence.
  - by rewrite (mf_used _ _ _ _ _ _ Hmf f 1 Hx1).
Qed.

(** The pages still free, as far as [n] of them are asked for, fit between [va] and
    the end of the user half. *)
Definition free_fits (v : vm S) (va : Z) (n : nat) : Prop :=
  forall l : list Z, NoDup l -> Forall (fun q => valid_frame q /\ frames (vm_pa v) q = None) l ->
    va + 4096 * Z.of_nat (length l `min` n) <= 140737488355328.
Lemma free_fits_range v va n : va + 4096 * Z.of_nat n <= 140737488355328 -> free_fits v va n.
Proof. intros Hn l _ _. lia. Qed.
Lemma free_fits_step v v' va n f : valid_frame f -> frames (vm_pa v) f = None -> frames (vm_pa v') f <> None ->
  (forall q m, frames (vm_pa v) q = Some m -> frames (vm_pa v') q = Some m) ->
  free_fits v va (Datatypes.S n) -> free_fits v' (va + 4096) n.
Proof.
  intros Hf Hfree Hf' Hu Hfit l Hnd Hl. assert (Hfl : f ∉ l) by (intros Hin; by destruct (proj1 (Forall_forall _ _) Hl f Hin)).
  assert (Hall : Forall (fun q => valid_frame q /\ frames (vm_pa v) q = None) (f :: l)).
  { constructor; [done|]. eapply Forall_impl; [exact Hl|]. intros q [Hv Hq]. split; [done|].
    destruct (frames (vm_pa v) q) as [m|] eqn:E; [|done]. by rewrite (Hu q m E) in Hq. }
  specialize (Hfit (f :: l) (NoDup_cons_2 _ _ Hfl Hnd) Hall). cbn [length Nat.min] in Hfit. lia.
Qed.

Lemma wp_map_fresh root flags : flag_bits flags /\ present flags = true /\ has PTE_NOPMM flags = false ->
  forall n va mapped k T, space hh (k_vm k) root T -> 0 <= va -> va mod 4096 = 0 -> free_fits (k_vm k) va n ->
  wp (map_fresh hh root va flags mapped n) (fun r k' => exists v m, k' = set_k_vm v k /\ (m <= n)%nat /\
    r = mapped + Z.of_nat m /\ grown hh (k_vm k) root va flags m v /\ ((m < n)%nat -> exhausted v) /\ va + 4096 * Z.of_nat m <= 140737488355328) k.
Proof.
  intros Hfl. induction n as [|n IH]; intros va mapped k T Hsp H0 Hal Hfit; pose proof (Hfit [] ltac:(constructor) ltac:(constructor)) as Hend; cbn [length Nat.min] in Hend; cbn [map_fresh].
  { wp_steps. exists (k_vm k), 0%nat. split_and!; [by destruct k|done|lia| |lia|lia].
    split; [by exists T|lia|intros; done|done]. }
  wp_step. apply wp_on_vm, wp_pa.
  eapply wp_mono; [apply fa_alloc_spec, (as_pa _ _ _ _ (sp_wf _ _ _ _ (us_ok _ _ _ _ Hsp)))|].
  intros f x [Hx [(-> & Hfull & Hsame)|(Hf & Hfree & Hx1 & Hxo)]]; cbv beta.
  { cbn [Z.eqb]. wp_steps. exists (mkVm (vm_mem (k_vm k)) x (kernel_pml4 (k_vm k))), 0%nat. split_and!; [done|lia|lia| | |lia].
    - split; [|lia|intros va' _ _; by split|intros q m; cbn; by rewrite Hsame]. exists T. apply (space_same hh (k_vm k)); try done.
      + apply as_wf_pa_change; [apply Hsp|done|]. intros p t _. apply Hsame.
      + intros va' e m Hva' He Hm. exists m. cbn. rewrite Hsame. split; [done|].
        destruct (space_page _ _ _ _ _ _ Hsp Hva' He) as (m' & _ & _ & ? & ?). congruence.
    - intros _ q. cbn. by rewrite Hsame. }
  destruct (Z.eqb_spec f 0) as [->|_]; [destruct Hf; lia|].
  assert (Hva : user_va va).
  { specialize (Hfit [f] (NoDup_singleton _)). rewrite Forall_singleton in Hfit. specialize (Hfit (conj Hf Hfree)). cbn [length] in Hfit. unfold user_va. lia. }
  pose proof (wp_fresh_page k root T va flags f x Hsp Hva Hf Hfree Hx Hx1 Hxo Hfl) as Hw.
  wp_follow Hw. wp_step. eapply wp_mono; [exact Hw|]. intros [] k' (s2 & T2 & -> & Hsp2 & Hpage & Hmo & Hu2 & Hf2). cbv beta.
  change PAGE_SIZE with 4096. rewrite (u64_small (va + 4096)) by (unfold user_va in Hva; lia).
  eapply wp_mono; [apply (IH (va + 4096) (mapped + 1) (set_k_vm s2 k) T2); [done|lia|lia|by apply (free_fits_step (k_vm k) _ _ _ f)]|].
  intros r k3 (v & m & -> & Hm & -> & [Hg1 Hg2 Hg3 Hg4] & Hex & Hlast). cbn [k_vm set_k_vm] in *. exists v, (Datatypes.S m).
  split_and!; [done|lia|lia| |intros ?; apply Hex; lia|lia]. split; [done|..].
  - intros j Hj. destruct (decide (j = 0)) as [->|Hj0].
    + rewrite Z.mul_0_r, Z.add_0_r. apply (page_grown_after hh _ s2 v root flags va Hva); [|by apply used_exhausted|done].
      intros va' Hva' E. apply Hg3; [done|]. lia.
    + replace (va + 4096 * j) with (va + 4096 + 4096 * (j - 1)) by lia. apply (page_grown_before hh _ s2); [|done|apply Hg2; lia].
      intros va' Hva' E. apply Hmo; [done|]. lia.
  - intros va' Hva' Hr. apply (same_at_trans hh _ s2); [apply Hmo; [done|lia]|apply Hg3; [done|lia]].
  - intros q m' Hq. by apply Hg4, Hu2.
Qed.

(** ** The calls *)

Lemma mmap_flags_ok prot flags :
  flag_bits (mmap_flags prot flags) /\ present (mmap_flags prot flags) = true /\ has PTE_NOPMM (mmap_flags prot flags) = false.
Proof.
  unfold mmap_flags. cbv zeta. destruct (Z.land prot PROT_WRITE =? 0), (Z.land prot PROT_EXEC =? 0), (Z.land flags MAP_SHARED =? 0);
    (split; [split; [split; vm_compute; (discriminate || reflexivity)|vm_compute; reflexivity]|split; vm_compute; reflexivity]).
Qed.

(** The kernel after an update of the current process. *)
Definition with_current (g : process -> process) k : kernel S H :=
  set_k_sched (set_procs (alter g (current_process (k_sched k)) (procs (k_sched k))) (k_sched k)) k.

(** A request that [mmap] accepts: of at least one byte, anonymous, and shared or
    private. *)
Definition mmap_accepted (length flags fd : Z) : bool :=
  (0 <? length) && (s64 fd =? -1) && negb (Z.land (s32 flags) MAP_ANONYMOUS =? 0) &&
  negb (Z.land (s32 flags) (Z.lor MAP_SHARED MAP_PRIVATE) =? 0).
(** The pages that are mapped for a length: as many as it takes, but none for
    the last 4095 lengths of 64 bits, where the rounding wraps around. *)
Definition mmap_pages (length : Z) : Z :=
  if length <=? 18446744073709551616 - 4096 then (length + 4095) / 4096 else 0.
Lemma mmap_pages_eq length : 0 <= length < 18446744073709551616 -> u64 (length + PAGE_SIZE - 1) / PAGE_SIZE = mmap_pages length.
Proof.
  intros Hl. unfold mmap_pages, PAGE_SIZE. replace (length + 4096 - 1) with (length + 4095) by lia.
  destruct (Z.leb_spec length (18446744073709551616 - 4096)); [by rewrite u64_small by lia|]. unfold u64.
  rewrite <- (Z_mod_plus_full _ (-1)), Z.mod_small by lia. lia.
Qed.


Definition brk_flags : Z := Z.lor (Z.lor (Z.lor PTE_PRESENT PTE_WRITABLE) PTE_USER) PTE_NX.
Lemma brk_flags_ok : flag_bits brk_flags /\ present brk_flags = true /\ has PTE_NOPMM brk_flags = false.
Proof. split; [split; [split; vm_compute; (discriminate || reflexivity)|vm_compute; reflexivity]|split; vm_compute; reflexivity]. Qed.

Definition page_up (a : Z) : Z := 4096 * ((a + 4095) / 4096).
Lemma page_align_up_eq a : 0 <= a <= 140737488355328 -> page_align_up a = page_up a.
Proof.
  intros Ha. unfold page_align_up, page_up, PAGE_SIZE. rewrite u64_small by lia. rewrite page_mask by lia. lia.
Qed.

Lemma wp_sys_brk k r T b :
  procs (k_sched k) !! current_process (k_sched k) = Some r ->
  space hh (k_vm k) (p2v hh (p_cr3 r)) T -> 0 < b -> brk_start r <= b -> page_up b <= 140737488355328 ->
  0 <= brk r -> page_up (brk r) <= 140737488355328 ->
  wp (sys_brk hh b) (fun res k' => exists v m,
    grown hh (k_vm k) (p2v hh (p_cr3 r)) (page_up (brk r)) brk_flags m v /\
    if page_up b <=? page_up (brk r) + 4096 * Z.of_nat m
    then res = Ret b /\ k' = with_current (set_brk b) (set_k_vm v k) /\ 4096 * Z.of_nat m = Z.max 0 (page_up b - page_up (brk r))
    else res = Ret (brk r) /\ exhausted v /\ k' = set_k_vm v k) k.
Proof.
  intros Hr Hsp Hb Hst Hmax H0 Hmax0. pose proof (eq_refl (page_up b)) as Eb. pose proof (eq_refl (page_up (brk r))) as Er.
  unfold page_up at 1 in Eb. unfold page_up at 1 in Er.
  unfold sys_brk, get_current. wp_steps. eapply wp_pread; [exact Hr|]. destruct (Z.eqb_spec b 0) as [|_]; [lia|]. wp_steps.
  eapply wp_pread; [exact Hr|]. destruct (Z.ltb_spec b (brk_start r)); [lia|]. cbv zeta.
  rewrite !page_align_up_eq by lia. wp_step. destruct (Z.ltb_spec (page_up (brk r)) (page_up b)) as [Hlt|Hge].
  - unfold cur_pml4, get_current. wp_steps. eapply wp_pread; [exact Hr|]. wp_steps. unfold PAGE_SIZE. fold brk_flags.
    set (n := (page_up b - page_up (brk r)) / 4096). assert (Hn : 4096 * n = page_up b - page_up (brk r)) by (unfold n; lia).
    eapply wp_mono; [apply (wp_map_fresh (p2v hh (p_cr3 r)) _ brk_flags_ok (Z.to_nat n) (page_up (brk r)) 0 k T); [done|lia|lia|apply free_fits_range; lia]|].
    intros mp k1 (v & m & -> & Hm & -> & Hg & Hex & _). rewrite Z.add_0_l. wp_steps. destruct (Z.ltb_spec (Z.of_nat m) n); cbn [negb].
    + wp_steps. exists v, m. split; [done|]. destruct (Z.leb_spec (page_up b) (page_up (brk r) + 4096 * Z.of_nat m)); [lia|].
      split_and!; [done|apply Hex; lia|done].
    + wp_step. eapply wp_pwrite; [exact Hr|]. wp_steps. exists v, m. split; [done|].
      destruct (Z.leb_spec (page_up b) (page_up (brk r) + 4096 * Z.of_nat m)); [|lia]. split_and!; [done|done|lia].
  - wp_steps. eapply wp_pwrite; [exact Hr|]. wp_steps. exists (k_vm k), 0%nat.
    split; [split; [by exists T|lia|done|done]|]. destruct (Z.leb_spec (page_up b) (page_up (brk r) + 4096 * Z.of_nat 0)); [|lia].
    split_and!; [done| |lia]. by destruct k.
Qed.

(** [brk] upwards maps cleared, writable pages for the bytes between the old
    break and the new one and returns the new break; downwards it only moves the
    break.  With memory exhausted the break stays.  Nothing else the process sees
    changes. *)
Theorem sys_brk_correct k r T b :
  procs (k_sched k) !! current_process (k_sched k) = Some r ->
  space hh (k_vm k) (p2v hh (p_cr3 r)) T -> 0 < b -> brk_start r <= b -> page_up b <= 140737488355328 ->
  0 <= brk r -> page_up (brk r) <= 140737488355328 ->
  wp (sys_brk hh b) (fun res k' => exists v m,
    grown hh (k_vm k) (p2v hh (p_cr3 r)) (page_up (brk r)) brk_flags m v /\
    if page_up b <=? page_up (brk r) + 4096 * Z.of_nat m
    then res = Ret b /\ k' = with_current (set_brk b) (set_k_vm v k) /\ 4096 * Z.of_nat m = Z.max 0 (page_up b - page_up (brk r))
    else res = Ret (brk r) /\ exhausted v /\ k' = set_k_vm v k) k.
Proof. apply wp_sys_brk. Qed.

(** C39: Moving the break down and back up again loses what was there: the pages in
    between are replaced by cleared ones, and the old pages, which nothing maps
    any more, keep their references (the comment in the code says that they are
    left in place). *)
Theorem brk_regrow_loses_data k r T b va e n :
  procs (k_sched k) !! current_process (k_sched k) = Some r ->
  space hh (k_vm k) (p2v hh (p_cr3 r)) T -> 0 < b -> brk_start r <= b -> b < brk r ->
  page_up (brk r) <= 140737488355328 -> page_up b <= va < page_up (brk r) ->
  mapping hh (k_vm k) (p2v hh (p_cr3 r)) va = Some e -> frames (vm_pa (k_vm k)) (pte_addr e) = Some n ->
  wp (_ <- sys_brk hh b ;; sys_brk hh (brk r)) (fun res k' =>
    exhausted (k_vm k') \/
    (res = Ret (brk r) /\ user_byte hh (k_vm k') (p2v hh (p_cr3 r)) va = Some 0 /\
     (exists e', mapping hh (k_vm k') (p2v hh (p_cr3 r)) va = Some e' /\ pte_addr e' <> pte_addr e) /\
     frames (vm_pa (k_vm k')) (pte_addr e) = Some n)) k.
Proof.
  intros Hr Hsp Hb Hst Hlt Hmax Hva He Hn. set (root := p2v hh (p_cr3 r)) in *.
  assert (Hle : page_up b <= page_up (brk r)) by (unfold page_up; lia).
  assert (Hb0 : 0 <= page_up b) by (unfold page_up; lia).
  wp_step. eapply wp_mono; [apply (wp_sys_brk k r T b); (done || lia)|].
  intros res1 k1 (v & m & [[T1 Hsp1] _ Ho1 Hu1] & H1). fold root in Ho1, Hsp1.
  destruct (Z.leb_spec (page_up b) (page_up (brk r) + 4096 * Z.of_nat m)); [|lia]. destruct H1 as (_ & -> & Hm).
  assert (m = 0%nat) by lia. subst m. set (k1 := with_current _ _).
  assert (Hr1 : procs (k_sched k1) !! current_process (k_sched k1) = Some (set_brk b r)) by (cbn; by rewrite lookup_alter_eq, Hr).
  eapply wp_mono; [apply (wp_sys_brk k1 (set_brk b r) T1 (brk r) Hr1 Hsp1); cbn; (done || lia)|].
  intros res k2 (v2 & m2 & [_ Hp2 Ho2 Hu2] & H2). change (p2v hh (p_cr3 (set_brk b r))) with root in *. change (brk (set_brk b r)) with b in *.
  destruct (Z.leb_spec (page_up (brk r)) (page_up b + 4096 * Z.of_nat m2)).
  2:{ destruct H2 as (_ & Hex & ->). by left. }
  destruct H2 as (-> & -> & Hm2). cbn [k_vm with_current set_k_sched set_k_vm] in *.
  set (j := (va - page_up b) / 4096). assert (Hj : va / 4096 = (page_up b + 4096 * j) / 4096) by (unfold j, page_up in *; lia).
  assert (Hjr : 0 <= j < Z.of_nat m2) by (unfold j, page_up in *; lia).
  assert (Hua : user_va va) by (unfold user_va; lia).
  destruct (Hp2 j Hjr) as [[(f & Hf & Hmp & Ea) Hz]|[_ Hex]]; [right|by left]. split; [done|].
  split; [by apply Hz|]. split; [|by apply Hu2, Hu1]. exists (Z.lor f brk_flags). split.
  - rewrite (mapping_page hh v2 root va (page_up b + 4096 * j)); [done|done| |done]. unfold user_va in *. unfold j, page_up in *. lia.
  - rewrite Ea. intros ->. cbn in Hf. rewrite (Hu1 _ _ Hn) in Hf. done.
Qed.
End calls.

(** ** Instances: the process of [CloneSpace] with a break behind its page *)

Definition grow_proc : process :=
  set_p_cr3 (fork_root - demo_hh) (set_brk 0x401000 (set_brk_start 0x400000 (set_mmap_next MMAP_BASE
    (ring_proc PROCESS_RUNNING 1 3 1)))).
Definition grow_kernel : kernel pmm bump :=
  let s := demo_ring_sched true in
  set_k_vm fork_vm (demo_kernel (set_procs (<[2 := grow_proc]> (procs s)) s)).
Lemma grow_root : p2v demo_hh (p_cr3 grow_proc) = fork_root.
Proof. vm_compute. reflexivity. Qed.
Lemma grow_current : procs (k_sched grow_kernel) !! current_process (k_sched grow_kernel) = Some grow_proc.
Proof. vm_compute. reflexivity. Qed.
Lemma grow_frames : frames (vm_pa (k_vm grow_kernel)) (pte_addr 8199) = Some 1.
Proof. vm_compute. reflexivity. Qed.
#[local] Opaque fork_vm sys_brk sys_mmap.

Lemma pmm_free_fits (v : vm pmm) va n : va + 4096 * npages (vm_pa v) <= 140737488355328 -> 0 <= npages (vm_pa v) -> free_fits v va n.
Proof.
  intros Hn H0 l Hnd Hl. enough (length l <= Z.to_nat (npages (vm_pa v)))%nat by lia.
  assert (Hs : l ⊆+ (fun j => j * PAGE_SIZE) <$> seqZ 0 (npages (vm_pa v)));
    [|apply submseteq_length in Hs; by rewrite length_fmap, length_seqZ in Hs].
  apply NoDup_submseteq; [done|]. intros q Hq. destruct (proj1 (Forall_forall _ _) Hl q Hq) as [_ Hf].
  cbn in Hf. unfold pmm_frames, PAGE_SIZE in *. apply list_elem_of_fmap. exists (q / 4096). rewrite elem_of_seqZ.
  destruct (Z.eqb_spec (q mod 4096) 0), (Z.leb_spec 0 q), (Z.ltb_spec q (npages (vm_pa v) * 4096)); cbn [andb] in Hf; try done. lia.
Qed.


Lemma sys_brk_correct_witness :
  wp (sys_brk demo_hh 0x403000) (fun res k' => res = Ret 0x403000 \/ (res = Ret 0x401000 /\ exhausted (k_vm k'))) grow_kernel.
Proof.
  destruct fork_user_space as (T & Hsp & _). rewrite <- grow_root in Hsp.
  eapply wp_mono; [apply (sys_brk_correct demo_hh demo_hh_ok grow_kernel grow_proc T 0x403000 grow_current Hsp);
    vm_compute; (discriminate || reflexivity)|].
  intros res k' (v & m & _ & Hif). destruct (_ <=? _).
  - left. apply Hif.
  - right. destruct Hif as (-> & Hex & ->). split; [reflexivity|exact Hex].
Defined.

Lemma brk_regrow_loses_data_witness :
  wp (_ <- sys_brk demo_hh 0x400000 ;; sys_brk demo_hh 0x401000) (fun res k' =>
    exhausted (k_vm k') \/ user_byte demo_hh (k_vm k') fork_root 0x400000 = Some 0) grow_kernel.
Proof.
  destruct fork_user_space as (T & Hsp & _). rewrite <- grow_root in Hsp |- *.
  eapply wp_mono; [apply (brk_regrow_loses_data demo_hh demo_hh_ok grow_kernel grow_proc T 0x400000 0x400000 8199 1 grow_current Hsp)|].
  - reflexivity.
  - vm_compute. discriminate.
  - reflexivity.
  - vm_compute. discriminate.
  - vm_compute. split; [discriminate|reflexivity].
  - rewrite grow_root. exact fork_mapping.
  - exact grow_frames.
  - intros res k' [Hex|(_ & Hz & _)]; [left; exact Hex|right; exact Hz].
Defined.
